(* ===== verification/_CoqProject ===== *)
-Q . S2P
Prelude.v
Wire.v
Sample.v
Codec.v
CtrlBlk.v
SlaveFsm.v
MasterFsm.v
Boxreg.v
Knock.v
Identity.v
BoxModel.v
BoxFacts.v
Disco.v
DiscoTable.v
DiscoPublish.v
Clock.v
Arbitration.v
Hunt.v
CtrlFrames.v
Link.v
HeadampTx.v
Grant.v
Scene.v
Master.v
MasterInv.v
MasterLink.v
MasterGrant.v
MasterScene.v
Ring.v
RingSpsc.v
FrameRing.v
IxRing.v
Pace.v
PacerClock.v
Seqlock.v
PacerState.v
Pacer.v
MasterBox.v
PacerInv.v
PacerProps.v
PacerSession.v
Watch.v
Rx.v
RxAudio.v
EventRing.v
KeyTable.v
IfScan.v
IfScanProps.v
Topo.v
TopoProps.v
TopoRun.v
Tap.v
Pcap.v
Conf.v
Segment.v
Linkmon.v
Ifname.v
Tx.v
Transcript.v
Health.v
Slave.v
SlaveTx.v
SlavePreamp.v
SlaveBox.v
