(* ===== verification/Prelude.v ===== *)
(** * libreac: a verification development

    libreac implements REAC, a point-to-point Ethernet audio protocol between a
    mixer (the master) and a stagebox (the slave). A frame is an Ethernet header,
    a 16-bit counter, a type word, a 32-byte control block and twelve samples per
    channel in a braided 24-bit layout. The library holds the codec, the two
    handshake engines, what a mixer knows about boxes and their preamps, and the
    discovery and election logic that decides which end a host presents on a
    wire. This development translates that logic from the C sources and proves
    what makes it correct.

    ** The parts and where they are

    - [Prelude]: machine integers with their wraps, byte buffers ([rd], [wr],
      [blit], [slice]), the automation and the lemmas every file shares.
    - [Wire] (src/reac.c, include/reac/reac.h, src/reac_upstream.c): frame
      geometry, counters, the rate tracker.
    - [Sample], [Codec] (reac_sample.h, reac_braid.h, src/reac_encode.c,
      src/reac_decode.c): the sample format on binary32, the braid, the
      downstream builder and the decoders.
    - [CtrlBlk], [CtrlFrames] (src/reac_ctrlblk.c): the control block, both
      checksums, the parser, scene steps, the table of frame rows with every
      builder, head-amp records and the grant sweep.
    - [Identity], [BoxModel], [BoxFacts] (src/reac_identity.c, src/reac_ports.c,
      the catalogue of src/reac_ctrlblk.c, src/reac_box_synth.c,
      src/reac_box_facts.c, src/reac_macaddr.c): what a box declares about itself
      and how it is synthesised, recognised and named.
    - [SlaveFsm] (src/reac_fsm.c): the box side of the handshake, a step function
      over PHY, tick and receive events.
    - [MasterFsm] (src/reac_master_fsm.c): the transition table of the master.
    - [Master] (src/reac_master.c) with [Grant] (src/reac_grant.c), [Scene]
      (src/reac_scene_body.c) and [HeadampTx] (src/reac_headamp_tx.c): the master
      engine, slot by slot; [MasterInv], [MasterLink], [MasterGrant] and
      [MasterScene] hold its invariant and its theorems.
    - [Boxreg], [Knock] (src/reac_boxreg.c, src/reac_knock.c,
      src/reac_tapwait.c): slot allocation for several boxes, the licence to
      drive a silent wire.
    - [Disco] (src/reac_disco.c), with [DiscoTable] and [DiscoPublish] for its
      theorems: the frame classifier, the peer lock, the announce gate, the
      sighting table and its JSON snapshot.
    - [Clock] (src/reac_clock.c): reference selection and the delay-locked loop.
    - [Arbitration], [Hunt] (src/reac_arbitration.c, src/reac_hunt.c): who drives
      the segment, and the role a host takes on it.
    - [Link] (src/reac_ctrl.c, src/reac_link.c, src/reac_link_state.c): what a
      box's frame means to the master, the join burst, the published state.
    - [Ring], [RingSpsc] (transport/src/reac_ring.c): the sample ring between the
      audio graph and an engine, as single calls and as two interleaved threads.
    - [Slave] (transport/src/reac_slave.c): the slave engine around [SlaveFsm],
      turn by turn; [SlaveTx], [SlavePreamp] and [SlaveBox] hold its theorems
      about its transmissions, its preamps and a wire a stagebox masters.
    - The pacer (transport/src/reac_pacer.c), the thread that puts a master on the
      wire, in parts: [FrameRing] (the queue of encoded frames and its depth
      guard), [IxRing] (the event and command rings), [Pace] (the launch grid of
      transport/src/reac_etf.c, the egress backend, the slot clock and its debt),
      [PacerClock] (the references offered and the one followed), [Seqlock] (facts
      that cross threads), [PacerState] and [Pacer] (its state, reception, one turn
      of the loop, rate changes, opening). [MasterBox] and [PacerInv] hold the
      lemmas on its master and its published facts, [PacerProps] and
      [PacerSession] its theorems.
    - [Watch] (transport/src/reac_pace_watch.c, transport/src/reac_role_swap.c, the
      loss detector of the pacer): the standing alarms and the role record.
    - [Rx] (transport/src/reac_rx.c): the receiver; [RxAudio] composes the box's
      builder, the wire, the receiver and the ring into one path of a sample.
    - [EventRing], [KeyTable]: two structures the tables of the transport share, a
      bounded ring of verbs for a caller with the protocol its holdings follow, and
      a C array searched by a key.
    - [IfScan], [IfScanProps] (transport/src/reac_ifscan.c): which interfaces are
      listened to and served.
    - [Topo], [TopoProps], [TopoRun] (transport/src/reac_topo.c): the VLANs heard on
      a wire and the netdevs kept for them.
    - [Tap] (transport/src/reac_tap.c): the survey of a mirrored wire and what a
      passive host serves of it; [Pcap] (src/pcap_source.c): the capture files it
      and the receiver read.
    - [Conf] (transport/src/reac_conf.c, the parsing half of
      transport/src/reac_rt.c): the layered lookup of a key.
    - [Segment] (transport/src/reac_segment_ident.c), [Linkmon]
      (transport/src/reac_linkmon.c), [Ifname] (transport/src/reac_ifname.c), [Tx]
      (transport/src/reac_tx.c): what a following segment publishes, the edges of a
      carrier, the names of adapters, frames sent without a handshake.
    - [Transcript] (include/reac/reac_role.h, include/reac/reac_envflag.h, the names
      and sentences of src/reac_clock.c and src/reac_master.c) and [Health] (the
      health poll and the telemetry of transport/src/reac_pacer.c): the words an
      operator gives and what the pacer reports back.

    The engines meet in the transport: a pacer owns a master and a frame ring, a
    slave engine owns a [SlaveFsm] and a receiver that feeds a sample ring, a tap
    owns one receiver per stream, and the scan and the topology tell their owner
    through a ring of verbs which of these to open and close.

    ** How code becomes definitions

    A struct is a Record, an enum an Inductive type, a function a Definition over
    the state it reads that returns the state it leaves; a -1 or 0 return that
    carries no result is [None]. A [uint16_t] and the like are [Z] with the wrap
    written out where the C type wraps. A C array is a list of its elements, a
    string the list of its characters. A [float] is a [spec_float] at binary32 and
    a [double] one at binary64, with the correctly rounded operations. Borrowed
    pointers (the head-amp table a master reads) are arguments of each step, so
    their owner may change them in between. Loops are folds or structural
    recursion. Where the length of a loop is not visible in the code it runs on
    fuel, and enough is proved: one unit per entry for the ageing of the sighting
    table, one per byte for the walk over a capture file ([walk_ends]) and for the
    lines of a configuration file. Digit loops run on the fuel of the widest value
    (3 digits for a width, 20 for a 64-bit count). Files, the environment, the
    datagrams read and the answers of the kernel are arguments.

    A master is considered at 500 frames per second and above: the code derives
    its slot geometry from the rate, and the rates it is used at are 3675, 4000
    and 8000. Theorems about a running component quantify over every state its
    owner can reach ([master_reach], [hunt_reach], [clock_run],
    [pacer_reach], [scan_reach], [topo_reach], [tap_run], the runs of [SlaveFsm]).

    ** What is proved

    - The codec: encoding and decoding are inverse, the braid is a bijection, any
      single corrupted byte of a control block is detected, a scene push
      reassembles, box declarations and identities survive the wire.
    - The slave: its state invariant, no audio without a grant, every courtship
      ends, a granted one settles, the link is held and dropped exactly when the
      code says.
    - The master: its state is well formed, everything it puts on the wire is
      valid and true, a box is ESTABLISHED only after its complete enrolment
      sweep, a join heard mid-transfer is served within one cycle, the link lasts
      exactly its budget.
    - Preamps: no record leaves that the operator did not ask for, and every
      change leaves within a bounded number of calls.
    - Both ends together: every frame a box builds is the event the master takes
      it for.
    - Discovery and election: the table is the exact summary of what was heard,
      ageing terminates and removes exactly the stale, the snapshot always fits,
      a role is yielded only to a master that streams, a vacant wire is taken
      exactly when the evidence says so, a pin is obeyed, a lock is only claimed
      after four good samples.
    - The slave engine: the upstream counter follows the master's, every frame it
      sends a desk is heard as the step of the handshake it is, a master's
      enrolment sweep received in any order sets every preamp to the operator's
      table, and the enrolment with a stagebox is the automaton of its grid.
    - The rings: the sample ring is a bounded queue per row and no interleaving of
      its two threads makes one touch a slot the other is using; the frame ring is
      a queue with a guard, the index rings deliver in order; a reader of a
      sequence-counted cell never keeps a torn copy.
    - The pacer: the frame of every slot is one the wire may carry, other threads
      read what its master holds, an establishment opens a session and arms the
      preamps, a rate change starts the master anew, the launch grid is the exact
      rational one and every slot is sent or counted as dropped, the pace it claims
      is one it has earned.
    - The receiver: frames of another sender change nothing, a peer that restarts
      is followed within its promised run, and what a box played is what the graph
      reads.
    - The tables of the transport: the sockets and netdevs of a caller that works
      the verbs off in order are those the table says, as long as nothing was
      dropped, and the scan drops nothing once its ring has been drained.
    - The tap: one stream per source, every frame in exactly one count, and nothing
      served as a desk's without a frame only a desk sends; a capture file of
      either byte order reads back to its frames, a cut one to a prefix and an
      error.
    - Configuration: the lookup equals the first answer of six sources in order.
    - Reports: the line about the clock is the sentence of the discipline that
      pushed it and says locked only when it is, health windows tile the time, a
      cable is named at fault only when the kernel says so.
    - Smaller parts: the alarms state exactly their windows, edges of a carrier
      alternate, a master is heard exactly for its quiet window, ranks of adapters
      follow their addresses, a frame with its checksum gives the residue of the
      standard.
    - Where the code falls short of what it says, a lemma shows it on a concrete
      run ([release_all_loses], [vanished_in_overrun_stays], [seam_echo_misread],
      [etf_keeps_old_pace] and others).

    ** Not modelled

    System calls are arguments or left out: sockets and their options, threads,
    the scheduler, the bytes of netlink (a link message is given as its fields),
    sysfs, the kernel filter of the topology's tap, the queueing discipline's
    messages (transport/src/reac_etf_qdisc.c), VLAN devices
    (transport/src/reac_vlan.c), the lock of a segment
    (transport/src/reac_seglock.c), reading an interface's address or carrier,
    src/reac_packet_socket.c and src/reac_capture.c. Of the pacer the threads and
    the layout of the printed lines are left out (what a line says is modelled where
    it is decided: the reference, the cause of a transition, the advice to a master
    that stays in PROBING, the loss and the heartbeat). Of the real-time file the
    call that sets the scheduler is left out. Functions that only return a constant
    name are left out unless another part uses the name. The memory model is
    sequential consistency.
    The tools, tests, fuzzers, Python bindings and packaging use the library and
    are not part of it. *)

From stdpp Require Export base list list_numbers numbers sets.
From Stdlib Require Export ZArith Lia.
#[export] Set Default Goal Selector "!".

#[export] Ltac Zify.zify_post_hook ::= Z.to_euclidean_division_equations.

(** ** Machine integers

    A C object of an unsigned w-bit type is a [Z] in [0, 2^w); the conversions
    the source writes as casts (or gets from modular arithmetic) are the wraps
    below. *)
Declare Scope reac_scope.
Delimit Scope reac_scope with reac.
Global Open Scope Z_scope.

Definition u8 (x : Z) : Z := x mod 2 ^ 8.
Definition u16 (x : Z) : Z := x mod 2 ^ 16.
Definition u32 (x : Z) : Z := x mod 2 ^ 32.
Definition u64 (x : Z) : Z := x mod 2 ^ 64.

Definition is_byte (b : Z) : Prop := 0 ≤ b < 256.
Definition bytes (l : list Z) : Prop := Forall is_byte l.

(** A C [int] used as a truth value. *)
Definition b2z (b : bool) : Z := if b then 1 else 0.

(** ** Buffers

    A buffer is the list of its bytes. [rd] reads one byte, [wr] stores one,
    [blit] is [memcpy(dst + off, src, |src|)], [zeros] is [memset(_, 0, n)]
    and [slice] the [len] bytes at [off]. An index outside the buffer reads 0
    and stores nothing: the bounds theorems say where the code stays inside. *)
Definition rd (l : list Z) (i : Z) : Z := default 0 (l !! Z.to_nat i).
Definition wr (l : list Z) (i v : Z) : list Z := <[Z.to_nat i := v]> l.
Definition blit (dst : list Z) (off : Z) (src : list Z) : list Z :=
  list_inserts (Z.to_nat off) src dst.
Definition fill (n v : Z) : list Z := replicate (Z.to_nat n) v.
Definition zeros (n : Z) : list Z := fill n 0.
Definition slice (l : list Z) (off len : Z) : list Z :=
  take (Z.to_nat len) (drop (Z.to_nat off) l).
Definition zlen {A} (l : list A) : Z := Z.of_nat (length l).
Definition zsum (l : list Z) : Z := foldr Z.add 0 l.
(** The integers [a, a+n), the index sequence of a C [for] loop. *)
Definition zseq (a n : Z) : list Z := seqZ a n.

(** [memcmp(a, b, n) == 0] on two fields of the same size. *)
Definition zeqb (a b : list Z) : bool := bool_decide (a = b).

Notation "l .[ i ]" := (rd l i) (at level 1, i at level 200, left associativity,
  format "l .[ i ]") : reac_scope.
Global Open Scope reac_scope.

(** ** Automation *)

(** Split every conditional of the goal and turn the tests into facts. *)
Ltac split_ifs :=
  repeat match goal with
  | |- context [if ?b then _ else _] => destruct b eqn:?
  end.
Ltac split_ifs_in H :=
  repeat match type of H with
  | context [if ?b then _ else _] => destruct b eqn:?
  end.

(** Case analysis on a [match]/[if] scrutinee anywhere, keeping the equation. *)
Ltac split_match :=
  repeat match goal with
  | |- context [match ?x with _ => _ end] => destruct x eqn:?
  | H : context [match ?x with _ => _ end] |- _ => destruct x eqn:?
  end.

(** ** Facts about buffers *)


Create Rewrite HintDb zlen.

Lemma zlen_nonneg {A} (l : list A) : 0 ≤ zlen l.
Proof. unfold zlen; lia. Qed.

Lemma zlen_nil {A} : zlen (@nil A) = 0.
Proof. reflexivity. Qed.

Lemma zlen_cons {A} (x : A) l : zlen (x :: l) = 1 + zlen l.
Proof. unfold zlen; simpl; lia. Qed.

Lemma zlen_app {A} (l k : list A) : zlen (l ++ k) = zlen l + zlen k.
Proof. unfold zlen; rewrite length_app; lia. Qed.

Lemma zlen_wr l i v : zlen (wr l i v) = zlen l.
Proof. unfold zlen, wr; by rewrite length_insert. Qed.

Lemma zlen_blit l off k : zlen (blit l off k) = zlen l.
Proof. unfold zlen, blit; by rewrite length_inserts. Qed.

Lemma zlen_fill n v : zlen (fill n v) = Z.max 0 n.
Proof. unfold zlen, fill; rewrite length_replicate; lia. Qed.

Lemma zlen_zeros n : zlen (zeros n) = Z.max 0 n.
Proof. apply zlen_fill. Qed.

Lemma zlen_slice l off n :
  zlen (slice l off n) = Z.max 0 (Z.min n (zlen l - Z.max 0 off)).
Proof. unfold zlen, slice; rewrite length_take, length_drop; lia. Qed.

Lemma zlen_zseq a n : zlen (zseq a n) = Z.max 0 n.
Proof. unfold zlen, zseq; rewrite length_seqZ; lia. Qed.

Lemma zlen_fmap {A B} (f : A → B) (l : list A) : zlen (f <$> l) = zlen l.
Proof. unfold zlen; by rewrite length_fmap. Qed.

#[export] Hint Rewrite @zlen_nil @zlen_cons @zlen_app zlen_wr zlen_blit zlen_fill
  zlen_zeros zlen_slice zlen_zseq @zlen_fmap : zlen.

(** Arithmetic side conditions that mention buffer lengths. *)
Ltac zl := autorewrite with zlen in *; try (unfold zlen in *; lia).

Lemma rd_wr_eq l i v : 0 ≤ i < zlen l → rd (wr l i v) i = v.
Proof.
  unfold rd, wr, zlen; intros ?.
  by rewrite list_lookup_insert_eq by lia.
Qed.

Lemma rd_wr_ne l i j v : 0 ≤ i → 0 ≤ j → i ≠ j → rd (wr l i v) j = rd l j.
Proof. unfold rd, wr; intros. by rewrite list_lookup_insert_ne by lia. Qed.

Lemma rd_blit_in l off k j :
  0 ≤ off → off ≤ j < off + zlen k → j < zlen l →
  rd (blit l off k) j = rd k (j - off).
Proof.
  unfold rd, blit, zlen; intros.
  rewrite list_lookup_inserts by lia.
  by replace (Z.to_nat (j - off)) with (Z.to_nat j - Z.to_nat off)%nat by lia.
Qed.

Lemma rd_blit_out l off k j :
  0 ≤ off → 0 ≤ j → j < off ∨ off + zlen k ≤ j →
  rd (blit l off k) j = rd l j.
Proof.
  unfold rd, blit, zlen; intros ?? [?|?].
  - by rewrite list_lookup_inserts_lt by lia.
  - by rewrite list_lookup_inserts_ge by lia.
Qed.

Lemma rd_fill n v j : 0 ≤ j < n → rd (fill n v) j = v.
Proof. unfold rd, fill; intros. by rewrite lookup_replicate_2 by lia. Qed.

Lemma rd_zeros n j : rd (zeros n) j = 0.
Proof.
  unfold rd, zeros, fill.
  destruct (decide (Z.to_nat j < Z.to_nat n)%nat).
  - by rewrite lookup_replicate_2.
  - rewrite lookup_ge_None_2; [done|]. rewrite length_replicate; lia.
Qed.

Lemma rd_slice l off n i :
  0 ≤ off → 0 ≤ i < n → rd (slice l off n) i = rd l (off + i).
Proof.
  unfold rd, slice; intros.
  rewrite lookup_take_lt by lia. rewrite lookup_drop.
  by replace (Z.to_nat off + Z.to_nat i)%nat with (Z.to_nat (off + i)) by lia.
Qed.

Lemma rd_oob l i : zlen l ≤ i → rd l i = 0.
Proof. unfold rd, zlen; intros. by rewrite lookup_ge_None_2 by lia. Qed.

Lemma rd_app_l l k i : 0 ≤ i < zlen l → rd (l ++ k) i = rd l i.
Proof. unfold rd, zlen; intros. by rewrite lookup_app_l by lia. Qed.

Lemma rd_app_r l k i : zlen l ≤ i → rd (l ++ k) i = rd k (i - zlen l).
Proof.
  unfold rd, zlen; intros. rewrite lookup_app_r by lia.
  by replace (Z.to_nat i - length l)%nat with (Z.to_nat (i - Z.of_nat (length l))) by lia.
Qed.

Lemma rd_zseq_fmap (f : Z → Z) a n i :
  0 ≤ i < n → rd (f <$> zseq a n) i = f (a + i).
Proof.
  unfold rd, zseq; intros.
  rewrite list_lookup_fmap, lookup_seqZ_lt by lia. simpl. f_equal; lia.
Qed.

(** Two buffers of the same length with the same bytes are the same buffer. *)
Lemma buf_ext l k :
  zlen l = zlen k → (∀ i, 0 ≤ i < zlen l → rd l i = rd k i) → l = k.
Proof.
  unfold zlen, rd; intros Hlen Hrd.
  apply list_eq_same_length with (length l); [lia|done|].
  intros i x y Hi Hx Hy. specialize (Hrd (Z.of_nat i)).
  rewrite Nat2Z.id, Hx, Hy in Hrd. simpl in Hrd. lia.
Qed.

Lemma slice_full l n : n = zlen l → slice l 0 n = l.
Proof.
  intros ->. apply buf_ext; [zl|]. intros i Hi.
  rewrite rd_slice by zl. f_equal; lia.
Qed.

(** Reads through a chain of stores: resolve each layer by arithmetic. *)
Ltac rd_step :=
  first
    [ rewrite rd_wr_eq by zl
    | rewrite rd_wr_ne by lia
    | rewrite rd_blit_out by zl
    | rewrite rd_blit_in by zl
    | rewrite rd_zeros
    | rewrite rd_fill by zl
    | rewrite rd_slice by zl ].
Ltac rds := repeat rd_step.

(** ** Byte ranges and sums *)

Create HintDb bytes.

Lemma bytes_rd l i : bytes l → is_byte (rd l i).
Proof.
  unfold bytes, rd, is_byte; intros Hl.
  destruct (l !! Z.to_nat i) eqn:E; simpl; [|lia].
  exact (Forall_lookup_1 _ _ _ _ Hl E).
Qed.

Lemma bytes_wr l i v : bytes l → is_byte v → bytes (wr l i v).
Proof. intros. by apply Forall_insert. Qed.

Lemma bytes_blit l off k : bytes l → bytes k → bytes (blit l off k).
Proof. intros. by apply Forall_inserts. Qed.

Lemma bytes_fill n v : is_byte v → bytes (fill n v).
Proof. intros. by apply Forall_replicate. Qed.

Lemma bytes_zeros n : bytes (zeros n).
Proof. apply bytes_fill; unfold is_byte; lia. Qed.

Lemma bytes_slice l off n : bytes l → bytes (slice l off n).
Proof. intros. by apply Forall_take, Forall_drop. Qed.

Lemma bytes_app l k : bytes l → bytes k → bytes (l ++ k).
Proof. intros. by apply Forall_app. Qed.

Lemma is_byte_u8 x : is_byte (u8 x).
Proof. unfold is_byte, u8; apply Z.mod_pos_bound; lia. Qed.

#[export] Hint Resolve bytes_rd bytes_wr bytes_blit bytes_fill bytes_zeros bytes_slice
  bytes_app is_byte_u8 : bytes.

Lemma zsum_app l k : zsum (l ++ k) = zsum l + zsum k.
Proof. unfold zsum; induction l; simpl; lia. Qed.

Lemma zsum_wr l i v :
  0 ≤ i < zlen l → zsum (wr l i v) = zsum l - rd l i + v.
Proof.
  unfold rd, wr, zlen; intros Hi.
  assert (Hlt : (Z.to_nat i < length l)%nat) by lia.
  clear Hi; revert l Hlt; induction (Z.to_nat i) as [|n IH]; intros [|x l] Hlt;
    simpl in *; try lia.
  specialize (IH l ltac:(lia)); unfold zsum in *; lia.
Qed.

Lemma zsum_zeros n : zsum (zeros n) = 0.
Proof. unfold zsum, zeros, fill; induction (Z.to_nat n); simpl; lia. Qed.

Lemma zsum_bound l : bytes l → 0 ≤ zsum l ≤ 255 * zlen l.
Proof.
  unfold bytes, is_byte, zsum, zlen; induction 1; simpl in *; lia.
Qed.

(** [x & 0xff], [x & 0x7f] and [x & 0xffff] are remainders. *)
Lemma land_ff x : Z.land x 255 = x mod 256.
Proof. apply (Z.land_ones x 8); lia. Qed.

Lemma land_7f x : Z.land x 127 = x mod 128.
Proof. apply (Z.land_ones x 7); lia. Qed.

Lemma land_ffff x : Z.land x 65535 = x mod 65536.
Proof. apply (Z.land_ones x 16); lia. Qed.

Lemma land_1 x : Z.land x 1 = x mod 2.
Proof. apply (Z.land_ones x 1); lia. Qed.

(** Disjoint bits add. *)
Lemma lor_high n a b : 0 ≤ n → 0 ≤ a < 2 ^ n → 0 ≤ b → Z.lor a (Z.shiftl b n) = a + 2 ^ n * b.
Proof.
  intros Hn Ha Hb. rewrite <- (Z.lxor_lor a), <- Z.add_nocarry_lxor, Z.shiftl_mul_pow2;
    [lia|lia|..]; clear Hb; apply Z.bits_inj'; intros k Hk; rewrite Z.land_spec, Z.bits_0;
    (destruct (decide (k < n)); [rewrite Z.shiftl_spec_low by lia; apply andb_false_r|]);
    by rewrite <- (Z.mod_small a (2 ^ n)), Z.mod_pow2_bits_high by lia.
Qed.

(** [(lo | hi << 8)] is the little-endian word of two bytes, and its like of four. *)
Lemma lor_shift8 a b : is_byte a → 0 ≤ b → Z.lor a (Z.shiftl b 8) = a + 256 * b.
Proof. intros. by apply (lor_high 8). Qed.

Lemma word_sum a b c d :
  is_byte a → is_byte b → is_byte c → is_byte d →
  Z.lor (Z.lor (Z.lor a (Z.shiftl b 8)) (Z.shiftl c 16)) (Z.shiftl d 24) =
  a + 256 * b + 65536 * c + 16777216 * d.
Proof.
  unfold is_byte. intros. rewrite (lor_high 8 a b) by lia. rewrite (lor_high 16 _ c) by lia.
  rewrite (lor_high 24 _ d) by lia. lia.
Qed.

Lemma zeqb_eq a b : zeqb a b = true ↔ a = b.
Proof. unfold zeqb; apply bool_decide_eq_true. Qed.

Lemma zeqb_neq a b : zeqb a b = false ↔ a ≠ b.
Proof. unfold zeqb; apply bool_decide_eq_false. Qed.

Lemma zeqb_refl a : zeqb a a = true.
Proof. by apply zeqb_eq. Qed.

(** ** Sequences of stores

    A loop that stores [v] at [i] for every [(i, v)] of a list, in order. *)
Definition writes (buf : list Z) (ws : list (Z * Z)) : list Z :=
  foldl (λ b iv, wr b iv.1 iv.2) buf ws.

Lemma zlen_writes buf ws : zlen (writes buf ws) = zlen buf.
Proof.
  revert buf; induction ws as [|[i v] ws IH]; intros buf; simpl; [done|].
  unfold writes in *; simpl; rewrite IH; zl.
Qed.
#[export] Hint Rewrite zlen_writes : zlen.

Lemma writes_app buf ws ws' : writes buf (ws ++ ws') = writes (writes buf ws) ws'.
Proof. apply foldl_app. Qed.

(** A location no store of the loop touches keeps its value. *)
Lemma rd_writes_out buf ws j :
  0 ≤ j → (∀ i v, (i, v) ∈ ws → 0 ≤ i ∧ i ≠ j) → rd (writes buf ws) j = rd buf j.
Proof.
  intros Hj; revert buf; induction ws as [|[i v] ws IH]; intros buf Hws; [done|].
  unfold writes in *; simpl.
  rewrite IH by (intros; apply (Hws i0 v0); by right).
  destruct (Hws i v) as [??]; [by left|]. by apply rd_wr_ne.
Qed.

(** A location every store of the loop agrees on, and one store hits, holds
    the agreed value. *)
Lemma rd_writes_in buf ws j w :
  0 ≤ j < zlen buf → (j, w) ∈ ws →
  (∀ i v, (i, v) ∈ ws → 0 ≤ i ∧ (i = j → v = w)) →
  rd (writes buf ws) j = w.
Proof.
  intros Hj; revert buf Hj; induction ws as [|[i v] ws IH]; intros buf Hj Hin Hws;
    [by apply not_elem_of_nil in Hin|].
  change (rd (writes (wr buf i v) ws) j = w).
  destruct (decide (j ∈ ws.*1)) as [Hw|Hno].
  - apply list_elem_of_fmap in Hw as ([j' w'] & Heq' & Hw'); simpl in Heq'; subst j'.
    destruct (Hws j w') as [_ Heq]; [by right|]. rewrite <- (Heq eq_refl) in *.
    apply IH; [zl|done|]. intros i' v' ?; apply (Hws i' v'); by right.
  - apply elem_of_cons in Hin as [[= -> ->]|Hin];
      [|exfalso; apply Hno, list_elem_of_fmap; by exists (j, w)].
    rewrite rd_writes_out; [by apply rd_wr_eq|lia|].
    intros i' v' Hi'. destruct (Hws i' v') as [? _]; [by right|].
    split; [done|]. intros ->. by apply Hno, (list_elem_of_fmap_2 fst ws (_, v')).
Qed.

Lemma bytes_writes buf ws :
  bytes buf → (∀ i v, (i, v) ∈ ws → is_byte v) → bytes (writes buf ws).
Proof.
  revert buf; induction ws as [|[i v] ws IH]; intros buf Hb Hws; [done|].
  apply IH; [|intros i' v' ?; apply (Hws i'); by right].
  apply bytes_wr; [done|]. apply (Hws i); by left.
Qed.

(** ** Sums and slices *)

Lemma zsum_slice_S l off n :
  0 ≤ off → 0 ≤ n → zsum (slice l off (n + 1)) = zsum (slice l off n) + rd l (off + n).
Proof.
  intros Hoff Hn. unfold slice, rd.
  replace (Z.to_nat (n + 1)) with (S (Z.to_nat n)) by lia.
  replace (Z.to_nat (off + n)) with (Z.to_nat off + Z.to_nat n)%nat by lia.
  rewrite <- lookup_drop. generalize (drop (Z.to_nat off) l) as k. intros k.
  destruct (k !! Z.to_nat n) as [x|] eqn:E.
  - rewrite (take_S_r _ _ _ E), zsum_app. simpl. unfold zsum; simpl; lia.
  - apply lookup_ge_None in E. rewrite !take_ge by lia. simpl; lia.
Qed.

Lemma zsum_slice_last l off n :
  0 ≤ off → 1 ≤ n → zsum (slice l off n) = zsum (slice l off (n - 1)) + rd l (off + (n - 1)).
Proof.
  intros. rewrite <- zsum_slice_S by lia. by replace (n - 1 + 1) with n by lia.
Qed.

Lemma slice_wr_out l i v off n :
  0 ≤ i → 0 ≤ off → i < off ∨ off + n ≤ i → slice (wr l i v) off n = slice l off n.
Proof.
  intros Hi Hoff Hout. apply buf_ext; [zl|]. intros j Hj. rewrite zlen_slice in Hj.
  rewrite !rd_slice by lia. apply rd_wr_ne; lia.
Qed.

Lemma slice_app l off n m :
  0 ≤ off → 0 ≤ n → 0 ≤ m → slice l off n ++ slice l (off + n) m = slice l off (n + m).
Proof.
  intros. unfold slice.
  replace (Z.to_nat (n + m)) with (Z.to_nat n + Z.to_nat m)%nat by lia.
  replace (Z.to_nat (off + n)) with (Z.to_nat off + Z.to_nat n)%nat by lia.
  by rewrite <- drop_drop, take_take_drop.
Qed.

Lemma slice_blit_in l off k : 0 ≤ off → off + zlen k ≤ zlen l →
  slice (blit l off k) off (zlen k) = k.
Proof.
  intros. apply buf_ext; [zl|]. intros i Hi. rewrite zlen_slice, zlen_blit in Hi.
  rds. f_equal; lia.
Qed.

Lemma slice_slice l a n b m :
  0 ≤ a → 0 ≤ b → b + m ≤ n → slice (slice l a n) b m = slice l (a + b) m.
Proof.
  intros. apply buf_ext; [zl|]. intros i Hi. rewrite !zlen_slice in Hi.
  rewrite !rd_slice by lia. f_equal; lia.
Qed.

Lemma slice_ext l k off n :
  zlen l = zlen k → 0 ≤ off → (∀ i, off ≤ i < off + n → rd l i = rd k i) →
  slice l off n = slice k off n.
Proof.
  intros Hlen Hoff Hrd. apply buf_ext; [zl|]. intros i Hi. rewrite zlen_slice in Hi.
  rewrite !rd_slice by lia. apply Hrd; lia.
Qed.
