(* ===== verification/Wire.v ===== *)
(** * Wire: frame recognition, geometry, pace and the sequence counter

    Models [include/reac/reac.h] (constants and inline predicates), the pure
    half of [src/reac.c], and [reac_upstream_channels] of
    [src/reac_upstream.c]. A frame is the list of its bytes. *)

From S2P Require Import Prelude.
From Stdlib Require Import QArith Qround.
Local Open Scope Z_scope.

(** ** Constants of reac.h, reac_cfg.h and reac_facts_box_width.h *)

Definition REAC_FRAME_BYTES : Z := 1492.
Definition REAC_AUDIO_BYTES : Z := 1440.
Definition REAC_AUDIO_OFFSET : Z := 50.
Definition REAC_L2_HEADER_LEN : Z := 50.
Definition REAC_MAX_CHANNELS : Z := 40.
Definition REAC_SAMPLES_PER_PKT : Z := 12.
Definition REAC_RESOLUTION : Z := 3.
Definition REAC_HDR_COUNTER_OFF : Z := 14.
Definition REAC_END_MARKER_0 : Z := 0xC2.
Definition REAC_END_MARKER_1 : Z := 0xEA.
Definition REAC_UPSTREAM_OVERHEAD : Z := 52.
Definition REAC_UPSTREAM_BYTES_PER_CH : Z := 36.
Definition REAC_BOX_MIN_CHANNELS : Z := 2.
Definition REAC_BOX_MAX_CHANNELS : Z := 40.
Definition REAC_CFG_RATE_44100 : Z := 44100.
Definition REAC_CFG_RATE_48000 : Z := 48000.
Definition REAC_CFG_RATE_96000 : Z := 96000.

(** ** Geometry *)

(** [reac_box_width_ok]: an even width, 2..40. *)
Definition reac_box_width_ok (n : Z) : bool :=
  (REAC_BOX_MIN_CHANNELS <=? n) && (n <=? REAC_BOX_MAX_CHANNELS) && (Z.land n 1 =? 0).

Definition reac_frame_is_master_downstream (len : Z) : bool := len =? REAC_FRAME_BYTES.

(** [reac_frame_channels]: the width a clean length carries, 0 for no geometry. *)
Definition reac_frame_channels (len : Z) : Z :=
  if len <? REAC_UPSTREAM_OVERHEAD then 0
  else
    let len := len - REAC_UPSTREAM_OVERHEAD in
    if negb (len mod REAC_UPSTREAM_BYTES_PER_CH =? 0) then 0
    else u32 (len / REAC_UPSTREAM_BYTES_PER_CH).

(** [reac_frame_clean_len]: ingest's strip of the two FCS bytes. *)
Definition reac_frame_clean_len (len : Z) : Z :=
  if (REAC_UPSTREAM_OVERHEAD + 2 <=? len)
     && ((len - REAC_UPSTREAM_OVERHEAD) mod REAC_UPSTREAM_BYTES_PER_CH =? 2)
  then len - 2 else len.

(** [reac_upstream_channels]: a box return's width, [-1] when the length is
    not one. The [(int)] cast of a [size_t] quotient is modulo [2^32]. *)
Definition to_int (x : Z) : Z := (x + 2 ^ 31) mod 2 ^ 32 - 2 ^ 31.
Definition reac_upstream_channels (len : Z) : Z :=
  if len <? REAC_UPSTREAM_OVERHEAD + 2 * REAC_UPSTREAM_BYTES_PER_CH then -1
  else if negb ((len - REAC_UPSTREAM_OVERHEAD) mod REAC_UPSTREAM_BYTES_PER_CH =? 0) then -1
  else
    let nch := (len - REAC_UPSTREAM_OVERHEAD) / REAC_UPSTREAM_BYTES_PER_CH in
    if negb (reac_box_width_ok (to_int nch)) then -1 else to_int nch.

(** ** Rate descriptors and paces *)

Record reac_mode := Mode { sample_rate : Z; n_channels : Z; samples_per_pkt : Z }.

Definition REAC_MODE_44K1 := Mode REAC_CFG_RATE_44100 REAC_MAX_CHANNELS REAC_SAMPLES_PER_PKT.
Definition REAC_MODE_48K := Mode REAC_CFG_RATE_48000 REAC_MAX_CHANNELS REAC_SAMPLES_PER_PKT.
Definition REAC_MODE_96K := Mode REAC_CFG_RATE_96000 REAC_MAX_CHANNELS REAC_SAMPLES_PER_PKT.

Definition reac_mode_for (sample_rate : Z) : reac_mode :=
  if sample_rate =? REAC_CFG_RATE_96000 then REAC_MODE_96K
  else if sample_rate =? REAC_CFG_RATE_44100 then REAC_MODE_44K1
  else REAC_MODE_48K.

(** [reac_rate_snap]: every finite [double] is a rational, and the two
    thresholds (3837.5 and 6000) are exact in binary64, so the comparisons are
    the rational ones. *)
Definition Qltb (a b : Q) : bool := negb (Qle_bool b a).
Definition reac_rate_snap (pps : Q) : Z :=
  let p44 := (inject_Z REAC_CFG_RATE_44100 / inject_Z REAC_SAMPLES_PER_PKT)%Q in
  let p48 := (inject_Z REAC_CFG_RATE_48000 / inject_Z REAC_SAMPLES_PER_PKT)%Q in
  let p96 := (inject_Z REAC_CFG_RATE_96000 / inject_Z REAC_SAMPLES_PER_PKT)%Q in
  if Qltb pps ((p44 + p48) / 2)%Q then REAC_CFG_RATE_44100
  else if Qltb pps ((p48 + p96) / 2)%Q then REAC_CFG_RATE_48000
  else REAC_CFG_RATE_96000.

Definition reac_pace_code (fps : Z) : Z :=
  if 8000 <=? fps then 1 else if fps <=? 3700 then 2 else 0.

(** ** Frame recognition and the sequence counter *)

Definition reac_frame_is_reac (frame : option (list Z)) (len : Z) : bool :=
  match frame with
  | None => false
  | Some f => negb (len <? 14) && ((f.[12] =? 0x88) && (f.[13] =? 0x19))
  end.

Definition reac_frame_counter (frame : list Z) : Z :=
  u16 (Z.lor frame.[REAC_HDR_COUNTER_OFF]
             (Z.shiftl frame.[REAC_HDR_COUNTER_OFF + 1] 8)).

Definition reac_counter_gap (last cur : Z) : Z := u16 (Z.land (cur - last - 1) 0xFFFF).

(** ** One stream's rate, by the advance of its own counter

    [struct rate_track] and [rate_track_feed]; the clock reading is a
    rational number of seconds. *)
Record rate_track := RateTrack {
  rt_have : bool; rt_mac : list Z; rt_last_counter : Z;
  rt_advance : Z; rt_first : Q; rt_last : Q
}.
Definition rate_track_zero : rate_track := RateTrack false (zeros 6) 0 0 0 0.

Definition rate_track_feed (t : rate_track) (f : list Z) (now : Q) : rate_track :=
  let c := reac_frame_counter f in
  if negb (rt_have t) then RateTrack true (slice f 6 6) c (rt_advance t) now now
  else if negb (zeqb (rt_mac t) (slice f 6 6)) then t
  else
    let step := u16 (c - rt_last_counter t) in
    if (step =? 0) || (0x8000 <? step) then t
    else RateTrack true (rt_mac t) c (u64 (rt_advance t + step)) (rt_first t) now.

(** * Properties *)

(** The length of a clean frame of width [n]. *)
Definition frame_len (n : Z) : Z :=
  REAC_UPSTREAM_OVERHEAD + n * REAC_UPSTREAM_BYTES_PER_CH.

Lemma box_width_ok_iff n :
  reac_box_width_ok n = true ↔ 2 ≤ n ≤ 40 ∧ n mod 2 = 0.
Proof.
  unfold reac_box_width_ok, REAC_BOX_MIN_CHANNELS, REAC_BOX_MAX_CHANNELS.
  rewrite land_1; lia.
Qed.

Lemma to_int_small x : - 2 ^ 31 ≤ x < 2 ^ 31 → to_int x = x.
Proof. unfold to_int; intros; rewrite Z.mod_small; lia. Qed.

Lemma frame_channels_frame_len n : 0 ≤ n < 2 ^ 32 → reac_frame_channels (frame_len n) = n.
Proof.
  unfold reac_frame_channels, frame_len, u32,
    REAC_UPSTREAM_OVERHEAD, REAC_UPSTREAM_BYTES_PER_CH; intros.
  split_ifs; lia.
Qed.

(** Ingest strips exactly the residue: every clean geometry is returned
    unchanged, the same geometry with the two capture bytes comes back clean,
    the answer is never a residue length again, and no other length moves. *)
Theorem clean_len_exact (len : Z) :
  0 ≤ len →
  (∀ n, 0 ≤ n → len = frame_len n + 2 → reac_frame_clean_len len = frame_len n) ∧
  ((∀ n, 0 ≤ n → len ≠ frame_len n + 2) → reac_frame_clean_len len = len) ∧
  reac_frame_clean_len (reac_frame_clean_len len) = reac_frame_clean_len len.
Proof.
  unfold reac_frame_clean_len, frame_len,
    REAC_UPSTREAM_OVERHEAD, REAC_UPSTREAM_BYTES_PER_CH; intros Hlen.
  split_and!.
  - intros n Hn ->. split_ifs; lia.
  - intros Hno. split_ifs; try lia.
    destruct (Hno ((len - 54) / 36)); lia.
  - split_ifs; lia.
Qed.

Lemma clean_len_exact_witness :
  reac_frame_clean_len 1494 = 1492 ∧ reac_frame_clean_len 1492 = 1492.
Proof.
  split.
  - apply (proj1 (clean_len_exact 1494 ltac:(lia)) 40); [lia|reflexivity].
  - apply (proj1 (proj2 (clean_len_exact 1492 ltac:(lia)))). unfold frame_len,
      REAC_UPSTREAM_OVERHEAD, REAC_UPSTREAM_BYTES_PER_CH; lia.
Defined.

(** The upstream parser accepts exactly the box geometries: it answers
    [n] on a [size_t] length (below [2^37], so the [int] cast is exact) if and
    only if the length is [52 + 36 n] for a legal box width [n], and refuses
    ([-1]) everything else, residue lengths included. *)
Theorem upstream_channels_iff (len n : Z) :
  0 ≤ len < 2 ^ 36 →
  (reac_upstream_channels len = n ∧ n ≠ -1) ↔
  (reac_box_width_ok n = true ∧ len = frame_len n).
Proof.
  intros Hlen; unfold reac_upstream_channels, frame_len.
  change REAC_UPSTREAM_OVERHEAD with 52; change REAC_UPSTREAM_BYTES_PER_CH with 36.
  rewrite (to_int_small ((len - 52) / 36)) by lia.
  pose proof (box_width_ok_iff n) as Hn.
  pose proof (box_width_ok_iff ((len - 52) / 36)) as Hq.
  destruct (reac_box_width_ok n), (reac_box_width_ok ((len - 52) / 36));
    split_ifs; cbn [negb] in *; try lia; (split; [intros [<- ?]|intros [? ->]]);
    try (split_and!; lia).
Qed.

Lemma upstream_channels_iff_witness :
  reac_upstream_channels 1204 = 32 ∧ reac_upstream_channels 1206 = -1.
Proof.
  split; [|reflexivity].
  exact (proj1 (proj2 (upstream_channels_iff 1204 32 ltac:(lia))
          (conj eq_refl eq_refl))).
Defined.

Lemma counter_gap_range last cur : 0 ≤ reac_counter_gap last cur < 2 ^ 16.
Proof. unfold reac_counter_gap, u16; lia. Qed.

(** The next counter in sequence has gap 0 across the 16-bit wrap, and [k]
    lost frames have gap [k]. *)
Lemma counter_gap_lost last k :
  0 ≤ k < 2 ^ 16 → reac_counter_gap last (u16 (last + 1 + k)) = k.
Proof. unfold reac_counter_gap, u16; rewrite land_ffff; lia. Qed.

(** ** The rate tracker counts its own stream

    [stream mac base hw l hw']: from high-water frame index [hw], the captured
    sequence [l] interleaves frames of other senders with frames of the stream
    [mac] whose counter is the low 16 bits of [base + k]: duplicates, copies up
    to 32767 frames stale, and losses up to 32768 frames are all allowed.
    [hw'] is the highest index captured. *)
Inductive stream (mac : list Z) (base : Z) : Z → list (list Z * Q) → Z → Prop :=
| stream_nil hw : stream mac base hw [] hw
| stream_own hw k f now l hw' :
    slice f 6 6 = mac → reac_frame_counter f = u16 (base + k) →
    hw - 0x8000 < k ≤ hw + 0x8000 →
    stream mac base (Z.max hw k) l hw' → stream mac base hw ((f, now) :: l) hw'
| stream_other hw f now l hw' :
    slice f 6 6 ≠ mac → stream mac base hw l hw' → stream mac base hw ((f, now) :: l) hw'.

Definition rate_track_run (t : rate_track) (l : list (list Z * Q)) : rate_track :=
  foldl (λ t fn, rate_track_feed t fn.1 fn.2) t l.

Lemma stream_mono mac base hw l hw' : stream mac base hw l hw' → hw ≤ hw'.
Proof. induction 1; lia. Qed.

Lemma rate_track_feed_own t f now mac base hw k :
  rt_have t = true → rt_mac t = mac → rt_last_counter t = u16 (base + hw) →
  slice f 6 6 = mac → reac_frame_counter f = u16 (base + k) →
  hw - 0x8000 < k ≤ hw + 0x8000 →
  let t' := rate_track_feed t f now in
  rt_have t' = true ∧ rt_mac t' = mac ∧
  rt_last_counter t' = u16 (base + Z.max hw k) ∧
  rt_advance t' = (if hw <? k then u64 (rt_advance t + (k - hw)) else rt_advance t).
Proof.
  intros Hh Hm Hl Hf Hc Hk t'. subst t'. unfold rate_track_feed.
  rewrite Hh, Hm, Hf, zeqb_refl, Hc, Hl; cbn [negb].
  assert (Hs : u16 (u16 (base + k) - u16 (base + hw)) =
               if hw <? k then k - hw else if k =? hw then 0 else 2 ^ 16 - (hw - k)).
  { unfold u16. rewrite <- Zminus_mod. split_ifs; lia. }
  rewrite Hs. destruct (hw <? k) eqn:E1; [|destruct (k =? hw) eqn:E2].
  - replace ((k - hw =? 0) || (0x8000 <? k - hw)) with false by lia; simpl.
    split_and!; try done. f_equal; lia.
  - replace (Z.max hw k) with hw by lia; simpl. auto.
  - replace ((2 ^ 16 - (hw - k) =? 0) || (0x8000 <? 2 ^ 16 - (hw - k)))
      with true by lia.
    replace (Z.max hw k) with hw by lia. auto.
Qed.

(** The rate tracker measures exactly one stream: after any capture in
    which that stream's frames arrive duplicated, stale or with losses, and
    other senders' frames are interleaved, its [advance] is the exact number
    of frame periods between the first and the newest frame of the stream. *)
Theorem rate_track_exact mac base hw0 hw l hw' t :
  rt_have t = true → rt_mac t = mac → rt_last_counter t = u16 (base + hw) →
  hw0 ≤ hw → rt_advance t = hw - hw0 → hw' - hw0 < 2 ^ 64 →
  stream mac base hw l hw' →
  rt_advance (rate_track_run t l) = hw' - hw0 ∧
  rt_last_counter (rate_track_run t l) = u16 (base + hw').
Proof.
  intros Hh Hm Hl H0 Ha Hb Hs; revert t Hh Hm Hl Ha.
  induction Hs as [hw|hw k f now l hw' Hf Hc Hk Hs IH|hw f now l hw' Hf Hs IH];
    intros t Hh Hm Hl Ha.
  - simpl; auto.
  - pose proof (stream_mono _ _ _ _ _ Hs) as Hmono.
    destruct (rate_track_feed_own t f now mac base hw k) as (H1&H2&H3&H4); auto.
    apply IH; auto; [lia|]. cbn [fst snd]. rewrite H4, Ha. unfold u64.
    split_ifs; [rewrite Z.mod_small|]; lia.
  - apply IH; auto;
      unfold rate_track_feed; simpl; rewrite Hh; simpl;
      rewrite Hm, (proj2 (zeqb_neq _ _)) by congruence; simpl; auto.
Qed.

(** The first frame of a fresh tracker starts the stream at its own counter. *)
Lemma rate_track_first f now :
  let t := rate_track_feed rate_track_zero f now in
  rt_have t = true ∧ rt_mac t = slice f 6 6 ∧
  rt_last_counter t = reac_frame_counter f ∧ rt_advance t = 0.
Proof. done. Qed.

Definition demo_frame (c : Z) : list Z :=
  fill 6 0xff ++ [0; 0x40; 0xab; 1; 2; 3] ++ [0x88; 0x19] ++ [u8 c; u8 (c / 256)].

Lemma rate_track_exact_witness :
  let t := rate_track_feed rate_track_zero (demo_frame 65535) 0 in
  rt_advance (rate_track_run t [(demo_frame 65535, 0%Q); (demo_frame 1, 0%Q)]) = 2.
Proof.
  apply (rate_track_exact [0; 0x40; 0xab; 1; 2; 3] 65535 0 0
           [(demo_frame 65535, 0%Q); (demo_frame 1, 0%Q)] 2
           (rate_track_feed rate_track_zero (demo_frame 65535) 0));
    try reflexivity; try lia.
  apply stream_own with (k := 0); [reflexivity|reflexivity|lia|].
  apply stream_own with (k := 2); [reflexivity|reflexivity|lia|].
  apply stream_nil.
Defined.
