(* ===== verification/Sample.v ===== *)
(** * Sample: the s24 little-endian / binary32 sample codec

    Models [include/reac/reac_sample.h]. A C [float] is an IEEE 754 binary32
    datum, here [spec_float] at precision 24 and maximal exponent 128, whose
    [SFmul], [SFdiv] and comparisons are the correctly rounded operations the
    C expressions denote under the default (nearest, ties to even) rounding. *)

From S2P Require Import Prelude.
From Stdlib Require Import SpecFloat.
Local Open Scope Z_scope.

Definition f32 := spec_float.
Definition F32_PREC : Z := 24.
Definition F32_EMAX : Z := 128.
Definition f32_mul : f32 → f32 → f32 := SFmul F32_PREC F32_EMAX.
Definition f32_div : f32 → f32 → f32 := SFdiv F32_PREC F32_EMAX.
Definition f32_of_Z (v : Z) : f32 := binary_normalize F32_PREC F32_EMAX v 0 false.

(** The literals [0.0f], [8388608.0f], [8388607.0f] and [-8388608.0f], with
    the 24-bit significand of their canonical form. *)
Definition f32_zero : f32 := S754_zero false.
Definition f32_2p23 : f32 := S754_finite false 8388608 0.
Definition f32_s24max : f32 := S754_finite false 16777214 (-1).
Definition f32_s24min : f32 := S754_finite true 8388608 0.

(** [m * 2^e] rounded to the nearest integer, ties to even. *)
Definition round_even (m : Z) (e : Z) : Z :=
  if 0 <=? e then m * 2 ^ e
  else
    let d := 2 ^ (- e) in
    let q := m / d in
    let r := m mod d in
    if 2 * r <? d then q
    else if d <? 2 * r then q + 1
    else if Z.even q then q else q + 1.

(** [(int32_t)lrintf(x)] on the clamped argument. For a NaN, C leaves the
    [long] unspecified; both values the supported targets return (LONG_MIN on
    x86-64, 0 on AArch64) convert to 0. *)
Definition lrintf (x : f32) : Z :=
  match x with
  | S754_finite sx m e => let r := round_even (Zpos m) e in if sx then - r else r
  | _ => 0
  end.

(** [reac_s24le_to_f32]: three bytes, sign-extended from bit 23, over 2^23. *)
Definition s24le_int (p : list Z) : Z :=
  let v := Z.lor (Z.lor p.[0] (Z.shiftl p.[1] 8)) (Z.shiftl p.[2] 16) in
  if negb (Z.land v 0x00800000 =? 0) then v - 2 ^ 24 else v.
Definition reac_s24le_to_f32 (p : list Z) : f32 :=
  f32_div (f32_of_Z (s24le_int p)) f32_2p23.

(** [reac_f32_to_s24le]: scale by 2^23, clamp to the 24-bit range, round. *)
Definition reac_f32_to_s24le (v : f32) : list Z :=
  let x := f32_mul v f32_2p23 in
  let x := if SFltb f32_s24max x then f32_s24max else x in
  let x := if SFltb x f32_s24min then f32_s24min else x in
  let s := lrintf x in
  [u8 (Z.land s 0xFF); u8 (Z.land (Z.shiftr s 8) 0xFF); u8 (Z.land (Z.shiftr s 16) 0xFF)].

Lemma f32_to_s24le_length v : zlen (reac_f32_to_s24le v) = 3.
Proof. reflexivity. Qed.

Lemma f32_to_s24le_bytes v : bytes (reac_f32_to_s24le v).
Proof. unfold reac_f32_to_s24le, bytes. repeat constructor; apply is_byte_u8. Qed.

Lemma f32_to_s24le_zero : reac_f32_to_s24le f32_zero = [0; 0; 0].
Proof. reflexivity. Qed.

(** Full scale, the clamp on both sides, ties to even, and NaN. *)
Example f32_to_s24le_cases :
  reac_f32_to_s24le (S754_finite false 8388608 (-23)) = [0xFF; 0xFF; 0x7F] ∧
  reac_f32_to_s24le (S754_finite true 8388608 (-23)) = [0; 0; 0x80] ∧
  reac_f32_to_s24le (S754_infinity true) = [0; 0; 0x80] ∧
  reac_f32_to_s24le (S754_finite false 12582912 (-46)) = [2; 0; 0] ∧
  reac_f32_to_s24le (S754_finite false 8388608 (-47)) = [0; 0; 0] ∧
  reac_f32_to_s24le S754_nan = [0; 0; 0].
Proof. vm_compute. auto 10. Qed.

Example s24_roundtrip_cases :
  (λ b, reac_f32_to_s24le (reac_s24le_to_f32 b)) <$>
    [[0;0;0]; [1;0;0]; [0xFF;0xFF;0xFF]; [0xFF;0xFF;0x7F]; [0;0;0x80]; [0x12;0x34;0x56]] =
  [[0;0;0]; [1;0;0]; [0xFF;0xFF;0xFF]; [0xFF;0xFF;0x7F]; [0;0;0x80]; [0x12;0x34;0x56]].
Proof. vm_compute. reflexivity. Qed.
