(* ===== verification/Codec.v ===== *)
(** * Codec: the braided audio region, in both directions

    Models [include/reac/reac_braid.h], [src/reac_encode.c],
    [src/reac_decode.c] and [reac_upstream_decode] of [src/reac_upstream.c].
    A planar source is the list of its planes, [None] for a NULL plane; an
    encoder call on a NULL plane array is the empty list. *)

From S2P Require Import Prelude Wire Sample.
From Stdlib Require Import SpecFloat.
Local Open Scope Z_scope.

(** ** The layout oracle *)

(** [reac_braid_pos]: the three byte positions (lo, mid, hi) of sample [s] of
    channel [ch] in an [n_ch]-wide region. *)
Definition reac_braid_pos (s ch n_ch : Z) : Z * Z * Z :=
  let g := (s * n_ch + Z.land ch (Z.lnot 1)) * 3 in
  if Z.land ch 1 =? 0 then (g + 3, g + 0, g + 1) else (g + 4, g + 5, g + 2).

(** One lane of the triple: 0 is lo, 1 is mid, 2 is hi. *)
Definition pos_lane (p : Z * Z * Z) (i : Z) : Z :=
  if i =? 0 then p.1.1 else if i =? 1 then p.1.2 else p.2.

(** ** Encode *)

Definition planes := list (option (list f32)).

Definition plane_at (planar : planes) (n_src ch s : Z) : f32 :=
  if ch <? n_src then
    match planar !! Z.to_nat ch with
    | Some (Some p) => default f32_zero (p !! Z.to_nat s)
    | _ => f32_zero
    end
  else f32_zero.

Definition encode_frames (ns : Z) : Z :=
  if ns <? REAC_SAMPLES_PER_PKT then ns else REAC_SAMPLES_PER_PKT.

(** [reac_braid_encode], storing through [audio = out + off]. *)
Definition reac_braid_encode (out : list Z) (off n_ch : Z) (planar : planes)
    (n_src ns : Z) : list Z :=
  foldl (λ out s,
    foldl (λ out ch,
      let b := reac_f32_to_s24le (plane_at planar n_src ch s) in
      let '(p0, p1, p2) := reac_braid_pos s ch n_ch in
      wr (wr (wr out (off + p0) b.[0]) (off + p1) b.[1]) (off + p2) b.[2])
      out (zseq 0 n_ch))
    out (zseq 0 (encode_frames ns)).

(** [reac_downstream_build]: the whole 40-channel master frame. *)
Definition reac_downstream_build (planar : planes) (nch ns counter : Z)
    (src : list Z) : list Z :=
  let out := zeros REAC_FRAME_BYTES in
  let out := blit out 0 (fill 6 0xFF) in
  let out := blit out 6 src in
  let out := wr out 12 0x88 in
  let out := wr out 13 0x19 in
  let out := wr out REAC_HDR_COUNTER_OFF (u8 (Z.land counter 0xFF)) in
  let out := wr out (REAC_HDR_COUNTER_OFF + 1) (u8 (Z.land (Z.shiftr counter 8) 0xFF)) in
  let out := reac_braid_encode out REAC_AUDIO_OFFSET REAC_MAX_CHANNELS planar nch ns in
  let out := wr out (REAC_FRAME_BYTES - 2) REAC_END_MARKER_0 in
  wr out (REAC_FRAME_BYTES - 1) REAC_END_MARKER_1.

(** ** Decode *)

(** [reac_frame_inspect]: [None] for an invalid frame, else its counter. *)
Definition reac_frame_inspect (raw : list Z) (len : Z) : option Z :=
  if negb (len =? REAC_FRAME_BYTES) then None
  else if negb (raw.[12] =? 0x88) || negb (raw.[13] =? 0x19) then None
  else if negb (raw.[len - 2] =? REAC_END_MARKER_0)
          || negb (raw.[len - 1] =? REAC_END_MARKER_1) then None
  else Some (u16 (Z.lor raw.[14] (Z.shiftl raw.[15] 8))).

(** The un-braiding loop shared by both decoders. *)
Definition unbraid (raw : list Z) (off nch ns : Z) : list Z :=
  zseq 0 nch ≫= λ ch, zseq 0 ns ≫= λ s,
    let '(p0, p1, p2) := reac_braid_pos s ch nch in
    [raw.[off + p0]; raw.[off + p1]; raw.[off + p2]].

(** [reac_decode]: [None] is the [-1] return; [Some (ns, out)] the samples per
    channel and the planar bytes written. *)
Definition reac_decode (raw : list Z) (len : Z) (mode : reac_mode)
    : option (Z * list Z) :=
  match reac_frame_inspect raw len with
  | None => None
  | Some _ =>
      let nch := n_channels mode in
      let ns := samples_per_pkt mode in
      if (nch <=? 0) || negb (Z.land nch 1 =? 0) || (ns <=? 0)
         || (REAC_AUDIO_BYTES <? nch * ns * REAC_RESOLUTION) then None
      else Some (ns, unbraid raw REAC_L2_HEADER_LEN nch ns)
  end.

(** [reac_decode_plain_le]: the diagnostic linear read. *)
Definition reac_decode_plain_le (raw : list Z) (len : Z) (mode : reac_mode)
    : option (Z * list Z) :=
  match reac_frame_inspect raw len with
  | None => None
  | Some _ =>
      let nch := n_channels mode in
      let ns := samples_per_pkt mode in
      if (nch <=? 0) || (ns <=? 0)
         || (REAC_AUDIO_BYTES <? nch * ns * REAC_RESOLUTION) then None
      else
        Some (ns, zseq 0 nch ≫= λ ch, zseq 0 ns ≫= λ s,
          let sptr := REAC_L2_HEADER_LEN + (s * nch + ch) * REAC_RESOLUTION in
          [raw.[sptr]; raw.[sptr + 1]; raw.[sptr + 2]])
  end.

(** [reac_upstream_decode]. *)
Definition reac_upstream_decode (raw : list Z) (len : Z) : option (Z * list Z) :=
  let nch := reac_upstream_channels len in
  if nch <? 0 then None
  else if negb (raw.[12] =? 0x88) || negb (raw.[13] =? 0x19) then None
  else if negb (raw.[len - 2] =? REAC_END_MARKER_0)
          || negb (raw.[len - 1] =? REAC_END_MARKER_1) then None
  else Some (REAC_SAMPLES_PER_PKT, unbraid raw REAC_L2_HEADER_LEN nch REAC_SAMPLES_PER_PKT).

(** * Properties of the layout *)

Lemma land_lnot1 x : Z.land x (Z.lnot 1) = 2 * (x / 2).
Proof.
  change (Z.lnot 1) with (Z.lnot (Z.ones 1)).
  rewrite <- Z.ldiff_land, (Z.ldiff_ones_r x 1) by lia.
  rewrite Z.shiftl_mul_pow2, Z.shiftr_div_pow2 by lia. lia.
Qed.

(** The offset of a lane inside its six-byte channel-pair group. *)
Definition lane_off (ch i : Z) : Z :=
  if ch mod 2 =? 0 then (if i =? 0 then 3 else if i =? 1 then 0 else 1)
  else (if i =? 0 then 4 else if i =? 1 then 5 else 2).

Lemma pos_lane_eq s ch n i :
  pos_lane (reac_braid_pos s ch n) i = (s * n + 2 * (ch / 2)) * 3 + lane_off ch i.
Proof.
  unfold pos_lane, reac_braid_pos, lane_off. rewrite land_lnot1, land_1.
  split_ifs; simpl; lia.
Qed.

Lemma lane_off_range ch i : 0 ≤ lane_off ch i < 6.
Proof. unfold lane_off; split_ifs; lia. Qed.

(** With [n] even every position is [6] times a group index plus a lane. *)
Lemma pos_group s ch n i :
  n mod 2 = 0 →
  pos_lane (reac_braid_pos s ch n) i = 6 * (s * (n / 2) + ch / 2) + lane_off ch i.
Proof.
  intros Hn; rewrite pos_lane_eq.
  assert (n = 2 * (n / 2)) as Hn2 by lia. rewrite Hn2 at 1. ring.
Qed.

Lemma group_unique h a b a' b' :
  0 ≤ b < h → 0 ≤ b' < h → a * h + b = a' * h + b' → a = a' ∧ b = b'.
Proof. intros; assert (a = a') by nia; subst; split; [done|lia]. Qed.

Lemma lane_off_inj ch i ch' i' :
  0 ≤ i < 3 → 0 ≤ i' < 3 → ch / 2 = ch' / 2 → lane_off ch i = lane_off ch' i' →
  ch = ch' ∧ i = i'.
Proof. unfold lane_off; intros; split_ifs_in H2; lia. Qed.

Lemma braid_range s ch n i :
  n mod 2 = 0 → 0 ≤ ch < n → 0 ≤ s < 12 →
  0 ≤ pos_lane (reac_braid_pos s ch n) i < 36 * n.
Proof.
  intros Hn Hch Hs. rewrite pos_group by done.
  pose proof (lane_off_range ch i).
  assert (0 ≤ ch / 2 < n / 2) by lia.
  assert (0 ≤ s * (n / 2) ≤ 11 * (n / 2)) by nia. lia.
Qed.

Lemma braid_inj s ch i s' ch' i' n :
  n mod 2 = 0 → 0 ≤ ch < n → 0 ≤ ch' < n → 0 ≤ i < 3 → 0 ≤ i' < 3 →
  pos_lane (reac_braid_pos s ch n) i = pos_lane (reac_braid_pos s' ch' n) i' →
  s = s' ∧ ch = ch' ∧ i = i'.
Proof.
  intros Hn ???? Heq. rewrite !pos_group in Heq by done.
  pose proof (lane_off_range ch i); pose proof (lane_off_range ch' i').
  assert (Hg : s * (n / 2) + ch / 2 = s' * (n / 2) + ch' / 2) by lia.
  apply group_unique in Hg as [-> Hc]; [|lia|lia].
  destruct (lane_off_inj ch i ch' i'); auto; lia.
Qed.

(** The braid is a bijection between the samples of an even-width frame
    and the bytes of its audio region: every lane of every sample lies inside
    the [36 n]-byte region, no two share a byte, and every byte is one. *)
Theorem braid_bijective (n : Z) :
  n mod 2 = 0 → 0 < n →
  (∀ s ch i, 0 ≤ s < 12 → 0 ≤ ch < n →
     0 ≤ pos_lane (reac_braid_pos s ch n) i < 36 * n) ∧
  (∀ s ch i s' ch' i', 0 ≤ ch < n → 0 ≤ ch' < n → 0 ≤ i < 3 → 0 ≤ i' < 3 →
     pos_lane (reac_braid_pos s ch n) i = pos_lane (reac_braid_pos s' ch' n) i' →
     s = s' ∧ ch = ch' ∧ i = i') ∧
  (∀ p, 0 ≤ p < 36 * n →
     ∃ s ch i, 0 ≤ s < 12 ∧ 0 ≤ ch < n ∧ 0 ≤ i < 3 ∧
       pos_lane (reac_braid_pos s ch n) i = p).
Proof.
  intros Hn Hpos. split_and!.
  - intros; by apply braid_range.
  - intros; by eapply braid_inj.
  - intros p Hp. set (h := n / 2). assert (Hh : n = 2 * h) by (subst h; lia).
    set (g := p / 6). assert (Hg : 0 ≤ g < 12 * h) by (subst g; lia).
    assert (Hdm : g = h * (g / h) + g mod h) by (apply Z.div_mod; lia).
    assert (0 ≤ g mod h < h) by (apply Z.mod_pos_bound; lia).
    assert (0 ≤ g / h < 12) by (split; [apply Z.div_pos|apply Z.div_lt_upper_bound]; lia).
    assert (∃ b i, 0 ≤ b < 2 ∧ 0 ≤ i < 3 ∧
              lane_off (2 * (g mod h) + b) i = p mod 6) as (b & i & Hb & Hi & Hl).
    { assert (p mod 6 = 0 ∨ p mod 6 = 1 ∨ p mod 6 = 2 ∨ p mod 6 = 3 ∨ p mod 6 = 4 ∨
              p mod 6 = 5) as Hc by lia.
      destruct Hc as [->|[->|[->|[->|[->| ->]]]]];
        [exists 0, 1|exists 0, 2|exists 1, 2|exists 0, 0|exists 1, 0|exists 1, 1];
        (split_and!; try lia); unfold lane_off;
        rewrite Z.mul_comm, Z.add_comm, Z_mod_plus_full; reflexivity. }
    exists (g / h), (2 * (g mod h) + b), i. split_and!; try lia.
    rewrite pos_group, Hl by lia.
    replace ((2 * (g mod h) + b) / 2) with (g mod h) by lia.
    fold h. replace (g / h * h + g mod h) with g by lia. subst g; lia.
Qed.

Lemma braid_bijective_witness :
  ∃ s ch i, 0 ≤ s < 12 ∧ 0 ≤ ch < 40 ∧ 0 ≤ i < 3 ∧
    pos_lane (reac_braid_pos s ch 40) i = 1439.
Proof. apply (proj2 (proj2 (braid_bijective 40 eq_refl eq_refl)) 1439). lia. Defined.

(** * The encoder as a set of stores *)

(** What the encoder puts in lane [i] of sample [s] of channel [ch]. *)
Definition enc_byte (planar : planes) (n_src ch s i : Z) : Z :=
  (reac_f32_to_s24le (plane_at planar n_src ch s)).[i].

Definition sample_writes (off n_ch : Z) (planar : planes) (n_src s ch : Z)
    : list (Z * Z) :=
  (λ i, (off + pos_lane (reac_braid_pos s ch n_ch) i, enc_byte planar n_src ch s i))
    <$> [0; 1; 2].

Definition encode_writes (off n_ch : Z) (planar : planes) (n_src ns : Z)
    : list (Z * Z) :=
  zseq 0 (encode_frames ns) ≫= λ s, zseq 0 n_ch ≫= sample_writes off n_ch planar n_src s.

Lemma foldl_writes {A} (f : A → list (Z * Z)) (l : list A) buf :
  foldl (λ b x, writes b (f x)) buf l = writes buf (l ≫= f).
Proof.
  revert buf; induction l as [|x l IH]; intros buf; [done|].
  simpl. by rewrite IH, writes_app.
Qed.

Lemma foldl_ext_all {A B} (f g : A → B → A) (l : list B) a :
  (∀ a b, f a b = g a b) → foldl f a l = foldl g a l.
Proof. intros H; revert a; induction l; intros a'; simpl; [done|]. by rewrite H, IHl. Qed.

Lemma braid_encode_writes out off n_ch planar n_src ns :
  reac_braid_encode out off n_ch planar n_src ns =
  writes out (encode_writes off n_ch planar n_src ns).
Proof.
  unfold reac_braid_encode, encode_writes.
  rewrite <- foldl_writes. apply foldl_ext_all; intros o s.
  rewrite <- foldl_writes. apply foldl_ext_all; intros o' ch.
  unfold sample_writes, pos_lane, writes. simpl.
  by destruct (reac_braid_pos s ch n_ch) as [[??]?].
Qed.

Lemma elem_of_encode_writes off n_ch planar n_src ns p v :
  (p, v) ∈ encode_writes off n_ch planar n_src ns ↔
  ∃ s ch i, 0 ≤ s < encode_frames ns ∧ 0 ≤ ch < n_ch ∧ 0 ≤ i < 3 ∧
    p = off + pos_lane (reac_braid_pos s ch n_ch) i ∧ v = enc_byte planar n_src ch s i.
Proof.
  unfold encode_writes, sample_writes. rewrite list_elem_of_bind. split.
  - intros (s & Hin & Hs). apply list_elem_of_bind in Hin as (ch & Hin & Hch).
    apply list_elem_of_fmap in Hin as (i & [= -> ->] & Hi).
    unfold zseq in *; rewrite elem_of_seqZ in Hs, Hch.
    exists s, ch, i; split_and!; try lia;
      repeat (apply elem_of_cons in Hi as [->|Hi]; [lia|]);
      by apply not_elem_of_nil in Hi.
  - intros (s & ch & i & Hs & Hch & Hi & -> & ->). exists s; split;
      [|unfold zseq; apply elem_of_seqZ; lia].
    apply list_elem_of_bind; exists ch; split; [|unfold zseq; apply elem_of_seqZ; lia].
    apply list_elem_of_fmap; exists i; split; [done|].
    assert (i = 0 ∨ i = 1 ∨ i = 2) as [->|[->| ->]] by lia; repeat constructor.
Qed.

Lemma encode_frames_le ns : encode_frames ns ≤ 12.
Proof. unfold encode_frames, REAC_SAMPLES_PER_PKT; split_ifs; lia. Qed.

Lemma zlen_braid_encode out off n_ch planar n_src ns :
  zlen (reac_braid_encode out off n_ch planar n_src ns) = zlen out.
Proof. rewrite braid_encode_writes; zl. Qed.
#[export] Hint Rewrite zlen_braid_encode : zlen.

(** Every encoded sample reads back where the oracle says, whole. *)
Lemma rd_braid_encode_in out off n_ch planar n_src ns s ch i :
  n_ch mod 2 = 0 → 0 ≤ off → off + 36 * n_ch ≤ zlen out →
  0 ≤ s < encode_frames ns → 0 ≤ ch < n_ch → 0 ≤ i < 3 →
  rd (reac_braid_encode out off n_ch planar n_src ns)
     (off + pos_lane (reac_braid_pos s ch n_ch) i) = enc_byte planar n_src ch s i.
Proof.
  intros Hn Hoff Hlen Hs Hch Hi. rewrite braid_encode_writes.
  pose proof (encode_frames_le ns).
  pose proof (braid_range s ch n_ch i Hn Hch ltac:(lia)).
  apply rd_writes_in; [lia|by apply elem_of_encode_writes; eauto 10|].
  intros p v (s' & ch' & i' & Hs' & Hch' & Hi' & -> & ->)%elem_of_encode_writes.
  pose proof (braid_range s' ch' n_ch i' Hn Hch' ltac:(lia)). split; [lia|].
  intros Heq. destruct (braid_inj s' ch' i' s ch i n_ch) as (-> & -> & ->); auto. lia.
Qed.

(** Sample rows past the source keep what the buffer held. *)
Lemma rd_braid_encode_short out off n_ch planar n_src ns s ch i :
  n_ch mod 2 = 0 → 0 ≤ off →
  encode_frames ns ≤ s < 12 → 0 ≤ ch < n_ch → 0 ≤ i < 3 → 0 ≤ s →
  rd (reac_braid_encode out off n_ch planar n_src ns)
     (off + pos_lane (reac_braid_pos s ch n_ch) i) =
  rd out (off + pos_lane (reac_braid_pos s ch n_ch) i).
Proof.
  intros Hn Hoff Hs Hch Hi H0. rewrite braid_encode_writes.
  pose proof (encode_frames_le ns).
  pose proof (braid_range s ch n_ch i Hn Hch ltac:(lia)).
  apply rd_writes_out; [lia|].
  intros p v (s' & ch' & i' & Hs' & Hch' & Hi' & -> & ->)%elem_of_encode_writes.
  pose proof (braid_range s' ch' n_ch i' Hn Hch' ltac:(lia)). split; [lia|].
  intros Heq. destruct (braid_inj s' ch' i' s ch i n_ch) as (-> & -> & ->); auto; lia.
Qed.

(** Nothing outside the region is touched. *)
Lemma rd_braid_encode_out out off n_ch planar n_src ns j :
  n_ch mod 2 = 0 → 0 ≤ off → 0 ≤ j → j < off ∨ off + 36 * n_ch ≤ j →
  rd (reac_braid_encode out off n_ch planar n_src ns) j = rd out j.
Proof.
  intros Hn Hoff Hj Hout. rewrite braid_encode_writes.
  pose proof (encode_frames_le ns).
  apply rd_writes_out; [lia|].
  intros p v (s' & ch' & i' & Hs' & Hch' & Hi' & -> & ->)%elem_of_encode_writes.
  pose proof (braid_range s' ch' n_ch i' Hn Hch' ltac:(lia)). split; lia.
Qed.

Lemma bytes_braid_encode out off n_ch planar n_src ns :
  bytes out → bytes (reac_braid_encode out off n_ch planar n_src ns).
Proof.
  intros. rewrite braid_encode_writes. apply bytes_writes; [done|].
  intros p v (s' & ch' & i' & _ & _ & _ & _ & ->)%elem_of_encode_writes.
  apply bytes_rd, f32_to_s24le_bytes.
Qed.
#[export] Hint Resolve bytes_braid_encode : bytes.

(** * Round trips *)

(** The planar bytes a receiver should see: the encoded samples of each
    channel in order, digital silence where the source was short. *)
Definition planar_bytes (planar : planes) (n_src nch ns : Z) : list Z :=
  zseq 0 nch ≫= λ ch, zseq 0 12 ≫= λ s,
    if s <? ns then reac_f32_to_s24le (plane_at planar n_src ch s) else [0; 0; 0].

Lemma bind_ext_range {B} (f g : Z → list B) n :
  (∀ x, 0 ≤ x < n → f x = g x) → zseq 0 n ≫= f = zseq 0 n ≫= g.
Proof.
  intros Hfg. assert (Hall : ∀ x, x ∈ zseq 0 n → f x = g x).
  { intros x Hx. apply Hfg. unfold zseq in Hx. apply elem_of_seqZ in Hx. lia. }
  clear Hfg; induction (zseq 0 n) as [|x l IH]; [done|].
  csimpl. rewrite IH, (Hall x); [done|by left|]. intros y Hy; apply Hall; by right.
Qed.

(** Reading a region back through the oracle gives the source, when the
    region was silent before. *)
Lemma unbraid_encode raw out off nch planar n_src ns :
  nch mod 2 = 0 → 0 ≤ off → off + 36 * nch ≤ zlen out →
  (∀ j, off ≤ j < off + 36 * nch →
     rd raw j = rd (reac_braid_encode out off nch planar n_src ns) j) →
  (∀ j, off ≤ j < off + 36 * nch → rd out j = 0) →
  unbraid raw off nch 12 = planar_bytes planar n_src nch ns.
Proof.
  intros Hn Hoff Hlen Hraw Hzero. unfold unbraid, planar_bytes.
  apply bind_ext_range; intros ch Hch. apply bind_ext_range; intros s Hs.
  assert (Hlane : ∀ i, 0 ≤ i < 3 →
    rd raw (off + pos_lane (reac_braid_pos s ch nch) i) =
    (if s <? ns then reac_f32_to_s24le (plane_at planar n_src ch s) else [0; 0; 0]).[i]).
  { intros i Hi. pose proof (braid_range s ch nch i Hn Hch Hs).
    rewrite Hraw by lia. destruct (s <? ns) eqn:E.
    - apply rd_braid_encode_in; auto.
      unfold encode_frames, REAC_SAMPLES_PER_PKT; split_ifs; lia.
    - rewrite rd_braid_encode_short, Hzero; auto; try lia.
      + by assert (i = 0 ∨ i = 1 ∨ i = 2) as [->|[->| ->]] by lia.
      + unfold encode_frames, REAC_SAMPLES_PER_PKT; split_ifs; lia. }
  pose proof (Hlane 0 ltac:(lia)) as H0; pose proof (Hlane 1 ltac:(lia)) as H1;
    pose proof (Hlane 2 ltac:(lia)) as H2.
  unfold pos_lane in *; destruct (reac_braid_pos s ch nch) as [[p0 p1] p2]; simpl in *.
  rewrite H0, H1, H2. by destruct (s <? ns).
Qed.

(** Reads of a built frame outside its audio region. *)
Ltac rds_frame :=
  repeat first [rd_step | rewrite rd_braid_encode_out by (reflexivity || zl)].

Lemma u16_of_bytes c :
  u16 (Z.lor (u8 (Z.land c 0xFF)) (Z.shiftl (u8 (Z.land (Z.shiftr c 8) 0xFF)) 8)) = u16 c.
Proof.
  rewrite lor_shift8 by (try apply is_byte_u8; unfold u8; apply Z.mod_pos_bound; lia).
  rewrite !land_ff. rewrite Z.shiftr_div_pow2 by lia. unfold u8, u16. lia.
Qed.

Lemma zlen_downstream_build planar nch ns counter src :
  zlen (reac_downstream_build planar nch ns counter src) = 1492.
Proof. unfold reac_downstream_build, REAC_FRAME_BYTES; zl. Qed.

Section Downstream.
Context (planar : planes) (nch ns counter : Z) (src : list Z).
Context (Hsrc : zlen src = 6).

Let frame := reac_downstream_build planar nch ns counter src.

Lemma downstream_header :
  reac_frame_inspect frame REAC_FRAME_BYTES = Some (u16 counter) ∧
  slice frame 0 6 = fill 6 0xFF ∧ slice frame 6 6 = src ∧
  (∀ i, 16 ≤ i < 50 → frame.[i] = 0).
Proof using Hsrc.
  subst frame; unfold reac_downstream_build, REAC_FRAME_BYTES, REAC_HDR_COUNTER_OFF,
    REAC_AUDIO_OFFSET, REAC_MAX_CHANNELS.
  split_and!.
  - unfold reac_frame_inspect, REAC_FRAME_BYTES. rds_frame. simpl. f_equal.
    apply u16_of_bytes.
  - apply buf_ext; [zl|]. intros i Hi. autorewrite with zlen in Hi. rds_frame. done.
  - apply buf_ext; [zl|]. intros i Hi. autorewrite with zlen in Hi. rds_frame.
    f_equal; lia.
  - intros i Hi. by rds_frame.
Qed.

Lemma downstream_unbraid :
  unbraid frame 50 40 12 = planar_bytes planar nch 40 ns.
Proof using Hsrc.
  subst frame; unfold reac_downstream_build, REAC_FRAME_BYTES, REAC_HDR_COUNTER_OFF,
    REAC_AUDIO_OFFSET, REAC_MAX_CHANNELS.
  match goal with
  | |- context [reac_braid_encode ?o _ _ _ _ _] => apply (unbraid_encode _ o)
  end; [done|done|zl| |].
  - intros j Hj. by rewrite !rd_wr_ne by lia.
  - intros j Hj. by rds_frame.
Qed.
End Downstream.

(** C12. A master frame decodes to what was encoded: for every planar source,
    plane count, quantum, counter and sender, the built frame is 1492 bytes,
    validates, carries the counter modulo 2^16 and the sender's MAC after the
    broadcast address, and [reac_decode] returns 12 samples per channel whose
    bytes are exactly the encoded source samples, silent where the source has
    no plane or was short. *)
Theorem downstream_roundtrip planar nch ns counter src rate :
  zlen src = 6 →
  let f := reac_downstream_build planar nch ns counter src in
  zlen f = REAC_FRAME_BYTES ∧
  reac_frame_inspect f REAC_FRAME_BYTES = Some (u16 counter) ∧
  slice f 0 6 = fill 6 0xFF ∧ slice f 6 6 = src ∧
  reac_decode f REAC_FRAME_BYTES (reac_mode_for rate) =
    Some (12, planar_bytes planar nch 40 ns).
Proof.
  intros Hsrc f. destruct (downstream_header planar nch ns counter src Hsrc)
    as (Hi & Hd & Hs & _).
  split_and!; auto; [apply zlen_downstream_build|].
  assert (Hm : n_channels (reac_mode_for rate) = 40 ∧
               samples_per_pkt (reac_mode_for rate) = 12).
  { unfold reac_mode_for; split_ifs; done. }
  destruct Hm as [Hm1 Hm2]. unfold reac_decode. subst f; rewrite Hi, Hm1, Hm2.
  cbn -[unbraid reac_downstream_build planar_bytes].
  do 2 f_equal. by apply downstream_unbraid.
Qed.

Lemma downstream_roundtrip_witness :
  reac_decode (reac_downstream_build [Some [S754_finite false 8388608 (-24)]] 1 1 7
                 [0; 0x40; 0xab; 1; 2; 3]) REAC_FRAME_BYTES (reac_mode_for 96000) =
  Some (12, planar_bytes [Some [S754_finite false 8388608 (-24)]] 1 40 1).
Proof.
  apply (downstream_roundtrip [Some [S754_finite false 8388608 (-24)]] 1 1 7
           [0; 0x40; 0xab; 1; 2; 3] 96000). reflexivity.
Defined.

(** The round trip is not vacuous: half scale on channel 0 arrives as 0x400000. *)
Example downstream_half_scale :
  take 6 (planar_bytes [Some [S754_finite false 8388608 (-24)]] 1 40 1) =
  [0x00; 0x00; 0x40; 0; 0; 0].
Proof. vm_compute. reflexivity. Qed.

(** The decoder refuses rather than reads outside the audio region: whenever
    it answers, every position it read lies in the frame's 1440 audio bytes. *)
Lemma decode_in_bounds raw len mode ns out :
  reac_decode raw len mode = Some (ns, out) →
  len = 1492 ∧ ns = samples_per_pkt mode ∧
  ∀ s ch i, 0 ≤ s < ns → 0 ≤ ch < n_channels mode →
    0 ≤ pos_lane (reac_braid_pos s ch (n_channels mode)) i < REAC_AUDIO_BYTES.
Proof.
  unfold reac_decode, reac_frame_inspect, REAC_FRAME_BYTES, REAC_AUDIO_BYTES,
    REAC_RESOLUTION.
  destruct (negb (len =? 1492)) eqn:El; [done|].
  destruct (negb (raw.[12] =? 0x88) || _); [done|].
  destruct (negb (raw.[len - 2] =? _) || _); [done|].
  destruct ((n_channels mode <=? 0) || _ || _ || _) eqn:Eg; [done|].
  intros [= <- <-]. rewrite land_1 in Eg. split_and!; [lia|done|].
  intros s ch i Hs Hch. rewrite pos_group by lia.
  pose proof (lane_off_range ch i). assert (0 ≤ ch / 2 < n_channels mode / 2) by lia.
  assert (0 ≤ s * (n_channels mode / 2) ≤ (samples_per_pkt mode - 1) * (n_channels mode / 2))
    by nia.
  assert (2 * (n_channels mode / 2) = n_channels mode) by lia. nia.
Qed.
