(* ===== verification/CtrlBlk.v ===== *)
(** * CtrlBlk: the 32-byte control block

    Models the first half of [src/reac_ctrlblk.c] and the enums and structs of
    [include/reac/reac_ctrlblk.h]: the two nested checksums, the scene push,
    the head-amp sensitivity scale, the classifier [reac_ctrl_parse] and the
    identity-reply readers. Functions that take a pointer into a buffer take
    the buffer and the offset. *)

From S2P Require Import Prelude Wire.
Local Open Scope Z_scope.

(** ** Constants *)

Definition REAC_CTRL_BLOCK_OFF : Z := 18.
Definition REAC_CTRL_BLOCK_END : Z := 50.
Definition REAC_CTRL_BLOCK_LEN : Z := 32.
Definition CNT_OFF : Z := 14.
Definition TYPE_OFF : Z := 16.
Definition AUDIO_OFF : Z := 50.
Definition REAC_LINK_CTRL : Z := 1.
Definition REAC_LINK_SECOND : Z := 2.
Definition REAC_LINK_RECORD : Z := 4.
Definition REAC_SEG_MIDDLE : Z := 0.
Definition REAC_SEG_FIRST : Z := 1.
Definition REAC_SEG_LAST : Z := 2.
Definition REAC_SEG_SINGLE : Z := 3.
Definition REAC_OP_BULK : Z := 0x00.
Definition REAC_OP_SLOT_MAP : Z := 0x01.
Definition REAC_OP_GROUP_MAP : Z := 0x10.
Definition REAC_OP_DECL_ALT : Z := 0x80.
Definition REAC_OP_BOX_HB : Z := 0x81.
Definition REAC_OP_DECL : Z := 0x82.
Definition REAC_OP_DECL_OTHER : Z := 0x84.
Definition REAC_DT1_MODEL_LO : Z := 0x12.
Definition REAC_DT1_CMD_DT1 : Z := 0x12.
Definition REAC_DT1_TAG_HEAD_MARK : Z := 0x0000.
Definition REAC_DT1_TAG_JOIN : Z := 0x0100.
Definition REAC_DT1_TAG_HEADAMP : Z := 0x0101.
Definition REAC_DT1_TAG_BOX_READY : Z := 0x0302.
Definition REAC_DT1_TAG_IDENTITY : Z := 0x0500.
Definition REAC_SCENE_BYTES : Z := 8904.
Definition REAC_SCENE_HEAD_BYTES : Z := 24.
Definition REAC_SCENE_CHUNK_BYTES : Z := 26.
Definition REAC_SCENE_TAIL_BYTES : Z := 14.
Definition REAC_SCENE_CHUNKS : Z := 341.
Definition REAC_SCENE_STEPS : Z := 1 + REAC_SCENE_CHUNKS + 1.
Definition REAC_SCENE_MAC_OFF : Z := 0x340.
Definition REAC_SCENE_REVISION_OFF : Z := 0x014.
Definition REAC_HEADAMP_SENS_MAX : Z := 0x37.
Definition REAC_HEADAMP_MAX_CH : Z := 48.
Definition REAC_HEADAMP_NPARAMS : Z := 3.

(** ** Header and checksums *)

Definition put_hdr (f dst src : list Z) (counter t0 t1 : Z) : list Z :=
  let f := blit f 0 dst in
  let f := blit f 6 src in
  let f := wr f 12 0x88 in
  let f := wr f 13 0x19 in
  let f := wr f CNT_OFF (u8 (Z.land counter 0xff)) in
  let f := wr f (CNT_OFF + 1) (u8 (Z.shiftr counter 8)) in
  let f := wr f TYPE_OFF t0 in
  wr f (TYPE_OFF + 1) t1.

(** [reac_ctrl_block_cksum_stamp] on the block at [f + off]. *)
Definition reac_ctrl_block_cksum_stamp (f : list Z) (off : Z) : list Z :=
  let s := zsum (slice f off (REAC_CTRL_BLOCK_LEN - 1)) in
  wr f (off + (REAC_CTRL_BLOCK_LEN - 1)) (u8 (Z.land (256 - Z.land s 0xff) 0xff)).

Definition reac_ctrl_checksum_apply (frame : list Z) : list Z :=
  reac_ctrl_block_cksum_stamp frame REAC_CTRL_BLOCK_OFF.

(** [true] is the C function's 0. *)
Definition reac_ctrl_checksum_verify (frame : list Z) : bool :=
  Z.land (zsum (slice frame REAC_CTRL_BLOCK_OFF
                  (REAC_CTRL_BLOCK_END - REAC_CTRL_BLOCK_OFF))) 0xff =? 0.

(** The Roland DT1 record at [f + off], [n] bytes with its checksum last. *)
Definition reac_ctrl_record_cksum_stamp (f : list Z) (off n : Z) : list Z :=
  let s := zsum (slice f off (n - 1)) in
  wr f (off + (n - 1)) (u8 (Z.land (0x80 - Z.land s 0x7f) 0x7f)).

Definition reac_ctrl_record_cksum_verify (f : list Z) (off n : Z) : bool :=
  Z.land (zsum (slice f off n)) 0x7f =? 0.

(** ** The scene push *)

Definition TAIL_TRAILER : list Z := [0; 0; 3; 0; 0; 0; 1; 0; 0; 0; 0; 0].

(** [reac_ctrl_build_scene_step]: the 34-byte [type|block] of one step. *)
Definition reac_ctrl_build_scene_step (body : list Z) (n step : Z) : option (list Z) :=
  if negb (n =? REAC_SCENE_BYTES) then None
  else if (step <? 0) || (REAC_SCENE_STEPS <=? step) then None
  else
    let blk := wr (wr (zeros 34) 0 0xcd) 1 0xea in
    let hdr blk seg len :=
      let blk := wr blk 2 REAC_LINK_CTRL in
      let blk := wr blk 3 seg in
      let blk := wr blk 6 REAC_OP_BULK in
      wr (wr blk 4 (u8 (Z.shiftr len 8))) 5 (u8 (Z.land len 0xff)) in
    let blk :=
      if step =? 0 then
        let blk := hdr blk REAC_SEG_FIRST REAC_SCENE_HEAD_BYTES in
        let blk := wr blk 7 (u8 (Z.shiftr REAC_SCENE_BYTES 8)) in
        let blk := wr blk 8 (u8 (Z.land REAC_SCENE_BYTES 0xff)) in
        blit blk 9 (slice body 0 REAC_SCENE_HEAD_BYTES)
      else if step <=? REAC_SCENE_CHUNKS then
        let off := REAC_SCENE_HEAD_BYTES + (step - 1) * REAC_SCENE_CHUNK_BYTES in
        let blk := hdr blk REAC_SEG_MIDDLE REAC_SCENE_CHUNK_BYTES in
        blit blk 7 (slice body off REAC_SCENE_CHUNK_BYTES)
      else
        let off := REAC_SCENE_BYTES - REAC_SCENE_TAIL_BYTES in
        let blk := hdr blk REAC_SEG_LAST REAC_SCENE_TAIL_BYTES in
        let blk := blit blk 7 (slice body off REAC_SCENE_TAIL_BYTES) in
        blit blk (7 + REAC_SCENE_TAIL_BYTES) TAIL_TRAILER in
    Some (reac_ctrl_block_cksum_stamp blk 2).

Definition reac_ctrl_scene_set_mac (body : list Z) (n : Z) (mac : list Z)
    : option (list Z) :=
  if negb (n =? REAC_SCENE_BYTES) then None else Some (blit body REAC_SCENE_MAC_OFF mac).

(** ** Head-amp sensitivity, in hundredths of a decibel *)

Definition SENS_REF_CDB : Z := -1000.
Definition SENS_STEP_CDB : Z := 100.
Definition SENS_PAD_CDB : Z := 2000.

Definition reac_headamp_sens_cdb (value : Z) (pad_on : bool) : Z :=
  let value := if REAC_HEADAMP_SENS_MAX <? value then REAC_HEADAMP_SENS_MAX else value in
  SENS_REF_CDB - value * SENS_STEP_CDB + (if pad_on then SENS_PAD_CDB else 0).

Definition reac_headamp_sens_value_cdb (cdb : Z) (pad_on : bool) : Z :=
  let want := SENS_REF_CDB + (if pad_on then SENS_PAD_CDB else 0) - cdb in
  if want <=? 0 then 0
  else
    let step := Z.quot (want + Z.quot SENS_STEP_CDB 2) SENS_STEP_CDB in
    u8 (if REAC_HEADAMP_SENS_MAX <? step then REAC_HEADAMP_SENS_MAX else step).

Definition reac_headamp_sens_db (value : Z) (pad_on : bool) : Z :=
  let c := reac_headamp_sens_cdb value pad_on in
  if 0 <=? c then Z.quot (c + 50) 100 else - Z.quot (- c + 50) 100.

Definition reac_headamp_sens_value (db : Z) (pad_on : bool) : Z :=
  reac_headamp_sens_value_cdb (db * 100) pad_on.

(** ** The classifier *)

Inductive reac_ctrl_kind :=
| REAC_CTRL_NONE | REAC_CTRL_FILLER | REAC_CTRL_SCENE_TRANSFER | REAC_CTRL_MASTER_HB
| REAC_CTRL_MASTER_ANNOUNCE | REAC_CTRL_GRANT | REAC_CTRL_HEADAMP | REAC_CTRL_BOX_HB
| REAC_CTRL_SPLIT_ANNOUNCE | REAC_CTRL_CONFIG_ANNOUNCE | REAC_CTRL_GROUP_MAP
| REAC_CTRL_RECORD_FRAGMENT | REAC_CTRL_LINK2 | REAC_CTRL_UNKNOWN_CTRL.

#[global] Instance reac_ctrl_kind_eq_dec : EqDecision reac_ctrl_kind.
Proof. solve_decision. Defined.

Record reac_ctrl_parsed := Parsed {
  p_kind : reac_ctrl_kind; p_src : list Z; p_dst : list Z; p_is_broadcast : bool;
  p_counter : Z; p_link : Z; p_seg : Z; p_blk_len : Z; p_opcode : Z;
  p_dt1_tag : Z; p_ch : Z; p_param : Z; p_value : Z
}.

Definition kind_of_link1 (opcode : Z) : reac_ctrl_kind :=
  if opcode =? REAC_OP_BULK then REAC_CTRL_SCENE_TRANSFER
  else if opcode =? REAC_OP_SLOT_MAP then REAC_CTRL_MASTER_HB
  else if opcode =? REAC_OP_GROUP_MAP then REAC_CTRL_GROUP_MAP
  else if opcode =? REAC_OP_BOX_HB then REAC_CTRL_BOX_HB
  else if (opcode =? REAC_OP_DECL) || (opcode =? REAC_OP_DECL_ALT)
          || (opcode =? REAC_OP_DECL_OTHER) then REAC_CTRL_CONFIG_ANNOUNCE
  else REAC_CTRL_UNKNOWN_CTRL.

(** The record [memset] leaves, and a header with no DT1 fields. *)
Definition parsed_zero : reac_ctrl_parsed :=
  Parsed REAC_CTRL_NONE (zeros 6) (zeros 6) false 0 0 0 0 0 0 0 0 0.

Definition reac_ctrl_parse (frame : list Z) (len : Z) : reac_ctrl_parsed :=
  if (len <? AUDIO_OFF) || negb (frame.[12] =? 0x88) || negb (frame.[13] =? 0x19)
  then parsed_zero
  else
    let dst := slice frame 0 6 in
    let src := slice frame 6 6 in
    let bcast := zeqb dst (fill 6 0xff) in
    let counter := u16 (Z.lor frame.[CNT_OFF] (Z.shiftl frame.[CNT_OFF + 1] 8)) in
    let block i := frame.[REAC_CTRL_BLOCK_OFF + i] in
    let link := block 0 in
    let seg := block 1 in
    let blk_len := u16 (Z.lor (Z.shiftl (block 2) 8) (block 3)) in
    let opcode := block 4 in
    let mk kind tag ch param value :=
      Parsed kind src dst bcast counter link seg blk_len opcode tag ch param value in
    let t0 := frame.[TYPE_OFF] in
    let t1 := frame.[TYPE_OFF + 1] in
    if (t0 =? 0x00) && (t1 =? 0x00) then mk REAC_CTRL_FILLER 0 0 0 0
    else if (t0 =? 0xcf) && (t1 =? 0xea) then mk REAC_CTRL_MASTER_ANNOUNCE 0 0 0 0
    else if (t0 =? 0xce) && (t1 =? 0xea) then mk REAC_CTRL_SPLIT_ANNOUNCE 0 0 0 0
    else if negb (t0 =? 0xcd) || negb (t1 =? 0xea) then mk REAC_CTRL_UNKNOWN_CTRL 0 0 0 0
    else if link =? REAC_LINK_CTRL then mk (kind_of_link1 opcode) 0 0 0 0
    else if link =? REAC_LINK_SECOND then mk REAC_CTRL_LINK2 0 0 0 0
    else if link =? REAC_LINK_RECORD then
      if negb (seg =? REAC_SEG_SINGLE) then mk REAC_CTRL_RECORD_FRAGMENT 0 0 0 0
      else
        let tag := u16 (Z.lor (Z.shiftl (block 16) 8) (block 17)) in
        if (block 14 =? REAC_DT1_MODEL_LO) && (block 15 =? REAC_DT1_CMD_DT1)
           && (tag =? REAC_DT1_TAG_HEADAMP)
        then mk REAC_CTRL_HEADAMP tag (block 18) (block 19) (block 20)
        else mk REAC_CTRL_GRANT tag 0 0 0
    else mk REAC_CTRL_UNKNOWN_CTRL 0 0 0 0.

(** ** Identity replies *)

(** [reac_ctrl_identity_reply]: [None] is the 0 return; [Some (addr, payload)]
    the 1 return with the bytes [payload] points at. *)
Definition reac_ctrl_identity_reply (frame : list Z) (len : Z) : option (Z * list Z) :=
  let p := reac_ctrl_parse frame len in
  let block i := frame.[REAC_CTRL_BLOCK_OFF + i] in
  let sysex_len := block 8 in
  if negb (bool_decide (p_kind p = REAC_CTRL_GRANT)) then None
  else if negb (p_dt1_tag p =? REAC_DT1_TAG_IDENTITY) then None
  else if negb (block 14 =? REAC_DT1_MODEL_LO) || negb (block 15 =? REAC_DT1_CMD_DT1) then None
  else if (sysex_len <? 14) || (REAC_CTRL_BLOCK_LEN <? 9 + sysex_len) then None
  else if negb (block 9 =? 0xf0) || negb (block (9 + sysex_len - 1) =? 0xf7) then None
  else if negb (reac_ctrl_checksum_verify frame) then None
  else if negb (reac_ctrl_record_cksum_verify frame (REAC_CTRL_BLOCK_OFF + 16) (sysex_len - 8))
       then None
  else Some (u16 (Z.lor (Z.shiftl (block 18) 8) (block 19)),
             slice frame (REAC_CTRL_BLOCK_OFF + 20) (sysex_len - 13)).

Record reac_identity_frag := Frag {
  fr_src : list Z; fr_have_first : bool; fr_len : Z; fr_buf : list Z
}.
Definition frag_zero : reac_identity_frag := Frag (zeros 6) false 0 (zeros 64).

(** [reac_ctrl_identity_fragment]: the reassembly buffer after the frame, and
    the completed record when this frame closes one. *)
Definition reac_ctrl_identity_fragment (f : reac_identity_frag) (frame : list Z) (len : Z)
    : reac_identity_frag * option (Z * list Z) :=
  let blk i := frame.[REAC_CTRL_BLOCK_OFF + i] in
  let n := blk 8 in
  if len <? REAC_CTRL_BLOCK_OFF + REAC_CTRL_BLOCK_LEN then (f, None)
  else if negb (frame.[16] =? 0xcd) || negb (frame.[17] =? 0xea) || negb (blk 0 =? 0x04)
          || (negb (blk 1 =? 0x01) && negb (blk 1 =? 0x02)) then (f, None)
  else if negb (blk 4 =? 0x00) || negb (blk 5 =? 0x02) || negb (blk 6 =? 0x00)
          || negb (blk 7 =? 0xfe) then (f, None)
  else if (n =? 0) || (REAC_CTRL_BLOCK_LEN - 1 <? 9 + n) then (f, None)
  else if negb (reac_ctrl_checksum_verify frame) then (f, None)
  else if blk 1 =? 0x01 then
    (Frag (slice frame 6 6) true (u8 n)
       (blit (fr_buf f) 0 (slice frame (REAC_CTRL_BLOCK_OFF + 9) n)), None)
  else if negb (fr_have_first f) || negb (zeqb (fr_src f) (slice frame 6 6))
          || (64 <? fr_len f + n) then
    (Frag (fr_src f) false (fr_len f) (fr_buf f), None)
  else
    let r := blit (fr_buf f) (fr_len f) (slice frame (REAC_CTRL_BLOCK_OFF + 9) n) in
    let total := fr_len f + n in
    let f' := Frag (fr_src f) false (fr_len f) r in
    if (total <? 14) || negb (r.[0] =? 0xf0) || negb (r.[1] =? 0x41) || negb (r.[3] =? 0x00)
       || negb (r.[4] =? 0x00) || negb (r.[5] =? REAC_DT1_MODEL_LO)
       || negb (r.[6] =? REAC_DT1_CMD_DT1) || negb (r.[7] =? 0x05) || negb (r.[8] =? 0x00)
       || negb (r.[total - 1] =? 0xf7) then (f', None)
    else if negb (reac_ctrl_record_cksum_verify r 7 (total - 8)) then (f', None)
    else (f', Some (u16 (Z.lor (Z.shiftl r.[9] 8) r.[10]), slice r 11 (total - 13))).

(** * Properties: the checksums *)

Lemma zlen_block_stamp f off : zlen (reac_ctrl_block_cksum_stamp f off) = zlen f.
Proof. unfold reac_ctrl_block_cksum_stamp; zl. Qed.
Lemma zlen_record_stamp f off n : zlen (reac_ctrl_record_cksum_stamp f off n) = zlen f.
Proof. unfold reac_ctrl_record_cksum_stamp; zl. Qed.
#[export] Hint Rewrite zlen_block_stamp zlen_record_stamp : zlen.

Lemma rd_block_stamp_ne f off j :
  0 ≤ off → 0 ≤ j → j ≠ off + 31 → rd (reac_ctrl_block_cksum_stamp f off) j = rd f j.
Proof.
  intros. unfold reac_ctrl_block_cksum_stamp, REAC_CTRL_BLOCK_LEN.
  apply rd_wr_ne; lia.
Qed.

Lemma bytes_block_stamp f off : bytes f → bytes (reac_ctrl_block_cksum_stamp f off).
Proof. intros; apply bytes_wr; auto with bytes. Qed.
Lemma bytes_record_stamp f off n : bytes f → bytes (reac_ctrl_record_cksum_stamp f off n).
Proof. intros; apply bytes_wr; auto with bytes. Qed.
#[export] Hint Resolve bytes_block_stamp bytes_record_stamp : bytes.

Lemma block_stamp_closes f off :
  0 ≤ off → off + 32 ≤ zlen f →
  zsum (slice (reac_ctrl_block_cksum_stamp f off) off 32) mod 256 = 0.
Proof.
  intros Hoff Hlen. rewrite zsum_slice_last by lia.
  unfold reac_ctrl_block_cksum_stamp, REAC_CTRL_BLOCK_LEN.
  rewrite slice_wr_out, rd_wr_eq by zl.
  rewrite !land_ff. unfold u8. lia.
Qed.

Lemma record_stamp_closes f off n :
  0 ≤ off → 1 ≤ n → off + n ≤ zlen f →
  zsum (slice (reac_ctrl_record_cksum_stamp f off n) off n) mod 128 = 0 ∧
  0 ≤ rd (reac_ctrl_record_cksum_stamp f off n) (off + (n - 1)) < 128.
Proof.
  intros Hoff Hn Hlen. rewrite zsum_slice_last by lia. unfold reac_ctrl_record_cksum_stamp.
  rewrite slice_wr_out, rd_wr_eq by zl.
  rewrite !land_7f. unfold u8. lia.
Qed.

Lemma checksum_verify_iff frame :
  reac_ctrl_checksum_verify frame = true ↔ zsum (slice frame 18 32) mod 256 = 0.
Proof.
  unfold reac_ctrl_checksum_verify, REAC_CTRL_BLOCK_OFF, REAC_CTRL_BLOCK_END.
  change (50 - 18) with 32. rewrite land_ff. lia.
Qed.

Lemma record_verify_iff f off n :
  reac_ctrl_record_cksum_verify f off n = true ↔ zsum (slice f off n) mod 128 = 0.
Proof. unfold reac_ctrl_record_cksum_verify. rewrite land_7f. lia. Qed.

Lemma zsum_slice_wr l i v off n :
  0 ≤ off → off ≤ i < off + n → i < zlen l →
  zsum (slice (wr l i v) off n) = zsum (slice l off n) - rd l i + v.
Proof.
  intros Hoff Hi Hl.
  assert (Hs : slice (wr l i v) off n = wr (slice l off n) (i - off) v).
  { apply buf_ext; [zl|]. intros j Hj. rewrite zlen_slice, zlen_wr in Hj.
    rewrite rd_slice by lia. destruct (decide (off + j = i)) as [<-|].
    - rewrite rd_wr_eq by zl. replace (off + j - off) with j by lia.
      rewrite rd_wr_eq; [done|zl].
    - rewrite !rd_wr_ne by lia. by rewrite rd_slice by lia. }
  rewrite Hs, zsum_wr by zl. rewrite rd_slice by lia.
  by replace (off + (i - off)) with i by lia.
Qed.

(** The block checksum detects every single-byte corruption: a frame with
    a valid block in which any one of the 32 block bytes is replaced by a
    different byte fails verification, and stamping repairs it. *)
Theorem checksum_detects_corruption (frame : list Z) (i v : Z) :
  bytes frame → 50 ≤ zlen frame → reac_ctrl_checksum_verify frame = true →
  18 ≤ i < 50 → is_byte v → v ≠ frame.[i] →
  reac_ctrl_checksum_verify (wr frame i v) = false ∧
  reac_ctrl_checksum_verify (reac_ctrl_checksum_apply (wr frame i v)) = true.
Proof.
  intros Hb Hlen Hv Hi Hbv Hne. split.
  - apply not_true_iff_false. rewrite checksum_verify_iff.
    apply checksum_verify_iff in Hv.
    rewrite zsum_slice_wr by lia. pose proof (bytes_rd frame i Hb).
    unfold is_byte in *. lia.
  - apply checksum_verify_iff, block_stamp_closes; unfold REAC_CTRL_BLOCK_OFF; zl.
Qed.

Lemma checksum_detects_corruption_witness :
  reac_ctrl_checksum_verify (wr (zeros 50) 20 1) = false.
Proof.
  apply (checksum_detects_corruption (zeros 50) 20 1);
    [apply bytes_zeros|vm_compute; congruence|reflexivity|lia|unfold is_byte; lia|].
  vm_compute; congruence.
Defined.

(** Re-stamping a block that already closes changes nothing: the master's
    re-checksum of a captured row is a no-op. *)
Lemma block_stamp_noop f off :
  is_byte f.[off + 31] → 0 ≤ off → off + 32 ≤ zlen f → zsum (slice f off 32) mod 256 = 0 →
  reac_ctrl_block_cksum_stamp f off = f.
Proof.
  intros Hb Hoff Hlen Hs. unfold reac_ctrl_block_cksum_stamp, REAC_CTRL_BLOCK_LEN.
  rewrite zsum_slice_last in Hs by lia. change (32 - 1) with 31 in *.
  rewrite !land_ff. unfold is_byte, u8 in *. apply buf_ext; [zl|].
  intros j Hj. destruct (decide (j = off + 31)) as [->|].
  - rewrite rd_wr_eq by zl. lia.
  - apply rd_wr_ne; lia.
Qed.

(** A 34-byte [type|block] template the wire can carry as it is. *)
Definition tmpl_ok (blk : list Z) : Prop :=
  zlen blk = 34 ∧ is_byte blk.[33] ∧ zsum (slice blk 2 32) mod 256 = 0.

Lemma tmpl_stamp_ok blk : zlen blk = 34 → tmpl_ok (reac_ctrl_block_cksum_stamp blk 2).
Proof.
  intros Hl. split_and!; [zl| |apply block_stamp_closes; lia].
  unfold reac_ctrl_block_cksum_stamp, REAC_CTRL_BLOCK_LEN. rewrite rd_wr_eq by lia. apply is_byte_u8.
Qed.

Lemma scene_step_tmpl body n step blk :
  reac_ctrl_build_scene_step body n step = Some blk → tmpl_ok blk.
Proof.
  unfold reac_ctrl_build_scene_step. intros H. destruct (negb _); [done|].
  destruct (_ || _); [done|]. apply (inj Some) in H. subst blk.
  apply tmpl_stamp_ok. split_ifs; zl.
Qed.

(** * Properties: the scene push *)

(** What a box reassembles from one step: the declared number of payload
    bytes, at block[7] in a FIRST frame and block[5] in the others. *)
Definition scene_declared (blk : list Z) : Z := 256 * blk.[4] + blk.[5].
Definition scene_payload (blk : list Z) : list Z :=
  slice blk (if blk.[3] =? REAC_SEG_FIRST then 9 else 7) (scene_declared blk).

Lemma scene_step_ok body step :
  zlen body = 8904 → 0 ≤ step < 343 →
  ∃ blk, reac_ctrl_build_scene_step body 8904 step = Some blk ∧ zlen blk = 34 ∧
    blk.[0] = 0xcd ∧ blk.[1] = 0xea ∧ blk.[2] = REAC_LINK_CTRL ∧ blk.[6] = REAC_OP_BULK ∧
    blk.[3] = (if step =? 0 then REAC_SEG_FIRST else if step <=? 341 then REAC_SEG_MIDDLE
               else REAC_SEG_LAST) ∧
    zsum (slice blk 2 32) mod 256 = 0 ∧
    scene_payload blk = slice body (if step =? 0 then 0 else 24 + (step - 1) * 26)
      (if step =? 0 then 24 else if step <=? 341 then 26 else 14).
Proof.
  intros Hb Hs. unfold reac_ctrl_build_scene_step.
  replace (negb (8904 =? REAC_SCENE_BYTES)) with false by reflexivity.
  replace ((step <? 0) || (REAC_SCENE_STEPS <=? step)) with false
    by (unfold REAC_SCENE_STEPS, REAC_SCENE_CHUNKS; lia).
  eexists; split; [reflexivity|].
  unfold scene_payload, scene_declared, REAC_SCENE_CHUNKS, REAC_SCENE_HEAD_BYTES,
    REAC_SCENE_CHUNK_BYTES, REAC_SCENE_TAIL_BYTES, REAC_SCENE_BYTES.
  rewrite !rd_block_stamp_ne by lia.
  destruct (step =? 0) eqn:E0; [|destruct (step <=? 341) eqn:E1].
  all: split_and!; try (zl; fail); try (rds; reflexivity);
    try (apply block_stamp_closes; zl).
  all: rds; match goal with |- slice _ _ ?n = _ =>
         let n' := eval vm_compute in n in change n with n' end;
       cbn [Z.eqb Pos.eqb REAC_SEG_FIRST REAC_SEG_MIDDLE REAC_SEG_LAST];
       apply buf_ext; [zl|]; intros i Hi; rewrite zlen_slice in Hi;
       autorewrite with zlen in Hi; rewrite rd_slice by lia;
       rewrite rd_block_stamp_ne by lia; rds; f_equal; lia.
Qed.

(** The payload of step [k], or nothing when the builder refuses. *)
Definition step_payload (body : list Z) (k : Z) : list Z :=
  match reac_ctrl_build_scene_step body REAC_SCENE_BYTES k with
  | Some blk => scene_payload blk
  | None => []
  end.

Lemma step_payload_slice body k :
  zlen body = 8904 → 0 ≤ k < 343 →
  step_payload body k = slice body (if k =? 0 then 0 else 24 + (k - 1) * 26)
    (if k =? 0 then 24 else if k <=? 341 then 26 else 14).
Proof.
  intros Hb Hk. unfold step_payload.
  destruct (scene_step_ok body k Hb Hk) as (blk & Hstep & _ & _ & _ & _ & _ & _ & _ & Hp).
  change REAC_SCENE_BYTES with 8904. by rewrite Hstep.
Qed.

Lemma chunks_concat body (n : nat) :
  zlen body = 8904 → Z.of_nat n ≤ 341 →
  concat (step_payload body <$> zseq 0 (Z.of_nat n + 1)) =
  slice body 0 (24 + Z.of_nat n * 26).
Proof.
  intros Hb. induction n as [|n IH]; intros Hn.
  - change (Z.of_nat 0 + 1) with 1. unfold zseq; simpl.
    rewrite app_nil_r. by rewrite step_payload_slice by lia.
  - unfold zseq.
    replace (Z.of_nat (S n) + 1) with (Z.of_nat n + 1 + 1) by lia.
    rewrite seqZ_app, fmap_app, concat_app by lia.
    fold (zseq 0 (Z.of_nat n + 1)). rewrite IH by lia. simpl.
    rewrite app_nil_r, step_payload_slice by lia.
    replace (Z.of_nat 0 + (0 + (Z.of_nat n + 1))) with (Z.of_nat n + 1) by lia.
    replace (Z.of_nat n + 1 =? 0) with false by lia.
    replace (Z.of_nat n + 1 <=? 341) with true by lia.
    cbv iota.
    replace (24 + (Z.of_nat n + 1 - 1) * 26) with (0 + (24 + Z.of_nat n * 26)) by lia.
    rewrite slice_app by lia. f_equal; lia.
Qed.

Lemma scene_concat body (n : nat) :
  zlen body = 8904 → Z.of_nat n = 341 →
  concat (step_payload body <$> zseq 0 (Z.of_nat n + 1 + 1)) = body.
Proof.
  intros Hb Hn. unfold zseq. rewrite seqZ_app, fmap_app, concat_app by lia.
  fold (zseq 0 (Z.of_nat n + 1)). rewrite chunks_concat by lia. simpl.
  rewrite app_nil_r, step_payload_slice by lia. rewrite Hn.
  change (if _ =? 0 then 0 else _) with (0 + (24 + 341 * 26)).
  change (if _ =? 0 then 24 else _) with 14.
  rewrite slice_app by lia. apply slice_full. lia.
Qed.

(** The scene push reassembles: for every 8904-byte body, each of the 343
    steps builds a [cd ea] block on link 1 with opcode 0x00 whose checksum
    closes, the declared payload lengths sum to the 8904 the first frame
    announces, and the payloads in step order concatenate to the body. *)
Theorem scene_reassembles (body : list Z) :
  zlen body = REAC_SCENE_BYTES →
  concat (step_payload body <$> zseq 0 REAC_SCENE_STEPS) = body ∧
  (∀ step, 0 ≤ step < REAC_SCENE_STEPS →
     ∃ blk, reac_ctrl_build_scene_step body REAC_SCENE_BYTES step = Some blk ∧
       zsum (slice blk 2 32) mod 256 = 0 ∧ blk.[6] = REAC_OP_BULK ∧
       (step = 0 → 256 * blk.[7] + blk.[8] = REAC_SCENE_BYTES)) ∧
  (∀ step, step < 0 ∨ REAC_SCENE_STEPS ≤ step →
     reac_ctrl_build_scene_step body REAC_SCENE_BYTES step = None).
Proof.
  intros Hb. unfold REAC_SCENE_STEPS, REAC_SCENE_CHUNKS in *. split_and!.
  - replace (1 + 341 + 1) with (Z.of_nat (Z.to_nat 341) + 1 + 1) by lia.
    apply scene_concat; [done|lia].
  - intros step Hs. destruct (scene_step_ok body step Hb ltac:(lia))
      as (blk & Hstep & _ & _ & _ & _ & Hop & _ & Hsum & _).
    exists blk; split_and!; auto. intros ->. revert Hstep.
    unfold reac_ctrl_build_scene_step; simpl. intros [= <-].
    rewrite !rd_block_stamp_ne by lia. rds. reflexivity.
  - intros step Hs. unfold reac_ctrl_build_scene_step, REAC_SCENE_STEPS, REAC_SCENE_CHUNKS.
    rewrite Z.eqb_refl. cbv [negb].
    destruct ((step <? 0) || (1 + 341 + 1 <=? step)) eqn:E; [done|lia].
Qed.

Lemma scene_reassembles_witness :
  concat (step_payload (zeros 8904) <$> zseq 0 REAC_SCENE_STEPS) = zeros 8904.
Proof. apply (scene_reassembles (zeros 8904)). vm_compute. reflexivity. Defined.

(** * Properties: sensitivity *)

Lemma sens_cdb_eq v (pad_on : bool) :
  0 ≤ v ≤ 0x37 → reac_headamp_sens_cdb v pad_on = (if pad_on then 1000 else -1000) - v * 100.
Proof.
  intros. unfold reac_headamp_sens_cdb, SENS_REF_CDB, SENS_STEP_CDB, SENS_PAD_CDB,
    REAC_HEADAMP_SENS_MAX. replace (0x37 <? v) with false by lia. destruct pad_on; lia.
Qed.

Lemma sens_value_cdb_near cdb (pad_on : bool) :
  let want := (if pad_on then 1000 else -1000) - cdb in
  0 ≤ want ≤ 5500 →
  let v := reac_headamp_sens_value_cdb cdb pad_on in
  0 ≤ v ≤ 0x37 ∧ -50 ≤ want - v * 100 ≤ 50.
Proof.
  intros want Hw v. subst v.
  unfold reac_headamp_sens_value_cdb, SENS_REF_CDB, SENS_STEP_CDB, SENS_PAD_CDB,
    REAC_HEADAMP_SENS_MAX, u8. change (Z.quot 100 2) with 50.
  replace (-1000 + (if pad_on then 2000 else 0) - cdb) with want
    by (subst want; destruct pad_on; lia).
  clearbody want. destruct (want <=? 0) eqn:E; [lia|].
  rewrite Z.quot_div_nonneg by lia.
  replace (0x37 <? (want + 50) / 100) with false by lia. lia.
Qed.

Lemma sens_db_exact v (pad_on : bool) :
  0 ≤ v ≤ 0x37 → reac_headamp_sens_db v pad_on * 100 = reac_headamp_sens_cdb v pad_on.
Proof.
  intros Hv. unfold reac_headamp_sens_db. rewrite sens_cdb_eq by done.
  destruct pad_on; split_ifs; lia.
Qed.

(** The sensitivity scale is exact: every wire step 0..0x37 survives the
    trip to hundredths of a dB and to whole dB and back, pad on or off; and
    for any requested sensitivity inside the scale the chosen step is within
    half a step (50 cdB) of it. *)
Theorem sens_roundtrip (pad_on : bool) :
  (∀ v, 0 ≤ v ≤ REAC_HEADAMP_SENS_MAX →
     reac_headamp_sens_value_cdb (reac_headamp_sens_cdb v pad_on) pad_on = v ∧
     reac_headamp_sens_value (reac_headamp_sens_db v pad_on) pad_on = v) ∧
  (∀ cdb, reac_headamp_sens_cdb REAC_HEADAMP_SENS_MAX pad_on ≤ cdb
            ≤ reac_headamp_sens_cdb 0 pad_on →
     let v := reac_headamp_sens_value_cdb cdb pad_on in
     0 ≤ v ≤ REAC_HEADAMP_SENS_MAX ∧ Z.abs (reac_headamp_sens_cdb v pad_on - cdb) ≤ 50).
Proof.
  change REAC_HEADAMP_SENS_MAX with 0x37. split.
  - intros v Hv. unfold reac_headamp_sens_value. rewrite sens_db_exact by done.
    pose proof (sens_value_cdb_near (reac_headamp_sens_cdb v pad_on) pad_on) as Hn.
    rewrite sens_cdb_eq in * by done. cbv zeta in Hn. lia.
  - intros cdb Hc v. rewrite !sens_cdb_eq in Hc by lia.
    pose proof (sens_value_cdb_near cdb pad_on) as Hn. cbv zeta in Hn. fold v in Hn.
    rewrite sens_cdb_eq by lia. lia.
Qed.

(** * Frames that carry a control block *)

(** A REAC frame whose type word is [cdea] and whose block is [blk]. *)
Definition carries (frame blk : list Z) : Prop :=
  50 ≤ zlen frame ∧ frame.[12] = 0x88 ∧ frame.[13] = 0x19 ∧ frame.[16] = 0xcd ∧
  frame.[17] = 0xea ∧ slice frame REAC_CTRL_BLOCK_OFF 32 = blk.

Lemma carries_rd frame blk i :
  carries frame blk → 0 ≤ i < 32 → frame.[REAC_CTRL_BLOCK_OFF + i] = blk.[i].
Proof.
  intros (_&_&_&_&_&<-) Hi. unfold REAC_CTRL_BLOCK_OFF. by rewrite rd_slice by lia.
Qed.

Lemma carries_slice frame blk a n :
  carries frame blk → 0 ≤ a → a + n ≤ 32 →
  slice frame (REAC_CTRL_BLOCK_OFF + a) n = slice blk a n.
Proof.
  intros (_&_&_&_&_&<-) Ha Hn. unfold REAC_CTRL_BLOCK_OFF. by rewrite slice_slice by lia.
Qed.

Lemma carries_zlen frame blk : carries frame blk → zlen blk = 32.
Proof. intros (Hl&_&_&_&_&<-). unfold REAC_CTRL_BLOCK_OFF. zl. Qed.

(** A link-4 SINGLE record on a frame is dispatched by its tag alone. *)
Lemma parse_record frame blk :
  carries frame blk → blk.[0] = REAC_LINK_RECORD → blk.[1] = REAC_SEG_SINGLE →
  let tag := u16 (Z.lor (Z.shiftl blk.[16] 8) blk.[17]) in
  let p := reac_ctrl_parse frame (zlen frame) in
  p_dt1_tag p = tag ∧ p_src p = slice frame 6 6 ∧
  if (blk.[14] =? REAC_DT1_MODEL_LO) && (blk.[15] =? REAC_DT1_CMD_DT1)
     && (tag =? REAC_DT1_TAG_HEADAMP)
  then p_kind p = REAC_CTRL_HEADAMP ∧ p_ch p = blk.[18] ∧ p_param p = blk.[19] ∧
       p_value p = blk.[20]
  else p_kind p = REAC_CTRL_GRANT.
Proof.
  intros Hc H0 H1. pose proof Hc as (Hl & E12 & E13 & E16 & E17 & _).
  unfold reac_ctrl_parse, AUDIO_OFF, TYPE_OFF. change (16 + 1) with 17.
  rewrite E12, E13, E16, E17, !(carries_rd frame blk) by (done || lia). rewrite H0, H1.
  replace (zlen frame <? 50) with false by lia. simpl.
  destruct (_ && _ && _); simpl; by split_and!.
Qed.

(** A well-formed identity record on a frame is read back as its address and
    payload. *)
Lemma identity_reply_record frame blk n :
  carries frame blk → blk.[0] = REAC_LINK_RECORD → blk.[1] = REAC_SEG_SINGLE →
  1 ≤ n ≤ 10 → blk.[8] = 13 + n → blk.[9] = 0xf0 → blk.[14] = REAC_DT1_MODEL_LO →
  blk.[15] = REAC_DT1_CMD_DT1 → blk.[16] = 0x05 → blk.[17] = 0x00 →
  blk.[21 + n] = 0xf7 → zsum blk mod 256 = 0 → zsum (slice blk 16 (5 + n)) mod 128 = 0 →
  reac_ctrl_identity_reply frame (zlen frame) =
    Some (u16 (Z.lor (Z.shiftl blk.[18] 8) blk.[19]), slice blk 20 n).
Proof.
  intros Hc H0 H1 Hn H8 H9 H14 H15 H16 H17 Hf Hs Hr.
  pose proof (parse_record frame blk Hc H0 H1) as (Ht & _ & Hk).
  rewrite H14, H15, H16, H17 in Hk. change (p_kind (reac_ctrl_parse frame (zlen frame)) = REAC_CTRL_GRANT) in Hk.
  unfold reac_ctrl_identity_reply. rewrite Hk, Ht, H16, H17.
  rewrite !(carries_rd frame blk _ Hc) by lia. rewrite H8, H14, H15.
  replace (9 + (13 + n) - 1) with (21 + n) by lia.
  rewrite H9, Hf.
  rewrite !(carries_slice frame blk) by (done || lia).
  replace (reac_ctrl_checksum_verify frame) with true; cycle 1.
  { symmetry. apply checksum_verify_iff. destruct Hc as (_&_&_&_&_&<-). done. }
  replace (reac_ctrl_record_cksum_verify _ _ _) with true; cycle 1.
  { symmetry. apply record_verify_iff. rewrite (carries_slice frame blk) by (done || lia).
    by replace (13 + n - 8) with (5 + n) by lia. }
  replace (13 + n <? 14) with false by lia. replace (13 + n - 13) with n by lia.
  replace (REAC_CTRL_BLOCK_LEN <? 9 + (13 + n)) with false by (unfold REAC_CTRL_BLOCK_LEN; lia).
  reflexivity.
Qed.
