(* ===== verification/SlaveFsm.v ===== *)
(** * SlaveFsm: the joining end's establishment state machine

    Models [src/reac_fsm.c] and [include/reac/reac_fsm.h]: a stagebox (or a
    slave daemon) that floods its presence, courts a master by unicast
    cold-connects, settles after the grant and holds the link. [reac_fsm_step]
    is the whole handler; the state is the C struct, one field per member. *)

From S2P Require Import Prelude Wire CtrlBlk.
Local Open Scope Z_scope.

Definition REAC_FSM_LINKCHECK_RELOAD : Z := 600.
Definition REAC_FSM_TXMUTE_DWELL : Z := 800.
Definition REAC_FSM_FLOOD_BURST : Z := 5460.
Definition REAC_FSM_JOIN_RETRY_PERIOD : Z := 800.
Definition REAC_FSM_GRANT_ACK_FRAMES : Z := 7200.
Definition REAC_FSM_COLDCONNECT_BUDGET_S : Z := 4.
Definition REAC_FSM_BACKOFF_S : Z := 10.
Definition HEARTBEAT_PERIOD : Z := 8000.

Inductive reac_fsm_state :=
| FSM_PHY_DOWN | FSM_FLOOD_ANNOUNCE | FSM_COLDCONNECT | FSM_TX_MUTE | FSM_ESTABLISHED
| FSM_DROP | FSM_BACKOFF.
Inductive reac_fsm_action :=
| FSM_ACT_NONE | FSM_ACT_FLOOD_BCAST | FSM_ACT_UNICAST_COLDCONNECT | FSM_ACT_SILENCE
| FSM_ACT_UNICAST_AUDIO | FSM_ACT_STOP.
Inductive reac_fsm_event := FSM_EV_PHY_UP | FSM_EV_PHY_DOWN | FSM_EV_RX | FSM_EV_TICK.
Inductive reac_fsm_drop_reason :=
| FSM_DROP_NONE | FSM_DROP_EXPLICIT | FSM_DROP_PEER_GONE | FSM_DROP_MAC_CHANGE.

#[global] Instance reac_fsm_state_eq_dec : EqDecision reac_fsm_state.
Proof. solve_decision. Defined.
#[global] Instance reac_fsm_action_eq_dec : EqDecision reac_fsm_action.
Proof. solve_decision. Defined.
#[global] Instance reac_fsm_event_eq_dec : EqDecision reac_fsm_event.
Proof. solve_decision. Defined.

#[projections(primitive)] Record reac_fsm := Fsm {
  f_state : reac_fsm_state;
  f_master_mac : list Z;
  f_have_master : bool;
  f_link_check : Z;
  f_txmute_dwell : Z;
  f_heartbeat_tick : Z;
  f_heartbeat_period : Z;
  f_counter : Z;
  f_flood_frames : Z;
  f_drop_reason : reac_fsm_drop_reason;
  f_emit_heartbeat : bool;
  f_emit_join : bool;
  f_join_retry_countdown : Z;
  f_grant_ack : Z;
  f_coldconnect_frames : Z;
  f_backoff : Z
}.

Definition set_f_state (v : reac_fsm_state) (r : reac_fsm) : reac_fsm :=
  Fsm v (f_master_mac r) (f_have_master r) (f_link_check r) (f_txmute_dwell r)
    (f_heartbeat_tick r) (f_heartbeat_period r) (f_counter r) (f_flood_frames r)
    (f_drop_reason r) (f_emit_heartbeat r) (f_emit_join r) (f_join_retry_countdown r)
    (f_grant_ack r) (f_coldconnect_frames r) (f_backoff r).
Definition set_f_master_mac (v : list Z) (r : reac_fsm) : reac_fsm :=
  Fsm (f_state r) v (f_have_master r) (f_link_check r) (f_txmute_dwell r)
    (f_heartbeat_tick r) (f_heartbeat_period r) (f_counter r) (f_flood_frames r)
    (f_drop_reason r) (f_emit_heartbeat r) (f_emit_join r) (f_join_retry_countdown r)
    (f_grant_ack r) (f_coldconnect_frames r) (f_backoff r).
Definition set_f_have_master (v : bool) (r : reac_fsm) : reac_fsm :=
  Fsm (f_state r) (f_master_mac r) v (f_link_check r) (f_txmute_dwell r)
    (f_heartbeat_tick r) (f_heartbeat_period r) (f_counter r) (f_flood_frames r)
    (f_drop_reason r) (f_emit_heartbeat r) (f_emit_join r) (f_join_retry_countdown r)
    (f_grant_ack r) (f_coldconnect_frames r) (f_backoff r).
Definition set_f_link_check (v : Z) (r : reac_fsm) : reac_fsm :=
  Fsm (f_state r) (f_master_mac r) (f_have_master r) v (f_txmute_dwell r)
    (f_heartbeat_tick r) (f_heartbeat_period r) (f_counter r) (f_flood_frames r)
    (f_drop_reason r) (f_emit_heartbeat r) (f_emit_join r) (f_join_retry_countdown r)
    (f_grant_ack r) (f_coldconnect_frames r) (f_backoff r).
Definition set_f_txmute_dwell (v : Z) (r : reac_fsm) : reac_fsm :=
  Fsm (f_state r) (f_master_mac r) (f_have_master r) (f_link_check r) v
    (f_heartbeat_tick r) (f_heartbeat_period r) (f_counter r) (f_flood_frames r)
    (f_drop_reason r) (f_emit_heartbeat r) (f_emit_join r) (f_join_retry_countdown r)
    (f_grant_ack r) (f_coldconnect_frames r) (f_backoff r).
Definition set_f_heartbeat_tick (v : Z) (r : reac_fsm) : reac_fsm :=
  Fsm (f_state r) (f_master_mac r) (f_have_master r) (f_link_check r) (f_txmute_dwell r) v
    (f_heartbeat_period r) (f_counter r) (f_flood_frames r) (f_drop_reason r)
    (f_emit_heartbeat r) (f_emit_join r) (f_join_retry_countdown r) (f_grant_ack r)
    (f_coldconnect_frames r) (f_backoff r).
Definition set_f_heartbeat_period (v : Z) (r : reac_fsm) : reac_fsm :=
  Fsm (f_state r) (f_master_mac r) (f_have_master r) (f_link_check r) (f_txmute_dwell r)
    (f_heartbeat_tick r) v (f_counter r) (f_flood_frames r) (f_drop_reason r)
    (f_emit_heartbeat r) (f_emit_join r) (f_join_retry_countdown r) (f_grant_ack r)
    (f_coldconnect_frames r) (f_backoff r).
Definition set_f_counter (v : Z) (r : reac_fsm) : reac_fsm :=
  Fsm (f_state r) (f_master_mac r) (f_have_master r) (f_link_check r) (f_txmute_dwell r)
    (f_heartbeat_tick r) (f_heartbeat_period r) v (f_flood_frames r) (f_drop_reason r)
    (f_emit_heartbeat r) (f_emit_join r) (f_join_retry_countdown r) (f_grant_ack r)
    (f_coldconnect_frames r) (f_backoff r).
Definition set_f_flood_frames (v : Z) (r : reac_fsm) : reac_fsm :=
  Fsm (f_state r) (f_master_mac r) (f_have_master r) (f_link_check r) (f_txmute_dwell r)
    (f_heartbeat_tick r) (f_heartbeat_period r) (f_counter r) v (f_drop_reason r)
    (f_emit_heartbeat r) (f_emit_join r) (f_join_retry_countdown r) (f_grant_ack r)
    (f_coldconnect_frames r) (f_backoff r).
Definition set_f_drop_reason (v : reac_fsm_drop_reason) (r : reac_fsm) : reac_fsm :=
  Fsm (f_state r) (f_master_mac r) (f_have_master r) (f_link_check r) (f_txmute_dwell r)
    (f_heartbeat_tick r) (f_heartbeat_period r) (f_counter r) (f_flood_frames r) v
    (f_emit_heartbeat r) (f_emit_join r) (f_join_retry_countdown r) (f_grant_ack r)
    (f_coldconnect_frames r) (f_backoff r).
Definition set_f_emit_heartbeat (v : bool) (r : reac_fsm) : reac_fsm :=
  Fsm (f_state r) (f_master_mac r) (f_have_master r) (f_link_check r) (f_txmute_dwell r)
    (f_heartbeat_tick r) (f_heartbeat_period r) (f_counter r) (f_flood_frames r)
    (f_drop_reason r) v (f_emit_join r) (f_join_retry_countdown r) (f_grant_ack r)
    (f_coldconnect_frames r) (f_backoff r).
Definition set_f_emit_join (v : bool) (r : reac_fsm) : reac_fsm :=
  Fsm (f_state r) (f_master_mac r) (f_have_master r) (f_link_check r) (f_txmute_dwell r)
    (f_heartbeat_tick r) (f_heartbeat_period r) (f_counter r) (f_flood_frames r)
    (f_drop_reason r) (f_emit_heartbeat r) v (f_join_retry_countdown r) (f_grant_ack r)
    (f_coldconnect_frames r) (f_backoff r).
Definition set_f_join_retry_countdown (v : Z) (r : reac_fsm) : reac_fsm :=
  Fsm (f_state r) (f_master_mac r) (f_have_master r) (f_link_check r) (f_txmute_dwell r)
    (f_heartbeat_tick r) (f_heartbeat_period r) (f_counter r) (f_flood_frames r)
    (f_drop_reason r) (f_emit_heartbeat r) (f_emit_join r) v (f_grant_ack r)
    (f_coldconnect_frames r) (f_backoff r).
Definition set_f_grant_ack (v : Z) (r : reac_fsm) : reac_fsm :=
  Fsm (f_state r) (f_master_mac r) (f_have_master r) (f_link_check r) (f_txmute_dwell r)
    (f_heartbeat_tick r) (f_heartbeat_period r) (f_counter r) (f_flood_frames r)
    (f_drop_reason r) (f_emit_heartbeat r) (f_emit_join r) (f_join_retry_countdown r) v
    (f_coldconnect_frames r) (f_backoff r).
Definition set_f_coldconnect_frames (v : Z) (r : reac_fsm) : reac_fsm :=
  Fsm (f_state r) (f_master_mac r) (f_have_master r) (f_link_check r) (f_txmute_dwell r)
    (f_heartbeat_tick r) (f_heartbeat_period r) (f_counter r) (f_flood_frames r)
    (f_drop_reason r) (f_emit_heartbeat r) (f_emit_join r) (f_join_retry_countdown r)
    (f_grant_ack r) v (f_backoff r).
Definition set_f_backoff (v : Z) (r : reac_fsm) : reac_fsm :=
  Fsm (f_state r) (f_master_mac r) (f_have_master r) (f_link_check r) (f_txmute_dwell r)
    (f_heartbeat_tick r) (f_heartbeat_period r) (f_counter r) (f_flood_frames r)
    (f_drop_reason r) (f_emit_heartbeat r) (f_emit_join r) (f_join_retry_countdown r)
    (f_grant_ack r) (f_coldconnect_frames r) v.

Record reac_fsm_out := FsmOut {
  o_action : reac_fsm_action; o_state : reac_fsm_state;
  o_emit_heartbeat : bool; o_emit_join : bool
}.

Definition reac_fsm_init : reac_fsm :=
  Fsm FSM_PHY_DOWN (zeros 6) false 0 0 0 HEARTBEAT_PERIOD 0 0 FSM_DROP_NONE false false 0 0 0 0.

Definition period_of (p : Z) : Z := if 0 <? p then p else HEARTBEAT_PERIOD.
Definition hb_period (f : reac_fsm) : Z := period_of (f_heartbeat_period f).
Definition frames_per_s (f : reac_fsm) : Z := hb_period f.

Definition is_master_frame (rx : reac_ctrl_parsed) : bool :=
  match p_kind rx with
  | REAC_CTRL_MASTER_HB | REAC_CTRL_MASTER_ANNOUNCE | REAC_CTRL_SCENE_TRANSFER
  | REAC_CTRL_GRANT | REAC_CTRL_HEADAMP => true
  | _ => false
  end.

Definition learn_master (f : reac_fsm) (rx : reac_ctrl_parsed) : reac_fsm :=
  set_f_have_master true (set_f_master_mac (p_src rx) f).

(** [out]: report the action and clear the two one-shot emit flags. *)
Definition out (f : reac_fsm) (a : reac_fsm_action) : reac_fsm * reac_fsm_out :=
  (set_f_emit_join false (set_f_emit_heartbeat false f),
   FsmOut a (f_state f) (f_emit_heartbeat f) (f_emit_join f)).

Definition arm_flood (f : reac_fsm) : reac_fsm :=
  set_f_grant_ack 0 (set_f_flood_frames 0 (set_f_state FSM_FLOOD_ANNOUNCE f)).

Definition arm_coldconnect (f : reac_fsm) : reac_fsm :=
  set_f_coldconnect_frames 0 (set_f_join_retry_countdown 0 f).

Definition bump_counter (f : reac_fsm) : reac_fsm :=
  set_f_counter (u16 (f_counter f + 1)) f.

Definition flood_tick (f : reac_fsm) : reac_fsm * reac_fsm_out :=
  let f := bump_counter f in
  let f := if f_flood_frames f <? REAC_FSM_FLOOD_BURST
           then set_f_flood_frames (f_flood_frames f + 1) f else f in
  out f FSM_ACT_FLOOD_BCAST.

Definition coldconnect_tick (f : reac_fsm) : reac_fsm * reac_fsm_out :=
  let f := bump_counter f in
  let f := set_f_coldconnect_frames (f_coldconnect_frames f + 1) f in
  let f := set_f_join_retry_countdown (f_join_retry_countdown f - 1) f in
  let f := if f_join_retry_countdown f <=? 0
           then set_f_join_retry_countdown REAC_FSM_JOIN_RETRY_PERIOD (set_f_emit_join true f)
           else f in
  out f FSM_ACT_UNICAST_COLDCONNECT.

(** The keep-alive cadence of an established period. *)
Definition heartbeat_advance (f : reac_fsm) : reac_fsm :=
  let f := set_f_heartbeat_tick (f_heartbeat_tick f + 1) f in
  if hb_period f <=? f_heartbeat_tick f
  then set_f_emit_heartbeat true (set_f_heartbeat_tick 0 f) else f.

(** The received frame of an RX event that carries one. *)
Definition rx_of (ev : reac_fsm_event) (rx : option reac_ctrl_parsed)
    : option reac_ctrl_parsed :=
  match ev with FSM_EV_RX => rx | _ => None end.

Definition learn_if_master (f : reac_fsm) (rx : option reac_ctrl_parsed) : reac_fsm :=
  match rx with
  | Some r => if is_master_frame r then learn_master f r else f
  | None => f
  end.

Definition is_grant (rx : option reac_ctrl_parsed) : bool :=
  match rx with
  | Some r => bool_decide (p_kind r = REAC_CTRL_GRANT)
  | None => false
  end.

Definition step_flood (f : reac_fsm) (rx : option reac_ctrl_parsed)
    : reac_fsm * reac_fsm_out :=
  let f := learn_if_master f rx in
  if is_grant rx then coldconnect_tick (arm_coldconnect (set_f_state FSM_COLDCONNECT f))
  else
    let '(f, o) := flood_tick f in
    if (REAC_FSM_FLOOD_BURST <=? f_flood_frames f) && f_have_master f
    then (arm_coldconnect (set_f_state FSM_COLDCONNECT f), o)
    else (f, o).

Definition step_coldconnect (f : reac_fsm) (rx : option reac_ctrl_parsed)
    : reac_fsm * reac_fsm_out :=
  let f := learn_if_master f rx in
  let f := if is_grant rx && (f_grant_ack f =? 0)
           then set_f_grant_ack REAC_FSM_GRANT_ACK_FRAMES f else f in
  if negb (f_have_master f) then flood_tick (arm_flood f)
  else
    let f' := if 0 <? f_grant_ack f then set_f_grant_ack (f_grant_ack f - 1) f else f in
    if (0 <? f_grant_ack f) && (f_grant_ack f' =? 0) then
      out (set_f_link_check REAC_FSM_LINKCHECK_RELOAD
             (set_f_txmute_dwell REAC_FSM_TXMUTE_DWELL (set_f_state FSM_TX_MUTE f')))
          FSM_ACT_SILENCE
    else if (f_grant_ack f' =? 0) &&
            (REAC_FSM_COLDCONNECT_BUDGET_S * frames_per_s f' <=? f_coldconnect_frames f') then
      out (set_f_backoff (REAC_FSM_BACKOFF_S * frames_per_s f') (set_f_state FSM_BACKOFF f'))
          FSM_ACT_STOP
    else coldconnect_tick f'.

Definition step_backoff (f : reac_fsm) : reac_fsm * reac_fsm_out :=
  let f := set_f_backoff (f_backoff f - 1) f in
  if f_backoff f <=? 0 then flood_tick (arm_flood f) else out f FSM_ACT_STOP.

Definition step_tx_mute (f : reac_fsm) (ev : reac_fsm_event) : reac_fsm * reac_fsm_out :=
  match ev with
  | FSM_EV_TICK | FSM_EV_RX =>
      let f := bump_counter f in
      let f := set_f_txmute_dwell (f_txmute_dwell f - 1) f in
      if f_txmute_dwell f <=? 0 then
        out (set_f_heartbeat_tick 0
               (set_f_link_check REAC_FSM_LINKCHECK_RELOAD (set_f_state FSM_ESTABLISHED f)))
            FSM_ACT_UNICAST_AUDIO
      else out f FSM_ACT_SILENCE
  | _ => out f FSM_ACT_SILENCE
  end.

Definition step_established (f : reac_fsm) (rx : option reac_ctrl_parsed)
    : reac_fsm * reac_fsm_out :=
  match rx with
  | Some r =>
      if f_have_master f && negb (zeqb (p_src r) (f_master_mac f)) && is_master_frame r then
        out (set_f_drop_reason FSM_DROP_MAC_CHANGE (set_f_state FSM_DROP f)) FSM_ACT_STOP
      else
        let f := match p_kind r with
                 | REAC_CTRL_MASTER_HB | REAC_CTRL_MASTER_ANNOUNCE =>
                     set_f_link_check REAC_FSM_LINKCHECK_RELOAD f
                 | _ => f
                 end in
        out (heartbeat_advance f) FSM_ACT_UNICAST_AUDIO
  | None =>
      let f := bump_counter f in
      let f := set_f_link_check (f_link_check f - 1) f in
      if f_link_check f <=? 0 then
        out (set_f_drop_reason FSM_DROP_PEER_GONE (set_f_state FSM_DROP f)) FSM_ACT_STOP
      else out (heartbeat_advance f) FSM_ACT_UNICAST_AUDIO
  end.

Definition step_drop (f : reac_fsm) : reac_fsm * reac_fsm_out :=
  flood_tick (arm_flood (set_f_have_master false f)).

(** [reac_fsm_step]. *)
Definition reac_fsm_step (f : reac_fsm) (ev : reac_fsm_event) (rx : option reac_ctrl_parsed)
    : reac_fsm * reac_fsm_out :=
  match ev with
  | FSM_EV_PHY_DOWN => out (set_f_have_master false (set_f_state FSM_PHY_DOWN f)) FSM_ACT_STOP
  | _ =>
      match f_state f with
      | FSM_PHY_DOWN =>
          match ev with
          | FSM_EV_PHY_UP => flood_tick (set_f_counter 0 (arm_flood f))
          | _ => out f FSM_ACT_STOP
          end
      | FSM_FLOOD_ANNOUNCE => step_flood f (rx_of ev rx)
      | FSM_COLDCONNECT => step_coldconnect f (rx_of ev rx)
      | FSM_BACKOFF => step_backoff f
      | FSM_TX_MUTE => step_tx_mute f ev
      | FSM_ESTABLISHED => step_established f (rx_of ev rx)
      | FSM_DROP => step_drop f
      end
  end.

(** ** Runs *)

Definition fsm_input : Type := reac_fsm_event * option reac_ctrl_parsed.

(** The state after a sequence of events, and the outputs in order. *)
Fixpoint fsm_run (f : reac_fsm) (evs : list fsm_input) : reac_fsm * list reac_fsm_out :=
  match evs with
  | [] => (f, [])
  | (ev, rx) :: evs =>
      let '(f1, o) := reac_fsm_step f ev rx in
      let '(f2, os) := fsm_run f1 evs in
      (f2, o :: os)
  end.

(** * Invariant

    What every state of a run satisfies: the one-shot flags are consumed by the
    step that raised them, the flood is bounded, a link is only courted or held
    with a master learned, and every countdown stays inside its budget. *)

Definition fsm_inv (f : reac_fsm) : Prop :=
  0 ≤ f_counter f < 2 ^ 16 ∧ f_emit_heartbeat f = false ∧ f_emit_join f = false ∧
  0 ≤ f_flood_frames f ≤ REAC_FSM_FLOOD_BURST ∧
  match f_state f with
  | FSM_FLOOD_ANNOUNCE => f_grant_ack f = 0
  | FSM_COLDCONNECT =>
      f_have_master f = true ∧
      0 ≤ f_grant_ack f < REAC_FSM_GRANT_ACK_FRAMES ∧
      0 ≤ f_join_retry_countdown f ≤ REAC_FSM_JOIN_RETRY_PERIOD ∧
      0 ≤ f_coldconnect_frames f ∧
      f_coldconnect_frames f + f_grant_ack f ≤
        REAC_FSM_COLDCONNECT_BUDGET_S * hb_period f
        + (if f_grant_ack f =? 0 then 0 else REAC_FSM_GRANT_ACK_FRAMES)
  | FSM_TX_MUTE => f_have_master f = true ∧ 1 ≤ f_txmute_dwell f ≤ REAC_FSM_TXMUTE_DWELL
  | FSM_ESTABLISHED =>
      f_have_master f = true ∧ 1 ≤ f_link_check f ≤ REAC_FSM_LINKCHECK_RELOAD ∧
      0 ≤ f_heartbeat_tick f < hb_period f
  | FSM_BACKOFF => 1 ≤ f_backoff f ≤ REAC_FSM_BACKOFF_S * hb_period f
  | _ => True
  end.

Lemma period_of_pos p : 0 < period_of p.
Proof. unfold period_of, HEARTBEAT_PERIOD; split_ifs; lia. Qed.

(** Evaluate a step on an explicit record, keeping the arithmetic. *)
Ltac fsm_cbn :=
  unfold frames_per_s, hb_period in *;
  cbn -[Z.add Z.sub Z.mul Z.pow Z.modulo Z.ltb Z.leb Z.eqb zeqb period_of is_grant
        is_master_frame u16 learn_if_master] in *;
  unfold REAC_FSM_FLOOD_BURST, REAC_FSM_GRANT_ACK_FRAMES, REAC_FSM_JOIN_RETRY_PERIOD,
    REAC_FSM_COLDCONNECT_BUDGET_S, REAC_FSM_TXMUTE_DWELL, REAC_FSM_LINKCHECK_RELOAD,
    REAC_FSM_BACKOFF_S, HEARTBEAT_PERIOD, u16 in *.

(** Decide the next test of the step, keep the fact, and evaluate on. *)
Ltac fsm_if :=
  match goal with
  | |- context [if ?b then _ else _] =>
      lazymatch b with context [if _ then _ else _] => fail | _ => idtac end;
      destruct b eqn:?; fsm_cbn
  end.
Ltac fsm_solve :=
  fsm_cbn; destruct_and?; repeat fsm_if;
  repeat match goal with H : _ && _ = true |- _ => apply andb_true_iff in H as [??] end;
  split_and?; intros; try done; try lia.

(** Learning changes the master and nothing else, and a grant teaches one. *)
Lemma learn_if_master_eq f rx :
  ∃ m h, learn_if_master f rx = set_f_have_master h (set_f_master_mac m f) ∧
    (f_have_master f = true → h = true) ∧ (is_grant rx = true → h = true).
Proof.
  destruct rx as [r|]; simpl.
  - destruct (is_master_frame r) eqn:E.
    + by exists (p_src r), true.
    + exists (f_master_mac f), (f_have_master f). split_and!; [by destruct f|done|].
      intros Hg%bool_decide_eq_true. unfold is_master_frame in E. by rewrite Hg in E.
  - exists (f_master_mac f), (f_have_master f). by destruct f.
Qed.

Lemma flood_armed_inv f : fsm_inv (flood_tick (arm_flood f)).1.
Proof. destruct f. unfold fsm_inv, flood_tick. fsm_solve. Qed.

Lemma step_flood_inv f rx :
  fsm_inv f → f_state f = FSM_FLOOD_ANNOUNCE → fsm_inv (step_flood f rx).1.
Proof.
  intros Hi Hs. unfold step_flood.
  destruct (learn_if_master_eq f rx) as (m & h & -> & _ & Hg).
  destruct f; simpl in Hs; subst. unfold fsm_inv, flood_tick, coldconnect_tick in *.
  pose proof (period_of_pos f_heartbeat_period0). fsm_cbn.
  destruct (is_grant rx); [rewrite (Hg eq_refl) in *|]; fsm_solve.
Qed.

Lemma step_coldconnect_inv f rx :
  fsm_inv f → f_state f = FSM_COLDCONNECT → fsm_inv (step_coldconnect f rx).1.
Proof.
  intros Hi Hs. unfold step_coldconnect.
  destruct (learn_if_master_eq f rx) as (m & h & -> & Hh & _).
  destruct f; simpl in Hs; subst. unfold fsm_inv, coldconnect_tick in *.
  pose proof (period_of_pos f_heartbeat_period0). fsm_cbn.
  destruct Hi as (?&?&?&?&Hm&?&?&?&?). rewrite (Hh Hm) in *. clear Hh Hm.
  destruct (is_grant rx), (f_grant_ack0 =? 0) eqn:?; fsm_solve.
Qed.

Lemma step_established_inv f rx :
  fsm_inv f → f_state f = FSM_ESTABLISHED → fsm_inv (step_established f rx).1.
Proof.
  intros Hi Hs. destruct f; simpl in Hs; subst.
  pose proof (period_of_pos f_heartbeat_period0).
  unfold fsm_inv, step_established, heartbeat_advance in *. fsm_cbn.
  destruct rx as [r|]; [destruct (_ && is_master_frame r); [|destruct (p_kind r)]|];
    fsm_solve.
Qed.

Lemma reac_fsm_step_inv f ev rx : fsm_inv f → fsm_inv (reac_fsm_step f ev rx).1.
Proof.
  intros Hi. pose proof (period_of_pos (f_heartbeat_period f)).
  destruct (decide (ev = FSM_EV_PHY_DOWN)) as [->|Hev].
  { destruct f; unfold fsm_inv in *; fsm_solve. }
  unfold reac_fsm_step. destruct (f_state f) eqn:Hs.
  - destruct ev; try done; destruct f; unfold fsm_inv, flood_tick in *; simpl in Hs; subst; fsm_solve.
  - destruct ev; try done; by apply step_flood_inv.
  - destruct ev; try done; by apply step_coldconnect_inv.
  - destruct ev; try done; destruct f; unfold fsm_inv, step_tx_mute in *; simpl in Hs; subst; fsm_solve.
  - destruct ev; try done; by apply step_established_inv.
  - destruct ev; try done; apply flood_armed_inv.
  - assert (fsm_inv (step_backoff f).1); [|by destruct ev].
    unfold step_backoff. destruct f; simpl in Hs; subst. fsm_cbn.
    fsm_if; [apply flood_armed_inv|]. unfold fsm_inv in *. fsm_solve.
Qed.

(** ** Runs from power-up *)

Definition fsm_start (period : Z) : reac_fsm := set_f_heartbeat_period period reac_fsm_init.

Lemma fsm_run_app f e1 e2 :
  fsm_run f (e1 ++ e2) =
    ((fsm_run (fsm_run f e1).1 e2).1, (fsm_run f e1).2 ++ (fsm_run (fsm_run f e1).1 e2).2).
Proof.
  revert f; induction e1 as [|[ev rx] e1 IH]; intros f; simpl.
  - by destruct (fsm_run f e2).
  - destruct (reac_fsm_step f ev rx) as [f1 o]. rewrite IH.
    destruct (fsm_run f1 e1) as [f2 os]; simpl. done.
Qed.

Lemma fsm_run_snoc f evs ev rx :
  (fsm_run f (evs ++ [(ev, rx)])).1 = (reac_fsm_step (fsm_run f evs).1 ev rx).1.
Proof.
  rewrite fsm_run_app; simpl. by destruct (reac_fsm_step (fsm_run f evs).1 ev rx).
Qed.

(** The same event over and over, for as many frame periods as a count says. *)
Definition fill_events (n : Z) (e : fsm_input) : list fsm_input := replicate (Z.to_nat n) e.

Lemma zlen_fill_events n e : 0 ≤ n → zlen (fill_events n e) = n.
Proof. intros. unfold zlen, fill_events. rewrite length_replicate. lia. Qed.

Lemma Forall_fill_events (P : fsm_input → Prop) n e : P e → Forall P (fill_events n e).
Proof. intros. by apply Forall_replicate. Qed.

(** Rule induction over a run, latest event last. *)
Lemma fsm_run_ind (f : reac_fsm) (P : list fsm_input → reac_fsm → Prop) :
  P [] f →
  (∀ evs ev rx, P evs (fsm_run f evs).1 →
     P (evs ++ [(ev, rx)]) (reac_fsm_step (fsm_run f evs).1 ev rx).1) →
  ∀ evs, P evs (fsm_run f evs).1.
Proof.
  intros H0 HS evs. induction evs as [|[ev rx] evs IH] using rev_ind; [done|].
  rewrite fsm_run_snoc. by apply HS.
Qed.

Lemma fsm_start_inv p : fsm_inv (fsm_start p).
Proof. unfold fsm_inv. fsm_solve. Qed.

Lemma fsm_run_inv f evs : fsm_inv f → fsm_inv (fsm_run f evs).1.
Proof.
  intros. pattern (fsm_run f evs).1.
  apply (fsm_run_ind f (λ _, fsm_inv)); [done|]. intros. by apply reac_fsm_step_inv.
Qed.

(** Every state a slave reaches from power-up, at any wire rate and on any
    sequence of PHY, receive and tick events, satisfies [fsm_inv]: one-shot
    flags consumed, the flood bounded by its burst, a master known in every
    state that addresses one, and the ungranted courtship, the mute dwell, the
    peer countdown, the keep-alive phase and the back-off inside their budgets. *)
Theorem fsm_reachable_inv (period : Z) (evs : list fsm_input) :
  fsm_inv (fsm_run (fsm_start period) evs).1.
Proof. apply fsm_run_inv, fsm_start_inv. Qed.

(** ** A link is only settled after a grant *)

Definition is_grant_event (e : fsm_input) : bool := is_grant (rx_of e.1 e.2).

(** The history holds a grant with at least [n] events after it. *)
Definition granted_since (h : list fsm_input) (n : Z) : Prop :=
  ∃ a e b, h = a ++ e :: b ∧ is_grant_event e = true ∧ n ≤ zlen b.

Lemma granted_since_snoc h e n m :
  granted_since h n → m ≤ n + 1 → granted_since (h ++ [e]) m.
Proof.
  intros (a & g & b & -> & Hg & Hn) Hm. exists a, g, (b ++ [e]).
  rewrite <- app_assoc. split_and!; [done|done|]. zl.
Qed.

Lemma granted_since_now h e : is_grant_event e = true → granted_since (h ++ [e]) 0.
Proof. intros. exists h, e, []. by split_and!. Qed.

Definition fsm_ghost (h : list fsm_input) (f : reac_fsm) : Prop :=
  match f_state f with
  | FSM_COLDCONNECT =>
      0 < f_grant_ack f → granted_since h (REAC_FSM_GRANT_ACK_FRAMES - 1 - f_grant_ack f)
  | FSM_TX_MUTE =>
      granted_since h (REAC_FSM_GRANT_ACK_FRAMES - 1 + REAC_FSM_TXMUTE_DWELL - f_txmute_dwell f)
  | FSM_ESTABLISHED => granted_since h (REAC_FSM_GRANT_ACK_FRAMES - 1 + REAC_FSM_TXMUTE_DWELL)
  | _ => True
  end.

Lemma step_coldconnect_ghost h f ev rx :
  fsm_inv f → f_state f = FSM_COLDCONNECT → fsm_ghost h f →
  fsm_ghost (h ++ [(ev, rx)]) (step_coldconnect f (rx_of ev rx)).1.
Proof.
  intros Hi Hs Hgh.
  pose proof (granted_since_now h (ev, rx)) as Hnow. unfold is_grant_event in Hnow. simpl in Hnow.
  pose proof (granted_since_snoc h (ev, rx)) as Hsn.
  unfold step_coldconnect.
  destruct (learn_if_master_eq f (rx_of ev rx)) as (m & k & -> & Hh & _).
  destruct f; simpl in Hs; subst. unfold fsm_inv, fsm_ghost, coldconnect_tick in *.
  fsm_cbn. destruct Hi as (_&_&_&_&Hm&?&_&_&_). rewrite (Hh Hm) in *. clear Hh Hm.
  destruct (is_grant (rx_of ev rx)), (f_grant_ack0 =? 0) eqn:?; fsm_cbn;
    repeat fsm_if; try done; intros;
    try (eapply Hsn; [apply Hgh; lia|lia]); try lia;
    (replace (7200 - 1 - (7200 - 1)) with 0 by lia; auto).
Qed.

Lemma step_established_state f rx :
  f_state f = FSM_ESTABLISHED →
  f_state (step_established f rx).1 = FSM_ESTABLISHED ∨ f_state (step_established f rx).1 = FSM_DROP.
Proof.
  destruct f; simpl; intros ->; unfold step_established, heartbeat_advance; fsm_cbn.
  destruct rx as [r|]; [destruct (_ && is_master_frame r); [|destruct (p_kind r)]|];
    fsm_cbn; repeat fsm_if; auto.
Qed.

Lemma reac_fsm_step_ghost h f ev rx :
  fsm_inv f → fsm_ghost h f → fsm_ghost (h ++ [(ev, rx)]) (reac_fsm_step f ev rx).1.
Proof.
  intros Hi Hgh. pose proof (granted_since_snoc h (ev, rx)) as Hsn.
  destruct (decide (ev = FSM_EV_PHY_DOWN)) as [->|Hev]; [done|].
  unfold reac_fsm_step. destruct (f_state f) eqn:Hs.
  - destruct ev; try done; unfold fsm_ghost, flood_tick; destruct f; simpl in Hs; subst; fsm_solve.
  - assert (Hf : fsm_ghost (h ++ [(ev, rx)]) (step_flood f (rx_of ev rx)).1); [|by destruct ev].
    unfold step_flood.
    destruct (learn_if_master_eq f (rx_of ev rx)) as (m & k & -> & _).
    destruct f; simpl in Hs; subst; unfold fsm_ghost, fsm_inv, flood_tick, coldconnect_tick in *.
    fsm_solve.
  - destruct ev; try done; by apply step_coldconnect_ghost.
  - destruct ev; try done; destruct f; simpl in Hs; subst;
      unfold fsm_inv, fsm_ghost, step_tx_mute in *; fsm_cbn; repeat fsm_if;
      (eapply Hsn; [done|lia]).
  - assert (fsm_ghost (h ++ [(ev, rx)]) (step_established f (rx_of ev rx)).1); [|by destruct ev].
    unfold fsm_ghost in *. rewrite Hs in Hgh.
    destruct (step_established_state f (rx_of ev rx) Hs) as [->| ->]; [|done].
    eapply Hsn; [done|lia].
  - destruct ev; try done; destruct f; unfold fsm_ghost; fsm_solve.
  - assert (fsm_ghost (h ++ [(ev, rx)]) (step_backoff f).1); [|by destruct ev].
    destruct f; simpl in Hs; subst; unfold fsm_ghost, step_backoff, flood_tick; fsm_solve.
Qed.

(** C6. No slave ever mutes or streams audio upstream without a grant: a run from
    power-up that ends settled (TX_MUTE or ESTABLISHED) contains a received
    GRANT, followed by at least the whole acknowledgement window before the
    mute, and by the window and the mute dwell before ESTABLISHED. *)
Theorem settled_only_after_grant (period : Z) (evs : list fsm_input) :
  let f := (fsm_run (fsm_start period) evs).1 in
  (f_state f = FSM_TX_MUTE → granted_since evs (REAC_FSM_GRANT_ACK_FRAMES - 1)) ∧
  (f_state f = FSM_ESTABLISHED →
   granted_since evs (REAC_FSM_GRANT_ACK_FRAMES - 1 + REAC_FSM_TXMUTE_DWELL)).
Proof.
  assert (Hg : fsm_ghost evs (fsm_run (fsm_start period) evs).1).
  { apply (fsm_run_ind (fsm_start period) fsm_ghost); [done|].
    intros. apply reac_fsm_step_ghost; [apply fsm_run_inv, fsm_start_inv|done]. }
  pose proof (fsm_run_inv _ evs (fsm_start_inv period)) as Hi.
  unfold fsm_ghost, fsm_inv in *. cbv zeta.
  destruct (f_state (fsm_run (fsm_start period) evs).1); split; intros; try done.
  destruct Hg as (a&e&b&?&?&?). exists a, e, b. split_and!; [done|done|].
  unfold REAC_FSM_TXMUTE_DWELL in *. lia.
Qed.

(** ** An ungranted courtship is bounded

    A courting slave that hears no grant spends exactly what is left of its
    budget, goes silent for the whole back-off, and floods again. *)

Definition no_phy_down (e : fsm_input) : Prop := e.1 ≠ FSM_EV_PHY_DOWN.
Definition no_grant (e : fsm_input) : Prop := no_phy_down e ∧ is_grant_event e = false.

Definition actions (os : list reac_fsm_out) : list reac_fsm_action := o_action <$> os.

Lemma actions_cons o os : actions (o :: os) = o_action o :: actions os.
Proof. done. Qed.

(** The slave is courting, ungranted, with [c] frames of its budget spent. *)
Definition courting (f : reac_fsm) (c : Z) : Prop :=
  f_state f = FSM_COLDCONNECT ∧ f_have_master f = true ∧ f_grant_ack f = 0 ∧
  f_coldconnect_frames f = c.

Lemma step_courting f c ev rx :
  courting f c → no_grant (ev, rx) →
  let '(f', o) := reac_fsm_step f ev rx in
  hb_period f' = hb_period f ∧
  (c < REAC_FSM_COLDCONNECT_BUDGET_S * hb_period f →
     courting f' (c + 1) ∧ o_action o = FSM_ACT_UNICAST_COLDCONNECT) ∧
  (c = REAC_FSM_COLDCONNECT_BUDGET_S * hb_period f →
     f_state f' = FSM_BACKOFF ∧ f_backoff f' = REAC_FSM_BACKOFF_S * hb_period f ∧
     o_action o = FSM_ACT_STOP).
Proof.
  intros (Hs & Hm & Hg & Hc) [Hd Hgr]. unfold no_phy_down, is_grant_event in *. simpl in *.
  replace (reac_fsm_step f ev rx) with (step_coldconnect f (rx_of ev rx))
    by (unfold reac_fsm_step; rewrite Hs; by destruct ev).
  unfold step_coldconnect. rewrite Hgr.
  destruct (learn_if_master_eq f (rx_of ev rx)) as (m & k & -> & Hk & _).
  rewrite (Hk Hm). destruct f; simpl in *; subst. unfold courting, coldconnect_tick.
  fsm_solve.
Qed.

Lemma run_courting f c evs :
  courting f c → c ≤ REAC_FSM_COLDCONNECT_BUDGET_S * hb_period f → Forall no_grant evs →
  zlen evs = REAC_FSM_COLDCONNECT_BUDGET_S * hb_period f - c + 1 →
  let '(f', os) := fsm_run f evs in
  f_state f' = FSM_BACKOFF ∧ hb_period f' = hb_period f ∧
  f_backoff f' = REAC_FSM_BACKOFF_S * hb_period f ∧
  actions os = replicate (length evs - 1) FSM_ACT_UNICAST_COLDCONNECT ++ [FSM_ACT_STOP].
Proof.
  revert f c; induction evs as [|[ev rx] evs IH]; intros f c Hcc Hle Hq Hl; [zl|].
  inversion_clear Hq as [|? ? Hq1 Hqs]. simpl.
  pose proof (step_courting f c ev rx Hcc Hq1) as Hst.
  destruct (reac_fsm_step f ev rx) as [f1 o]. destruct Hst as (Hp & Hgo & Hstop).
  destruct evs as [|e2 evs].
  - destruct Hstop as (?&?&?); [zl|]. simpl. by rewrite H1.
  - destruct Hgo as [Hc1 Ho]; [zl|].
    specialize (IH f1 (c + 1) Hc1). rewrite Hp in IH.
    pose proof (zlen_nonneg evs).
    destruct (fsm_run f1 (e2 :: evs)) as [f2 os].
    destruct IH as (?&?&?&Ha); [zl|done|zl|]. simpl in *.
    rewrite Ha, Ho. split_and!; auto. by rewrite Nat.sub_0_r.
Qed.

Lemma step_backoff_run f evs :
  f_state f = FSM_BACKOFF → 1 ≤ f_backoff f → Forall no_phy_down evs →
  zlen evs = f_backoff f →
  let '(f', os) := fsm_run f evs in
  f_state f' = FSM_FLOOD_ANNOUNCE ∧ f_counter f' = u16 (f_counter f + 1) ∧
  actions os = replicate (length evs - 1) FSM_ACT_STOP ++ [FSM_ACT_FLOOD_BCAST].
Proof.
  revert f; induction evs as [|[ev rx] evs IH]; intros f Hs Hb Hq Hl; [zl|].
  inversion_clear Hq as [|? ? Hq1 Hqs]. unfold no_phy_down in Hq1; simpl in Hq1. simpl.
  replace (reac_fsm_step f ev rx) with (step_backoff f)
    by (unfold reac_fsm_step; rewrite Hs; by destruct ev).
  unfold step_backoff. destruct f; simpl in Hs, Hb, Hl; subst f_state0.
  autorewrite with zlen in Hl. pose proof (zlen_nonneg evs).
  destruct evs as [|e2 evs].
  { autorewrite with zlen in Hl. unfold flood_tick.
    fsm_if; [by fsm_if|exfalso; lia]. }
  pose proof (zlen_nonneg evs). cbn [f_backoff set_f_backoff].
  destruct (_ <=? 0) eqn:?; autorewrite with zlen in *; [lia|].
  cbn [out].
  match goal with |- context [fsm_run ?g _] => specialize (IH g) end.
  destruct (fsm_run _ (e2 :: evs)) as [f2 os].
  destruct IH as (?&?&Ha); [done|simpl; lia|done|simpl; lia|].
  rewrite actions_cons, Ha. split_and!; auto. simpl. by rewrite Nat.sub_0_r.
Qed.

(** A courtship that is never granted ends: from any reachable courting
    state the slave unicasts for exactly the rest of its four-second budget,
    stops, stays off the wire for exactly ten seconds of frame periods with its
    counter frozen, and then re-announces, whatever else it receives. *)
Theorem ungranted_courtship_backs_off (f : reac_fsm) (court silent : list fsm_input) :
  fsm_inv f → f_state f = FSM_COLDCONNECT → f_grant_ack f = 0 →
  Forall no_grant court → Forall no_phy_down silent →
  zlen court = REAC_FSM_COLDCONNECT_BUDGET_S * hb_period f - f_coldconnect_frames f + 1 →
  zlen silent = REAC_FSM_BACKOFF_S * hb_period f →
  let '(f1, os1) := fsm_run f court in
  let '(f2, os2) := fsm_run f1 silent in
  f_state f1 = FSM_BACKOFF ∧
  actions os1 = replicate (length court - 1) FSM_ACT_UNICAST_COLDCONNECT ++ [FSM_ACT_STOP] ∧
  f_state f2 = FSM_FLOOD_ANNOUNCE ∧ f_counter f2 = u16 (f_counter f1 + 1) ∧
  actions os2 = replicate (length silent - 1) FSM_ACT_STOP ++ [FSM_ACT_FLOOD_BCAST].
Proof.
  intros (_&_&_&_&Hi) Hs Hg Hc Hsil Hl1 Hl2. rewrite Hs, Hg in Hi. simpl in Hi.
  pose proof (run_courting f (f_coldconnect_frames f) court) as H1.
  destruct (fsm_run f court) as [f1 os1].
  destruct H1 as (?&Hp&Hb&?); [repeat split; tauto|lia|done|done|].
  pose proof (period_of_pos (f_heartbeat_period f)).
  pose proof (step_backoff_run f1 silent) as H2.
  destruct (fsm_run f1 silent) as [f2 os2].
  destruct H2 as (?&?&?); [done| |done| |auto 10];
    rewrite ?Hb; unfold REAC_FSM_BACKOFF_S, hb_period in *; lia.
Qed.

Lemma ungranted_courtship_backs_off_witness :
  let f := Fsm FSM_COLDCONNECT (zeros 6) true 0 0 0 1 7 REAC_FSM_FLOOD_BURST
             FSM_DROP_NONE false false 3 0 2 0 in
  let court := replicate 3 (FSM_EV_TICK, None) in
  let silent := replicate 10 (FSM_EV_TICK, None) in
  (fsm_inv f ∧ Forall no_grant court ∧ Forall no_phy_down silent) ∧
  f_state (fsm_run f court).1 = FSM_BACKOFF ∧
  f_state (fsm_run (fsm_run f court).1 silent).1 = FSM_FLOOD_ANNOUNCE.
Proof.
  intros f court silent.
  assert (H1 : fsm_inv f) by (unfold fsm_inv; vm_compute; split_and!; congruence).
  assert (H2 : Forall no_grant court) by (repeat constructor; discriminate).
  assert (H3 : Forall no_phy_down silent) by (repeat constructor; discriminate).
  split; [auto|].
  pose proof (ungranted_courtship_backs_off f court silent H1 eq_refl eq_refl H2 H3
                eq_refl eq_refl) as H.
  revert H. clearbody f court silent. destruct (fsm_run f court) as [f1 os1]. simpl.
  destruct (fsm_run f1 silent) as [f2 os2]. simpl. tauto.
Defined.

(** ** A granted courtship settles *)

Definition rx_or_tick (e : fsm_input) : Prop := e.1 = FSM_EV_RX ∨ e.1 = FSM_EV_TICK.

(** The slave acknowledges a grant, with [k] frames of the window to go. *)
Definition acking (f : reac_fsm) (k : Z) : Prop :=
  f_state f = FSM_COLDCONNECT ∧ f_have_master f = true ∧ f_grant_ack f = k ∧ 0 < k.
Definition muted (f : reac_fsm) (k : Z) : Prop :=
  f_state f = FSM_TX_MUTE ∧ f_have_master f = true ∧ f_txmute_dwell f = k ∧ 0 < k.

Lemma step_acking f k ev rx :
  acking f k → no_phy_down (ev, rx) →
  let f' := (reac_fsm_step f ev rx).1 in
  if k =? 1 then muted f' REAC_FSM_TXMUTE_DWELL else acking f' (k - 1).
Proof.
  intros (Hs & Hm & Hg & Hk) Hd. unfold no_phy_down in Hd. simpl in Hd.
  replace (reac_fsm_step f ev rx) with (step_coldconnect f (rx_of ev rx))
    by (unfold reac_fsm_step; rewrite Hs; by destruct ev).
  unfold step_coldconnect.
  destruct (learn_if_master_eq f (rx_of ev rx)) as (m & h & -> & Hh & _).
  rewrite (Hh Hm). destruct f; simpl in *; subst f_state0 f_grant_ack0.
  unfold acking, muted, coldconnect_tick.
  replace (k =? 0) with false by lia. rewrite andb_false_r. fsm_solve.
Qed.

Lemma run_acking evs : ∀ f k,
  acking f k → Forall no_phy_down evs → zlen evs = k →
  muted (fsm_run f evs).1 REAC_FSM_TXMUTE_DWELL.
Proof.
  induction evs as [|[ev rx] evs IH]; intros f k Ha Hq Hl.
  { destruct Ha as (?&?&?&?). zl. }
  inversion_clear Hq as [|? ? Hq1 Hqs]. pose proof (step_acking f k ev rx Ha Hq1) as Hst.
  pose proof (zlen_nonneg evs). simpl. destruct (reac_fsm_step f ev rx) as [f1 o].
  simpl in Hst. destruct (k =? 1) eqn:E.
  - destruct evs; [done|zl].
  - specialize (IH f1 (k - 1) Hst Hqs ltac:(zl)). by destruct (fsm_run f1 evs).
Qed.

Lemma step_muted f k ev rx :
  muted f k → rx_or_tick (ev, rx) →
  let f' := (reac_fsm_step f ev rx).1 in
  f_master_mac f' = f_master_mac f ∧
  if k =? 1
  then f_state f' = FSM_ESTABLISHED ∧ f_link_check f' = REAC_FSM_LINKCHECK_RELOAD ∧
       o_action (reac_fsm_step f ev rx).2 = FSM_ACT_UNICAST_AUDIO
  else muted f' (k - 1) ∧ o_action (reac_fsm_step f ev rx).2 = FSM_ACT_SILENCE.
Proof.
  intros (Hs & Hm & Hg & Hk) Hd. destruct f; simpl in *; subst f_state0 f_txmute_dwell0.
  unfold muted, reac_fsm_step, step_tx_mute.
  destruct Hd as [Hd|Hd]; simpl in Hd; subst; fsm_solve.
Qed.

Lemma run_muted evs : ∀ f k,
  muted f k → Forall rx_or_tick evs → zlen evs = k →
  let '(f', os) := fsm_run f evs in
  f_state f' = FSM_ESTABLISHED ∧ f_link_check f' = REAC_FSM_LINKCHECK_RELOAD ∧
  f_master_mac f' = f_master_mac f ∧
  actions os = replicate (length evs - 1) FSM_ACT_SILENCE ++ [FSM_ACT_UNICAST_AUDIO].
Proof.
  induction evs as [|[ev rx] evs IH]; intros f k Ha Hq Hl.
  { destruct Ha as (?&?&?&?). zl. }
  inversion_clear Hq as [|? ? Hq1 Hqs]. pose proof (step_muted f k ev rx Ha Hq1) as [Hm Hst].
  pose proof (zlen_nonneg evs). simpl. destruct (reac_fsm_step f ev rx) as [f1 o].
  simpl in Hst, Hm. destruct (k =? 1) eqn:E.
  - destruct evs; [|zl]. destruct Hst as (?&?&Ho). simpl. by rewrite Ho.
  - destruct Hst as [Hst Ho]. specialize (IH f1 (k - 1) Hst Hqs ltac:(zl)).
    destruct evs as [|e2 evs]; [zl|]. destruct (fsm_run f1 (e2 :: evs)) as [f2 os].
    destruct IH as (?&?&?&IHa). rewrite actions_cons, IHa, Ho, <- Hm.
    simpl. by rewrite Nat.sub_0_r.
Qed.

(** A granted courtship always settles: from any reachable ungranted courting
    state, a GRANT followed by the acknowledgement window and the mute dwell,
    whatever those frames are as long as the PHY stays up, leaves the slave
    ESTABLISHED to the last master it heard before the mute, silent for the
    whole dwell and streaming from its last frame on. *)
Theorem grant_settles (f : reac_fsm) (g : reac_ctrl_parsed) (ack mute : list fsm_input) :
  f_state f = FSM_COLDCONNECT → f_grant_ack f = 0 → p_kind g = REAC_CTRL_GRANT →
  Forall no_phy_down ack → zlen ack = REAC_FSM_GRANT_ACK_FRAMES - 1 →
  Forall rx_or_tick mute → zlen mute = REAC_FSM_TXMUTE_DWELL →
  let f1 := (fsm_run f ((FSM_EV_RX, Some g) :: ack)).1 in
  let '(f2, os) := fsm_run f1 mute in
  f_state f1 = FSM_TX_MUTE ∧ f_state f2 = FSM_ESTABLISHED ∧
  f_link_check f2 = REAC_FSM_LINKCHECK_RELOAD ∧ f_master_mac f2 = f_master_mac f1 ∧
  actions os = replicate (length mute - 1) FSM_ACT_SILENCE ++ [FSM_ACT_UNICAST_AUDIO].
Proof.
  intros Hs Hg Hk Hack Hla Hmute Hlm. cbv zeta.
  assert (Ha : acking (reac_fsm_step f FSM_EV_RX (Some g)).1 (REAC_FSM_GRANT_ACK_FRAMES - 1)).
  { unfold reac_fsm_step. rewrite Hs. unfold step_coldconnect, rx_of, learn_if_master.
    replace (is_master_frame g) with true by (unfold is_master_frame; by rewrite Hk).
    replace (is_grant (Some g)) with true by (simpl; by rewrite Hk).
    destruct f; simpl in *; subst. unfold acking, coldconnect_tick. fsm_solve. }
  pose proof (run_acking ack _ _ Ha Hack Hla) as Hmu.
  cbn [fsm_run]. destruct (reac_fsm_step f FSM_EV_RX (Some g)) as [f0 o0]. simpl in *.
  destruct (fsm_run f0 ack) as [f1 os1]. simpl in *.
  pose proof (run_muted mute f1 _ Hmu Hmute Hlm) as H2.
  revert H2. destruct (fsm_run f1 mute) as [f2 os2]. intros (?&?&?&?). destruct Hmu. by split_and!.
Qed.

Lemma grant_settles_witness :
  let f := Fsm FSM_COLDCONNECT (zeros 6) true 0 0 0 8000 7 REAC_FSM_FLOOD_BURST
             FSM_DROP_NONE false false 3 0 2 0 in
  let g := Parsed REAC_CTRL_GRANT (zeros 6) (zeros 6) false 0 0 0 0 0 0 0 0 0 in
  let ack := fill_events 7199 (FSM_EV_TICK, None) in
  let mute := fill_events 800 (FSM_EV_RX, None) in
  zlen ack = 7199 ∧
  f_state (fsm_run (fsm_run f ((FSM_EV_RX, Some g) :: ack)).1 mute).1 = FSM_ESTABLISHED.
Proof.
  intros f g ack mute.
  assert (Hl : zlen ack = 7199) by (apply zlen_fill_events; lia).
  assert (Hm : zlen mute = 800) by (apply zlen_fill_events; lia).
  assert (Hp : no_phy_down (FSM_EV_TICK, None)) by done.
  assert (Hr : rx_or_tick (FSM_EV_RX, None)) by (by left).
  split; [done|].
  pose proof (grant_settles f g ack mute eq_refl eq_refl eq_refl
    (Forall_fill_events _ _ _ Hp) Hl
    (Forall_fill_events _ _ _ Hr) Hm) as H.
  revert H. clearbody f g ack mute. cbv zeta.
  destruct (fsm_run (fsm_run f ((FSM_EV_RX, Some g) :: ack)).1 mute) as [f2 os2].
  cbn [fst]. tauto.
Defined.

(** ** A held link *)

Definition heartbeats (os : list reac_fsm_out) : Z := zsum (b2z ∘ o_emit_heartbeat <$> os).

Lemma heartbeats_cons o os : heartbeats (o :: os) = b2z (o_emit_heartbeat o) + heartbeats os.
Proof. done. Qed.

(** A frame of the established master, or of no master at all. *)
Definition from_peer (m : list Z) (e : fsm_input) : Prop :=
  ∃ r, e = (FSM_EV_RX, Some r) ∧ (p_src r = m ∨ is_master_frame r = false).

Lemma step_held f m ev rx :
  fsm_inv f → f_state f = FSM_ESTABLISHED → f_master_mac f = m → from_peer m (ev, rx) →
  let '(f', o) := reac_fsm_step f ev rx in
  f_state f' = FSM_ESTABLISHED ∧ f_master_mac f' = m ∧ hb_period f' = hb_period f ∧
  o_action o = FSM_ACT_UNICAST_AUDIO ∧
  f_heartbeat_tick f' + hb_period f * b2z (o_emit_heartbeat o) = f_heartbeat_tick f + 1.
Proof.
  intros (_&He&_&_&Hi) Hs Hm (r & [= -> ->] & Hr). rewrite Hs in Hi.
  unfold reac_fsm_step. rewrite Hs. cbn [rx_of]. unfold step_established.
  replace (_ && is_master_frame r) with false; cycle 1.
  { destruct Hr as [-> | ->]; [|by rewrite andb_false_r].
    by rewrite Hm, zeqb_refl, andb_false_r. }
  destruct f; simpl in *; subst. unfold heartbeat_advance, b2z.
  destruct (p_kind r); fsm_cbn; fsm_if; split_and!; try done; lia.
Qed.

Lemma run_held evs : ∀ f m,
  fsm_inv f → f_state f = FSM_ESTABLISHED → f_master_mac f = m → Forall (from_peer m) evs →
  let '(f', os) := fsm_run f evs in
  f_state f' = FSM_ESTABLISHED ∧ f_master_mac f' = m ∧ hb_period f' = hb_period f ∧
  actions os = replicate (length evs) FSM_ACT_UNICAST_AUDIO ∧
  f_heartbeat_tick f' + hb_period f * heartbeats os = f_heartbeat_tick f + zlen evs.
Proof.
  induction evs as [|[ev rx] evs IH]; intros f m Hi Hs Hm Hq.
  { cbn [fsm_run]. split_and!; try done. unfold heartbeats, zsum, zlen. simpl. lia. }
  inversion_clear Hq as [|? ? Hq1 Hqs].
  pose proof (step_held f m ev rx Hi Hs Hm Hq1) as Hst.
  pose proof (reac_fsm_step_inv f ev rx Hi) as Hi1.
  cbn [fsm_run]. destruct (reac_fsm_step f ev rx) as [f1 o].
  destruct Hst as (Hs1 & Hm1 & Hp & Ho & Ht).
  specialize (IH f1 m Hi1 Hs1 Hm1 Hqs). destruct (fsm_run f1 evs) as [f2 os].
  destruct IH as (?&?&?&Ha&Htk). rewrite actions_cons, Ha, Ho.
  rewrite heartbeats_cons, zlen_cons. split_and!; try done; [congruence|].
  rewrite Hp in Htk. lia.
Qed.

Lemma step_tick_held f :
  f_state f = FSM_ESTABLISHED →
  let '(f', o) := reac_fsm_step f FSM_EV_TICK None in
  if f_link_check f <=? 1
  then f_state f' = FSM_DROP ∧ f_drop_reason f' = FSM_DROP_PEER_GONE ∧ o_action o = FSM_ACT_STOP
  else f_state f' = FSM_ESTABLISHED ∧ f_link_check f' = f_link_check f - 1 ∧
       o_action o = FSM_ACT_UNICAST_AUDIO.
Proof.
  intros Hs. destruct f; simpl in Hs; subst.
  unfold reac_fsm_step, step_established, heartbeat_advance. fsm_solve.
Qed.

Lemma run_peer_gone f :
  f_state f = FSM_ESTABLISHED → 1 ≤ f_link_check f →
  let '(f', os) := fsm_run f (fill_events (f_link_check f) (FSM_EV_TICK, None)) in
  f_state f' = FSM_DROP ∧ f_drop_reason f' = FSM_DROP_PEER_GONE ∧
  actions os = replicate (Z.to_nat (f_link_check f) - 1) FSM_ACT_UNICAST_AUDIO ++ [FSM_ACT_STOP].
Proof.
  intros Hs Hl. remember (Z.to_nat (f_link_check f)) as n eqn:En. unfold fill_events.
  rewrite <- En. revert f Hs Hl En. induction n as [|n IH]; intros f Hs Hl En; [lia|].
  cbn [replicate fsm_run]. pose proof (step_tick_held f Hs) as Hst.
  destruct (reac_fsm_step f FSM_EV_TICK None) as [f1 o].
  destruct (f_link_check f <=? 1) eqn:E.
  - replace n with 0%nat by lia. destruct Hst as (?&?&Ho). cbn [replicate fsm_run].
    by rewrite actions_cons, Ho.
  - destruct Hst as (?&Hl1&Ho). specialize (IH f1 ltac:(done) ltac:(lia) ltac:(lia)).
    destruct (fsm_run f1 _) as [f2 os]. destruct IH as (?&?&Ha).
    rewrite actions_cons, Ha, Ho. destruct n as [|n]; [lia|]. simpl. by rewrite Nat.sub_0_r.
Qed.

(** While the established master keeps sending (and however much non-master
    traffic shares the wire) the slave holds the link, sends audio for every
    frame it receives, and its keep-alives come out exactly one per
    [hb_period] received frames. *)
Theorem held_link_cadence (f : reac_fsm) (evs : list fsm_input) :
  fsm_inv f → f_state f = FSM_ESTABLISHED → Forall (from_peer (f_master_mac f)) evs →
  let '(f', os) := fsm_run f evs in
  f_state f' = FSM_ESTABLISHED ∧ f_master_mac f' = f_master_mac f ∧
  actions os = replicate (length evs) FSM_ACT_UNICAST_AUDIO ∧
  heartbeats os = (f_heartbeat_tick f + zlen evs) / hb_period f.
Proof.
  intros Hi Hs Hq. pose proof (run_held evs f _ Hi Hs eq_refl Hq) as Hr.
  pose proof (fsm_run_inv f evs Hi) as (_&_&_&_&Hi').
  destruct (fsm_run f evs) as [f' os]. simpl in Hi'. destruct Hr as (Hs'&?&Hp&?&Ht).
  split_and!; try done. rewrite Hs', Hp in Hi'. destruct Hi' as (_&_&Hb).
  rewrite <- Ht, Z.add_comm, Z.mul_comm, Z.div_add_l, Z.div_small by lia. lia.
Qed.

Lemma held_link_cadence_witness :
  let f := Fsm FSM_ESTABLISHED (zeros 6) true 600 0 2 4 7 REAC_FSM_FLOOD_BURST
             FSM_DROP_NONE false false 3 0 2 0 in
  let r := Parsed REAC_CTRL_MASTER_HB (zeros 6) (zeros 6) false 0 0 0 0 0 0 0 0 0 in
  heartbeats (fsm_run f (fill_events 10 (FSM_EV_RX, Some r))).2 = 3.
Proof.
  intros f r.
  assert (Hi : fsm_inv f) by (unfold fsm_inv; vm_compute; split_and!; congruence).
  assert (Hr : from_peer (f_master_mac f) (FSM_EV_RX, Some r)) by (exists r; split; [done|by left]).
  pose proof (held_link_cadence f _ Hi eq_refl (Forall_fill_events _ 10 _ Hr)) as H.
  revert H. destruct (fsm_run f _) as [f1 os1] eqn:E. intros (_&_&_&H). cbn [snd]. rewrite H.
  reflexivity.
Defined.

(** The link is dropped in exactly the two cases the code names: a master
    frame from another address drops it at once, and a silent peer drops it
    after exactly [link_check] frame periods, all of them still audio; the very
    next event forgets the master and floods again. *)
Theorem link_drop_exact (f : reac_fsm) :
  fsm_inv f → f_state f = FSM_ESTABLISHED →
  (∀ r, p_src r ≠ f_master_mac f → is_master_frame r = true →
     let '(f', o) := reac_fsm_step f FSM_EV_RX (Some r) in
     f_state f' = FSM_DROP ∧ f_drop_reason f' = FSM_DROP_MAC_CHANGE ∧ o_action o = FSM_ACT_STOP) ∧
  (let '(f', os) := fsm_run f (fill_events (f_link_check f) (FSM_EV_TICK, None)) in
   f_state f' = FSM_DROP ∧ f_drop_reason f' = FSM_DROP_PEER_GONE ∧
   actions os = replicate (Z.to_nat (f_link_check f) - 1) FSM_ACT_UNICAST_AUDIO ++ [FSM_ACT_STOP]) ∧
  (∀ g ev rx, f_state g = FSM_DROP → ev ≠ FSM_EV_PHY_DOWN →
     let '(g', o) := reac_fsm_step g ev rx in
     f_state g' = FSM_FLOOD_ANNOUNCE ∧ f_have_master g' = false ∧
     f_flood_frames g' = 1 ∧ o_action o = FSM_ACT_FLOOD_BCAST).
Proof.
  intros Hi Hs. split_and!.
  - intros r Hne Hma. unfold reac_fsm_step. rewrite Hs. cbn [rx_of]. unfold step_established.
    destruct Hi as (_&_&_&_&Hi). rewrite Hs in Hi. destruct Hi as (-> & _).
    apply zeqb_neq in Hne. rewrite Hne, Hma. done.
  - apply run_peer_gone; [done|].
    destruct Hi as (_&_&_&_&Hi). rewrite Hs in Hi. tauto.
  - intros g ev rx Hg Hev. unfold reac_fsm_step. rewrite Hg. by destruct ev.
Qed.

Lemma link_drop_exact_witness :
  let f := Fsm FSM_ESTABLISHED (zeros 6) true 3 0 2 4 7 REAC_FSM_FLOOD_BURST
             FSM_DROP_NONE false false 3 0 2 0 in
  fsm_inv f ∧ f_state (fsm_run f (fill_events 3 (FSM_EV_TICK, None))).1 = FSM_DROP.
Proof.
  intros f.
  assert (Hi : fsm_inv f) by (unfold fsm_inv; vm_compute; split_and!; congruence).
  split; [done|]. destruct (link_drop_exact f Hi eq_refl) as (_&H&_).
  change (f_link_check f) with 3 in H. destruct (fsm_run f _). tauto.
Defined.
