(* ===== verification/MasterFsm.v ===== *)
(** * MasterFsm: the master's establishment decisions

    Models [src/reac_master_fsm.c] and [include/reac/reac_master_fsm.h]: the
    classification of a received frame into a decision event and the (state,
    event) table. The table is a pure lookup; what its entry actions do is in
    the module of the master itself. *)

From S2P Require Import Prelude.
Local Open Scope Z_scope.

Inductive reac_master_state :=
| REAC_M_IDLE | REAC_M_PROBING | REAC_M_GRANTING | REAC_M_ESTABLISHED.
Inductive reac_master_rx_event :=
| REAC_M_RX_BOX_BCAST_FILLER | REAC_M_RX_BOX_JOIN | REAC_M_RX_BOX_UNICAST
| REAC_M_RX_BOX_HEARTBEAT | REAC_M_RX_BOX_BYE | REAC_M_RX_BOX_CONFIG.
Inductive reac_master_drop_reason :=
| REAC_M_DROP_NONE | REAC_M_DROP_PEER_GONE | REAC_M_DROP_BYE | REAC_M_DROP_MAC_CHANGE
| REAC_M_DROP_GRANT_TIMEOUT | REAC_M_DROP_BOX_UNKNOWN.
Inductive reac_master_ev :=
| REAC_M_EV_START | REAC_M_EV_PRESENCE | REAC_M_EV_JOIN_NEW | REAC_M_EV_JOIN_SAME
| REAC_M_EV_CONFIG | REAC_M_EV_CONFIG_EARLY | REAC_M_EV_ACCEPT | REAC_M_EV_ACCEPT_EARLY
| REAC_M_EV_BYE | REAC_M_EV_GRANT_DELIVERED | REAC_M_EV_LINK_LOST | REAC_M_EV_BOX_UNKNOWN.

#[global] Instance reac_master_state_eq_dec : EqDecision reac_master_state.
Proof. solve_decision. Defined.
#[global] Instance reac_master_ev_eq_dec : EqDecision reac_master_ev.
Proof. solve_decision. Defined.
#[global] Instance reac_master_drop_reason_eq_dec : EqDecision reac_master_drop_reason.
Proof. solve_decision. Defined.

Record reac_master_edge := Edge {
  e_next : reac_master_state;
  e_enter : bool;
  e_drop : reac_master_drop_reason;
  e_transitioned : bool
}.

Definition reac_master_fsm_classify (ev : reac_master_rx_event)
    (have_blk same_box grant_delivered : bool) : reac_master_ev :=
  match ev with
  | REAC_M_RX_BOX_BCAST_FILLER => REAC_M_EV_PRESENCE
  | REAC_M_RX_BOX_JOIN =>
      if negb have_blk then REAC_M_EV_PRESENCE
      else if same_box then REAC_M_EV_JOIN_SAME else REAC_M_EV_JOIN_NEW
  | REAC_M_RX_BOX_CONFIG => if grant_delivered then REAC_M_EV_CONFIG else REAC_M_EV_CONFIG_EARLY
  | REAC_M_RX_BOX_UNICAST | REAC_M_RX_BOX_HEARTBEAT =>
      if grant_delivered then REAC_M_EV_ACCEPT else REAC_M_EV_ACCEPT_EARLY
  | REAC_M_RX_BOX_BYE => REAC_M_EV_BYE
  end.

Definition HOLD (s : reac_master_state) : reac_master_edge := Edge s false REAC_M_DROP_NONE false.
Definition GO (next : reac_master_state) (drop : reac_master_drop_reason) (ret : bool)
    : reac_master_edge := Edge next true drop ret.

Definition EDGE (state : reac_master_state) (ev : reac_master_ev) : reac_master_edge :=
  match state with
  | REAC_M_IDLE =>
      match ev with
      | REAC_M_EV_START => GO REAC_M_PROBING REAC_M_DROP_NONE false
      | REAC_M_EV_PRESENCE => HOLD REAC_M_IDLE
      | REAC_M_EV_JOIN_NEW => HOLD REAC_M_IDLE
      | REAC_M_EV_JOIN_SAME => HOLD REAC_M_IDLE
      | REAC_M_EV_CONFIG => HOLD REAC_M_IDLE
      | REAC_M_EV_CONFIG_EARLY => HOLD REAC_M_IDLE
      | REAC_M_EV_ACCEPT => HOLD REAC_M_IDLE
      | REAC_M_EV_ACCEPT_EARLY => HOLD REAC_M_IDLE
      | REAC_M_EV_BYE => HOLD REAC_M_IDLE
      | REAC_M_EV_GRANT_DELIVERED => HOLD REAC_M_IDLE
      | REAC_M_EV_LINK_LOST => HOLD REAC_M_IDLE
      | REAC_M_EV_BOX_UNKNOWN => HOLD REAC_M_IDLE
      end
  | REAC_M_PROBING =>
      match ev with
      | REAC_M_EV_START => HOLD REAC_M_PROBING
      | REAC_M_EV_PRESENCE => HOLD REAC_M_PROBING
      | REAC_M_EV_JOIN_NEW => GO REAC_M_GRANTING REAC_M_DROP_NONE true
      | REAC_M_EV_JOIN_SAME => GO REAC_M_GRANTING REAC_M_DROP_NONE true
      | REAC_M_EV_CONFIG => GO REAC_M_GRANTING REAC_M_DROP_NONE true
      | REAC_M_EV_CONFIG_EARLY => GO REAC_M_GRANTING REAC_M_DROP_NONE true
      | REAC_M_EV_ACCEPT => HOLD REAC_M_PROBING
      | REAC_M_EV_ACCEPT_EARLY => HOLD REAC_M_PROBING
      | REAC_M_EV_BYE => HOLD REAC_M_PROBING
      | REAC_M_EV_GRANT_DELIVERED => HOLD REAC_M_PROBING
      | REAC_M_EV_LINK_LOST => HOLD REAC_M_PROBING
      | REAC_M_EV_BOX_UNKNOWN => HOLD REAC_M_PROBING
      end
  | REAC_M_GRANTING =>
      match ev with
      | REAC_M_EV_START => HOLD REAC_M_GRANTING
      | REAC_M_EV_PRESENCE => HOLD REAC_M_GRANTING
      | REAC_M_EV_JOIN_NEW => GO REAC_M_GRANTING REAC_M_DROP_NONE true
      | REAC_M_EV_JOIN_SAME => HOLD REAC_M_GRANTING
      | REAC_M_EV_CONFIG => GO REAC_M_ESTABLISHED REAC_M_DROP_NONE true
      | REAC_M_EV_CONFIG_EARLY => HOLD REAC_M_GRANTING
      | REAC_M_EV_ACCEPT => GO REAC_M_ESTABLISHED REAC_M_DROP_NONE true
      | REAC_M_EV_ACCEPT_EARLY => HOLD REAC_M_GRANTING
      | REAC_M_EV_BYE => GO REAC_M_PROBING REAC_M_DROP_BYE true
      | REAC_M_EV_GRANT_DELIVERED => GO REAC_M_ESTABLISHED REAC_M_DROP_NONE true
      | REAC_M_EV_LINK_LOST => HOLD REAC_M_GRANTING
      | REAC_M_EV_BOX_UNKNOWN => GO REAC_M_PROBING REAC_M_DROP_BOX_UNKNOWN true
      end
  | REAC_M_ESTABLISHED =>
      match ev with
      | REAC_M_EV_START => HOLD REAC_M_ESTABLISHED
      | REAC_M_EV_PRESENCE => HOLD REAC_M_ESTABLISHED
      | REAC_M_EV_JOIN_NEW => GO REAC_M_GRANTING REAC_M_DROP_MAC_CHANGE true
      | REAC_M_EV_JOIN_SAME => HOLD REAC_M_ESTABLISHED
      | REAC_M_EV_CONFIG => HOLD REAC_M_ESTABLISHED
      | REAC_M_EV_CONFIG_EARLY => HOLD REAC_M_ESTABLISHED
      | REAC_M_EV_ACCEPT => HOLD REAC_M_ESTABLISHED
      | REAC_M_EV_ACCEPT_EARLY => HOLD REAC_M_ESTABLISHED
      | REAC_M_EV_BYE => GO REAC_M_PROBING REAC_M_DROP_BYE true
      | REAC_M_EV_GRANT_DELIVERED => HOLD REAC_M_ESTABLISHED
      | REAC_M_EV_LINK_LOST => GO REAC_M_PROBING REAC_M_DROP_PEER_GONE true
      | REAC_M_EV_BOX_UNKNOWN => HOLD REAC_M_ESTABLISHED
      end
  end.

(** Both enums are closed here, so the out-of-range guard of the C lookup is
    vacuous and the step is the table. *)
Definition reac_master_fsm_step (state : reac_master_state) (ev : reac_master_ev)
    : reac_master_edge := EDGE state ev.

(** The state after a sequence of decision events. *)
Definition master_run (s : reac_master_state) (evs : list reac_master_ev) : reac_master_state :=
  foldl (λ s ev, e_next (reac_master_fsm_step s ev)) s evs.

(** * The contract of docs/MASTER-FSM.md

    A box is courted by a JOIN or a declaration, linked by an accept or a
    completed grant, and lost by a farewell, a drained budget, or a courtship
    that never said what the box is. *)
Definition courts (ev : reac_master_ev) : bool :=
  match ev with
  | REAC_M_EV_JOIN_NEW | REAC_M_EV_JOIN_SAME | REAC_M_EV_CONFIG | REAC_M_EV_CONFIG_EARLY => true
  | _ => false
  end.
Definition links (ev : reac_master_ev) : bool :=
  match ev with
  | REAC_M_EV_CONFIG | REAC_M_EV_ACCEPT | REAC_M_EV_GRANT_DELIVERED => true
  | _ => false
  end.

Inductive master_moves : reac_master_state → reac_master_ev → reac_master_drop_reason →
    reac_master_state → Prop :=
| mv_start : master_moves REAC_M_IDLE REAC_M_EV_START REAC_M_DROP_NONE REAC_M_PROBING
| mv_court ev : courts ev → master_moves REAC_M_PROBING ev REAC_M_DROP_NONE REAC_M_GRANTING
| mv_relatch :
    master_moves REAC_M_GRANTING REAC_M_EV_JOIN_NEW REAC_M_DROP_NONE REAC_M_GRANTING
| mv_link ev : links ev → master_moves REAC_M_GRANTING ev REAC_M_DROP_NONE REAC_M_ESTABLISHED
| mv_bye s : s = REAC_M_GRANTING ∨ s = REAC_M_ESTABLISHED →
    master_moves s REAC_M_EV_BYE REAC_M_DROP_BYE REAC_M_PROBING
| mv_unknown :
    master_moves REAC_M_GRANTING REAC_M_EV_BOX_UNKNOWN REAC_M_DROP_BOX_UNKNOWN REAC_M_PROBING
| mv_lost :
    master_moves REAC_M_ESTABLISHED REAC_M_EV_LINK_LOST REAC_M_DROP_PEER_GONE REAC_M_PROBING
| mv_recourt :
    master_moves REAC_M_ESTABLISHED REAC_M_EV_JOIN_NEW REAC_M_DROP_MAC_CHANGE REAC_M_GRANTING.

(** The table is exactly the documented contract: an edge runs its entry
    action precisely on the listed moves, to the listed state and with the
    listed drop reason, every other pair holds the state untouched, and a move
    is reported to the caller except for the silent promotion out of IDLE. *)
Theorem master_table_contract (s : reac_master_state) (ev : reac_master_ev) :
  let e := reac_master_fsm_step s ev in
  (∀ d s', master_moves s ev d s' ↔ (e_enter e = true ∧ e_drop e = d ∧ e_next e = s')) ∧
  (e_enter e = false → e = HOLD s) ∧
  (e_transitioned e = e_enter e && negb (bool_decide (s = REAC_M_IDLE))).
Proof.
  cbv zeta. split_and!.
  - intros d s'. split.
    + destruct 1 as [|ev Hc| |ev Hl|s Hs| | |]; try done; try (by destruct ev).
      by destruct Hs as [-> | ->].
    + destruct s, ev; cbn; intros (? & <- & <-); try done;
        first [by apply mv_court | by apply mv_link | by constructor | apply mv_bye; tauto].
  - destruct s, ev; cbn; done.
  - destruct s, ev; done.
Qed.

Lemma master_run_snoc s evs ev :
  master_run s (evs ++ [ev]) = e_next (reac_master_fsm_step (master_run s evs) ev).
Proof. unfold master_run. by rewrite foldl_app. Qed.

(** What a run that has reached a state must have seen, in order. *)
Definition court_ghost (evs : list reac_master_ev) (s : reac_master_state) : Prop :=
  match s with
  | REAC_M_IDLE => True
  | REAC_M_PROBING => REAC_M_EV_START ∈ evs
  | REAC_M_GRANTING => ∃ a j b, evs = a ++ j :: b ∧ REAC_M_EV_START ∈ a ∧ courts j = true
  | REAC_M_ESTABLISHED =>
      ∃ a j b l c, evs = a ++ j :: b ++ l :: c ∧ REAC_M_EV_START ∈ a ∧
        courts j = true ∧ links l = true
  end.

Lemma court_ghost_snoc evs s ev : court_ghost evs s → court_ghost (evs ++ [ev]) s.
Proof.
  destruct s; cbn; [done|set_solver|..].
  - intros (a & j & b & -> & ? & ?). exists a, j, (b ++ [ev]).
    by rewrite <- app_assoc.
  - intros (a & j & b & l & c & -> & ? & ? & ?). exists a, j, b, l, (c ++ [ev]).
    split; [|done]. by rewrite <- app_assoc; simpl; rewrite <- app_assoc.
Qed.

Lemma court_ghost_started evs s : court_ghost evs s → s ≠ REAC_M_IDLE → REAC_M_EV_START ∈ evs.
Proof.
  destruct s; cbn; [done|done|..].
  - intros (a & j & b & -> & ? & ?). set_solver.
  - intros (a & j & b & l & c & -> & ? & ? & ?). set_solver.
Qed.

Lemma master_step_ghost evs s ev :
  court_ghost evs s → court_ghost (evs ++ [ev]) (e_next (reac_master_fsm_step s ev)).
Proof.
  intros Hg. pose proof (court_ghost_snoc evs s ev Hg) as Hs.
  assert (Hst : s ≠ REAC_M_IDLE → REAC_M_EV_START ∈ evs ++ [ev]).
  { intros. by eapply court_ghost_started. }
  assert (Hc : s ≠ REAC_M_IDLE → courts ev = true → court_ghost (evs ++ [ev]) REAC_M_GRANTING).
  { intros Hn Hc. exists evs, ev, []. split_and!; [done|by eapply court_ghost_started|done]. }
  assert (Hl : s = REAC_M_GRANTING → links ev = true →
               court_ghost (evs ++ [ev]) REAC_M_ESTABLISHED).
  { intros -> Hl. destruct Hg as (a & j & b & -> & ? & ?). exists a, j, b, ev, [].
    by rewrite <- app_assoc. }
  destruct s, ev;
    first [exact Hs | by apply Hc | by apply Hl | by apply Hst | apply elem_of_app; right; by left].
Qed.

(** A master is only ever ESTABLISHED after it was started, a box courted it
    with a JOIN or a declaration, and a later event accepted a fully delivered
    grant; presence, early accepts and farewells alone never link a box. *)
Theorem established_path (evs : list reac_master_ev) :
  master_run REAC_M_IDLE evs = REAC_M_ESTABLISHED →
  ∃ a j b l c, evs = a ++ j :: b ++ l :: c ∧ REAC_M_EV_START ∈ a ∧
    courts j = true ∧ links l = true.
Proof.
  assert (Hg : court_ghost evs (master_run REAC_M_IDLE evs)).
  { induction evs as [|ev evs IH] using rev_ind; [done|].
    rewrite master_run_snoc. by apply master_step_ghost. }
  intros H. by rewrite H in Hg.
Qed.

Lemma established_path_witness :
  let evs := [REAC_M_EV_START; REAC_M_EV_PRESENCE; REAC_M_EV_JOIN_NEW;
              REAC_M_EV_ACCEPT_EARLY; REAC_M_EV_ACCEPT] in
  master_run REAC_M_IDLE evs = REAC_M_ESTABLISHED ∧
  ∃ a j b l c, evs = a ++ j :: b ++ l :: c ∧ REAC_M_EV_START ∈ a ∧
    courts j = true ∧ links l = true.
Proof. intros evs. split; [reflexivity|]. apply established_path. reflexivity. Defined.
