(* ===== verification/Boxreg.v ===== *)
(** * Boxreg: which box owns which audio slots

    Models [src/reac_boxreg.c] and [include/reac/reac_boxreg.h]. The C table is
    an array of five entries with a count; here the list of the entries in use,
    in table order, so an index means the same. *)

From S2P Require Import Prelude Wire.
Local Open Scope Z_scope.

Definition REAC_BOXREG_MAX_BOXES : Z := 5.
Definition REAC_BOXREG_NAME_MAX : Z := 32.
Definition REAC_BOXREG_FABRIC : Z := 40.

Record reac_box := Box {
  b_mac : list Z;
  b_base : Z;
  b_nch : Z;
  b_established : bool;
  b_pinned : bool;
  b_name : list Z
}.
Record reac_boxreg := Boxreg { r_box : list reac_box; r_fabric : Z }.

Definition r_n (r : reac_boxreg) : Z := zlen (r_box r).

Definition reac_boxreg_init (fabric : Z) : reac_boxreg :=
  Boxreg [] (if (0 <? fabric) && (fabric <=? REAC_BOXREG_FABRIC) then fabric
             else REAC_BOXREG_FABRIC).

Definition mac_is_zero (mac : list Z) : bool := forallb (λ b, b =? 0) mac.

(** The index of the first entry a test accepts, or -1. *)
Definition box_index (f : reac_box → bool) (l : list reac_box) : Z :=
  from_option (λ ib, Z.of_nat ib.1) (-1) (list_find (λ b, f b = true) l).

Definition reac_boxreg_find (r : reac_boxreg) (mac : list Z) : Z :=
  if mac_is_zero mac then -1 else box_index (λ b, zeqb (b_mac b) mac) (r_box r).

(** Does [base, base+nch) meet a registered box's range? *)
Definition overlaps (base nch : Z) (b : reac_box) : bool :=
  (base <? b_base b + b_nch b) && (b_base b <? base + nch).
Definition range_taken (r : reac_boxreg) (base nch : Z) : bool :=
  existsb (overlaps base nch) (r_box r).

(** The [for] loop over the bases that fit, first hit wins. *)
Definition lowest_free_base (r : reac_boxreg) (nch : Z) : Z :=
  from_option snd (-1)
    (list_find (λ base, range_taken r base nch = false) (zseq 0 (r_fabric r - nch + 1))).

Definition width_ok (r : reac_boxreg) (nch : Z) : bool :=
  reac_box_width_ok nch && (nch <=? r_fabric r).

(** [snprintf(dst, cap, "%s", s)] keeps what fits before the terminator. *)
Definition snprintf_s (cap : Z) (s : list Z) : list Z := take (Z.to_nat (cap - 1)) s.

Definition push_box (r : reac_boxreg) (b : reac_box) : reac_boxreg :=
  Boxreg (r_box r ++ [b]) (r_fabric r).
Definition update_box (r : reac_boxreg) (i : Z) (f : reac_box → reac_box) : reac_boxreg :=
  Boxreg (alter f (Z.to_nat i) (r_box r)) (r_fabric r).
Definition set_b_mac (mac : list Z) (b : reac_box) : reac_box :=
  Box mac (b_base b) (b_nch b) (b_established b) (b_pinned b) (b_name b).
Definition set_b_name (name : list Z) (b : reac_box) : reac_box :=
  Box (b_mac b) (b_base b) (b_nch b) (b_established b) (b_pinned b) name.

Definition reac_boxreg_declare (r : reac_boxreg) (nch : Z) (name : option (list Z)) (base : Z)
    : reac_boxreg * Z :=
  if negb (width_ok r nch) || (REAC_BOXREG_MAX_BOXES <=? r_n r) then (r, -1)
  else
    let pinned := 0 <=? base in
    let refused := (r_fabric r - nch <? base) || range_taken r base nch in
    if pinned && refused then (r, -1)
    else
      let base := if pinned then base else lowest_free_base r nch in
      if base <? 0 then (r, -1)
      else (push_box r (Box (zeros 6) base nch false pinned
                            (from_option (snprintf_s REAC_BOXREG_NAME_MAX) [] name)),
            r_n r).

Definition reac_boxreg_add (r : reac_boxreg) (mac : list Z) (nch : Z) : reac_boxreg * Z :=
  if negb (width_ok r nch) then (r, -1)
  else if mac_is_zero mac then (r, -1)
  else
    let idx := reac_boxreg_find r mac in
    if 0 <=? idx then (r, idx)
    else
      let i := box_index (λ b, mac_is_zero (b_mac b) && (b_nch b =? nch)) (r_box r) in
      if 0 <=? i then (update_box r i (set_b_mac mac), i)
      else if REAC_BOXREG_MAX_BOXES <=? r_n r then (r, -1)
      else
        let base := lowest_free_base r nch in
        if base <? 0 then (r, -1)
        else (push_box r (Box mac base nch false false []), r_n r).

Definition reac_boxreg_set_name (r : reac_boxreg) (idx : Z) (name : option (list Z))
    : reac_boxreg :=
  if (idx <? 0) || (r_n r <=? idx) then r
  else update_box r idx (set_b_name (snprintf_s REAC_BOXREG_NAME_MAX (default [] name))).

(** * Invariant: disjoint ranges inside the fabric, one entry per box *)

Definition box_ok (fabric : Z) (b : reac_box) : Prop :=
  zlen (b_mac b) = 6 ∧ reac_box_width_ok (b_nch b) = true ∧
  0 ≤ b_base b ∧ b_base b + b_nch b ≤ fabric ∧ zlen (b_name b) < REAC_BOXREG_NAME_MAX.

Definition disjoint_boxes (b c : reac_box) : Prop :=
  b_base b + b_nch b ≤ b_base c ∨ b_base c + b_nch c ≤ b_base b.

Record boxreg_inv (r : reac_boxreg) : Prop := {
  inv_fabric : 0 < r_fabric r ≤ REAC_BOXREG_FABRIC;
  inv_n : r_n r ≤ REAC_BOXREG_MAX_BOXES;
  inv_box : Forall (box_ok (r_fabric r)) (r_box r);
  inv_disjoint : ∀ i j b c, i ≠ j → r_box r !! i = Some b → r_box r !! j = Some c →
    disjoint_boxes b c;
  inv_mac : ∀ i j b c, r_box r !! i = Some b → r_box r !! j = Some c →
    b_mac b = b_mac c → mac_is_zero (b_mac b) = false → i = j
}.

Lemma reac_boxreg_init_inv fabric : boxreg_inv (reac_boxreg_init fabric).
Proof.
  unfold reac_boxreg_init. split; simpl; try done.
  - unfold REAC_BOXREG_FABRIC. split_ifs; lia.
Qed.

(** ** Searching the table *)

Lemma box_index_Some f l i : 0 ≤ i → box_index f l = i →
  ∃ b, l !! Z.to_nat i = Some b ∧ f b = true.
Proof.
  unfold box_index. intros Hi H. destruct (list_find _ l) as [[k b]|] eqn:E; simpl in *; [|lia].
  apply list_find_Some in E as (Hk & Hf & _). exists b. subst. by rewrite Nat2Z.id.
Qed.

Lemma box_index_None f l : box_index f l < 0 → ∀ i b, l !! i = Some b → f b = false.
Proof.
  unfold box_index. intros H. destruct (list_find _ l) as [[k b]|] eqn:E; simpl in *; [lia|].
  apply list_find_None in E. intros i b Hb.
  pose proof (Forall_lookup_1 _ _ _ _ E Hb) as Hn. by apply not_true_is_false.
Qed.

Lemma box_index_hit f l i b : l !! i = Some b → f b = true →
  (∀ j c, l !! j = Some c → f c = true → j = i) → box_index f l = Z.of_nat i.
Proof.
  intros Hb Hf Hu. unfold box_index.
  destruct (list_find (λ b, f b = true) l) as [[k c]|] eqn:E; simpl.
  - apply list_find_Some in E as (Hk & Hfk & _). f_equal. by eapply Hu.
  - apply list_find_None in E. by destruct (Forall_lookup_1 _ _ _ _ E Hb).
Qed.

Lemma range_taken_false r base nch :
  range_taken r base nch = false ↔
  ∀ i b, r_box r !! i = Some b → base + nch ≤ b_base b ∨ b_base b + b_nch b ≤ base.
Proof.
  unfold range_taken. split.
  - intros H i b Hb. apply list_elem_of_lookup_2, list_elem_of_In in Hb.
    destruct (decide (base + nch ≤ b_base b ∨ b_base b + b_nch b ≤ base)); [done|].
    assert (existsb (overlaps base nch) (r_box r) = true) as Ht; [|by rewrite Ht in H].
    apply existsb_exists. exists b. split; [done|]. unfold overlaps. lia.
  - intros H. apply not_true_is_false. intros (b & Hin & Ho)%existsb_exists.
    apply list_elem_of_In, list_elem_of_lookup in Hin as [i Hi].
    specialize (H i b Hi). unfold overlaps in Ho. lia.
Qed.

(** The allocator finds the lowest free base, and fails only when none is free. *)
Lemma lowest_free_base_spec r nch :
  let base := lowest_free_base r nch in
  (0 ≤ base → base + nch ≤ r_fabric r ∧ range_taken r base nch = false ∧
     ∀ k, 0 ≤ k < base → range_taken r k nch = true) ∧
  (base < 0 → ∀ k, 0 ≤ k → k + nch ≤ r_fabric r → range_taken r k nch = true).
Proof.
  cbv zeta. unfold lowest_free_base.
  destruct (list_find _ _) as [[k b]|] eqn:E; simpl.
  - apply list_find_Some in E as (Hk & Hf & Hlt).
    apply lookup_seqZ in Hk as [-> Hk].
    split; [|lia]. intros _. split_and!; [lia|done|].
    intros j Hj. destruct (range_taken r j nch) eqn:Er; [done|].
    exfalso. apply (Hlt (Z.to_nat j) j); [|lia|done].
    unfold zseq. rewrite lookup_seqZ. lia.
  - apply list_find_None in E. split; [lia|]. intros _ k Hk Hf.
    destruct (range_taken r k nch) eqn:Er; [done|]. exfalso.
    assert (Hl : zseq 0 (r_fabric r - nch + 1) !! Z.to_nat k = Some k)
      by (unfold zseq; rewrite lookup_seqZ; lia).
    by destruct (Forall_lookup_1 _ _ _ _ E Hl).
Qed.

(** ** Every operation keeps the invariant *)

Lemma push_box_inv r b :
  boxreg_inv r → r_n r < REAC_BOXREG_MAX_BOXES → box_ok (r_fabric r) b →
  range_taken r (b_base b) (b_nch b) = false →
  (mac_is_zero (b_mac b) = false → ∀ i c, r_box r !! i = Some c → b_mac c ≠ b_mac b) →
  boxreg_inv (push_box r b).
Proof.
  intros [Hfab Hn Hbox Hdis Hmac] Hlt Hok Hfree Hnew. rewrite range_taken_false in Hfree.
  unfold r_n in *. split; unfold r_n; simpl.
  - done.
  - zl.
  - apply Forall_app. auto using Forall_cons.
  - intros i j x y Hij Hx Hy. apply lookup_app_Some in Hx as [Hx|[? Hx]];
      apply lookup_app_Some in Hy as [Hy|[? Hy]]; unfold disjoint_boxes.
    + by eapply Hdis.
    + apply list_lookup_singleton_Some in Hy as [? <-]. specialize (Hfree i x Hx). lia.
    + apply list_lookup_singleton_Some in Hx as [? <-]. specialize (Hfree j y Hy). lia.
    + apply list_lookup_singleton_Some in Hx as [? <-].
      apply list_lookup_singleton_Some in Hy as [? <-]. lia.
  - intros i j x y Hx Hy Heq Hz. apply lookup_app_Some in Hx as [Hx|[? Hx]];
      apply lookup_app_Some in Hy as [Hy|[? Hy]].
    + by eapply Hmac.
    + apply list_lookup_singleton_Some in Hy as [? <-]. rewrite Heq in Hz.
      by destruct (Hnew Hz i x Hx).
    + apply list_lookup_singleton_Some in Hx as [? <-].
      by destruct (Hnew Hz j y Hy).
    + apply list_lookup_singleton_Some in Hx as [? <-].
      apply list_lookup_singleton_Some in Hy as [? <-]. lia.
Qed.

(** Entry [i] changed by a function that keeps its place in the fabric. *)
Definition keeps_place (f : reac_box → reac_box) : Prop :=
  ∀ b, b_base (f b) = b_base b ∧ b_nch (f b) = b_nch b.

Lemma update_box_lookup r i f j c :
  r_box (update_box r i f) !! j = Some c →
  ∃ b, r_box r !! j = Some b ∧ c = if decide (Z.to_nat i = j) then f b else b.
Proof.
  simpl. intros H. destruct (decide (Z.to_nat i = j)) as [<-|Hne].
  - rewrite list_lookup_alter_eq in H. apply fmap_Some in H as (b & ? & ->). eauto.
  - rewrite list_lookup_alter_ne in H by done. eauto.
Qed.

Lemma update_box_inv r i f :
  boxreg_inv r → keeps_place f →
  (∀ b, r_box r !! Z.to_nat i = Some b → zlen (b_mac (f b)) = 6 ∧
     zlen (b_name (f b)) < REAC_BOXREG_NAME_MAX) →
  (∀ b j c, r_box r !! Z.to_nat i = Some b → r_box r !! j = Some c → j ≠ Z.to_nat i →
     mac_is_zero (b_mac (f b)) = false → b_mac c ≠ b_mac (f b)) →
  boxreg_inv (update_box r i f).
Proof.
  intros [Hfab Hn Hbox Hdis Hmac] Hk Hf Hnew. split.
  - done.
  - unfold r_n, zlen in *. simpl. rewrite length_alter. lia.
  - apply Forall_lookup. intros j c (b & Hb & ->)%update_box_lookup.
    pose proof (Forall_lookup_1 _ _ _ _ Hbox Hb) as (?&?&?&?&?).
    case_decide; subst; [|done]. destruct (Hk b) as [E1 E2], (Hf b Hb).
    unfold box_ok. simpl. by rewrite E1, E2.
  - intros j k x y Hjk (b & Hb & ->)%update_box_lookup (c & Hc & ->)%update_box_lookup.
    pose proof (Hdis j k b c Hjk Hb Hc) as Hd. unfold disjoint_boxes in *.
    destruct (Hk b), (Hk c). repeat case_decide; lia.
  - intros j k x y (b & Hb & ->)%update_box_lookup (c & Hc & ->)%update_box_lookup Heq Hz.
    repeat case_decide; subst; [done| | |by eapply Hmac].
    + destruct (decide (k = Z.to_nat i)); [congruence|].
      exfalso. by apply (Hnew b k c Hb Hc).
    + destruct (decide (j = Z.to_nat i)); [congruence|]. rewrite Heq in Hz.
      exfalso. by apply (Hnew c j b Hc Hb).
Qed.

Lemma zlen_snprintf_s cap s : 1 ≤ cap → zlen (snprintf_s cap s) < cap.
Proof. intros. unfold zlen, snprintf_s. rewrite length_take. lia. Qed.

Lemma lowest_box_ok r mac nch pinned name :
  width_ok r nch = true → zlen mac = 6 → zlen name < REAC_BOXREG_NAME_MAX →
  0 ≤ lowest_free_base r nch →
  box_ok (r_fabric r) (Box mac (lowest_free_base r nch) nch false pinned name).
Proof.
  unfold width_ok, box_ok. intros [??]%andb_true_iff ?? Hb.
  destruct (lowest_free_base_spec r nch) as [Hs _]. destruct (Hs Hb) as (?&?&?). simpl. auto.
Qed.

Lemma reac_boxreg_declare_inv r nch name base :
  boxreg_inv r → boxreg_inv (reac_boxreg_declare r nch name base).1.
Proof.
  intros Hi. unfold reac_boxreg_declare.
  destruct (negb _ || _) eqn:Ew; [done|]. apply orb_false_iff in Ew as [Ew En].
  apply negb_false_iff in Ew.
  assert (Hnm : zlen (from_option (snprintf_s REAC_BOXREG_NAME_MAX) [] name) <
                REAC_BOXREG_NAME_MAX).
  { destruct name; simpl; [by apply zlen_snprintf_s|done]. }
  destruct (0 <=? base) eqn:Ep; simpl.
  - destruct (_ || range_taken r base nch) eqn:Er; [done|].
    apply orb_false_iff in Er as [Eb Er]. destruct (base <? 0) eqn:?; [done|].
    unfold width_ok in Ew. apply andb_true_iff in Ew as [??].
    apply push_box_inv; [done|lia| |done|done].
    unfold box_ok; simpl. split_and!; auto; lia.
  - destruct (lowest_free_base r nch <? 0) eqn:Eb; [done|].
    destruct (lowest_free_base_spec r nch) as [Hs _].
    apply push_box_inv; [done|lia|apply lowest_box_ok; auto; lia|apply Hs; lia|done].
Qed.

Lemma reac_boxreg_find_absent r mac :
  mac_is_zero mac = false → reac_boxreg_find r mac < 0 →
  ∀ i c, r_box r !! i = Some c → b_mac c ≠ mac.
Proof.
  unfold reac_boxreg_find. intros -> Hf i c Hc.
  pose proof (box_index_None _ _ Hf i c Hc) as Hne. by apply zeqb_neq.
Qed.

Lemma reac_boxreg_add_inv r mac nch :
  boxreg_inv r → zlen mac = 6 → boxreg_inv (reac_boxreg_add r mac nch).1.
Proof.
  intros Hi Hm. unfold reac_boxreg_add. destruct (width_ok r nch) eqn:Ew; [simpl|done].
  destruct (mac_is_zero mac) eqn:Ez; [done|].
  destruct (0 <=? reac_boxreg_find r mac) eqn:Ef; [done|].
  pose proof (reac_boxreg_find_absent r mac Ez ltac:(lia)) as Habs.
  set (i := box_index _ _). destruct (0 <=? i) eqn:Ei; simpl.
  - apply update_box_inv; [done|by intros b|..]; simpl.
    + intros b Hb. pose proof (Forall_lookup_1 _ _ _ _ (inv_box r Hi) Hb) as (_&_&_&_&?). auto.
    + intros b j c _ Hc _ _. by eapply Habs.
  - destruct (_ <=? r_n r) eqn:En; [done|].
    destruct (lowest_free_base r nch <? 0) eqn:Eb; [done|].
    destruct (lowest_free_base_spec r nch) as [Hs _].
    apply push_box_inv; [done|lia|apply lowest_box_ok; [done|done|done|lia]|apply Hs; lia|done].
Qed.

Lemma reac_boxreg_set_name_inv r idx name :
  boxreg_inv r → boxreg_inv (reac_boxreg_set_name r idx name).
Proof.
  intros Hi. unfold reac_boxreg_set_name. destruct (_ || _); [done|].
  apply update_box_inv; [done|by intros b|..]; simpl.
  - intros b Hb. pose proof (Forall_lookup_1 _ _ _ _ (inv_box r Hi) Hb) as (?&_).
    split; [done|]. by apply zlen_snprintf_s.
  - intros b j c Hb Hc Hj Hz Heq. apply Hj. symmetry.
    by eapply (inv_mac r Hi).
Qed.

(** ** The table's life *)

Inductive boxreg_op :=
| OpDeclare (nch : Z) (name : option (list Z)) (base : Z)
| OpAdd (mac : list Z) (nch : Z)
| OpSetName (idx : Z) (name : option (list Z)).

Definition boxreg_step (r : reac_boxreg) (op : boxreg_op) : reac_boxreg :=
  match op with
  | OpDeclare nch name base => (reac_boxreg_declare r nch name base).1
  | OpAdd mac nch => (reac_boxreg_add r mac nch).1
  | OpSetName idx name => reac_boxreg_set_name r idx name
  end.
Definition boxreg_run (r : reac_boxreg) (ops : list boxreg_op) : reac_boxreg :=
  foldl boxreg_step r ops.

(** A MAC argument is a six-byte array. *)
Definition op_typed (op : boxreg_op) : Prop :=
  match op with OpAdd mac _ => zlen mac = 6 | _ => True end.

(** C31. Whatever the console declares, whatever boxes join and however they are
    renamed, the registry never overflows its five entries, never hands two
    boxes overlapping slots, never places a box outside the fabric, and never
    holds the same box twice. *)
Theorem boxreg_always_disjoint (fabric : Z) (ops : list boxreg_op) :
  Forall op_typed ops → boxreg_inv (boxreg_run (reac_boxreg_init fabric) ops).
Proof.
  unfold boxreg_run. intros Hops. generalize (reac_boxreg_init_inv fabric).
  generalize (reac_boxreg_init fabric) as r. induction Hops as [|op ops Ht _ IH]; [done|].
  intros r Hr. simpl. apply IH. destruct op; simpl.
  - by apply reac_boxreg_declare_inv.
  - by apply reac_boxreg_add_inv.
  - by apply reac_boxreg_set_name_inv.
Qed.

Lemma boxreg_always_disjoint_witness :
  let ops := [OpDeclare 16 None 8; OpAdd [0;64;171;1;2;3] 16; OpAdd [0;64;171;4;5;6] 8;
              OpAdd [0;64;171;4;5;6] 8; OpSetName 0 (Some [83;49])] in
  let r := boxreg_run (reac_boxreg_init 40) ops in
  (b_base <$> r_box r) = [8; 0] ∧ boxreg_inv r.
Proof.
  intros ops r. split; [vm_compute; reflexivity|].
  apply (boxreg_always_disjoint 40 ops). repeat constructor.
Defined.

(** The fields an operation on another box never touches. *)
Definition same_slot (b c : reac_box) : Prop :=
  b_base c = b_base b ∧ b_nch c = b_nch b ∧ b_pinned c = b_pinned b ∧ b_name c = b_name b.

Lemma reac_boxreg_find_hit r mac i b :
  boxreg_inv r → mac_is_zero mac = false → r_box r !! i = Some b → b_mac b = mac →
  reac_boxreg_find r mac = Z.of_nat i.
Proof.
  intros Hi Hz Hb <-. unfold reac_boxreg_find. rewrite Hz.
  eapply box_index_hit; [done|apply zeqb_refl|].
  intros j c Hc Heq%zeqb_eq. eapply (inv_mac r Hi); [done|done|done|by rewrite Heq].
Qed.


(** Where an accepted box is put, branch by branch. *)
Lemma reac_boxreg_add_placed r mac nch :
  boxreg_inv r →
  let '(r', i) := reac_boxreg_add r mac nch in
  0 ≤ i → ∃ b, r_box r' !! Z.to_nat i = Some b ∧ b_mac b = mac ∧
    (reac_boxreg_find r mac < 0 → b_nch b = nch) ∧ mac_is_zero mac = false ∧
    width_ok r' nch = true.
Proof.
  intros Hi. unfold reac_boxreg_add. destruct (width_ok r nch) eqn:Ew; simpl; [|lia].
  destruct (mac_is_zero mac) eqn:Ez; [lia|].
  destruct (0 <=? reac_boxreg_find r mac) eqn:Ef.
  - intros Hge. unfold reac_boxreg_find in *. rewrite Ez in *.
    destruct (box_index_Some _ _ _ Hge eq_refl) as (b & Hb & Heq%zeqb_eq).
    exists b. split_and!; auto. lia.
  - set (i := box_index _ _). destruct (0 <=? i) eqn:Ei; simpl.
    + intros Hge. destruct (box_index_Some _ _ i Hge eq_refl) as (b & Hb & Hz).
      exists (set_b_mac mac b). rewrite list_lookup_alter_eq, Hb. simpl. split_and!; auto. lia.
    + destruct (_ <=? r_n r) eqn:En; [lia|].
      destruct (lowest_free_base r nch <? 0) eqn:Eb; [lia|].
      intros _. eexists. simpl.
      split; [apply list_lookup_middle; unfold r_n, zlen; lia|]. by simpl.
Qed.

(** No other box moves. *)
Lemma reac_boxreg_add_stable r mac nch j b :
  r_box r !! j = Some b →
  ∃ c, r_box (reac_boxreg_add r mac nch).1 !! j = Some c ∧ same_slot b c.
Proof.
  intros Hb. assert (Hsame : same_slot b b) by done. unfold reac_boxreg_add.
  destruct (negb _); [by exists b|]. destruct (mac_is_zero mac); [by exists b|].
  destruct (0 <=? reac_boxreg_find r mac); [by exists b|].
  set (i := box_index _ _). destruct (0 <=? i); simpl.
  - destruct (decide (Z.to_nat i = j)) as [<-|Hne].
    + exists (set_b_mac mac b). by rewrite list_lookup_alter_eq, Hb.
    + exists b. by rewrite list_lookup_alter_ne.
  - destruct (_ <=? r_n r); [by exists b|].
    destruct (_ <? 0); [by exists b|]. exists b. simpl. by rewrite (lookup_app_l_Some _ _ _ _ Hb).
Qed.

(** Why a box is refused. *)
Lemma reac_boxreg_add_refused r mac nch :
  boxreg_inv r →
  let '(r', i) := reac_boxreg_add r mac nch in
  i < 0 → r' = r ∧
     (width_ok r nch = false ∨ mac_is_zero mac = true ∨
      (∀ j b, r_box r !! j = Some b → b_mac b ≠ mac) ∧
      (∀ j b, r_box r !! j = Some b → mac_is_zero (b_mac b) = true → b_nch b ≠ nch) ∧
      (r_n r = REAC_BOXREG_MAX_BOXES ∨
       ∀ base, 0 ≤ base → base + nch ≤ r_fabric r → range_taken r base nch = true)).
Proof.
  intros Hi. unfold reac_boxreg_add. destruct (width_ok r nch) eqn:Ew; simpl; [|auto].
  destruct (mac_is_zero mac) eqn:Ez; [auto|].
  destruct (0 <=? reac_boxreg_find r mac) eqn:Ef; [lia|].
  pose proof (reac_boxreg_find_absent r mac Ez ltac:(lia)) as Habs.
  set (i := box_index _ _). destruct (0 <=? i) eqn:Ei; [lia|].
  assert (Hun : ∀ j b, r_box r !! j = Some b → mac_is_zero (b_mac b) = true → b_nch b ≠ nch).
  { intros j b Hb Hz Hn. assert (Hlt : i < 0) by lia. pose proof (box_index_None _ _ Hlt j b Hb) as Hf.
    simpl in Hf. rewrite Hz in Hf. simpl in Hf. lia. }
  destruct (_ <=? r_n r) eqn:En.
  - intros _. pose proof (inv_n r Hi). split; [done|]. right; right. split_and!; auto. left. lia.
  - destruct (lowest_free_base r nch <? 0) eqn:Eb; [|unfold r_n; intros; zl].
    intros _. split; [done|]. right; right. split_and!; auto. right.
    destruct (lowest_free_base_spec r nch) as [_ Hs]. apply Hs. lia.
Qed.

(** Adding a box that is accepted makes it findable at the index returned,
    with the slot range it was declared or allocated, and joining again changes
    nothing and returns the same index; nobody else's slots move; a refusal
    changes nothing and happens only for an illegal width, the zero MAC, or an
    unknown box with no unbound declaration of its width when the table is full
    or no contiguous range of that width is free. *)
Theorem boxreg_add_spec (r : reac_boxreg) (mac : list Z) (nch : Z) :
  boxreg_inv r → zlen mac = 6 →
  let '(r', i) := reac_boxreg_add r mac nch in
  (0 ≤ i →
     (∃ b, r_box r' !! Z.to_nat i = Some b ∧ b_mac b = mac ∧
           (reac_boxreg_find r mac < 0 → b_nch b = nch)) ∧
     reac_boxreg_find r' mac = i ∧ reac_boxreg_add r' mac nch = (r', i)) ∧
  (∀ j b, r_box r !! j = Some b → ∃ c, r_box r' !! j = Some c ∧ same_slot b c) ∧
  (i < 0 → r' = r ∧
     (width_ok r nch = false ∨ mac_is_zero mac = true ∨
      (∀ j b, r_box r !! j = Some b → b_mac b ≠ mac) ∧
      (∀ j b, r_box r !! j = Some b → mac_is_zero (b_mac b) = true → b_nch b ≠ nch) ∧
      (r_n r = REAC_BOXREG_MAX_BOXES ∨
       ∀ base, 0 ≤ base → base + nch ≤ r_fabric r → range_taken r base nch = true))).
Proof.
  intros Hi Hm. pose proof (reac_boxreg_add_inv r mac nch Hi Hm) as Hi'.
  pose proof (reac_boxreg_add_placed r mac nch Hi) as Hp.
  pose proof (reac_boxreg_add_refused r mac nch Hi) as Hr.
  pose proof (reac_boxreg_add_stable r mac nch) as Hst.
  destruct (reac_boxreg_add r mac nch) as [r' i] eqn:Ea. simpl in *. split_and!; [|done|done].
  intros Hge. destruct (Hp Hge) as (b & Hb & Hmb & Hnb & Hz & Hw).
  assert (Hf : reac_boxreg_find r' mac = i).
  { rewrite (reac_boxreg_find_hit r' mac _ b Hi' Hz Hb Hmb). lia. }
  split_and!; [by exists b|done|].
  unfold reac_boxreg_add. by rewrite Hw, Hz, Hf, (proj2 (Z.leb_le 0 i) Hge).
Qed.

Lemma boxreg_add_spec_witness :
  let r := reac_boxreg_init 40 in
  let mac := [0;64;171;1;2;3] in
  (boxreg_inv r ∧ zlen mac = 6) ∧ reac_boxreg_find (reac_boxreg_add r mac 16).1 mac = 0.
Proof.
  intros r mac. assert (Hi : boxreg_inv r) by apply reac_boxreg_init_inv.
  split; [done|]. pose proof (boxreg_add_spec r mac 16 Hi eq_refl) as H.
  revert H. generalize (eq_refl : (reac_boxreg_add r mac 16).2 = 0).
  destruct (reac_boxreg_add r mac 16) as [r' i]. simpl. intros -> (H & _ & _).
  destruct H as (_&?&_); [lia|done].
Defined.
