(* ===== verification/Knock.v ===== *)
(** * Knock: may this wire be taken?

    Models [src/reac_knock.c] and [src/reac_tapwait.c]: the observation that
    proves a wire masterless before anything is driven on it, and the wait for
    the topology tap while a sighting on the parent interface is fresh. Times
    are 64-bit nanoseconds, with the C arithmetic's wrap written out. *)

From S2P Require Import Prelude.
Local Open Scope Z_scope.

Definition REAC_KNOCK_LISTEN_NS : Z := 500 * 1000000.

Inductive reac_knock_state := REAC_KNOCK_LISTENING | REAC_KNOCK_PROVEN | REAC_KNOCK_CANCELLED.
Inductive reac_knock_act := REAC_KNOCK_ACT_NONE | REAC_KNOCK_ACT_DRIVE.

Record reac_knock := Knock {
  k_state : reac_knock_state;
  k_opened_ns : Z;
  k_due_ns : Z;
  k_heard_ns : Z;
  k_granted : bool
}.

Definition reac_knock_init (now_ns : Z) : reac_knock :=
  Knock REAC_KNOCK_LISTENING now_ns (u64 (now_ns + REAC_KNOCK_LISTEN_NS)) 0 false.

Definition reac_knock_heard (k : reac_knock) (now_ns : Z) : reac_knock :=
  Knock (match k_state k with REAC_KNOCK_LISTENING => REAC_KNOCK_CANCELLED | s => s end)
    (k_opened_ns k) (k_due_ns k) now_ns (k_granted k).

(** The tail of [reac_knock_step], past the re-opening of a cancelled watch. *)
Definition knock_listen (k : reac_knock) (now_ns : Z) : reac_knock * reac_knock_act :=
  match k_state k with
  | REAC_KNOCK_LISTENING =>
      if now_ns <? k_due_ns k then (k, REAC_KNOCK_ACT_NONE)
      else (Knock REAC_KNOCK_PROVEN (k_opened_ns k) (k_due_ns k) (k_heard_ns k) true,
            REAC_KNOCK_ACT_DRIVE)
  | _ => (k, REAC_KNOCK_ACT_NONE)
  end.

Definition reac_knock_step (k : reac_knock) (now_ns : Z) : reac_knock * reac_knock_act :=
  match k_state k with
  | REAC_KNOCK_CANCELLED =>
      if now_ns <=? k_heard_ns k then (k, REAC_KNOCK_ACT_NONE)
      else if u64 (now_ns - k_heard_ns k) <? REAC_KNOCK_LISTEN_NS
      then (k, REAC_KNOCK_ACT_NONE)
      else knock_listen (Knock REAC_KNOCK_LISTENING (k_opened_ns k)
                           (u64 (k_heard_ns k + REAC_KNOCK_LISTEN_NS))
                           (k_heard_ns k) (k_granted k)) now_ns
  | _ => knock_listen k now_ns
  end.

(** ** A watch from carrier-up on *)

Inductive knock_event := KHeard (t : Z) | KPoll (t : Z).
Definition event_time (e : knock_event) : Z := match e with KHeard t | KPoll t => t end.

Definition knock_event_step (k : reac_knock) (e : knock_event) : reac_knock * reac_knock_act :=
  match e with
  | KHeard t => (reac_knock_heard k t, REAC_KNOCK_ACT_NONE)
  | KPoll t => reac_knock_step k t
  end.

Fixpoint knock_run (k : reac_knock) (evs : list knock_event) : reac_knock * list reac_knock_act :=
  match evs with
  | [] => (k, [])
  | e :: evs =>
      let '(k, a) := knock_event_step k e in
      let '(k', acts) := knock_run k evs in (k', a :: acts)
  end.

(** The clock is monotonic and far from its 584-year wrap. *)
Fixpoint clock_from (t : Z) (evs : list knock_event) : Prop :=
  match evs with
  | [] => 0 ≤ t < 2 ^ 64 - REAC_KNOCK_LISTEN_NS
  | e :: evs => 0 ≤ t ≤ event_time e ∧ clock_from (event_time e) evs
  end.

(** What a monotone history leaves in the watch. *)
Definition knock_rel (t0 : Z) (evs : list knock_event) (k : reac_knock)
    (acts : list reac_knock_act) : Prop :=
  match k_state k with
  | REAC_KNOCK_LISTENING =>
      k_due_ns k = t0 + REAC_KNOCK_LISTEN_NS ∧ (∀ h, KHeard h ∉ evs) ∧
      REAC_KNOCK_ACT_DRIVE ∉ acts
  | REAC_KNOCK_CANCELLED =>
      KHeard (k_heard_ns k) ∈ evs ∧ t0 ≤ k_heard_ns k ∧
      (∀ h, KHeard h ∈ evs → h ≤ k_heard_ns k) ∧ REAC_KNOCK_ACT_DRIVE ∉ acts
  | REAC_KNOCK_PROVEN => REAC_KNOCK_ACT_DRIVE ∈ acts
  end.

Lemma knock_run_snoc evs e : ∀ k,
  knock_run k (evs ++ [e]) =
    ((knock_event_step (knock_run k evs).1 e).1,
     (knock_run k evs).2 ++ [(knock_event_step (knock_run k evs).1 e).2]).
Proof.
  induction evs as [|e1 evs IH]; intros k; simpl.
  - by destruct (knock_event_step k e).
  - destruct (knock_event_step k e1) as [k1 a1]. rewrite IH.
    destruct (knock_run k1 evs); simpl. done.
Qed.

Lemma clock_from_snoc evs e : ∀ t,
  clock_from t (evs ++ [e]) → clock_from t evs ∧ 0 ≤ t ≤ event_time e ∧
    event_time e < 2 ^ 64 - REAC_KNOCK_LISTEN_NS ∧
    (∀ h, KHeard h ∈ evs → 0 ≤ h ≤ event_time e).
Proof.
  induction evs as [|e1 evs IH]; intros t; simpl.
  - intros (?&?). split_and!; try lia. intros h Hh. by apply not_elem_of_nil in Hh.
  - intros (?&Hc). apply IH in Hc as (?&?&?&Hb). split_and!; auto; try lia.
    intros h [Heq|Hh]%elem_of_cons; [|by apply Hb]. subst e1. simpl in *. lia.
Qed.

Lemma heard_poll h t evs : KHeard h ∈ evs ++ [KPoll t] ↔ KHeard h ∈ evs.
Proof. rewrite elem_of_app, list_elem_of_singleton. intuition congruence. Qed.
Lemma heard_heard h t evs : KHeard h ∈ evs ++ [KHeard t] ↔ KHeard h ∈ evs ∨ h = t.
Proof. rewrite elem_of_app, list_elem_of_singleton. intuition congruence. Qed.
Lemma drive_none acts :
  REAC_KNOCK_ACT_DRIVE ∈ acts ++ [REAC_KNOCK_ACT_NONE] ↔ REAC_KNOCK_ACT_DRIVE ∈ acts.
Proof. rewrite elem_of_app, list_elem_of_singleton. intuition congruence. Qed.
Lemma drive_drive acts : REAC_KNOCK_ACT_DRIVE ∈ acts ++ [REAC_KNOCK_ACT_DRIVE].
Proof. rewrite elem_of_app, list_elem_of_singleton. auto. Qed.

(** The licence is due: everything heard is at least a window old. *)
Definition licence_due (t0 t : Z) (evs : list knock_event) (acts : list reac_knock_act) : Prop :=
  (REAC_KNOCK_ACT_DRIVE ∉ acts) ∧ t0 + REAC_KNOCK_LISTEN_NS ≤ t ∧
  ∀ h, KHeard h ∈ evs → h + REAC_KNOCK_LISTEN_NS ≤ t.

Lemma knock_step_spec t0 evs k acts t :
  knock_rel t0 evs k acts → 0 ≤ t0 ≤ t → t < 2 ^ 64 - REAC_KNOCK_LISTEN_NS →
  (∀ h, KHeard h ∈ evs → 0 ≤ h ≤ t) →
  let '(k', a) := reac_knock_step k t in
  knock_rel t0 (evs ++ [KPoll t]) k' (acts ++ [a]) ∧
  (a = REAC_KNOCK_ACT_DRIVE ↔ licence_due t0 t evs acts).
Proof.
  unfold knock_rel, reac_knock_step, knock_listen, licence_due.
  intros Hr Ht Hw Hh. destruct k as [st op due hd gr]. destruct st; simpl in *.
  - destruct Hr as (-> & Hno & Hnd). destruct (t <? _) eqn:E; simpl.
    + split; [setoid_rewrite heard_poll; rewrite drive_none; done|].
      split; [done|]. intros (_&?&_). lia.
    + split; [apply drive_drive|]. split; [|done]. intros _. split_and!; [done|lia|].
      intros h Hin. by destruct (Hno h).
  - split; [by rewrite drive_none|]. split; [done|]. by intros (?&_).
  - destruct Hr as (Hin & Hge & Hmax & Hnd). pose proof (Hh _ Hin) as Hb.
    unfold u64, REAC_KNOCK_LISTEN_NS in *.
    rewrite (Z.mod_small (t - hd)) by lia. rewrite (Z.mod_small (hd + _)) by lia.
    destruct (t <=? hd) eqn:E1; [|destruct (t - hd <? _) eqn:E2].
    + simpl. setoid_rewrite heard_poll. rewrite drive_none. split; [done|].
      split; [done|]. intros (_&_&Hd). specialize (Hd _ Hin). lia.
    + simpl. setoid_rewrite heard_poll. rewrite drive_none. split; [done|].
      split; [done|]. intros (_&_&Hd). specialize (Hd _ Hin). lia.
    + simpl. destruct (t <? _) eqn:E3; [lia|]. simpl.
      split; [apply drive_drive|]. split; [|done]. intros _. split_and!; [done|lia|].
      intros h Hi. specialize (Hmax h Hi). lia.
Qed.

Lemma knock_heard_spec t0 evs k acts t :
  knock_rel t0 evs k acts → t0 ≤ t → (∀ h, KHeard h ∈ evs → 0 ≤ h ≤ t) →
  knock_rel t0 (evs ++ [KHeard t]) (reac_knock_heard k t) (acts ++ [REAC_KNOCK_ACT_NONE]).
Proof.
  unfold knock_rel, reac_knock_heard. intros Hr Ht Hh. destruct k as [st op due hd gr].
  destruct st; simpl in *; rewrite drive_none; [| done |]; setoid_rewrite heard_heard.
  - destruct Hr as (_ & Hno & Hnd). split_and!; auto. intros h [Hi|Hi]; [|lia].
    by destruct (Hno h).
  - destruct Hr as (_ & _ & _ & Hnd). split_and!; auto.
    intros h [Hi| ->]; [|lia]. by apply Hh in Hi as [??].
Qed.

Lemma knock_run_rel t0 evs :
  clock_from t0 evs →
  knock_rel t0 evs (knock_run (reac_knock_init t0) evs).1 (knock_run (reac_knock_init t0) evs).2.
Proof.
  induction evs as [|e evs IH] using rev_ind; intros Hc.
  - unfold knock_rel. simpl in *. unfold u64, REAC_KNOCK_LISTEN_NS in *.
    rewrite Z.mod_small by lia. split_and!; [done|intros ? H|intros H];
      by apply not_elem_of_nil in H.
  - apply clock_from_snoc in Hc as (Hc & Ht & Hw & Hb). specialize (IH Hc).
    rewrite knock_run_snoc. simpl. destruct e as [t|t]; simpl in *.
    + apply knock_heard_spec; [done|lia|done].
    + pose proof (knock_step_spec t0 evs _ _ t IH Ht Hw Hb) as Hs.
      destruct (reac_knock_step _ t). apply Hs.
Qed.

(** The licence to drive a wire is handed out exactly once, and exactly when
    the wire has been proven masterless: a poll answers DRIVE if and only if no
    earlier poll did, the watch has been open for 500 ms, and nothing was heard
    in the last 500 ms; whatever frames arrived before, and at whatever times. *)
Theorem knock_drive_iff (t0 t : Z) (evs : list knock_event) :
  clock_from t0 (evs ++ [KPoll t]) →
  let '(k, acts) := knock_run (reac_knock_init t0) evs in
  (reac_knock_step k t).2 = REAC_KNOCK_ACT_DRIVE ↔ licence_due t0 t evs acts.
Proof.
  intros Hc. apply clock_from_snoc in Hc as (Hc & Ht & Hw & Hb). simpl in *.
  pose proof (knock_run_rel t0 evs Hc) as Hr. destruct (knock_run _ evs) as [k acts].
  pose proof (knock_step_spec t0 evs k acts t Hr Ht Hw Hb) as Hs.
  revert Hs. destruct (reac_knock_step k t) as [k' a]. by intros [_ Hs].
Qed.

Lemma knock_drive_iff_witness :
  let evs := [KPoll 5; KHeard 1000; KPoll 500000010; KPoll 500000999] in
  clock_from 5 (evs ++ [KPoll 500001000]) ∧
  ((reac_knock_step (knock_run (reac_knock_init 5) evs).1 500001000).2 = REAC_KNOCK_ACT_DRIVE ↔
   licence_due 5 500001000 evs (knock_run (reac_knock_init 5) evs).2).
Proof.
  intros evs. assert (Hc : clock_from 5 (evs ++ [KPoll 500001000])).
  { simpl. unfold REAC_KNOCK_LISTEN_NS. lia. }
  split; [done|]. pose proof (knock_drive_iff 5 500001000 evs Hc) as H.
  revert H. by destruct (knock_run (reac_knock_init 5) evs).
Defined.

Example knock_drives_after_quiet :
  (knock_run (reac_knock_init 5) [KPoll 5; KHeard 1000; KPoll 500000999; KPoll 500001000]).2
  = [REAC_KNOCK_ACT_NONE; REAC_KNOCK_ACT_NONE; REAC_KNOCK_ACT_NONE; REAC_KNOCK_ACT_DRIVE].
Proof. vm_compute. reflexivity. Qed.

(** * The tap wait *)

Definition REAC_HUNT_ANNOUNCES : Z := 3.
Definition REAC_HUNT_WINDOW_NS : Z := REAC_HUNT_ANNOUNCES * 1000 * 1000000.
Definition REAC_TAPWAIT_NS : Z := REAC_HUNT_WINDOW_NS.

Record reac_tapwait_in := TapwaitIn {
  tw_tapped : bool; tw_untagged : Z; tw_last_heard_ns : Z; tw_now_ns : Z
}.

Definition reac_tapwait_binds (inp : option reac_tapwait_in) : bool :=
  match inp with
  | None => false
  | Some i =>
      if negb (tw_tapped i) then false
      else if 0 <? tw_untagged i then false
      else if tw_last_heard_ns i =? 0 then false
      else if tw_now_ns i <=? tw_last_heard_ns i then true
      else u64 (tw_now_ns i - tw_last_heard_ns i) <? REAC_TAPWAIT_NS
  end.

(** A sighting on a tapped parent holds the wire back exactly while it is
    fresh: from the frame heard until three announce periods later, and never
    once the tap has classified an untagged frame or on an untapped wire. *)
Theorem tapwait_binds_iff (tapped : bool) (untagged heard now : Z) :
  0 ≤ untagged → 0 ≤ heard < 2 ^ 64 → 0 ≤ now < 2 ^ 64 →
  reac_tapwait_binds (Some (TapwaitIn tapped untagged heard now)) = true ↔
  tapped = true ∧ untagged = 0 ∧ heard ≠ 0 ∧ now < heard + REAC_TAPWAIT_NS.
Proof.
  intros. unfold reac_tapwait_binds, REAC_TAPWAIT_NS, REAC_HUNT_WINDOW_NS, REAC_HUNT_ANNOUNCES,
    u64. simpl.
  destruct tapped; simpl; [|intuition discriminate].
  split_ifs; try (rewrite Z.mod_small by lia); split; intros; try done; try lia.
Qed.

Lemma tapwait_binds_iff_witness :
  reac_tapwait_binds (Some (TapwaitIn true 0 7 3000000006)) = true ↔
  true = true ∧ 0 = 0 ∧ 7 ≠ 0 ∧ 3000000006 < 7 + REAC_TAPWAIT_NS.
Proof. apply (tapwait_binds_iff true 0 7 3000000006); lia. Defined.
