(* ===== verification/Identity.v ===== *)
(** * Identity: what a box declares about itself

    Models [src/reac_ports.c] (the twelve-slot port table of a declaration) and
    [src/reac_identity.c] (the identity page: firmware, model name, REAC
    version, and their printed forms). A string is the list of its characters
    without the terminator. *)

From S2P Require Import Prelude CtrlBlk.
Local Open Scope Z_scope.

(** ** The port table *)

Definition REAC_PORTS_TABLE_OFF : Z := 8.
Definition REAC_PORTS_TABLE_SLOTS : Z := 12.
Definition REAC_PORTS_CH_PER_SLOT : Z := 4.
Definition REAC_PORT_SLOT_OUT : Z := 1.
Definition REAC_PORT_SLOT_IN : Z := 2.
Definition REAC_PORT_SLOT_EMPTY : Z := 3.
Definition REAC_PORT_SLOT_IN_SPLIT : Z := 0.
Definition REAC_HEADAMP_BASE_OFF : Z := 7.
Definition REAC_HEADAMP_BASE_MULTIPLIER : Z := 16.

Record reac_box_ports := BoxPorts { bp_in_ch : Z; bp_out_ch : Z; bp_headamp_base : Z }.

(** The header test both port readers share. *)
Definition is_declaration (block : list Z) : bool :=
  (block.[0] =? REAC_LINK_CTRL) && (block.[1] =? REAC_SEG_SINGLE) &&
  ((block.[4] =? REAC_OP_DECL) || (block.[4] =? REAC_OP_DECL_ALT)
   || (block.[4] =? REAC_OP_DECL_OTHER)).

Definition slot_is_in (code : Z) : bool :=
  (code =? REAC_PORT_SLOT_IN) || (code =? REAC_PORT_SLOT_IN_SPLIT).
Definition slot_is_out (code : Z) : bool := code =? REAC_PORT_SLOT_OUT.
Definition slot_known (code : Z) : bool :=
  (code =? REAC_PORT_SLOT_IN) || (code =? REAC_PORT_SLOT_IN_SPLIT)
  || (code =? REAC_PORT_SLOT_OUT) || (code =? REAC_PORT_SLOT_EMPTY).

Definition port_table (block : list Z) : list Z :=
  slice block REAC_PORTS_TABLE_OFF REAC_PORTS_TABLE_SLOTS.
(** A counting loop over the table. *)
Definition count_slots (f : Z → bool) (table : list Z) : Z := zlen (filter (λ c, f c = true) table).

Definition reac_ports_parse (block : list Z) : option reac_box_ports :=
  if is_declaration block then
    Some (BoxPorts (count_slots slot_is_in (port_table block) * REAC_PORTS_CH_PER_SLOT)
                   (count_slots slot_is_out (port_table block) * REAC_PORTS_CH_PER_SLOT)
                   (block.[REAC_HEADAMP_BASE_OFF] * REAC_HEADAMP_BASE_MULTIPLIER))
  else None.

(** The channels of the unreadable slots, and the first unreadable code. *)
Definition reac_ports_unknown (block : list Z) : option (Z * Z) :=
  if is_declaration block then
    let unknown := filter (λ c, slot_known c = false) (port_table block) in
    Some (zlen unknown * REAC_PORTS_CH_PER_SLOT, default 0 (head unknown))
  else None.

(** ** The identity page *)

Definition REAC_IDENTITY_TAG : Z := 0x0500.
Definition REAC_IDENTITY_ADDR_FIRMWARE : Z := 0x0000.
Definition REAC_IDENTITY_ADDR_REAC_VERSION : Z := 0x0600.
Definition REAC_IDENTITY_ADDR_MODEL_NAME : Z := 0x1000.
Definition REAC_IDENTITY_NAME_CAP : Z := 17.
Definition REAC_IDENTITY_REAC_VER_LEN : Z := 8.
Definition REAC_IDENTITY_FW_STR_CAP : Z := 8.
Definition REAC_IDENTITY_REAC_VER_STR_CAP : Z := 20.

Record reac_identity := Identity {
  id_fw_milli : Z;
  id_has_fw : bool;
  id_model_name : list Z;
  id_has_model_name : bool;
  id_major : Z;
  id_minor : Z;
  id_patch : Z;
  id_raw : list Z;
  id_has_version : bool
}.

Definition reac_identity_init : reac_identity :=
  Identity 0 false [] false 0 0 0 (zeros REAC_IDENTITY_REAC_VER_LEN) false.

Definition firmware_milli (p : list Z) (len : Z) : option Z :=
  if len <? 4 then None
  else if forallb (λ b, b <=? 9) (slice p 0 4)
  then Some (u16 (p.[0] * 1000 + p.[1] * 100 + p.[2] * 10 + p.[3]))
  else None.

(** The characters of a C string: the bytes before the first NUL. *)
Fixpoint cstr (l : list Z) : list Z :=
  match l with
  | [] => []
  | c :: l => if c =? 0 then [] else c :: cstr l
  end.

Definition store_model_name (id : reac_identity) (p : list Z) (len : Z) : reac_identity * Z :=
  if len <? 2 then (id, 0)
  else
    let n := len - 1 in
    let n := if REAC_IDENTITY_NAME_CAP - 1 <? n then REAC_IDENTITY_NAME_CAP - 1 else n in
    let name := cstr (slice p 1 n) in
    if zlen name =? 0 then (id, 0)
    else (Identity (id_fw_milli id) (id_has_fw id) name true (id_major id) (id_minor id)
                   (id_patch id) (id_raw id) (id_has_version id), 1).

Definition u16be (p : list Z) (off : Z) : Z := u16 (Z.lor (Z.shiftl p.[off] 8) p.[off + 1]).

Definition reac_identity_ingest (id : reac_identity) (addr_lo : Z) (payload : list Z) (len : Z)
    : reac_identity * Z :=
  if addr_lo =? REAC_IDENTITY_ADDR_FIRMWARE then
    match firmware_milli payload len with
    | None => (id, 0)
    | Some milli =>
        (Identity milli true (id_model_name id) (id_has_model_name id) (id_major id)
                  (id_minor id) (id_patch id) (id_raw id) (id_has_version id), 1)
    end
  else if addr_lo =? REAC_IDENTITY_ADDR_MODEL_NAME then store_model_name id payload len
  else if addr_lo =? REAC_IDENTITY_ADDR_REAC_VERSION then
    if len <? REAC_IDENTITY_REAC_VER_LEN then (id, 0)
    else (Identity (id_fw_milli id) (id_has_fw id) (id_model_name id) (id_has_model_name id)
                   (u16be payload 2) (u16be payload 4) (u16be payload 6)
                   (slice payload 0 REAC_IDENTITY_REAC_VER_LEN) true, 1)
  else (id, 0).

(** ** Printed versions *)

Definition digit (v : Z) : Z := 48 + v.
Definition dot : Z := 46.

Definition reac_identity_fw_str (fw_milli cap : Z) : option (list Z) :=
  if cap <? REAC_IDENTITY_FW_STR_CAP then None
  else
    let whole := fw_milli / 1000 in
    let frac := fw_milli mod 1000 in
    Some ((if 10 <=? whole then [digit ((whole / 10) mod 10)] else []) ++
          [digit (whole mod 10); dot; digit ((frac / 100) mod 10); digit ((frac / 10) mod 10);
           digit (frac mod 10)]).

(** The digits [write_uint] collects least significant first and reverses; a
    16-bit value has at most five, the size of the C scratch array. *)
Fixpoint uint_digits (fuel : nat) (v : Z) : list Z :=
  match fuel with
  | O => []
  | S fuel => digit (v mod 10) :: (if v / 10 =? 0 then [] else uint_digits fuel (v / 10))
  end.
Definition write_uint (v : Z) : list Z := rev (uint_digits 5 v).

Definition reac_identity_reac_ver_str (major minor patch cap : Z) : option (list Z) :=
  if cap <? REAC_IDENTITY_REAC_VER_STR_CAP then None
  else Some (write_uint major ++ [dot] ++ write_uint minor ++
             (if patch <? 10 then [digit 0] else []) ++ write_uint patch).

Example ver_str_2302 : reac_identity_reac_ver_str 2 3 2 20 = Some [50; 46; 51; 48; 50].
Proof. reflexivity. Qed.
