(* ===== verification/BoxModel.v ===== *)
(** * BoxModel: a stagebox model and the wire blocks it speaks

    Models [src/reac_box_synth.c] (a model's blocks synthesised from its declared
    facts) and the catalogue of [src/reac_ctrlblk.c] (its eleven rows, with the
    captured bytes the four real boxes carry, and the three lookups). *)

From Stdlib Require Ascii String.
From S2P Require Import Prelude Wire CtrlBlk Identity.
Import String.StringSyntax.
Local Open Scope Z_scope.

(** A string literal as its characters. *)
Definition str (s : String.string) : list Z :=
  (λ a, Z.of_N (Ascii.N_of_ascii a)) <$> String.list_ascii_of_string s.
Arguments str s%_string_scope.

Inductive reac_box_origin := REAC_BOX_CAPTURED | REAC_BOX_DERIVED.
Inductive reac_box_port_layout := REAC_BOX_PORTS_IN_FIRST | REAC_BOX_PORTS_SPLIT_OUT_FIRST.
Inductive reac_box_identity_shape := REAC_BOX_IDENTITY_ROLAND | REAC_BOX_IDENTITY_FREEREAC.
Inductive reac_box_block :=
| REAC_BOX_BLOCK_CONFIG | REAC_BOX_BLOCK_CC0014 | REAC_BOX_BLOCK_CC0013 | REAC_BOX_BLOCK_CC0016
| REAC_BOX_BLOCK_CC001A | REAC_BOX_BLOCK_IDENT_FIRST | REAC_BOX_BLOCK_IDENT_LAST.

#[global] Instance reac_box_origin_eq_dec : EqDecision reac_box_origin.
Proof. solve_decision. Defined.

Record reac_box_model := BoxModel {
  m_token : list Z; m_display : list Z; m_in_ch : Z; m_out_ch : Z;
  m_config_block : list Z; m_has_identity_record : bool;
  m_identity_first : list Z; m_identity_last : list Z;
  m_cc0014 : list Z; m_cc0013 : list Z; m_cc0016 : list Z; m_cc001a : list Z;
  m_selector : Z; m_headamp_strap : Z; m_tail : list Z;
  m_fw_milli : Z; m_reac_major : Z; m_reac_minor : Z; m_reac_patch : Z;
  m_name : option (list Z); m_origin : reac_box_origin;
  m_identity_shape : reac_box_identity_shape; m_port_layout : reac_box_port_layout
}.

(** ** The catalogue *)

Definition row_s1608 : reac_box_model :=
  BoxModel (str "s1608") (str "S-1608 (16 in / 8 out)") 16 8
    [1; 3; 0; 16; 130; 0; 0; 2; 2; 2; 2; 2; 1; 1; 3; 3; 3; 3; 3; 3; 0; 0; 0; 0; 0; 0; 0;
     0; 0; 0; 0; 76]
    false
    (zeros 32)
    (zeros 32)
    [4; 3; 0; 20; 0; 2; 0; 254; 15; 240; 65; 10; 0; 0; 18; 18; 1; 0; 6; 0; 1; 0; 120; 247;
     0; 0; 0; 0; 0; 0; 0; 0]
    [4; 3; 0; 19; 0; 2; 0; 254; 14; 240; 65; 10; 0; 0; 18; 18; 3; 2; 0; 1; 0; 122; 247; 0;
     0; 0; 0; 0; 0; 0; 0; 2]
    [4; 3; 0; 22; 0; 2; 0; 254; 17; 240; 65; 10; 0; 0; 18; 18; 5; 0; 0; 0; 2; 2; 0; 0;
     119; 247; 0; 0; 0; 0; 0; 252]
    [4; 3; 0; 26; 0; 2; 0; 254; 21; 240; 65; 10; 0; 0; 18; 18; 5; 0; 6; 0; 0; 0; 0; 2; 0;
     3; 0; 2; 110; 247; 0; 244]
    130 2 (zeros 11) 2200 2 3 2 None
    REAC_BOX_CAPTURED REAC_BOX_IDENTITY_ROLAND REAC_BOX_PORTS_IN_FIRST.

Definition row_s0808 : reac_box_model :=
  BoxModel (str "s0808") (str "S-0808 (8 in / 8 out)") 8 8
    [1; 3; 0; 16; 132; 0; 0; 0; 2; 2; 1; 1; 3; 3; 3; 3; 3; 3; 3; 3; 0; 0; 0; 0; 0; 0; 0;
     0; 0; 0; 0; 74]
    true
    [4; 1; 0; 27; 0; 2; 0; 254; 22; 240; 65; 10; 0; 0; 18; 18; 5; 0; 16; 0; 1; 83; 45; 48;
     56; 48; 56; 0; 0; 0; 0; 5]
    [4; 2; 0; 13; 0; 2; 0; 254; 8; 0; 0; 0; 0; 0; 0; 26; 247; 0; 0; 0; 0; 0; 0; 0; 0; 0;
     0; 0; 0; 0; 0; 212]
    [4; 3; 0; 20; 0; 2; 0; 254; 15; 240; 65; 10; 0; 0; 18; 18; 1; 0; 6; 0; 1; 0; 120; 247;
     0; 0; 0; 0; 0; 0; 0; 0]
    [4; 3; 0; 19; 0; 2; 0; 254; 14; 240; 65; 10; 0; 0; 18; 18; 3; 2; 0; 1; 0; 122; 247; 0;
     0; 0; 0; 0; 0; 0; 0; 2]
    [4; 3; 0; 22; 0; 2; 0; 254; 17; 240; 65; 10; 0; 0; 18; 18; 5; 0; 0; 0; 1; 0; 0; 3;
     119; 247; 0; 0; 0; 0; 0; 252]
    [4; 3; 0; 26; 0; 2; 0; 254; 21; 240; 65; 10; 0; 0; 18; 18; 5; 0; 6; 0; 0; 0; 0; 1; 0;
     0; 0; 0; 116; 247; 0; 244]
    132 0 (zeros 11) 1003 1 0 0 (Some (str "S-0808"))
    REAC_BOX_CAPTURED REAC_BOX_IDENTITY_ROLAND REAC_BOX_PORTS_IN_FIRST.

Definition row_s4000s : reac_box_model :=
  BoxModel (str "s4000s") (str "S-4000S-3208 (32 in / 8 out)") 32 8
    [1; 3; 0; 16; 132; 0; 0; 0; 2; 2; 2; 2; 2; 2; 2; 2; 1; 1; 3; 3; 0; 3; 0; 0; 0; 1; 0;
     0; 0; 0; 0; 76]
    false
    (zeros 32)
    (zeros 32)
    [4; 3; 0; 20; 0; 2; 0; 254; 15; 240; 65; 10; 0; 0; 18; 18; 1; 0; 6; 0; 1; 0; 120; 247;
     0; 0; 0; 0; 0; 0; 0; 0]
    [4; 3; 0; 19; 0; 2; 0; 254; 14; 240; 65; 10; 0; 0; 18; 18; 3; 2; 0; 1; 0; 122; 247; 0;
     0; 0; 0; 0; 0; 0; 0; 2]
    [4; 3; 0; 22; 0; 2; 0; 254; 17; 240; 65; 10; 0; 0; 18; 18; 5; 0; 0; 0; 2; 5; 0; 0;
     116; 247; 0; 0; 0; 0; 0; 252]
    [4; 3; 0; 26; 0; 2; 0; 254; 21; 240; 65; 10; 0; 0; 18; 18; 5; 0; 6; 0; 0; 0; 0; 2; 0;
     1; 0; 2; 112; 247; 0; 244]
    132 0 [0; 3; 0; 0; 0; 1; 0; 0; 0; 0; 0] 2500 2 1 2 None
    REAC_BOX_CAPTURED REAC_BOX_IDENTITY_ROLAND REAC_BOX_PORTS_IN_FIRST.

Definition row_s4000s_0832 : reac_box_model :=
  BoxModel (str "s4000s-0832") (str "S-4000S-0832 (8 in / 32 out)") 8 32
    [1; 3; 0; 16; 132; 0; 0; 0; 1; 1; 1; 1; 1; 1; 1; 1; 0; 0; 3; 3; 0; 3; 0; 0; 0; 1; 0;
     0; 0; 0; 0; 86]
    false
    (zeros 32)
    (zeros 32)
    [4; 3; 0; 20; 0; 2; 0; 254; 15; 240; 65; 10; 0; 0; 18; 18; 1; 0; 6; 0; 1; 0; 120; 247;
     0; 0; 0; 0; 0; 0; 0; 0]
    [4; 3; 0; 19; 0; 2; 0; 254; 14; 240; 65; 10; 0; 0; 18; 18; 3; 2; 0; 1; 0; 122; 247; 0;
     0; 0; 0; 0; 0; 0; 0; 2]
    [4; 3; 0; 22; 0; 2; 0; 254; 17; 240; 65; 10; 0; 0; 18; 18; 5; 0; 0; 0; 2; 5; 0; 0;
     116; 247; 0; 0; 0; 0; 0; 252]
    [4; 3; 0; 26; 0; 2; 0; 254; 21; 240; 65; 10; 0; 0; 18; 18; 5; 0; 6; 0; 0; 0; 0; 2; 0;
     1; 0; 2; 112; 247; 0; 244]
    132 0 [0; 3; 0; 0; 0; 1; 0; 0; 0; 0; 0] 2500 2 1 2 None
    REAC_BOX_CAPTURED REAC_BOX_IDENTITY_ROLAND REAC_BOX_PORTS_SPLIT_OUT_FIRST.

Definition row_s0816 : reac_box_model :=
  BoxModel (str "s0816") (str "S-0816 (8 in / 16 out)") 8 16
    (zeros 32)
    true
    (zeros 32)
    (zeros 32)
    (zeros 32)
    (zeros 32)
    (zeros 32)
    (zeros 32)
    132 0 (zeros 11) 1014 9 0 14 (Some (str "FR-0816"))
    REAC_BOX_DERIVED REAC_BOX_IDENTITY_FREEREAC REAC_BOX_PORTS_IN_FIRST.

Definition row_s2416 : reac_box_model :=
  BoxModel (str "s2416") (str "S-2416 (24 in / 16 out)") 24 16
    (zeros 32)
    true
    (zeros 32)
    (zeros 32)
    (zeros 32)
    (zeros 32)
    (zeros 32)
    (zeros 32)
    132 0 (zeros 11) 1014 9 0 14 (Some (str "FR-2416"))
    REAC_BOX_DERIVED REAC_BOX_IDENTITY_FREEREAC REAC_BOX_PORTS_IN_FIRST.

Definition row_s4000d : reac_box_model :=
  BoxModel (str "s4000d") (str "S-4000D (0 in / 32 out)") 0 32
    (zeros 32)
    true
    (zeros 32)
    (zeros 32)
    (zeros 32)
    (zeros 32)
    (zeros 32)
    (zeros 32)
    132 0 (zeros 11) 1014 9 0 14 (Some (str "FR-4000D"))
    REAC_BOX_DERIVED REAC_BOX_IDENTITY_FREEREAC REAC_BOX_PORTS_IN_FIRST.

Definition row_s4000m : reac_box_model :=
  BoxModel (str "s4000m") (str "S-4000M (32 in / 0 out)") 32 0
    (zeros 32)
    true
    (zeros 32)
    (zeros 32)
    (zeros 32)
    (zeros 32)
    (zeros 32)
    (zeros 32)
    132 0 (zeros 11) 1014 9 0 14 (Some (str "FR-4000M"))
    REAC_BOX_DERIVED REAC_BOX_IDENTITY_FREEREAC REAC_BOX_PORTS_IN_FIRST.

Definition row_fr4000 : reac_box_model :=
  BoxModel (str "fr4000") (str "FreeREAC 40 in / 0 out") 40 0
    (zeros 32)
    true
    (zeros 32)
    (zeros 32)
    (zeros 32)
    (zeros 32)
    (zeros 32)
    (zeros 32)
    132 0 (zeros 11) 1014 9 0 14 (Some (str "FR-4000"))
    REAC_BOX_DERIVED REAC_BOX_IDENTITY_FREEREAC REAC_BOX_PORTS_IN_FIRST.

Definition row_fr0040 : reac_box_model :=
  BoxModel (str "fr0040") (str "FreeREAC 0 in / 40 out") 0 40
    (zeros 32)
    true
    (zeros 32)
    (zeros 32)
    (zeros 32)
    (zeros 32)
    (zeros 32)
    (zeros 32)
    132 0 (zeros 11) 1014 9 0 14 (Some (str "FR-0040"))
    REAC_BOX_DERIVED REAC_BOX_IDENTITY_FREEREAC REAC_BOX_PORTS_IN_FIRST.

Definition row_fr2020 : reac_box_model :=
  BoxModel (str "fr2020") (str "FreeREAC 20 in / 20 out") 20 20
    (zeros 32)
    true
    (zeros 32)
    (zeros 32)
    (zeros 32)
    (zeros 32)
    (zeros 32)
    (zeros 32)
    132 0 (zeros 11) 1014 9 0 14 (Some (str "FR-2020"))
    REAC_BOX_DERIVED REAC_BOX_IDENTITY_FREEREAC REAC_BOX_PORTS_IN_FIRST.

Definition BOX_CATALOGUE : list reac_box_model :=
  [row_s1608; row_s0808; row_s4000s; row_s4000s_0832; row_s0816;
    row_s2416; row_s4000d; row_s4000m; row_fr4000; row_fr0040; row_fr2020].

Definition reac_box_catalogue : list reac_box_model * Z := (BOX_CATALOGUE, zlen BOX_CATALOGUE).

Definition find_row (f : reac_box_model → bool) : option reac_box_model :=
  snd <$> list_find (λ m, f m = true) BOX_CATALOGUE.

Definition reac_box_catalogue_by_token (token : option (list Z)) : option reac_box_model :=
  match token with
  | Some t => find_row (λ m, zeqb (m_token m) t)
  | None => None
  end.

Definition reac_box_catalogue_by_width (in_ch : Z) : reac_box_model :=
  default row_s1608
    (find_row (λ m, (m_in_ch m =? in_ch) && bool_decide (m_origin m = REAC_BOX_CAPTURED))).

(** ** Synthesis *)

Definition BLK : Z := 32.

Definition block_check (b : list Z) : list Z :=
  wr b (BLK - 1) (u8 (Z.land (256 - Z.land (zsum (slice b 0 (BLK - 1))) 0xff) 0xff)).

Definition dt1_check (p : list Z) : Z := u8 (Z.land (128 - Z.land (zsum p) 0x7f) 0x7f).

Definition dt1_head (out : list Z) (frag sysex_len addr_lo : Z) : list Z :=
  let hdr := sysex_len + 5 in
  blit out 0
    [0x04; frag; u8 (Z.shiftr hdr 8); u8 (Z.land hdr 0xff); 0x00; 0x02; 0x00; 0xfe;
     u8 sysex_len; 0xf0; 0x41; 0x0a; 0x00; 0x00; 0x12; 0x12;
     u8 (Z.shiftr REAC_IDENTITY_TAG 8); u8 (Z.land REAC_IDENTITY_TAG 0xff);
     u8 (Z.shiftr addr_lo 8); u8 (Z.land addr_lo 0xff)].

Definition JOIN_0014 : list Z :=
  [0x04; 0x03; 0x00; 0x14; 0x00; 0x02; 0x00; 0xfe; 0x0f; 0xf0; 0x41; 0x0a; 0x00; 0x00; 0x12; 0x12;
   0x01; 0x00; 0x06; 0x00; 0x01; 0x00; 0x78; 0xf7; 0x00; 0x00; 0x00; 0x00; 0x00; 0x00; 0x00; 0x00].
Definition JOIN_0013 : list Z :=
  [0x04; 0x03; 0x00; 0x13; 0x00; 0x02; 0x00; 0xfe; 0x0e; 0xf0; 0x41; 0x0a; 0x00; 0x00; 0x12; 0x12;
   0x03; 0x02; 0x00; 0x01; 0x00; 0x7a; 0xf7; 0x00; 0x00; 0x00; 0x00; 0x00; 0x00; 0x00; 0x00; 0x02].

(** The twelve slot codes, in the order the row's layout declares. *)
Definition slot_codes (m : reac_box_model) (in_slots out_slots : Z) : list Z :=
  match m_port_layout m with
  | REAC_BOX_PORTS_SPLIT_OUT_FIRST =>
      fill out_slots REAC_PORT_SLOT_OUT ++ fill in_slots REAC_PORT_SLOT_IN_SPLIT
  | REAC_BOX_PORTS_IN_FIRST =>
      fill in_slots REAC_PORT_SLOT_IN ++ fill out_slots REAC_PORT_SLOT_OUT
  end ++ fill (REAC_PORTS_TABLE_SLOTS - in_slots - out_slots) REAC_PORT_SLOT_EMPTY.

(** C truncates [%] and [/] toward zero; both operands are non-negative here. *)
Definition geometry_ok (m : reac_box_model) : bool :=
  negb ((m_in_ch m <? 0) || (m_out_ch m <? 0)) &&
  negb (negb (m_in_ch m mod REAC_PORTS_CH_PER_SLOT =? 0)
        || negb (m_out_ch m mod REAC_PORTS_CH_PER_SLOT =? 0)) &&
  negb (REAC_PORTS_TABLE_SLOTS <?
        m_in_ch m / REAC_PORTS_CH_PER_SLOT + m_out_ch m / REAC_PORTS_CH_PER_SLOT).

Definition build_config (m : reac_box_model) (out : list Z) : option (list Z) :=
  if negb (geometry_ok m) then None
  else
    let in_slots := m_in_ch m / REAC_PORTS_CH_PER_SLOT in
    let out_slots := m_out_ch m / REAC_PORTS_CH_PER_SLOT in
    let out := blit out 0 [0x01; 0x03; 0x00; 0x10; m_selector m; 0x00; 0x00; m_headamp_strap m] in
    let out := blit out REAC_PORTS_TABLE_OFF (slot_codes m in_slots out_slots) in
    let out := blit out (REAC_PORTS_TABLE_OFF + REAC_PORTS_TABLE_SLOTS) (m_tail m) in
    Some (block_check out).

Definition build_dt1_single (out : list Z) (addr_lo : Z) (data : list Z) : list Z :=
  let dlen := zlen data in
  let out := dt1_head out 0x03 (7 + 4 + dlen + 2) addr_lo in
  let out := blit out 20 data in
  let out := wr out (20 + dlen) (dt1_check (slice out 16 (4 + dlen))) in
  let out := wr out (21 + dlen) 0xf7 in
  block_check out.

Definition firmware_digits (v : Z) : list Z :=
  [u8 (v / 1000); u8 ((v / 100) mod 10); u8 ((v / 10) mod 10); u8 (v mod 10)].
Definition build_firmware (m : reac_box_model) (out : list Z) : option (list Z) :=
  if 9999 <? m_fw_milli m then None
  else Some (build_dt1_single out REAC_IDENTITY_ADDR_FIRMWARE (firmware_digits (m_fw_milli m))).

Definition version_words (m : reac_box_model) : list Z :=
  [0; 0; u8 (Z.shiftr (m_reac_major m) 8); u8 (Z.land (m_reac_major m) 0xff);
   u8 (Z.shiftr (m_reac_minor m) 8); u8 (Z.land (m_reac_minor m) 0xff);
   u8 (Z.shiftr (m_reac_patch m) 8); u8 (Z.land (m_reac_patch m) 0xff)].
Definition build_reac_version (m : reac_box_model) (out : list Z) : list Z :=
  build_dt1_single out REAC_IDENTITY_ADDR_REAC_VERSION (version_words m).

Definition NAME_KIND : Z := 1.
Definition NAME_LEN : Z := 16.
Definition NAME_IN_FIRST : Z := 10.

Definition name_field (m : reac_box_model) : list Z :=
  blit (zeros NAME_LEN) 0 (take (Z.to_nat NAME_LEN) (cstr (default [] (m_name m)))).

Definition build_ident_first (m : reac_box_model) (out : list Z) : list Z :=
  let out := dt1_head out 0x01 (7 + 4 + 1 + NAME_IN_FIRST) REAC_IDENTITY_ADDR_MODEL_NAME in
  let out := wr out 20 NAME_KIND in
  let out := blit out 21 (slice (name_field m) 0 NAME_IN_FIRST) in
  block_check out.

(** The record the two fragments carry between them: address, kind, name. *)
Definition name_record (m : reac_box_model) : list Z :=
  [u8 (Z.shiftr REAC_IDENTITY_TAG 8); u8 (Z.land REAC_IDENTITY_TAG 0xff);
   u8 (Z.shiftr REAC_IDENTITY_ADDR_MODEL_NAME 8); u8 (Z.land REAC_IDENTITY_ADDR_MODEL_NAME 0xff);
   NAME_KIND] ++ name_field m.

Definition build_ident_last (m : reac_box_model) (out : list Z) : list Z :=
  let out := blit out 0 [0x04; 0x02; 0x00; u8 ((NAME_LEN - NAME_IN_FIRST) + 2 + 5); 0x00; 0x02;
                         0x00; 0xfe; u8 ((NAME_LEN - NAME_IN_FIRST) + 2)] in
  let out := blit out 9 (slice (name_field m) NAME_IN_FIRST (NAME_LEN - NAME_IN_FIRST)) in
  let out := wr out 15 (dt1_check (name_record m)) in
  let out := wr out 16 0xf7 in
  block_check out.

(** [reac_box_model_block]: the return value and the block; a refused geometry
    leaves the cleared buffer. *)
Definition reac_box_model_block (m : reac_box_model) (b : reac_box_block) : Z * list Z :=
  let out := zeros BLK in
  let built o := match o with Some blk => (1, blk) | None => (-1, out) end in
  match b with
  | REAC_BOX_BLOCK_CONFIG => built (build_config m out)
  | REAC_BOX_BLOCK_CC0014 => (1, JOIN_0014)
  | REAC_BOX_BLOCK_CC0013 => (1, JOIN_0013)
  | REAC_BOX_BLOCK_CC0016 => built (build_firmware m out)
  | REAC_BOX_BLOCK_CC001A => (1, build_reac_version m out)
  | REAC_BOX_BLOCK_IDENT_FIRST =>
      if negb (m_has_identity_record m) then (0, out) else (1, build_ident_first m out)
  | REAC_BOX_BLOCK_IDENT_LAST =>
      if negb (m_has_identity_record m) then (0, out) else (1, build_ident_last m out)
  end.

Definition reac_box_model_upstream_width (m : option reac_box_model) : Z :=
  match m with
  | None => 0
  | Some m =>
      if (m_in_ch m <? 0) || (m_out_ch m <? 0) then 0
      else if (negb (m_in_ch m =? 0) && negb (reac_box_width_ok (m_in_ch m)))
              || (negb (m_out_ch m =? 0) && negb (reac_box_width_ok (m_out_ch m))) then 0
      else if m_in_ch m <? 2 then 2 else m_in_ch m
  end.

(** The row whose synthesised declaration the frame carries. *)
Definition row_declares (blk : list Z) (m : reac_box_model) : bool :=
  let '(rc, b) := reac_box_model_block m REAC_BOX_BLOCK_CONFIG in (rc =? 1) && zeqb blk b.

Definition reac_box_catalogue_match (frame : list Z) (len : Z) : option reac_box_model :=
  if len <? REAC_CTRL_BLOCK_OFF + 32 then None
  else if negb (frame.[12] =? 0x88) || negb (frame.[13] =? 0x19) then None
  else if negb (frame.[16] =? 0xcd) || negb (frame.[17] =? 0xea) then None
  else if negb (bool_decide (p_kind (reac_ctrl_parse frame len) = REAC_CTRL_CONFIG_ANNOUNCE))
  then None
  else find_row (row_declares (slice frame REAC_CTRL_BLOCK_OFF 32)).

(** ** The captured boxes are the oracle *)

Definition synthesised (m : reac_box_model) : list (Z * list Z) :=
  reac_box_model_block m <$>
    [REAC_BOX_BLOCK_CONFIG; REAC_BOX_BLOCK_CC0014; REAC_BOX_BLOCK_CC0013; REAC_BOX_BLOCK_CC0016;
     REAC_BOX_BLOCK_CC001A; REAC_BOX_BLOCK_IDENT_FIRST; REAC_BOX_BLOCK_IDENT_LAST].
Definition captured (m : reac_box_model) : list (Z * list Z) :=
  [(1, m_config_block m); (1, m_cc0014 m); (1, m_cc0013 m); (1, m_cc0016 m); (1, m_cc001a m);
   (b2z (m_has_identity_record m), m_identity_first m);
   (b2z (m_has_identity_record m), m_identity_last m)].

(** The synthesis reproduces every byte captured from a real box: for each of
    the four captured rows all seven blocks equal the stored ones, including
    which of them the model does not send. *)
Theorem captured_rows_reproduced (m : reac_box_model) :
  m ∈ BOX_CATALOGUE → m_origin m = REAC_BOX_CAPTURED → synthesised m = captured m.
Proof.
  intros Hin Ho.
  repeat (apply elem_of_cons in Hin as [->|Hin]; [first [discriminate Ho | vm_compute; reflexivity]|]).
  by apply not_elem_of_nil in Hin.
Qed.

Lemma captured_rows_reproduced_witness :
  row_s0808 ∈ BOX_CATALOGUE ∧ synthesised row_s0808 = captured row_s0808.
Proof.
  assert (Hin : row_s0808 ∈ BOX_CATALOGUE) by (right; left).
  split; [done|]. apply captured_rows_reproduced; [done|reflexivity].
Defined.

(** ** A declaration reads back as the geometry it was built from *)

Lemma block_check_stamp b : block_check b = reac_ctrl_block_cksum_stamp b 0.
Proof. done. Qed.

Lemma zlen_block_check b : zlen (block_check b) = zlen b.
Proof. unfold block_check. zl. Qed.
#[export] Hint Rewrite zlen_block_check : zlen.

Lemma rd_block_check b j : 0 ≤ j → j ≠ 31 → (block_check b).[j] = b.[j].
Proof. intros. rewrite block_check_stamp. apply rd_block_stamp_ne; lia. Qed.

Lemma slice_block_check b off n :
  0 ≤ off → off + n ≤ 31 → slice (block_check b) off n = slice b off n.
Proof. intros. unfold block_check, BLK. apply slice_wr_out; lia. Qed.

Lemma block_check_closes b : zlen b = 32 → zsum (block_check b) mod 256 = 0.
Proof.
  intros Hl. rewrite <- (slice_full (block_check b) 32) by zl. rewrite block_check_stamp.
  apply block_stamp_closes; lia.
Qed.

Lemma count_slots_app f l k : count_slots f (l ++ k) = count_slots f l + count_slots f k.
Proof. unfold count_slots. rewrite filter_app. zl. Qed.

Lemma count_slots_fill f n c : 0 ≤ n → count_slots f (fill n c) = if f c then n else 0.
Proof.
  intros Hn. unfold count_slots, fill.
  assert (H : ∀ k, zlen (filter (λ c, f c = true) (replicate k c)) = if f c then Z.of_nat k else 0).
  { induction k as [|k IH]; simpl; [by destruct (f c)|].
    destruct (f c) eqn:E; [rewrite filter_cons_True by done|
                           rewrite filter_cons_False by (by rewrite E)]; zl. }
  rewrite H. destruct (f c); lia.
Qed.

Lemma no_unknown_slot l :
  Forall (λ c, slot_known c = true) l → filter (λ c, slot_known c = false) l = [].
Proof.
  induction 1 as [|c l Hc _ IH]; [done|]. rewrite filter_cons_False by (by rewrite Hc). done.
Qed.

(** A model whose declaration the twelve slots can hold. *)
Record model_ok (m : reac_box_model) : Prop := {
  mo_geometry : geometry_ok m = true;
  mo_selector : m_selector m ∈ [REAC_OP_DECL; REAC_OP_DECL_ALT; REAC_OP_DECL_OTHER];
  mo_strap : is_byte (m_headamp_strap m);
  mo_tail : zlen (m_tail m) = 11
}.

Lemma slot_codes_facts m i o :
  0 ≤ i → 0 ≤ o → i + o ≤ 12 →
  zlen (slot_codes m i o) = 12 ∧ count_slots slot_is_in (slot_codes m i o) = i ∧
  count_slots slot_is_out (slot_codes m i o) = o ∧
  Forall (λ c, slot_known c = true) (slot_codes m i o).
Proof.
  intros. unfold slot_codes, REAC_PORTS_TABLE_SLOTS.
  destruct (m_port_layout m); (split_and!;
    [zl
    |rewrite !count_slots_app, !count_slots_fill by lia; simpl; lia
    |rewrite !count_slots_app, !count_slots_fill by lia; simpl; lia
    |repeat (apply Forall_app; split); by apply Forall_replicate]).
Qed.

Lemma build_config_ports m out :
  model_ok m → zlen out = 32 →
  ∃ blk, build_config m out = Some blk ∧ zlen blk = 32 ∧ zsum blk mod 256 = 0 ∧
    is_declaration blk = true ∧ blk.[4] = m_selector m ∧
    blk.[REAC_HEADAMP_BASE_OFF] = m_headamp_strap m ∧ slice blk 20 11 = m_tail m ∧
    port_table blk = slot_codes m (m_in_ch m / 4) (m_out_ch m / 4).
Proof.
  intros [Hg Hs Hb Ht] Hl. unfold build_config. rewrite Hg. simpl.
  unfold geometry_ok, REAC_PORTS_CH_PER_SLOT, REAC_PORTS_TABLE_SLOTS in Hg.
  unfold REAC_PORTS_CH_PER_SLOT, REAC_PORTS_TABLE_OFF, REAC_PORTS_TABLE_SLOTS.
  destruct (slot_codes_facts m (m_in_ch m / 4) (m_out_ch m / 4)) as (Hc & _);
    [lia|lia|lia|]. set (codes := slot_codes _ _ _) in *. change (8 + 12) with 20.
  set (hd := [1; 3; 0; 16; m_selector m; 0; 0; m_headamp_strap m]).
  assert (Hhd : zlen hd = 8) by done.
  set (b := blit (blit (blit out 0 hd) 8 codes) 20 (m_tail m)).
  assert (Hrd : ∀ j, 0 ≤ j < 8 → (block_check b).[j] = hd.[j]).
  { intros j Hj. rewrite rd_block_check by lia. subst b. rds. by rewrite Z.sub_0_r. }
  exists (block_check b). split_and!.
  - done.
  - subst b. zl.
  - apply block_check_closes. subst b. zl.
  - unfold is_declaration. rewrite !Hrd by lia. simpl.
    repeat (apply elem_of_cons in Hs as [Hs|Hs]; [subst hd; simpl; rewrite Hs; reflexivity|]).
    by apply not_elem_of_nil in Hs.
  - by rewrite Hrd by lia.
  - unfold REAC_HEADAMP_BASE_OFF. by rewrite Hrd by lia.
  - rewrite slice_block_check by lia. subst b. rewrite <- Ht. apply slice_blit_in; zl.
  - unfold port_table, REAC_PORTS_TABLE_OFF, REAC_PORTS_TABLE_SLOTS.
    rewrite slice_block_check by lia. subst b. apply buf_ext; [zl|].
    intros i Hi. autorewrite with zlen in Hi. rds. f_equal; lia.
Qed.

(** The declaration a box synthesises tells a mixer exactly its geometry: it
    is accepted as a declaration, closes its checksum, reads back as the row's
    input and output widths and head-amp base with no unreadable slot; and a
    geometry the twelve four-channel slots cannot hold is refused, never
    truncated. *)
Theorem declaration_roundtrip (m : reac_box_model) :
  m_selector m ∈ [REAC_OP_DECL; REAC_OP_DECL_ALT; REAC_OP_DECL_OTHER] →
  is_byte (m_headamp_strap m) → zlen (m_tail m) = 11 →
  let '(rc, blk) := reac_box_model_block m REAC_BOX_BLOCK_CONFIG in
  (rc = 1 ↔ 0 ≤ m_in_ch m ∧ 0 ≤ m_out_ch m ∧ m_in_ch m mod 4 = 0 ∧ m_out_ch m mod 4 = 0 ∧
            m_in_ch m + m_out_ch m ≤ 48) ∧
  (rc = 1 →
     zsum blk mod 256 = 0 ∧
     reac_ports_parse blk =
       Some (BoxPorts (m_in_ch m) (m_out_ch m) (m_headamp_strap m * 16)) ∧
     reac_ports_unknown blk = Some (0, 0)) ∧
  (rc ≠ 1 → rc = -1 ∧ blk = zeros 32).
Proof.
  intros Hs Hb Ht. unfold reac_box_model_block.
  destruct (geometry_ok m) eqn:Hg.
  - destruct (build_config_ports m (zeros BLK)) as
      (blk & -> & _ & Hsum & Hd & _ & Hst & _ & Hpt); [by split|done|].
    unfold geometry_ok, REAC_PORTS_CH_PER_SLOT, REAC_PORTS_TABLE_SLOTS in Hg.
    destruct (slot_codes_facts m (m_in_ch m / 4) (m_out_ch m / 4)) as (_ & Hi & Ho & Hk);
      [lia|lia|lia|].
    split_and!; [lia| |lia]. intros _. split_and!; [done|..].
    + unfold reac_ports_parse. rewrite Hd, Hpt, Hi, Ho, Hst.
      unfold REAC_PORTS_CH_PER_SLOT, REAC_HEADAMP_BASE_MULTIPLIER. do 2 f_equal; lia.
    + unfold reac_ports_unknown. by rewrite Hd, Hpt, no_unknown_slot.
  - unfold build_config. rewrite Hg. simpl.
    unfold geometry_ok, REAC_PORTS_CH_PER_SLOT, REAC_PORTS_TABLE_SLOTS in Hg.
    split_and!; [|lia|done]. split; [lia|]. intros. exfalso. lia.
Qed.

Lemma declaration_roundtrip_witness :
  let blk := (reac_box_model_block row_s4000s_0832 REAC_BOX_BLOCK_CONFIG).2 in
  reac_ports_parse blk = Some (BoxPorts 8 32 0).
Proof.
  pose proof (declaration_roundtrip row_s4000s_0832) as H.
  destruct (reac_box_model_block row_s4000s_0832 REAC_BOX_BLOCK_CONFIG) as [rc blk] eqn:E.
  destruct H as (_ & H & _); [right; right; left|unfold is_byte; simpl; lia|reflexivity|].
  destruct H as (_ & H & _); [|exact H].
  change rc with (rc, blk).1. rewrite <- E. vm_compute. reflexivity.
Defined.

(** ** Identity records read back *)

(** A 16-bit value split into its two bytes, big-endian, is itself. *)
Lemma u16_of_split v :
  0 ≤ v < 65536 →
  u16 (Z.lor (Z.shiftl (u8 (Z.shiftr v 8)) 8) (u8 (Z.land v 255))) = v.
Proof.
  intros Hv. rewrite Z.lor_comm, land_ff, Z.shiftr_div_pow2 by lia. unfold u16, u8.
  rewrite lor_shift8; [lia|unfold is_byte; lia|lia].
Qed.

Lemma dt1_single_facts addr data :
  0 ≤ addr < 65536 → 1 ≤ zlen data ≤ 8 →
  let blk := build_dt1_single (zeros BLK) addr data in
  zlen blk = 32 ∧ blk.[0] = REAC_LINK_RECORD ∧ blk.[1] = REAC_SEG_SINGLE ∧
  blk.[8] = 13 + zlen data ∧ blk.[9] = 0xf0 ∧ blk.[14] = REAC_DT1_MODEL_LO ∧
  blk.[15] = REAC_DT1_CMD_DT1 ∧ blk.[16] = 0x05 ∧ blk.[17] = 0x00 ∧
  u16 (Z.lor (Z.shiftl blk.[18] 8) blk.[19]) = addr ∧
  blk.[21 + zlen data] = 0xf7 ∧ zsum blk mod 256 = 0 ∧
  zsum (slice blk 16 (5 + zlen data)) mod 128 = 0 ∧ slice blk 20 (zlen data) = data.
Proof.
  intros Ha Hd. cbv zeta. unfold build_dt1_single. set (n := zlen data) in *.
  set (h := dt1_head (zeros BLK) 3 (7 + 4 + n + 2) addr).
  assert (Hh : zlen h = 32) by (subst h; unfold dt1_head, BLK; zl).
  assert (Hhd : ∀ j, 0 ≤ j < 20 → h.[j] =
    [4; 3; u8 (Z.shiftr (7 + 4 + n + 2 + 5) 8); u8 (Z.land (7 + 4 + n + 2 + 5) 255); 0; 2; 0; 254;
     u8 (7 + 4 + n + 2); 240; 65; 10; 0; 0; 18; 18; 5; 0; u8 (Z.shiftr addr 8);
     u8 (Z.land addr 255)].[j]).
  { intros j Hj. subst h. unfold dt1_head, BLK. rewrite rd_blit_in by zl.
    rewrite Z.sub_0_r. done. }
  change (wr (blit h 20 data) (20 + n) (dt1_check (slice (blit h 20 data) 16 (4 + n))))
    with (wr (blit h 20 data) (20 + n)
            (u8 (Z.land (0x80 - Z.land (zsum (slice (blit h 20 data) 16 (4 + n))) 0x7f) 0x7f))).
  set (r := wr _ (20 + n) _).
  assert (Hrec : r = reac_ctrl_record_cksum_stamp (blit h 20 data) 16 (5 + n)).
  { subst r. unfold reac_ctrl_record_cksum_stamp. f_equal; [lia|].
    by replace (5 + n - 1) with (4 + n) by lia. }
  destruct (record_stamp_closes (blit h 20 data) 16 (5 + n)) as [Hclose _]; [lia|lia|zl|].
  rewrite <- Hrec in Hclose.
  assert (Hrd : ∀ j, 0 ≤ j < 20 → (block_check (wr r (21 + n) 247)).[j] = h.[j]).
  { intros j Hj. rewrite rd_block_check by lia. subst r. by rds. }
  split_and!; rewrite ?Hrd, ?Hhd by lia; try done.
  - subst r. zl.
  - change (u8 (7 + 4 + n + 2) = 13 + n). unfold u8. lia.
  - by apply u16_of_split.
  - rewrite rd_block_check by lia. subst r. by rds.
  - apply block_check_closes. subst r. zl.
  - rewrite slice_block_check, slice_wr_out by lia. done.
  - rewrite slice_block_check, slice_wr_out by lia. subst r.
    rewrite slice_wr_out by lia. apply slice_blit_in; zl.
Qed.

(** What a listening end does with a frame that may be an identity reply. *)
Definition ingest_frame (id : reac_identity) (frame : list Z) : reac_identity * Z :=
  match reac_ctrl_identity_reply frame (zlen frame) with
  | Some (addr, payload) => reac_identity_ingest id addr payload (zlen payload)
  | None => (id, 0)
  end.

Lemma ingest_single id frame addr data :
  0 ≤ addr < 65536 → 1 ≤ zlen data ≤ 8 →
  carries frame (build_dt1_single (zeros BLK) addr data) →
  ingest_frame id frame = reac_identity_ingest id addr data (zlen data).
Proof.
  intros Ha Hd Hc. unfold ingest_frame.
  destruct (dt1_single_facts addr data Ha Hd) as (_&?&?&?&?&?&?&?&?&Hadr&?&?&?&Hdat).
  rewrite (identity_reply_record frame _ (zlen data) Hc); try done; [|lia].
  by rewrite Hadr, Hdat.
Qed.

Lemma firmware_digits_read v :
  0 ≤ v ≤ 9999 → firmware_milli (firmware_digits v) 4 = Some v.
Proof.
  intros Hv. unfold firmware_milli, firmware_digits.
  replace (forallb _ _) with true; cycle 1.
  { symmetry. unfold slice. simpl. unfold u8. rewrite !andb_true_iff. lia. }
  change (Some (u16 (u8 (v / 1000) * 1000 + u8 ((v / 100) mod 10) * 100
                     + u8 ((v / 10) mod 10) * 10 + u8 (v mod 10))) = Some v).
  f_equal. unfold u16, u8. lia.
Qed.

(** Firmware and REAC version survive the wire: a frame carrying the
    record a model synthesises is recognised as an identity reply, and ingesting
    it stores exactly the row's numbers and leaves the rest of the page alone. *)
Theorem identity_numbers_roundtrip (m : reac_box_model) (id : reac_identity)
    (fw_frame ver_frame : list Z) :
  0 ≤ m_fw_milli m ≤ 9999 → 0 ≤ m_reac_major m < 65536 → 0 ≤ m_reac_minor m < 65536 →
  0 ≤ m_reac_patch m < 65536 →
  carries fw_frame (reac_box_model_block m REAC_BOX_BLOCK_CC0016).2 →
  carries ver_frame (reac_box_model_block m REAC_BOX_BLOCK_CC001A).2 →
  ingest_frame id fw_frame =
    (Identity (m_fw_milli m) true (id_model_name id) (id_has_model_name id) (id_major id)
       (id_minor id) (id_patch id) (id_raw id) (id_has_version id), 1) ∧
  ingest_frame id ver_frame =
    (Identity (id_fw_milli id) (id_has_fw id) (id_model_name id) (id_has_model_name id)
       (m_reac_major m) (m_reac_minor m) (m_reac_patch m) (version_words m) true, 1).
Proof.
  intros Hf Hma Hmi Hpa Hc1 Hc2. simpl in Hc1, Hc2. unfold build_firmware in Hc1.
  replace (9999 <? m_fw_milli m) with false in Hc1 by lia. simpl in Hc1.
  apply (ingest_single id) in Hc1; [|done|done]. apply (ingest_single id) in Hc2; [|done|done].
  rewrite Hc1, Hc2. unfold reac_identity_ingest. cbn [Z.eqb].
  change (zlen (firmware_digits _)) with 4. rewrite firmware_digits_read by done.
  split; [done|]. cbn -[version_words u16be slice].
  rewrite (slice_full (version_words m) REAC_IDENTITY_REAC_VER_LEN) by done.
  by do 2 f_equal; apply u16_of_split.
Qed.

(** The shortest frame around a block, from source [mac]. *)
Definition wrap_block (mac blk : list Z) : list Z :=
  fill 6 255 ++ mac ++ [0x88; 0x19; 0; 0; 0xcd; 0xea] ++ blk.

Lemma identity_numbers_roundtrip_witness :
  let fw := wrap_block (zeros 6) (reac_box_model_block row_s1608 REAC_BOX_BLOCK_CC0016).2 in
  let ver := wrap_block (zeros 6) (reac_box_model_block row_s1608 REAC_BOX_BLOCK_CC001A).2 in
  id_fw_milli (ingest_frame reac_identity_init fw).1 = 2200 ∧
  id_major (ingest_frame reac_identity_init ver).1 = 2.
Proof.
  intros fw ver.
  assert (H1 : carries fw (reac_box_model_block row_s1608 REAC_BOX_BLOCK_CC0016).2)
    by (vm_compute; repeat split; congruence).
  assert (H2 : carries ver (reac_box_model_block row_s1608 REAC_BOX_BLOCK_CC001A).2)
    by (vm_compute; repeat split; congruence).
  destruct (identity_numbers_roundtrip row_s1608 reac_identity_init fw ver) as [E1 E2];
    [split; vm_compute; congruence| | | |done|done|];
    [split; [vm_compute; congruence|reflexivity]..|].
  rewrite E1, E2. split; reflexivity.
Defined.

(** ** The name record, reassembled from its two fragments *)

Lemma zlen_name_field m : zlen (name_field m) = 16.
Proof. unfold name_field, NAME_LEN. zl. Qed.

(** A sixteen-byte field by its bytes, so that the blocks around it compute. *)
Ltac name_bytes m :=
  let H := fresh "H" in
  pose proof (zlen_name_field m) as H; generalize dependent (name_field m);
  let nm := fresh "nm" in
  intros nm H; unfold zlen in H;
  do 16 (destruct nm as [|? nm]; [discriminate H|]); destruct nm; [clear H|simpl in H; lia].

Lemma ident_first_facts m :
  let blk := build_ident_first m (zeros BLK) in
  zlen blk = 32 ∧ zsum blk mod 256 = 0 ∧
  slice blk 0 9 = [4; 1; 0; 27; 0; 2; 0; 254; 22] ∧
  slice blk 9 22 = [240; 65; 10; 0; 0; 18; 18; 5; 0; 16; 0; 1] ++ slice (name_field m) 0 10.
Proof.
  cbv zeta. unfold build_ident_first. name_bytes m.
  split_and!; [reflexivity|apply block_check_closes; reflexivity|reflexivity|reflexivity].
Qed.

Lemma ident_last_facts m :
  let blk := build_ident_last m (zeros BLK) in
  zlen blk = 32 ∧ zsum blk mod 256 = 0 ∧
  slice blk 0 9 = [4; 2; 0; 13; 0; 2; 0; 254; 8] ∧
  slice blk 9 8 = slice (name_field m) 10 6 ++ [dt1_check (name_record m); 247].
Proof.
  cbv zeta. unfold build_ident_last, name_record. name_bytes m.
  split_and!; [reflexivity|apply block_check_closes; reflexivity|reflexivity|reflexivity].
Qed.

(** The name a row puts on its identity page. *)
Definition sent_name (m : reac_box_model) : list Z :=
  take (Z.to_nat NAME_LEN) (cstr (default [] (m_name m))).

Lemma cstr_nonzero l : Forall (λ c, c ≠ 0) (cstr l).
Proof.
  induction l as [|c l IH]; simpl; [constructor|].
  destruct (c =? 0) eqn:E; [constructor|]. constructor; [lia|done].
Qed.

Lemma cstr_padded s n : Forall (λ c, c ≠ 0) s → cstr (s ++ zeros n) = s.
Proof.
  induction 1 as [|c s Hc _ IH]; simpl.
  - unfold zeros, fill. by destruct (Z.to_nat n).
  - replace (c =? 0) with false by lia. by rewrite IH.
Qed.

Lemma name_field_eq m : name_field m = sent_name m ++ zeros (16 - zlen (sent_name m)).
Proof.
  assert (Hl : zlen (sent_name m) ≤ 16)
    by (unfold sent_name, NAME_LEN, zlen; rewrite length_take; lia).
  pose proof (zlen_nonneg (sent_name m)).
  unfold name_field. fold (sent_name m). unfold NAME_LEN.
  apply buf_ext; [zl|]. intros i Hi. autorewrite with zlen in Hi.
  destruct (decide (i < zlen (sent_name m))).
  - rewrite rd_app_l by lia. rds. f_equal; lia.
  - rewrite rd_app_r by lia. rewrite rd_zeros. rds. done.
Qed.

Lemma cstr_name_field m : cstr (name_field m) = sent_name m.
Proof. rewrite name_field_eq. apply cstr_padded, Forall_take, cstr_nonzero. Qed.

(** The header reads of a fragment, from the block's first nine bytes. *)
Lemma fragment_header frame blk k h :
  carries frame blk → slice blk 0 9 = h → 0 ≤ k < 9 → frame.[REAC_CTRL_BLOCK_OFF + k] = h.[k].
Proof.
  intros Hc <- Hk. rewrite (carries_rd frame blk) by (done || lia). by rewrite rd_slice by lia.
Qed.

Lemma carries_verify frame blk :
  carries frame blk → zsum blk mod 256 = 0 → reac_ctrl_checksum_verify frame = true.
Proof. intros (_&_&_&_&_&<-) Hs. by apply checksum_verify_iff. Qed.

Lemma fragment_first m f frame :
  carries frame (build_ident_first m (zeros BLK)) →
  reac_ctrl_identity_fragment f frame (zlen frame) =
    (Frag (slice frame 6 6) true 22
       (blit (fr_buf f) 0 (slice (build_ident_first m (zeros BLK)) 9 22)), None).
Proof.
  intros Hc. destruct (ident_first_facts m) as (_ & Hsum & Hh & _).
  pose proof Hc as (Hl & _ & _ & E16 & E17 & _).
  unfold reac_ctrl_identity_fragment. rewrite E16, E17, (carries_verify _ _ Hc Hsum).
  rewrite !(fragment_header frame _ _ _ Hc Hh) by lia.
  replace (zlen frame <? _) with false
    by (unfold REAC_CTRL_BLOCK_OFF, REAC_CTRL_BLOCK_LEN; lia).
  change ([4; 1; 0; 27; 0; 2; 0; 254; 22].[8]) with 22.
  rewrite (carries_slice frame _ 9 22 Hc) by lia. reflexivity.
Qed.

(** The thirty bytes the two fragments add up to. *)
Definition name_sysex (m : reac_box_model) : list Z :=
  [240; 65; 10; 0; 0; 18; 18] ++ name_record m ++ [dt1_check (name_record m); 247].

Lemma name_sysex_assembled m buf :
  zlen buf = 64 →
  let b1 := slice (build_ident_first m (zeros BLK)) 9 22 in
  let b2 := slice (build_ident_last m (zeros BLK)) 9 8 in
  ∃ rest, blit (blit buf 0 b1) 22 b2 = name_sysex m ++ rest.
Proof.
  intros Hb. cbv zeta. destruct (ident_first_facts m) as (_&_&_&->).
  destruct (ident_last_facts m) as (_&_&_&->).
  unfold name_sysex. generalize (dt1_check (name_record m)) as ck. intros ck.
  unfold name_record. name_bytes m. unfold zlen in Hb.
  do 30 (destruct buf as [|? buf]; [discriminate Hb|]).
  exists buf. reflexivity.
Qed.

Lemma name_sysex_facts m rest :
  let r := name_sysex m ++ rest in
  slice r 0 9 = [240; 65; 10; 0; 0; 18; 18; 5; 0] ∧ r.[29] = 247 ∧
  u16 (Z.lor (Z.shiftl r.[9] 8) r.[10]) = REAC_IDENTITY_ADDR_MODEL_NAME ∧
  slice r 11 17 = NAME_KIND :: name_field m ∧ zsum (slice r 7 22) mod 128 = 0.
Proof.
  cbv zeta. assert (Hs : slice (name_sysex m ++ rest) 7 22 =
                         name_record m ++ [dt1_check (name_record m)]).
  { unfold name_sysex. generalize (dt1_check (name_record m)) as ck. intros ck.
    unfold name_record. name_bytes m. reflexivity. }
  rewrite Hs. clear Hs. unfold name_sysex. split_and!.
  - generalize (dt1_check (name_record m)) as ck. intros. unfold name_record. name_bytes m.
    reflexivity.
  - generalize (dt1_check (name_record m)) as ck. intros. unfold name_record. name_bytes m.
    reflexivity.
  - reflexivity.
  - generalize (dt1_check (name_record m)) as ck. intros. unfold name_record. name_bytes m.
    reflexivity.
  - rewrite zsum_app. unfold dt1_check. rewrite !land_7f. unfold u8.
    generalize (zsum (name_record m)). intros z. unfold zsum. simpl. lia.
Qed.

Lemma ingest_name m id :
  sent_name m ≠ [] →
  reac_identity_ingest id REAC_IDENTITY_ADDR_MODEL_NAME (NAME_KIND :: name_field m)
    (zlen (NAME_KIND :: name_field m)) =
  (Identity (id_fw_milli id) (id_has_fw id) (sent_name m) true (id_major id)
     (id_minor id) (id_patch id) (id_raw id) (id_has_version id), 1).
Proof.
  intros Hne. unfold reac_identity_ingest. rewrite zlen_cons, zlen_name_field.
  cbn [Z.eqb Pos.eqb REAC_IDENTITY_ADDR_FIRMWARE REAC_IDENTITY_ADDR_MODEL_NAME].
  unfold store_model_name. change (slice (NAME_KIND :: name_field m) 1 _) with
    (slice (name_field m) 0 16). rewrite slice_full, cstr_name_field by (by rewrite zlen_name_field).
  destruct (zlen (sent_name m) =? 0) eqn:E; [|reflexivity].
  destruct (sent_name m); [done|]. rewrite zlen_cons in E. pose proof (zlen_nonneg l). lia.
Qed.

Lemma fragment_last m g frame :
  carries frame (build_ident_last m (zeros BLK)) →
  (reac_ctrl_identity_fragment g frame (zlen frame)).2 =
    if negb (fr_have_first g) || negb (zeqb (fr_src g) (slice frame 6 6)) || (64 <? fr_len g + 8)
    then None
    else
      let r := blit (fr_buf g) (fr_len g) (slice (build_ident_last m (zeros BLK)) 9 8) in
      let total := fr_len g + 8 in
      if (total <? 14) || negb (r.[0] =? 0xf0) || negb (r.[1] =? 0x41) || negb (r.[3] =? 0x00)
         || negb (r.[4] =? 0x00) || negb (r.[5] =? REAC_DT1_MODEL_LO)
         || negb (r.[6] =? REAC_DT1_CMD_DT1) || negb (r.[7] =? 0x05) || negb (r.[8] =? 0x00)
         || negb (r.[total - 1] =? 0xf7) then None
      else if negb (reac_ctrl_record_cksum_verify r 7 (total - 8)) then None
      else Some (u16 (Z.lor (Z.shiftl r.[9] 8) r.[10]), slice r 11 (total - 13)).
Proof.
  intros Hc. destruct (ident_last_facts m) as (_ & Hsum & Hh & _).
  pose proof Hc as (Hl & _ & _ & E16 & E17 & _).
  unfold reac_ctrl_identity_fragment. rewrite E16, E17, (carries_verify _ _ Hc Hsum).
  rewrite !(fragment_header frame _ _ _ Hc Hh) by lia.
  replace (zlen frame <? _) with false
    by (unfold REAC_CTRL_BLOCK_OFF, REAC_CTRL_BLOCK_LEN; lia).
  change ([4; 2; 0; 13; 0; 2; 0; 254; 8].[8]) with 8.
  rewrite (carries_slice frame _ 9 8 Hc) by lia.
  change ([4; 2; 0; 13; 0; 2; 0; 254; 8].[1]) with 2. cbn [negb orb andb Z.eqb Pos.eqb].
  destruct (negb (fr_have_first g) || _ || _); [reflexivity|].
  cbv zeta. by split_ifs.
Qed.

(** The name survives fragmentation: the two fragments a model sends, from
    one source, are reassembled into its record whatever the buffer held, and
    ingesting it stores the row's name (its first sixteen characters); a closing
    fragment from another source, or with no opening one, yields nothing. *)
Theorem identity_name_roundtrip (m : reac_box_model) (f : reac_identity_frag)
    (id : reac_identity) (first last : list Z) :
  m_has_identity_record m = true → zlen (fr_buf f) = 64 → sent_name m ≠ [] →
  carries first (reac_box_model_block m REAC_BOX_BLOCK_IDENT_FIRST).2 →
  carries last (reac_box_model_block m REAC_BOX_BLOCK_IDENT_LAST).2 →
  let '(f1, r1) := reac_ctrl_identity_fragment f first (zlen first) in
  let '(f2, r2) := reac_ctrl_identity_fragment f1 last (zlen last) in
  r1 = None ∧
  (slice last 6 6 = slice first 6 6 →
     ∃ payload, r2 = Some (REAC_IDENTITY_ADDR_MODEL_NAME, payload) ∧
       reac_identity_ingest id REAC_IDENTITY_ADDR_MODEL_NAME payload (zlen payload) =
         (Identity (id_fw_milli id) (id_has_fw id) (sent_name m) true (id_major id)
            (id_minor id) (id_patch id) (id_raw id) (id_has_version id), 1)) ∧
  (slice last 6 6 ≠ slice first 6 6 → r2 = None) ∧
  (fr_have_first f = false → (reac_ctrl_identity_fragment f last (zlen last)).2 = None).
Proof.
  intros Hi Hb Hne Hc1 Hc2. unfold reac_box_model_block in Hc1, Hc2. rewrite Hi in Hc1, Hc2.
  cbn [negb snd] in Hc1, Hc2. rewrite (fragment_first m f first Hc1).
  set (g := Frag _ _ _ _). pose proof (fragment_last m g last Hc2) as Hg.
  pose proof (fragment_last m f last Hc2) as Hf.
  destruct (reac_ctrl_identity_fragment g last (zlen last)) as [f2 r2]. cbn [snd] in Hg.
  rewrite Hg, Hf. clear Hg Hf. subst g. cbn [fr_have_first fr_src fr_len fr_buf]. split_and!.
  - done.
  - intros ->. rewrite zeqb_refl. change (22 + 8) with 30. cbn [negb orb].
    change (64 <? 30) with false. cbv iota zeta.
    destruct (name_sysex_assembled m (fr_buf f) Hb) as [rest ->].
    destruct (name_sysex_facts m rest) as (Hh & H29 & Ha & Hp & Hs).
    set (r := name_sysex m ++ rest) in *.
    assert (Hrd : ∀ k, 0 ≤ k < 9 → r.[k] = [240; 65; 10; 0; 0; 18; 18; 5; 0].[k]).
    { intros k Hk. rewrite <- Hh. by rewrite rd_slice by lia. }
    rewrite !Hrd by lia. change (30 - 1) with 29. rewrite H29.
    apply record_verify_iff in Hs. change (30 - 8) with 22. rewrite Hs, Ha.
    change (30 - 13) with 17. rewrite Hp. eexists. split; [reflexivity|].
    apply ingest_name; done.
  - intros Hsrc. replace (zeqb (slice first 6 6) (slice last 6 6)) with false; [done|].
    symmetry. apply zeqb_neq. congruence.
  - by intros ->.
Qed.

Lemma identity_name_roundtrip_witness :
  let mac := [0; 64; 171; 1; 2; 3] in
  let first := wrap_block mac (reac_box_model_block row_s0808 REAC_BOX_BLOCK_IDENT_FIRST).2 in
  let last := wrap_block mac (reac_box_model_block row_s0808 REAC_BOX_BLOCK_IDENT_LAST).2 in
  ∃ payload,
    (reac_ctrl_identity_fragment
       (reac_ctrl_identity_fragment frag_zero first (zlen first)).1 last (zlen last)).2
    = Some (REAC_IDENTITY_ADDR_MODEL_NAME, payload).
Proof.
  intros mac first last.
  assert (H1 : carries first (reac_box_model_block row_s0808 REAC_BOX_BLOCK_IDENT_FIRST).2)
    by (vm_compute; repeat split; congruence).
  assert (H2 : carries last (reac_box_model_block row_s0808 REAC_BOX_BLOCK_IDENT_LAST).2)
    by (vm_compute; repeat split; congruence).
  pose proof (identity_name_roundtrip row_s0808 frag_zero reac_identity_init first last
                eq_refl eq_refl ltac:(discriminate) H1 H2) as H.
  assert (Hs : slice last 6 6 = slice first 6 6) by (vm_compute; reflexivity).
  clearbody first last. revert H.
  destruct (reac_ctrl_identity_fragment frag_zero first (zlen first)) as [f1 r1]. cbn [fst].
  destruct (reac_ctrl_identity_fragment f1 last (zlen last)) as [f2 r2]. cbn [snd].
  intros (_ & H & _). destruct (H Hs) as (p & Hp & _). by exists p.
Defined.

(** ** The catalogue recognises its own boxes *)

(** Each row is found by its token and by its declaration, and declares a
    legal frame width. *)
Definition row_recognised (m : reac_box_model) : Prop :=
  reac_box_catalogue_by_token (Some (m_token m)) = Some m ∧
  find_row (row_declares (reac_box_model_block m REAC_BOX_BLOCK_CONFIG).2) = Some m ∧
  reac_box_width_ok (reac_box_model_upstream_width (Some m)) = true ∧
  is_declaration (reac_box_model_block m REAC_BOX_BLOCK_CONFIG).2 = true.

Lemma rows_recognised m : m ∈ BOX_CATALOGUE → row_recognised m.
Proof.
  intros Hin.
  repeat (apply elem_of_cons in Hin as [->|Hin]; [vm_compute; by split_and!|]).
  by apply not_elem_of_nil in Hin.
Qed.

Lemma declaration_kind op :
  (op =? REAC_OP_DECL) || (op =? REAC_OP_DECL_ALT) || (op =? REAC_OP_DECL_OTHER) = true →
  kind_of_link1 op = REAC_CTRL_CONFIG_ANNOUNCE.
Proof.
  unfold REAC_OP_DECL, REAC_OP_DECL_ALT, REAC_OP_DECL_OTHER. intros H.
  assert (op = 130 ∨ op = 128 ∨ op = 132) as [-> | [-> | ->]] by lia; reflexivity.
Qed.

(** Every row of the catalogue is reachable and recognisable: its token finds
    that row and no other, its frame width is a legal box width, and any frame
    carrying its synthesised declaration, whatever its addresses, counter and
    audio, is recognised as exactly that row. *)
Theorem catalogue_recognises (m : reac_box_model) (frame : list Z) :
  m ∈ BOX_CATALOGUE → carries frame (reac_box_model_block m REAC_BOX_BLOCK_CONFIG).2 →
  reac_box_catalogue_match frame (zlen frame) = Some m ∧
  reac_box_catalogue_by_token (Some (m_token m)) = Some m ∧
  reac_box_width_ok (reac_box_model_upstream_width (Some m)) = true.
Proof.
  intros Hin Hc. destruct (rows_recognised m Hin) as (Ht & Hf & Hw & Hd).
  split_and!; [|done|done]. set (blk := (reac_box_model_block _ _).2) in *. clearbody blk.
  pose proof Hc as (Hl & E12 & E13 & E16 & E17 & Hs).
  unfold is_declaration in Hd. rewrite !andb_true_iff in Hd. destruct Hd as ((H0 & H1) & Hop).
  unfold reac_box_catalogue_match. rewrite E12, E13, E16, E17, Hs, Hf.
  replace (zlen frame <? REAC_CTRL_BLOCK_OFF + 32) with false
    by (unfold REAC_CTRL_BLOCK_OFF; lia).
  replace (p_kind _) with REAC_CTRL_CONFIG_ANNOUNCE; [reflexivity|].
  unfold reac_ctrl_parse, AUDIO_OFF, TYPE_OFF. change (16 + 1) with 17.
  rewrite E12, E13, E16, E17, !(carries_rd frame blk _ Hc) by lia. rewrite H0.
  replace (zlen frame <? 50) with false by lia. simpl. by rewrite declaration_kind.
Qed.

Lemma catalogue_recognises_witness :
  let frame := wrap_block (zeros 6) (reac_box_model_block row_s4000s REAC_BOX_BLOCK_CONFIG).2 in
  reac_box_catalogue_match frame (zlen frame) = Some row_s4000s.
Proof.
  intros frame. apply (catalogue_recognises row_s4000s frame); [right; right; left|].
  vm_compute; repeat split; congruence.
Defined.
