(* ===== verification/BoxFacts.v ===== *)
(** * BoxFacts: what a connected box is, and the name it goes by

    Models [src/reac_box_facts.c] (the hardware family of an identity page, the
    bounded string builder, the derived model name and the catalogue defect
    mask) and [src/reac_macaddr.c] (the address an emitting role composes, and
    an address packed into a 64-bit word). A string is the list of its
    character codes, without the terminator; a [NULL] string or buffer is
    [None]. *)

From Stdlib Require String.
From S2P Require Import Prelude Wire CtrlBlk Identity BoxModel.
Import String.StringSyntax.
Local Open Scope Z_scope.

(** ** Families *)

Inductive reac_box_family :=
| REAC_BOX_FAMILY_UNKNOWN | REAC_BOX_FAMILY_S0808 | REAC_BOX_FAMILY_S1608 | REAC_BOX_FAMILY_S4000S.

#[global] Instance reac_box_family_eq_dec : EqDecision reac_box_family.
Proof. solve_decision. Defined.

(** The enumerator of a stored [uint8_t]; [reac_box_family_stem] takes any
    other value through its [default]. *)
Definition family_of_byte (b : Z) : reac_box_family :=
  if b =? 1 then REAC_BOX_FAMILY_S0808
  else if b =? 2 then REAC_BOX_FAMILY_S1608
  else if b =? 3 then REAC_BOX_FAMILY_S4000S
  else REAC_BOX_FAMILY_UNKNOWN.

Definition HW_FAMILY : list (reac_box_family * list Z) :=
  [(REAC_BOX_FAMILY_S0808, [0; 0; 0; 1; 0; 0; 0; 0]);
   (REAC_BOX_FAMILY_S1608, [0; 0; 0; 2; 0; 3; 0; 2]);
   (REAC_BOX_FAMILY_S4000S, [0; 0; 0; 2; 0; 1; 0; 2])].

(** The first row whose hw block is the 0x0600 record. *)
Definition reac_box_family_of (id : option reac_identity) : reac_box_family :=
  match id with
  | Some id =>
      if id_has_version id then
        match filter (λ row, id_raw id = row.2) HW_FAMILY with
        | row :: _ => row.1
        | [] => REAC_BOX_FAMILY_UNKNOWN
        end
      else REAC_BOX_FAMILY_UNKNOWN
  | None => REAC_BOX_FAMILY_UNKNOWN
  end.

Definition reac_box_family_stem (f : reac_box_family) : list Z :=
  match f with
  | REAC_BOX_FAMILY_S0808 => str "S-0808"
  | REAC_BOX_FAMILY_S1608 => str "S-1608"
  | REAC_BOX_FAMILY_S4000S => str "S-4000S"
  | REAC_BOX_FAMILY_UNKNOWN => str "REAC"
  end.

(** ** The bounded string builder *)

(** [n] is the length of what [p] holds. *)
Record sb := Sb { sb_p : list Z; sb_cap : Z; sb_over : bool }.
Definition sb_n (b : sb) : Z := zlen (sb_p b).
Definition sb_new (cap : Z) : sb := Sb [] cap false.

Definition sb_ch (b : sb) (c : Z) : sb :=
  if sb_cap b <=? sb_n b + 1 then Sb (sb_p b) (sb_cap b) true
  else Sb (sb_p b ++ [c]) (sb_cap b) (sb_over b).

Definition sb_str (b : sb) (s : list Z) : sb := foldl sb_ch b s.

(** The digits of [v], least significant first, at most three. *)
Definition sb_digits (v min_digits : Z) : list Z :=
  let d := uint_digits 3 v in
  d ++ fill (Z.min min_digits 3 - zlen d) (digit 0).

Definition sb_dec (b : sb) (v min_digits : Z) : sb := sb_str b (rev (sb_digits v min_digits)).

(** ** The derived name *)

Definition REAC_BOX_NAME_MAX : Z := 24.
Definition REAC_BOX_NAME_TOKEN_MAX : Z := 24.
Definition REAC_BOX_NAME_DISPLAY_MAX : Z := 48.

Definition ends_with_widths (stem w4 : list Z) : bool :=
  (4 <=? zlen stem) && zeqb (slice stem (zlen stem - 4) 4) (slice w4 0 4).

(** The widths a name is refused for. *)
Definition bad_widths (in_ch out_ch : Z) : bool :=
  (negb (in_ch =? 0) && negb (reac_box_width_ok in_ch)) ||
  (negb (out_ch =? 0) && negb (reac_box_width_ok out_ch)) ||
  ((in_ch =? 0) && (out_ch =? 0)).

(** The stem: what the box said, else its family's. *)
Definition name_stem (f : reac_box_family) (said_name : option (list Z)) : list Z :=
  match said_name with Some (c :: s) => c :: s | _ => reac_box_family_stem f end.

Definition width_digits (in_ch out_ch : Z) : sb := sb_dec (sb_dec (sb_new 5) in_ch 2) out_ch 2.

Definition name_of (stem : list Z) (wb : sb) : sb :=
  let nb := sb_str (sb_new REAC_BOX_NAME_MAX) stem in
  if (sb_n wb =? 4) && ends_with_widths stem (sb_p wb) then nb
  else sb_str (sb_ch nb 45) (sb_p wb).

Definition lower (c : Z) : Z := if (65 <=? c) && (c <=? 90) then c - 65 + 97 else c.

(** The token loop: the first dash dropped, the capitals folded. *)
Definition token_step (st : sb * bool) (c : Z) : sb * bool :=
  let '(tb, dropped) := st in
  if (c =? 45) && negb dropped then (tb, true) else (sb_ch tb (lower c), dropped).
Definition token_of (nm : list Z) : sb :=
  (foldl token_step (sb_new REAC_BOX_NAME_TOKEN_MAX, false) nm).1.

Definition display_of (nm : list Z) (in_ch out_ch : Z) : sb :=
  let db := sb_str (sb_new REAC_BOX_NAME_DISPLAY_MAX) nm in
  let db := sb_dec (sb_str db (str " (")) in_ch 1 in
  let db := sb_dec (sb_str db (str " in / ")) out_ch 1 in
  sb_str db (str " out)").

(** [None] is the -1 return; the three capacities are those of non-[NULL]
    buffers, and a [NULL] buffer has none. *)
Definition reac_box_name (f : reac_box_family) (said_name : option (list Z)) (in_ch out_ch : Z)
    (name_len token_len display_len : option Z) : option (list Z * list Z * list Z) :=
  match name_len, token_len, display_len with
  | Some name_len, Some token_len, Some display_len =>
      if (name_len =? 0) || (token_len =? 0) || (display_len =? 0) then None
      else if bad_widths in_ch out_ch then None
      else
        let wb := width_digits in_ch out_ch in
        let nb := name_of (name_stem f said_name) wb in
        let tb := token_of (sb_p nb) in
        let db := display_of (sb_p nb) in_ch out_ch in
        if sb_over wb || sb_over nb || sb_over tb || sb_over db ||
           (name_len <=? sb_n nb) || (token_len <=? sb_n tb) || (display_len <=? sb_n db)
        then None
        else Some (sb_p nb, sb_p tb, sb_p db)
  | _, _, _ => None
  end.

Definition REAC_BOX_DEFECT_WIDTH : Z := 1.
Definition REAC_BOX_DEFECT_NAME : Z := 2.

Definition reac_box_catalogue_defect (entry : option reac_box_model) (in_ch out_ch : Z)
    (display : option (list Z)) : Z :=
  match entry with
  | None => 0
  | Some e =>
      let mask := if negb (m_in_ch e =? in_ch) || negb (m_out_ch e =? out_ch)
                  then REAC_BOX_DEFECT_WIDTH else 0 in
      match display with
      | Some d => if zeqb (m_display e) d then mask else Z.lor mask REAC_BOX_DEFECT_NAME
      | None => mask
      end
  end.

(** ** Addresses *)

Definition ARPHRD_ETHER : Z := 1.
Definition fallback_mac : list Z := [0x02; 0x00; 0x00; 0x00; 0x00; 0x01].

(** The address and the C return value. *)
Definition reac_mac_compose (hw_family : Z) (hwaddr : option (list Z)) : list Z * Z :=
  match hwaddr with
  | Some hw => if hw_family =? ARPHRD_ETHER then (hw, 0) else (fallback_mac, -1)
  | None => (fallback_mac, -1)
  end.
Definition reac_mac_fallback : list Z * Z := (fallback_mac, -1).
Definition reac_mac_roland_standin (hwaddr : list Z) : list Z :=
  [0x00; 0x40; 0xab; hwaddr.[3]; hwaddr.[4]; hwaddr.[5]].

Definition reac_mac48_pack (mac : option (list Z)) : Z :=
  match mac with
  | None => 0
  | Some mac => foldl (λ v i, u64 (Z.lor (Z.shiftl v 8) mac.[i])) 0 (zseq 0 6)
  end.

(** [out[5]] is written first, from the low byte. *)
Definition reac_mac48_unpack (packed : Z) : list Z :=
  (λ i, Z.land (Z.shiftr packed (8 * (5 - i))) 0xff) <$> zseq 0 6.

Example name_s1608 : reac_box_name REAC_BOX_FAMILY_S1608 None 16 8 (Some 24) (Some 24) (Some 48)
  = Some (str "S-1608", str "s1608", str "S-1608 (16 in / 8 out)").
Proof. reflexivity. Qed.

Example name_s4000s : reac_box_name REAC_BOX_FAMILY_S4000S None 32 8 (Some 24) (Some 24) (Some 48)
  = Some (str "S-4000S-3208", str "s4000s-3208", str "S-4000S-3208 (32 in / 8 out)").
Proof. reflexivity. Qed.
