(* ===== verification/Disco.v ===== *)
(** * Disco: what is on this segment

    Models [src/reac_disco.c]: the passive classifier of one frame into a
    sighting (with the segment's peer lock), the announce gate of the pacer
    thread, the sighting table of the main thread with its ageing loop, and the
    JSON snapshot. The C arrays [e[REAC_DISCO_MAX]] with their count [n] are the
    list of their first [n] entries. Times are 64-bit nanoseconds; every
    subtraction of this file is guarded by a comparison, so none wraps. *)

From Stdlib Require String.
From S2P Require Import Prelude Wire CtrlBlk Identity BoxModel BoxFacts.
Import String.StringSyntax.
Local Open Scope Z_scope.

Definition REAC_DISCO_MAX : Z := 8.
Definition REAC_DISCO_STALE_NS : Z := 5 * 1000000000.
Definition REAC_DISCO_REFRESH_NS : Z := 1 * 1000000000.
Definition REAC_DISCO_JSON_MAX : Z := 1280.
Definition UINT32_MAX : Z := 2 ^ 32 - 1.

(** ** Sightings *)

Inductive reac_disco_role :=
| REAC_DISCO_ROLE_UNKNOWN | REAC_DISCO_ROLE_BOX | REAC_DISCO_ROLE_MASTER.

#[global] Instance reac_disco_role_eq_dec : EqDecision reac_disco_role.
Proof. solve_decision. Defined.

Definition reac_disco_role_name (r : reac_disco_role) : list Z :=
  match r with
  | REAC_DISCO_ROLE_BOX => str "box"
  | REAC_DISCO_ROLE_MASTER => str "master"
  | REAC_DISCO_ROLE_UNKNOWN => str "unknown"
  end.

Record reac_disco_sighting := Sighting {
  s_mac : list Z; s_role : reac_disco_role; s_has_decl : bool; s_decl_in : Z; s_decl_out : Z;
  s_family : Z; s_announced_slots : Z; s_channels : Z
}.

Definition is_box_join (p : reac_ctrl_parsed) : bool :=
  (p_opcode p =? 0x00) &&
  ((p_dt1_tag p =? REAC_DT1_TAG_JOIN) || (p_dt1_tag p =? REAC_DT1_TAG_BOX_READY)
   || (p_dt1_tag p =? REAC_DT1_TAG_IDENTITY)).

Definition role_of (p : reac_ctrl_parsed) : reac_disco_role :=
  match p_kind p with
  | REAC_CTRL_FILLER => if p_is_broadcast p then REAC_DISCO_ROLE_UNKNOWN else REAC_DISCO_ROLE_BOX
  | REAC_CTRL_MASTER_ANNOUNCE | REAC_CTRL_MASTER_HB => REAC_DISCO_ROLE_MASTER
  | REAC_CTRL_BOX_HB => REAC_DISCO_ROLE_BOX
  | REAC_CTRL_HEADAMP => REAC_DISCO_ROLE_MASTER
  | REAC_CTRL_GRANT => if is_box_join p then REAC_DISCO_ROLE_BOX else REAC_DISCO_ROLE_MASTER
  | REAC_CTRL_CONFIG_ANNOUNCE => REAC_DISCO_ROLE_BOX
  | REAC_CTRL_SCENE_TRANSFER => REAC_DISCO_ROLE_MASTER
  | _ => REAC_DISCO_ROLE_UNKNOWN
  end.

Record reac_disco_peer_lock := PeerLock { lk_mac : list Z; lk_locked : bool }.
Definition reac_disco_peer_lock_init : reac_disco_peer_lock := PeerLock (zeros 6) false.

(** The slot total of a master announce, 0 for any other frame. *)
Definition announced_slots_of (frame : list Z) (len : Z) : Z :=
  let cb i := frame.[REAC_CTRL_BLOCK_OFF + i] in
  if (REAC_CTRL_BLOCK_OFF + REAC_CTRL_BLOCK_LEN <=? len) && (frame.[16] =? 0xcf)
     && (frame.[17] =? 0xea) && (cb 4 =? 0x01) && (cb 5 =? 0x03) && (cb 6 =? 0x0d)
     && (cb 7 =? 0x01) && (cb 8 =? 0x04)
  then cb 15 else 0.

(** The widths of a config announce whose two widths are legal. *)
Definition declared_of (frame : list Z) (len : Z) : option (Z * Z) :=
  if REAC_CTRL_BLOCK_OFF + REAC_CTRL_BLOCK_LEN <=? len then
    match reac_ports_parse (slice frame REAC_CTRL_BLOCK_OFF REAC_CTRL_BLOCK_LEN) with
    | Some ports =>
        if (0 <=? bp_in_ch ports) && (bp_in_ch ports <=? REAC_MAX_CHANNELS)
           && (0 <=? bp_out_ch ports) && (bp_out_ch ports <=? REAC_MAX_CHANNELS)
        then Some (u8 (bp_in_ch ports), u8 (bp_out_ch ports)) else None
    | None => None
    end
  else None.

(** What [classify_core] writes into [*out]. *)
Definition sighting_of (frame : list Z) (len : Z) (p : reac_ctrl_parsed) : reac_disco_sighting :=
  let decl := declared_of frame len in
  Sighting (p_src p) (role_of p) (bool_decide (is_Some decl)) (default (0, 0) decl).1
    (default (0, 0) decl).2 0 (announced_slots_of frame len) (reac_frame_channels len).

(** The lock after the call, and the sighting; [None] is the -1 return. *)
Definition classify_core (lock : option reac_disco_peer_lock) (frame : list Z) (len : Z)
    (our_mac : list Z) : option reac_disco_peer_lock * option reac_disco_sighting :=
  let p := reac_ctrl_parse frame len in
  let seen := Some (sighting_of frame len p) in
  match p_kind p with
  | REAC_CTRL_NONE => (lock, None)
  | REAC_CTRL_FILLER =>
      if zeqb (p_src p) our_mac then (lock, None)
      else match lock with
           | Some l => if lk_locked l && negb (zeqb (lk_mac l) (p_src p)) then (lock, None)
                       else (lock, seen)
           | None => (lock, seen)
           end
  | _ =>
      if zeqb (p_src p) our_mac then (lock, None)
      else if negb (reac_ctrl_checksum_verify frame) then (lock, None)
      else match lock with
           | Some l => (Some (if lk_locked l then l else PeerLock (p_src p) true), seen)
           | None => (None, seen)
           end
  end.

Definition reac_disco_classify (frame : list Z) (len : Z) (our_mac : list Z)
    : option reac_disco_sighting := (classify_core None frame len our_mac).2.

Definition reac_disco_classify_on_segment (lock : reac_disco_peer_lock) (frame : list Z) (len : Z)
    (our_mac : list Z) : reac_disco_peer_lock * option reac_disco_sighting :=
  let '(l, s) := classify_core (Some lock) frame len our_mac in (default lock l, s).

(** ** The announce gate *)

Record reac_disco_gate_entry := GateEntry {
  g_mac : list Z; g_role : reac_disco_role; g_decl_key : Z; g_announced_slots : Z;
  g_last_push_ns : Z
}.
Definition reac_disco_gate_init : list reac_disco_gate_entry := [].

Definition decl_key_of (s : reac_disco_sighting) : Z :=
  if s_has_decl s then Z.lor (Z.shiftl (s_decl_in s) 8) (s_decl_out s) else -1.

Definition role_known (r : reac_disco_role) : bool := negb (bool_decide (r = REAC_DISCO_ROLE_UNKNOWN)).

(** The facts about a known MAC sharpened. *)
Definition gate_edge (e : reac_disco_gate_entry) (s : reac_disco_sighting) : bool :=
  (role_known (s_role s) && negb (bool_decide (s_role s = g_role e)))
  || ((0 <=? decl_key_of s) && negb (decl_key_of s =? g_decl_key e))
  || (negb (s_announced_slots s =? 0) && negb (s_announced_slots s =? g_announced_slots e)).

Definition gate_sharpen (e : reac_disco_gate_entry) (s : reac_disco_sighting) (now_ns : Z)
    : reac_disco_gate_entry :=
  GateEntry (g_mac e)
    (if role_known (s_role s) then s_role s else g_role e)
    (if 0 <=? decl_key_of s then decl_key_of s else g_decl_key e)
    (if negb (s_announced_slots s =? 0) then s_announced_slots s else g_announced_slots e)
    now_ns.

Definition gate_refresh (e : reac_disco_gate_entry) (now_ns : Z) : reac_disco_gate_entry :=
  GateEntry (g_mac e) (g_role e) (g_decl_key e) (g_announced_slots e) now_ns.

(** The verdict on the entry of the sighting's MAC. *)
Definition gate_known (e : reac_disco_gate_entry) (s : reac_disco_sighting) (now_ns : Z)
    : reac_disco_gate_entry * bool :=
  if gate_edge e s then (gate_sharpen e s now_ns, true)
  else if (now_ns <? g_last_push_ns e) || (REAC_DISCO_REFRESH_NS <=? now_ns - g_last_push_ns e)
  then (gate_refresh e now_ns, true)
  else (e, false).

(** The index of the first entry of a MAC. *)
Definition index_of {A} (mac_of : A → list Z) (mac : list Z) (l : list A) : option (nat * A) :=
  list_find (λ x, mac_of x = mac) l.

Definition reac_disco_gate_should_push (g : list reac_disco_gate_entry) (s : reac_disco_sighting) (now_ns : Z)
    : list reac_disco_gate_entry * bool :=
  match index_of g_mac (s_mac s) g with
  | Some (i, e) => let '(e, push) := gate_known e s now_ns in (<[i := e]> g, push)
  | None =>
      if REAC_DISCO_MAX <=? zlen g then (g, false)
      else (g ++ [GateEntry (s_mac s) (s_role s) (decl_key_of s) (s_announced_slots s) now_ns], true)
  end.

(** ** The table *)

Record reac_disco_entry := Entry {
  e_mac : list Z; e_role : reac_disco_role; e_has_decl : bool; e_decl_in : Z; e_decl_out : Z;
  e_family : Z; e_announced_slots : Z; e_channels : Z; e_owned : bool; e_frames : Z;
  e_first_seen_ns : Z; e_last_seen_ns : Z
}.

Record reac_disco_table := Table {
  t_e : list reac_disco_entry; t_overflowed : bool; t_seq : Z
}.
Definition reac_disco_table_init : reac_disco_table := Table [] false 0.
Definition t_n (t : reac_disco_table) : Z := zlen (t_e t).

Definition find (t : reac_disco_table) (mac : list Z) : option (nat * reac_disco_entry) :=
  index_of e_mac mac (t_e t).

(** The role of a known peer after a sighting, and whether it moved. *)
Definition role_moves (e : reac_disco_entry) (s : reac_disco_sighting) : bool :=
  role_known (s_role s) && negb (bool_decide (e_role e = s_role s))
  && negb (bool_decide (e_role e = REAC_DISCO_ROLE_BOX)
           && bool_decide (s_role s = REAC_DISCO_ROLE_MASTER)).
Definition decl_moves (e : reac_disco_entry) (s : reac_disco_sighting) : bool :=
  s_has_decl s && (negb (e_has_decl e) || negb (e_decl_in e =? s_decl_in s)
                   || negb (e_decl_out e =? s_decl_out s)).
Definition slots_move (e : reac_disco_entry) (s : reac_disco_sighting) : bool :=
  negb (s_announced_slots s =? 0) && negb (e_announced_slots e =? s_announced_slots s).
Definition family_moves (e : reac_disco_entry) (s : reac_disco_sighting) : bool :=
  negb (s_family s =? 0) && negb (e_family e =? s_family s).

(** A re-sighting: the entry after it, and whether a fact changed. *)
Definition entry_observe (e : reac_disco_entry) (s : reac_disco_sighting) (owned : bool)
    (now_ns : Z) : reac_disco_entry * bool :=
  let wider := e_channels e <? s_channels s in
  let newly_owned := owned && negb (e_owned e) in
  (Entry (e_mac e)
     (if role_moves e s then s_role s else e_role e)
     (if decl_moves e s then true else e_has_decl e)
     (if decl_moves e s then s_decl_in s else e_decl_in e)
     (if decl_moves e s then s_decl_out s else e_decl_out e)
     (if family_moves e s then s_family s else e_family e)
     (if slots_move e s then s_announced_slots s else e_announced_slots e)
     (if wider then s_channels s else e_channels e)
     (if newly_owned then true else e_owned e)
     (if negb (e_frames e =? UINT32_MAX) then e_frames e + 1 else e_frames e)
     (e_first_seen_ns e) now_ns,
   role_moves e s || decl_moves e s || slots_move e s || family_moves e s || wider || newly_owned).

Definition entry_new (s : reac_disco_sighting) (owned : bool) (now_ns : Z) : reac_disco_entry :=
  Entry (s_mac s) (s_role s) (s_has_decl s) (s_decl_in s) (s_decl_out s) (s_family s)
    (s_announced_slots s) (s_channels s) owned 1 now_ns now_ns.

Definition reac_disco_table_observe (t : reac_disco_table) (s : reac_disco_sighting) (owned : bool)
    (now_ns : Z) : reac_disco_table * bool :=
  match find t (s_mac s) with
  | Some (i, e) =>
      let '(e, changed) := entry_observe e s owned now_ns in
      (Table (<[i := e]> (t_e t)) (t_overflowed t)
         (if changed then u32 (t_seq t + 1) else t_seq t), changed)
  | None =>
      if REAC_DISCO_MAX <=? t_n t then
        (if t_overflowed t then t else Table (t_e t) true (u32 (t_seq t + 1)), false)
      else (Table (t_e t ++ [entry_new s owned now_ns]) (t_overflowed t) (u32 (t_seq t + 1)), true)
  end.

(** The staleness bar. *)
Definition stale (now_ns : Z) (e : reac_disco_entry) : bool :=
  (e_last_seen_ns e <? now_ns) && (REAC_DISCO_STALE_NS <? now_ns - e_last_seen_ns e).

(** [t->e[i] = t->e[t->n - 1]; t->n--]. *)
Definition swap_remove (i : nat) (l : list reac_disco_entry) : list reac_disco_entry :=
  match last l with
  | Some x => take (length l - 1) (<[i := x]> l)
  | None => l
  end.

(** The ageing loop, a step per unit of fuel; [None] when the fuel runs out. *)
Fixpoint age_loop (fuel : nat) (now_ns : Z) (i : nat) (l : list reac_disco_entry) (removed : Z)
    : option (list reac_disco_entry * Z) :=
  match l !! i with
  | None => Some (l, removed)
  | Some e =>
      match fuel with
      | O => None
      | S fuel =>
          if stale now_ns e then age_loop fuel now_ns i (swap_remove i l) (removed + 1)
          else age_loop fuel now_ns (S i) l removed
      end
  end.

Definition reac_disco_table_age (t : reac_disco_table) (now_ns : Z) : reac_disco_table * Z :=
  match age_loop (length (t_e t)) now_ns 0 (t_e t) 0 with
  | Some (l, removed) =>
      (Table l (t_overflowed t) (if negb (removed =? 0) then u32 (t_seq t + 1) else t_seq t), removed)
  | None => (t, 0)
  end.

(** ** The JSON snapshot *)

Definition quote : Z := 34.
Definition quoted (s : list Z) : list Z := [quote] ++ s ++ [quote].
(** A comma, the quoted key and a colon. *)
Definition key (k : list Z) : list Z := [44] ++ quoted k ++ [58].

(** [%02x], [%d] and [%llu] of a non-negative value. *)
Definition hex_digit (v : Z) : Z := if v <? 10 then 48 + v else 97 + (v - 10).
Definition hex2 (b : Z) : list Z := [hex_digit (b / 16); hex_digit (b mod 16)].
Definition dec_str (v : Z) : list Z := rev (uint_digits 20 v).

Definition mac_str (m : list Z) : list Z :=
  hex2 m.[0] ++ [58] ++ hex2 m.[1] ++ [58] ++ hex2 m.[2] ++ [58] ++ hex2 m.[3] ++ [58] ++
  hex2 m.[4] ++ [58] ++ hex2 m.[5].

(** [PUT]: the text so far with [s] after it, or [None] when it does not fit
    with its terminator. *)
Definition PUT (cap : Z) (s : list Z) (buf : list Z) : option (list Z) :=
  if cap - zlen buf <=? zlen s then None else Some (buf ++ s).

Definition entry_name (e : reac_disco_entry) : option (list Z) :=
  if e_has_decl e then
    match reac_box_name (family_of_byte (e_family e)) None (e_decl_in e) (e_decl_out e)
            (Some REAC_BOX_NAME_MAX) (Some REAC_BOX_NAME_TOKEN_MAX) (Some REAC_BOX_NAME_DISPLAY_MAX) with
    | Some (_, tok, _) => Some tok
    | None => None
    end
  else None.

(** The texts one entry puts, in order; [i] is its index. *)
Definition entry_puts (i : nat) (e : reac_disco_entry) (now_ns : Z) : list (list Z) :=
  let age_ns := if e_last_seen_ns e <? now_ns then now_ns - e_last_seen_ns e else 0 in
  [(if (i =? 0)%nat then [] else [44]) ++ [123] ++ quoted (str "mac") ++ [58] ++ quoted (mac_str (e_mac e));
   key (str "role") ++ quoted (reac_disco_role_name (e_role e))] ++
  match entry_name e with
  | Some tok => [key (str "model") ++ quoted tok;
                 key (str "width") ++ quoted (dec_str (e_decl_in e) ++ [120] ++ dec_str (e_decl_out e))]
  | None => [key (str "model") ++ quoted (str "unknown"); key (str "width") ++ quoted (str "0x0")]
  end ++
  [key (str "owned") ++ (if e_owned e then str "true" else str "false");
   key (str "age_ms") ++ dec_str (age_ns / 1000000) ++ [125]].

Definition puts (cap : Z) (ss : list (list Z)) (buf : option (list Z)) : option (list Z) :=
  foldl (λ buf s, buf ≫= PUT cap s) buf ss.

(** The text, whose length is the C return value; [None] is the -1 return. *)
Definition reac_disco_table_json (t : reac_disco_table) (now_ns cap : Z) : option (list Z) :=
  if cap <? 3 then None
  else
    puts cap [[93]]
      (puts cap (concat (imap (λ i e, entry_puts i e now_ns) (t_e t)))
         (PUT cap [91] [])).
