(* ===== verification/DiscoTable.v ===== *)
(** * DiscoTable: the sighting table corroborates

    The table of [src/reac_disco.c] against the history it stands for. The
    abstract machine keeps, for every MAC in the table, the list of its
    observations since it was last let in; the C entry is what that history
    sums up to (the strongest role, the latest declaration, the widest
    geometry, a saturating count, the first and the last time). Ageing is the
    loop that swaps a stale entry with the last one; it is shown to terminate
    and to withdraw exactly the stale entries. *)

From stdpp Require Import gmap.
From S2P Require Import Prelude Wire CtrlBlk Identity BoxModel BoxFacts Disco.
Local Open Scope Z_scope.

(** ** The ageing loop *)

(** Heard within the staleness bar. *)
Definition fresh (now : Z) (e : reac_disco_entry) : Prop := stale now e = false.
#[global] Instance fresh_dec now e : Decision (fresh now e).
Proof. apply bool_eq_dec. Defined.

Lemma swap_remove_perm i l e :
  l !! i = Some e →
  length (swap_remove i l) = (length l - 1)%nat ∧ take i (swap_remove i l) = take i l ∧
  drop i (swap_remove i l) ≡ₚ drop (S i) l.
Proof.
  intros Hi. unfold swap_remove. destruct (last l) as [x|] eqn:Hl; cycle 1.
  { apply last_None in Hl as ->. done. }
  apply last_Some in Hl as [k ->]. pose proof (lookup_lt_Some _ _ _ Hi) as Hlt.
  rewrite !length_app in *. simpl in *. replace (length k + 1 - 1)%nat with (length k) by lia.
  destruct (decide (i = length k)) as [->|Hne].
  - rewrite insert_app_r_alt, Nat.sub_diag by lia. simpl. rewrite take_app_length.
    rewrite take_ge, !drop_ge by (rewrite ?length_app; simpl; lia). done.
  - rewrite insert_app_l, take_app_le, take_ge by (rewrite ?length_insert; lia).
    rewrite length_insert, take_insert_ge, (take_app_le k) by lia. split_and!; [done|done|].
    rewrite drop_insert_ge, Nat.sub_diag by lia.
    destruct (drop i k) as [|y k'] eqn:Hd.
    { apply (f_equal length) in Hd. rewrite length_drop in Hd. simpl in Hd. lia. }
    rewrite (drop_app_le k) by lia. rewrite <- Nat.add_1_r, <- drop_drop, Hd. simpl.
    by rewrite drop_0, Permutation_app_comm.
Qed.

(** Every iteration shortens the part still to be looked at by one. *)
Lemma age_loop_run now fuel i l r :
  (length l - i ≤ fuel)%nat → (i ≤ length l)%nat →
  ∃ l', age_loop fuel now i l r = Some (l', r + (zlen l - zlen l')) ∧
    l' ≡ₚ take i l ++ filter (fresh now) (drop i l).
Proof.
  revert i l r; induction fuel as [|fuel IH]; intros i l r Hf Hi; simpl.
  - rewrite lookup_ge_None_2 by lia. exists l. rewrite drop_ge, take_ge by lia. simpl.
    rewrite app_nil_r. split; [|done]. repeat f_equal; lia.
  - destruct (l !! i) as [e|] eqn:He; cycle 1.
    { apply lookup_ge_None in He. exists l. rewrite drop_ge, take_ge by lia. simpl.
      rewrite app_nil_r. split; [|done]. repeat f_equal; lia. }
    pose proof (lookup_lt_Some _ _ _ He). rewrite (drop_S _ _ _ He), filter_cons.
    destruct (stale now e) eqn:Hs.
    + destruct (swap_remove_perm i l e He) as (Hn & Ht & Hd).
      destruct (IH i (swap_remove i l) (r + 1)) as (l' & -> & Hp); [lia|lia|].
      exists l'. rewrite decide_False by (unfold fresh; congruence). split.
      { do 2 f_equal. unfold zlen. lia. }
      by rewrite Hp, Ht, Hd.
    + destruct (IH (S i) l r) as (l' & -> & Hp); [lia|lia|]. exists l'. split; [done|].
      rewrite decide_True by done. rewrite Hp, (take_S_r _ _ _ He), <- app_assoc. done.
Qed.

Lemma table_age_run t now :
  ∃ l', reac_disco_table_age t now =
    (Table l' (t_overflowed t)
       (if negb (zlen (t_e t) - zlen l' =? 0) then u32 (t_seq t + 1) else t_seq t),
     zlen (t_e t) - zlen l') ∧
    l' ≡ₚ filter (fresh now) (t_e t).
Proof.
  destruct (age_loop_run now (length (t_e t)) 0 (t_e t) 0) as (l' & Hl & Hp); [lia|lia|].
  exists l'. unfold reac_disco_table_age. rewrite Hl, Z.add_0_l. by rewrite drop_0 in Hp.
Qed.

(** C40. The ageing loop terminates and withdraws exactly the stale. It looks at
    each entry once, so one unit of fuel per entry is enough for any state of the loop;
    what is left of the table is, up to order, its entries not silent for more
    than five seconds, so nothing live is withdrawn and nothing stale is kept;
    the return value counts the withdrawn entries and the sequence number moves
    exactly when there is one. *)
Theorem table_age_terminates (t : reac_disco_table) (now_ns : Z) (fuel : nat) :
  (length (t_e t) ≤ fuel)%nat →
  let '(t', removed) := reac_disco_table_age t now_ns in
  age_loop fuel now_ns 0 (t_e t) 0 = Some (t_e t', removed) ∧
  t_e t' ≡ₚ filter (fresh now_ns) (t_e t) ∧
  removed = zlen (filter (λ e, stale now_ns e = true) (t_e t)) ∧
  t_seq t' = (if decide (removed = 0) then t_seq t else u32 (t_seq t + 1)).
Proof.
  intros Hf. destruct (age_loop_run now_ns fuel 0 (t_e t) 0 ltac:(lia) ltac:(lia)) as (l1 & H1 & P1).
  assert (Hdet : ∀ f1 f2 i l r x y, age_loop f1 now_ns i l r = Some x →
    age_loop f2 now_ns i l r = Some y → x = y).
  { induction f1 as [|f1 IH]; intros [|f2] i l r x y; simpl; destruct (l !! i); try congruence.
    case_match; apply IH. }
  destruct (age_loop_run now_ns (length (t_e t)) 0 (t_e t) 0 ltac:(lia) ltac:(lia)) as (l2 & H2 & P2).
  pose proof (Hdet _ _ _ _ _ _ _ H1 H2) as [=<-]. unfold reac_disco_table_age. rewrite H2. simpl.
  rewrite drop_0 in P2. simpl in P2. split_and!; [by rewrite H1|done| |].
  - unfold zlen. rewrite P2. clear. induction (t_e t) as [|e l IH]; [done|].
    rewrite !filter_cons. repeat case_decide; unfold fresh in *; simpl; [congruence|lia|lia|].
    by destruct (stale now_ns e).
  - rewrite Z.add_0_l. destruct (decide (_ = 0)) as [->|Hne]; [done|].
    by rewrite (proj2 (Z.eqb_neq _ _) Hne).
Qed.

(** ** The history a table stands for *)

Record obs := Obs { o_s : reac_disco_sighting; o_owned : bool; o_now : Z }.

Definition has_role (r : reac_disco_role) (o : obs) : bool := bool_decide (s_role (o_s o) = r).

(** A peer is a box once any frame proved it one, else a master once any frame
    did. *)
Definition sum_role (h : list obs) : reac_disco_role :=
  if existsb (has_role REAC_DISCO_ROLE_BOX) h then REAC_DISCO_ROLE_BOX
  else if existsb (has_role REAC_DISCO_ROLE_MASTER) h then REAC_DISCO_ROLE_MASTER
  else REAC_DISCO_ROLE_UNKNOWN.

(** The latest of the values the history states; [None] when it states none. *)
Definition latest {A} (f : obs → option A) (h : list obs) : option A := last (omap f h).

Definition said {A} (x : option A) : bool := match x with Some _ => true | None => false end.
Definition decl_said (o : obs) : option (Z * Z) :=
  if s_has_decl (o_s o) then Some (s_decl_in (o_s o), s_decl_out (o_s o)) else None.
Definition nonzero (x : Z) : option Z := if x =? 0 then None else Some x.
Definition slots_said (o : obs) : option Z := nonzero (s_announced_slots (o_s o)).
Definition family_said (o : obs) : option Z := nonzero (s_family (o_s o)).

Definition widest (h : list obs) : Z := foldr Z.max 0 ((λ o, s_channels (o_s o)) <$> h).

Record sums_up (mac : list Z) (h : list obs) (e : reac_disco_entry) : Prop := SumsUp {
  su_mac : e_mac e = mac;
  su_role : e_role e = sum_role h;
  su_has_decl : e_has_decl e = said (latest decl_said h);
  su_decl : ∀ io, latest decl_said h = Some io → (e_decl_in e, e_decl_out e) = io;
  su_slots : e_announced_slots e = default 0 (latest slots_said h);
  su_family : e_family e = default 0 (latest family_said h);
  su_channels : e_channels e = widest h;
  su_owned : e_owned e = existsb o_owned h;
  su_frames : e_frames e = Z.min UINT32_MAX (zlen h);
  su_first : o_now <$> head h = Some (e_first_seen_ns e);
  su_last : o_now <$> last h = Some (e_last_seen_ns e)
}.

Lemma latest_snoc {A} (f : obs → option A) h o :
  latest f (h ++ [o]) = match f o with Some x => Some x | None => latest f h end.
Proof.
  unfold latest. rewrite omap_app. simpl. destruct (f o); [by rewrite last_snoc|by rewrite app_nil_r].
Qed.

Lemma widest_snoc h o : widest (h ++ [o]) = Z.max (widest h) (s_channels (o_s o)) ∨ s_channels (o_s o) < 0.
Proof.
  destruct (decide (s_channels (o_s o) < 0)); [by right|left]. unfold widest. rewrite fmap_app, list_fmap_singleton.
  induction (_ <$> h); simpl; lia.
Qed.

Lemma sums_up_new s owned now :
  0 ≤ s_channels s → sums_up (s_mac s) [Obs s owned now] (entry_new s owned now).
Proof.
  intros Hc. split; try done; cbn -[Z.min].
  - unfold sum_role, has_role; simpl. by destruct (s_role s).
  - unfold latest, decl_said; simpl. by destruct (s_has_decl s).
  - unfold latest, decl_said; simpl. by destruct (s_has_decl s); intros ? [= <-].
  - unfold latest, slots_said, nonzero; simpl. destruct (_ =? 0) eqn:E; simpl; lia.
  - unfold latest, family_said, nonzero; simpl. destruct (_ =? 0) eqn:E; simpl; lia.
  - unfold widest; simpl. lia.
  - by destruct owned.
Qed.

(** A re-sighting is one more observation of the history. *)
Lemma sums_up_observe mac h e s owned now :
  0 ≤ s_channels s → sums_up mac h e →
  sums_up mac (h ++ [Obs s owned now]) (entry_observe e s owned now).1.
Proof.
  intros Hc [Hm Hr Hd Hd' Hsl Hf Hch Ho Hfr H1 H2]. split; cbn -[Z.min].
  - done.
  - unfold role_moves, sum_role in *. rewrite !existsb_app, Hr. unfold has_role; simpl.
    by destruct (existsb (λ o, bool_decide (s_role (o_s o) = REAC_DISCO_ROLE_BOX)) h),
      (existsb (λ o, bool_decide (s_role (o_s o) = REAC_DISCO_ROLE_MASTER)) h), (s_role s).
  - rewrite latest_snoc. unfold decl_moves, decl_said at 1; simpl. rewrite Hd.
    destruct (s_has_decl s); simpl; [|done]. destruct (latest decl_said h); [|done]. by split_ifs.
  - rewrite latest_snoc. unfold decl_moves, decl_said at 1; simpl.
    destruct (s_has_decl s) eqn:Es; simpl; [|exact Hd']. intros io [= <-].
    destruct (e_has_decl e) eqn:Ee; simpl; [|done].
    destruct (e_decl_in e =? s_decl_in s) eqn:Ei, (e_decl_out e =? s_decl_out s) eqn:Eo; simpl;
      try done. f_equal; lia.
  - rewrite latest_snoc. unfold slots_move, slots_said at 1, nonzero; simpl. rewrite Hsl.
    destruct (s_announced_slots s =? 0) eqn:E; simpl; [done|]. by case_match eqn:E2; simpl in *; [|lia].
  - rewrite latest_snoc. unfold family_moves, family_said at 1, nonzero; simpl. rewrite Hf.
    destruct (s_family s =? 0) eqn:E; simpl; [done|]. by case_match eqn:E2; simpl in *; [|lia].
  - destruct (widest_snoc h (Obs s owned now)) as [->|]; simpl in *; [|lia]. rewrite Hch.
    destruct (_ <? _) eqn:E; lia.
  - rewrite existsb_app, Ho; simpl. by destruct owned, (existsb o_owned h).
  - rewrite zlen_app, zlen_cons, zlen_nil, Hfr. unfold UINT32_MAX. pose proof (zlen_nonneg h).
    destruct (_ =? _) eqn:E; simpl; lia.
  - destruct h; [done|exact H1].
  - by rewrite last_snoc.
Qed.

(** ** The abstract machine and the simulation *)


Inductive table_op :=
| TObserve (s : reac_disco_sighting) (owned : bool) (now : Z)
| TAge (now : Z).

(** Last heard more than the staleness bar ago. *)
Definition stale_history (now : Z) (h : list obs) : bool :=
  match last h with
  | Some o => (o_now o <? now) && (REAC_DISCO_STALE_NS <? now - o_now o)
  | None => false
  end.

(** A MAC in the table gains an observation, a new one is let in while there is
    room; ageing forgets the MACs gone stale. *)
Definition spec_step (H : gmap (list Z) (list obs)) (op : table_op) : gmap (list Z) (list obs) :=
  match op with
  | TObserve s owned now =>
      match H !! s_mac s with
      | Some h => <[s_mac s := h ++ [Obs s owned now]]> H
      | None => if (Z.of_nat (size H) <? REAC_DISCO_MAX)
                then <[s_mac s := [Obs s owned now]]> H else H
      end
  | TAge now => filter (λ kh, stale_history now kh.2 = false) H
  end.

Definition table_step (t : reac_disco_table) (op : table_op) : reac_disco_table :=
  match op with
  | TObserve s owned now => (reac_disco_table_observe t s owned now).1
  | TAge now => (reac_disco_table_age t now).1
  end.

(** The sightings a classifier produces have a width. *)
Definition op_ok (op : table_op) : Prop :=
  match op with TObserve s _ _ => 0 ≤ s_channels s | TAge _ => True end.

Definition macs (t : reac_disco_table) : list (list Z) := e_mac <$> t_e t.

Record refines (t : reac_disco_table) (H : gmap (list Z) (list obs)) : Prop := Refines {
  rf_nodup : NoDup (macs t);
  rf_dom : dom H =@{gset (list Z)} list_to_set (macs t);
  rf_room : t_n t ≤ REAC_DISCO_MAX;
  rf_entry : ∀ e, e ∈ t_e t → ∃ h, H !! e_mac e = Some h ∧ sums_up (e_mac e) h e
}.

Lemma refines_size t H : refines t H → Z.of_nat (size H) = t_n t.
Proof.
  intros R. rewrite <- (size_dom (D := gset (list Z)) H), (rf_dom _ _ R), size_list_to_set by apply R.
  unfold macs, t_n, zlen. by rewrite length_fmap.
Qed.

Lemma find_Some t mac i e :
  find t mac = Some (i, e) → t_e t !! i = Some e ∧ e_mac e = mac.
Proof. unfold find, index_of. intros Hf. apply list_find_Some in Hf. tauto. Qed.

Lemma find_None t mac : find t mac = None → mac ∉ macs t.
Proof.
  unfold find, index_of, macs. intros Hf%list_find_None Hin.
  apply list_elem_of_fmap in Hin as (e & -> & He). rewrite Forall_forall in Hf. by apply (Hf e).
Qed.

Lemma refines_absent t H mac : refines t H → mac ∉ macs t → H !! mac = None.
Proof.
  intros R Hm. apply not_elem_of_dom. rewrite (rf_dom _ _ R). by rewrite elem_of_list_to_set.
Qed.

Lemma insert_macs t i e e' :
  t_e t !! i = Some e → e_mac e' = e_mac e → e_mac <$> <[i := e']> (t_e t) = macs t.
Proof.
  intros Hi He. unfold macs. rewrite list_fmap_insert, He. apply list_insert_id.
  by rewrite list_lookup_fmap, Hi.
Qed.

Lemma refines_observe t H s owned now :
  0 ≤ s_channels s → refines t H →
  refines (reac_disco_table_observe t s owned now).1 (spec_step H (TObserve s owned now)).
Proof.
  intros Hc R. unfold reac_disco_table_observe. cbn [spec_step].
  destruct (find t (s_mac s)) as [[i e]|] eqn:Hf.
  - apply find_Some in Hf as [Hi Hm]. destruct (rf_entry _ _ R e) as (h & Hh & Hs);
      [by eapply list_elem_of_lookup_2|]. rewrite <- Hm, Hh.
    pose proof (sums_up_observe _ _ _ s owned now Hc Hs) as Hs'.
    pose proof (su_mac _ _ _ Hs') as Hm'. destruct (entry_observe e s owned now) as [e' ch]. simpl in *.
    assert (Hmacs : e_mac <$> <[i:=e']> (t_e t) = macs t) by (by apply (insert_macs t i e)).
    split; unfold macs, t_n in *; cbn [t_e].
    + rewrite Hmacs. apply R.
    + rewrite Hmacs, dom_insert_lookup_L by eauto. apply R.
    + unfold zlen. rewrite length_insert. apply R.
    + intros x Hx. apply list_elem_of_lookup in Hx as [j Hj].
      destruct (decide (i = j)) as [<-|Hne].
      * rewrite list_lookup_insert_eq in Hj by (by eapply lookup_lt_Some). injection Hj as <-.
        rewrite Hm', lookup_insert_eq. eauto.
      * rewrite list_lookup_insert_ne in Hj by done.
        destruct (rf_entry _ _ R x) as (hx & Hx & Hsx); [by eapply list_elem_of_lookup_2|].
        exists hx. rewrite lookup_insert_ne; [done|]. intros Heq. apply Hne.
        eapply (NoDup_lookup _ _ _ (e_mac e) (rf_nodup _ _ R)); unfold macs;
          rewrite list_lookup_fmap; [by rewrite Hi|rewrite Hj; simpl; by rewrite <- Heq].
  - apply find_None in Hf. rewrite (refines_absent _ _ _ R Hf), (refines_size _ _ R).
    unfold REAC_DISCO_MAX in *. destruct (8 <=? t_n t) eqn:E.
    { replace (t_n t <? 8) with false by lia. simpl. by destruct (t_overflowed t), R. }
    replace (t_n t <? 8) with true by lia. split; unfold macs, t_n in *; cbn [t_e fst].
    + rewrite fmap_app. apply NoDup_app. split_and!; [apply R| |apply NoDup_singleton].
      intros m Hm Hm'%list_elem_of_singleton. by subst.
    + rewrite dom_insert_L, fmap_app, list_to_set_app_L, (rf_dom _ _ R). simpl.
      by rewrite union_empty_r_L, (comm_L (∪)).
    + rewrite zlen_app, zlen_cons, zlen_nil. unfold REAC_DISCO_MAX. lia.
    + intros x [Hx|Hx%list_elem_of_singleton]%elem_of_app.
      * destruct (rf_entry _ _ R x Hx) as (h & Hh & Hs). exists h. split; [|done].
        rewrite lookup_insert_ne; [done|]. intros Heq. apply Hf. rewrite Heq.
        by apply list_elem_of_fmap_2.
      * subst x. simpl. rewrite lookup_insert_eq. eexists; split; [done|]. by apply sums_up_new.
Qed.

Lemma refines_age t H now :
  refines t H → refines (reac_disco_table_age t now).1 (spec_step H (TAge now)).
Proof.
  intros R. destruct (table_age_run t now) as (l & -> & Hp). cbn [fst spec_step].
  assert (Hst : ∀ e h, e ∈ t_e t → H !! e_mac e = Some h → stale_history now h = stale now e).
  { intros e h He Hh. destruct (rf_entry _ _ R e He) as (h' & Hh' & Hs). simplify_eq.
    pose proof (su_last _ _ _ Hs) as Hl. unfold stale_history, stale.
    destruct (last h) as [o|]; [|done]. injection Hl as ->. done. }
  assert (Hin : ∀ e, e ∈ l ↔ e ∈ t_e t ∧ stale now e = false).
  { intros e. rewrite Hp, list_elem_of_filter. unfold fresh. tauto. }
  split; unfold macs, t_n; cbn [t_e].
  - rewrite Hp. eapply sublist_NoDup; [apply (rf_nodup _ _ R)|]. apply fmap_sublist, sublist_filter.
  - apply set_eq. intros m. rewrite elem_of_list_to_set, list_elem_of_fmap, elem_of_dom.
    split.
    + intros [h [Hh Hf]%map_lookup_filter_Some].
      assert (m ∈ macs t) as (e & -> & He)%list_elem_of_fmap.
      { apply elem_of_dom_2 in Hh. by rewrite (rf_dom _ _ R), elem_of_list_to_set in Hh. }
      exists e. split; [done|]. apply Hin. split; [done|]. by rewrite <- (Hst e h).
    + intros (e & -> & [He Hs]%Hin). destruct (rf_entry _ _ R e He) as (h & Hh & _).
      exists h. apply map_lookup_filter_Some. split; [done|]. simpl. by rewrite (Hst e h).
  - pose proof (rf_room _ _ R) as Hr. unfold t_n, zlen in *. rewrite Hp.
    pose proof (length_filter (fresh now) (t_e t)). lia.
  - intros e [He Hs]%Hin. destruct (rf_entry _ _ R e He) as (h & Hh & Hsum). exists h.
    split; [|done]. apply map_lookup_filter_Some. split; [done|]. simpl. by rewrite (Hst e h).
Qed.

Lemma refines_init : refines reac_disco_table_init ∅.
Proof. split; [apply NoDup_nil_2|by rewrite dom_empty_L|done|by intros e He%elem_of_nil]. Qed.

Lemma refines_run ops t H :
  Forall op_ok ops → refines t H → refines (foldl table_step t ops) (foldl spec_step H ops).
Proof.
  revert t H; induction ops as [|op ops IH]; intros t H Hok R; [done|].
  apply Forall_cons in Hok as [Ho Hok]. apply IH; [done|].
  destruct op; [by apply refines_observe|by apply refines_age].
Qed.

(** C32. The sighting table is the summary of what was heard. After any sequence
    of sightings and agings the table holds at most eight peers, one entry per
    MAC, for exactly the MACs the abstract history holds, and each entry sums
    its history up: BOX once any frame proved a box (no later frame un-proves
    it), else MASTER once any frame proved a master; the latest declaration,
    slot total and family; the widest geometry; ownership once taken; the
    saturating count of observations; and the first and last times. *)
Theorem table_corroborates (ops : list table_op) :
  Forall op_ok ops →
  let t := foldl table_step reac_disco_table_init ops in
  let H := foldl spec_step ∅ ops in
  NoDup (macs t) ∧ t_n t ≤ REAC_DISCO_MAX ∧
  (∀ mac, mac ∈ macs t ↔ is_Some (H !! mac)) ∧
  (∀ e, e ∈ t_e t → ∃ h, H !! e_mac e = Some h ∧ sums_up (e_mac e) h e).
Proof.
  intros Hok. destruct (refines_run ops _ _ Hok refines_init) as [R1 R2 R3 R4]. cbv zeta.
  split_and!; [done|done| |done].
  intros mac. by rewrite <- elem_of_dom, R2, elem_of_list_to_set.
Qed.

(** A box that says goodbye: its farewell has the shape of a scene push, so one
    frame of it reads as a master's. *)
Definition demo_peer (r : reac_disco_role) : reac_disco_sighting :=
  Sighting [0; 0x40; 0xab; 0xc4; 0x80; 0x41] r false 0 0 0 0 16.
Definition demo_ops : list table_op :=
  [TObserve (demo_peer REAC_DISCO_ROLE_UNKNOWN) false 10; TObserve (demo_peer REAC_DISCO_ROLE_BOX) false 20;
   TObserve (demo_peer REAC_DISCO_ROLE_MASTER) false 30; TAge 40].
Definition demo_table : reac_disco_table := foldl table_step reac_disco_table_init demo_ops.

Lemma table_corroborates_witness :
  NoDup (macs demo_table) ∧
  ∀ e, e ∈ t_e demo_table → ∃ h, foldl spec_step ∅ demo_ops !! e_mac e = Some h ∧
    sums_up (e_mac e) h e.
Proof.
  assert (Hok : Forall op_ok demo_ops) by (repeat constructor; simpl; lia).
  destruct (table_corroborates demo_ops Hok) as (H1 & _ & _ & H4). exact (conj H1 H4).
Defined.

Lemma table_age_terminates_witness :
  age_loop 1 6000000000 0 (t_e demo_table) 0 = Some ([], 1) ∧
  (reac_disco_table_age demo_table 6000000000).2 = 1.
Proof.
  pose proof (table_age_terminates demo_table 6000000000 1 ltac:(simpl; lia)) as H.
  vm_compute in H |- *. destruct H as (H & _). exact (conj H eq_refl).
Defined.
