(* ===== verification/DiscoPublish.v ===== *)
(** * DiscoPublish: what discovery accepts, reports and prints

    Properties of [src/reac_disco.c] outside the table: the segment's peer lock
    over a stream of frames, the event budget of the announce gate, and the
    size and all-or-nothing behaviour of the JSON snapshot. *)

From Stdlib Require String.
From S2P Require Import Prelude Wire CtrlBlk Identity BoxModel BoxFacts Disco.
Import String.StringSyntax.
Local Open Scope Z_scope.

Lemma is_Some_if {A} (b : bool) (x : A) : is_Some (if b then Some x else None) ↔ b = true.
Proof. destruct b; split; intros H; try done; by destruct H. Qed.

Lemma zlen_insert {A} (l : list A) i x : zlen (<[i := x]> l) = zlen l.
Proof. unfold zlen. by rewrite length_insert. Qed.

(** ** The peer lock *)

Definition frame_src (f : list Z) : list Z := p_src (reac_ctrl_parse f (zlen f)).
Definition frame_kind (f : list Z) : reac_ctrl_kind := p_kind (reac_ctrl_parse f (zlen f)).

(** A control frame with a valid checksum that is not our own echo. *)
Definition proves_peer (our_mac f : list Z) : bool :=
  match frame_kind f with
  | REAC_CTRL_NONE | REAC_CTRL_FILLER => false
  | _ => negb (zeqb (frame_src f) our_mac) && reac_ctrl_checksum_verify f
  end.

(** The lock of a segment that has received [fs], in order. *)
Definition segment_lock (our_mac : list Z) (fs : list (list Z)) : reac_disco_peer_lock :=
  foldl (λ l f, (reac_disco_classify_on_segment l f (zlen f) our_mac).1)
    reac_disco_peer_lock_init fs.

Lemma classify_on_segment_eq l f our_mac :
  reac_disco_classify_on_segment l f (zlen f) our_mac =
  (if proves_peer our_mac f && negb (lk_locked l) then PeerLock (frame_src f) true else l,
   if (match frame_kind f with
       | REAC_CTRL_NONE => false
       | REAC_CTRL_FILLER => negb (zeqb (frame_src f) our_mac)
                             && (negb (lk_locked l) || zeqb (lk_mac l) (frame_src f))
       | _ => proves_peer our_mac f
       end)
   then Some (sighting_of f (zlen f) (reac_ctrl_parse f (zlen f))) else None).
Proof.
  unfold reac_disco_classify_on_segment, classify_core, proves_peer, frame_kind, frame_src.
  set (p := reac_ctrl_parse f (zlen f)). generalize (sighting_of f (zlen f) p) as x. intros x.
  destruct (p_kind p), (zeqb (p_src p) our_mac), (reac_ctrl_checksum_verify f), (lk_locked l) eqn:El;
    simpl; rewrite ?El; try done; by destruct (zeqb (lk_mac l) (p_src p)).
Qed.

Lemma segment_lock_eq our_mac fs :
  segment_lock our_mac fs =
  match filter (λ f, proves_peer our_mac f = true) fs with
  | [] => reac_disco_peer_lock_init
  | f :: _ => PeerLock (frame_src f) true
  end.
Proof.
  unfold segment_lock. induction fs as [|f fs IH] using rev_ind; [done|].
  rewrite foldl_app, filter_app. simpl. rewrite IH, classify_on_segment_eq. cbn [fst].
  rewrite filter_cons, filter_nil. destruct (filter _ fs) as [|g gs] eqn:Hf.
  - destruct (proves_peer our_mac f); [by rewrite decide_True|by rewrite decide_False].
  - by rewrite andb_false_r.
Qed.

(** What counts as evidence on a segment. Whatever frames came before, the
    lock is the sender of the first checksum-verified control frame that is not
    our own echo, for good. A frame is a sighting of its own source, never of
    ourselves; a control frame is one exactly when its checksum verifies,
    whoever the lock holds; and once a peer is proven, a checksum-exempt FILLER
    is evidence exactly when it comes from that peer. *)
Theorem peer_lock_evidence (our_mac : list Z) (pre : list (list Z)) (f : list Z) :
  let proven := filter (λ g, proves_peer our_mac g = true) pre in
  let lock := segment_lock our_mac pre in
  let s := (reac_disco_classify_on_segment lock f (zlen f) our_mac).2 in
  lock = match proven with [] => reac_disco_peer_lock_init | g :: _ => PeerLock (frame_src g) true end ∧
  (∀ x, s = Some x → s_mac x = frame_src f ∧ s_mac x ≠ our_mac) ∧
  (is_Some s ↔
   match frame_kind f with
   | REAC_CTRL_NONE => False
   | REAC_CTRL_FILLER =>
       frame_src f ≠ our_mac ∧ (∀ g, head proven = Some g → frame_src f = frame_src g)
   | _ => frame_src f ≠ our_mac ∧ reac_ctrl_checksum_verify f = true
   end).
Proof.
  cbv zeta. split; [apply segment_lock_eq|]. rewrite classify_on_segment_eq, segment_lock_eq.
  cbn [snd]. set (proven := filter _ pre). unfold proves_peer.
  rewrite is_Some_if. split.
  - intros x Hx. case_match eqn:Hb; [|done]. injection Hx as <-. split; [done|].
    apply zeqb_neq. unfold frame_src in *. destruct (frame_kind f), (zeqb _ our_mac); done.
  - destruct (zeqb (frame_src f) our_mac) eqn:Eo; [apply zeqb_eq in Eo|apply zeqb_neq in Eo];
      destruct (frame_kind f); simpl;
      try (destruct (reac_ctrl_checksum_verify f); split; intros; destruct_and?; (done || congruence)).
    destruct proven as [|g gs]; simpl; [by split|]. rewrite zeqb_eq. split.
    + intros Hg. split; [done|]. by intros ? [= <-].
    + intros [_ H]. symmetry. by apply H.
Qed.

(** ** The announce gate *)

(** The pushes of a run of the gate, and the pushes among them that were edges. *)
Fixpoint gate_run (g : list reac_disco_gate_entry) (ss : list (reac_disco_sighting * Z)) : Z * Z :=
  match ss with
  | [] => (0, 0)
  | (s, now) :: ss =>
      let '(g', push) := reac_disco_gate_should_push g s now in
      let edge := match index_of g_mac (s_mac s) g with
                  | Some (_, e) => gate_edge e s | None => false end in
      let '(p, d) := gate_run g' ss in
      (b2z push + p, b2z edge + d)
  end.

(** Times that do not step back, from [t0] on. *)
Fixpoint times_from (t0 : Z) (ss : list (reac_disco_sighting * Z)) : Prop :=
  match ss with
  | [] => True
  | (_, now) :: ss => t0 ≤ now ∧ times_from now ss
  end.

(** The refreshes a gate can have spent since [T]. *)
Definition gate_spent (T : Z) (g : list reac_disco_gate_entry) : Z :=
  zsum ((λ e, 1 + (g_last_push_ns e - T) / REAC_DISCO_REFRESH_NS) <$> g).

Lemma gate_spent_insert T g i e e' :
  g !! i = Some e →
  gate_spent T (<[i := e']> g) = gate_spent T g + (g_last_push_ns e' - T) / REAC_DISCO_REFRESH_NS
    - (g_last_push_ns e - T) / REAC_DISCO_REFRESH_NS.
Proof.
  unfold gate_spent, zsum. revert i; induction g as [|x g IH]; intros [|i] Hi; simplify_eq/=; [lia|].
  etransitivity; [apply (f_equal (Z.add _)), (IH i Hi)|lia].
Qed.

Lemma gate_spent_bound T W g :
  Forall (λ e, g_last_push_ns e ≤ T + W) g →
  gate_spent T g ≤ zlen g * (1 + W / REAC_DISCO_REFRESH_NS).
Proof.
  unfold gate_spent, zsum. induction 1 as [|e g He _ IH]; [done|]. simpl in He.
  rewrite zlen_cons, Z.mul_add_distr_r, Z.mul_1_l. csimpl.
  assert ((g_last_push_ns e - T) / REAC_DISCO_REFRESH_NS ≤ W / REAC_DISCO_REFRESH_NS)
    as Hq by (apply Z.div_le_mono; [done|lia]).
  revert Hq IH. generalize (W / REAC_DISCO_REFRESH_NS), ((g_last_push_ns e - T) / REAC_DISCO_REFRESH_NS).
  intros q q' Hq IH. lia.
Qed.

(** One sighting: a push that is not an edge spends a refresh. *)
Lemma gate_step T W g s now :
  zlen g ≤ REAC_DISCO_MAX → Forall (λ e, T ≤ g_last_push_ns e ≤ now) g → T ≤ now ≤ T + W →
  let '(g', push) := reac_disco_gate_should_push g s now in
  zlen g' ≤ REAC_DISCO_MAX ∧ Forall (λ e, T ≤ g_last_push_ns e ≤ now) g' ∧
  b2z push ≤ gate_spent T g' - gate_spent T g +
    b2z (match index_of g_mac (s_mac s) g with Some (_, e) => gate_edge e s | None => false end).
Proof.
  intros Hn Hg Hnow. unfold reac_disco_gate_should_push.
  destruct (index_of g_mac (s_mac s) g) as [[i e]|] eqn:Hf.
  - apply list_find_Some in Hf as (Hi & _ & _). pose proof (Forall_lookup_1 _ _ _ _ Hg Hi) as He. simpl in He.
    assert (Hmono : (g_last_push_ns e - T) / REAC_DISCO_REFRESH_NS ≤ (now - T) / REAC_DISCO_REFRESH_NS)
      by (apply Z.div_le_mono; [done|lia]).
    unfold gate_known. destruct (gate_edge e s) eqn:Ed.
    + rewrite zlen_insert, (gate_spent_insert _ _ _ e) by done. cbn [gate_sharpen gate_refresh g_last_push_ns b2z].
      split_and!; [lia| |lia]. apply Forall_insert; [done|simpl; lia].
    + destruct (_ || _) eqn:Er.
      * rewrite zlen_insert, (gate_spent_insert _ _ _ e) by done. cbn [gate_sharpen gate_refresh g_last_push_ns b2z].
        split_and!; [lia|apply Forall_insert; [done|simpl; lia]|].
        assert (REAC_DISCO_REFRESH_NS ≤ now - g_last_push_ns e) by lia.
        assert ((g_last_push_ns e - T) / REAC_DISCO_REFRESH_NS + 1 ≤ (now - T) / REAC_DISCO_REFRESH_NS);
          [|lia]. rewrite <- Z.div_add by done. apply Z.div_le_mono; [done|lia].
      * rewrite list_insert_id by done. cbn [b2z]. split_and!; [done|done|lia].
  - destruct (REAC_DISCO_MAX <=? zlen g) eqn:Em.
    { cbn [b2z]. split_and!; [done|done|lia]. }
    unfold gate_spent. rewrite fmap_app, zsum_app, zlen_app, zlen_cons, zlen_nil. simpl.
    split_and!; [lia|apply Forall_app; split; [done|]; repeat constructor; simpl; lia|].
    assert (0 ≤ (now - T) / REAC_DISCO_REFRESH_NS)
      by (apply Z.div_pos; [lia|done]).
    unfold zsum; simpl. lia.
Qed.

Lemma gate_run_budget T W ss : ∀ g t0,
  zlen g ≤ REAC_DISCO_MAX → Forall (λ e, T ≤ g_last_push_ns e ≤ t0) g → T ≤ t0 ≤ T + W →
  times_from t0 ss → Forall (λ sn, sn.2 ≤ T + W) ss →
  let '(pushes, edges) := gate_run g ss in
  pushes ≤ edges + REAC_DISCO_MAX * (1 + W / REAC_DISCO_REFRESH_NS) - gate_spent T g.
Proof.
  induction ss as [|[s now] ss IH]; intros g t0 Hn Hg Ht0 Hts Hw; simpl.
  - assert (Hb : gate_spent T g ≤ zlen g * (1 + W / REAC_DISCO_REFRESH_NS)).
    { apply gate_spent_bound. eapply Forall_impl; [exact Hg|]. simpl. lia. }
    assert (0 ≤ W / REAC_DISCO_REFRESH_NS) by (apply Z.div_pos; [lia|done]).
    nia.
  - destruct Hts as [Hle Hts]. apply Forall_cons in Hw as [Hnow Hw]. simpl in Hnow.
    pose proof (gate_step T W g s now Hn) as Hs.
    destruct (reac_disco_gate_should_push g s now) as [g' push].
    destruct Hs as (Hn' & Hg' & Hp); [eapply Forall_impl; [exact Hg|]; simpl; lia|lia|].
    specialize (IH g' now Hn' Hg' ltac:(lia) Hts Hw). destruct (gate_run g' ss) as [p d]. lia.
Qed.

(** The announce gate's event budget. From its initialisation, over any
    window of W nanoseconds and any stream of sightings whose clock does not
    step back, whatever the frame rate and however many MACs are on the wire,
    the gate lets through at most eight events per started refresh period, plus
    one for each sharpened fact. *)
Theorem gate_event_budget (T W : Z) (ss : list (reac_disco_sighting * Z)) :
  0 ≤ W → times_from T ss → Forall (λ sn, sn.2 ≤ T + W) ss →
  let '(pushes, edges) := gate_run reac_disco_gate_init ss in
  pushes ≤ edges + REAC_DISCO_MAX * (1 + W / REAC_DISCO_REFRESH_NS).
Proof.
  intros HW Hts Hw. pose proof (gate_run_budget T W ss reac_disco_gate_init T) as H.
  destruct (gate_run reac_disco_gate_init ss) as [p d].
  assert (gate_spent T reac_disco_gate_init = 0) as E by done. rewrite E in H.
  specialize (H ltac:(done) ltac:(constructor) ltac:(lia) Hts Hw). lia.
Qed.

(** Edges have no budget of their own: a MAC whose frames alternate between the
    two roles (a box whose farewell reads as a scene push, a master whose grant
    echo reads as a join) is an event on every frame. *)
Definition flip_sighting (r : reac_disco_role) : reac_disco_sighting :=
  Sighting (zeros 6) r false 0 0 0 0 0.
Fixpoint flips (n : nat) (r : reac_disco_role) (now : Z) : list (reac_disco_sighting * Z) :=
  match n with
  | O => []
  | S n => (flip_sighting r, now) :: flips n
      (match r with REAC_DISCO_ROLE_BOX => REAC_DISCO_ROLE_MASTER | _ => REAC_DISCO_ROLE_BOX end)
      (now + 125000)
  end.

Lemma gate_flips_all_pushed : gate_run reac_disco_gate_init (flips (Z.to_nat 8000) REAC_DISCO_ROLE_BOX 0) = (8000, 7999).
Proof. vm_compute. done. Qed.

Lemma gate_event_budget_witness :
  let '(pushes, edges) := gate_run reac_disco_gate_init (flips 16 REAC_DISCO_ROLE_BOX 0) in
  pushes ≤ edges + 8.
Proof.
  pose proof (gate_event_budget 0 2000000 (flips 16 REAC_DISCO_ROLE_BOX 0)) as H.
  assert (Ht : times_from 0 (flips 16 REAC_DISCO_ROLE_BOX 0)) by (simpl; lia).
  assert (Hw : Forall (λ sn, sn.2 ≤ 0 + 2000000) (flips 16 REAC_DISCO_ROLE_BOX 0))
    by (repeat constructor; simpl; lia).
  exact (H ltac:(lia) Ht Hw).
Defined.

(** ** The JSON snapshot *)

(** The text of a table, with room to spare. *)
Definition json_text (t : reac_disco_table) (now_ns : Z) : list Z :=
  [91] ++ concat (concat (imap (λ i e, entry_puts i e now_ns) (t_e t))) ++ [93].

Lemma puts_None cap ss : puts cap ss None = None.
Proof. unfold puts. by induction ss. Qed.

Lemma puts_app cap ss ss' buf : puts cap (ss ++ ss') buf = puts cap ss' (puts cap ss buf).
Proof. apply foldl_app. Qed.

(** Some text is put whole, or nothing is. *)
Lemma puts_all_or_nothing cap ss buf :
  zlen buf < cap →
  puts cap ss (Some buf) =
  if decide (zlen (buf ++ concat ss) < cap) then Some (buf ++ concat ss) else None.
Proof.
  revert buf; induction ss as [|s ss IH]; intros buf Hb.
  { cbn. rewrite app_nil_r. by rewrite decide_True. }
  change (puts cap (s :: ss) (Some buf)) with (puts cap ss (PUT cap s buf)). unfold PUT.
  destruct (cap - zlen buf <=? zlen s) eqn:E.
  - rewrite puts_None. cbn [concat]. rewrite decide_False; [done|].
    rewrite !zlen_app. pose proof (zlen_nonneg (concat ss)). lia.
  - rewrite IH by (rewrite zlen_app; lia). cbn [concat]. by rewrite <- app_assoc.
Qed.

Lemma json_all_or_nothing t now cap :
  reac_disco_table_json t now cap =
  if decide (3 ≤ cap ∧ zlen (json_text t now) < cap) then Some (json_text t now) else None.
Proof.
  unfold reac_disco_table_json. destruct (cap <? 3) eqn:E; [by rewrite decide_False by lia|].
  assert (PUT cap [91] [] = Some [91]) as ->.
  { unfold PUT. change (zlen [91]) with 1. change (zlen []) with 0.
    by replace (cap - 0 <=? 1) with false by lia. }
  rewrite <- puts_app. rewrite puts_all_or_nothing by (change (zlen [91]) with 1; lia).
  rewrite concat_app. cbn [concat]. rewrite app_nil_r. unfold json_text.
  repeat case_decide; try done; lia.
Qed.

Lemma uint_digits_len k fuel v :
  (0 < k)%nat → 0 ≤ v < 10 ^ Z.of_nat k → zlen (uint_digits fuel v) ≤ Z.of_nat k.
Proof.
  revert fuel v; induction k as [|k IH]; intros fuel v Hk Hv; [lia|].
  destruct fuel as [|fuel]; [unfold zlen; simpl; lia|]. cbn [uint_digits].
  destruct (v / 10 =? 0) eqn:E; [unfold zlen; simpl; lia|]. rewrite zlen_cons.
  rewrite Nat2Z.inj_succ, Z.pow_succ_r in Hv by lia.
  assert (0 < v / 10 < 10 ^ Z.of_nat k) by (split; [lia|apply Z.div_lt_upper_bound; lia]).
  destruct k as [|k]; [simpl in *; lia|]. specialize (IH fuel (v / 10) ltac:(lia) ltac:(lia)). lia.
Qed.

Lemma zlen_rev (l : list Z) : zlen (rev l) = zlen l.
Proof. unfold zlen. by rewrite length_rev. Qed.

Lemma dec_str_len k v : (0 < k)%nat → 0 ≤ v < 10 ^ Z.of_nat k → zlen (dec_str v) ≤ Z.of_nat k.
Proof. intros. unfold dec_str. rewrite zlen_rev. by apply uint_digits_len. Qed.

(** The widths a name accepts, and the longest token of each. *)
Definition name_widths : list Z := 0 :: ((λ i, 2 * i) <$> zseq 1 20).

Lemma good_widths i o : bad_widths i o = false → i ∈ name_widths ∧ o ∈ name_widths.
Proof.
  assert (Hw : ∀ n, (negb (n =? 0) && negb (reac_box_width_ok n)) = false → n ∈ name_widths).
  { intros n Hn. unfold name_widths. destruct (n =? 0) eqn:E.
    - replace n with 0 by lia. left.
    - simpl in Hn. apply negb_false_iff, box_width_ok_iff in Hn. right.
      apply list_elem_of_fmap. exists (n / 2). split; [lia|]. apply elem_of_seqZ. lia. }
  unfold bad_widths. intros H. apply orb_false_iff in H as [H _]. apply orb_false_iff in H as [H1 H2].
  split; by apply Hw.
Qed.

Definition token_fits (f : reac_box_family) (i o : Z) : bool :=
  match reac_box_name f None i o (Some REAC_BOX_NAME_MAX) (Some REAC_BOX_NAME_TOKEN_MAX)
          (Some REAC_BOX_NAME_DISPLAY_MAX) with
  | Some (_, tok, _) => zlen tok <=? 11
  | None => (i =? 0) && (o =? 0)
  end.

Lemma tokens_fit :
  forallb (λ f, forallb (λ i, forallb (token_fits f i) name_widths) name_widths)
    [REAC_BOX_FAMILY_UNKNOWN; REAC_BOX_FAMILY_S0808; REAC_BOX_FAMILY_S1608; REAC_BOX_FAMILY_S4000S] = true.
Proof. vm_compute. done. Qed.

Lemma token_fits_all f i o : i ∈ name_widths → o ∈ name_widths → token_fits f i o = true.
Proof.
  intros Hi Ho. pose proof tokens_fit as H. rewrite forallb_forall in H.
  specialize (H f ltac:(destruct f; simpl; tauto)). rewrite forallb_forall in H.
  specialize (H i ltac:(by apply list_elem_of_In)). rewrite forallb_forall in H.
  apply H. by apply list_elem_of_In.
Qed.

(** The lengths of the literals. *)
Ltac str_lens :=
  repeat match goal with
  | |- context [zlen (str ?s)] =>
      let n := eval vm_compute in (zlen (str s)) in change (zlen (str s)) with n
  end.

(** The longest entry is 121 characters. *)
Lemma entry_puts_len i e now :
  0 ≤ e_last_seen_ns e → now < 2 ^ 64 → zlen (concat (entry_puts i e now)) ≤ 121.
Proof.
  intros He Hnow. unfold entry_puts.
  set (age := if e_last_seen_ns e <? now then now - e_last_seen_ns e else 0).
  assert (Hage : zlen (dec_str (age / 1000000)) ≤ 14).
  { apply (dec_str_len 14); [lia|]. subst age. destruct (_ <? now) eqn:E; simpl; [|done].
    split; [apply Z.div_pos; lia|apply Z.div_lt_upper_bound; lia]. }
  assert (Hrole : zlen (reac_disco_role_name (e_role e)) ≤ 7) by (by destruct (e_role e)).
  assert (Hown : zlen (if e_owned e then str "true" else str "false") ≤ 5) by (by destruct (e_owned e)).
  assert (Hname : ∀ tok, entry_name e = Some tok →
    zlen tok ≤ 11 ∧ zlen (dec_str (e_decl_in e)) ≤ 2 ∧ zlen (dec_str (e_decl_out e)) ≤ 2).
  { intros tok. unfold entry_name. destruct (e_has_decl e); [|done].
    set (f := family_of_byte (e_family e)). destruct (bad_widths (e_decl_in e) (e_decl_out e)) eqn:Eb.
    { unfold reac_box_name. cbn. by rewrite Eb. }
    apply good_widths in Eb as [Hi Ho]. pose proof (token_fits_all f _ _ Hi Ho) as Ht.
    unfold token_fits in Ht. destruct (reac_box_name _ _ _ _ _ _ _) as [[[nm tk] dp]|]; [|done].
    intros [= ->]. assert (Hb : ∀ n, n ∈ name_widths → 0 ≤ n < 10 ^ Z.of_nat 2).
    { intros n Hn. unfold name_widths in Hn. apply elem_of_cons in Hn as [->|Hn]; [simpl; lia|].
      apply list_elem_of_fmap in Hn as (j & -> & Hj%elem_of_seqZ). simpl. lia. }
    split_and!; [lia|apply (dec_str_len 2); [lia|by apply Hb]|apply (dec_str_len 2); [lia|by apply Hb]]. }
  unfold key, quoted, mac_str, hex2.
  destruct (entry_name e) as [tok|] eqn:En; [destruct (Hname tok eq_refl) as (Ht & H1 & H2)|];
    cbn [app concat]; destruct (i =? 0)%nat; autorewrite with zlen; str_lens; lia.
Qed.

(** Discovery is published whole or not at all, and always fits its buffer.
    For every table the snapshot is the complete array of its entries or
    nothing, and it is nothing only when it would not fit with its terminator;
    a table of at most eight peers, at any 64-bit time, whatever the peers
    declared, is at most 970 characters and so always serialises into the
    [REAC_DISCO_JSON_MAX] bytes reserved for it. *)
Theorem json_snapshot_fits (t : reac_disco_table) (now_ns cap : Z) :
  t_n t ≤ REAC_DISCO_MAX → Forall (λ e, 0 ≤ e_last_seen_ns e) (t_e t) → now_ns < 2 ^ 64 →
  reac_disco_table_json t now_ns cap =
    (if decide (3 ≤ cap ∧ zlen (json_text t now_ns) < cap) then Some (json_text t now_ns) else None) ∧
  zlen (json_text t now_ns) ≤ 970 ∧
  reac_disco_table_json t now_ns REAC_DISCO_JSON_MAX = Some (json_text t now_ns).
Proof.
  intros Hn He Hnow. rewrite !json_all_or_nothing.
  assert (Hlen : ∀ l k, Forall (λ e, 0 ≤ e_last_seen_ns e) l →
    zlen (concat (concat (imap (λ i e, entry_puts (k + i) e now_ns) l))) ≤ 121 * zlen l).
  { induction l as [|e l IH]; intros k Hl; [done|]. apply Forall_cons in Hl as [Hx Hl].
    rewrite imap_cons. cbn [concat]. rewrite concat_app, zlen_app, zlen_cons.
    pose proof (entry_puts_len (k + 0) e now_ns Hx Hnow).
    rewrite (imap_ext _ (λ i e, entry_puts (S k + i) e now_ns))
      by (intros i x _; simpl; f_equal; lia).
    specialize (IH (S k) Hl). lia. }
  specialize (Hlen (t_e t) 0%nat He). unfold t_n, REAC_DISCO_MAX in Hn.
  assert (Ht : zlen (json_text t now_ns) ≤ 970).
  { unfold json_text. autorewrite with zlen. simpl in Hlen. lia. }
  split_and!; [done|done|]. rewrite decide_True; [done|]. unfold REAC_DISCO_JSON_MAX. lia.
Qed.

(** A full table of the longest entries. *)
Definition demo_entry (k : Z) : reac_disco_entry :=
  Entry [0; 0x40; 0xab; 0; 0; k] REAC_DISCO_ROLE_UNKNOWN true 40 40 3 0 40 false 1 0 0.
Definition demo_full : reac_disco_table := Table (demo_entry <$> zseq 0 8) false 8.

Lemma json_snapshot_fits_witness :
  zlen (json_text demo_full (2 ^ 64 - 1)) ≤ 970 ∧
  reac_disco_table_json demo_full (2 ^ 64 - 1) REAC_DISCO_JSON_MAX
    = Some (json_text demo_full (2 ^ 64 - 1)).
Proof.
  assert (He : Forall (λ e, 0 ≤ e_last_seen_ns e) (t_e demo_full)) by (repeat constructor; simpl; lia).
  destruct (json_snapshot_fits demo_full (2 ^ 64 - 1) 1280 ltac:(vm_compute; discriminate) He ltac:(lia))
    as (_ & H2 & H3). exact (conj H2 H3).
Defined.
