(* ===== verification/Clock.v ===== *)
(** * Clock: which reference paces a segment, and how closely it is followed

    Models [src/reac_clock.c]: the two reference hierarchies and the graded
    selection, the loop that follows a measured frequency error, the discipline
    around it (UNLOCKED, LOCKING, LOCKED, HOLDOVER), and the grading of a
    device name. A C [double] is a binary64 value of the Standard Library's
    [SpecFloat], whose operations round to nearest even as IEEE 754 does, so
    the arithmetic is the machine's and the definitions evaluate. The
    sentences that tell the reference are in Transcript. *)

From Stdlib Require String SpecFloat.
From S2P Require Import Prelude BoxModel.
Import String.StringSyntax.
Import SpecFloat.
Local Open Scope Z_scope.

(** ** binary64 *)

Definition f64_add : spec_float → spec_float → spec_float := SFadd 53 1024.
Definition f64_sub : spec_float → spec_float → spec_float := SFsub 53 1024.
Definition f64_mul : spec_float → spec_float → spec_float := SFmul 53 1024.
Definition f64_div : spec_float → spec_float → spec_float := SFdiv 53 1024.
Definition f64_sqrt : spec_float → spec_float := SFsqrt 53 1024.
(** [(double)n], and the double nearest to [n / d]. *)
Definition f64_of_Z (n : Z) : spec_float := binary_normalize 53 1024 n 0 false.
Definition f64_ratio (n d : Z) : spec_float := f64_div (f64_of_Z n) (f64_of_Z d).
(** [a < b] and [a > b]; false on a NaN. *)
Definition f64_ltb : spec_float → spec_float → bool := SFltb.
Definition f64_gtb (a b : spec_float) : bool := SFltb b a.
(** [(long)x] of a finite value: truncation. *)
Definition f64_to_Z (x : spec_float) : Z :=
  match x with
  | S754_finite s m e =>
      let v := if 0 <=? e then Z.pos m * 2 ^ e else Z.pos m / 2 ^ (- e) in if s then - v else v
  | _ => 0
  end.
Definition f64_zero : spec_float := S754_zero false.

Definition REAC_DLL_KP : spec_float := f64_ratio 1 4.
Definition REAC_DLL_MAX_PPM : spec_float := f64_of_Z 200.
Definition REAC_DLL_SLEW_PPM : spec_float := f64_of_Z 10.
Definition REAC_DLL_SANE_PPM : spec_float := f64_of_Z 2000.
Definition REAC_DLL_LOCK_PPM : spec_float := f64_of_Z 2.
Definition REAC_DLL_LOCK_UPDATES : Z := 4.
Definition REAC_DLL_RESID_ALPHA : spec_float := f64_ratio 1 10.
Definition REAC_DLL_STAB_ALPHA : spec_float := f64_ratio 2 100.
Definition REAC_DLL_STAB_MIN_N : Z := 32.
Definition REAC_DLL_STABLE_PPM : spec_float := f64_ratio 1 2.
Definition REAC_DLL_UNSTABLE_PPM : spec_float := f64_of_Z 4.

Example alpha_tenth : REAC_DLL_RESID_ALPHA = S754_finite false 7205759403792794 (-56).
Proof. reflexivity. Qed.
Example alpha_fiftieth : REAC_DLL_STAB_ALPHA = S754_finite false 5764607523034235 (-58).
Proof. reflexivity. Qed.

(** ** Roles, references, grades *)

Inductive reac_role := REAC_ROLE_MASTER | REAC_ROLE_SLAVE.
Inductive reac_clock_source :=
| REAC_CLOCK_SRC_FREERUN | REAC_CLOCK_SRC_BOX | REAC_CLOCK_SRC_GRAPH | REAC_CLOCK_SRC_PHC
| REAC_CLOCK_SRC_WIRE.
Inductive reac_clock_quality :=
| REAC_CLOCK_Q_UNUSABLE | REAC_CLOCK_Q_MARGINAL | REAC_CLOCK_Q_UNGRADED | REAC_CLOCK_Q_GOOD
| REAC_CLOCK_Q_DESIGNATED.
Inductive reac_clock_stability :=
| REAC_CLOCK_STAB_UNKNOWN | REAC_CLOCK_STAB_STABLE | REAC_CLOCK_STAB_UNSTABLE.
Inductive reac_clock_state :=
| REAC_CLOCK_UNLOCKED | REAC_CLOCK_LOCKING | REAC_CLOCK_LOCKED | REAC_CLOCK_HOLDOVER.

#[global] Instance reac_role_eq_dec : EqDecision reac_role.
Proof. solve_decision. Defined.
#[global] Instance reac_clock_source_eq_dec : EqDecision reac_clock_source.
Proof. solve_decision. Defined.
#[global] Instance reac_clock_quality_eq_dec : EqDecision reac_clock_quality.
Proof. solve_decision. Defined.
#[global] Instance reac_clock_state_eq_dec : EqDecision reac_clock_state.
Proof. solve_decision. Defined.

(** The enumerators' values. *)
Definition src_index (s : reac_clock_source) : Z :=
  match s with
  | REAC_CLOCK_SRC_FREERUN => 0 | REAC_CLOCK_SRC_BOX => 1 | REAC_CLOCK_SRC_GRAPH => 2
  | REAC_CLOCK_SRC_PHC => 3 | REAC_CLOCK_SRC_WIRE => 4
  end.
Definition quality_rank (q : reac_clock_quality) : Z :=
  match q with
  | REAC_CLOCK_Q_UNUSABLE => 0 | REAC_CLOCK_Q_MARGINAL => 1 | REAC_CLOCK_Q_UNGRADED => 2
  | REAC_CLOCK_Q_GOOD => 3 | REAC_CLOCK_Q_DESIGNATED => 4
  end.

Definition master_hier : list reac_clock_source :=
  [REAC_CLOCK_SRC_PHC; REAC_CLOCK_SRC_GRAPH; REAC_CLOCK_SRC_BOX].
Definition slave_hier : list reac_clock_source := [REAC_CLOCK_SRC_WIRE].
Definition reac_clock_hierarchy (role : reac_role) : list reac_clock_source :=
  match role with REAC_ROLE_SLAVE => slave_hier | REAC_ROLE_MASTER => master_hier end.

(** [avail & (1u << s)], and the admission bar; [None] is a [NULL] table. *)
Definition present (avail : Z) (s : reac_clock_source) : bool := Z.testbit avail (src_index s).
Definition admitted (q : option (reac_clock_source → reac_clock_quality)) (min_q : reac_clock_quality)
    (s : reac_clock_source) : bool :=
  match q with Some q => quality_rank min_q <=? quality_rank (q s) | None => true end.

Fixpoint select_from (h : list reac_clock_source) (avail : Z)
    (q : option (reac_clock_source → reac_clock_quality)) (min_q : reac_clock_quality)
    : reac_clock_source :=
  match h with
  | [] => REAC_CLOCK_SRC_FREERUN
  | s :: h =>
      if negb (present avail s) then select_from h avail q min_q
      else if negb (admitted q min_q s) then select_from h avail q min_q
      else s
  end.

Definition reac_clock_select_graded (role : reac_role) (avail : Z)
    (q : option (reac_clock_source → reac_clock_quality)) (min_q : reac_clock_quality)
    : reac_clock_source := select_from (reac_clock_hierarchy role) avail q min_q.

Definition reac_clock_select (role : reac_role) (avail : Z) : reac_clock_source :=
  reac_clock_select_graded role avail None REAC_CLOCK_Q_UNUSABLE.

Definition reac_clock_quality_can_own (q : reac_clock_quality) : bool :=
  quality_rank REAC_CLOCK_Q_UNGRADED <=? quality_rank q.

(** ** The loop *)

Record reac_dll := Dll {
  d_nominal_ns : Z; d_applied_ppm : spec_float; d_last_residual : spec_float;
  d_resid_ema : spec_float; d_resid_mean : spec_float; d_resid_var : spec_float;
  d_stab_n : Z; d_stab_verdict : reac_clock_stability;
  d_updates : Z; d_rejected : Z; d_clamped : Z
}.

Definition reac_dll_init (nominal_period_ns : Z) : reac_dll :=
  Dll nominal_period_ns f64_zero f64_zero f64_zero f64_zero f64_zero 0 REAC_CLOCK_STAB_UNKNOWN 0 0 0.

(** [x] held to [[-m, m]], and whether it was out. *)
Definition f64_clamp (x m : spec_float) : spec_float * bool :=
  if f64_gtb x m then (m, true)
  else if f64_ltb x (SFopp m) then (SFopp m, true)
  else (x, false).

Definition sane (measured_ppm : spec_float) : bool :=
  f64_gtb measured_ppm (SFopp REAC_DLL_SANE_PPM) && f64_ltb measured_ppm REAC_DLL_SANE_PPM.

(** The applied correction after a sane sample, and whether it hit the clamp. *)
Definition dll_steer (applied residual : spec_float) : spec_float * bool :=
  let '(target, clamped) := f64_clamp (f64_add applied (f64_mul REAC_DLL_KP residual)) REAC_DLL_MAX_PPM in
  let '(step, _) := f64_clamp (f64_sub target applied) REAC_DLL_SLEW_PPM in
  (f64_add applied step, clamped).

(** [residual < 0.0 ? -residual : residual]. *)
Definition f64_mag (x : spec_float) : spec_float := if f64_ltb x f64_zero then SFopp x else x.

Definition dll_ema (d : reac_dll) (residual : spec_float) : spec_float :=
  if d_updates d =? 0 then f64_mag residual
  else f64_add (d_resid_ema d)
         (f64_mul REAC_DLL_RESID_ALPHA (f64_sub (f64_mag residual) (d_resid_ema d))).

(** The stability series after one in-band residual: mean and variance. *)
Definition dll_stability_fold (d : reac_dll) (residual : spec_float) : spec_float * spec_float :=
  if d_stab_n d =? 0 then (residual, f64_zero)
  else
    let delta := f64_sub residual (d_resid_mean d) in
    (f64_add (d_resid_mean d) (f64_mul REAC_DLL_STAB_ALPHA delta),
     f64_add (d_resid_var d)
       (f64_mul REAC_DLL_STAB_ALPHA (f64_sub (f64_mul delta delta) (d_resid_var d)))).

Definition stab_judge (n : Z) (var : spec_float) (old : reac_clock_stability) : reac_clock_stability :=
  if REAC_DLL_STAB_MIN_N <=? n then
    let sigma := f64_sqrt var in
    if f64_ltb sigma REAC_DLL_STABLE_PPM then REAC_CLOCK_STAB_STABLE
    else if f64_gtb sigma REAC_DLL_UNSTABLE_PPM then REAC_CLOCK_STAB_UNSTABLE
    else old
  else old.

(** The loop after one measurement, and the C return value. *)
Definition reac_dll_update (d : reac_dll) (measured_ppm : spec_float) : reac_dll * bool :=
  if negb (sane measured_ppm) then
    (Dll (d_nominal_ns d) (d_applied_ppm d) (d_last_residual d) (d_resid_ema d) (d_resid_mean d)
       (d_resid_var d) (d_stab_n d) (d_stab_verdict d) (d_updates d) (u64 (d_rejected d + 1))
       (d_clamped d), false)
  else
    let residual := f64_sub measured_ppm (d_applied_ppm d) in
    let '(applied, clamped) := dll_steer (d_applied_ppm d) residual in
    let tracking := (0 <? d_updates d) && f64_ltb (d_resid_ema d) REAC_DLL_LOCK_PPM in
    let ema := dll_ema d residual in
    let clamps := if clamped then u64 (d_clamped d + 1) else d_clamped d in
    let updates := u64 (d_updates d + 1) in
    if negb tracking then
      (Dll (d_nominal_ns d) applied residual ema (d_resid_mean d) (d_resid_var d) (d_stab_n d)
         (d_stab_verdict d) updates (d_rejected d) clamps, true)
    else
      let '(mean, var) := dll_stability_fold d residual in
      let n := u64 (d_stab_n d + 1) in
      (Dll (d_nominal_ns d) applied residual ema mean var n (stab_judge n var (d_stab_verdict d))
         updates (d_rejected d) clamps, true).

Definition reac_dll_resid_sigma (d : reac_dll) : spec_float := f64_sqrt (d_resid_var d).

Definition reac_dll_stability (d : reac_dll) : reac_clock_stability :=
  if d_stab_n d <? REAC_DLL_STAB_MIN_N then REAC_CLOCK_STAB_UNKNOWN else d_stab_verdict d.

Definition reac_dll_stability_reset (d : reac_dll) : reac_dll :=
  Dll (d_nominal_ns d) (d_applied_ppm d) (d_last_residual d) (d_resid_ema d) f64_zero f64_zero 0
    REAC_CLOCK_STAB_UNKNOWN (d_updates d) (d_rejected d) (d_clamped d).

Definition reac_dll_period_ns (d : reac_dll) : Z :=
  let p := f64_div (f64_of_Z (d_nominal_ns d))
             (f64_add (f64_of_Z 1) (f64_div (d_applied_ppm d) (f64_of_Z 1000000))) in
  let ns := f64_to_Z (f64_add p (f64_ratio 1 2)) in
  if 0 <? ns then ns else d_nominal_ns d.

Definition reac_clock_quality_apply (src : reac_clock_source) (inferred : reac_clock_quality)
    (measured : reac_clock_stability) : reac_clock_quality :=
  if bool_decide (inferred = REAC_CLOCK_Q_UNUSABLE) then REAC_CLOCK_Q_UNUSABLE
  else match measured with
       | REAC_CLOCK_STAB_UNSTABLE => REAC_CLOCK_Q_MARGINAL
       | REAC_CLOCK_STAB_STABLE =>
           if bool_decide (src = REAC_CLOCK_SRC_BOX) then inferred
           else if quality_rank inferred <? quality_rank REAC_CLOCK_Q_GOOD then REAC_CLOCK_Q_GOOD
           else inferred
       | REAC_CLOCK_STAB_UNKNOWN => inferred
       end.

(** ** The discipline *)

Record reac_clock_disc := Disc {
  c_role : reac_role; c_dll : reac_dll; c_src : reac_clock_source; c_state : reac_clock_state;
  c_in_band : Z; c_generation : Z; c_holdovers : Z; c_switches : Z;
  c_quality : reac_clock_source → reac_clock_quality; c_min_quality : reac_clock_quality;
  c_src_quality : reac_clock_quality
}.

Definition reac_clock_disc_init (role : reac_role) (nominal_period_ns : Z) : reac_clock_disc :=
  Disc role (reac_dll_init nominal_period_ns) REAC_CLOCK_SRC_FREERUN REAC_CLOCK_UNLOCKED 0 0 0 0
    (λ _, REAC_CLOCK_Q_UNGRADED) REAC_CLOCK_Q_MARGINAL REAC_CLOCK_Q_UNGRADED.

Definition reac_clock_disc_set_quality (c : reac_clock_disc) (src : reac_clock_source)
    (q : reac_clock_quality) : reac_clock_disc :=
  Disc (c_role c) (c_dll c) (c_src c) (c_state c) (c_in_band c) (c_generation c) (c_holdovers c)
    (c_switches c) (λ s, if decide (s = src) then q else c_quality c s) (c_min_quality c)
    (c_src_quality c).

(** The part of the state one evaluation moves before the grades. *)
Record disc_core := Core {
  ck_dll : reac_dll; ck_state : reac_clock_state; ck_in_band : Z; ck_holdovers : Z; ck_switches : Z
}.

(** A change of reference: the stability series and the lock start over. *)
Definition disc_switch (c : reac_clock_disc) (src : reac_clock_source) : disc_core :=
  if bool_decide (src = c_src c)
  then Core (c_dll c) (c_state c) (c_in_band c) (c_holdovers c) (c_switches c)
  else Core (reac_dll_stability_reset (c_dll c))
         (if bool_decide (src = REAC_CLOCK_SRC_FREERUN) then c_state c else REAC_CLOCK_LOCKING)
         0 (c_holdovers c) (u64 (c_switches c + 1)).

(** No reference: the last rate is held, if there ever was one. *)
Definition disc_freerun (prev_state : reac_clock_state) (k : disc_core) : disc_core :=
  if 0 <? d_updates (ck_dll k) then
    Core (ck_dll k) REAC_CLOCK_HOLDOVER (ck_in_band k)
      (if bool_decide (prev_state = REAC_CLOCK_HOLDOVER) then ck_holdovers k
       else u64 (ck_holdovers k + 1)) (ck_switches k)
  else Core (ck_dll k) REAC_CLOCK_UNLOCKED (ck_in_band k) (ck_holdovers k) (ck_switches k).

(** A reference with no usable sample is being acquired, not followed. *)
Definition disc_waiting (k : disc_core) : disc_core :=
  match ck_state k with
  | REAC_CLOCK_UNLOCKED | REAC_CLOCK_HOLDOVER =>
      Core (ck_dll k) REAC_CLOCK_LOCKING (ck_in_band k) (ck_holdovers k) (ck_switches k)
  | _ => k
  end.

Definition disc_sample (k : disc_core) (d : reac_dll) : disc_core :=
  let in_band := if f64_ltb (d_resid_ema d) REAC_DLL_LOCK_PPM then ck_in_band k + 1 else 0 in
  Core d (if REAC_DLL_LOCK_UPDATES <=? in_band then REAC_CLOCK_LOCKED else REAC_CLOCK_LOCKING)
    in_band (ck_holdovers k) (ck_switches k).

Definition disc_follow (k : disc_core) (measured_ppm : spec_float) (have_measurement : bool)
    : disc_core :=
  if have_measurement then
    let '(d, accepted) := reac_dll_update (ck_dll k) measured_ppm in
    if accepted then disc_sample k d
    else disc_waiting (Core d (ck_state k) (ck_in_band k) (ck_holdovers k) (ck_switches k))
  else disc_waiting k.

Definition reac_clock_disc_update (c : reac_clock_disc) (avail : Z) (measured_ppm : spec_float)
    (have_measurement : bool) : reac_clock_disc :=
  let src := reac_clock_select_graded (c_role c) avail (Some (c_quality c)) (c_min_quality c) in
  let k := disc_switch c src in
  let k := if bool_decide (src = REAC_CLOCK_SRC_FREERUN) then disc_freerun (c_state c) k
           else disc_follow k measured_ppm have_measurement in
  let src_quality :=
    if bool_decide (src = REAC_CLOCK_SRC_FREERUN) then REAC_CLOCK_Q_UNGRADED
    else reac_clock_quality_apply src (c_quality c src) (reac_dll_stability (ck_dll k)) in
  let changed := negb (bool_decide (src = c_src c)) || negb (bool_decide (ck_state k = c_state c))
                 || negb (bool_decide (src_quality = c_src_quality c)) in
  Disc (c_role c) (ck_dll k) src (ck_state k) (ck_in_band k)
    (if changed then u32 (c_generation c + 1) else c_generation c) (ck_holdovers k) (ck_switches k)
    (c_quality c) (c_min_quality c) src_quality.

Definition reac_clock_disc_period_ns (c : reac_clock_disc) : Z :=
  if bool_decide (c_state c = REAC_CLOCK_UNLOCKED) then d_nominal_ns (c_dll c)
  else reac_dll_period_ns (c_dll c).

Definition reac_clock_ppm_from_rate_diff (rate_diff : spec_float) : spec_float :=
  if SFleb rate_diff f64_zero then f64_zero
  else f64_mul (f64_sub rate_diff (f64_of_Z 1)) (f64_of_Z 1000000).

(** ** Device names *)

(** A name is its characters; [None] is a [NULL] pointer. *)
Definition reac_clock_name_is_hardware (name : option (list Z)) : bool :=
  match name with
  | None | Some [] => false
  | Some n => negb (zeqb (slice n 0 13) (str "clock.system."))
  end.

Definition ci_fold (c : Z) : Z := if (65 <=? c) && (c <=? 90) then c - 65 + 97 else c.

(** The inner loop: [needle] matches at the head of [hay]. *)
Fixpoint ci_prefix (hay needle : list Z) : bool :=
  match needle, hay with
  | [], _ => true
  | _ :: _, [] => false
  | n :: needle, h :: hay => (ci_fold h =? ci_fold n) && ci_prefix hay needle
  end.

Fixpoint ci_search (hay needle : list Z) : bool :=
  match hay with
  | [] => false
  | h :: rest => ci_prefix (h :: rest) needle || ci_search rest needle
  end.

Definition ci_contains (hay needle : option (list Z)) : bool :=
  match hay, needle with
  | Some h, Some (n :: ns) => ci_search h (n :: ns)
  | _, _ => false
  end.

Definition unusable_names : list (list Z) :=
  [str "dummy"; str "freewheel"; str "hdmi"; str "displayport"; str "display-port"].

Definition reac_clock_name_quality (name : option (list Z)) : reac_clock_quality :=
  match name with
  | None | Some [] => REAC_CLOCK_Q_UNUSABLE
  | Some _ =>
      if negb (reac_clock_name_is_hardware name) then REAC_CLOCK_Q_UNUSABLE
      else if existsb (λ u, ci_contains name (Some u)) unusable_names then REAC_CLOCK_Q_UNUSABLE
      else REAC_CLOCK_Q_UNGRADED
  end.

Definition reac_clock_name_is_designated (name designation : option (list Z)) : bool :=
  match designation with
  | None | Some [] => false
  | Some _ => ci_contains name designation
  end.

Definition reac_clock_grade_name (name designation : option (list Z)) : reac_clock_quality :=
  let q := reac_clock_name_quality name in
  if bool_decide (q = REAC_CLOCK_Q_UNUSABLE) then q
  else if reac_clock_name_is_designated name designation then REAC_CLOCK_Q_DESIGNATED
  else q.

(** * Properties *)

(** ** A run of the discipline

    The log holds, newest first, the reference every accepted sample came from
    and whether the filtered residual was in band after it. *)
Definition sample_log : Type := list (reac_clock_source * bool).

Definition sample_accepted (c : reac_clock_disc) (avail : Z) (ppm : spec_float) (have : bool) : bool :=
  have && sane ppm &&
  negb (bool_decide (reac_clock_select_graded (c_role c) avail (Some (c_quality c)) (c_min_quality c)
                     = REAC_CLOCK_SRC_FREERUN)).

Definition log_of (c' : reac_clock_disc) : reac_clock_source * bool :=
  (c_src c', f64_ltb (d_resid_ema (c_dll c')) REAC_DLL_LOCK_PPM).

Inductive clock_run (role : reac_role) (nominal : Z) : reac_clock_disc → sample_log → Prop :=
| run_init : clock_run role nominal (reac_clock_disc_init role nominal) []
| run_grade c log src q :
    clock_run role nominal c log →
    clock_run role nominal (reac_clock_disc_set_quality c src q) log
| run_update c log avail ppm have :
    clock_run role nominal c log →
    let c' := reac_clock_disc_update c avail ppm have in
    clock_run role nominal c' (if sample_accepted c avail ppm have then log_of c' :: log else log).

(** *** One evaluation *)

Lemma dll_update_eq d ppm :
  reac_dll_update d ppm =
  if sane ppm then ((reac_dll_update d ppm).1, true)
  else (Dll (d_nominal_ns d) (d_applied_ppm d) (d_last_residual d) (d_resid_ema d) (d_resid_mean d)
       (d_resid_var d) (d_stab_n d) (d_stab_verdict d) (d_updates d) (u64 (d_rejected d + 1))
       (d_clamped d), false).
Proof.
  unfold reac_dll_update. destruct (sane ppm); cbn [negb]; [|done].
  destruct (dll_steer _ _), (negb _); [done|]. by destruct (dll_stability_fold _ _).
Qed.

Lemma dll_update_counts d ppm :
  sane ppm = true → d_updates (reac_dll_update d ppm).1 = u64 (d_updates d + 1).
Proof.
  intros Hs. unfold reac_dll_update. rewrite Hs. cbn [negb].
  destruct (dll_steer _ _), (negb _); [done|]. by destruct (dll_stability_fold _ _).
Qed.

Lemma select_in_hierarchy h avail q min_q :
  select_from h avail q min_q = REAC_CLOCK_SRC_FREERUN ∨
  select_from h avail q min_q ∈ h ∧ admitted q min_q (select_from h avail q min_q) = true.
Proof.
  induction h as [|s h IH]; [by left|]. simpl. destruct (present avail s); simpl.
  - destruct (admitted q min_q s) eqn:E; simpl; [right; split; [left|done]|].
    destruct IH as [->|[? ?]]; [by left|right; split; [by right|done]].
  - destruct IH as [->|[? ?]]; [by left|right; split; [by right|done]].
Qed.

Record clock_inv (role : reac_role) (c : reac_clock_disc) (log : sample_log) : Prop := ClockInv {
  cv_role : c_role c = role;
  cv_min : c_min_quality c = REAC_CLOCK_Q_MARGINAL;
  cv_band : 0 ≤ c_in_band c ∧
    ∃ old, log = replicate (Z.to_nat (c_in_band c)) (c_src c, true) ++ old;
  cv_locked : c_state c = REAC_CLOCK_LOCKED → REAC_DLL_LOCK_UPDATES ≤ c_in_band c;
  cv_free : c_src c = REAC_CLOCK_SRC_FREERUN ↔
    (c_state c = REAC_CLOCK_UNLOCKED ∨ c_state c = REAC_CLOCK_HOLDOVER);
  cv_never : zlen log < 2 ^ 64 → c_state c = REAC_CLOCK_UNLOCKED → log = [];
  cv_held : c_state c = REAC_CLOCK_HOLDOVER → log ≠ [];
  cv_updates : d_updates (c_dll c) = u64 (zlen log);
  cv_src : c_src c = REAC_CLOCK_SRC_FREERUN ∨ c_src c ∈ reac_clock_hierarchy role
}.

Lemma clock_inv_init role nominal : clock_inv role (reac_clock_disc_init role nominal) [].
Proof.
  split; try done.
  - split; [done|]. by exists [].
  - simpl. tauto.
  - by left.
Qed.

(** What a followed reference's core keeps. *)
Record core_ok (src : reac_clock_source) (k : disc_core) (log : sample_log) : Prop := CoreOk {
  co_band : 0 ≤ ck_in_band k ∧
    ∃ old, log = replicate (Z.to_nat (ck_in_band k)) (src, true) ++ old;
  co_locked : ck_state k = REAC_CLOCK_LOCKED → REAC_DLL_LOCK_UPDATES ≤ ck_in_band k;
  co_followed : ck_state k ≠ REAC_CLOCK_UNLOCKED ∧ ck_state k ≠ REAC_CLOCK_HOLDOVER;
  co_updates : d_updates (ck_dll k) = u64 (zlen log)
}.

Lemma switch_ok role c log src :
  clock_inv role c log → src ≠ REAC_CLOCK_SRC_FREERUN → core_ok src (disc_switch c src) log.
Proof.
  intros [_ _ Hb Hl Hf _ _ Hu _] Hne. unfold disc_switch.
  case_bool_decide as Hs; [subst src|rewrite bool_decide_eq_false_2 by done].
  - split; simpl; [done|done| |done]. split; intros E; apply Hne, Hf; auto.
  - split; simpl; [split; [done|by exists log]|done|by split|done].
Qed.

Lemma waiting_ok k src log : core_ok src k log → disc_waiting k = k.
Proof. intros [_ _ [H1 H2] _]. unfold disc_waiting. by destruct (ck_state k). Qed.

Lemma follow_ok src k log ppm have :
  core_ok src k log →
  let k' := disc_follow k ppm have in
  core_ok src k' (if have && sane ppm
                  then (src, f64_ltb (d_resid_ema (ck_dll k')) REAC_DLL_LOCK_PPM) :: log else log) ∧
  (have && sane ppm = false → d_applied_ppm (ck_dll k') = d_applied_ppm (ck_dll k)).
Proof.
  intros H. unfold disc_follow. destruct have; simpl; [|by rewrite (waiting_ok k src log)].
  rewrite dll_update_eq. destruct (sane ppm) eqn:Es; cycle 1.
  { assert (Hk : core_ok src (Core (Dll (d_nominal_ns (ck_dll k)) (d_applied_ppm (ck_dll k))
      (d_last_residual (ck_dll k)) (d_resid_ema (ck_dll k)) (d_resid_mean (ck_dll k))
      (d_resid_var (ck_dll k)) (d_stab_n (ck_dll k)) (d_stab_verdict (ck_dll k))
      (d_updates (ck_dll k)) (u64 (d_rejected (ck_dll k) + 1)) (d_clamped (ck_dll k)))
      (ck_state k) (ck_in_band k) (ck_holdovers k) (ck_switches k)) log) by (by destruct H; split).
    by rewrite (waiting_ok _ src log). }
  pose proof (dll_update_counts (ck_dll k) ppm Es) as Hc.
  destruct (reac_dll_update (ck_dll k) ppm) as [d b]. cbn [fst] in *. unfold disc_sample; simpl.
  destruct H as [[Hn [old Hold]] Hl Hf Hu].
  split; [|done]. destruct (f64_ltb (d_resid_ema d) REAC_DLL_LOCK_PPM).
  - split; simpl.
    + split; [lia|]. exists old. replace (Z.to_nat (ck_in_band k + 1)) with (S (Z.to_nat (ck_in_band k))) by lia.
      simpl. by rewrite <- Hold.
    + intros E. destruct (_ <=? _) eqn:El; [lia|done].
    + by destruct (_ <=? _).
    + rewrite Hc, Hu, zlen_cons. unfold u64. rewrite Zplus_mod_idemp_l. f_equal. lia.
  - split; simpl; [split; [done|by eexists]|done|done|].
    rewrite Hc, Hu, zlen_cons. unfold u64. rewrite Zplus_mod_idemp_l. f_equal. lia.
Qed.

Lemma switch_keeps c src :
  d_applied_ppm (ck_dll (disc_switch c src)) = d_applied_ppm (c_dll c) ∧
  d_updates (ck_dll (disc_switch c src)) = d_updates (c_dll c).
Proof. unfold disc_switch. by case_bool_decide. Qed.

Lemma clock_inv_update role c log avail ppm have :
  clock_inv role c log →
  let c' := reac_clock_disc_update c avail ppm have in
  let accepted := sample_accepted c avail ppm have in
  clock_inv role c' (if accepted then log_of c' :: log else log) ∧
  (accepted = false → d_applied_ppm (c_dll c') = d_applied_ppm (c_dll c)).
Proof.
  intros H. pose proof H as [Hr Hm Hb Hl Hf Hn Hh Hu Hs]. unfold reac_clock_disc_update, sample_accepted.
  set (src := reac_clock_select_graded _ _ _ _).
  assert (Hsrc : src = REAC_CLOCK_SRC_FREERUN ∨ src ∈ reac_clock_hierarchy role).
  { subst src. unfold reac_clock_select_graded. rewrite Hr.
    destruct (select_in_hierarchy (reac_clock_hierarchy role) avail (Some (c_quality c)) (c_min_quality c))
      as [->|[? _]]; auto. }
  destruct (switch_keeps c src) as [Ha Hup]. case_bool_decide as Hfree; simpl.
  - rewrite andb_false_r. unfold disc_freerun.
    assert (Hband : 0 ≤ ck_in_band (disc_switch c src) ∧
      ∃ old, log = replicate (Z.to_nat (ck_in_band (disc_switch c src))) (src, true) ++ old).
    { unfold disc_switch. case_bool_decide as Es; [rewrite Es; exact Hb|]. split; [done|]. by exists log. }
    destruct (0 <? d_updates _) eqn:E; (split; [split|]); simpl; try done; try tauto.
    + intros _ ->. by rewrite Hup, Hu in E.
    + by rewrite Hup.
    + intros Hlen _. rewrite Hup, Hu in E. pose proof (zlen_nonneg log).
      unfold u64 in E. rewrite Z.mod_small in E by lia. destruct log; [done|]. rewrite zlen_cons in *.
      pose proof (zlen_nonneg log). lia.
    + by rewrite Hup.
  - rewrite andb_true_r. destruct (follow_ok src (disc_switch c src) log ppm have) as [[Kb Kl Kf Ku] Kp];
      [by apply (switch_ok role)|]. unfold log_of. simpl. split; [|by rewrite Ha in Kp].
    split; simpl; (done || tauto || (intros E; by destruct Kf)).
Qed.

Lemma clock_run_inv role nominal c log : clock_run role nominal c log → clock_inv role c log.
Proof.
  induction 1 as [|c log src q _ IH|c log avail ppm have _ IH c'].
  - apply clock_inv_init.
  - by destruct IH; split.
  - by apply clock_inv_update.
Qed.

(** C35. The clock never claims more than it measured. Along any run of
    evaluations and gradings: the reference in use is one of the role's own
    hierarchy or none; LOCKED means that the last four accepted samples all came
    from that reference and left the filtered residual inside 2 ppm; without a
    reference the state is HOLDOVER or UNLOCKED and with one it is neither;
    UNLOCKED means no sample was ever accepted, and HOLDOVER that one was, so that
    there is a correction to hold; and an evaluation that accepts no sample (no
    reference, none fresh, or one out of the sane band) leaves the applied
    correction as the last accepted sample left it. *)
Theorem clock_lock_earned (role : reac_role) (nominal : Z) (c : reac_clock_disc) (log : sample_log)
    (avail : Z) (ppm : spec_float) (have : bool) :
  clock_run role nominal c log → zlen log < 2 ^ 64 →
  let c' := reac_clock_disc_update c avail ppm have in
  (c_src c = REAC_CLOCK_SRC_FREERUN ∨ c_src c ∈ reac_clock_hierarchy role) ∧
  (c_state c = REAC_CLOCK_LOCKED →
     c_src c ≠ REAC_CLOCK_SRC_FREERUN ∧ take 4 log = replicate 4 (c_src c, true)) ∧
  (c_src c = REAC_CLOCK_SRC_FREERUN ↔
     c_state c = REAC_CLOCK_UNLOCKED ∨ c_state c = REAC_CLOCK_HOLDOVER) ∧
  (c_state c = REAC_CLOCK_UNLOCKED → log = []) ∧
  (c_state c = REAC_CLOCK_HOLDOVER → log ≠ []) ∧
  (sample_accepted c avail ppm have = false → d_applied_ppm (c_dll c') = d_applied_ppm (c_dll c)).
Proof.
  intros Hrun Hlen. apply clock_run_inv in Hrun as H.
  destruct (clock_inv_update role c log avail ppm have H) as [_ Hkeep].
  destruct H as [Hr Hm [Hb0 [old Hb]] Hl Hf Hn Hh Hu Hs]. split_and!; [done| |done|auto|done|done].
  intros E. specialize (Hl E). unfold REAC_DLL_LOCK_UPDATES in Hl. split.
  - intros Hfree. apply Hf in Hfree as [?|?]; congruence.
  - rewrite Hb, take_app_le by (rewrite length_replicate; lia). by rewrite take_replicate, Nat.min_l by lia.
Qed.

(** A PHC that reads +1 ppm, four times. *)
Definition demo_clock (n : nat) : reac_clock_disc :=
  Nat.iter n (λ c, reac_clock_disc_update c 8 (f64_of_Z 1) true)
    (reac_clock_disc_init REAC_ROLE_MASTER 250000).

Fixpoint demo_log (n : nat) : sample_log :=
  match n with
  | O => []
  | S n => if sample_accepted (demo_clock n) 8 (f64_of_Z 1) true
           then log_of (demo_clock (S n)) :: demo_log n else demo_log n
  end.

Lemma demo_clock_run n : clock_run REAC_ROLE_MASTER 250000 (demo_clock n) (demo_log n).
Proof. induction n as [|n IH]; [apply run_init|]. exact (run_update _ _ _ _ 8 (f64_of_Z 1) true IH). Qed.

Lemma demo_clock_facts :
  zlen (demo_log 4) < 2 ^ 64 ∧ c_state (demo_clock 4) = REAC_CLOCK_LOCKED ∧
  sample_accepted (demo_clock 4) 0 f64_zero false = false.
Proof. vm_compute. done. Qed.

Lemma clock_lock_earned_witness :
  c_src (demo_clock 4) ≠ REAC_CLOCK_SRC_FREERUN ∧ take 4 (demo_log 4) = replicate 4 (c_src (demo_clock 4), true) ∧
  d_applied_ppm (c_dll (reac_clock_disc_update (demo_clock 4) 0 f64_zero false))
    = d_applied_ppm (c_dll (demo_clock 4)).
Proof.
  destruct demo_clock_facts as (Hlen & E & Hs).
  destruct (clock_lock_earned REAC_ROLE_MASTER 250000 (demo_clock 4) (demo_log 4) 0 f64_zero false
    (demo_clock_run 4) Hlen) as (_ & H2 & _ & _ & _ & H5).
  exact (conj (proj1 (H2 E)) (conj (proj2 (H2 E)) (H5 Hs))).
Defined.
