(* ===== verification/Arbitration.v ===== *)
(** * Arbitration: who drives this segment

    Models [src/reac_arbitration.c]: what kind of peer a rival master is, who
    the segment's master is as far as the sighting table shows, and the refusal
    a surface publishes. It decides nothing; the hunt acts on it. *)

From Stdlib Require String.
From S2P Require Import Prelude Wire BoxModel MasterFsm Disco Clock.
Import String.StringSyntax.
From Stdlib Require Import QArith.
Local Open Scope Z_scope.

Inductive reac_segment_master := REAC_SEGMENT_NONE | REAC_SEGMENT_US | REAC_SEGMENT_FOREIGN.
Inductive reac_pace_source :=
| REAC_PACE_FREE_RUN | REAC_PACE_FOREIGN_MASTER | REAC_PACE_PHC | REAC_PACE_GRAPH_REF
| REAC_PACE_BOX_SLOPE.
Inductive reac_rival_kind :=
| REAC_RIVAL_NONE | REAC_RIVAL_DESK | REAC_RIVAL_BOX | REAC_RIVAL_UNKNOWN | REAC_RIVAL_PENDING.

#[global] Instance reac_segment_master_eq_dec : EqDecision reac_segment_master.
Proof. solve_decision. Defined.
#[global] Instance reac_rival_kind_eq_dec : EqDecision reac_rival_kind.
Proof. solve_decision. Defined.

Record reac_arbitration := Arbitration {
  ar_state : reac_segment_master; ar_mac : list Z; ar_have_mac : bool; ar_pace : reac_pace_source;
  ar_conflict : bool; ar_rival : reac_rival_kind; ar_rival_channels : Z
}.

Definition reac_pace_from_clock (src : reac_clock_source) (state : reac_clock_state)
    : reac_pace_source :=
  match src with
  | REAC_CLOCK_SRC_WIRE => REAC_PACE_FOREIGN_MASTER
  | _ =>
      if negb (bool_decide (state = REAC_CLOCK_LOCKED)) then REAC_PACE_FREE_RUN
      else match src with
           | REAC_CLOCK_SRC_PHC => REAC_PACE_PHC
           | REAC_CLOCK_SRC_GRAPH => REAC_PACE_GRAPH_REF
           | REAC_CLOCK_SRC_BOX => REAC_PACE_BOX_SLOPE
           | _ => REAC_PACE_FREE_RUN
           end
  end.

(** ** The rival *)

(** The entry is a live master that is not ourselves. *)
Definition is_rival (our_mac : option (list Z)) (now_ns : Z) (e : reac_disco_entry) : bool :=
  bool_decide (e_role e = REAC_DISCO_ROLE_MASTER)
  && negb (match our_mac with Some m => zeqb (e_mac e) m | None => false end)
  && negb (stale now_ns e).

(** One turn of the loop: the newest wins, the first of equals stays. *)
Definition rival_step (our_mac : option (list Z)) (now_ns : Z) (best : option reac_disco_entry)
    (e : reac_disco_entry) : option reac_disco_entry :=
  if is_rival our_mac now_ns e then
    match best with
    | None => Some e
    | Some b => if e_last_seen_ns b <? e_last_seen_ns e then Some e else best
    end
  else best.

Definition foreign_master (t : reac_disco_table) (our_mac : option (list Z)) (now_ns : Z)
    : option reac_disco_entry := foldl (rival_step our_mac now_ns) None (t_e t).

Definition reac_rival_kind_of (e : option reac_disco_entry) : reac_rival_kind :=
  match e with
  | None => REAC_RIVAL_NONE
  | Some e =>
      if e_has_decl e || bool_decide (e_role e = REAC_DISCO_ROLE_BOX) then REAC_RIVAL_BOX
      else if negb (e_announced_slots e =? 0) && (e_announced_slots e <? REAC_MAX_CHANNELS)
      then REAC_RIVAL_BOX
      else if e_channels e =? 0 then REAC_RIVAL_UNKNOWN
      else if e_channels e <? REAC_MAX_CHANNELS then REAC_RIVAL_BOX
      else if negb (bool_decide (e_role e = REAC_DISCO_ROLE_MASTER)) then REAC_RIVAL_UNKNOWN
      else if e_announced_slots e =? REAC_MAX_CHANNELS then REAC_RIVAL_DESK
      else REAC_RIVAL_PENDING
  end.

(** ** The aggregate *)

Definition reac_arbitrate (table : option reac_disco_table) (our_mac : option (list Z))
    (fsm : reac_master_state) (own_pace : reac_pace_source) (now_ns : Z) : reac_arbitration :=
  let established := bool_decide (fsm = REAC_M_ESTABLISHED) || bool_decide (fsm = REAC_M_GRANTING) in
  let probing := bool_decide (fsm = REAC_M_PROBING) in
  let rival := match table with Some t => foreign_master t our_mac now_ns | None => None end in
  let us := match our_mac with Some m => (m, true) | None => (zeros 6, false) end in
  if established then
    Arbitration REAC_SEGMENT_US us.1 us.2 own_pace
      (match rival with Some _ => true | None => false end) (reac_rival_kind_of rival)
      (match rival with Some r => e_channels r | None => 0 end)
  else match rival with
  | Some r =>
      Arbitration REAC_SEGMENT_FOREIGN (e_mac r) true REAC_PACE_FOREIGN_MASTER false
        (reac_rival_kind_of rival) (e_channels r)
  | None =>
      if probing
      then Arbitration REAC_SEGMENT_US us.1 us.2 own_pace false REAC_RIVAL_NONE 0
      else Arbitration REAC_SEGMENT_NONE (zeros 6) false own_pace false REAC_RIVAL_NONE 0
  end.

(** ** The hold on a broadcast sender *)

Definition REAC_MASTER_ONLY_CADENCE_FRAMES_44K1 : Z := 3675.
Definition REAC_MASTER_ONLY_CADENCE_FRAMES_48K : Z := 4000.
Definition REAC_MASTER_ONLY_CADENCE_FRAMES_96K : Z := 8000.

Definition reac_master_only_cadence_frames (fps : Z) : Z :=
  if fps <=? 0 then 0
  else
    let rate := reac_rate_snap (inject_Z fps) in
    if rate =? REAC_CFG_RATE_44100 then REAC_MASTER_ONLY_CADENCE_FRAMES_44K1
    else if rate =? REAC_CFG_RATE_96000 then REAC_MASTER_ONLY_CADENCE_FRAMES_96K
    else REAC_MASTER_ONLY_CADENCE_FRAMES_48K.

Definition frames_ns (frames sample_rate : Z) : Z :=
  u64 (frames * 1000000000 * REAC_SAMPLES_PER_PKT) / sample_rate.

Definition reac_master_only_cadence_ns (fps : Z) : Z :=
  if 0 <? fps then
    frames_ns (reac_master_only_cadence_frames fps) (reac_rate_snap (inject_Z fps))
  else
    foldl (λ longest rate,
        let ns := frames_ns (reac_master_only_cadence_frames (rate / REAC_SAMPLES_PER_PKT)) rate in
        if longest <? ns then ns else longest)
      0 [REAC_CFG_RATE_44100; REAC_CFG_RATE_48000; REAC_CFG_RATE_96000].

Definition reac_sender_kind (e : option reac_disco_entry) (now_ns fps : Z) : reac_rival_kind :=
  match e with
  | None => REAC_RIVAL_NONE
  | Some x =>
      if e_has_decl x || bool_decide (e_role x = REAC_DISCO_ROLE_BOX)
         || bool_decide (e_role x = REAC_DISCO_ROLE_MASTER) then reac_rival_kind_of e
      else if e_channels x =? 0 then REAC_RIVAL_UNKNOWN
      else if (now_ns <=? e_first_seen_ns x)
              || (now_ns - e_first_seen_ns x <? reac_master_only_cadence_ns fps)
      then REAC_RIVAL_UNKNOWN
      else REAC_RIVAL_BOX
  end.

Definition reac_rival_kind_from_channels (channels : Z) : reac_rival_kind :=
  if channels =? 0 then REAC_RIVAL_UNKNOWN
  else if REAC_MAX_CHANNELS <=? channels then REAC_RIVAL_DESK else REAC_RIVAL_BOX.

(** ** Refusals *)

Definition reac_rival_refusal (k : reac_rival_kind) : list Z :=
  match k with
  | REAC_RIVAL_BOX => str "rival-master-box"
  | REAC_RIVAL_UNKNOWN => str "rival-master-unknown"
  | REAC_RIVAL_DESK | REAC_RIVAL_PENDING | REAC_RIVAL_NONE => str "none"
  end.

Definition reac_segment_refusal (rival : reac_rival_kind) (probing box_present : bool) (joins : Z)
    : list Z :=
  let r := reac_rival_refusal rival in
  if negb (zeqb r (str "none")) then r
  else if probing && box_present && (joins =? 0) then str "box-present-not-joining"
  else str "none".

(** ** The rival the arbitration names *)

(** The loop names a live foreign master whenever there is one, and no other is
    newer. *)
Lemma foreign_master_best l our_mac now best :
  (∀ b, best = Some b → is_rival our_mac now b = true) →
  match foldl (rival_step our_mac now) best l with
  | Some b => (best = Some b ∨ b ∈ l) ∧ is_rival our_mac now b = true ∧
      (∀ e, (best = Some e ∨ e ∈ l) → is_rival our_mac now e = true → e_last_seen_ns e ≤ e_last_seen_ns b)
  | None => best = None ∧ ∀ e, e ∈ l → is_rival our_mac now e = false
  end.
Proof.
  revert best; induction l as [|x l IH]; intros best Hb; simpl.
  - destruct best as [b|]; [|split; [done|]; intros e He; by apply elem_of_nil in He].
    split_and!; [by left|by apply Hb|]. intros e [[= ->]|He]; [done|by apply elem_of_nil in He].
  - assert (Hstep : ∀ b, rival_step our_mac now best x = Some b → is_rival our_mac now b = true).
    { intros b. unfold rival_step. destruct (is_rival our_mac now x) eqn:Ex; [|by apply Hb].
      destruct best as [b0|]; [destruct (_ <? _)|]; intros [= <-]; auto. }
    specialize (IH _ Hstep).
    assert (Hcase : (∃ b, rival_step our_mac now best x = Some b ∧ (best = Some b ∨ b = x) ∧
        (∀ e, (best = Some e ∨ e = x) → is_rival our_mac now e = true →
           e_last_seen_ns e ≤ e_last_seen_ns b)) ∨
      (rival_step our_mac now best x = None ∧ best = None ∧ is_rival our_mac now x = false)).
    { unfold rival_step in *. destruct (is_rival our_mac now x) eqn:Ex, best as [b0|]; simpl.
      - left. destruct (e_last_seen_ns b0 <? e_last_seen_ns x) eqn:El;
          eexists; (split; [done|]); (split; [tauto|]); intros e [[= <-]| ->] _; lia.
      - left. eexists; split; [done|]. split; [tauto|]. intros e [| ->] _; [done|lia].
      - left. eexists; split; [done|]. split; [tauto|]. intros e [[= <-]| ->] He; [lia|congruence].
      - by right. }
    destruct Hcase as [(b1 & Hs & Hin & Hmax)|(Hs & Hn & Hx)]; rewrite Hs in *.
    + destruct (foldl _ _ l) as [b|]; [|by destruct IH].
      destruct IH as (Hw & Hr & Hle). split_and!; [|done|].
      * destruct Hw as [[= <-]|Hw]; [destruct Hin as [?| ->]; [by left|right; left]|right; by right].
      * intros e He Hre. destruct He as [He|[->|He]%elem_of_cons]; [| |apply Hle; auto].
        -- etransitivity; [apply Hmax; [by left|done]|apply Hle; [by left|by apply Hstep]].
        -- etransitivity; [apply Hmax; [by right|done]|apply Hle; [by left|by apply Hstep]].
    + destruct (foldl _ _ l) as [b|].
      * destruct IH as ([|Hw] & Hr & Hle); [done|]. split_and!; [right; by right|done|].
        intros e He Hre. destruct He as [He|[->|He]%elem_of_cons]; [congruence|congruence|apply Hle; auto].
      * destruct IH as [_ Hno]. split; [done|]. intros e [->|He]%elem_of_cons; auto.
Qed.

Lemma foreign_master_spec t our_mac now :
  match foreign_master t our_mac now with
  | Some b => b ∈ t_e t ∧ is_rival our_mac now b = true ∧
      (∀ e, e ∈ t_e t → is_rival our_mac now e = true → e_last_seen_ns e ≤ e_last_seen_ns b)
  | None => ∀ e, e ∈ t_e t → is_rival our_mac now e = false
  end.
Proof.
  pose proof (foreign_master_best (t_e t) our_mac now None ltac:(done)) as H.
  unfold foreign_master. destruct (foldl _ _ _) as [b|].
  - destruct H as ([|Hb] & Hr & Hle); [done|]. split_and!; [done|done|]. auto.
  - apply H.
Qed.

(** The hold on an unproven broadcast sender is one second at every pace. *)
Lemma cadence_ns_second fps : reac_master_only_cadence_ns fps = 1000000000.
Proof.
  unfold reac_master_only_cadence_ns. destruct (0 <? fps) eqn:E; [|by vm_compute].
  unfold reac_master_only_cadence_frames. replace (fps <=? 0) with false by lia.
  unfold reac_rate_snap. destruct (Qltb _ _); [done|]. by destruct (Qltb _ _).
Qed.
