(* ===== verification/Hunt.v ===== *)
(** * Hunt: which end of the pairing a wire nobody configured is served from

    Models [src/reac_hunt.c]: the sightings of one wire gathered in the
    discovery table, the arbitration read off them, and the verdict (drive it,
    join it, refuse it, keep listening). *)

From stdpp Require Import gmap.
From S2P Require Import Prelude Wire CtrlBlk Identity BoxModel BoxFacts MasterFsm.
From S2P Require Import Disco DiscoTable DiscoPublish Clock Arbitration.
Local Open Scope Z_scope.

Definition REAC_ANNOUNCE_PERIOD_MS : Z := 1000.
Definition REAC_HUNT_ANNOUNCES : Z := 3.
Definition REAC_HUNT_RIVAL_FRAMES : Z := 8.
Definition REAC_HUNT_RIVAL_SPAN_NS : Z := 20 * 1000000.
Definition REAC_HUNT_RIVAL_QUIET_NS : Z := 100 * 1000000.
Definition REAC_HUNT_WINDOW_NS : Z := REAC_HUNT_ANNOUNCES * REAC_ANNOUNCE_PERIOD_MS * 1000000.

Inductive reac_hunt_verdict :=
| REAC_HUNT_HUNTING | REAC_HUNT_MASTER | REAC_HUNT_SLAVE | REAC_HUNT_REFUSED.

#[global] Instance reac_hunt_verdict_eq_dec : EqDecision reac_hunt_verdict.
Proof. solve_decision. Defined.

Record reac_hunt := Hunt {
  h_table : reac_disco_table; h_lock : reac_disco_peer_lock; h_our_mac : list Z;
  h_silence_proven : bool; h_opened_ns : Z; h_pinned : bool; h_pin : reac_role;
  h_verdict : reac_hunt_verdict; h_arb : reac_arbitration
}.

Definition arb_zero : reac_arbitration :=
  Arbitration REAC_SEGMENT_NONE (zeros 6) false REAC_PACE_FREE_RUN false REAC_RIVAL_NONE 0.

Definition reac_hunt_init (our_mac : option (list Z)) (now_ns : Z) : reac_hunt :=
  Hunt reac_disco_table_init reac_disco_peer_lock_init (default (zeros 6) our_mac) false now_ns
    false REAC_ROLE_MASTER REAC_HUNT_HUNTING arb_zero.

Definition reac_hunt_pin (h : reac_hunt) (role : reac_role) : reac_hunt :=
  Hunt (h_table h) (h_lock h) (h_our_mac h) (h_silence_proven h) (h_opened_ns h) true role
    (h_verdict h) (h_arb h).

Definition reac_hunt_silence_proven (h : reac_hunt) : reac_hunt :=
  Hunt (h_table h) (h_lock h) (h_our_mac h) true (h_opened_ns h) (h_pinned h) (h_pin h)
    (h_verdict h) (h_arb h).

(** The settled verdict on the peer: its table entry over the frame's own facts. *)
Definition settled (t : reac_disco_table) (s : reac_disco_sighting) : reac_disco_sighting :=
  match find t (s_mac s) with
  | Some (_, e) => Sighting (s_mac s) (e_role e) (e_has_decl e) (e_decl_in e) (e_decl_out e)
                     (e_family e) (e_announced_slots e) (e_channels e)
  | None => s
  end.

(** The hunt, and [Some (changed, *out)] on a sighting; [None] is the -1
    return. *)
Definition reac_hunt_observe (h : reac_hunt) (frame : list Z) (len now_ns : Z)
    : reac_hunt * option (bool * reac_disco_sighting) :=
  let len := reac_frame_clean_len len in
  let '(lock, seen) := reac_disco_classify_on_segment (h_lock h) frame len (h_our_mac h) in
  match seen with
  | None => (Hunt (h_table h) lock (h_our_mac h) (h_silence_proven h) (h_opened_ns h) (h_pinned h)
               (h_pin h) (h_verdict h) (h_arb h), None)
  | Some s =>
      let opened := if t_n (h_table h) =? 0 then now_ns else h_opened_ns h in
      let '(t, changed) := reac_disco_table_observe (h_table h) s false now_ns in
      (Hunt t lock (h_our_mac h) (h_silence_proven h) opened (h_pinned h) (h_pin h) (h_verdict h)
         (h_arb h), Some (changed, settled t s))
  end.

(** ** The verdict *)

Definition live (now_ns : Z) (e : reac_disco_entry) : bool := negb (stale now_ns e).

Definition is_role (r : reac_disco_role) (e : reac_disco_entry) : bool := bool_decide (e_role e = r).

(** A box, or a broadcast sender that sent no master-only frame for a whole
    cadence. *)
Definition box_evidence (now_ns : Z) (e : reac_disco_entry) : bool :=
  live now_ns e &&
  (is_role REAC_DISCO_ROLE_BOX e
   || is_role REAC_DISCO_ROLE_UNKNOWN e
      && bool_decide (reac_sender_kind (Some e) now_ns 0 = REAC_RIVAL_BOX)).
Definition box_present (t : reac_disco_table) (now_ns : Z) : bool := existsb (box_evidence now_ns) (t_e t).

(** A live broadcast stream still inside its window to prove what it is. *)
Definition unproven_stream (our_mac : list Z) (now_ns : Z) (e : reac_disco_entry) : bool :=
  live now_ns e && negb (zeqb (e_mac e) our_mac) && is_role REAC_DISCO_ROLE_UNKNOWN e
  && (0 <? e_channels e) && bool_decide (reac_sender_kind (Some e) now_ns 0 = REAC_RIVAL_UNKNOWN).
Definition desk_geometry_live (t : reac_disco_table) (our_mac : list Z) (now_ns : Z) : bool :=
  existsb (unproven_stream our_mac now_ns) (t_e t).

Inductive evidence := RIVAL_QUIET | RIVAL_WAIT | RIVAL_STREAMS.

(** It has been heard often enough, for long enough. *)
Definition streams (e : reac_disco_entry) : bool :=
  (REAC_HUNT_RIVAL_FRAMES <=? e_frames e) && (e_first_seen_ns e <=? e_last_seen_ns e)
  && (REAC_HUNT_RIVAL_SPAN_NS <=? e_last_seen_ns e - e_first_seen_ns e).

Definition entry_evidence (now_ns : Z) (e : reac_disco_entry) : evidence :=
  if streams e then RIVAL_STREAMS
  else if (e_last_seen_ns e <=? now_ns) && (now_ns - e_last_seen_ns e <=? REAC_HUNT_RIVAL_QUIET_NS)
  then RIVAL_WAIT else RIVAL_QUIET.

Definition rival_evidence (h : reac_hunt) (now_ns : Z) : evidence :=
  if negb (ar_have_mac (h_arb h)) then RIVAL_QUIET
  else match find (h_table h) (ar_mac (h_arb h)) with
       | Some (_, e) => entry_evidence now_ns e
       | None => RIVAL_QUIET
       end.

(** A pinned wire: the pin, unless a box on M has streamed on it. *)
Definition decide_pinned (h : reac_hunt) (now_ns : Z) : reac_hunt_verdict :=
  let own := match h_pin h with REAC_ROLE_SLAVE => REAC_HUNT_SLAVE | REAC_ROLE_MASTER => REAC_HUNT_MASTER end in
  if bool_decide (h_pin h = REAC_ROLE_MASTER) && bool_decide (ar_state (h_arb h) = REAC_SEGMENT_FOREIGN)
     && bool_decide (ar_rival (h_arb h) = REAC_RIVAL_BOX) then
    match rival_evidence h now_ns with
    | RIVAL_STREAMS => REAC_HUNT_SLAVE
    | RIVAL_WAIT => h_verdict h
    | RIVAL_QUIET => own
    end
  else own.

(** No master evidence: is the wire ours to take? *)
Definition decide_vacant (h : reac_hunt) (now_ns : Z) : reac_hunt_verdict :=
  if desk_geometry_live (h_table h) (h_our_mac h) now_ns then REAC_HUNT_HUNTING
  else if h_silence_proven h then REAC_HUNT_MASTER
  else if u64 (now_ns - h_opened_ns h) <? REAC_HUNT_WINDOW_NS then REAC_HUNT_HUNTING
  else if box_present (h_table h) now_ns then REAC_HUNT_MASTER else REAC_HUNT_HUNTING.

Definition decide_hunt (h : reac_hunt) (now_ns : Z) : reac_hunt_verdict :=
  if h_pinned h then decide_pinned h now_ns
  else if bool_decide (ar_state (h_arb h) = REAC_SEGMENT_FOREIGN) then
    if bool_decide (ar_rival (h_arb h) = REAC_RIVAL_PENDING) then h_verdict h
    else match rival_evidence h now_ns with
         | RIVAL_WAIT => h_verdict h
         | RIVAL_STREAMS =>
             if bool_decide (ar_rival (h_arb h) = REAC_RIVAL_UNKNOWN) then REAC_HUNT_REFUSED
             else REAC_HUNT_SLAVE
         | RIVAL_QUIET => decide_vacant h now_ns
         end
  else decide_vacant h now_ns.

(** The hunt and the C return value: whether the verdict changed. *)
Definition reac_hunt_step (h : reac_hunt) (now_ns : Z) : reac_hunt * bool :=
  let t := (reac_disco_table_age (h_table h) now_ns).1 in
  let arb := reac_arbitrate (Some t) (Some (h_our_mac h)) REAC_M_IDLE REAC_PACE_FREE_RUN now_ns in
  let h := Hunt t (h_lock h) (h_our_mac h) (h_silence_proven h) (h_opened_ns h) (h_pinned h) (h_pin h)
             (h_verdict h) arb in
  let v := decide_hunt h now_ns in
  (Hunt t (h_lock h) (h_our_mac h) (h_silence_proven h) (h_opened_ns h) (h_pinned h) (h_pin h) v arb,
   negb (bool_decide (v = h_verdict h))).

Definition reac_hunt_role (h : reac_hunt) : reac_role :=
  match h_verdict h with REAC_HUNT_SLAVE => REAC_ROLE_SLAVE | _ => REAC_ROLE_MASTER end.

Definition reac_hunt_heard_anything (h : reac_hunt) : bool := 0 <? t_n (h_table h).

(** * Properties *)

(** ** A hunt and what it accepted

    The operations a hunt performed on its table, in order: a [TObserve] for
    every frame that was a sighting, a [TAge] for every step. *)
Inductive hunt_reach (our_mac : list Z) : reac_hunt → list table_op → Prop :=
| hunt_opened now : hunt_reach our_mac (reac_hunt_init (Some our_mac) now) []
| hunt_pinned h ops role :
    hunt_reach our_mac h ops → hunt_reach our_mac (reac_hunt_pin h role) ops
| hunt_licensed h ops :
    hunt_reach our_mac h ops → hunt_reach our_mac (reac_hunt_silence_proven h) ops
| hunt_heard h ops frame len now :
    hunt_reach our_mac h ops → 0 ≤ len →
    hunt_reach our_mac (reac_hunt_observe h frame len now).1
      (ops ++ match (reac_disco_classify_on_segment (h_lock h) frame (reac_frame_clean_len len)
                       (h_our_mac h)).2 with
              | Some s => [TObserve s false now] | None => [] end)
| hunt_stepped h ops now :
    hunt_reach our_mac h ops → hunt_reach our_mac (reac_hunt_step h now).1 (ops ++ [TAge now]).

Lemma sighting_channels frame len lock our s :
  (reac_disco_classify_on_segment lock frame len our).2 = Some s → 0 ≤ s_channels s.
Proof.
  unfold reac_disco_classify_on_segment, classify_core.
  assert (Hc : ∀ p, 0 ≤ s_channels (sighting_of frame len p)).
  { intros p. simpl. unfold reac_frame_channels. split_ifs; [done|done|].
    unfold u32. apply Z.mod_pos_bound. lia. }
  intros Hs. assert (s = sighting_of frame len (reac_ctrl_parse frame len)) as ->; [|apply Hc].
  revert Hs. destruct (p_kind _); repeat case_match; simpl; congruence.
Qed.

Lemma hunt_reach_table our h ops :
  hunt_reach our h ops →
  h_table h = foldl table_step reac_disco_table_init ops ∧ Forall op_ok ops ∧ h_our_mac h = our.
Proof.
  induction 1 as [now|h ops role _ IH|h ops _ IH|h ops frame len now _ IH Hlen|h ops now _ IH];
    try done; destruct IH as (Ht & Hok & Ho).
  - unfold reac_hunt_observe. pose proof (sighting_channels frame (reac_frame_clean_len len)
      (h_lock h) (h_our_mac h)) as Hc.
    destruct (reac_disco_classify_on_segment _ _ _ _) as [lk [s|]]; simpl; [|by rewrite app_nil_r].
    specialize (Hc s eq_refl). rewrite foldl_app, <- Ht. simpl.
    destruct (reac_disco_table_observe _ _ _ _) as [t ch]. simpl.
    split_and!; [done| |done]. apply Forall_app. split; [done|]. by repeat constructor.
  - simpl. rewrite foldl_app, <- Ht. split_and!; [done| |done].
    apply Forall_app. split; [done|]. by repeat constructor.
Qed.

Lemma hunt_refines our h ops :
  hunt_reach our h ops → refines (h_table h) (foldl spec_step ∅ ops).
Proof.
  intros Hr. destruct (hunt_reach_table _ _ _ Hr) as (-> & Hok & _).
  by apply refines_run, refines_init.
Qed.

(** The observations of one MAC, in order. *)
Definition observations (mac : list Z) (ops : list table_op) : list obs :=
  omap (λ op, match op with
              | TObserve s owned now => if decide (s_mac s = mac) then Some (Obs s owned now) else None
              | TAge _ => None
              end) ops.

(** A history is the latest stretch of its MAC's observations. *)
Lemma history_suffix ops mac h :
  foldl spec_step ∅ ops !! mac = Some h → h `suffix_of` observations mac ops.
Proof.
  revert h; induction ops as [|op ops IH] using rev_ind; intros h; [done|].
  rewrite foldl_app. unfold observations. rewrite omap_app. fold (observations mac ops).
  set (H := foldl spec_step ∅ ops) in *. simpl. destruct op as [s owned now|now]; simpl.
  - case_decide as Hm; simpl.
    + subst mac. destruct (H !! s_mac s) as [h0|] eqn:E.
      * rewrite lookup_insert_eq. intros [= <-]. destruct (IH h0 eq_refl) as [k ->]. exists k. by rewrite app_assoc.
      * case_match; [rewrite lookup_insert_eq; intros [= <-]; by eexists|]. congruence.
    + rewrite app_nil_r. destruct (H !! s_mac s); [rewrite lookup_insert_ne by done; apply IH|].
      case_match; [rewrite lookup_insert_ne by done|]; apply IH.
  - rewrite app_nil_r. intros [Hh _]%map_lookup_filter_Some. by apply IH.
Qed.

Lemma find_in t e : NoDup (macs t) → e ∈ t_e t → ∃ i, find t (e_mac e) = Some (i, e).
Proof.
  intros Hnd He. destruct (find t (e_mac e)) as [[i x]|] eqn:Hf; cycle 1.
  { apply find_None in Hf. exfalso. by apply Hf, list_elem_of_fmap_2. }
  apply find_Some in Hf as [Hi Hx]. exists i. do 2 f_equal.
  apply list_elem_of_lookup in He as [j Hj].
  assert (i = j) as ->; [|congruence].
  eapply (NoDup_lookup (macs t) i j (e_mac e)); [done|..]; unfold macs; rewrite list_lookup_fmap.
  - by rewrite Hi, <- Hx.
  - by rewrite Hj.
Qed.

(** What a step reads its verdict from. *)
Definition stepped (h : reac_hunt) (now : Z) : reac_hunt :=
  let t := (reac_disco_table_age (h_table h) now).1 in
  Hunt t (h_lock h) (h_our_mac h) (h_silence_proven h) (h_opened_ns h) (h_pinned h) (h_pin h)
    (h_verdict h) (reac_arbitrate (Some t) (Some (h_our_mac h)) REAC_M_IDLE REAC_PACE_FREE_RUN now).

Lemma step_verdict h now : h_verdict (reac_hunt_step h now).1 = decide_hunt (stepped h now) now.
Proof. done. Qed.

(** A step's arbitration, and the evidence on the rival it names. *)
Lemma stepped_arb our h ops now :
  hunt_reach our h ops →
  let h1 := stepped h now in
  match foreign_master (h_table h1) (Some our) now with
  | Some r => r ∈ t_e (h_table h1) ∧ is_rival (Some our) now r = true ∧
      ar_state (h_arb h1) = REAC_SEGMENT_FOREIGN ∧ ar_rival (h_arb h1) = reac_rival_kind_of (Some r) ∧
      rival_evidence h1 now = entry_evidence now r
  | None => ar_state (h_arb h1) = REAC_SEGMENT_NONE
  end.
Proof.
  intros Hr. pose proof (hunt_refines _ _ _ (hunt_stepped _ _ _ now Hr)) as R.
  destruct (hunt_reach_table _ _ _ Hr) as (_ & _ & Ho). cbv zeta.
  pose proof (foreign_master_spec (h_table (stepped h now)) (Some our) now) as Hf.
  unfold stepped in *; cbn [h_table h_arb] in *. rewrite Ho in *.
  set (t := (reac_disco_table_age (h_table h) now).1) in *.
  unfold reac_arbitrate; cbn [orb bool_decide_eq_true]. rewrite !bool_decide_eq_false_2 by done. simpl.
  destruct (foreign_master t (Some our) now) as [r|]; [|done].
  destruct Hf as (Hin & Hriv & _). split_and!; [done|done|done|done|].
  unfold rival_evidence. simpl. destruct (find_in t r) as [i ->]; [apply (rf_nodup _ _ R)|done|done].
Qed.

Lemma decide_vacant_takes h now :
  decide_vacant h now = REAC_HUNT_MASTER ∨ decide_vacant h now = REAC_HUNT_HUNTING.
Proof. unfold decide_vacant. repeat case_match; auto. Qed.

(** The only way to a slave's verdict, or a refusal, nobody asked for. *)
Lemma yields_on_streams h now :
  decide_hunt h now ≠ h_verdict h →
  decide_hunt h now = REAC_HUNT_SLAVE ∨ decide_hunt h now = REAC_HUNT_REFUSED →
  ¬ (h_pinned h = true ∧ h_pin h = REAC_ROLE_SLAVE) →
  ar_state (h_arb h) = REAC_SEGMENT_FOREIGN ∧ rival_evidence h now = RIVAL_STREAMS.
Proof.
  intros Hch Hv Hpin. pose proof (decide_vacant_takes h now) as Hvac. revert Hch Hv.
  unfold decide_hunt, decide_pinned. destruct (h_pinned h).
  - destruct (h_pin h); [|by destruct Hpin]. rewrite (bool_decide_eq_true_2 (REAC_ROLE_MASTER = _)) by done.
    case_bool_decide as Hst; cbn [andb]; [|by intros _ []].
    case_bool_decide; [|by intros _ []]. destruct (rival_evidence h now); [by intros _ []|done|done].
  - case_bool_decide as Hst; [|intros _ []; destruct Hvac; congruence].
    case_bool_decide; [done|].
    destruct (rival_evidence h now); [intros _ []; destruct Hvac; congruence|done|done].
Qed.

(** C33. A role is yielded only to a master that streams. Whatever frames a hunt
    has been through, a step that turns it into a slave (or refuses the wire)
    without the operator having pinned it so does it for a peer other than
    ourselves that some frame proved a master and none a box, and of which the
    hunt has accepted at least eight frames in one unbroken stretch of its table,
    the last at least 20 ms after the first. One forged announce, or a burst of
    them, never moves a role. *)
Theorem hunt_yields_to_streams (our : list Z) (h : reac_hunt) (ops : list table_op) (now : Z) :
  hunt_reach our h ops →
  let v := h_verdict (reac_hunt_step h now).1 in
  v ≠ h_verdict h → v = REAC_HUNT_SLAVE ∨ v = REAC_HUNT_REFUSED →
  ¬ (h_pinned h = true ∧ h_pin h = REAC_ROLE_SLAVE) →
  ∃ mac hist first last_,
    mac ≠ our ∧ hist `suffix_of` observations mac ops ∧ sum_role hist = REAC_DISCO_ROLE_MASTER ∧
    REAC_HUNT_RIVAL_FRAMES ≤ zlen hist ∧ head hist = Some first ∧ last hist = Some last_ ∧
    REAC_HUNT_RIVAL_SPAN_NS ≤ o_now last_ - o_now first.
Proof.
  intros Hr. cbv zeta. rewrite step_verdict. intros Hch Hv Hpin.
  pose proof (hunt_refines _ _ _ (hunt_stepped _ _ _ now Hr)) as R.
  pose proof (stepped_arb our h ops now Hr) as Harb. cbv zeta in Harb.
  set (h1 := stepped h now) in *. change (h_table (reac_hunt_step h now).1) with (h_table h1) in R.
  assert (Hev : ∃ r, r ∈ t_e (h_table h1) ∧ is_rival (Some our) now r = true ∧ streams r = true).
  { destruct (yields_on_streams h1 now Hch Hv Hpin) as [Hst He].
    destruct (foreign_master (h_table h1) (Some our) now) as [r|]; [|congruence].
    destruct Harb as (Hin & Hriv & _ & _ & Her). exists r. split_and!; [done|done|].
    rewrite Her in He. unfold entry_evidence in He. destruct (streams r); [done|]. by case_match. }
  destruct Hev as (r & Hin & Hriv & Hs).
  destruct (rf_entry _ _ R r Hin) as (hist & Hh & [_ Hrole _ _ _ _ _ _ Hfr Hf Hl]).
  unfold is_rival in Hriv. apply andb_prop in Hriv as [Hriv _]. apply andb_prop in Hriv as [Hm Hne].
  apply bool_decide_eq_true in Hm. apply negb_true_iff, zeqb_neq in Hne.
  destruct (head hist) as [o1|] eqn:E1; [|done]. destruct (last hist) as [o2|] eqn:E2; [|done].
  injection Hf as Hf. injection Hl as Hl.
  exists (e_mac r), hist, o1, o2. unfold streams, REAC_HUNT_RIVAL_FRAMES, REAC_HUNT_RIVAL_SPAN_NS in *.
  split_and!; [done| |congruence|unfold UINT32_MAX in Hfr; lia|done|done|rewrite Hf, Hl; lia].
  apply history_suffix in Hh. unfold observations in Hh. rewrite omap_app in Hh. simpl in Hh.
  by rewrite app_nil_r in Hh.
Qed.

(** ** Taking a wire *)

(** A live broadcast sender of unknown role, still inside the second it has to
    prove itself. *)
Definition may_be_desk (our : list Z) (now : Z) (e : reac_disco_entry) : Prop :=
  stale now e = false ∧ e_mac e ≠ our ∧ e_role e = REAC_DISCO_ROLE_UNKNOWN ∧ e_has_decl e = false ∧
  0 < e_channels e ∧ now - e_first_seen_ns e < 1000000000.

(** A live box, or a live broadcast sender that let its second pass (or declared
    itself) without a master's frame. *)
Definition shows_box (now : Z) (e : reac_disco_entry) : Prop :=
  stale now e = false ∧
  (e_role e = REAC_DISCO_ROLE_BOX ∨
   e_role e = REAC_DISCO_ROLE_UNKNOWN ∧
   (e_has_decl e = true ∨ e_channels e ≠ 0 ∧ 1000000000 ≤ now - e_first_seen_ns e)).

Lemma sender_kind_unknown e now :
  e_role e = REAC_DISCO_ROLE_UNKNOWN →
  reac_sender_kind (Some e) now 0 =
  if e_has_decl e then REAC_RIVAL_BOX
  else if (e_channels e =? 0) || (now - e_first_seen_ns e <? 1000000000) then REAC_RIVAL_UNKNOWN
  else REAC_RIVAL_BOX.
Proof.
  intros Hr. unfold reac_sender_kind. rewrite cadence_ns_second, Hr.
  rewrite !bool_decide_eq_false_2 by done. rewrite !orb_false_r. unfold reac_rival_kind_of. rewrite Hr.
  destruct (e_has_decl e); [done|]. destruct (e_channels e =? 0); [done|]. simpl.
  destruct (now <=? e_first_seen_ns e) eqn:E1, (now - e_first_seen_ns e <? 1000000000) eqn:E2; try done. lia.
Qed.

Lemma unproven_stream_iff our now e :
  unproven_stream our now e = true ↔ may_be_desk our now e.
Proof.
  unfold unproven_stream, may_be_desk, live, is_role. rewrite !andb_true_iff, !negb_true_iff, zeqb_neq.
  rewrite !bool_decide_eq_true. split.
  - intros ((((H1 & H2) & H3) & H4) & H5). rewrite (sender_kind_unknown _ _ H3) in H5.
    destruct (e_has_decl e); [done|]. destruct (_ || _) eqn:E; [|done]. split_and!; try done; lia.
  - intros (H1 & H2 & H3 & H4 & H5 & H6). split_and!; try done; [lia|].
    rewrite (sender_kind_unknown _ _ H3), H4.
    by replace (now - e_first_seen_ns e <? 1000000000) with true by lia; rewrite orb_true_r.
Qed.

Lemma box_evidence_iff now e : box_evidence now e = true ↔ shows_box now e.
Proof.
  unfold box_evidence, shows_box, live, is_role.
  rewrite andb_true_iff, negb_true_iff, orb_true_iff, andb_true_iff, !bool_decide_eq_true.
  split; intros [H1 H2]; (split; [done|]); (destruct H2 as [H2|[H2 H3]]; [by left|right; split; [done|]]).
  - rewrite (sender_kind_unknown _ _ H2) in H3. destruct (e_has_decl e); [by left|right].
    destruct (_ || _) eqn:E; [done|]. lia.
  - rewrite (sender_kind_unknown _ _ H2). destruct (e_has_decl e); [done|]. destruct H3 as [|[H3 H4]]; [done|].
    by replace ((e_channels e =? 0) || (now - e_first_seen_ns e <? 1000000000)) with false by lia.
Qed.

Lemma existsb_iff {A} (f : A → bool) (P : A → Prop) l :
  (∀ x, f x = true ↔ P x) → existsb f l = true ↔ ∃ x, x ∈ l ∧ P x.
Proof.
  intros Hf. rewrite existsb_exists. by setoid_rewrite Hf; setoid_rewrite list_elem_of_In.
Qed.

(** When a wire is ours to take. On an unpinned wire with no live foreign
    master, a step answers MASTER or keeps hunting, and it answers MASTER
    exactly when no live broadcast stream is still inside the second it has to
    prove itself a desk's, and either the wire was proven masterless or three
    announce periods have passed since the first sighting and a box is there (a
    frame only a box sends, or a broadcast sender past its second). *)
Theorem hunt_takes_vacant_wire (our : list Z) (h : reac_hunt) (ops : list table_op) (now : Z) :
  hunt_reach our h ops → h_pinned h = false → 0 ≤ now - h_opened_ns h < 2 ^ 64 →
  let h' := (reac_hunt_step h now).1 in
  (∀ e, e ∈ t_e (h_table h') → is_rival (Some our) now e = false) →
  (h_verdict h' = REAC_HUNT_MASTER ∨ h_verdict h' = REAC_HUNT_HUNTING) ∧
  (h_verdict h' = REAC_HUNT_MASTER ↔
     (¬ ∃ e, e ∈ t_e (h_table h') ∧ may_be_desk our now e) ∧
     (h_silence_proven h = true ∨
      REAC_HUNT_WINDOW_NS ≤ now - h_opened_ns h ∧ ∃ e, e ∈ t_e (h_table h') ∧ shows_box now e)).
Proof.
  intros Hr Hp Hnow. cbv zeta. intros Hno. rewrite step_verdict.
  destruct (hunt_reach_table _ _ _ Hr) as (_ & _ & Ho).
  pose proof (stepped_arb our h ops now Hr) as Harb. cbv zeta in Harb.
  change (h_table (reac_hunt_step h now).1) with (h_table (stepped h now)) in *.
  set (h1 := stepped h now) in *.
  destruct (foreign_master (h_table h1) (Some our) now) as [r|].
  { destruct Harb as (Hin & Hriv & _). rewrite (Hno r Hin) in Hriv. done. }
  assert (Hd : decide_hunt h1 now = decide_vacant h1 now).
  { unfold decide_hunt. change (h_pinned h1) with (h_pinned h). rewrite Hp, Harb. done. }
  rewrite Hd. split; [apply decide_vacant_takes|].
  rewrite <- (existsb_iff _ _ _ (unproven_stream_iff our now)),
    <- (existsb_iff _ _ _ (box_evidence_iff now)).
  unfold decide_vacant, desk_geometry_live, box_present. change (h_our_mac h1) with (h_our_mac h).
  rewrite Ho. change (h_silence_proven h1) with (h_silence_proven h).
  change (h_opened_ns h1) with (h_opened_ns h).
  destruct (existsb (unproven_stream our now) _); [split; [done|intros [[] _]; done]|].
  destruct (h_silence_proven h); [split; auto|].
  unfold u64. rewrite Z.mod_small by lia.
  destruct (now - h_opened_ns h <? REAC_HUNT_WINDOW_NS) eqn:E.
  { split; [done|]. intros [_ [|[? _]]]; [done|lia]. }
  destruct (existsb (box_evidence now) _); [|split; [done|intros [_ [|[_ ?]]]; done]].
  split; [|done]. intros _. split; [done|]. right. split; [lia|done].
Qed.

(** A pin is an answer. A wire pinned SLAVE is served as a slave at the
    first step. A wire pinned MASTER is driven at the first step, whatever has
    or has not been heard, unless the newest live foreign master on it is a box
    on M: then it is joined once that box has streamed, and while it is still
    being heard the verdict stands; a rival that has not streamed and has been
    quiet for 100 ms holds nothing. *)
Theorem hunt_pin_exact (our : list Z) (h : reac_hunt) (ops : list table_op) (now : Z) :
  hunt_reach our h ops → h_pinned h = true →
  let h' := (reac_hunt_step h now).1 in
  match h_pin h, foreign_master (h_table h') (Some our) now with
  | REAC_ROLE_SLAVE, _ => h_verdict h' = REAC_HUNT_SLAVE
  | REAC_ROLE_MASTER, Some r =>
      if decide (reac_rival_kind_of (Some r) ≠ REAC_RIVAL_BOX) then h_verdict h' = REAC_HUNT_MASTER
      else if streams r then h_verdict h' = REAC_HUNT_SLAVE
      else if decide (0 ≤ now - e_last_seen_ns r ≤ REAC_HUNT_RIVAL_QUIET_NS)
      then h_verdict h' = h_verdict h
      else h_verdict h' = REAC_HUNT_MASTER
  | REAC_ROLE_MASTER, None => h_verdict h' = REAC_HUNT_MASTER
  end.
Proof.
  intros Hr Hp. cbv zeta. rewrite step_verdict.
  pose proof (stepped_arb our h ops now Hr) as Harb. cbv zeta in Harb.
  change (h_table (reac_hunt_step h now).1) with (h_table (stepped h now)).
  set (h1 := stepped h now) in *. unfold decide_hunt, decide_pinned.
  change (h_pinned h1) with (h_pinned h). change (h_pin h1) with (h_pin h).
  change (h_verdict h1) with (h_verdict h). rewrite Hp. destruct (h_pin h); cycle 1.
  { by rewrite (bool_decide_eq_false_2 (REAC_ROLE_SLAVE = _)) by done. }
  rewrite (bool_decide_eq_true_2 (REAC_ROLE_MASTER = _)) by done.
  destruct (foreign_master (h_table h1) (Some our) now) as [r|]; [|by rewrite Harb].
  destruct Harb as (_ & _ & -> & -> & ->). rewrite (bool_decide_eq_true_2 (REAC_SEGMENT_FOREIGN = _)) by done.
  cbn [andb]. case_bool_decide as Hk; [rewrite decide_False by tauto|by rewrite decide_True by tauto].
  unfold entry_evidence. destruct (streams r); [done|].
  destruct (_ && _) eqn:E; [rewrite decide_True by lia|rewrite decide_False by lia]; done.
Qed.

(** ** Concrete wires *)

Definition demo_our : list Z := [2; 0; 0; 0; 0; 1].
Definition demo_rival : list Z := [0; 0x40; 0xab; 0xc4; 0x80; 0x41].

(** An S-1608 on M: its 16-slot announce in a 628-byte broadcast. *)
Definition demo_announce : list Z :=
  reac_ctrl_checksum_apply
    (fill 6 0xff ++ demo_rival ++ [0x88; 0x19; 0; 0; 0xcf; 0xea] ++
     [1; 3; 0; 13; 1; 3; 0x0d; 1; 4; 0; 0; 0; 0; 0; 0; 16] ++ zeros 594).

(** [n] announces, 5 ms apart, on an unpinned wire. *)
Fixpoint demo_hunt (n : nat) : reac_hunt :=
  match n with
  | O => reac_hunt_init (Some demo_our) 0
  | S n => (reac_hunt_observe (demo_hunt n) demo_announce 628 (5000000 * Z.of_nat (S n))).1
  end.
Fixpoint demo_hunt_ops (n : nat) : list table_op :=
  match n with
  | O => []
  | S n => demo_hunt_ops n ++
      match (reac_disco_classify_on_segment (h_lock (demo_hunt n)) demo_announce
               (reac_frame_clean_len 628) (h_our_mac (demo_hunt n))).2 with
      | Some s => [TObserve s false (5000000 * Z.of_nat (S n))] | None => []
      end
  end.

Lemma demo_hunt_reach n : hunt_reach demo_our (demo_hunt n) (demo_hunt_ops n).
Proof. induction n as [|n IH]; [apply hunt_opened|]. apply hunt_heard; [exact IH|done]. Qed.

Lemma demo_hunt_facts :
  h_verdict (reac_hunt_step (demo_hunt 8) 41000000).1 = REAC_HUNT_SLAVE ∧
  h_verdict (demo_hunt 8) = REAC_HUNT_HUNTING ∧ h_pinned (demo_hunt 8) = false ∧
  h_verdict (reac_hunt_step (demo_hunt 7) 41000000).1 = REAC_HUNT_HUNTING.
Proof. vm_compute. done. Qed.

Lemma hunt_yields_to_streams_witness :
  ∃ mac hist, mac ≠ demo_our ∧ hist `suffix_of` observations mac (demo_hunt_ops 8) ∧ 8 ≤ zlen hist.
Proof.
  destruct demo_hunt_facts as (H1 & H2 & H3 & _).
  destruct (hunt_yields_to_streams demo_our (demo_hunt 8) (demo_hunt_ops 8) 41000000 (demo_hunt_reach 8))
    as (mac & hist & o1 & o2 & Hm & Hs & _ & Hl & _).
  - intros E. rewrite H1, H2 in E. discriminate.
  - left. exact H1.
  - intros [E _]. rewrite H3 in E. discriminate.
  - exists mac, hist. exact (conj Hm (conj Hs Hl)).
Defined.

(** The same box, silent and unplugged for a minute, on a wire proven masterless. *)
Definition demo_vacant : reac_hunt := reac_hunt_silence_proven (demo_hunt 1).

Lemma demo_vacant_reach : hunt_reach demo_our demo_vacant (demo_hunt_ops 1).
Proof. apply hunt_licensed, demo_hunt_reach. Qed.

Lemma demo_vacant_facts :
  h_pinned demo_vacant = false ∧ 0 ≤ 60000000000 - h_opened_ns demo_vacant < 2 ^ 64 ∧
  t_e (h_table (reac_hunt_step demo_vacant 60000000000).1) = [].
Proof. vm_compute. done. Qed.

Lemma hunt_takes_vacant_wire_witness :
  h_verdict (reac_hunt_step demo_vacant 60000000000).1 = REAC_HUNT_MASTER.
Proof.
  destruct demo_vacant_facts as (H1 & H2 & H3).
  assert (Hno : ∀ e, e ∈ t_e (h_table (reac_hunt_step demo_vacant 60000000000).1) →
    is_rival (Some demo_our) 60000000000 e = false).
  { intros e He. rewrite H3 in He. exfalso. exact (not_elem_of_nil e He). }
  apply (hunt_takes_vacant_wire demo_our demo_vacant (demo_hunt_ops 1) 60000000000 demo_vacant_reach H1 H2 Hno).
  split; [|left; reflexivity]. intros (e & He & _). rewrite H3 in He. exact (not_elem_of_nil e He).
Defined.

(** One forged announce on a wire pinned MASTER, a second later. *)
Definition demo_pinned : reac_hunt := reac_hunt_pin (demo_hunt 1) REAC_ROLE_MASTER.

Lemma hunt_pin_exact_witness :
  h_verdict (reac_hunt_step demo_pinned 1000000000).1 = REAC_HUNT_MASTER.
Proof.
  pose proof (hunt_pin_exact demo_our demo_pinned (demo_hunt_ops 1) 1000000000
    (hunt_pinned _ _ _ REAC_ROLE_MASTER (demo_hunt_reach 1)) eq_refl) as H.
  vm_compute in H |- *. exact H.
Defined.
