(* ===== verification/CtrlFrames.v ===== *)
(** * CtrlFrames: the control-frame builders

    Models the frame scaffold of [src/reac_ctrlblk.c]: the table of control
    frames, the one routine that lays a row out and stamps its checksums in
    order, every public builder over it, the head-amp record, and the grant
    sweep. A builder's result is the frame it wrote, or [None] for the 0 return. *)

From S2P Require Import Prelude Wire Sample Codec CtrlBlk Identity BoxModel.
Local Open Scope Z_scope.

Definition DESC_WORD_HI : Z := 0x00.
Definition DESC_WORD_LO : Z := 0x7a.

Definition reac_ctrl_box_frame_len (n_ch : Z) : Z :=
  AUDIO_OFF + n_ch * REAC_SAMPLES_PER_PKT * REAC_RESOLUTION + 2.

Inductive ctrl_block :=
| BLOCK_ZERO | BLOCK_DESC | BLOCK_TMPL | BLOCK_CONFIG | BLOCK_IDENT_FIRST | BLOCK_CC0014
| BLOCK_CC0013 | BLOCK_CC0016 | BLOCK_CC001A | BLOCK_IDENT_LAST.
Inductive ctrl_len := LEN_ARG_WIDTH | LEN_MODEL_WIDTH | LEN_DOWNSTREAM.
Inductive ctrl_gate := GATE_ALWAYS | GATE_HAS_IDENTITY.
Inductive ctrl_cksum := CKSUM_NONE | CKSUM_BLOCK | CKSUM_RECORD.
#[global] Instance ctrl_len_eq_dec : EqDecision ctrl_len.
Proof. solve_decision. Defined.

Record ctrl_frame := CtrlFrame {
  cf_type0 : Z; cf_type1 : Z; cf_block : ctrl_block; cf_tmpl : list Z;
  cf_arg_off : Z; cf_arg_len : Z; cf_rec_off : Z; cf_rec_len : Z;
  cf_cksum : ctrl_cksum; cf_len : ctrl_len; cf_gate : ctrl_gate; cf_audio : bool
}.

(** A static template, zero-padded to the block. *)
Definition tmpl (l : list Z) : list Z := blit (zeros REAC_CTRL_BLOCK_LEN) 0 l.
Definition TMPL_BOX_HB : list Z := tmpl [0x01; 0x03; 0x00; 0x01; 0x81].
Definition TMPL_HEADAMP : list Z :=
  tmpl [0x04; 0x03; 0x00; 0x13; 0x00; 0x02; 0x00; 0xfe; 0x13 - 5; 0xf0; 0x41; 0x0a; 0x00; 0x00;
        0x12; 0x12; 0x01; 0x01; 0x00; 0x00; 0x00; 0x00; 0xf7].
Definition HEADAMP_ARG_OFF : Z := 18.
Definition HEADAMP_ARG_LEN : Z := 3.
Definition HEADAMP_REC_OFF : Z := 16.
Definition HEADAMP_REC_LEN : Z := 6.

Definition ctrl_block_to_box_block (b : ctrl_block) : option reac_box_block :=
  match b with
  | BLOCK_CONFIG => Some REAC_BOX_BLOCK_CONFIG
  | BLOCK_IDENT_FIRST => Some REAC_BOX_BLOCK_IDENT_FIRST
  | BLOCK_CC0014 => Some REAC_BOX_BLOCK_CC0014
  | BLOCK_CC0013 => Some REAC_BOX_BLOCK_CC0013
  | BLOCK_CC0016 => Some REAC_BOX_BLOCK_CC0016
  | BLOCK_CC001A => Some REAC_BOX_BLOCK_CC001A
  | BLOCK_IDENT_LAST => Some REAC_BOX_BLOCK_IDENT_LAST
  | _ => None
  end.

Definition ctrl_gate_ok (m : reac_box_model) (g : ctrl_gate) : bool :=
  match g with GATE_HAS_IDENTITY => m_has_identity_record m | GATE_ALWAYS => true end.

(** The 32 bytes a row's block starts from. *)
Definition row_block (f : ctrl_frame) (m : option reac_box_model) : list Z :=
  let zero := zeros REAC_CTRL_BLOCK_LEN in
  match cf_block f with
  | BLOCK_ZERO => zero
  | BLOCK_DESC =>
      foldl (λ b k, wr (wr b (2 * k) DESC_WORD_HI) (2 * k + 1) DESC_WORD_LO) zero
        (zseq 0 (REAC_CTRL_BLOCK_LEN / 2))
  | BLOCK_TMPL => cf_tmpl f
  | b =>
      match m, ctrl_block_to_box_block b with
      | Some m, Some bb =>
          let '(rc, gen) := reac_box_model_block m bb in if rc =? 1 then gen else zero
      | _, _ => zero
      end
  end.

Definition ctrl_lay_block (frame : list Z) (f : ctrl_frame) (m : option reac_box_model)
    (args : option (list Z)) : list Z :=
  let frame := blit frame REAC_CTRL_BLOCK_OFF (row_block f m) in
  match args with
  | Some a =>
      if negb (cf_arg_len f =? 0)
      then blit frame (REAC_CTRL_BLOCK_OFF + cf_arg_off f) (slice a 0 (cf_arg_len f))
      else frame
  | None => frame
  end.

Definition ctrl_finish (frame : list Z) (f : ctrl_frame) : list Z :=
  match cf_cksum f with
  | CKSUM_RECORD =>
      reac_ctrl_block_cksum_stamp
        (reac_ctrl_record_cksum_stamp frame (REAC_CTRL_BLOCK_OFF + cf_rec_off f) (cf_rec_len f))
        REAC_CTRL_BLOCK_OFF
  | CKSUM_BLOCK => reac_ctrl_block_cksum_stamp frame REAC_CTRL_BLOCK_OFF
  | CKSUM_NONE => frame
  end.

Definition emit_len (f : ctrl_frame) (model : option reac_box_model) (n_ch : Z) : Z :=
  let m := default (reac_box_catalogue_by_width n_ch) model in
  let model_w := match model with Some _ => n_ch | None => m_in_ch m end in
  match cf_len f with
  | LEN_DOWNSTREAM => REAC_FRAME_BYTES
  | LEN_MODEL_WIDTH => reac_ctrl_box_frame_len model_w
  | LEN_ARG_WIDTH => reac_ctrl_box_frame_len n_ch
  end.

Definition ctrl_emit_as (f : ctrl_frame) (model : option reac_box_model) (dst src : list Z)
    (counter n_ch : Z) (args : option (list Z)) (planar : planes) (ns : Z) : option (list Z) :=
  if bool_decide (cf_len f = LEN_ARG_WIDTH) && negb (reac_box_width_ok n_ch) then None
  else if negb (bool_decide (cf_len f = LEN_DOWNSTREAM)) &&
          (bool_decide (is_Some model) || bool_decide (cf_len f = LEN_MODEL_WIDTH)) &&
          negb (reac_box_width_ok n_ch) then None
  else
    let m := default (reac_box_catalogue_by_width n_ch) model in
    if negb (ctrl_gate_ok m (cf_gate f)) then None
    else
      let len := emit_len f model n_ch in
      let out := zeros len in
      let out := put_hdr out dst src counter (cf_type0 f) (cf_type1 f) in
      let out := ctrl_lay_block out f (Some m) args in
      let out := if cf_audio f then reac_braid_encode out AUDIO_OFF n_ch planar n_ch ns
                 else out in
      let out := ctrl_finish out f in
      Some (wr (wr out (len - 2) REAC_END_MARKER_0) (len - 1) REAC_END_MARKER_1).

Definition ctrl_emit (f : ctrl_frame) (dst src : list Z) (counter n_ch : Z)
    (args : option (list Z)) (planar : planes) (ns : Z) : option (list Z) :=
  ctrl_emit_as f None dst src counter n_ch args planar ns.

Definition ctrl_stamp (frame : list Z) (f : ctrl_frame) (args : option (list Z)) : list Z :=
  let frame := wr frame TYPE_OFF (cf_type0 f) in
  let frame := wr frame (TYPE_OFF + 1) (cf_type1 f) in
  ctrl_finish (ctrl_lay_block frame f None args) f.

Inductive ctrl_frame_id :=
| CTRL_BOX_HB | CTRL_UPSTREAM_FILLER | CTRL_FLOOD_FILLER | CTRL_CONFIG_ANNOUNCE
| CTRL_IDENT_FIRST | CTRL_COLDCONNECT | CTRL_COLDCONNECT_0013 | CTRL_COLDCONNECT_0016
| CTRL_COLDCONNECT_001A | CTRL_IDENT_LAST | CTRL_HEADAMP.

(** A row that names only what the C initialiser names. *)
Definition ctrl_row (t0 t1 : Z) (b : ctrl_block) (ck : ctrl_cksum) (l : ctrl_len)
    (g : ctrl_gate) (audio : bool) : ctrl_frame :=
  CtrlFrame t0 t1 b [] 0 0 0 0 ck l g audio.

Definition CTRL_FRAMES (i : ctrl_frame_id) : ctrl_frame :=
  match i with
  | CTRL_BOX_HB =>
      CtrlFrame 0xcd 0xea BLOCK_TMPL TMPL_BOX_HB 0 0 0 0 CKSUM_BLOCK LEN_ARG_WIDTH
        GATE_ALWAYS false
  | CTRL_UPSTREAM_FILLER =>
      ctrl_row 0x00 0x00 BLOCK_DESC CKSUM_NONE LEN_ARG_WIDTH GATE_ALWAYS true
  | CTRL_FLOOD_FILLER =>
      ctrl_row 0x00 0x00 BLOCK_ZERO CKSUM_NONE LEN_ARG_WIDTH GATE_ALWAYS true
  | CTRL_CONFIG_ANNOUNCE =>
      ctrl_row 0xcd 0xea BLOCK_CONFIG CKSUM_BLOCK LEN_MODEL_WIDTH GATE_ALWAYS false
  | CTRL_IDENT_FIRST =>
      ctrl_row 0xcd 0xea BLOCK_IDENT_FIRST CKSUM_NONE LEN_MODEL_WIDTH GATE_HAS_IDENTITY false
  | CTRL_COLDCONNECT =>
      ctrl_row 0xcd 0xea BLOCK_CC0014 CKSUM_BLOCK LEN_ARG_WIDTH GATE_ALWAYS true
  | CTRL_COLDCONNECT_0013 =>
      ctrl_row 0xcd 0xea BLOCK_CC0013 CKSUM_NONE LEN_ARG_WIDTH GATE_ALWAYS true
  | CTRL_COLDCONNECT_0016 =>
      ctrl_row 0xcd 0xea BLOCK_CC0016 CKSUM_NONE LEN_ARG_WIDTH GATE_ALWAYS true
  | CTRL_COLDCONNECT_001A =>
      ctrl_row 0xcd 0xea BLOCK_CC001A CKSUM_NONE LEN_ARG_WIDTH GATE_ALWAYS true
  | CTRL_IDENT_LAST =>
      ctrl_row 0xcd 0xea BLOCK_IDENT_LAST CKSUM_NONE LEN_MODEL_WIDTH GATE_HAS_IDENTITY false
  | CTRL_HEADAMP =>
      CtrlFrame 0xcd 0xea BLOCK_TMPL TMPL_HEADAMP HEADAMP_ARG_OFF HEADAMP_ARG_LEN
        HEADAMP_REC_OFF HEADAMP_REC_LEN CKSUM_RECORD LEN_DOWNSTREAM GATE_ALWAYS false
  end.

(** ** The public builders *)

Definition reac_ctrl_build_box_hb (master src : list Z) (counter n_ch : Z) : option (list Z) :=
  ctrl_emit (CTRL_FRAMES CTRL_BOX_HB) master src counter n_ch None [] 0.

Definition reac_ctrl_build_upstream_filler (master src : list Z) (counter n_ch : Z)
    (planar : planes) (ns : Z) : option (list Z) :=
  ctrl_emit (CTRL_FRAMES CTRL_UPSTREAM_FILLER) master src counter n_ch None planar ns.

Definition reac_ctrl_build_flood_filler (bcast src : list Z) (counter n_ch : Z)
    (planar : planes) (ns : Z) : option (list Z) :=
  ctrl_emit (CTRL_FRAMES CTRL_FLOOD_FILLER) bcast src counter n_ch None planar ns.

Definition reac_ctrl_build_config_announce (master src : list Z) (counter in_ch : Z)
    : option (list Z) :=
  ctrl_emit (CTRL_FRAMES CTRL_CONFIG_ANNOUNCE) master src counter in_ch None [] 0.

Definition reac_ctrl_build_identity_first (master src : list Z) (counter in_ch : Z)
    : option (list Z) :=
  ctrl_emit (CTRL_FRAMES CTRL_IDENT_FIRST) master src counter in_ch None [] 0.

Definition reac_ctrl_build_coldconnect (master src : list Z) (counter n_ch : Z)
    (planar : planes) (ns : Z) : option (list Z) :=
  ctrl_emit (CTRL_FRAMES CTRL_COLDCONNECT) master src counter n_ch None planar ns.

Definition BOX_MASTER_BLK8 : list Z :=
  [0x01; 0x03; 0x00; 0x10; 0x80; 0x00; 0x00; 0x00; 0x01; 0x01; 0x01; 0x01; 0x02; 0x02; 0x03; 0x03;
   0x03; 0x03; 0x03; 0x03; 0x00; 0x00; 0x00; 0x00; 0x00; 0x00; 0x00; 0x00; 0x00; 0x00; 0x00; 0x52].
Definition BOX_MASTER_BLK16 : list Z :=
  [0x01; 0x03; 0x00; 0x10; 0x80; 0x00; 0x00; 0x00; 0x02; 0x02; 0x02; 0x02; 0x01; 0x01; 0x03; 0x03;
   0x03; 0x03; 0x03; 0x03; 0x00; 0x00; 0x00; 0x00; 0x00; 0x00; 0x00; 0x00; 0x00; 0x00; 0x00; 0x50].

Definition reac_ctrl_build_config_announce_box_master (master src : list Z) (counter n_ch : Z)
    : option (list Z) :=
  let blk := if 16 <=? n_ch then BOX_MASTER_BLK16 else BOX_MASTER_BLK8 in
  match ctrl_emit (CTRL_FRAMES CTRL_CONFIG_ANNOUNCE) master src counter n_ch None [] 0 with
  | None => None
  | Some out => Some (blit out REAC_CTRL_BLOCK_OFF blk)
  end.

Definition HEAD_MARK_REC : list Z :=
  [u8 (Z.shiftr REAC_DT1_TAG_HEAD_MARK 8); u8 (Z.land REAC_DT1_TAG_HEAD_MARK 0xff); 0x03; 0; 0; 0].

Definition reac_ctrl_build_coldconnect_head (master src : list Z) (counter n_ch : Z)
    (planar : planes) (ns : Z) : option (list Z) :=
  match ctrl_emit (CTRL_FRAMES CTRL_COLDCONNECT) master src counter n_ch None planar ns with
  | None => None
  | Some out =>
      let out := blit out (REAC_CTRL_BLOCK_OFF + 16) HEAD_MARK_REC in
      let out := reac_ctrl_record_cksum_stamp out (REAC_CTRL_BLOCK_OFF + 16)
                   (zlen HEAD_MARK_REC + 1) in
      Some (reac_ctrl_checksum_apply out)
  end.

Definition reac_ctrl_build_coldconnect_0013 (master src : list Z) (counter n_ch : Z)
    (planar : planes) (ns : Z) : option (list Z) :=
  ctrl_emit (CTRL_FRAMES CTRL_COLDCONNECT_0013) master src counter n_ch None planar ns.
Definition reac_ctrl_build_coldconnect_0016 (master src : list Z) (counter n_ch : Z)
    (planar : planes) (ns : Z) : option (list Z) :=
  ctrl_emit (CTRL_FRAMES CTRL_COLDCONNECT_0016) master src counter n_ch None planar ns.
Definition reac_ctrl_build_coldconnect_001a (master src : list Z) (counter n_ch : Z)
    (planar : planes) (ns : Z) : option (list Z) :=
  ctrl_emit (CTRL_FRAMES CTRL_COLDCONNECT_001A) master src counter n_ch None planar ns.
Definition reac_ctrl_build_identity_last (master src : list Z) (counter in_ch : Z)
    : option (list Z) :=
  ctrl_emit (CTRL_FRAMES CTRL_IDENT_LAST) master src counter in_ch None [] 0.

Definition box_block_to_ctrl_frame (b : reac_box_block) : ctrl_frame_id :=
  match b with
  | REAC_BOX_BLOCK_CONFIG => CTRL_CONFIG_ANNOUNCE
  | REAC_BOX_BLOCK_CC0014 => CTRL_COLDCONNECT
  | REAC_BOX_BLOCK_CC0013 => CTRL_COLDCONNECT_0013
  | REAC_BOX_BLOCK_CC0016 => CTRL_COLDCONNECT_0016
  | REAC_BOX_BLOCK_CC001A => CTRL_COLDCONNECT_001A
  | REAC_BOX_BLOCK_IDENT_FIRST => CTRL_IDENT_FIRST
  | REAC_BOX_BLOCK_IDENT_LAST => CTRL_IDENT_LAST
  end.

Definition reac_ctrl_build_as (m : option reac_box_model) (b : reac_box_block)
    (master src : list Z) (counter : Z) (planar : planes) (ns : Z) : option (list Z) :=
  match m with
  | None => None
  | Some _ =>
      ctrl_emit_as (CTRL_FRAMES (box_block_to_ctrl_frame b)) m master src counter
        (reac_box_model_upstream_width m) None planar ns
  end.

(** ** The head-amp record *)

Definition REAC_HEADAMP_PHANTOM : Z := 0.
Definition REAC_HEADAMP_PAD : Z := 1.
Definition REAC_HEADAMP_SENS : Z := 2.

Definition headamp_args_ok (param value : Z) : bool :=
  if (param =? REAC_HEADAMP_PHANTOM) || (param =? REAC_HEADAMP_PAD) then value <=? 1
  else if param =? REAC_HEADAMP_SENS then value <=? REAC_HEADAMP_SENS_MAX
  else false.

Definition reac_ctrl_build_headamp (master src : list Z) (counter ch param value : Z)
    : option (list Z) :=
  if negb (headamp_args_ok param value) then None
  else ctrl_emit (CTRL_FRAMES CTRL_HEADAMP) master src counter 0 (Some [ch; param; value]) [] 0.

(** [None] is the -1 return, the frame untouched. *)
Definition reac_ctrl_stamp_headamp (frame : list Z) (ch param value : Z) : option (list Z) :=
  if negb (headamp_args_ok param value) then None
  else Some (ctrl_stamp frame (CTRL_FRAMES CTRL_HEADAMP) (Some [ch; param; value])).

Definition reac_ctrl_headamp_record_verify (frame : list Z) : bool :=
  if negb (frame.[REAC_CTRL_BLOCK_OFF] =? REAC_LINK_RECORD)
     || negb (frame.[REAC_CTRL_BLOCK_OFF + 1] =? REAC_SEG_SINGLE) then false
  else reac_ctrl_record_cksum_verify frame (REAC_CTRL_BLOCK_OFF + HEADAMP_REC_OFF)
         HEADAMP_REC_LEN.

(** ** The grant sweep *)

Definition REAC_GRANT_GROUPB_LEN : Z := 6.
Definition REAC_GRANT_SWEEP_LEN (w : Z) : Z := 8 + w * 3.

Definition GRANT_HEAD_ACK : list Z :=
  [0xcd; 0xea; 0x04; 0x03; 0x00; 0x14; 0x00; 0x02; 0x00; 0xfe; 0x0f; 0xf0;
   0x41; 0x0a; 0x00; 0x00; 0x12; 0x12; 0x01; 0x00; 0x06; 0x00; 0x01; 0x00;
   0x78; 0xf7; 0x00; 0x00; 0x00; 0x00; 0x00; 0x00; 0x00; 0x00].
Definition GRANT_HEAD_MARK : list Z :=
  [0xcd; 0xea; 0x04; 0x03; 0x00; 0x14; 0x00; 0x02; 0x00; 0xfe; 0x0f; 0xf0;
   0x41; 0x0a; 0x00; 0x00; 0x12; 0x12; 0x00; 0x00; 0x03; 0x00; 0x00; 0x00;
   0x7d; 0xf7; 0x00; 0x00; 0x00; 0x00; 0x00; 0x00; 0x00; 0x00].

(** The six group-B rows differ in bytes 20 to 23 only. *)
Definition groupb_row (a b c ck : Z) : list Z :=
  [0xcd; 0xea; 0x04; 0x03; 0x00; 0x13; 0x00; 0x02; 0x00; 0xfe; 0x0e; 0xf0; 0x41; 0x0a; 0x00; 0x00;
   0x12; 0x11; 0x05; 0x00; a; b; c; ck; 0xf7; 0x00; 0x00; 0x00; 0x00; 0x00; 0x00; 0x00; 0x00; 0x03].
Definition GRANT_GROUPB : list (list Z) :=
  [groupb_row 0x00 0x00 0x04 0x77; groupb_row 0x06 0x00 0x08 0x6d; groupb_row 0x10 0x00 0x11 0x5a;
   groupb_row 0x10 0x11 0x09 0x51; groupb_row 0x11 0x00 0x11 0x59; groupb_row 0x11 0x11 0x09 0x50].

Definition reac_ctrl_identity_poll_block (i : Z) : option (list Z) :=
  if (i <? 0) || (REAC_GRANT_GROUPB_LEN <=? i) then None
  else GRANT_GROUPB !! Z.to_nat i.

Definition put_groupa (ch param value : Z) : option (list Z) :=
  match reac_ctrl_stamp_headamp (zeros REAC_FRAME_BYTES) ch param value with
  | None => None
  | Some scratch => Some (slice scratch 16 34)
  end.

(** The three records of channel [base + c], in parameter order. *)
Definition groupa_rows (base c : Z) (values : list Z) : option (list (list Z)) :=
  mapM (λ p, put_groupa (u8 (base + c)) p values.[c * REAC_HEADAMP_NPARAMS + p])
    (zseq 0 REAC_HEADAMP_NPARAMS).

(** [reac_ctrl_build_grant_sweep]: the rows in order, [None] for the -1 return. *)
Definition reac_ctrl_build_grant_sweep (max base width : Z) (values : list Z)
    : option (list (list Z)) :=
  if width <=? 0 then None
  else if REAC_HEADAMP_MAX_CH <? base + width then None
  else if max <? REAC_GRANT_SWEEP_LEN width then None
  else
    first ← groupa_rows base 0 values;
    rest ← mapM (λ c, groupa_rows base c values) (zseq 1 (width - 1));
    Some ([GRANT_HEAD_ACK] ++ first ++ [GRANT_HEAD_MARK] ++ GRANT_GROUPB ++ mjoin rest).

(** ** Granularity *)

(** The SENS, pad and phantom shifts are all 0: every record is per channel. *)
Definition reac_headamp_group_of (ch param : Z) : Z :=
  if param =? REAC_HEADAMP_SENS then Z.shiftr ch 0
  else if param =? REAC_HEADAMP_PAD then Z.shiftr ch 0
  else if param =? REAC_HEADAMP_PHANTOM then Z.shiftr ch 0
  else -1.
Definition reac_headamp_record_carries (ch param : Z) : Z :=
  if (param =? REAC_HEADAMP_SENS) || (param =? REAC_HEADAMP_PAD)
     || (param =? REAC_HEADAMP_PHANTOM) then 1 else -1.

(** * Properties *)

(** ** Stores inside a block are stores on the block *)

Lemma wr_blit_in l off k i v :
  0 ≤ off → off + zlen k ≤ zlen l → 0 ≤ i < zlen k →
  wr (blit l off k) (off + i) v = blit l off (wr k i v).
Proof.
  intros. apply buf_ext; [zl|]. intros j Hj. autorewrite with zlen in Hj.
  destruct (decide (j = off + i)) as [->|].
  - rds. by replace (off + i - off) with i by lia; rewrite rd_wr_eq by lia.
  - rewrite rd_wr_ne by lia. destruct (decide (off ≤ j < off + zlen k)).
    + rewrite !rd_blit_in by zl. by rewrite rd_wr_ne by lia.
    + rewrite !rd_blit_out by zl. done.
Qed.

Lemma blit_blit_in l off k a k2 :
  0 ≤ off → off + zlen k ≤ zlen l → 0 ≤ a → a + zlen k2 ≤ zlen k →
  blit (blit l off k) (off + a) k2 = blit l off (blit k a k2).
Proof.
  intros. apply buf_ext; [zl|]. intros j Hj. autorewrite with zlen in Hj.
  pose proof (zlen_nonneg k2).
  destruct (decide (off + a ≤ j < off + a + zlen k2)).
  - rewrite !rd_blit_in by zl. f_equal; lia.
  - rewrite (rd_blit_out _ (off + a)) by zl.
    destruct (decide (off ≤ j < off + zlen k)).
    + rewrite !rd_blit_in by zl. by rewrite rd_blit_out by lia.
    + rewrite !rd_blit_out by zl. done.
Qed.

Lemma slice_blit_at l off k a n :
  0 ≤ off → off + zlen k ≤ zlen l → 0 ≤ a → a + n ≤ zlen k →
  slice (blit l off k) (off + a) n = slice k a n.
Proof.
  intros. apply buf_ext; [zl|]. intros i Hi. rewrite zlen_slice, zlen_blit in Hi.
  rewrite !rd_slice by lia. rewrite rd_blit_in by lia. f_equal; lia.
Qed.

Lemma record_stamp_blit l b a n :
  zlen b = 32 → 50 ≤ zlen l → 0 ≤ a → 1 ≤ n → a + n ≤ 32 →
  reac_ctrl_record_cksum_stamp (blit l REAC_CTRL_BLOCK_OFF b) (REAC_CTRL_BLOCK_OFF + a) n =
  blit l REAC_CTRL_BLOCK_OFF (reac_ctrl_record_cksum_stamp b a n).
Proof.
  intros Hb Hl Ha Hn Han. unfold reac_ctrl_record_cksum_stamp, REAC_CTRL_BLOCK_OFF.
  rewrite slice_blit_at by lia.
  replace (18 + a + (n - 1)) with (18 + (a + (n - 1))) by lia.
  by rewrite wr_blit_in by lia.
Qed.

Lemma block_stamp_blit l b :
  zlen b = 32 → 50 ≤ zlen l →
  reac_ctrl_block_cksum_stamp (blit l REAC_CTRL_BLOCK_OFF b) REAC_CTRL_BLOCK_OFF =
  blit l REAC_CTRL_BLOCK_OFF (reac_ctrl_block_cksum_stamp b 0).
Proof.
  intros Hb Hl. unfold reac_ctrl_block_cksum_stamp, REAC_CTRL_BLOCK_OFF, REAC_CTRL_BLOCK_LEN.
  replace (slice (blit l 18 b) 18 (32 - 1)) with (slice b 0 (32 - 1))
    by (symmetry; apply (slice_blit_at l 18 b 0); lia).
  by rewrite wr_blit_in by lia.
Qed.

(** ** The head-amp record *)

(** The block a head-amp row lays, before and after its two checksums. *)
Definition headamp_raw (ch param value : Z) : list Z :=
  [4; 3; 0; 19; 0; 2; 0; 254; 14; 240; 65; 10; 0; 0; 18; 18; 1; 1; ch; param; value; 0; 247;
   0; 0; 0; 0; 0; 0; 0; 0; 0].
Definition headamp_block (ch param value : Z) : list Z :=
  reac_ctrl_block_cksum_stamp (reac_ctrl_record_cksum_stamp (headamp_raw ch param value) 16 6) 0.

Lemma headamp_block_facts ch param value :
  let b := headamp_block ch param value in
  zlen b = 32 ∧ slice b 0 21 = slice (headamp_raw ch param value) 0 21 ∧
  zsum b mod 256 = 0 ∧ zsum (slice b 16 6) mod 128 = 0.
Proof.
  cbv zeta. unfold headamp_block. set (r := reac_ctrl_record_cksum_stamp _ _ _).
  assert (Hr : zlen r = 32) by reflexivity. split_and!; [reflexivity|reflexivity|..].
  - rewrite <- (slice_full (reac_ctrl_block_cksum_stamp r 0) 32) by (by rewrite zlen_block_stamp).
    apply block_stamp_closes; lia.
  - unfold reac_ctrl_block_cksum_stamp. rewrite slice_wr_out by (unfold REAC_CTRL_BLOCK_LEN; lia).
    apply record_stamp_closes; [lia|lia|]. unfold zlen; simpl; lia.
Qed.

Lemma ctrl_stamp_headamp frame ch param value :
  50 ≤ zlen frame →
  ctrl_stamp frame (CTRL_FRAMES CTRL_HEADAMP) (Some [ch; param; value]) =
  blit (wr (wr frame 16 0xcd) 17 0xea) REAC_CTRL_BLOCK_OFF (headamp_block ch param value).
Proof.
  intros Hl. unfold ctrl_stamp, TYPE_OFF. change (16 + 1) with 17.
  cbn [cf_type0 cf_type1 CTRL_FRAMES].
  set (fr := wr (wr frame 16 0xcd) 17 0xea). assert (Hf : 50 ≤ zlen fr) by (subst fr; zl).
  unfold ctrl_lay_block. cbn [row_block cf_block cf_tmpl cf_arg_len cf_arg_off CTRL_FRAMES].
  change (slice [ch; param; value] 0 HEADAMP_ARG_LEN) with [ch; param; value].
  change (negb (HEADAMP_ARG_LEN =? 0)) with true. cbv iota.
  rewrite blit_blit_in; [|done|exact Hf|done|vm_compute; congruence].
  change (blit TMPL_HEADAMP HEADAMP_ARG_OFF [ch; param; value])
    with (headamp_raw ch param value).
  unfold ctrl_finish. cbn [cf_cksum cf_rec_off cf_rec_len CTRL_FRAMES].
  unfold HEADAMP_REC_OFF, HEADAMP_REC_LEN.
  rewrite record_stamp_blit by (done || lia). by rewrite block_stamp_blit by done.
Qed.

Lemma headamp_block_rd ch param value i :
  0 ≤ i < 21 → (headamp_block ch param value).[i] = (headamp_raw ch param value).[i].
Proof.
  intros Hi. destruct (headamp_block_facts ch param value) as (_ & Hs & _).
  rewrite <- (Z.add_0_l i), <- !(rd_slice _ 0 21) by lia. by rewrite Hs.
Qed.

(** A frame that carries the record parses as it, and both checksums verify. *)
Lemma headamp_carried frame ch param value :
  carries frame (headamp_block ch param value) →
  (let p := reac_ctrl_parse frame (zlen frame) in
   p_kind p = REAC_CTRL_HEADAMP ∧ p_ch p = ch ∧ p_param p = param ∧ p_value p = value) ∧
  reac_ctrl_checksum_verify frame = true ∧ reac_ctrl_headamp_record_verify frame = true.
Proof.
  intros Hc. destruct (headamp_block_facts ch param value) as (Hb & _ & Hsum & Hrec).
  set (b := headamp_block ch param value) in *.
  assert (Hrd : ∀ i, 0 ≤ i < 21 → b.[i] = (headamp_raw ch param value).[i])
    by (intros; by apply headamp_block_rd).
  destruct (parse_record frame b Hc) as (_ & _ & Hp); [by rewrite Hrd by lia..|].
  rewrite !Hrd in Hp by lia. replace (_ && _ && _) with true in Hp by reflexivity.
  split_and!; try apply Hp.
  - by apply (carries_verify frame b Hc).
  - unfold reac_ctrl_headamp_record_verify, HEADAMP_REC_OFF, HEADAMP_REC_LEN.
    rewrite <- (Z.add_0_r REAC_CTRL_BLOCK_OFF) at 1.
    rewrite !(carries_rd frame b _ Hc), !Hrd by lia.
    change ((_ || _ : bool)) with false.
    apply record_verify_iff. by rewrite (carries_slice frame b) by (done || lia).
Qed.

(** A head-amp command laid over a running frame changes only its type word
    and control block: addresses, counter, audio and end marker survive, the
    frame parses back as exactly that command, and both nested checksums (the
    DT1 record's inside the block's) verify; a parameter or value out of range
    is refused. *)
Theorem headamp_overlay (frame : list Z) (ch param value : Z) :
  50 ≤ zlen frame → frame.[12] = 0x88 → frame.[13] = 0x19 →
  match reac_ctrl_stamp_headamp frame ch param value with
  | None => headamp_args_ok param value = false
  | Some f' =>
      headamp_args_ok param value = true ∧ zlen f' = zlen frame ∧
      (∀ i, 0 ≤ i → i < 16 ∨ 50 ≤ i → f'.[i] = frame.[i]) ∧
      (let p := reac_ctrl_parse f' (zlen f') in
       p_kind p = REAC_CTRL_HEADAMP ∧ p_ch p = ch ∧ p_param p = param ∧ p_value p = value) ∧
      reac_ctrl_checksum_verify f' = true ∧ reac_ctrl_headamp_record_verify f' = true
  end.
Proof.
  intros Hl H12 H13. unfold reac_ctrl_stamp_headamp.
  destruct (headamp_args_ok param value) eqn:Ea; [|done]. cbn [negb].
  rewrite ctrl_stamp_headamp by done.
  pose proof (headamp_block_facts ch param value) as (Hb & _).
  set (f' := blit _ _ (headamp_block ch param value)). unfold REAC_CTRL_BLOCK_OFF in f'.
  assert (Hc : carries f' (headamp_block ch param value)).
  { unfold carries, REAC_CTRL_BLOCK_OFF. subst f'. split_and!; [zl|by rds..|].
    rewrite <- Hb at 1. apply slice_blit_in; zl. }
  destruct (headamp_carried f' ch param value Hc) as (Hp & Hv & Hr).
  split_and!; try done; try apply Hp.
  - subst f'. zl.
  - intros i Hi Ho. subst f'. rds. done.
Qed.

Lemma headamp_overlay_witness :
  let frame := reac_downstream_build [] 0 12 7 (zeros 6) in
  ∃ f', reac_ctrl_stamp_headamp frame 33 0 1 = Some f' ∧ reac_ctrl_checksum_verify f' = true.
Proof.
  intros frame.
  assert (Hl : zlen frame = 1492) by apply zlen_downstream_build.
  pose proof (headamp_overlay frame 33 0 1 ltac:(lia)) as H.
  destruct (reac_ctrl_stamp_headamp frame 33 0 1) as [f'|] eqn:E;
    [|unfold reac_ctrl_stamp_headamp in E; discriminate E].
  exists f'. split; [done|]. apply H; vm_compute; reflexivity.
Defined.

(** ** Box frames carry their audio *)

Lemma upstream_channels_of n :
  reac_box_width_ok n = true → reac_upstream_channels (52 + 36 * n) = n.
Proof.
  intros Hn. pose proof Hn as Hn'. apply box_width_ok_iff in Hn'.
  unfold reac_upstream_channels, REAC_UPSTREAM_OVERHEAD, REAC_UPSTREAM_BYTES_PER_CH.
  replace ((52 + 36 * n - 52) / 36) with n by lia. rewrite to_int_small by lia. rewrite Hn.
  split_ifs; simpl in *; lia.
Qed.

Lemma zlen_put_hdr f dst src counter t0 t1 : zlen (put_hdr f dst src counter t0 t1) = zlen f.
Proof. unfold put_hdr. zl. Qed.
Lemma zlen_lay_block f r m a : zlen (ctrl_lay_block f r m a) = zlen f.
Proof. unfold ctrl_lay_block. destruct a; [destruct (negb _)|]; zl. Qed.
#[export] Hint Rewrite zlen_put_hdr zlen_lay_block : zlen.

Lemma u8_land_ff x : u8 (Z.land x 0xff) = u8 x.
Proof. rewrite land_ff. unfold u8. lia. Qed.

(** An audio row at the caller's width, with no checksum of its own. *)
Section AudioRow.
Context (f : ctrl_frame) (dst src : list Z) (counter n ns : Z) (planar : planes).
Context (Hdst : zlen dst = 6) (Hsrc : zlen src = 6).
Context (Hlen : cf_len f = LEN_ARG_WIDTH) (Hgate : cf_gate f = GATE_ALWAYS).
Context (Hck : cf_cksum f = CKSUM_NONE) (Haud : cf_audio f = true).
Context (Hblk : ∀ m, zlen (row_block f m) = 32).
Context (Hn : reac_box_width_ok n = true).

Let m := reac_box_catalogue_by_width n.
Let hdr := put_hdr (zeros (52 + 36 * n)) dst src counter (cf_type0 f) (cf_type1 f).
Let out := reac_braid_encode (blit hdr 18 (row_block f (Some m))) 50 n planar n ns.
Let frame := wr (wr out (52 + 36 * n - 2) 0xC2) (52 + 36 * n - 1) 0xEA.

Lemma audio_row_emit : ctrl_emit f dst src counter n None planar ns = Some frame.
Proof.
  unfold ctrl_emit, ctrl_emit_as. rewrite Hn, Hgate. rewrite !andb_false_r. cbn [negb ctrl_gate_ok].
  unfold emit_len. rewrite Hlen, Haud. unfold ctrl_finish. rewrite Hck. cbn [default].
  unfold reac_ctrl_box_frame_len, AUDIO_OFF, REAC_SAMPLES_PER_PKT, REAC_RESOLUTION.
  replace (50 + n * 12 * 3 + 2) with (52 + 36 * n) by lia. reflexivity.
Qed.

Lemma audio_row_decode :
  zlen frame = 52 + 36 * n ∧
  reac_upstream_decode frame (52 + 36 * n) = Some (12, planar_bytes planar n n ns) ∧
  slice frame 0 6 = dst ∧ slice frame 6 6 = src ∧
  frame.[12] = 0x88 ∧ frame.[13] = 0x19 ∧
  u16 (Z.lor frame.[14] (Z.shiftl frame.[15] 8)) = u16 counter ∧
  frame.[16] = cf_type0 f ∧ frame.[17] = cf_type1 f ∧
  slice frame 18 32 = row_block f (Some m).
Proof using Hdst Hsrc Hblk Hn.
  pose proof Hn as Hn'. apply box_width_ok_iff in Hn'. pose proof (Hblk (Some m)) as Hb.
  set (blk := row_block f (Some m)) in *.
  assert (Hz : zlen (blit hdr 18 blk) = 52 + 36 * n) by (subst hdr; zl).
  assert (Ho : zlen out = 52 + 36 * n) by (subst out; rewrite zlen_braid_encode; done).
  assert (Hf : zlen frame = 52 + 36 * n) by (subst frame; zl).
  assert (Hrd : ∀ i, 0 ≤ i < 50 → frame.[i] = (blit hdr 18 blk).[i]).
  { intros i Hi. subst frame. rewrite !rd_wr_ne by lia. subst out.
    apply rd_braid_encode_out; lia. }
  assert (Hh : ∀ i, 0 ≤ i < 18 → frame.[i] = hdr.[i]).
  { intros i Hi. rewrite Hrd by lia. by rewrite rd_blit_out by lia. }
  assert (H12 : frame.[12] = 0x88) by (rewrite Hh by lia; subst hdr; unfold put_hdr, CNT_OFF, TYPE_OFF; by rds).
  assert (H13 : frame.[13] = 0x19) by (rewrite Hh by lia; subst hdr; unfold put_hdr, CNT_OFF, TYPE_OFF; by rds).
  split_and!; [done| | | |done|done|..].
  - unfold reac_upstream_decode. rewrite upstream_channels_of, H12, H13 by done.
    replace (n <? 0) with false by lia.
    replace (frame.[52 + 36 * n - 2]) with 0xC2 by (subst frame; by rds).
    replace (frame.[52 + 36 * n - 1]) with 0xEA by (subst frame; by rds).
    unfold REAC_SAMPLES_PER_PKT, REAC_L2_HEADER_LEN. cbn [negb orb Z.eqb Pos.eqb]. do 2 f_equal.
    apply (unbraid_encode frame (blit hdr 18 blk)); [lia|lia|lia|..].
    + intros j Hj. subst frame. by rewrite !rd_wr_ne by lia.
    + intros j Hj. rewrite rd_blit_out by lia. subst hdr. unfold put_hdr, CNT_OFF, TYPE_OFF.
      by rds.
  - apply buf_ext; [zl|]. intros i Hi. autorewrite with zlen in Hi.
    rewrite rd_slice by lia. rewrite Hh by lia. subst hdr. unfold put_hdr, CNT_OFF, TYPE_OFF.
    rds. f_equal; lia.
  - apply buf_ext; [zl|]. intros i Hi. autorewrite with zlen in Hi.
    rewrite rd_slice by lia. rewrite Hh by lia. subst hdr. unfold put_hdr, CNT_OFF, TYPE_OFF.
    rds. f_equal; lia.
  - rewrite !Hh by lia. subst hdr. unfold put_hdr, CNT_OFF, TYPE_OFF. rds.
    by rewrite <- (u16_of_bytes counter), (u8_land_ff (Z.shiftr counter 8)).
  - rewrite Hh by lia. subst hdr. unfold put_hdr, CNT_OFF, TYPE_OFF. by rds.
  - rewrite Hh by lia. subst hdr. unfold put_hdr, CNT_OFF, TYPE_OFF. by rds.
  - apply buf_ext; [zl|]. intros i Hi. autorewrite with zlen in Hi.
    rewrite rd_slice, Hrd by lia. rds. f_equal; lia.
Qed.
End AudioRow.

(** What a box sends upstream is what the master hears: for every legal box
    width the upstream filler has the frame length of that width, decodes to
    exactly the encoded source samples (silence for a short quantum or missing
    planes), names its sender, addressee and counter, and parses as a filler; a
    width that is not a box width builds nothing. *)
Theorem upstream_filler_roundtrip (master src : list Z) (counter n : Z) (planar : planes)
    (ns : Z) :
  zlen master = 6 → zlen src = 6 →
  match reac_ctrl_build_upstream_filler master src counter n planar ns with
  | None => reac_box_width_ok n = false
  | Some frame =>
      reac_box_width_ok n = true ∧ zlen frame = frame_len n ∧
      reac_upstream_decode frame (zlen frame) = Some (12, planar_bytes planar n n ns) ∧
      (let p := reac_ctrl_parse frame (zlen frame) in
       p_kind p = REAC_CTRL_FILLER ∧ p_src p = src ∧ p_dst p = master ∧ p_counter p = u16 counter)
  end.
Proof.
  intros Hd Hs. unfold reac_ctrl_build_upstream_filler.
  destruct (reac_box_width_ok n) eqn:Hn; cycle 1.
  { unfold ctrl_emit, ctrl_emit_as. rewrite Hn. done. }
  set (f := CTRL_FRAMES CTRL_UPSTREAM_FILLER).
  rewrite (audio_row_emit f); [|done..].
  destruct (audio_row_decode f master src counter n ns planar) as
    (Hl & Hdec & Hm & Hsr & H12 & H13 & Hc & H16 & H17 & _); [done..|].
  set (frame := wr (wr _ _ _) _ _) in *. rewrite Hl.
  apply box_width_ok_iff in Hn. split_and!; [done|unfold frame_len, REAC_UPSTREAM_OVERHEAD, REAC_UPSTREAM_BYTES_PER_CH; lia|done|..];
    unfold reac_ctrl_parse, AUDIO_OFF, TYPE_OFF, CNT_OFF; change (16 + 1) with 17;
    change (14 + 1) with 15; rewrite H12, H13, H16, H17;
    (replace (52 + 36 * n <? 50) with false by lia); done.
Qed.

Lemma upstream_filler_roundtrip_witness :
  ∃ frame, reac_ctrl_build_upstream_filler (fill 6 1) (fill 6 2) 513 2 [] 12 = Some frame ∧
    p_counter (reac_ctrl_parse frame (zlen frame)) = 513.
Proof.
  pose proof (upstream_filler_roundtrip (fill 6 1) (fill 6 2) 513 2 [] 12 eq_refl eq_refl) as H.
  destruct (reac_ctrl_build_upstream_filler _ _ _ _ _ _) as [frame|]; [|discriminate H].
  exists frame. split; [done|]. apply H.
Defined.

(** ** The grant sweep *)

Definition groupa_row (ch param value : Z) : list Z :=
  [0xcd; 0xea] ++ headamp_block ch param value.

Lemma put_groupa_row ch param value :
  headamp_args_ok param value = true → put_groupa ch param value = Some (groupa_row ch param value).
Proof.
  intros Ha. unfold put_groupa, reac_ctrl_stamp_headamp. rewrite Ha. cbn [negb].
  rewrite ctrl_stamp_headamp by (vm_compute; congruence). reflexivity.
Qed.

(** Every value the sweep will carry is one the head-amp record accepts. *)
Definition sweep_values_ok (width : Z) (values : list Z) : Prop :=
  ∀ c p, 0 ≤ c < width → 0 ≤ p < 3 → headamp_args_ok p values.[c * 3 + p] = true.

Definition channel_rows (base : Z) (values : list Z) (c : Z) : list (list Z) :=
  [groupa_row (base + c) 0 values.[c * 3 + 0]; groupa_row (base + c) 1 values.[c * 3 + 1];
   groupa_row (base + c) 2 values.[c * 3 + 2]].

Lemma groupa_rows_eq base c width values :
  sweep_values_ok width values → 0 ≤ base → base + width ≤ 48 → 0 ≤ c < width →
  groupa_rows base c values = Some (channel_rows base values c).
Proof.
  intros Hv Hb Hw Hc. unfold groupa_rows, REAC_HEADAMP_NPARAMS.
  replace (u8 (base + c)) with (base + c) by (unfold u8; lia).
  change (zseq 0 3) with [0; 1; 2]. cbn [mapM].
  rewrite !put_groupa_row by (apply Hv; lia). done.
Qed.

Lemma mapM_total {A B} (f : A → option B) (g : A → B) l :
  (∀ x, x ∈ l → f x = Some (g x)) → mapM f l = Some (g <$> l).
Proof.
  induction l as [|x l IH]; intros H; simpl; [done|].
  rewrite (H x) by (by left). simpl. rewrite IH by (intros; apply H; by right). done.
Qed.

(** The rows of equal triples, by position. *)
Lemma lookup_triples {A B} (g : A → list B) (l : list A) (k p : nat) :
  (∀ x, length (g x) = 3%nat) → (p < 3)%nat →
  mjoin (g <$> l) !! (3 * k + p)%nat = (l !! k) ≫= λ x, g x !! p.
Proof.
  intros Hg Hp. revert k; induction l as [|x l IH]; intros k; [done|]. csimpl.
  destruct k as [|k].
  - rewrite lookup_app_l by (rewrite Hg; lia). simpl.
    by replace (p + 0)%nat with p by lia.
  - rewrite lookup_app_r by (rewrite Hg; lia). rewrite Hg.
    change ((x :: l) !! S k) with (l !! k). rewrite <- IH. f_equal. lia.
Qed.

Lemma length_triples {A B} (g : A → list B) (l : list A) :
  (∀ x, length (g x) = 3%nat) → length (mjoin (g <$> l)) = (3 * length l)%nat.
Proof.
  intros Hg. induction l as [|x l IH]; [done|]. csimpl. rewrite length_app, Hg, IH. lia.
Qed.

Lemma Forall_triples {A B} (P : B → Prop) (g : A → list B) (l : list A) :
  (∀ x, Forall P (g x)) → Forall P (mjoin (g <$> l)).
Proof.
  intros Hg. induction l as [|x l IH]; csimpl; [constructor|]. by apply Forall_app.
Qed.

(** A row the master can put on the wire as it is. *)
Definition row_closed (row : list Z) : Prop :=
  row.[0] = 0xcd ∧ row.[1] = 0xea ∧ tmpl_ok row.

Lemma groupa_row_closed ch param value : row_closed (groupa_row ch param value).
Proof.
  destruct (headamp_block_facts ch param value) as (Hb & _ & Hs & _).
  unfold groupa_row. split_and!; [done|done|].
  split_and!; [zl| |].
  { rewrite rd_app_r by (vm_compute; congruence). unfold headamp_block, reac_ctrl_block_cksum_stamp.
    change (33 - zlen [205; 234]) with (0 + (REAC_CTRL_BLOCK_LEN - 1)).
    rewrite rd_wr_eq by (vm_compute; split; congruence). apply is_byte_u8. }
  change (slice ([205; 234] ++ headamp_block ch param value) 2 32)
    with (slice (headamp_block ch param value) 0 32).
  by rewrite slice_full by done.
Qed.

Lemma channel_rows_closed base values c : Forall row_closed (channel_rows base values c).
Proof. repeat constructor; apply groupa_row_closed. Qed.

Definition row_closedb (row : list Z) : bool :=
  (row.[0] =? 0xcd) && (row.[1] =? 0xea) &&
  ((zlen row =? 34) && ((0 <=? row.[33]) && (row.[33] <? 256)) && (zsum (slice row 2 32) mod 256 =? 0)).

Lemma rows_closedb l : forallb row_closedb l = true → Forall row_closed l.
Proof.
  intros H. apply Forall_forall. intros x Hx. rewrite forallb_forall in H.
  specialize (H x ltac:(by apply list_elem_of_In)). unfold row_closedb in H.
  rewrite !andb_true_iff, !Z.eqb_eq, Z.leb_le, Z.ltb_lt in H. unfold row_closed, tmpl_ok, is_byte. tauto.
Qed.

Lemma ack_closed : Forall row_closed [GRANT_HEAD_ACK].
Proof. apply rows_closedb. vm_compute. done. Qed.

Lemma mark_closed : Forall row_closed [GRANT_HEAD_MARK].
Proof. apply rows_closedb. vm_compute. done. Qed.

Lemma groupb_closed : Forall row_closed GRANT_GROUPB.
Proof. apply rows_closedb. vm_compute. done. Qed.

(** The enrolment sweep is complete and self-consistent: for any allocation
    inside the 48 head-amp slots and any in-range values it has exactly 8 + 3w
    rows, every row closes its block checksum, each allocated channel gets
    exactly its phantom, pad and sensitivity record (with the value given) at
    its place in the desk's order, and the six fixed group-B rows sit between
    the first channel and the rest. *)
Lemma grant_sweep_rows (max base width : Z) (values : list Z) :
  0 ≤ base → 0 < width → base + width ≤ 48 → 8 + 3 * width ≤ max →
  sweep_values_ok width values →
  ∃ rows, reac_ctrl_build_grant_sweep max base width values = Some rows ∧
    zlen rows = 8 + 3 * width ∧ Forall row_closed rows ∧
    (∀ c p, 0 ≤ c < width → 0 ≤ p < 3 →
       rows !! Z.to_nat (if c =? 0 then 1 + p else 8 + 3 * c + p) =
         Some (groupa_row (base + c) p values.[c * 3 + p])) ∧
    (∀ i, 0 ≤ i < 6 → rows !! Z.to_nat (5 + i) = reac_ctrl_identity_poll_block i).
Proof.
  intros Hb Hw Hbw Hmax Hv. unfold reac_ctrl_build_grant_sweep, REAC_HEADAMP_MAX_CH.
  unfold REAC_GRANT_SWEEP_LEN.
  replace (width <=? 0) with false by lia. replace (48 <? base + width) with false by lia.
  replace (max <? 8 + width * 3) with false by lia.
  rewrite (groupa_rows_eq base 0 width values) by (done || lia). simpl mbind.
  rewrite (mapM_total _ (channel_rows base values)); cycle 1.
  { intros c Hc. apply elem_of_seqZ in Hc. apply (groupa_rows_eq base c width); (done || lia). }
  cbn [mbind option_bind]. eexists; split; [reflexivity|].
  set (rest := mjoin _).
  assert (Hlk : ∀ c p, 1 ≤ c < width → (p < 3)%nat →
    rest !! (3 * Z.to_nat (c - 1) + p)%nat = channel_rows base values c !! p).
  { intros c p Hc Hp. subst rest. rewrite lookup_triples by done.
    unfold zseq. rewrite lookup_seqZ_lt by lia. simpl.
    by replace (1 + Z.of_nat (Z.to_nat (c - 1))) with c by lia. }
  split_and!.
  - assert (Hr : length rest = (3 * Z.to_nat (width - 1))%nat).
    { subst rest. rewrite (length_triples (channel_rows base values)) by done.
      unfold zseq. by rewrite length_seqZ. }
    unfold zlen. simpl. rewrite Hr. lia.
  - change (Forall row_closed ([GRANT_HEAD_ACK] ++ channel_rows base values 0 ++
      [GRANT_HEAD_MARK] ++ GRANT_GROUPB ++ rest)).
    apply Forall_app; split; [apply ack_closed|].
    apply Forall_app; split; [apply channel_rows_closed|].
    apply Forall_app; split; [apply mark_closed|].
    apply Forall_app; split; [apply groupb_closed|].
    apply Forall_triples, channel_rows_closed.
  - intros c p Hc Hp. destruct (c =? 0) eqn:E.
    + replace c with 0 by lia.
      assert (p = 0 ∨ p = 1 ∨ p = 2) as [-> | [-> | ->]] by lia; done.
    + replace (Z.to_nat (8 + 3 * c + p))
        with (11 + (3 * Z.to_nat (c - 1) + Z.to_nat p))%nat by lia.
      etransitivity; [apply (Hlk c (Z.to_nat p)); lia|].
      assert (p = 0 ∨ p = 1 ∨ p = 2) as [-> | [-> | ->]] by lia; done.
  - intros i Hi. assert (i = 0 ∨ i = 1 ∨ i = 2 ∨ i = 3 ∨ i = 4 ∨ i = 5) as Hi' by lia.
    by destruct Hi' as [-> |[-> |[-> |[-> |[-> | ->]]]]].
Qed.
