(* ===== verification/Link.v ===== *)
(** * Link: what a box's frame means to the master it is addressed to

    Models [src/reac_ctrl.c] (the classification of a received frame into a
    master event, and the pin notice), [src/reac_link.c] (the descriptor and
    the join burst of a slave) and [src/reac_link_state.c] (the published badge
    and identity properties; the property sink is the list of the calls made to
    it). Its theorem closes the loop between the two ends: every frame a box of
    this library builds is understood by the master it is built for. *)

From Stdlib Require String.
From S2P Require Import Prelude Wire Sample Codec CtrlBlk Identity BoxModel BoxFacts Disco.
From S2P Require Import SlaveFsm MasterFsm CtrlFrames.
Import String.StringSyntax.
Local Open Scope Z_scope.

(** ** The box frame classifier *)

(** The parsed frame, and the event; [None] is the -1 return. *)
Definition reac_ctrl_classify_box_frame (frame : list Z) (len : Z) (our_mac : list Z)
    : reac_ctrl_parsed * option reac_master_rx_event :=
  let out := reac_ctrl_parse frame len in
  let refuse := (out, None) in
  let event ev := (out, Some ev) in
  if bool_decide (p_kind out = REAC_CTRL_NONE) then refuse
  else if negb ((p_src out).[0] =? 0x00) || negb ((p_src out).[1] =? 0x40)
          || negb ((p_src out).[2] =? 0xab) then refuse
  else if zeqb (p_src out) our_mac then refuse
  else
    let to_us := zeqb (p_dst out) our_mac in
    if negb (bool_decide (p_kind out = REAC_CTRL_FILLER)) && negb (reac_ctrl_checksum_verify frame)
    then refuse
    else if bool_decide (p_kind out = REAC_CTRL_GRANT) then
      if (p_opcode out =? 0x00)
         && ((p_dt1_tag out =? REAC_DT1_TAG_JOIN) || (p_dt1_tag out =? REAC_DT1_TAG_BOX_READY))
      then event REAC_M_RX_BOX_JOIN else refuse
    else if p_is_broadcast out then
      if bool_decide (p_kind out = REAC_CTRL_FILLER) then event REAC_M_RX_BOX_BCAST_FILLER else refuse
    else if negb to_us then refuse
    else if bool_decide (p_kind out = REAC_CTRL_BOX_HB) then event REAC_M_RX_BOX_HEARTBEAT
    else if bool_decide (p_kind out = REAC_CTRL_SCENE_TRANSFER) && (p_seg out =? REAC_SEG_SINGLE)
    then event REAC_M_RX_BOX_BYE
    else if bool_decide (p_kind out = REAC_CTRL_CONFIG_ANNOUNCE) then event REAC_M_RX_BOX_CONFIG
    else event REAC_M_RX_BOX_UNICAST.

(** The characters before the first colon. *)
Fixpoint before_colon (s : list Z) : list Z :=
  match s with
  | [] => []
  | c :: s => if c =? 58 then [] else c :: before_colon s
  end.

(** The pin after the call, and whether it disagrees with the recognised model. *)
Definition reac_box_pin_notice (pin recognized_token : option (list Z)) : option (list Z) * bool :=
  match pin, recognized_token with
  | Some p, Some t => (None, negb (zeqb t (before_colon p)))
  | _, _ => (pin, false)
  end.

(** ** The slave's descriptor and join burst *)

Inductive reac_link_desc :=
| REAC_LINK_DESC_NONE | REAC_LINK_DESC_REQUESTING | REAC_LINK_DESC_ESTABLISHED.
Definition desc_byte (d : reac_link_desc) : Z :=
  match d with
  | REAC_LINK_DESC_NONE => 0x00
  | REAC_LINK_DESC_REQUESTING => 0x52
  | REAC_LINK_DESC_ESTABLISHED => 0x7a
  end.

Definition reac_link_fill_descriptor (frame : list Z) (d : reac_link_desc) : list Z :=
  match d with
  | REAC_LINK_DESC_NONE => blit frame REAC_CTRL_BLOCK_OFF (zeros 32)
  | _ =>
      foldl (λ f i, wr (wr f (REAC_CTRL_BLOCK_OFF + i * 2) 0x00) (REAC_CTRL_BLOCK_OFF + i * 2 + 1) (desc_byte d))
        frame (zseq 0 16)
  end.

Definition reac_link_desc_for (st : reac_fsm_state) (announced : bool) : reac_link_desc :=
  if bool_decide (st = FSM_ESTABLISHED) then REAC_LINK_DESC_ESTABLISHED
  else if announced then REAC_LINK_DESC_REQUESTING
  else REAC_LINK_DESC_NONE.

(** [None] is the 0 return: no frame. *)
Definition reac_link_slave_burst (step : Z) (master src : list Z) (counter n_ch : Z) (planar : planes)
    (ns : Z) : option (list Z) :=
  if step =? 0 then reac_ctrl_build_coldconnect master src counter n_ch planar ns
  else if step =? 1 then reac_ctrl_build_coldconnect_0013 master src counter n_ch planar ns
  else if step =? 2 then reac_ctrl_build_box_hb master src counter n_ch
  else None.

(** ** The published link state *)

Inductive reac_link_state :=
| REAC_LINK_PROBING | REAC_LINK_GRANTING | REAC_LINK_ESTABLISHED | REAC_LINK_DROPPED.

Definition reac_link_state_from_master (st : reac_master_state) (just_dropped : bool)
    : reac_link_state :=
  if just_dropped then REAC_LINK_DROPPED
  else match st with
       | REAC_M_GRANTING => REAC_LINK_GRANTING
       | REAC_M_ESTABLISHED => REAC_LINK_ESTABLISHED
       | REAC_M_IDLE | REAC_M_PROBING => REAC_LINK_PROBING
       end.

Definition reac_link_state_name (s : reac_link_state) : list Z :=
  match s with
  | REAC_LINK_PROBING => str "probing"
  | REAC_LINK_GRANTING => str "granting"
  | REAC_LINK_ESTABLISHED => str "established"
  | REAC_LINK_DROPPED => str "dropped"
  end.

(** One call of the property sink: the key and the value. *)
Definition prop : Type := list Z * list Z.

Definition reac_box_mac_publish (mac48 : Z) : list prop :=
  [(str "reac.box.mac", if mac48 =? 0 then str "none" else mac_str (reac_mac48_unpack mac48))].

Definition reac_box_master_identity_publish (width mac48 : Z) (locked : bool) : list prop :=
  [(str "reac.link-state",
    reac_link_state_name (if locked then REAC_LINK_ESTABLISHED else REAC_LINK_PROBING))] ++
  (if 0 <? width then [(str "reac.box-width", dec_str width)] else []) ++
  reac_box_mac_publish mac48.

Definition hex_str (l : list Z) : list Z := concat (hex2 <$> l).

Definition reac_box_identity_publish (id : option reac_identity) : list prop :=
  let fw := match id with
            | Some i => if id_has_fw i
                        then default [] (reac_identity_fw_str (id_fw_milli i) REAC_IDENTITY_FW_STR_CAP)
                        else []
            | None => [] end in
  let ver := match id with
             | Some i => if id_has_version i
                         then default [] (reac_identity_reac_ver_str (id_major i) (id_minor i) (id_patch i)
                                            REAC_IDENTITY_REAC_VER_STR_CAP)
                         else []
             | None => [] end in
  let hw := match id with
            | Some i => if id_has_version i
                        then hex_str (slice (id_raw i) 0 4) ++ [32] ++ hex_str (slice (id_raw i) 4 4)
                        else []
            | None => [] end in
  [(str "reac.box-firmware", fw); (str "reac.box.reac_version", ver); (str "reac.box-hw", hw)].

(** * Properties *)

(** ** What a builder's row puts on the wire *)

(** A row's block, closed when the row has a block checksum. *)
Definition finished_block (f : ctrl_frame) (m : reac_box_model) : list Z :=
  match cf_cksum f with
  | CKSUM_BLOCK => reac_ctrl_block_cksum_stamp (row_block f (Some m)) 0
  | _ => row_block f (Some m)
  end.

Lemma zlen_finished f m : zlen (finished_block f m) = zlen (row_block f (Some m)).
Proof. unfold finished_block, reac_ctrl_block_cksum_stamp. destruct (cf_cksum f); zl. Qed.

(** The control block of a finished frame whose bytes [18, 50) were laid. *)
Lemma finish_block g f blk :
  cf_cksum f ≠ CKSUM_RECORD → zlen blk = 32 → 50 ≤ zlen g → slice g 18 32 = blk →
  zlen (ctrl_finish g f) = zlen g ∧
  (∀ i, 0 ≤ i → ¬ (18 ≤ i < 50) → (ctrl_finish g f).[i] = g.[i]) ∧
  slice (ctrl_finish g f) 18 32 =
    match cf_cksum f with CKSUM_BLOCK => reac_ctrl_block_cksum_stamp blk 0 | _ => blk end.
Proof.
  intros Hr Hb Hg Hs. unfold ctrl_finish. destruct (cf_cksum f); [by split_and!| |done].
  unfold reac_ctrl_block_cksum_stamp, REAC_CTRL_BLOCK_OFF, REAC_CTRL_BLOCK_LEN.
  assert (Hsl : slice g 18 (32 - 1) = slice blk 0 (32 - 1)) by (rewrite <- Hs, slice_slice by lia; f_equal; lia).
  rewrite Hsl. set (c := u8 _). split_and!; [zl| |].
  - intros i Hi Hout. rewrite rd_wr_ne by lia. done.
  - apply buf_ext; [zl|]. intros i Hi. rewrite zlen_slice, zlen_wr in Hi. rewrite rd_slice by lia.
    destruct (decide (i = 31)) as [->|Hne].
    + rewrite !rd_wr_eq by lia. done.
    + rewrite !rd_wr_ne by lia. rewrite <- Hs, rd_slice by lia. done.
Qed.

Section Row.
Context (f : ctrl_frame) (dst src : list Z) (counter n ns : Z) (planar : planes).
Context (Hdst : zlen dst = 6) (Hsrc : zlen src = 6) (Hn : reac_box_width_ok n = true).
Context (Hlen : cf_len f = LEN_ARG_WIDTH ∨ cf_len f = LEN_MODEL_WIDTH ∧ cf_audio f = false).
Context (Hgate : ctrl_gate_ok (reac_box_catalogue_by_width n) (cf_gate f) = true).
Context (Hck : cf_cksum f ≠ CKSUM_RECORD).
Context (Hblk : zlen (row_block f (Some (reac_box_catalogue_by_width n))) = 32).

Lemma width_row_ok : reac_box_width_ok (m_in_ch (reac_box_catalogue_by_width n)) = true.
Proof.
  clear -Hn. unfold reac_box_catalogue_by_width, find_row.
  destruct (list_find _ _) as [[i m]|] eqn:E; [|done]. apply list_find_Some in E as (_ & Hm & _).
  apply andb_prop in Hm as [Hm _]. simpl. by replace (m_in_ch m) with n by lia.
Qed.

Lemma row_frame :
  ∃ frame, ctrl_emit f dst src counter n None planar ns = Some frame ∧ 50 ≤ zlen frame ∧
    slice frame 0 6 = dst ∧ slice frame 6 6 = src ∧ frame.[12] = 0x88 ∧ frame.[13] = 0x19 ∧
    frame.[16] = cf_type0 f ∧ frame.[17] = cf_type1 f ∧
    slice frame 18 32 = finished_block f (reac_box_catalogue_by_width n).
Proof using All.
  pose proof width_row_ok as Hmw. set (m := reac_box_catalogue_by_width n) in *.
  pose proof (proj1 (box_width_ok_iff n) Hn) as Hn'. pose proof (proj1 (box_width_ok_iff _) Hmw) as Hm'.
  unfold ctrl_emit, ctrl_emit_as. rewrite Hn, !andb_false_r. cbn [default]. fold m. rewrite Hgate. cbn [negb].
  set (len := emit_len f None n).
  assert (HL : 124 ≤ len ∧ (cf_audio f = true → len = 52 + 36 * n)).
  { subst len. unfold emit_len, reac_ctrl_box_frame_len, AUDIO_OFF, REAC_SAMPLES_PER_PKT, REAC_RESOLUTION.
    cbn [default]. fold m. destruct Hlen as [->|[-> ->]]; (split; [lia|]); [lia|done]. }
  set (hdr := put_hdr _ _ _ _ _ _).
  assert (Hh : zlen hdr = len) by (subst hdr; rewrite zlen_put_hdr, zlen_zeros; lia).
  unfold ctrl_lay_block. set (laid := blit hdr REAC_CTRL_BLOCK_OFF (row_block f (Some m))).
  assert (Hl : zlen laid = len) by (subst laid; zl).
  set (aud := if cf_audio f then _ else laid).
  assert (Ha : zlen aud = len) by (subst aud; destruct (cf_audio f); zl).
  assert (Hai : ∀ i, 0 ≤ i < 50 → aud.[i] = laid.[i]).
  { intros i Hi. subst aud. destruct (cf_audio f) eqn:Ea; [|done].
    unfold AUDIO_OFF. apply rd_braid_encode_out; lia. }
  assert (Hsl : slice aud 18 32 = row_block f (Some m)).
  { apply buf_ext; [rewrite zlen_slice, Hblk; lia|]. intros i Hi. rewrite zlen_slice in Hi.
    rewrite rd_slice, Hai by lia. subst laid. unfold REAC_CTRL_BLOCK_OFF.
    rewrite rd_blit_in by (rewrite ?Hblk; lia). f_equal. lia. }
  destruct (finish_block aud f _ Hck Hblk ltac:(lia) Hsl) as (F1 & F2 & F3).
  set (fin := ctrl_finish aud f) in *.
  eexists. split; [reflexivity|]. set (frame := wr (wr fin _ _) _ _).
  assert (Hfr : ∀ i, 0 ≤ i < 50 → frame.[i] = fin.[i]).
  { intros i Hi. subst frame. by rewrite !rd_wr_ne by lia. }
  assert (Hhd : ∀ i, 0 ≤ i < 18 → frame.[i] = hdr.[i]).
  { intros i Hi. rewrite Hfr, F2, Hai by lia. subst laid. unfold REAC_CTRL_BLOCK_OFF.
    by rewrite rd_blit_out by lia. }
  assert (Hz : zlen frame = len) by (subst frame; zl).
  split_and!; [lia| | | | | | |].
  - apply buf_ext; [rewrite zlen_slice; lia|]. intros i Hi. rewrite zlen_slice in Hi.
    rewrite rd_slice, Hhd by lia. subst hdr. unfold put_hdr, CNT_OFF, TYPE_OFF. rds. f_equal; lia.
  - apply buf_ext; [rewrite zlen_slice; lia|]. intros i Hi. rewrite zlen_slice in Hi.
    rewrite rd_slice, Hhd by lia. subst hdr. unfold put_hdr, CNT_OFF, TYPE_OFF. rds. f_equal; lia.
  - rewrite Hhd by lia. subst hdr. unfold put_hdr, CNT_OFF, TYPE_OFF. by rds.
  - rewrite Hhd by lia. subst hdr. unfold put_hdr, CNT_OFF, TYPE_OFF. by rds.
  - rewrite Hhd by lia. subst hdr. unfold put_hdr, CNT_OFF, TYPE_OFF. by rds.
  - rewrite Hhd by lia. subst hdr. unfold put_hdr, CNT_OFF, TYPE_OFF. by rds.
  - unfold finished_block. rewrite <- F3. apply slice_ext; [lia|lia|]. intros i Hi. apply Hfr. lia.
Qed.
End Row.

(** ** What a block means, whoever sends it *)

(** A bare control frame: the type word and the block, from nobody to nobody. *)
Definition bare (t0 t1 : Z) (blk : list Z) : list Z := zeros 12 ++ [0x88; 0x19; 0; 0; t0; t1] ++ blk.

(** The event of a frame addressed to the master ([bcast] false) or to everyone. *)
Definition block_event (bcast : bool) (t0 t1 : Z) (blk : list Z) : option reac_master_rx_event :=
  snd (reac_ctrl_classify_box_frame
         (blit (blit (bare t0 t1 blk) 0 (if bcast then fill 6 0xff else fill 6 1)) 6 [0; 0x40; 0xab; 0; 0; 0])
         50 (fill 6 1)).

(** The classifier reads the block through the parse and the checksum alone. *)
Lemma parse_agree f g :
  50 ≤ zlen f → 50 ≤ zlen g → (∀ i, 12 ≤ i < 50 → i ≠ 14 → i ≠ 15 → f.[i] = g.[i]) →
  let p := reac_ctrl_parse f (zlen f) in let q := reac_ctrl_parse g (zlen g) in
  p_kind p = p_kind q ∧ p_seg p = p_seg q ∧ p_opcode p = p_opcode q ∧ p_dt1_tag p = p_dt1_tag q ∧
  reac_ctrl_checksum_verify f = reac_ctrl_checksum_verify g.
Proof.
  intros Hf Hg He. cbv zeta.
  assert (Hv : reac_ctrl_checksum_verify f = reac_ctrl_checksum_verify g).
  { unfold reac_ctrl_checksum_verify, REAC_CTRL_BLOCK_OFF, REAC_CTRL_BLOCK_LEN.
    unfold REAC_CTRL_BLOCK_END. 
    replace (slice f 18 (50 - 18)) with (slice g 18 (50 - 18)); [done|].
    apply buf_ext; [zl|]. intros i Hi. rewrite zlen_slice in Hi. rewrite !rd_slice by lia.
    symmetry. apply He; lia. }
  unfold reac_ctrl_parse, AUDIO_OFF, TYPE_OFF, REAC_CTRL_BLOCK_OFF.
  replace (zlen f <? 50) with false by lia. replace (zlen g <? 50) with false by lia. simpl.
  repeat match goal with |- context [f.[?i]] => rewrite (He i) by lia end.
  repeat (case_match; cbn [p_kind p_seg p_opcode p_dt1_tag parsed_zero]; try by split_and!).
Qed.

Lemma parse_addr f :
  50 ≤ zlen f → f.[12] = 0x88 → f.[13] = 0x19 →
  let p := reac_ctrl_parse f (zlen f) in
  p_src p = slice f 6 6 ∧ p_dst p = slice f 0 6 ∧ p_is_broadcast p = zeqb (slice f 0 6) (fill 6 0xff).
Proof.
  intros Hf E12 E13. cbv zeta. unfold reac_ctrl_parse, AUDIO_OFF. rewrite E12, E13.
  replace (zlen f <? 50) with false by lia. cbn [orb negb Z.eqb Pos.eqb].
  repeat (case_match; cbn [p_src p_dst p_is_broadcast]; try by split_and!).
Qed.

Section Heard.
Context (frame dst src master blk : list Z) (bcast : bool) (t0 t1 : Z).
Context (Hl : 50 ≤ zlen frame) (Hb : zlen blk = 32).
Context (Hdst : slice frame 0 6 = dst) (Hsrc : slice frame 6 6 = src).
Context (H12 : frame.[12] = 0x88) (H13 : frame.[13] = 0x19) (H16 : frame.[16] = t0) (H17 : frame.[17] = t1).
Context (Hblk : slice frame 18 32 = blk).
Context (Hoff : slice src 0 3 = [0; 0x40; 0xab]) (Hne : src ≠ master) (Hmb : master ≠ fill 6 0xff).
Context (Hto : dst = if bcast then fill 6 0xff else master).

Let ours : list Z :=
  blit (blit (bare t0 t1 blk) 0 (if bcast then fill 6 0xff else fill 6 1)) 6 [0; 0x40; 0xab; 0; 0; 0].

Lemma ours_zlen : zlen ours = 50.
Proof using All. subst ours. unfold bare. rewrite !zlen_blit, !zlen_app, zlen_zeros. unfold zlen in *. simpl. lia. Qed.

Lemma ours_agree i : 12 ≤ i < 50 → i ≠ 14 → i ≠ 15 → frame.[i] = ours.[i].
Proof using All.
  intros Hi H14 H15. pose proof ours_zlen as Ho. subst ours.
  rewrite rd_blit_out, rd_blit_out by (destruct bcast; unfold zlen; simpl; lia). unfold bare.
  rewrite rd_app_r by (rewrite zlen_zeros; lia). rewrite zlen_zeros by lia.
  destruct (decide (i < 18)) as [Hlt|Hge].
  - assert (i = 12 ∨ i = 13 ∨ i = 16 ∨ i = 17) as [->|[->|[->| ->]]] by lia; done.
  - rewrite rd_app_r by (unfold zlen; simpl; lia). rewrite <- Hblk, rd_slice by (unfold zlen; simpl; lia).
    f_equal. unfold zlen. simpl. lia.
Qed.

(** A frame of a Roland box is heard for its type word and block alone. *)
Lemma heard_event : snd (reac_ctrl_classify_box_frame frame (zlen frame) master) = block_event bcast t0 t1 blk.
Proof using All.
  destruct (parse_agree frame ours Hl ltac:(rewrite ours_zlen; lia) ours_agree) as (Ek & Es & Eo & Et & Ev).
  destruct (parse_addr frame Hl H12 H13) as (A1 & A2 & A3).
  destruct (parse_addr ours) as (B1 & B2 & B3);
    [rewrite ours_zlen; lia|rewrite <- ours_agree; done|rewrite <- ours_agree; done|].
  unfold block_event. fold ours. rewrite <- ours_zlen.
  unfold reac_ctrl_classify_box_frame. rewrite Ek, Es, Eo, Et, Ev, A1, A2, A3, B1, B2, B3.
  assert (O1 : slice ours 6 6 = [0; 0x40; 0xab; 0; 0; 0]) by (subst ours; by destruct bcast).
  assert (O2 : slice ours 0 6 = if bcast then fill 6 0xff else fill 6 1) by (subst ours; by destruct bcast).
  assert (S : ∀ i, 0 ≤ i < 3 → src.[i] = [0; 0x40; 0xab].[i]) by (intros i Hi; by rewrite <- Hoff, rd_slice by lia).
  rewrite Hsrc, Hdst, O1, O2, !S by lia. unfold zeqb. rewrite (bool_decide_eq_false_2 (src = master)) by done.
  replace (bool_decide (dst = fill 6 0xff)) with bcast; [replace (bool_decide (dst = master)) with (negb bcast)|].
  - destruct bcast; repeat (case_match; try done).
  - symmetry. destruct bcast; [apply bool_decide_eq_false_2|apply bool_decide_eq_true_2]; congruence.
  - symmetry. destruct bcast; [apply bool_decide_eq_true_2|apply bool_decide_eq_false_2]; congruence.
Qed.
End Heard.

(** ** The handshake closes *)

Lemma by_width_in n : reac_box_catalogue_by_width n ∈ BOX_CATALOGUE.
Proof.
  unfold reac_box_catalogue_by_width, find_row. destruct (list_find _ _) as [[i m]|] eqn:E; [|by left].
  apply list_find_Some in E as (E & _). by eapply list_elem_of_lookup_2.
Qed.

#[export] Instance rx_event_eq_dec : EqDecision reac_master_rx_event.
Proof. solve_decision. Defined.

(** The event a row means to the master it is sent to, for every model of the catalogue. *)
Definition row_means (id : ctrl_frame_id) (bcast : bool) (ev : option reac_master_rx_event) : bool :=
  let f := CTRL_FRAMES id in
  forallb (λ m, negb (ctrl_gate_ok m (cf_gate f))
      || ((zlen (row_block f (Some m)) =? 32)
          && bool_decide (block_event bcast (cf_type0 f) (cf_type1 f) (finished_block f m) = ev)))
    BOX_CATALOGUE.

Definition understood (master : list Z) (ev : option reac_master_rx_event) (frame : list Z) : Prop :=
  snd (reac_ctrl_classify_box_frame frame (zlen frame) master) = ev.

Lemma row_heard id bcast ev dst src master counter n ns (planar : planes) :
  row_means id bcast ev = true →
  let f := CTRL_FRAMES id in
  cf_len f = LEN_ARG_WIDTH ∨ cf_len f = LEN_MODEL_WIDTH ∧ cf_audio f = false →
  cf_cksum f ≠ CKSUM_RECORD → ctrl_gate_ok (reac_box_catalogue_by_width n) (cf_gate f) = true →
  zlen dst = 6 → zlen src = 6 → reac_box_width_ok n = true →
  slice src 0 3 = [0; 0x40; 0xab] → src ≠ master → master ≠ fill 6 0xff →
  dst = (if bcast then fill 6 0xff else master) →
  ∃ frame, ctrl_emit f dst src counter n None planar ns = Some frame ∧ understood master ev frame.
Proof.
  intros Hm f Hl Hc Hg Hd Hs Hn Ho Hne Hmb Hto.
  unfold row_means in Hm. rewrite forallb_forall in Hm.
  specialize (Hm _ (proj1 (list_elem_of_In _ _) (by_width_in n))). cbv beta zeta in Hm. fold f in Hm.
  rewrite Hg in Hm. apply andb_prop in Hm as [Hb He]. apply bool_decide_eq_true in He.
  apply Z.eqb_eq in Hb.
  destruct (row_frame f dst src counter n ns planar Hd Hs Hn Hl Hg Hc Hb)
    as (frame & E & F1 & F2 & F3 & F4 & F5 & F6 & F7 & F8).
  exists frame. split; [done|]. unfold understood. rewrite <- He.
  eapply heard_event; try done. by rewrite zlen_finished.
Qed.

Lemma rows_mean :
  row_means CTRL_BOX_HB false (Some REAC_M_RX_BOX_HEARTBEAT) = true ∧
  row_means CTRL_UPSTREAM_FILLER false (Some REAC_M_RX_BOX_UNICAST) = true ∧
  row_means CTRL_FLOOD_FILLER true (Some REAC_M_RX_BOX_BCAST_FILLER) = true ∧
  row_means CTRL_CONFIG_ANNOUNCE false (Some REAC_M_RX_BOX_CONFIG) = true ∧
  row_means CTRL_COLDCONNECT false (Some REAC_M_RX_BOX_JOIN) = true ∧
  row_means CTRL_COLDCONNECT_0013 false (Some REAC_M_RX_BOX_JOIN) = true ∧
  row_means CTRL_COLDCONNECT_0016 false None = true ∧
  row_means CTRL_COLDCONNECT_001A false None = true ∧
  row_means CTRL_IDENT_FIRST false (Some REAC_M_RX_BOX_UNICAST) = true ∧
  row_means CTRL_IDENT_LAST false (Some REAC_M_RX_BOX_UNICAST) = true.
Proof. vm_compute. by split_and!. Qed.

(** C9. The box side and the master side of the handshake agree frame by frame.
    Whatever Roland box [src] sends to the master that hears it: the flood
    filler is a broadcast filler, the three steps of the join burst are a join,
    a join and a heartbeat (and there is no fourth), the declaration is a
    configuration and the upstream filler plain unicast traffic, for every legal
    width, counter and audio. The firmware and version replies raise no event,
    and where the width's model has an identity its two name fragments are
    unicast traffic, so no frame of the box is mistaken for a farewell. *)
Theorem box_frames_understood (master src : list Z) (counter n : Z) (planar : planes) (ns : Z) :
  zlen master = 6 → zlen src = 6 → slice src 0 3 = [0; 0x40; 0xab] → src ≠ master →
  master ≠ fill 6 0xff → reac_box_width_ok n = true →
  let hears ev r := ∃ frame, r = Some frame ∧ understood master ev frame in
  hears (Some REAC_M_RX_BOX_BCAST_FILLER) (reac_ctrl_build_flood_filler (fill 6 0xff) src counter n planar ns) ∧
  hears (Some REAC_M_RX_BOX_JOIN) (reac_link_slave_burst 0 master src counter n planar ns) ∧
  hears (Some REAC_M_RX_BOX_JOIN) (reac_link_slave_burst 1 master src counter n planar ns) ∧
  hears (Some REAC_M_RX_BOX_HEARTBEAT) (reac_link_slave_burst 2 master src counter n planar ns) ∧
  (∀ k, 3 ≤ k → reac_link_slave_burst k master src counter n planar ns = None) ∧
  hears (Some REAC_M_RX_BOX_CONFIG) (reac_ctrl_build_config_announce master src counter n) ∧
  hears (Some REAC_M_RX_BOX_UNICAST) (reac_ctrl_build_upstream_filler master src counter n planar ns) ∧
  hears None (reac_ctrl_build_coldconnect_0016 master src counter n planar ns) ∧
  hears None (reac_ctrl_build_coldconnect_001a master src counter n planar ns) ∧
  (ctrl_gate_ok (reac_box_catalogue_by_width n) GATE_HAS_IDENTITY = true →
   hears (Some REAC_M_RX_BOX_UNICAST) (reac_ctrl_build_identity_first master src counter n) ∧
   hears (Some REAC_M_RX_BOX_UNICAST) (reac_ctrl_build_identity_last master src counter n)).
Proof.
  intros Hm Hs Ho Hne Hmb Hn hears. destruct rows_mean as (R1&R2&R3&R4&R5&R6&R7&R8&R9&R10).
  split_and!.
  all: try (intros k Hk; unfold reac_link_slave_burst; by rewrite !(proj2 (Z.eqb_neq k _)) by lia).
  - apply (row_heard _ _ _ _ _ _ _ _ _ _ R3); [by left|discriminate|reflexivity|done..].
  - apply (row_heard _ _ _ _ _ _ _ _ _ _ R5); [by left|discriminate|reflexivity|done..].
  - apply (row_heard _ _ _ _ _ _ _ _ _ _ R6); [by left|discriminate|reflexivity|done..].
  - apply (row_heard _ _ _ _ _ _ _ _ _ _ R1); [by left|discriminate|reflexivity|done..].
  - apply (row_heard _ _ _ _ _ _ _ _ _ _ R4); [right; split; reflexivity|discriminate|reflexivity|done..].
  - apply (row_heard _ _ _ _ _ _ _ _ _ _ R2); [by left|discriminate|reflexivity|done..].
  - apply (row_heard _ _ _ _ _ _ _ _ _ _ R7); [by left|discriminate|reflexivity|done..].
  - apply (row_heard _ _ _ _ _ _ _ _ _ _ R8); [by left|discriminate|reflexivity|done..].
  - intros Hg. split.
    + apply (row_heard _ _ _ _ _ _ _ _ _ _ R9); [right; split; reflexivity|discriminate|exact Hg|done..].
    + apply (row_heard _ _ _ _ _ _ _ _ _ _ R10); [right; split; reflexivity|discriminate|exact Hg|done..].
Qed.

Lemma box_frames_understood_witness :
  ∃ frame, reac_ctrl_build_identity_first [0x00; 0x40; 0xab; 0xc4; 0x00; 0x01] [0x00; 0x40; 0xab; 0xc4; 0x80; 0xf6] 7 8
           = Some frame ∧
    understood [0x00; 0x40; 0xab; 0xc4; 0x00; 0x01] (Some REAC_M_RX_BOX_UNICAST) frame.
Proof.
  destruct (box_frames_understood [0x00; 0x40; 0xab; 0xc4; 0x00; 0x01] [0x00; 0x40; 0xab; 0xc4; 0x80; 0xf6] 7 8 [] 0)
    as (_ & _ & _ & _ & _ & _ & _ & _ & _ & H); try reflexivity; try discriminate.
  destruct H as [H _]; [vm_compute; reflexivity|exact H].
Defined.
