(* ===== verification/HeadampTx.v ===== *)
(** * HeadampTx: what the master says about the preamps

    Models [src/reac_headamp_tx.c]: the operator's cell table, the edge sender,
    the stride-paced scene replay and the periodic re-assert. A C matrix
    [x[48][3]] is the row-major list of its 144 cells. A call of
    [reac_headamp_tx_next] is a state transition whose output is the record it
    hands out, [None] for a return of 0. *)

From stdpp Require Import gmap.
From S2P Require Import Prelude CtrlBlk CtrlFrames.
Local Open Scope Z_scope.

Definition REAC_HEADAMP_SWEEP_STRIDE : Z := 12.
Definition REAC_HEADAMP_NCELLS : Z := REAC_HEADAMP_MAX_CH * REAC_HEADAMP_NPARAMS.

#[projections(primitive)]
Record reac_headamp_tx := HeadampTx {
  t_value : list Z;
  t_set : list Z;
  t_dirty : list Z;
  t_active : bool;
  t_replay_base : Z;
  t_replay_width : Z;
  t_replay_idx : Z;
  t_replay_wait : Z;
  t_replay_set_only : bool;
  t_scene_base : Z;
  t_scene_width : Z;
  t_resweep_period : Z;
  t_resweep_wait : Z
}.

Definition set_t_value (v : list Z) (r : reac_headamp_tx) : reac_headamp_tx :=
  HeadampTx v (t_set r) (t_dirty r) (t_active r) (t_replay_base r) (t_replay_width r)
    (t_replay_idx r) (t_replay_wait r) (t_replay_set_only r) (t_scene_base r)
    (t_scene_width r) (t_resweep_period r) (t_resweep_wait r).
Definition set_t_set (v : list Z) (r : reac_headamp_tx) : reac_headamp_tx :=
  HeadampTx (t_value r) v (t_dirty r) (t_active r) (t_replay_base r) (t_replay_width r)
    (t_replay_idx r) (t_replay_wait r) (t_replay_set_only r) (t_scene_base r)
    (t_scene_width r) (t_resweep_period r) (t_resweep_wait r).
Definition set_t_dirty (v : list Z) (r : reac_headamp_tx) : reac_headamp_tx :=
  HeadampTx (t_value r) (t_set r) v (t_active r) (t_replay_base r) (t_replay_width r)
    (t_replay_idx r) (t_replay_wait r) (t_replay_set_only r) (t_scene_base r)
    (t_scene_width r) (t_resweep_period r) (t_resweep_wait r).
Definition set_t_active (v : bool) (r : reac_headamp_tx) : reac_headamp_tx :=
  HeadampTx (t_value r) (t_set r) (t_dirty r) v (t_replay_base r) (t_replay_width r)
    (t_replay_idx r) (t_replay_wait r) (t_replay_set_only r) (t_scene_base r)
    (t_scene_width r) (t_resweep_period r) (t_resweep_wait r).
Definition set_t_replay_base (v : Z) (r : reac_headamp_tx) : reac_headamp_tx :=
  HeadampTx (t_value r) (t_set r) (t_dirty r) (t_active r) v (t_replay_width r)
    (t_replay_idx r) (t_replay_wait r) (t_replay_set_only r) (t_scene_base r)
    (t_scene_width r) (t_resweep_period r) (t_resweep_wait r).
Definition set_t_replay_width (v : Z) (r : reac_headamp_tx) : reac_headamp_tx :=
  HeadampTx (t_value r) (t_set r) (t_dirty r) (t_active r) (t_replay_base r) v
    (t_replay_idx r) (t_replay_wait r) (t_replay_set_only r) (t_scene_base r)
    (t_scene_width r) (t_resweep_period r) (t_resweep_wait r).
Definition set_t_replay_idx (v : Z) (r : reac_headamp_tx) : reac_headamp_tx :=
  HeadampTx (t_value r) (t_set r) (t_dirty r) (t_active r) (t_replay_base r)
    (t_replay_width r) v (t_replay_wait r) (t_replay_set_only r) (t_scene_base r)
    (t_scene_width r) (t_resweep_period r) (t_resweep_wait r).
Definition set_t_replay_wait (v : Z) (r : reac_headamp_tx) : reac_headamp_tx :=
  HeadampTx (t_value r) (t_set r) (t_dirty r) (t_active r) (t_replay_base r)
    (t_replay_width r) (t_replay_idx r) v (t_replay_set_only r) (t_scene_base r)
    (t_scene_width r) (t_resweep_period r) (t_resweep_wait r).
Definition set_t_replay_set_only (v : bool) (r : reac_headamp_tx) : reac_headamp_tx :=
  HeadampTx (t_value r) (t_set r) (t_dirty r) (t_active r) (t_replay_base r)
    (t_replay_width r) (t_replay_idx r) (t_replay_wait r) v (t_scene_base r)
    (t_scene_width r) (t_resweep_period r) (t_resweep_wait r).
Definition set_t_scene_base (v : Z) (r : reac_headamp_tx) : reac_headamp_tx :=
  HeadampTx (t_value r) (t_set r) (t_dirty r) (t_active r) (t_replay_base r)
    (t_replay_width r) (t_replay_idx r) (t_replay_wait r) (t_replay_set_only r) v
    (t_scene_width r) (t_resweep_period r) (t_resweep_wait r).
Definition set_t_scene_width (v : Z) (r : reac_headamp_tx) : reac_headamp_tx :=
  HeadampTx (t_value r) (t_set r) (t_dirty r) (t_active r) (t_replay_base r)
    (t_replay_width r) (t_replay_idx r) (t_replay_wait r) (t_replay_set_only r)
    (t_scene_base r) v (t_resweep_period r) (t_resweep_wait r).
Definition set_t_resweep_period (v : Z) (r : reac_headamp_tx) : reac_headamp_tx :=
  HeadampTx (t_value r) (t_set r) (t_dirty r) (t_active r) (t_replay_base r)
    (t_replay_width r) (t_replay_idx r) (t_replay_wait r) (t_replay_set_only r)
    (t_scene_base r) (t_scene_width r) v (t_resweep_wait r).
Definition set_t_resweep_wait (v : Z) (r : reac_headamp_tx) : reac_headamp_tx :=
  HeadampTx (t_value r) (t_set r) (t_dirty r) (t_active r) (t_replay_base r)
    (t_replay_width r) (t_replay_idx r) (t_replay_wait r) (t_replay_set_only r)
    (t_scene_base r) (t_scene_width r) (t_resweep_period r) v.

(** The row-major place of a cell. *)
Definition cell (ch param : Z) : Z := ch * REAC_HEADAMP_NPARAMS + param.

Definition reac_headamp_tx_init : reac_headamp_tx :=
  HeadampTx (zeros REAC_HEADAMP_NCELLS) (zeros REAC_HEADAMP_NCELLS) (zeros REAC_HEADAMP_NCELLS)
    false 0 0 0 0 false 0 0 0 0.

Definition param_value_ok (param value : Z) : bool :=
  if (param =? REAC_HEADAMP_PHANTOM) || (param =? REAC_HEADAMP_PAD) then value <=? 0x01
  else if param =? REAC_HEADAMP_SENS then value <=? REAC_HEADAMP_SENS_MAX
  else false.

Definition reac_headamp_tx_set (t : reac_headamp_tx) (ch param value : Z)
    : reac_headamp_tx * Z :=
  if (REAC_HEADAMP_MAX_CH <=? ch) || negb (param_value_ok param value) then (t, -1)
  else
    let t := set_t_value (wr (t_value t) (cell ch param) value) t in
    let t := set_t_set (wr (t_set t) (cell ch param) 1) t in
    let t := set_t_dirty (wr (t_dirty t) (cell ch param) 1) t in
    (set_t_active true t, 0).

Definition REAC_HEADAMP_DEFAULT_PHANTOM : Z := 0x00.
Definition REAC_HEADAMP_DEFAULT_PAD : Z := 0x00.
Definition REAC_HEADAMP_DEFAULT_SENS : Z := 0x20.

Definition reac_headamp_default (param : Z) : Z :=
  if param =? REAC_HEADAMP_PHANTOM then REAC_HEADAMP_DEFAULT_PHANTOM
  else if param =? REAC_HEADAMP_PAD then REAC_HEADAMP_DEFAULT_PAD
  else if param =? REAC_HEADAMP_SENS then REAC_HEADAMP_DEFAULT_SENS
  else 0.

(** [None] is the NULL table. *)
Definition reac_headamp_tx_effective (t : option reac_headamp_tx) (ch param : Z) : Z :=
  if REAC_HEADAMP_NPARAMS <=? param then 0
  else match t with
       | Some t =>
           if (ch <? REAC_HEADAMP_MAX_CH) && negb ((t_set t).[cell ch param] =? 0)
           then (t_value t).[cell ch param]
           else reac_headamp_default param
       | None => reac_headamp_default param
       end.

Definition reac_headamp_tx_arm_scene (t : reac_headamp_tx) (base width : Z) : reac_headamp_tx :=
  if (width =? 0) || (REAC_HEADAMP_MAX_CH <=? base) then t
  else
    let width := if REAC_HEADAMP_MAX_CH <? base + width then u8 (REAC_HEADAMP_MAX_CH - base)
                 else width in
    let t := set_t_replay_base base t in
    let t := set_t_replay_width width t in
    let t := set_t_replay_idx 0 t in
    let t := set_t_replay_wait 0 t in
    let t := set_t_replay_set_only false t in
    let t := set_t_scene_base base t in
    let t := set_t_scene_width width t in
    set_t_resweep_wait 0 t.

Definition reac_headamp_tx_set_resweep (t : reac_headamp_tx) (frames : Z) : reac_headamp_tx :=
  set_t_resweep_wait 0 (set_t_resweep_period frames t).

(** A record: channel, parameter, value. *)
Definition record : Type := Z * Z * Z.

(** The first dirty cell, in table order. *)
Definition first_dirty (t : reac_headamp_tx) : option Z :=
  snd <$> list_find (λ idx, (t_dirty t).[idx] ≠ 0) (zseq 0 REAC_HEADAMP_NCELLS).

(** The [while] loop of the replay: the cursor past the next cell this replay
    carries, with that cell, or [None] when the cursor ran off the end. *)
Fixpoint replay_scan (fuel : nat) (t : reac_headamp_tx) (idx : Z) : option (Z * Z * Z) :=
  let total := t_replay_width t * REAC_HEADAMP_NPARAMS in
  match fuel with
  | O => None
  | S fuel =>
      if negb (idx <? total) then None
      else
        let c := t_replay_base t + idx / REAC_HEADAMP_NPARAMS in
        let p := idx mod REAC_HEADAMP_NPARAMS in
        if t_replay_set_only t
           && negb ((c <? REAC_HEADAMP_MAX_CH) && negb ((t_set t).[cell c p] =? 0))
        then replay_scan fuel t (idx + 1)
        else Some (idx + 1, c, p)
  end.

(** The re-assert timer at the foot of [reac_headamp_tx_next]. *)
Definition resweep_tick (t : reac_headamp_tx) : reac_headamp_tx :=
  if negb (t_resweep_period t =? 0) && negb (t_scene_width t =? 0) then
    let t := set_t_resweep_wait (u32 (t_resweep_wait t + 1)) t in
    if t_resweep_period t <=? t_resweep_wait t then
      let t := set_t_resweep_wait 0 t in
      let t := set_t_replay_base (t_scene_base t) t in
      let t := set_t_replay_width (t_scene_width t) t in
      let t := set_t_replay_idx 0 t in
      let t := set_t_replay_wait 0 t in
      set_t_replay_set_only true t
    else t
  else t.

Definition reac_headamp_tx_next (t : reac_headamp_tx) : reac_headamp_tx * option record :=
  if negb (t_active t) && (t_replay_width t =? 0) then (t, None)
  else
    match first_dirty t with
    | Some idx =>
        let c := idx / REAC_HEADAMP_NPARAMS in
        let p := idx mod REAC_HEADAMP_NPARAMS in
        let t := set_t_dirty (wr (t_dirty t) (cell c p) 0) t in
        (set_t_resweep_wait 0 t, Some (u8 c, u8 p, (t_value t).[cell c p]))
    | None =>
        if t_replay_width t =? 0 then (resweep_tick t, None)
        else if 0 <? t_replay_wait t then (set_t_replay_wait (t_replay_wait t - 1) t, None)
        else
          let total := t_replay_width t * REAC_HEADAMP_NPARAMS in
          match replay_scan (Z.to_nat (total - t_replay_idx t)) t (t_replay_idx t) with
          | Some (idx, c, p) =>
              let t := set_t_replay_idx idx t in
              let value := reac_headamp_tx_effective (Some t) (u8 c) (u8 p) in
              let t := if total <=? idx then set_t_replay_width 0 t
                       else set_t_replay_wait (REAC_HEADAMP_SWEEP_STRIDE - 1) t in
              (set_t_resweep_wait 0 t, Some (u8 c, u8 p, value))
          | None =>
              let t := set_t_replay_idx (Z.max (t_replay_idx t) total) t in
              (resweep_tick (set_t_replay_width 0 t), None)
          end
    end.

(** [n] consecutive calls, with what each handed out. *)
Fixpoint tx_run (n : nat) (t : reac_headamp_tx) : reac_headamp_tx * list (option record) :=
  match n with
  | O => (t, [])
  | S n => let '(t, r) := reac_headamp_tx_next t in
           let '(t, rs) := tx_run n t in (t, r :: rs)
  end.

(** * Properties *)

Arguments resweep_tick : simpl never.
Arguments reac_headamp_tx_effective : simpl never.

(** ** The operator's intent

    The abstract table: the last value accepted for each cell. *)
Abbreviation intent := (gmap (Z * Z) Z).

Definition scene_value (I : intent) (ch param : Z) : Z :=
  default (reac_headamp_default param) (I !! (ch, param)).

(** Everything a caller can do to the table. *)
Inductive tx_op :=
| OpSet (ch param value : Z)
| OpArm (base width : Z)
| OpResweep (frames : Z)
| OpNext.

(** Arguments in the range of their C types. *)
Definition tx_op_typed (o : tx_op) : Prop :=
  match o with
  | OpSet ch param value => is_byte ch ∧ is_byte param ∧ is_byte value
  | OpArm base width => is_byte base ∧ is_byte width
  | OpResweep frames => 0 ≤ frames < 2 ^ 32
  | OpNext => True
  end.

Definition tx_step (t : reac_headamp_tx) (o : tx_op) : reac_headamp_tx * option record :=
  match o with
  | OpSet ch param value => ((reac_headamp_tx_set t ch param value).1, None)
  | OpArm base width => (reac_headamp_tx_arm_scene t base width, None)
  | OpResweep frames => (reac_headamp_tx_set_resweep t frames, None)
  | OpNext => reac_headamp_tx_next t
  end.

Definition intent_step (I : intent) (o : tx_op) : intent :=
  match o with
  | OpSet ch param value =>
      if (ch <? REAC_HEADAMP_MAX_CH) && param_value_ok param value
      then <[(ch, param) := value]> I else I
  | _ => I
  end.

(** What a run puts on the wire, each record with the intent at that moment. *)
Fixpoint tx_trace (t : reac_headamp_tx) (I : intent) (ops : list tx_op)
    : list (intent * record) :=
  match ops with
  | [] => []
  | o :: ops =>
      let '(t', r) := tx_step t o in
      from_option (λ r, [(I, r)]) [] r ++ tx_trace t' (intent_step I o) ops
  end.

(** The refinement relation: the table holds exactly the intent, only set cells
    are dirty, and both cursors stay inside the 48 channels. *)
Definition cursor_ok (base width : Z) : Prop := 0 ≤ base ∧ 0 ≤ width ∧ base + width ≤ 48.
Definition cell_ok (t : reac_headamp_tx) (I : intent) (c p : Z) : Prop :=
  match I !! (c, p) with
  | Some v => (t_set t).[cell c p] ≠ 0 ∧ (t_value t).[cell c p] = v ∧
              param_value_ok p v = true ∧ is_byte v
  | None => (t_set t).[cell c p] = 0 ∧ (t_dirty t).[cell c p] = 0
  end.
Record tx_refines (t : reac_headamp_tx) (I : intent) : Prop := {
  rf_len : zlen (t_value t) = 144 ∧ zlen (t_set t) = 144 ∧ zlen (t_dirty t) = 144;
  rf_cell : ∀ c p, 0 ≤ c < 48 → 0 ≤ p < 3 → cell_ok t I c p;
  rf_active : t_active t = false → ∀ i, (t_dirty t).[i] = 0;
  rf_replay : cursor_ok (t_replay_base t) (t_replay_width t) ∧ 0 ≤ t_replay_idx t;
  rf_scene : cursor_ok (t_scene_base t) (t_scene_width t)
}.

Lemma cell_inj c p c' p' : 0 ≤ p < 3 → 0 ≤ p' < 3 → cell c p = cell c' p' → c = c' ∧ p = p'.
Proof. unfold cell, REAC_HEADAMP_NPARAMS. lia. Qed.

Lemma cell_divmod i : cell (i / 3) (i mod 3) = i.
Proof. unfold cell, REAC_HEADAMP_NPARAMS. lia. Qed.

Lemma param_value_ok_range p v : 0 ≤ p → param_value_ok p v = true → p < 3.
Proof.
  unfold param_value_ok, REAC_HEADAMP_PHANTOM, REAC_HEADAMP_PAD, REAC_HEADAMP_SENS.
  intros Hp H. destruct ((p =? 0) || (p =? 1)) eqn:E; [lia|]. destruct (p =? 2) eqn:E2; [lia|done].
Qed.

Lemma tx_refines_init : tx_refines reac_headamp_tx_init ∅.
Proof.
  split; simpl; [done| |intros; apply rd_zeros|unfold cursor_ok; simpl; lia|unfold cursor_ok; simpl; lia].
  intros c p _ _. unfold cell_ok. rewrite lookup_empty. split; apply rd_zeros.
Qed.

Lemma tx_refines_set t I ch param value :
  is_byte ch → is_byte param → is_byte value → tx_refines t I →
  tx_refines (reac_headamp_tx_set t ch param value).1 (intent_step I (OpSet ch param value)).
Proof.
  intros Hc Hp Hv [Hl Hcell Hact Hr Hs]. unfold reac_headamp_tx_set, intent_step, REAC_HEADAMP_MAX_CH.
  unfold is_byte in *.
  destruct (48 <=? ch) eqn:E; [replace (ch <? 48) with false by lia; by split|].
  replace (ch <? 48) with true by lia. simpl.
  destruct (param_value_ok param value) eqn:Ok; simpl; [|by split].
  pose proof (param_value_ok_range param value ltac:(lia) Ok) as Hp3.
  destruct Hl as (? & ? & ?).
  assert (Hin : 0 ≤ cell ch param < 144) by (unfold cell, REAC_HEADAMP_NPARAMS; lia).
  split; simpl; [zl; done| |done|done|done].
  intros c p Hc' Hp'. unfold cell_ok; simpl.
  destruct (decide (c = ch ∧ p = param)) as [[-> ->]|Hne].
  - rewrite lookup_insert_eq. rewrite !rd_wr_eq by lia. done.
  - rewrite lookup_insert_ne by (intros [= -> ->]; by apply Hne).
    assert (cell c p ≠ cell ch param) by (intros E2; apply Hne, cell_inj; [lia|lia|done]).
    rewrite !rd_wr_ne by (unfold cell, REAC_HEADAMP_NPARAMS in *; lia). by apply Hcell.
Qed.

(** A state that differs only in its cursors and timers refines the same intent. *)
Lemma tx_refines_frame t t' I :
  tx_refines t I →
  t_value t' = t_value t → t_set t' = t_set t → t_dirty t' = t_dirty t →
  t_active t' = t_active t →
  cursor_ok (t_replay_base t') (t_replay_width t') → 0 ≤ t_replay_idx t' →
  cursor_ok (t_scene_base t') (t_scene_width t') → tx_refines t' I.
Proof.
  intros [Hl Hcell Hact Hr Hs] Ev Es Ed Ea ???.
  split; rewrite ?Ev, ?Es, ?Ed, ?Ea; try done.
  intros c p Hc Hp. unfold cell_ok. rewrite Ev, Es, Ed. by apply Hcell.
Qed.

Lemma tx_refines_arm t I base width :
  is_byte base → is_byte width → tx_refines t I →
  tx_refines (reac_headamp_tx_arm_scene t base width) I.
Proof.
  intros Hb Hw H. unfold reac_headamp_tx_arm_scene, REAC_HEADAMP_MAX_CH. unfold is_byte in *.
  destruct ((width =? 0) || (48 <=? base)) eqn:E; [done|].
  assert (cursor_ok base (if 48 <? base + width then u8 (48 - base) else width)).
  { unfold cursor_ok, u8. destruct (48 <? base + width) eqn:?; lia. }
  apply (tx_refines_frame t); simpl; (done || lia).
Qed.

Lemma tx_refines_tick t I : tx_refines t I → tx_refines (resweep_tick t) I.
Proof.
  intros H. destruct H as [? ? ? [? ?] ?] eqn:E. unfold resweep_tick.
  destruct (negb _ && _); [|done]. simpl.
  destruct (t_resweep_period t <=? _); apply (tx_refines_frame t); simpl; (done || lia).
Qed.

Lemma effective_scene t I c p :
  tx_refines t I → 0 ≤ c < 48 → 0 ≤ p < 3 →
  reac_headamp_tx_effective (Some t) c p = scene_value I c p ∧
  param_value_ok p (scene_value I c p) = true ∧ 0 ≤ scene_value I c p.
Proof.
  intros H Hc Hp. pose proof (rf_cell t I H c p Hc Hp) as Hcell. unfold cell_ok in Hcell.
  unfold reac_headamp_tx_effective, scene_value, REAC_HEADAMP_NPARAMS, REAC_HEADAMP_MAX_CH.
  replace (3 <=? p) with false by lia. replace (c <? 48) with true by lia. simpl.
  destruct (I !! (c, p)) as [v|]; simpl in *.
  - destruct Hcell as (Hs & -> & Hok & [? _]).
    replace ((t_set t).[cell c p] =? 0) with false by lia. done.
  - destruct Hcell as [-> _]. split; [done|].
    assert (p = 0 ∨ p = 1 ∨ p = 2) as [-> | [-> | ->]] by lia; done.
Qed.

Lemma first_dirty_Some t i :
  first_dirty t = Some i →
  0 ≤ i < 144 ∧ (t_dirty t).[i] ≠ 0 ∧ ∀ j, 0 ≤ j < i → (t_dirty t).[j] = 0.
Proof.
  unfold first_dirty. rewrite fmap_Some. intros ([k x] & Hf & ->). simpl.
  apply list_find_Some in Hf as (Hk & Hx & Hall).
  apply lookup_seqZ in Hk as [-> Hk]. change REAC_HEADAMP_NCELLS with 144 in *.
  split_and!; [lia..|done|]. intros j Hj.
  destruct (decide ((t_dirty t).[j] = 0)) as [|Hd]; [done|]. exfalso.
  apply (Hall (Z.to_nat j) j); [|lia|done].
  apply lookup_seqZ. lia.
Qed.

Lemma first_dirty_None t i :
  first_dirty t = None → 0 ≤ i < 144 → (t_dirty t).[i] = 0.
Proof.
  unfold first_dirty. rewrite fmap_None, list_find_None. intros Hf Hi.
  rewrite Forall_forall in Hf. destruct (decide ((t_dirty t).[i] = 0)) as [|Hd]; [done|].
  exfalso. apply (Hf i); [|done]. apply elem_of_seqZ. change REAC_HEADAMP_NCELLS with 144. lia.
Qed.

Lemma replay_scan_spec fuel t idx idx' c p :
  replay_scan fuel t idx = Some (idx', c, p) → 0 ≤ idx →
  idx < idx' ≤ t_replay_width t * 3 ∧
  c = t_replay_base t + (idx' - 1) / 3 ∧ p = (idx' - 1) mod 3.
Proof.
  revert idx; induction fuel as [|fuel IH]; intros idx H Hi; [done|].
  cbn [replay_scan] in H. unfold REAC_HEADAMP_NPARAMS in *.
  destruct (idx <? t_replay_width t * 3) eqn:E; [|done]. cbn [negb] in H.
  destruct (t_replay_set_only t && _).
  - destruct (IH _ H ltac:(lia)) as (? & ? & ?). split_and!; (done || lia).
  - simplify_eq. replace (idx + 1 - 1) with idx by lia. split_and!; (done || lia).
Qed.

Lemma u8_small x : 0 ≤ x < 256 → u8 x = x.
Proof. unfold u8. lia. Qed.

(** A record the wire may carry under intent [I]. *)
Definition record_faithful (I : intent) (r : record) : Prop :=
  let '(c, p, v) := r in
  0 ≤ c < 48 ∧ 0 ≤ p < 3 ∧ v = scene_value I c p ∧ param_value_ok p v = true ∧ 0 ≤ v.

Lemma tx_refines_next t I :
  tx_refines t I →
  tx_refines (reac_headamp_tx_next t).1 I ∧
  from_option (record_faithful I) True (reac_headamp_tx_next t).2.
Proof.
  intros H. unfold reac_headamp_tx_next.
  destruct (negb (t_active t) && _) eqn:Ea; [done|].
  destruct (rf_replay t I H) as [Hcur Hidx]. pose proof (rf_scene t I H) as Hsc.
  destruct (first_dirty t) as [i|] eqn:Hd.
  - apply first_dirty_Some in Hd as (Hi & Hdi & _). simpl.
    unfold REAC_HEADAMP_NPARAMS. rewrite !cell_divmod, !u8_small by lia.
    assert (0 ≤ i / 3 < 48 ∧ 0 ≤ i mod 3 < 3) as [Hc Hp] by lia.
    destruct (effective_scene t I _ _ H Hc Hp) as [He Hok].
    pose proof (rf_cell t I H _ _ Hc Hp) as Hcell. unfold cell_ok in Hcell.
    destruct (rf_len t I H) as (? & ? & ?). split.
    + split; simpl; [zl; done| | |by split|done].
      * intros c p Hc' Hp'. pose proof (rf_cell t I H c p Hc' Hp') as Hcp.
        unfold cell_ok in *; simpl. destruct (I !! (c, p)); [done|].
        split; [apply Hcp|]. destruct (decide (cell c p = i)) as [->|]; [apply rd_wr_eq; lia|].
        rewrite rd_wr_ne; [apply Hcp|lia|unfold cell, REAC_HEADAMP_NPARAMS; lia|done].
      * intros E j. exfalso. apply Hdi, (rf_active t I H E).
    + simpl. rewrite cell_divmod in Hcell. unfold scene_value in *.
      destruct (I !! (i / 3, i mod 3)) as [v|] eqn:HI; simpl in *; [|by destruct Hcell].
      destruct Hcell as (_ & -> & ? & _). exact (conj Hc (conj Hp (conj eq_refl Hok))).
  - destruct (t_replay_width t =? 0) eqn:Ew; simpl; [by split; [apply tx_refines_tick|]|].
    destruct (0 <? t_replay_wait t); simpl; [split; [|done]; by apply (tx_refines_frame t)|].
    destruct (replay_scan _ _ _) as [[[idx c] p]|] eqn:Hs; simpl.
    + apply replay_scan_spec in Hs as (Hlt & Hceq & Hpeq); [|done].
      assert (Hin : 0 ≤ c < 48 ∧ 0 ≤ p < 3) by (unfold cursor_ok in Hcur; lia).
      assert (tx_refines (set_t_replay_idx idx t) I) as H'
        by (apply (tx_refines_frame t); simpl; (done || lia)).
      rewrite !u8_small by lia.
      destruct (effective_scene _ I c p H' (proj1 Hin) (proj2 Hin)) as [He Hok].
      split; [|rewrite He; destruct Hin as [Hc Hp]; exact (conj Hc (conj Hp (conj eq_refl Hok)))].
      destruct (_ <=? idx); apply (tx_refines_frame t); simpl; (done || lia || idtac).
      unfold cursor_ok in *; lia.
    + split; [|done]. apply tx_refines_tick.
      apply (tx_refines_frame t); simpl; try done; [unfold cursor_ok in *; lia|lia].
Qed.

Lemma tx_refines_step t I o :
  tx_op_typed o → tx_refines t I →
  tx_refines (tx_step t o).1 (intent_step I o) ∧
  from_option (record_faithful I) True (tx_step t o).2.
Proof.
  intros Ho H. destruct o as [ch param value|base width|frames|]; simpl in *.
  - destruct Ho as (? & ? & ?). split; [|done]. by apply (tx_refines_set t I ch param value).
  - destruct Ho. split; [|done]. by apply tx_refines_arm.
  - split; [|done]. destruct H as [? ? ? [? ?] ?] eqn:E. by apply (tx_refines_frame t).
  - by apply tx_refines_next.
Qed.

Lemma tx_trace_faithful ops t I :
  Forall tx_op_typed ops → tx_refines t I →
  Forall (λ Ir, record_faithful Ir.1 Ir.2) (tx_trace t I ops).
Proof.
  revert t I; induction ops as [|o ops IH]; intros t I Hops H; [constructor|].
  apply Forall_cons in Hops as [Ho Hops]. cbn [tx_trace].
  pose proof (tx_refines_step t I o Ho H) as [Ht Hr].
  destruct (tx_step t o) as [t' r]. simpl in *. apply Forall_app. split; [|by apply IH].
  destruct r; simpl; [|constructor]. by repeat constructor.
Qed.

(** C30. Nothing reaches a preamp that the operator did not ask for. Whatever
    sequence of settings, scene arms, re-assert periods and transmissions the
    table is put through, every record it hands out addresses one of the 48
    channels, carries a legal value, and that value is the last one accepted
    for the cell, or the enrolling default where none was: in particular
    phantom power is switched on only in a cell whose last setting was on. *)
Theorem headamp_records_faithful (ops : list tx_op) (I : intent) (c p v : Z) :
  Forall tx_op_typed ops →
  (I, (c, p, v)) ∈ tx_trace reac_headamp_tx_init ∅ ops →
  0 ≤ c < 48 ∧ 0 ≤ p < 3 ∧ param_value_ok p v = true ∧ v = scene_value I c p ∧
  (p = REAC_HEADAMP_PHANTOM → v ≠ 0 → I !! (c, p) = Some 1).
Proof.
  intros Hops Hin.
  pose proof (tx_trace_faithful ops _ ∅ Hops tx_refines_init) as Hall.
  rewrite Forall_forall in Hall. destruct (Hall _ Hin) as (Hc & Hp & Hv & Hok & H0).
  split_and!; try done; try lia. intros -> Hnz.
  simpl in Hv, H0. unfold scene_value in Hv.
  destruct (I !! (c, REAC_HEADAMP_PHANTOM)) as [w|]; simpl in Hv.
  - subst w. f_equal. unfold param_value_ok in Hok. simpl in Hok. lia.
  - by change (reac_headamp_default REAC_HEADAMP_PHANTOM) with 0 in Hv.
Qed.

Lemma headamp_records_faithful_witness :
  let ops := [OpSet 33 0 1; OpArm 32 2; OpNext; OpNext] in
  let I : intent := {[(33, 0) := 1]} in
  (I, (33, 0, 1)) ∈ tx_trace reac_headamp_tx_init ∅ ops ∧ I !! (33, 0) = Some 1.
Proof.
  intros ops I.
  assert (Hin : (I, (33, 0, 1)) ∈ tx_trace reac_headamp_tx_init ∅ ops)
    by (vm_compute; left).
  split; [done|].
  apply (headamp_records_faithful ops I 33 0 1); [|done|done|done].
  repeat constructor; done.
Defined.

(** ** Edges *)

(** The table after a sequence of operations from power-up. *)
Definition tx_state (ops : list tx_op) : reac_headamp_tx :=
  foldl (λ t o, (tx_step t o).1) reac_headamp_tx_init ops.

Lemma tx_state_refines ops : Forall tx_op_typed ops → ∃ I, tx_refines (tx_state ops) I.
Proof.
  unfold tx_state. intros Hops.
  assert (∀ t I, tx_refines t I → ∃ I', tx_refines (foldl (λ t o, (tx_step t o).1) t ops) I')
    as Hgen; [|exact (Hgen _ ∅ tx_refines_init)].
  induction Hops as [|o ops Ho _ IH]; intros t I H; simpl; [by exists I|].
  apply (IH _ (intent_step I o)). by apply tx_refines_step.
Qed.

(** The cells whose change is still to be sent, in table order. *)
Definition dirty_cells (t : reac_headamp_tx) : list Z :=
  filter (λ i, (t_dirty t).[i] ≠ 0) (zseq 0 REAC_HEADAMP_NCELLS).

Definition edge_record (t : reac_headamp_tx) (i : Z) : record :=
  (i / 3, i mod 3, (t_value t).[i]).

Lemma list_find_filter {A} (P : A → Prop) `{!∀ x, Decision (P x)} (l : list A) :
  snd <$> list_find P l = head (filter P l).
Proof.
  induction l as [|x l IH]; [done|]. simpl. rewrite filter_cons.
  destruct (decide (P x)); [done|]. rewrite <- IH. by destruct (list_find P l) as [[]|].
Qed.

Lemma filter_ext_in {A} (P Q : A → Prop) `{!∀ x, Decision (P x), !∀ x, Decision (Q x)}
    (l : list A) :
  (∀ x, x ∈ l → (P x ↔ Q x)) → filter P l = filter Q l.
Proof.
  induction l as [|x l IH]; intros Hl; [done|]. rewrite !filter_cons.
  rewrite IH by (intros; apply Hl; by right).
  pose proof (Hl x ltac:(by left)). destruct (decide (P x)), (decide (Q x)); tauto.
Qed.

(** Rejecting its first survivor as well drops it from a filtered list. *)
Lemma filter_drop_head {A} (P Q : A → Prop) `{!EqDecision A} `{!∀ x, Decision (P x)}
    `{!∀ x, Decision (Q x)} (l : list A) i D :
  NoDup l → (∀ j, j ∈ l → (P j ↔ j ≠ i ∧ Q j)) → filter Q l = i :: D → filter P l = D.
Proof.
  intros Hnd HPQ HD.
  rewrite (filter_ext_in P (λ j, j ≠ i ∧ Q j)) by done.
  rewrite <- (list_filter_filter (λ j, j ≠ i) Q), HD.
  assert (Hnd' : NoDup (i :: D)) by (rewrite <- HD; by apply NoDup_filter).
  apply NoDup_cons in Hnd' as [Hi _]. rewrite filter_cons, decide_False by tauto.
  clear HD. induction D as [|x D IH]; [done|]. rewrite filter_cons, decide_True.
  - f_equal. apply IH. intros ?. apply Hi. by right.
  - intros ->. apply Hi. by left.
Qed.

(** What one call does while a change is pending. *)
Definition sent_edge (t : reac_headamp_tx) (i : Z) : reac_headamp_tx :=
  set_t_resweep_wait 0 (set_t_dirty (wr (t_dirty t) i 0) t).

Lemma next_edge t I i D :
  tx_refines t I → dirty_cells t = i :: D →
  reac_headamp_tx_next t = (sent_edge t i, Some (edge_record t i)) ∧
  dirty_cells (sent_edge t i) = D ∧ tx_refines (sent_edge t i) I.
Proof.
  intros H HD.
  assert (Hf : first_dirty t = Some i)
    by (unfold first_dirty; rewrite list_find_filter; unfold dirty_cells in HD; by rewrite HD).
  assert (Hn : reac_headamp_tx_next t = (sent_edge t i, Some (edge_record t i))).
  { unfold reac_headamp_tx_next. rewrite Hf. apply first_dirty_Some in Hf as (Hi & Hdi & _).
    destruct (t_active t) eqn:Ha; [|by destruct Hdi; apply (rf_active t I H Ha)].
    cbn [negb andb]. unfold REAC_HEADAMP_NPARAMS. by rewrite cell_divmod, !u8_small by lia. }
  split_and!; [done| |].
  - unfold dirty_cells in *. simpl. apply first_dirty_Some in Hf as (Hi & _).
    destruct (rf_len t I H) as (_ & _ & Hl).
    apply (filter_drop_head _ (λ j, (t_dirty t).[j] ≠ 0) _ i); [apply NoDup_seqZ| |done].
    intros j Hj%elem_of_seqZ. destruct (decide (j = i)) as [->|]; [rewrite rd_wr_eq by lia; tauto|].
    rewrite rd_wr_ne by lia. tauto.
  - pose proof (tx_refines_next t I H) as [Hr _]. by rewrite Hn in Hr.
Qed.

(** Draining every pending change, one call each. *)
Lemma run_edges D t I :
  tx_refines t I → dirty_cells t = D →
  ∃ t', tx_run (length D) t = (t', Some <$> (edge_record t <$> D)) ∧ dirty_cells t' = [] ∧
    t_value t' = t_value t ∧ t_set t' = t_set t ∧ t_replay_idx t' = t_replay_idx t ∧
    t_replay_width t' = t_replay_width t ∧ t_replay_wait t' = t_replay_wait t.
Proof.
  revert t; induction D as [|i D IH]; intros t H HD; [by exists t|].
  destruct (next_edge t I i D H HD) as (Hn & HD' & H').
  destruct (IH (sent_edge t i) H' HD') as (t' & Hrun & Ht').
  exists t'. split; [|done]. cbn [length tx_run]. rewrite Hn, Hrun. done.
Qed.

(** A change reaches the wire. From any table a caller can produce, the
    pending changes leave one per call, in table order, each with its current
    value, before anything else and without disturbing a scene replay in
    progress; a setting just accepted is among them, so it is out within 144
    calls. *)
Theorem headamp_edges_drain (ops : list tx_op) (ch param value : Z) :
  Forall tx_op_typed ops → 0 ≤ ch < 48 → is_byte param → is_byte value →
  param_value_ok param value = true →
  let t := (reac_headamp_tx_set (tx_state ops) ch param value).1 in
  let D := dirty_cells t in
  ∃ t', tx_run (length D) t = (t', Some <$> (edge_record t <$> D)) ∧ dirty_cells t' = [] ∧
    (ch, param, value) ∈ edge_record t <$> D ∧ zlen D ≤ 144 ∧
    t_value t' = t_value t ∧ t_replay_idx t' = t_replay_idx t ∧
    t_replay_width t' = t_replay_width t ∧ t_replay_wait t' = t_replay_wait t.
Proof.
  intros Hops Hch Hp Hv Hok t D. destruct (tx_state_refines ops Hops) as [I HI].
  pose proof (param_value_ok_range param value ltac:(unfold is_byte in Hp; lia) Hok) as Hp3.
  assert (Ht : tx_refines t (intent_step I (OpSet ch param value)))
    by (apply tx_refines_set; (done || unfold is_byte; lia)).
  destruct (run_edges D t _ Ht eq_refl) as (t' & Hrun & Hd' & ? & ? & ? & ? & ?).
  exists t'. split_and!; try done.
  - destruct (rf_len _ _ HI) as (? & ? & ?). apply list_elem_of_fmap. exists (cell ch param).
    assert (Hin : 0 ≤ cell ch param < 144) by (unfold cell, REAC_HEADAMP_NPARAMS, is_byte in *; lia).
    subst D t. unfold dirty_cells, edge_record, reac_headamp_tx_set, REAC_HEADAMP_MAX_CH.
    replace (48 <=? ch) with false by lia. rewrite Hok. simpl. rewrite rd_wr_eq by lia. split.
    + unfold cell, REAC_HEADAMP_NPARAMS, is_byte in *. repeat f_equal; lia.
    + apply list_elem_of_filter. split; [by rewrite rd_wr_eq by lia|].
      apply elem_of_seqZ. change REAC_HEADAMP_NCELLS with 144. lia.
  - subst D. unfold dirty_cells, zlen.
    pose proof (length_filter (λ i, (t_dirty t).[i] ≠ 0) (zseq 0 REAC_HEADAMP_NCELLS)) as Hle.
    unfold zseq in Hle at 2. rewrite length_seqZ in Hle. change REAC_HEADAMP_NCELLS with 144 in *. lia.
Qed.

Lemma headamp_edges_drain_witness :
  let t := (reac_headamp_tx_set (tx_state [OpSet 3 2 7; OpArm 0 8]) 1 0 1).1 in
  (1, 0, 1) ∈ edge_record t <$> dirty_cells t.
Proof.
  intros t.
  destruct (headamp_edges_drain [OpSet 3 2 7; OpArm 0 8] 1 0 1) as (t' & _ & _ & H & _);
    [repeat constructor; done|lia|done|done|done|exact H].
Defined.

(** ** The scene replay *)

(** A run with a known state at every call. *)
Lemma tx_run_closed (s : Z → reac_headamp_tx) (o : Z → option record) (N k : nat) :
  (∀ j, Z.of_nat k ≤ j < Z.of_nat (k + N) → reac_headamp_tx_next (s j) = (s (j + 1), o j)) →
  tx_run N (s (Z.of_nat k)) = (s (Z.of_nat (k + N)), o <$> zseq (Z.of_nat k) (Z.of_nat N)).
Proof.
  revert k; induction N as [|N IH]; intros k H; simpl.
  - by rewrite Nat.add_0_r.
  - rewrite H by lia. replace (Z.of_nat k + 1) with (Z.of_nat (S k)) by lia.
    rewrite IH by (intros; apply H; lia).
    unfold zseq. rewrite (seqZ_cons (Z.of_nat k)) by lia.
    replace (Z.succ (Z.of_nat k)) with (Z.of_nat (S k)) by lia.
    replace (Z.pred (Z.of_nat (S N))) with (Z.of_nat N) by lia.
    by replace (k + S N)%nat with (S k + N)%nat by lia.
Qed.

Section Replay.
Context (t0 : reac_headamp_tx) (base width : Z).
Context (Hdirty : first_dirty t0 = None).
Context (Hb : 0 ≤ base) (Hw : 0 < width) (Hbw : base + width ≤ 48).

Let t := reac_headamp_tx_arm_scene t0 base width.

(** The record of call [n], and the state before it. *)
Definition replay_out (n : Z) : option record :=
  if n mod 12 =? 0 then
    let c := base + n / 12 / 3 in let p := (n / 12) mod 3 in
    Some (c, p, reac_headamp_tx_effective (Some t0) c p)
  else None.
Definition replay_state (n : Z) : reac_headamp_tx :=
  if n <=? 36 * width - 12 then set_t_replay_idx ((n + 11) / 12) (set_t_replay_wait ((- n) mod 12) t)
  else set_t_replay_width 0 (set_t_replay_idx (3 * width) (set_t_replay_wait 0 t)).

Lemma arm_scene_eq : t = set_t_resweep_wait 0 (set_t_scene_width width (set_t_scene_base base
  (set_t_replay_set_only false (set_t_replay_wait 0 (set_t_replay_idx 0
    (set_t_replay_width width (set_t_replay_base base t0))))))).
Proof.
  unfold t, reac_headamp_tx_arm_scene, REAC_HEADAMP_MAX_CH.
  replace (width =? 0) with false by lia. replace (48 <=? base) with false by lia.
  by replace (48 <? base + width) with false by lia.
Qed.

Lemma replay_state_0 : replay_state 0 = t.
Proof. unfold replay_state. replace (0 <=? _) with true by lia. by rewrite arm_scene_eq. Qed.

Lemma replay_next n :
  0 ≤ n < 36 * width - 11 →
  reac_headamp_tx_next (replay_state n) = (replay_state (n + 1), replay_out n).
Proof.
  intros Hn. unfold replay_state. replace (n <=? _) with true by lia. rewrite arm_scene_eq.
  unfold reac_headamp_tx_next. simpl.
  replace (width =? 0) with false by lia. rewrite andb_false_r.
  match goal with |- context [first_dirty ?x] => change (first_dirty x) with (first_dirty t0) end.
  rewrite Hdirty. unfold replay_out. destruct (n mod 12 =? 0) eqn:E.
  - replace ((- n) mod 12) with 0 by lia. cbn [Z.ltb Z.compare].
    unfold REAC_HEADAMP_NPARAMS. replace ((n + 11) / 12) with (n / 12) by lia.
    replace (Z.to_nat (width * 3 - n / 12)) with (S (Z.to_nat (width * 3 - n / 12 - 1))) by lia.
    cbn [replay_scan t_replay_width t_replay_set_only]. unfold REAC_HEADAMP_NPARAMS; simpl.
    replace (n / 12 <? width * 3) with true by lia. cbn [negb]. rewrite !u8_small by lia.
    unfold reac_headamp_tx_effective. simpl.
    destruct (width * 3 <=? n / 12 + 1) eqn:El.
    + replace (n + 1 <=? _) with false by lia. replace (n / 12 + 1) with (3 * width) by lia. done.
    + replace (n + 1 <=? _) with true by lia. replace ((n + 1 + 11) / 12) with (n / 12 + 1) by lia.
      replace ((- (n + 1)) mod 12) with 11 by lia. done.
  - replace (0 <? (- n) mod 12) with true by lia.
    replace (n + 1 <=? _) with true by lia.
    replace ((- n) mod 12 - 1) with ((- (n + 1)) mod 12) by lia.
    by replace ((n + 1 + 11) / 12) with ((n + 11) / 12) by lia.
Qed.
End Replay.

(** Every establishment re-arms the whole scene: with no change pending, the
    calls after [reac_headamp_tx_arm_scene] hand out exactly the three records
    of every channel of the box, in order, each with the value the grant sweep
    would carry, one record every twelve calls and nothing between them; the
    replay is then over. *)
Theorem scene_replay_exact (t : reac_headamp_tx) (base width : Z) :
  first_dirty t = None → 0 ≤ base → 0 < width → base + width ≤ 48 →
  let '(t', out) := tx_run (Z.to_nat (36 * width - 11)) (reac_headamp_tx_arm_scene t base width) in
  t_replay_width t' = 0 ∧ first_dirty t' = None ∧ t_set t' = t_set t ∧
  zlen out = 36 * width - 11 ∧
  ∀ n, 0 ≤ n < 36 * width - 11 →
    out !! Z.to_nat n = Some
      (if n mod REAC_HEADAMP_SWEEP_STRIDE =? 0 then
         let c := base + n / REAC_HEADAMP_SWEEP_STRIDE / 3 in
         let p := (n / REAC_HEADAMP_SWEEP_STRIDE) mod 3 in
         Some (c, p, reac_headamp_tx_effective (Some t) c p)
       else None).
Proof.
  intros Hd Hb Hw Hbw.
  pose proof (tx_run_closed (replay_state t base width) (replay_out t base)
    (Z.to_nat (36 * width - 11)) 0) as Hrun.
  simpl Z.of_nat in Hrun. rewrite replay_state_0 in Hrun by done.
  rewrite Hrun by (intros j Hj; apply replay_next; (done || lia)). rewrite Z2Nat.id by lia.
  unfold replay_state at 1 2 3. replace (36 * width - 11 <=? 36 * width - 12) with false by lia.
  split_and!; [done|by rewrite arm_scene_eq by done|by rewrite arm_scene_eq by done|zl|].
  intros n Hn. rewrite list_lookup_fmap. unfold zseq.
  rewrite lookup_seqZ_lt by lia. simpl. rewrite Z2Nat.id by lia. done.
Qed.

Lemma scene_replay_exact_witness :
  let t := (tx_run 1 (reac_headamp_tx_set reac_headamp_tx_init 33 0 1).1).1 in
  first_dirty t = None ∧
  (tx_run 61 (reac_headamp_tx_arm_scene t 32 2)).2 !! 36%nat = Some (Some (33, 0, 1)).
Proof.
  intros t. assert (Hd : first_dirty t = None) by (vm_compute; done). split; [done|].
  pose proof (scene_replay_exact t 32 2 Hd ltac:(lia) ltac:(lia) ltac:(lia)) as H.
  change (Z.to_nat (36 * 2 - 11)) with 61%nat in H.
  destruct (tx_run 61 _) as [t' out]. destruct H as (_ & _ & _ & _ & H).
  etransitivity; [exact (H 36 ltac:(lia))|]. vm_compute. done.
Defined.
