(* ===== verification/Grant.v ===== *)
(** * Grant: admitting a box and enrolling its channels

    Models [src/reac_grant.c]: the admission of an announced head-amp base and
    the enrolment sweep built from the operator's table. [None] is a -1 return. *)

From S2P Require Import Prelude CtrlBlk CtrlFrames HeadampTx.
Local Open Scope Z_scope.

Definition REAC_GRANT_MAX_WIDTH : Z := 40.
Definition REAC_GRANT_SWEEP_MAX : Z := REAC_GRANT_SWEEP_LEN REAC_GRANT_MAX_WIDTH.
(** The last head-amp slot, 0x2f. *)
Definition REAC_HEADAMP_CEILING : Z := REAC_HEADAMP_MAX_CH - 1.

Record reac_grant_alloc := GrantAlloc { ga_base : Z; ga_width : Z }.

Definition reac_grant_alloc_fits (base width : Z) : bool :=
  if (width <=? 0) || (REAC_GRANT_MAX_WIDTH <? width) then false
  else if base <? 0 then false
  else base + width - 1 <=? REAC_HEADAMP_CEILING.

Definition reac_grant_allocate (base in_ch : Z) : option reac_grant_alloc :=
  if (in_ch <=? 0) || (REAC_GRANT_MAX_WIDTH <? in_ch) then None
  else if negb (reac_grant_alloc_fits base in_ch) then None
  else Some (GrantAlloc (u8 base) (u8 in_ch)).

Definition reac_grant_headamp_value (tx : option reac_headamp_tx) (ch param : Z) : Z :=
  reac_headamp_tx_effective tx ch param.

(** The [values] array, filled by the two nested loops. *)
Definition grant_values (alloc : reac_grant_alloc) (tx : option reac_headamp_tx) : list Z :=
  mjoin ((λ c, (λ p, reac_grant_headamp_value tx (u8 (ga_base alloc + c)) p)
                 <$> zseq 0 REAC_HEADAMP_NPARAMS) <$> zseq 0 (ga_width alloc)).

Definition reac_grant_build_sweep (max : Z) (alloc : reac_grant_alloc)
    (tx : option reac_headamp_tx) : option (list (list Z)) :=
  let w := ga_width alloc in
  if negb (reac_grant_alloc_fits (ga_base alloc) w) then None
  else if (w <=? 0) || (REAC_GRANT_MAX_WIDTH <? w) then None
  else reac_ctrl_build_grant_sweep max (ga_base alloc) w (grant_values alloc tx).

(** * Properties *)

Lemma alloc_fits_iff base width :
  reac_grant_alloc_fits base width = true ↔ 1 ≤ width ≤ 40 ∧ 0 ≤ base ∧ base + width ≤ 48.
Proof.
  unfold reac_grant_alloc_fits, REAC_GRANT_MAX_WIDTH, REAC_HEADAMP_CEILING, REAC_HEADAMP_MAX_CH.
  split_ifs; lia.
Qed.

Lemma grant_values_at alloc tx c p :
  0 ≤ c < ga_width alloc → 0 ≤ p < 3 →
  (grant_values alloc tx).[c * 3 + p] = reac_grant_headamp_value tx (u8 (ga_base alloc + c)) p.
Proof.
  intros Hc Hp. unfold rd, grant_values.
  replace (Z.to_nat (c * 3 + p)) with (3 * Z.to_nat c + Z.to_nat p)%nat by lia.
  rewrite lookup_triples by (done || lia). unfold zseq. rewrite lookup_seqZ_lt by lia. simpl.
  assert (p = 0 ∨ p = 1 ∨ p = 2) as [-> | [-> | ->]] by lia;
    simpl; by replace (0 + Z.of_nat (Z.to_nat c)) with c by lia.
Qed.

Lemma args_ok_param_value p v : headamp_args_ok p v = param_value_ok p v.
Proof. reflexivity. Qed.

(** A table, or its absence, whose every scene value the record accepts. *)
Definition view_ok (view : option reac_headamp_tx) : Prop :=
  ∀ c p, 0 ≤ c < 48 → 0 ≤ p < 3 → headamp_args_ok p (reac_headamp_tx_effective view c p) = true.

Lemma view_ok_none : view_ok None.
Proof. intros c p _ Hp. assert (p = 0 ∨ p = 1 ∨ p = 2) as [-> | [-> | ->]] by lia; done. Qed.

Lemma view_ok_refines t I : tx_refines t I → view_ok (Some t).
Proof.
  intros HI c p Hc Hp. rewrite args_ok_param_value.
  by destruct (effective_scene t I c p HI Hc Hp) as (-> & Hok & _).
Qed.

(** The sweep of an admitted box is complete. *)
Lemma build_sweep_ok view base w :
  view_ok view → reac_grant_alloc_fits base w = true →
  ∃ rows, reac_grant_build_sweep REAC_GRANT_SWEEP_MAX (GrantAlloc base w) view = Some rows ∧
    zlen rows = 8 + 3 * w ∧ Forall row_closed rows ∧
    (∀ c p, 0 ≤ c < w → 0 ≤ p < 3 →
       rows !! Z.to_nat (if c =? 0 then 1 + p else 8 + 3 * c + p) =
         Some (groupa_row (base + c) p (reac_headamp_tx_effective view (base + c) p))) ∧
    (∀ i, 0 ≤ i < 6 → rows !! Z.to_nat (5 + i) = reac_ctrl_identity_poll_block i).
Proof.
  intros Hview Hfit. pose proof (proj1 (alloc_fits_iff _ _) Hfit) as (Hw & Hb & Hbw).
  set (a := GrantAlloc base w).
  assert (Hval : ∀ c p, 0 ≤ c < w → 0 ≤ p < 3 →
    (grant_values a view).[c * 3 + p] = reac_headamp_tx_effective view (base + c) p).
  { intros c p Hc Hp. rewrite grant_values_at by done. unfold reac_grant_headamp_value.
    simpl. by rewrite u8_small by lia. }
  destruct (grant_sweep_rows REAC_GRANT_SWEEP_MAX base w (grant_values a view))
    as (rows & Hrows & Hlen & Hcl & Hch & Hgb); [done|lia|lia|vm_compute (REAC_GRANT_SWEEP_MAX); lia| |].
  { intros c p Hc Hp. rewrite Hval by done. apply Hview; lia. }
  exists rows. split_and!; try done.
  - unfold reac_grant_build_sweep. simpl. rewrite Hfit. simpl.
    replace (_ || _) with false by (unfold REAC_GRANT_MAX_WIDTH; lia). done.
  - intros c p Hc Hp. rewrite Hch by done. by rewrite Hval.
Qed.

(** Admission and enrolment. A box is admitted exactly when it has 1 to 40
    inputs and the slots it announces lie inside the 48 of the head-amp space,
    at the base it announced and no other. For an admitted box the sweep is
    complete: 8 + 3w rows, every one closing its checksum, carrying for each
    input its phantom, pad and sensitivity record in the desk's order with the
    value the scene replay carries, and the six group-B rows between the first
    channel and the rest; a sensitivity the operator left alone is never zero,
    which is what makes the box enrol the channel. *)
Theorem grant_enrols (ops : list tx_op) (base in_ch : Z) :
  Forall tx_op_typed ops →
  let t := tx_state ops in
  match reac_grant_allocate base in_ch with
  | None => ¬ (1 ≤ in_ch ≤ 40 ∧ 0 ≤ base ∧ base + in_ch ≤ 48)
  | Some a =>
      ga_base a = base ∧ ga_width a = in_ch ∧ 1 ≤ in_ch ≤ 40 ∧ 0 ≤ base ∧ base + in_ch ≤ 48 ∧
      ∃ rows, reac_grant_build_sweep REAC_GRANT_SWEEP_MAX a (Some t) = Some rows ∧
        zlen rows = REAC_GRANT_SWEEP_LEN in_ch ∧ Forall row_closed rows ∧
        (∀ c p, 0 ≤ c < in_ch → 0 ≤ p < 3 →
           rows !! Z.to_nat (if c =? 0 then 1 + p else 8 + 3 * c + p) =
             Some (groupa_row (base + c) p (reac_headamp_tx_effective (Some t) (base + c) p))) ∧
        (∀ i, 0 ≤ i < 6 → rows !! Z.to_nat (5 + i) = reac_ctrl_identity_poll_block i) ∧
        (∀ c, 0 ≤ c < in_ch → (t_set t).[cell (base + c) REAC_HEADAMP_SENS] = 0 →
           reac_headamp_tx_effective (Some t) (base + c) REAC_HEADAMP_SENS = 0x20)
  end.
Proof.
  intros Hops t. destruct (tx_state_refines ops Hops) as [I HI]. fold t in HI.
  unfold reac_grant_allocate. destruct (_ || _) eqn:E;
    [unfold REAC_GRANT_MAX_WIDTH in E; lia|clear E].
  destruct (reac_grant_alloc_fits base in_ch) eqn:Hfit; simpl.
  2: { intros Hr. apply alloc_fits_iff in Hr. congruence. }
  pose proof (proj1 (alloc_fits_iff _ _) Hfit) as (Hw & Hb & Hbw).
  rewrite !u8_small by lia. split_and!; try (done || lia).
  destruct (build_sweep_ok (Some t) base in_ch) as (rows & Hrows & Hlen & Hcl & Hch & Hgb);
    [by apply (view_ok_refines t I)|done|].
  exists rows. split_and!; try done.
  - unfold REAC_GRANT_SWEEP_LEN. lia.
  - intros c Hc Hs. unfold reac_headamp_tx_effective. rewrite Hs. by rewrite andb_false_r.
Qed.

Lemma grant_enrols_witness :
  Forall tx_op_typed [OpSet 33 0 1] ∧
  ∃ a rows, reac_grant_allocate 32 16 = Some a ∧
    reac_grant_build_sweep 128 a (Some (tx_state [OpSet 33 0 1])) = Some rows ∧ zlen rows = 56.
Proof.
  assert (H : Forall tx_op_typed [OpSet 33 0 1]) by (repeat constructor; done).
  split; [done|]. pose proof (grant_enrols [OpSet 33 0 1] 32 16 H) as Hg. cbv zeta in Hg.
  destruct (reac_grant_allocate 32 16) as [a|]; [|exfalso; apply Hg; lia].
  destruct Hg as (_ & _ & _ & _ & _ & rows & Hrows & Hlen & _).
  by exists a, rows.
Defined.
