(* ===== verification/Scene.v ===== *)
(** * Scene: the body the master pushes

    The 8904 bytes of [src/reac_scene_body.c], in six runs of lines. The master
    overwrites its own MAC and the pace code in it and pushes the rest as it is. *)

From S2P Require Import Prelude CtrlBlk.
Local Open Scope Z_scope.

Definition scene_lines_0 : list Z :=
  [49; 50; 51; 52; 1; 0; 0; 0; 4; 0; 1; 128; 2; 0; 1; 0; 1; 0; 1; 0; 1; 0; 0; 0; 0; 0; 2; 0; 0;
   0; 1; 0; 0; 0; 0; 0; 2; 0; 0; 0; 1; 0; 0; 0; 0; 0; 2; 0; 0; 0; 1; 0; 0; 0; 0; 0; 2; 0; 0; 0;
   1; 0; 0; 0; 0; 0; 2; 0; 0; 0; 1; 0; 0; 0; 0; 0; 2; 0; 0; 0; 1; 0; 0; 0; 0; 0; 2; 0; 0; 0; 1;
   0; 0; 0; 0; 0; 2; 0; 0; 0; 1; 0; 0; 0; 0; 0; 2; 0; 0; 0; 1; 0; 0; 0; 0; 0; 2; 0; 0; 0; 1; 0;
   0; 0; 0; 0; 2; 0; 0; 0; 1; 0; 0; 0; 0; 0; 2; 0; 0; 0; 1; 0; 0; 0; 0; 0; 2; 0; 0; 0; 1; 0; 0;
   0; 0; 0; 2; 0; 0; 0; 1; 0; 0; 0; 0; 0; 2; 0; 0; 0; 1; 0; 0; 0; 0; 0; 2; 0; 0; 0; 1; 0; 0; 0;
   0; 0; 2; 0; 0; 0; 1; 0; 0; 0; 0; 0; 2; 0; 0; 0; 1; 0; 0; 0; 0; 0; 2; 0; 0; 0; 1; 0; 0; 0; 0;
   0; 2; 0; 0; 0; 1; 0; 0; 0; 0; 0; 2; 0; 0; 0; 1; 0; 0; 0; 0; 0; 2; 0; 0; 0; 1; 0; 0; 0; 0; 0;
   2; 0; 0; 0; 1; 0; 0; 0; 0; 0; 2; 0; 0; 0; 1; 0; 0; 0; 0; 0; 2; 0; 0; 0; 1; 0; 0; 0; 0; 0; 2;
   0; 0; 0; 1; 0; 0; 0; 0; 0; 2; 0; 0; 0; 1; 0; 0; 0; 0; 0; 2; 0; 0; 0; 1; 0; 0; 0; 0; 0; 2; 0;
   0; 0; 1; 0; 0; 0; 0; 0; 2; 0; 0; 0; 1; 0; 0; 0; 0; 0; 2; 0; 0; 0; 1; 0; 0; 0; 0; 0; 2; 0; 0;
   0; 1; 0; 0; 0; 0; 0; 3; 0; 0; 0; 1; 0; 0; 0; 0; 0; 3; 0; 0; 0; 1; 0; 0; 0; 0; 0; 3; 0; 0; 0;
   1; 0; 0; 0; 0; 0; 3; 0; 0; 0; 1; 0; 0; 0; 0; 0; 3; 0; 0; 0; 1; 0; 0; 0; 0; 0; 3; 0; 0; 0; 1;
   0; 0; 0; 0; 0; 3; 0; 0; 0; 1; 0; 0; 0; 0; 0; 3; 0; 0; 0; 1; 0; 0; 0; 0; 0; 3; 0; 0; 0; 1; 0;
   0; 0; 0; 0; 3; 0; 0; 0; 1; 0; 0; 0; 0; 0; 3; 0; 0; 0; 1; 0; 0; 0; 0; 0; 3; 0; 0; 0; 1; 0; 0;
   0; 0; 0; 3; 0; 0; 0; 1; 0; 0; 0; 0; 0; 3; 0; 0; 0; 1; 0; 0; 0; 0; 0; 3; 0; 0; 0; 1; 0; 0; 0;
   0; 0; 3; 0; 0; 0; 1; 0; 0; 0; 0; 0; 3; 0; 0; 0; 1; 0; 0; 0; 0; 0; 3; 0; 0; 0; 1; 0; 0; 0; 0;
   0; 3; 0; 0; 0; 1; 0; 0; 0; 0; 0; 3; 0; 0; 0; 1; 0; 0; 0; 0; 0; 3; 0; 0; 0; 1; 0; 0; 0; 0; 0;
   3; 0; 0; 0; 1; 0; 0; 0; 0; 0; 3; 0; 0; 0; 1; 0; 0; 0; 0; 0; 3; 0; 0; 0; 1; 0; 0; 0; 0; 0; 3;
   0; 0; 0; 1; 0; 0; 0; 0; 0; 3; 0; 0; 0; 1; 0; 0; 0; 0; 0; 3; 0; 0; 0; 1; 0; 0; 0; 0; 0; 3; 0;
   0; 0; 1; 0; 0; 0; 0; 0; 3; 0; 0; 0; 1; 0; 0; 0; 0; 0; 3; 0; 0; 0; 1; 0; 0; 0; 0; 0; 3; 0; 0;
   0; 1; 0; 0; 0; 0; 0; 3; 0; 0; 0; 1; 0; 0; 0; 0; 0; 3; 0; 0; 0; 1; 0; 0; 0; 0; 0; 3; 0; 0; 0;
   1; 0; 0; 0; 0; 0; 3; 0; 0; 0; 1; 0; 0; 0; 0; 0; 3; 0; 0; 0; 1; 0; 0; 0; 0; 0; 3; 0; 0; 0; 1;
   0; 0; 0; 0; 0; 3; 0; 0; 0; 1; 0; 0; 0; 0; 0; 3; 0; 0; 0; 1; 0; 0; 0; 0; 0; 3; 0; 0; 0; 1; 0;
   0; 0; 0; 0; 3; 0; 0; 0; 1; 0; 0; 0; 0; 0; 3; 0; 0; 0; 1; 0; 0; 0; 0; 0; 3; 0; 0; 0; 1; 0; 0;
   0; 0; 0; 3; 0; 0; 0; 1; 0; 0; 0; 0; 0; 3; 0; 0; 0; 1; 0; 0; 0; 0; 0; 3; 0; 0; 0; 1; 0; 0; 0;
   0; 0; 3; 0; 0; 0; 1; 0; 0; 0; 0; 0; 3; 0; 0; 0; 1; 0; 0; 0; 0; 0; 0; 0; 0; 0; 0; 0; 0; 64;
   171; 201; 204; 3; 0; 0; 0; 0; 255; 255; 255; 255; 255; 255; 0; 0; 0; 0; 255; 255; 255; 255;
   255; 255; 0; 0; 0; 0; 0; 0; 0; 0; 0; 0; 0; 0; 0; 0; 83; 89; 83; 80; 1; 0; 0; 0; 0; 0; 0; 0; 0;
   0; 0; 0; 0; 0; 0; 0; 83; 67; 69; 78; 1; 0; 0; 0; 3; 0; 0; 0; 1; 0; 0; 0; 0; 0; 3; 0; 0; 0; 1;
   0; 0; 0; 0; 0; 3; 0; 0; 0; 1; 0; 0; 0; 0; 0; 3; 0; 0; 0; 1; 0; 0; 0; 0; 0; 3; 0; 0; 0; 1; 0;
   0; 0; 0; 0; 3; 0; 0; 0; 1; 0; 0; 0; 0; 0; 3; 0; 0; 0; 1; 0; 0; 0; 0; 0; 3; 0; 0; 0; 1; 0; 0;
   0; 0; 0; 3; 0; 0; 0; 1; 0; 0; 0; 0; 0; 3; 0; 0; 0; 1; 0; 0; 0; 0; 0; 3; 0; 0; 0; 1; 0; 0; 0;
   0; 0; 3; 0; 0; 0; 1; 0; 0; 0; 0; 0; 3; 0; 0; 0; 1; 0; 0; 0; 0; 0; 3; 0; 0; 0; 1; 0; 0; 0; 0;
   0; 3; 0; 0; 0; 1; 0; 0; 0; 0; 0; 3; 0; 0; 0; 1; 0; 0; 0; 0; 0; 3; 0; 0; 0; 1; 0; 0; 0; 0; 0;
   3; 0; 0; 0; 1; 0; 0; 0; 0; 0; 3; 0; 0; 0; 1; 0; 0; 0; 0; 0; 3; 0; 0; 0; 1; 0; 0; 0; 0; 0; 3;
   0; 0; 0; 1; 0; 0; 0; 0; 0; 3; 0; 0; 0; 1; 0; 0; 0; 0; 0; 3; 0; 0; 0; 1; 0; 0; 0; 0; 0; 3; 0;
   0; 0; 1; 0; 0; 0; 0; 0; 3; 0; 0; 0; 1; 0; 0; 0; 0; 0; 3; 0; 0; 0; 1; 0; 0; 0; 0; 0; 3; 0; 0;
   0; 1; 0; 0; 0; 0; 0; 3; 0; 0; 0; 1; 0; 0; 0; 0; 0; 3; 0; 0; 0; 1; 0; 0; 0; 0; 0; 3; 0; 0; 0;
   1; 0; 0; 0; 0; 0; 3; 0; 0; 0; 1; 0; 0; 0; 0; 0; 3; 0; 0; 0; 1; 0; 0; 0; 0; 0; 3; 0; 0; 0; 1;
   0; 0; 0; 0; 0; 3; 0; 0; 0; 1; 0; 0; 0; 0; 0; 3; 0; 0; 0; 1; 0; 0; 0; 0; 0; 3; 0; 0; 0; 1; 0;
   0; 0; 0; 0; 3; 0; 0; 0; 1; 0; 0; 0; 0; 0; 3; 0; 0; 0; 1; 0; 0; 0; 0; 0; 3; 0; 0; 0; 1; 0; 0;
   0; 0; 0; 3; 0; 0; 0; 1; 0; 0; 0; 0; 0; 3; 0; 0; 0; 1; 0; 0; 0; 0; 0; 3; 0; 0; 0; 1; 0; 0; 0;
   0; 0; 3; 0; 0; 0; 1; 0; 0; 0; 0; 0; 3; 0; 0; 0; 1; 0; 0; 0; 0; 0; 3; 0; 0; 0; 1; 0; 0; 0; 0;
   0; 3; 0; 0; 0; 1; 0; 0; 0; 0; 0; 3; 0; 0; 0; 1; 0; 0; 0; 0; 0; 3; 0; 0; 0; 1; 0; 0; 0; 0; 0;
   3; 0; 0; 0; 1; 0; 0; 0; 0; 0; 3; 0; 0; 0; 1; 0; 0; 0; 0; 0; 3; 0; 0; 0; 1; 0; 0; 0; 0; 0; 3;
   0; 0; 0; 1; 0; 0; 0; 0; 0; 3; 0; 0; 0; 1; 0; 0; 0; 0; 0; 3; 0; 0; 0; 1; 0; 0; 0; 0; 0; 3; 0;
   0; 0; 1; 0; 0; 0; 0; 0; 3; 0; 0; 0; 1; 0; 0; 0; 0; 0; 3; 0; 0; 0; 1; 0; 0; 0; 0; 0; 3; 0; 0;
   0; 1; 0; 0; 0; 0; 0; 3; 0; 0; 0; 1; 0; 0; 0; 0; 0; 3; 0; 0; 0; 1; 0; 0; 0; 0; 0].

Definition scene_lines_1 : list Z :=
  [3; 0; 0; 0; 1; 0; 0; 0; 0; 0; 3; 0; 0; 0; 1; 0; 0; 0; 0; 0; 3; 0; 0; 0; 1; 0; 0; 0; 0; 0; 3;
   0; 0; 0; 1; 0; 0; 0; 0; 0; 3; 0; 0; 0; 1; 0; 0; 0; 0; 0; 3; 0; 0; 0; 1; 0; 0; 0; 0; 0; 3; 0;
   0; 0; 1; 0; 0; 0; 0; 0; 3; 0; 0; 0; 1; 0; 0; 0; 0; 0; 3; 0; 0; 0; 1; 0; 0; 0; 0; 0; 3; 0; 0;
   0; 1; 0; 0; 0; 0; 0; 3; 0; 0; 0; 1; 0; 0; 0; 0; 0; 3; 0; 0; 0; 1; 0; 0; 0; 0; 0; 3; 0; 0; 0;
   1; 0; 0; 0; 0; 0; 3; 0; 0; 0; 1; 0; 0; 0; 0; 0; 3; 0; 0; 0; 1; 0; 0; 0; 0; 0; 3; 0; 0; 0; 1;
   0; 0; 0; 0; 0; 3; 0; 0; 0; 1; 0; 0; 0; 0; 0; 3; 0; 0; 0; 1; 0; 0; 0; 0; 0; 3; 0; 0; 0; 1; 0;
   0; 0; 0; 0; 3; 0; 0; 0; 1; 0; 0; 0; 0; 0; 3; 0; 0; 0; 1; 0; 0; 0; 0; 0; 3; 0; 0; 0; 1; 0; 0;
   0; 0; 0; 3; 0; 0; 0; 1; 0; 0; 0; 0; 0; 3; 0; 0; 0; 1; 0; 0; 0; 0; 0; 3; 0; 0; 0; 1; 0; 0; 0;
   0; 0; 3; 0; 0; 0; 1; 0; 0; 0; 0; 0; 3; 0; 0; 0; 1; 0; 0; 0; 0; 0; 3; 0; 0; 0; 1; 0; 0; 0; 0;
   0; 3; 0; 0; 0; 1; 0; 0; 0; 0; 0; 3; 0; 0; 0; 1; 0; 0; 0; 0; 0; 3; 0; 0; 0; 1; 0; 0; 0; 0; 0;
   3; 0; 0; 0; 1; 0; 0; 0; 0; 0; 3; 0; 0; 0; 1; 0; 0; 0; 0; 0; 3; 0; 0; 0; 1; 0; 0; 0; 0; 0; 3;
   0; 0; 0; 1; 0; 0; 0; 0; 0; 3; 0; 0; 0; 1; 0; 0; 0; 0; 0; 3; 0; 0; 0; 1; 0; 0; 0; 0; 0; 3; 0;
   0; 0; 1; 0; 0; 0; 0; 0; 3; 0; 0; 0; 1; 0; 0; 0; 0; 0; 3; 0; 0; 0; 1; 0; 0; 0; 0; 0; 3; 0; 0;
   0; 1; 0; 0; 0; 0; 0; 3; 0; 0; 0; 1; 0; 0; 0; 0; 0; 3; 0; 0; 0; 1; 0; 0; 0; 0; 0; 3; 0; 0; 0;
   1; 0; 0; 0; 0; 0; 3; 0; 0; 0; 1; 0; 0; 0; 0; 0; 3; 0; 0; 0; 1; 0; 0; 0; 0; 0; 3; 0; 0; 0; 1;
   0; 0; 0; 0; 0; 3; 0; 0; 0; 1; 0; 0; 0; 0; 0; 3; 0; 0; 0; 1; 0; 0; 0; 0; 0; 3; 0; 0; 0; 1; 0;
   0; 0; 0; 0; 3; 0; 0; 0; 1; 0; 0; 0; 0; 0; 3; 0; 0; 0; 1; 0; 0; 0; 0; 0; 3; 0; 0; 0; 1; 0; 0;
   0; 0; 0; 3; 0; 0; 0; 1; 0; 0; 0; 0; 0; 3; 0; 0; 0; 1; 0; 0; 0; 0; 0; 3; 0; 0; 0; 1; 0; 0; 0;
   0; 0; 3; 0; 0; 0; 1; 0; 0; 0; 0; 0; 3; 0; 0; 0; 1; 0; 0; 0; 0; 0; 3; 0; 0; 0; 1; 0; 0; 0; 0;
   0; 3; 0; 0; 0; 1; 0; 0; 0; 0; 0; 3; 0; 0; 0; 1; 0; 0; 0; 0; 0; 3; 0; 0; 0; 1; 0; 0; 0; 0; 0;
   3; 0; 0; 0; 1; 0; 0; 0; 0; 0; 3; 0; 0; 0; 1; 0; 0; 0; 0; 0; 3; 0; 0; 0; 1; 0; 0; 0; 0; 0; 3;
   0; 0; 0; 1; 0; 0; 0; 0; 0; 3; 0; 0; 0; 1; 0; 0; 0; 0; 0; 3; 0; 0; 0; 1; 0; 0; 0; 0; 0; 3; 0;
   0; 0; 1; 0; 0; 0; 0; 0; 3; 0; 0; 0; 1; 0; 0; 0; 0; 0; 3; 0; 0; 0; 1; 0; 0; 0; 0; 0; 3; 0; 0;
   0; 1; 0; 0; 0; 0; 0; 3; 0; 0; 0; 1; 0; 0; 0; 0; 0; 3; 0; 0; 0; 1; 0; 0; 0; 0; 0; 3; 0; 0; 0;
   1; 0; 0; 0; 0; 0; 3; 0; 0; 0; 1; 0; 0; 0; 0; 0; 3; 0; 0; 0; 1; 0; 0; 0; 0; 0; 3; 0; 0; 0; 1;
   0; 0; 0; 0; 0; 3; 0; 0; 0; 1; 0; 0; 0; 0; 0; 3; 0; 0; 0; 1; 0; 0; 0; 0; 0; 3; 0; 0; 0; 1; 0;
   0; 0; 0; 0; 3; 0; 0; 0; 1; 0; 0; 0; 0; 0; 3; 0; 0; 0; 1; 0; 0; 0; 0; 0; 3; 0; 0; 0; 1; 0; 0;
   0; 0; 0; 3; 0; 0; 0; 1; 0; 0; 0; 0; 0; 3; 0; 0; 0; 1; 0; 0; 0; 0; 0; 3; 0; 0; 0; 1; 0; 0; 0;
   0; 0; 3; 0; 0; 0; 1; 0; 0; 0; 0; 0; 3; 0; 0; 0; 1; 0; 0; 0; 0; 0; 3; 0; 0; 0; 1; 0; 0; 0; 0;
   0; 3; 0; 0; 0; 1; 0; 0; 0; 0; 0; 3; 0; 0; 0; 1; 0; 0; 0; 0; 0; 3; 0; 0; 0; 1; 0; 0; 0; 0; 0;
   3; 0; 0; 0; 1; 0; 0; 0; 0; 0; 3; 0; 0; 0; 1; 0; 0; 0; 0; 0; 3; 0; 0; 0; 1; 0; 0; 0; 0; 0; 3;
   0; 0; 0; 1; 0; 0; 0; 0; 0; 3; 0; 0; 0; 1; 0; 0; 0; 0; 0; 3; 0; 0; 0; 1; 0; 0; 0; 0; 0; 3; 0;
   0; 0; 1; 0; 0; 0; 0; 0; 3; 0; 0; 0; 1; 0; 0; 0; 0; 0; 3; 0; 0; 0; 1; 0; 0; 0; 0; 0; 3; 0; 0;
   0; 1; 0; 0; 0; 0; 0; 3; 0; 0; 0; 1; 0; 0; 0; 0; 0; 3; 0; 0; 0; 1; 0; 0; 0; 0; 0; 3; 0; 0; 0;
   1; 0; 0; 0; 0; 0; 3; 0; 0; 0; 1; 0; 0; 0; 0; 0; 3; 0; 0; 0; 1; 0; 0; 0; 0; 0; 3; 0; 0; 0; 1;
   0; 0; 0; 0; 0; 3; 0; 0; 0; 1; 0; 0; 0; 0; 0; 3; 0; 0; 0; 1; 0; 0; 0; 0; 0; 3; 0; 0; 0; 1; 0;
   0; 0; 0; 0; 3; 0; 0; 0; 1; 0; 0; 0; 0; 0; 3; 0; 0; 0; 1; 0; 0; 0; 0; 0; 3; 0; 0; 0; 1; 0; 0;
   0; 0; 0; 3; 0; 0; 0; 1; 0; 0; 0; 0; 0; 3; 0; 0; 0; 1; 0; 0; 0; 0; 0; 3; 0; 0; 0; 1; 0; 0; 0;
   0; 0; 3; 0; 0; 0; 1; 0; 0; 0; 0; 0; 3; 0; 0; 0; 1; 0; 0; 0; 0; 0; 3; 0; 0; 0; 1; 0; 0; 0; 0;
   0; 3; 0; 0; 0; 1; 0; 0; 0; 0; 0; 3; 0; 0; 0; 1; 0; 0; 0; 0; 0; 3; 0; 0; 0; 1; 0; 0; 0; 0; 0;
   3; 0; 0; 0; 1; 0; 0; 0; 0; 0; 3; 0; 0; 0; 1; 0; 0; 0; 0; 0; 3; 0; 0; 0; 1; 0; 0; 0; 0; 0; 3;
   0; 0; 0; 1; 0; 0; 0; 0; 0; 3; 0; 0; 0; 1; 0; 0; 0; 0; 0; 3; 0; 0; 0; 1; 0; 0; 0; 0; 0; 3; 0;
   0; 0; 1; 0; 0; 0; 0; 0; 3; 0; 0; 0; 1; 0; 0; 0; 0; 0; 3; 0; 0; 0; 1; 0; 0; 0; 0; 0; 3; 0; 0;
   0; 1; 0; 0; 0; 0; 0; 3; 0; 0; 0; 1; 0; 0; 0; 0; 0; 3; 0; 0; 0; 1; 0; 0; 0; 0; 0; 3; 0; 0; 0;
   1; 0; 0; 0; 0; 0; 3; 0; 0; 0; 1; 0; 0; 0; 0; 0; 3; 0; 0; 0; 1; 0; 0; 0; 0; 0; 3; 0; 0; 0; 1;
   0; 0; 0; 0; 0; 3; 0; 0; 0; 1; 0; 0; 0; 0; 0; 3; 0; 0; 0; 1; 0; 0; 0; 0; 0; 3; 0; 0; 0; 1; 0;
   0; 0; 0; 0; 3; 0; 0; 0; 1; 0; 0; 0; 0; 0; 3; 0; 0; 0; 1; 0; 0; 0; 0; 0; 3; 0; 0; 0; 1; 0; 0;
   0; 0; 0; 3; 0; 0; 0; 1; 0; 0; 0; 0; 0; 3; 0; 0; 0; 1; 0; 0; 0; 0; 0; 3; 0; 0; 0; 1; 0; 0; 0;
   0; 0; 3; 0; 0; 0; 1; 0; 0; 0; 0; 0].

Definition scene_lines_2 : list Z :=
  [3; 0; 0; 0; 1; 0; 0; 0; 0; 0; 3; 0; 0; 0; 1; 0; 0; 0; 0; 0; 3; 0; 0; 0; 1; 0; 0; 0; 0; 0; 3;
   0; 0; 0; 1; 0; 0; 0; 0; 0; 3; 0; 0; 0; 1; 0; 0; 0; 0; 0; 3; 0; 0; 0; 1; 0; 0; 0; 0; 0; 3; 0;
   0; 0; 1; 0; 0; 0; 0; 0; 3; 0; 0; 0; 1; 0; 0; 0; 0; 0; 3; 0; 0; 0; 1; 0; 0; 0; 0; 0; 3; 0; 0;
   0; 1; 0; 0; 0; 0; 0; 3; 0; 0; 0; 1; 0; 0; 0; 0; 0; 3; 0; 0; 0; 1; 0; 0; 0; 0; 0; 3; 0; 0; 0;
   1; 0; 0; 0; 0; 0; 3; 0; 0; 0; 1; 0; 0; 0; 0; 0; 3; 0; 0; 0; 1; 0; 0; 0; 0; 0; 3; 0; 0; 0; 1;
   0; 0; 0; 0; 0; 3; 0; 0; 0; 1; 0; 0; 0; 0; 0; 3; 0; 0; 0; 1; 0; 0; 0; 0; 0; 3; 0; 0; 0; 1; 0;
   0; 0; 0; 0; 3; 0; 0; 0; 1; 0; 0; 0; 0; 0; 3; 0; 0; 0; 1; 0; 0; 0; 0; 0; 3; 0; 0; 0; 1; 0; 0;
   0; 0; 0; 3; 0; 0; 0; 1; 0; 0; 0; 0; 0; 3; 0; 0; 0; 1; 0; 0; 0; 0; 0; 3; 0; 0; 0; 1; 0; 0; 0;
   0; 0; 3; 0; 0; 0; 1; 0; 0; 0; 0; 0; 3; 0; 0; 0; 1; 0; 0; 0; 0; 0; 3; 0; 0; 0; 1; 0; 0; 0; 0;
   0; 3; 0; 0; 0; 1; 0; 0; 0; 0; 0; 3; 0; 0; 0; 1; 0; 0; 0; 0; 0; 3; 0; 0; 0; 1; 0; 0; 0; 0; 0;
   3; 0; 0; 0; 1; 0; 0; 0; 0; 0; 3; 0; 0; 0; 1; 0; 0; 0; 0; 0; 3; 0; 0; 0; 1; 0; 0; 0; 0; 0; 3;
   0; 0; 0; 1; 0; 0; 0; 0; 0; 3; 0; 0; 0; 1; 0; 0; 0; 0; 0; 3; 0; 0; 0; 1; 0; 0; 0; 0; 0; 3; 0;
   0; 0; 1; 0; 0; 0; 0; 0; 3; 0; 0; 0; 1; 0; 0; 0; 0; 0; 3; 0; 0; 0; 1; 0; 0; 0; 0; 0; 3; 0; 0;
   0; 1; 0; 0; 0; 0; 0; 3; 0; 0; 0; 1; 0; 0; 0; 0; 0; 3; 0; 0; 0; 1; 0; 0; 0; 0; 0; 3; 0; 0; 0;
   1; 0; 0; 0; 0; 0; 3; 0; 0; 0; 1; 0; 0; 0; 0; 0; 3; 0; 0; 0; 1; 0; 0; 0; 0; 0; 3; 0; 0; 0; 1;
   0; 0; 0; 0; 0; 3; 0; 0; 0; 1; 0; 0; 0; 0; 0; 3; 0; 0; 0; 1; 0; 0; 0; 0; 0; 3; 0; 0; 0; 1; 0;
   0; 0; 0; 0; 3; 0; 0; 0; 1; 0; 0; 0; 0; 0; 3; 0; 0; 0; 1; 0; 0; 0; 0; 0; 3; 0; 0; 0; 1; 0; 0;
   0; 0; 0; 3; 0; 0; 0; 1; 0; 0; 0; 0; 0; 3; 0; 0; 0; 1; 0; 0; 0; 0; 0; 3; 0; 0; 0; 1; 0; 0; 0;
   0; 0; 3; 0; 0; 0; 1; 0; 0; 0; 0; 0; 3; 0; 0; 0; 1; 0; 0; 0; 0; 0; 3; 0; 0; 0; 1; 0; 0; 0; 0;
   0; 3; 0; 0; 0; 1; 0; 0; 0; 0; 0; 3; 0; 0; 0; 1; 0; 0; 0; 0; 0; 3; 0; 0; 0; 1; 0; 0; 0; 0; 0;
   3; 0; 0; 0; 1; 0; 0; 0; 0; 0; 3; 0; 0; 0; 1; 0; 0; 0; 0; 0; 3; 0; 0; 0; 1; 0; 0; 0; 0; 0; 3;
   0; 0; 0; 1; 0; 0; 0; 0; 0; 3; 0; 0; 0; 1; 0; 0; 0; 0; 0; 3; 0; 0; 0; 1; 0; 0; 0; 0; 0; 3; 0;
   0; 0; 1; 0; 0; 0; 0; 0; 3; 0; 0; 0; 1; 0; 0; 0; 0; 0; 3; 0; 0; 0; 1; 0; 0; 0; 0; 0; 3; 0; 0;
   0; 1; 0; 0; 0; 0; 0; 3; 0; 0; 0; 1; 0; 0; 0; 0; 0; 3; 0; 0; 0; 1; 0; 0; 0; 0; 0; 3; 0; 0; 0;
   1; 0; 0; 0; 0; 0; 3; 0; 0; 0; 1; 0; 0; 0; 0; 0; 3; 0; 0; 0; 1; 0; 0; 0; 0; 0; 3; 0; 0; 0; 1;
   0; 0; 0; 0; 0; 3; 0; 0; 0; 1; 0; 0; 0; 0; 0; 3; 0; 0; 0; 1; 0; 0; 0; 0; 0; 3; 0; 0; 0; 1; 0;
   0; 0; 0; 0; 3; 0; 0; 0; 1; 0; 0; 0; 0; 0; 3; 0; 0; 0; 1; 0; 0; 0; 0; 0; 3; 0; 0; 0; 1; 0; 0;
   0; 0; 0; 3; 0; 0; 0; 1; 0; 0; 0; 0; 0; 3; 0; 0; 0; 1; 0; 0; 0; 0; 0; 3; 0; 0; 0; 1; 0; 0; 0;
   0; 0; 3; 0; 0; 0; 1; 0; 0; 0; 0; 0; 3; 0; 0; 0; 1; 0; 0; 0; 0; 0; 3; 0; 0; 0; 1; 0; 0; 0; 0;
   0; 3; 0; 0; 0; 1; 0; 0; 0; 0; 0; 3; 0; 0; 0; 1; 0; 0; 0; 0; 0; 3; 0; 0; 0; 1; 0; 0; 0; 0; 0;
   3; 0; 0; 0; 1; 0; 0; 0; 0; 0; 3; 0; 0; 0; 1; 0; 0; 0; 0; 0; 3; 0; 0; 0; 1; 0; 0; 0; 0; 0; 3;
   0; 0; 0; 1; 0; 0; 0; 0; 0; 3; 0; 0; 0; 1; 0; 0; 0; 0; 0; 3; 0; 0; 0; 1; 0; 0; 0; 0; 0; 3; 0;
   0; 0; 1; 0; 0; 0; 0; 0; 3; 0; 0; 0; 1; 0; 0; 0; 0; 0; 3; 0; 0; 0; 1; 0; 0; 0; 0; 0; 3; 0; 0;
   0; 1; 0; 0; 0; 0; 0; 3; 0; 0; 0; 1; 0; 0; 0; 0; 0; 3; 0; 0; 0; 1; 0; 0; 0; 0; 0; 3; 0; 0; 0;
   1; 0; 0; 0; 0; 0; 3; 0; 0; 0; 1; 0; 0; 0; 0; 0; 3; 0; 0; 0; 1; 0; 0; 0; 0; 0; 3; 0; 0; 0; 1;
   0; 0; 0; 0; 0; 3; 0; 0; 0; 1; 0; 0; 0; 0; 0; 3; 0; 0; 0; 1; 0; 0; 0; 0; 0; 3; 0; 0; 0; 1; 0;
   0; 0; 0; 0; 3; 0; 0; 0; 1; 0; 0; 0; 0; 0; 3; 0; 0; 0; 1; 0; 0; 0; 0; 0; 3; 0; 0; 0; 1; 0; 0;
   0; 0; 0; 3; 0; 0; 0; 1; 0; 0; 0; 0; 0; 3; 0; 0; 0; 1; 0; 0; 0; 0; 0; 3; 0; 0; 0; 1; 0; 0; 0;
   0; 0; 3; 0; 0; 0; 1; 0; 0; 0; 0; 0; 3; 0; 0; 0; 1; 0; 0; 0; 0; 0; 3; 0; 0; 0; 1; 0; 0; 0; 0;
   0; 3; 0; 0; 0; 1; 0; 0; 0; 0; 0; 3; 0; 0; 0; 1; 0; 0; 0; 0; 0; 3; 0; 0; 0; 1; 0; 0; 0; 0; 0;
   3; 0; 0; 0; 1; 0; 0; 0; 0; 0; 3; 0; 0; 0; 1; 0; 0; 0; 0; 0; 3; 0; 0; 0; 1; 0; 0; 0; 0; 0; 3;
   0; 0; 0; 1; 0; 0; 0; 0; 0; 3; 0; 0; 0; 1; 0; 0; 0; 0; 0; 3; 0; 0; 0; 1; 0; 0; 0; 0; 0; 3; 0;
   0; 0; 1; 0; 0; 0; 0; 0; 3; 0; 0; 0; 1; 0; 0; 0; 0; 0; 3; 0; 0; 0; 1; 0; 0; 0; 0; 0; 3; 0; 0;
   0; 1; 0; 0; 0; 0; 0; 3; 0; 0; 0; 1; 0; 0; 0; 0; 0; 3; 0; 0; 0; 1; 0; 0; 0; 0; 0; 3; 0; 0; 0;
   1; 0; 0; 0; 0; 0; 3; 0; 0; 0; 1; 0; 0; 0; 0; 0; 3; 0; 0; 0; 1; 0; 0; 0; 0; 0; 3; 0; 0; 0; 1;
   0; 0; 0; 0; 0; 3; 0; 0; 0; 1; 0; 0; 0; 0; 0; 3; 0; 0; 0; 1; 0; 0; 0; 0; 0; 3; 0; 0; 0; 1; 0;
   0; 0; 0; 0; 3; 0; 0; 0; 1; 0; 0; 0; 0; 0; 3; 0; 0; 0; 1; 0; 0; 0; 0; 0; 3; 0; 0; 0; 1; 0; 0;
   0; 0; 0; 3; 0; 0; 0; 1; 0; 0; 0; 0; 0; 3; 0; 0; 0; 1; 0; 0; 0; 0; 0; 3; 0; 0; 0; 1; 0; 0; 0;
   0; 0; 3; 0; 0; 0; 1; 0; 0; 0; 0; 0].

Definition scene_lines_3 : list Z :=
  [3; 0; 0; 0; 1; 0; 0; 0; 0; 0; 3; 0; 0; 0; 1; 0; 0; 0; 0; 0; 3; 0; 0; 0; 1; 0; 0; 0; 0; 0; 3;
   0; 0; 0; 1; 0; 0; 0; 0; 0; 3; 0; 0; 0; 1; 0; 0; 0; 0; 0; 3; 0; 0; 0; 1; 0; 0; 0; 0; 0; 3; 0;
   0; 0; 1; 0; 0; 0; 0; 0; 3; 0; 0; 0; 1; 0; 0; 0; 0; 0; 3; 0; 0; 0; 1; 0; 0; 0; 0; 0; 3; 0; 0;
   0; 1; 0; 0; 0; 0; 0; 3; 0; 0; 0; 1; 0; 0; 0; 0; 0; 3; 0; 0; 0; 1; 0; 0; 0; 0; 0; 3; 0; 0; 0;
   1; 0; 0; 0; 0; 0; 3; 0; 0; 0; 1; 0; 0; 0; 0; 0; 3; 0; 0; 0; 1; 0; 0; 0; 0; 0; 3; 0; 0; 0; 1;
   0; 0; 0; 0; 0; 3; 0; 0; 0; 1; 0; 0; 0; 0; 0; 3; 0; 0; 0; 1; 0; 0; 0; 0; 0; 3; 0; 0; 0; 1; 0;
   0; 0; 0; 0; 3; 0; 0; 0; 1; 0; 0; 0; 0; 0; 3; 0; 0; 0; 1; 0; 0; 0; 0; 0; 3; 0; 0; 0; 1; 0; 0;
   0; 0; 0; 3; 0; 0; 0; 1; 0; 0; 0; 0; 0; 3; 0; 0; 0; 1; 0; 0; 0; 0; 0; 3; 0; 0; 0; 1; 0; 0; 0;
   0; 0; 3; 0; 0; 0; 1; 0; 0; 0; 0; 0; 3; 0; 0; 0; 1; 0; 0; 0; 0; 0; 3; 0; 0; 0; 1; 0; 0; 0; 0;
   0; 3; 0; 0; 0; 1; 0; 0; 0; 0; 0; 3; 0; 0; 0; 1; 0; 0; 0; 0; 0; 3; 0; 0; 0; 1; 0; 0; 0; 0; 0;
   3; 0; 0; 0; 1; 0; 0; 0; 0; 0; 3; 0; 0; 0; 1; 0; 0; 0; 0; 0; 3; 0; 0; 0; 1; 0; 0; 0; 0; 0; 3;
   0; 0; 0; 1; 0; 0; 0; 0; 0; 3; 0; 0; 0; 1; 0; 0; 0; 0; 0; 3; 0; 0; 0; 1; 0; 0; 0; 0; 0; 3; 0;
   0; 0; 1; 0; 0; 0; 0; 0; 3; 0; 0; 0; 1; 0; 0; 0; 0; 0; 3; 0; 0; 0; 1; 0; 0; 0; 0; 0; 3; 0; 0;
   0; 1; 0; 0; 0; 0; 0; 3; 0; 0; 0; 1; 0; 0; 0; 0; 0; 3; 0; 0; 0; 1; 0; 0; 0; 0; 0; 3; 0; 0; 0;
   1; 0; 0; 0; 0; 0; 3; 0; 0; 0; 1; 0; 0; 0; 0; 0; 3; 0; 0; 0; 1; 0; 0; 0; 0; 0; 3; 0; 0; 0; 1;
   0; 0; 0; 0; 0; 3; 0; 0; 0; 1; 0; 0; 0; 0; 0; 3; 0; 0; 0; 1; 0; 0; 0; 0; 0; 3; 0; 0; 0; 1; 0;
   0; 0; 0; 0; 3; 0; 0; 0; 1; 0; 0; 0; 0; 0; 3; 0; 0; 0; 1; 0; 0; 0; 0; 0; 3; 0; 0; 0; 1; 0; 0;
   0; 0; 0; 3; 0; 0; 0; 1; 0; 0; 0; 0; 0; 3; 0; 0; 0; 1; 0; 0; 0; 0; 0; 3; 0; 0; 0; 1; 0; 0; 0;
   0; 0; 3; 0; 0; 0; 1; 0; 0; 0; 0; 0; 3; 0; 0; 0; 1; 0; 0; 0; 0; 0; 3; 0; 0; 0; 1; 0; 0; 0; 0;
   0; 3; 0; 0; 0; 1; 0; 0; 0; 0; 0; 3; 0; 0; 0; 1; 0; 0; 0; 0; 0; 3; 0; 0; 0; 1; 0; 0; 0; 0; 0;
   3; 0; 0; 0; 1; 0; 0; 0; 0; 0; 3; 0; 0; 0; 1; 0; 0; 0; 0; 0; 3; 0; 0; 0; 1; 0; 0; 0; 0; 0; 3;
   0; 0; 0; 1; 0; 0; 0; 0; 0; 3; 0; 0; 0; 1; 0; 0; 0; 0; 0; 3; 0; 0; 0; 1; 0; 0; 0; 0; 0; 3; 0;
   0; 0; 1; 0; 0; 0; 0; 0; 3; 0; 0; 0; 1; 0; 0; 0; 0; 0; 3; 0; 0; 0; 1; 0; 0; 0; 0; 0; 3; 0; 0;
   0; 1; 0; 0; 0; 0; 0; 3; 0; 0; 0; 1; 0; 0; 0; 0; 0; 3; 0; 0; 0; 1; 0; 0; 0; 0; 0; 3; 0; 0; 0;
   1; 0; 0; 0; 0; 0; 3; 0; 0; 0; 1; 0; 0; 0; 0; 0; 3; 0; 0; 0; 1; 0; 0; 0; 0; 0; 3; 0; 0; 0; 1;
   0; 0; 0; 0; 0; 3; 0; 0; 0; 1; 0; 0; 0; 0; 0; 3; 0; 0; 0; 1; 0; 0; 0; 0; 0; 3; 0; 0; 0; 1; 0;
   0; 0; 0; 0; 3; 0; 0; 0; 1; 0; 0; 0; 0; 0; 3; 0; 0; 0; 1; 0; 0; 0; 0; 0; 3; 0; 0; 0; 1; 0; 0;
   0; 0; 0; 3; 0; 0; 0; 1; 0; 0; 0; 0; 0; 3; 0; 0; 0; 1; 0; 0; 0; 0; 0; 3; 0; 0; 0; 1; 0; 0; 0;
   0; 0; 3; 0; 0; 0; 1; 0; 0; 0; 0; 0; 3; 0; 0; 0; 1; 0; 0; 0; 0; 0; 3; 0; 0; 0; 1; 0; 0; 0; 0;
   0; 3; 0; 0; 0; 1; 0; 0; 0; 0; 0; 3; 0; 0; 0; 1; 0; 0; 0; 0; 0; 3; 0; 0; 0; 1; 0; 0; 0; 0; 0;
   3; 0; 0; 0; 1; 0; 0; 0; 0; 0; 3; 0; 0; 0; 1; 0; 0; 0; 0; 0; 3; 0; 0; 0; 1; 0; 0; 0; 0; 0; 3;
   0; 0; 0; 1; 0; 0; 0; 0; 0; 3; 0; 0; 0; 1; 0; 0; 0; 0; 0; 3; 0; 0; 0; 1; 0; 0; 0; 0; 0; 3; 0;
   0; 0; 1; 0; 0; 0; 0; 0; 3; 0; 0; 0; 1; 0; 0; 0; 0; 0; 3; 0; 0; 0; 1; 0; 0; 0; 0; 0; 3; 0; 0;
   0; 1; 0; 0; 0; 0; 0; 3; 0; 0; 0; 1; 0; 0; 0; 0; 0; 3; 0; 0; 0; 1; 0; 0; 0; 0; 0; 3; 0; 0; 0;
   1; 0; 0; 0; 0; 0; 3; 0; 0; 0; 1; 0; 0; 0; 0; 0; 3; 0; 0; 0; 1; 0; 0; 0; 0; 0; 3; 0; 0; 0; 1;
   0; 0; 0; 0; 0; 3; 0; 0; 0; 1; 0; 0; 0; 0; 0; 3; 0; 0; 0; 1; 0; 0; 0; 0; 0; 3; 0; 0; 0; 1; 0;
   0; 0; 0; 0; 3; 0; 0; 0; 1; 0; 0; 0; 0; 0; 3; 0; 0; 0; 1; 0; 0; 0; 0; 0; 3; 0; 0; 0; 1; 0; 0;
   0; 0; 0; 3; 0; 0; 0; 1; 0; 0; 0; 0; 0; 3; 0; 0; 0; 1; 0; 0; 0; 0; 0; 3; 0; 0; 0; 1; 0; 0; 0;
   0; 0; 3; 0; 0; 0; 1; 0; 0; 0; 0; 0; 3; 0; 0; 0; 1; 0; 0; 0; 0; 0; 3; 0; 0; 0; 1; 0; 0; 0; 0;
   0; 3; 0; 0; 0; 1; 0; 0; 0; 0; 0; 3; 0; 0; 0; 1; 0; 0; 0; 0; 0; 3; 0; 0; 0; 1; 0; 0; 0; 0; 0;
   3; 0; 0; 0; 1; 0; 0; 0; 0; 0; 3; 0; 0; 0; 1; 0; 0; 0; 0; 0; 3; 0; 0; 0; 1; 0; 0; 0; 0; 0; 3;
   0; 0; 0; 1; 0; 0; 0; 0; 0; 3; 0; 0; 0; 1; 0; 0; 0; 0; 0; 3; 0; 0; 0; 1; 0; 0; 0; 0; 0; 3; 0;
   0; 0; 1; 0; 0; 0; 0; 0; 3; 0; 0; 0; 1; 0; 0; 0; 0; 0; 3; 0; 0; 0; 1; 0; 0; 0; 0; 0; 3; 0; 0;
   0; 1; 0; 0; 0; 0; 0; 3; 0; 0; 0; 1; 0; 0; 0; 0; 0; 3; 0; 0; 0; 1; 0; 0; 0; 0; 0; 3; 0; 0; 0;
   1; 0; 0; 0; 0; 0; 3; 0; 0; 0; 1; 0; 0; 0; 0; 0; 3; 0; 0; 0; 1; 0; 0; 0; 0; 0; 3; 0; 0; 0; 1;
   0; 0; 0; 0; 0; 3; 0; 0; 0; 1; 0; 0; 0; 0; 0; 3; 0; 0; 0; 1; 0; 0; 0; 0; 0; 3; 0; 0; 0; 1; 0;
   0; 0; 0; 0; 3; 0; 0; 0; 1; 0; 0; 0; 0; 0; 3; 0; 0; 0; 1; 0; 0; 0; 0; 0; 3; 0; 0; 0; 1; 0; 0;
   0; 0; 0; 3; 0; 0; 0; 1; 0; 0; 0; 0; 0; 3; 0; 0; 0; 1; 0; 0; 0; 0; 0; 3; 0; 0; 0; 1; 0; 0; 0;
   0; 0; 3; 0; 0; 0; 1; 0; 0; 0; 0; 0].

Definition scene_lines_4 : list Z :=
  [3; 0; 0; 0; 1; 0; 0; 0; 0; 0; 3; 0; 0; 0; 1; 0; 0; 0; 0; 0; 3; 0; 0; 0; 1; 0; 0; 0; 0; 0; 3;
   0; 0; 0; 1; 0; 0; 0; 0; 0; 3; 0; 0; 0; 1; 0; 0; 0; 0; 0; 3; 0; 0; 0; 1; 0; 0; 0; 0; 0; 3; 0;
   0; 0; 1; 0; 0; 0; 0; 0; 3; 0; 0; 0; 1; 0; 0; 0; 0; 0; 3; 0; 0; 0; 1; 0; 0; 0; 0; 0; 3; 0; 0;
   0; 1; 0; 0; 0; 0; 0; 3; 0; 0; 0; 1; 0; 0; 0; 0; 0; 3; 0; 0; 0; 1; 0; 0; 0; 0; 0; 3; 0; 0; 0;
   1; 0; 0; 0; 0; 0; 3; 0; 0; 0; 1; 0; 0; 0; 0; 0; 3; 0; 0; 0; 1; 0; 0; 0; 0; 0; 3; 0; 0; 0; 1;
   0; 0; 0; 0; 0; 3; 0; 0; 0; 1; 0; 0; 0; 0; 0; 3; 0; 0; 0; 1; 0; 0; 0; 0; 0; 3; 0; 0; 0; 1; 0;
   0; 0; 0; 0; 3; 0; 0; 0; 1; 0; 0; 0; 0; 0; 3; 0; 0; 0; 1; 0; 0; 0; 0; 0; 3; 0; 0; 0; 1; 0; 0;
   0; 0; 0; 3; 0; 0; 0; 1; 0; 0; 0; 0; 0; 3; 0; 0; 0; 1; 0; 0; 0; 0; 0; 3; 0; 0; 0; 1; 0; 0; 0;
   0; 0; 3; 0; 0; 0; 1; 0; 0; 0; 0; 0; 3; 0; 0; 0; 1; 0; 0; 0; 0; 0; 3; 0; 0; 0; 1; 0; 0; 0; 0;
   0; 3; 0; 0; 0; 1; 0; 0; 0; 0; 0; 3; 0; 0; 0; 1; 0; 0; 0; 0; 0; 3; 0; 0; 0; 1; 0; 0; 0; 0; 0;
   3; 0; 0; 0; 1; 0; 0; 0; 0; 0; 3; 0; 0; 0; 1; 0; 0; 0; 0; 0; 3; 0; 0; 0; 1; 0; 0; 0; 0; 0; 3;
   0; 0; 0; 1; 0; 0; 0; 0; 0; 3; 0; 0; 0; 1; 0; 0; 0; 0; 0; 3; 0; 0; 0; 1; 0; 0; 0; 0; 0; 3; 0;
   0; 0; 1; 0; 0; 0; 0; 0; 3; 0; 0; 0; 1; 0; 0; 0; 0; 0; 3; 0; 0; 0; 1; 0; 0; 0; 0; 0; 3; 0; 0;
   0; 1; 0; 0; 0; 0; 0; 3; 0; 0; 0; 1; 0; 0; 0; 0; 0; 3; 0; 0; 0; 1; 0; 0; 0; 0; 0; 3; 0; 0; 0;
   1; 0; 0; 0; 0; 0; 3; 0; 0; 0; 1; 0; 0; 0; 0; 0; 3; 0; 0; 0; 1; 0; 0; 0; 0; 0; 3; 0; 0; 0; 1;
   0; 0; 0; 0; 0; 3; 0; 0; 0; 1; 0; 0; 0; 0; 0; 3; 0; 0; 0; 1; 0; 0; 0; 0; 0; 3; 0; 0; 0; 1; 0;
   0; 0; 0; 0; 3; 0; 0; 0; 1; 0; 0; 0; 0; 0; 3; 0; 0; 0; 1; 0; 0; 0; 0; 0; 3; 0; 0; 0; 1; 0; 0;
   0; 0; 0; 3; 0; 0; 0; 1; 0; 0; 0; 0; 0; 3; 0; 0; 0; 1; 0; 0; 0; 0; 0; 3; 0; 0; 0; 1; 0; 0; 0;
   0; 0; 3; 0; 0; 0; 1; 0; 0; 0; 0; 0; 3; 0; 0; 0; 1; 0; 0; 0; 0; 0; 3; 0; 0; 0; 1; 0; 0; 0; 0;
   0; 3; 0; 0; 0; 1; 0; 0; 0; 0; 0; 3; 0; 0; 0; 1; 0; 0; 0; 0; 0; 3; 0; 0; 0; 1; 0; 0; 0; 0; 0;
   3; 0; 0; 0; 1; 0; 0; 0; 0; 0; 3; 0; 0; 0; 1; 0; 0; 0; 0; 0; 3; 0; 0; 0; 1; 0; 0; 0; 0; 0; 3;
   0; 0; 0; 1; 0; 0; 0; 0; 0; 3; 0; 0; 0; 1; 0; 0; 0; 0; 0; 3; 0; 0; 0; 1; 0; 0; 0; 0; 0; 3; 0;
   0; 0; 1; 0; 0; 0; 0; 0; 3; 0; 0; 0; 1; 0; 0; 0; 0; 0; 3; 0; 0; 0; 1; 0; 0; 0; 0; 0; 3; 0; 0;
   0; 1; 0; 0; 0; 0; 0; 3; 0; 0; 0; 1; 0; 0; 0; 0; 0; 3; 0; 0; 0; 1; 0; 0; 0; 0; 0; 3; 0; 0; 0;
   1; 0; 0; 0; 0; 0; 3; 0; 0; 0; 1; 0; 0; 0; 0; 0; 3; 0; 0; 0; 1; 0; 0; 0; 0; 0; 3; 0; 0; 0; 1;
   0; 0; 0; 0; 0; 3; 0; 0; 0; 1; 0; 0; 0; 0; 0; 3; 0; 0; 0; 1; 0; 0; 0; 0; 0; 3; 0; 0; 0; 1; 0;
   0; 0; 0; 0; 3; 0; 0; 0; 1; 0; 0; 0; 0; 0; 3; 0; 0; 0; 1; 0; 0; 0; 0; 0; 3; 0; 0; 0; 1; 0; 0;
   0; 0; 0; 3; 0; 0; 0; 1; 0; 0; 0; 0; 0; 3; 0; 0; 0; 1; 0; 0; 0; 0; 0; 3; 0; 0; 0; 1; 0; 0; 0;
   0; 0; 3; 0; 0; 0; 1; 0; 0; 0; 0; 0; 3; 0; 0; 0; 1; 0; 0; 0; 0; 0; 3; 0; 0; 0; 1; 0; 0; 0; 0;
   0; 3; 0; 0; 0; 1; 0; 0; 0; 0; 0; 3; 0; 0; 0; 1; 0; 0; 0; 0; 0; 3; 0; 0; 0; 1; 0; 0; 0; 0; 0;
   3; 0; 0; 0; 1; 0; 0; 0; 0; 0; 3; 0; 0; 0; 1; 0; 0; 0; 0; 0; 3; 0; 0; 0; 1; 0; 0; 0; 0; 0; 3;
   0; 0; 0; 1; 0; 0; 0; 0; 0; 3; 0; 0; 0; 1; 0; 0; 0; 0; 0; 3; 0; 0; 0; 1; 0; 0; 0; 0; 0; 3; 0;
   0; 0; 1; 0; 0; 0; 0; 0; 3; 0; 0; 0; 1; 0; 0; 0; 0; 0; 3; 0; 0; 0; 1; 0; 0; 0; 0; 0; 3; 0; 0;
   0; 1; 0; 0; 0; 0; 0; 3; 0; 0; 0; 1; 0; 0; 0; 0; 0; 3; 0; 0; 0; 1; 0; 0; 0; 0; 0; 3; 0; 0; 0;
   1; 0; 0; 0; 0; 0; 3; 0; 0; 0; 1; 0; 0; 0; 0; 0; 3; 0; 0; 0; 1; 0; 0; 0; 0; 0; 3; 0; 0; 0; 1;
   0; 0; 0; 0; 0; 3; 0; 0; 0; 1; 0; 0; 0; 0; 0; 3; 0; 0; 0; 1; 0; 0; 0; 0; 0; 3; 0; 0; 0; 1; 0;
   0; 0; 0; 0; 3; 0; 0; 0; 1; 0; 0; 0; 0; 0; 3; 0; 0; 0; 1; 0; 0; 0; 0; 0; 3; 0; 0; 0; 1; 0; 0;
   0; 0; 0; 3; 0; 0; 0; 1; 0; 0; 0; 0; 0; 3; 0; 0; 0; 1; 0; 0; 0; 0; 0; 3; 0; 0; 0; 1; 0; 0; 0;
   0; 0; 3; 0; 0; 0; 1; 0; 0; 0; 0; 0; 3; 0; 0; 0; 1; 0; 0; 0; 0; 0; 3; 0; 0; 0; 1; 0; 0; 0; 0;
   0; 3; 0; 0; 0; 1; 0; 0; 0; 0; 0; 3; 0; 0; 0; 1; 0; 0; 0; 0; 0; 3; 0; 0; 0; 1; 0; 0; 0; 0; 0;
   3; 0; 0; 0; 1; 0; 0; 0; 0; 0; 3; 0; 0; 0; 1; 0; 0; 0; 0; 0; 3; 0; 0; 0; 1; 0; 0; 0; 0; 0; 3;
   0; 0; 0; 1; 0; 0; 0; 0; 0; 3; 0; 0; 0; 1; 0; 0; 0; 0; 0; 3; 0; 0; 0; 1; 0; 0; 0; 0; 0; 3; 0;
   0; 0; 1; 0; 0; 0; 0; 0; 3; 0; 0; 0; 1; 0; 0; 0; 0; 0; 3; 0; 0; 0; 1; 0; 0; 0; 0; 0; 3; 0; 0;
   0; 1; 0; 0; 0; 0; 0; 3; 0; 0; 0; 1; 0; 0; 0; 0; 0; 3; 0; 0; 0; 1; 0; 0; 0; 0; 0; 3; 0; 0; 0;
   1; 0; 0; 0; 0; 0; 3; 0; 0; 0; 1; 0; 0; 0; 0; 0; 3; 0; 0; 0; 1; 0; 0; 0; 0; 0; 3; 0; 0; 0; 1;
   0; 0; 0; 0; 0; 3; 0; 0; 0; 1; 0; 0; 0; 0; 0; 3; 0; 0; 0; 1; 0; 0; 0; 0; 0; 3; 0; 0; 0; 1; 0;
   0; 0; 0; 0; 3; 0; 0; 0; 1; 0; 0; 0; 0; 0; 3; 0; 0; 0; 1; 0; 0; 0; 0; 0; 3; 0; 0; 0; 1; 0; 0;
   0; 0; 0; 3; 0; 0; 0; 1; 0; 0; 0; 0; 0; 3; 0; 0; 0; 1; 0; 0; 0; 0; 0; 3; 0; 0; 0; 1; 0; 0; 0;
   0; 0; 3; 0; 0; 0; 1; 0; 0; 0; 0; 0].

Definition scene_lines_5 : list Z :=
  [3; 0; 0; 0; 1; 0; 0; 0; 0; 0; 3; 0; 0; 0; 1; 0; 0; 0; 0; 0; 3; 0; 0; 0; 1; 0; 0; 0; 0; 0; 3;
   0; 0; 0; 1; 0; 0; 0; 0; 0; 3; 0; 0; 0; 1; 0; 0; 0; 0; 0; 3; 0; 0; 0; 1; 0; 0; 0; 0; 0; 3; 0;
   0; 0; 1; 0; 0; 0; 0; 0; 3; 0; 0; 0; 1; 0; 0; 0; 0; 0; 3; 0; 0; 0; 1; 0; 0; 0; 0; 0; 3; 0; 0;
   0; 1; 0; 0; 0; 0; 0; 3; 0; 0; 0; 1; 0; 0; 0; 0; 0; 3; 0; 0; 0; 1; 0; 0; 0; 0; 0; 3; 0; 0; 0;
   1; 0; 0; 0; 0; 0; 3; 0; 0; 0; 1; 0; 0; 0; 0; 0; 3; 0; 0; 0; 1; 0; 0; 0; 0; 0; 3; 0; 0; 0; 1;
   0; 0; 0; 0; 0; 3; 0; 0; 0; 1; 0; 0; 0; 0; 0; 3; 0; 0; 0; 1; 0; 0; 0; 0; 0; 3; 0; 0; 0; 1; 0;
   0; 0; 0; 0; 3; 0; 0; 0; 1; 0; 0; 0; 0; 0; 3; 0; 0; 0; 1; 0; 0; 0; 0; 0; 3; 0; 0; 0; 1; 0; 0;
   0; 0; 0; 3; 0; 0; 0; 1; 0; 0; 0; 0; 0; 3; 0; 0; 0; 1; 0; 0; 0; 0; 0; 3; 0; 0; 0; 1; 0; 0; 0;
   0; 0; 3; 0; 0; 0; 1; 0; 0; 0; 0; 0; 3; 0; 0; 0; 1; 0; 0; 0; 0; 0; 3; 0; 0; 0; 1; 0; 0; 0; 0;
   0; 3; 0; 0; 0; 1; 0; 0; 0; 0; 0; 3; 0; 0; 0; 1; 0; 0; 0; 0; 0; 3; 0; 0; 0; 1; 0; 0; 0; 0; 0;
   3; 0; 0; 0; 1; 0; 0; 0; 0; 0; 3; 0; 0; 0; 1; 0; 0; 0; 0; 0; 3; 0; 0; 0; 1; 0; 0; 0; 0; 0; 3;
   0; 0; 0; 1; 0; 0; 0; 0; 0; 3; 0; 0; 0; 1; 0; 0; 0; 0; 0; 3; 0; 0; 0; 1; 0; 0; 0; 0; 0; 3; 0;
   0; 0; 1; 0; 0; 0; 0; 0; 3; 0; 0; 0; 1; 0; 0; 0; 0; 0; 3; 0; 0; 0; 1; 0; 0; 0; 0; 0; 3; 0; 0;
   0; 1; 0; 0; 0; 0; 0; 3; 0; 0; 0; 1; 0; 0; 0; 0; 0; 3; 0; 0; 0; 1; 0; 0; 0; 0; 0; 3; 0; 0; 0;
   1; 0; 0; 0; 0; 0; 3; 0; 0; 0; 1; 0; 0; 0; 0; 0; 3; 0; 0; 0; 1; 0; 0; 0; 0; 0; 3; 0; 0; 0; 1;
   0; 0; 0; 0; 0; 3; 0; 0; 0; 1; 0; 0; 0; 0; 0; 3; 0; 0; 0; 1; 0; 0; 0; 0; 0; 3; 0; 0; 0; 1; 0;
   0; 0; 0; 0; 3; 0; 0; 0; 1; 0; 0; 0; 0; 0; 3; 0; 0; 0; 1; 0; 0; 0; 0; 0; 3; 0; 0; 0; 1; 0; 0;
   0; 0; 0; 3; 0; 0; 0; 1; 0; 0; 0; 0; 0; 3; 0; 0; 0; 1; 0; 0; 0; 0; 0; 3; 0; 0; 0; 1; 0; 0; 0;
   0; 0; 3; 0; 0; 0; 1; 0; 0; 0; 0; 0; 3; 0; 0; 0; 1; 0; 0; 0; 0; 0; 3; 0; 0; 0; 1; 0; 0; 0; 0;
   0; 3; 0; 0; 0; 1; 0; 0; 0; 0; 0; 3; 0; 0; 0; 1; 0; 0; 0; 0; 0; 3; 0; 0; 0; 1; 0; 0; 0; 0; 0;
   3; 0; 0; 0; 1; 0; 0; 0; 0; 0; 3; 0; 0; 0; 1; 0; 0; 0; 0; 0; 3; 0; 0; 0; 1; 0; 0; 0; 0; 0; 3;
   0; 0; 0; 1; 0; 0; 0; 0; 0; 3; 0; 0; 0; 1; 0; 0; 0; 0; 0; 3; 0; 0; 0; 1; 0; 0; 0; 0; 0; 3; 0;
   0; 0; 1; 0; 0; 0; 0; 0; 3; 0; 0; 0; 1; 0; 0; 0; 0; 0; 3; 0; 0; 0; 1; 0; 0; 0; 0; 0; 3; 0; 0;
   0; 1; 0; 0; 0; 0; 0; 3; 0; 0; 0; 1; 0; 0; 0; 0; 0; 3; 0; 0; 0; 1; 0; 0; 0; 0; 0; 3; 0; 0; 0;
   1; 0; 0; 0; 0; 0; 3; 0; 0; 0; 1; 0; 0; 0; 0; 0; 3; 0; 0; 0; 1; 0; 0; 0; 0; 0; 3; 0; 0; 0; 1;
   0; 0; 0; 0; 0; 3; 0; 0; 0; 1; 0; 0; 0; 0; 0; 3; 0; 0; 0; 1; 0; 0; 0; 0; 0; 3; 0; 0; 0; 1; 0;
   0; 0; 0; 0; 3; 0; 0; 0; 1; 0; 0; 0; 0; 0; 3; 0; 0; 0; 1; 0; 0; 0; 0; 0; 3; 0; 0; 0; 1; 0; 0;
   0; 0; 0; 3; 0; 0; 0; 1; 0; 0; 0; 0; 0; 3; 0; 0; 0; 1; 0; 0; 0; 0; 0; 3; 0; 0; 0; 1; 0; 0; 0;
   0; 0; 3; 0; 0; 0; 1; 0; 0; 0; 0; 0; 3; 0; 0; 0; 1; 0; 0; 0; 0; 0; 3; 0; 0; 0; 1; 0; 0; 0; 0;
   0; 3; 0; 0; 0; 1; 0; 0; 0; 0; 0; 3; 0; 0; 0; 1; 0; 0; 0; 0; 0; 3; 0; 0; 0; 1; 0; 0; 0; 0; 0;
   3; 0; 0; 0; 1; 0; 0; 0; 0; 0; 3; 0; 0; 0; 1; 0; 0; 0; 0; 0; 3; 0; 0; 0; 1; 0; 0; 0; 0; 0; 3;
   0; 0; 0; 1; 0; 0; 0; 0; 0; 3; 0; 0; 0; 1; 0; 0; 0; 0; 0; 3; 0; 0; 0; 1; 0; 0; 0; 0; 0; 3; 0;
   0; 0; 1; 0; 0; 0; 0; 0; 3; 0; 0; 0; 1; 0; 0; 0; 0; 0; 3; 0; 0; 0; 1; 0; 0; 0; 0; 0; 3; 0; 0;
   0; 1; 0; 0; 0; 0; 0; 3; 0; 0; 0; 1; 0; 0; 0; 0; 0; 3; 0; 0; 0; 1; 0; 0; 0; 0; 0; 3; 0; 0; 0;
   1; 0; 0; 0; 0; 0; 3; 0; 0; 0; 1; 0; 0; 0; 0; 0; 3; 0; 0; 0; 1; 0; 0; 0; 0; 0; 3; 0; 0; 0; 1;
   0; 0; 0; 0; 0; 3; 0; 0; 0; 1; 0; 0; 0; 0; 0; 3; 0; 0; 0; 1; 0; 0; 0; 0; 0; 3; 0; 0; 0; 1; 0;
   0; 0; 0; 0; 3; 0; 0; 0; 1; 0; 0; 0; 0; 0; 3; 0; 0; 0; 1; 0; 0; 0; 0; 0; 3; 0; 0; 0; 1; 0; 0;
   0; 0; 0; 3; 0; 0; 0; 1; 0; 0; 0; 0; 0; 3; 0; 0; 0; 1; 0; 0; 0; 0; 0; 3; 0; 0; 0; 1; 0; 0; 0;
   0; 0; 3; 0; 0; 0; 1; 0; 0; 0; 0; 0; 3; 0; 0; 0; 1; 0; 0; 0; 0; 0; 3; 0; 0; 0; 1; 0; 0; 0; 0;
   0; 3; 0; 0; 0; 1; 0; 0; 0; 0; 0; 3; 0; 0; 0; 1; 0; 0; 0; 0; 0; 3; 0; 0; 0; 1; 0; 0; 0; 0; 0;
   3; 0; 0; 0; 1; 0; 0; 0; 0; 0; 3; 0; 0; 0; 1; 0; 0; 0; 0; 0; 3; 0; 0; 0; 1; 0; 0; 0; 0; 0; 3;
   0; 0; 0; 1; 0; 0; 0; 0; 0; 3; 0; 0; 0; 1; 0; 0; 0; 0; 0; 3; 0; 0; 0; 1; 0; 0; 0; 0; 0; 3; 0;
   0; 0; 1; 0; 0; 0; 0; 0; 3; 0; 0; 0; 1; 0; 0; 0; 0; 0; 3; 0; 0; 0; 1; 0; 0; 0; 0; 0; 3; 0; 0;
   0; 1; 0; 0; 0; 0; 0; 3; 0; 0; 0; 1; 0; 0; 0; 0; 0; 3; 0; 0; 0; 1; 0; 0; 0; 0; 0; 3; 0; 0; 0;
   1; 0; 0; 0; 0; 0; 3; 0; 0; 0; 1; 0; 0; 0; 0; 0; 3; 0; 0; 0; 1; 0; 0; 0; 0; 0; 3; 0; 0; 0; 1;
   0; 0; 0; 0; 0; 0; 0; 0; 0].

Definition reac_scene_placeholder : list Z :=
  scene_lines_0 ++ scene_lines_1 ++ scene_lines_2 ++ scene_lines_3 ++ scene_lines_4 ++ scene_lines_5.

Definition REAC_SCENE_TAG_ID_OFF : Z := 0x000.
Definition REAC_SCENE_TAG_SYSP_OFF : Z := 0x368.
Definition REAC_SCENE_TAG_SCEN_OFF : Z := 0x37c.

(** * Properties *)

Lemma scene_placeholder_len : zlen reac_scene_placeholder = REAC_SCENE_BYTES.
Proof. vm_compute. done. Qed.

(** The shipped body is a whole one, made of bytes, with the three tags a box's
    commit validates at their offsets; its revision word is 1, not the 0 the
    master's comment gives it. *)
Lemma scene_placeholder_shape :
  forallb (λ b, (0 <=? b) && (b <? 256)) reac_scene_placeholder = true ∧
  slice reac_scene_placeholder REAC_SCENE_TAG_ID_OFF 4 = [0x31; 0x32; 0x33; 0x34] ∧
  slice reac_scene_placeholder REAC_SCENE_TAG_SYSP_OFF 4 = [0x53; 0x59; 0x53; 0x50] ∧
  slice reac_scene_placeholder REAC_SCENE_TAG_SCEN_OFF 4 = [0x53; 0x43; 0x45; 0x4e] ∧
  slice reac_scene_placeholder REAC_SCENE_REVISION_OFF 2 = [1; 0].
Proof. vm_compute. done. Qed.
