(* ===== verification/Master.v ===== *)
(** * Master: the master role

    Models [src/reac_master.c] and [include/reac/reac_master.h]: the generated
    announce, enrol and channel-map blocks, the establishment state machine's
    entry actions, the slot-by-slot control cadence and the stamping of a frame.
    Each C function is one definition over the whole [struct reac_master].

    The head-amp table is BORROWED by the master, so the state holds only whether
    the pointer is set and every operation that reads it takes the table as it
    is at that moment. The process-wide tunables are the argument [tn]. *)

From S2P Require Import Prelude Wire CtrlBlk CtrlFrames HeadampTx Grant MasterFsm Scene.
Local Open Scope Z_scope.

Definition REAC_M_LINKCHECK_SECONDS_X10 : Z := 65.
Definition REAC_M_PRESENCE_TIMEOUT : Z := 600.
Definition REAC_M_BURST_PER_SEC : Z := 500.
Definition REAC_M_GRANT_STRIDE : Z := 12.
Definition REAC_M_GRANT_DWELL_SECONDS_X10 : Z := 16.
Definition REAC_M_CHANMAP_RING : Z := 49.
Definition REAC_M_IDENTITY_POLLS : Z := 10.
Definition REAC_ENROLL_DEFAULT_WIDTH : Z := 32.
Definition REAC_ENROLL_CONSOLE_IDX : Z := 8.
Definition ANNOUNCE_MAC_IDX : Z := 11.

Inductive reac_master_emit :=
| REAC_M_EMIT_FILLER | REAC_M_EMIT_SCENE_CHUNK | REAC_M_EMIT_SCENE_HEAD | REAC_M_EMIT_SCENE_TAIL
| REAC_M_EMIT_GRANT | REAC_M_EMIT_ENROLL | REAC_M_EMIT_CHANMAP | REAC_M_EMIT_ANNOUNCE
| REAC_M_EMIT_IDENTITY_POLL.
#[global] Instance reac_master_emit_eq_dec : EqDecision reac_master_emit.
Proof. solve_decision. Defined.

Record reac_console_cfg := ConsoleCfg { out_channels : Z; console_field : Z }.
Definition REAC_CONSOLE_CFG_IDLE : reac_console_cfg := ConsoleCfg 8 0.

Record reac_master_tunables := MasterTunables {
  tn_grant_on_declare : bool; tn_grant_dwell_ms : Z; tn_grant_dwell_s : Z;
  tn_no_enroll : bool; tn_est_scene : bool
}.
Definition REAC_MASTER_TUNABLES_DEFAULT : reac_master_tunables :=
  MasterTunables true 0 0 false false.

#[projections(primitive)]
Record reac_master := ReacMaster {
  m_state : reac_master_state;
  m_src : list Z;
  m_counter : Z;
  m_fps : Z;
  m_grant_frames : Z;
  m_grant_stride : Z;
  m_cfg : reac_console_cfg;
  m_chanmap_nframes : Z;
  m_chanmap : list (list Z);
  m_cycle_len : Z;
  m_cycle_pos : Z;
  m_probe_stride : Z;
  m_burst_end : Z;
  m_sub02_off : Z;
  m_chanmap_off : Z;
  m_sub01_off : Z;
  m_scene_step : Z;
  m_announce_tick : Z;
  m_scene : list Z;
  m_scene_blk : list Z;
  m_filler_desc : Z;
  m_commit_seen : bool;
  m_scene_inflight : bool;
  m_scene_complete : Z;
  m_join_held : bool;
  m_join_ev : reac_master_rx_event;
  m_join_src : list Z;
  m_join_hold_blk : list Z;
  m_join_has_blk : bool;
  m_grant_ticks : Z;
  m_enroll_sent_tick : Z;
  m_dwell_ended_tick : Z;
  m_enroll_pending : bool;
  m_grant_dwell : Z;
  m_alloc : reac_grant_alloc;
  m_grant_burst : list (list Z);
  m_grant_burst_len : Z;
  m_headamp_src : bool;
  m_join_blk : list Z;
  m_box_mac : list Z;
  m_session_seq : Z;
  m_grant_attempts : Z;
  m_chanmap_cursor : Z;
  m_est_chanmap_tick : Z;
  m_link_check : Z;
  m_link_check_reload : Z;
  m_box_seen : bool;
  m_presence_tick : Z;
  m_drop_reason : reac_master_drop_reason;
  m_announce_blk : list Z;
  m_enroll_blk : list Z;
  m_identity_complete : bool;
  m_identity_polls : Z;
  m_identity_poll_left : Z;
  m_identity_poll_slot : Z
}.

Definition set_m_state (v : reac_master_state) (r : reac_master) : reac_master :=
  ReacMaster v (m_src r) (m_counter r) (m_fps r) (m_grant_frames r) (m_grant_stride r)
    (m_cfg r) (m_chanmap_nframes r) (m_chanmap r) (m_cycle_len r) (m_cycle_pos r)
    (m_probe_stride r) (m_burst_end r) (m_sub02_off r) (m_chanmap_off r) (m_sub01_off r)
    (m_scene_step r) (m_announce_tick r) (m_scene r) (m_scene_blk r) (m_filler_desc r)
    (m_commit_seen r) (m_scene_inflight r) (m_scene_complete r) (m_join_held r) (m_join_ev r)
    (m_join_src r) (m_join_hold_blk r) (m_join_has_blk r) (m_grant_ticks r)
    (m_enroll_sent_tick r) (m_dwell_ended_tick r) (m_enroll_pending r) (m_grant_dwell r)
    (m_alloc r) (m_grant_burst r) (m_grant_burst_len r) (m_headamp_src r) (m_join_blk r)
    (m_box_mac r) (m_session_seq r) (m_grant_attempts r) (m_chanmap_cursor r)
    (m_est_chanmap_tick r) (m_link_check r) (m_link_check_reload r) (m_box_seen r)
    (m_presence_tick r) (m_drop_reason r) (m_announce_blk r) (m_enroll_blk r)
    (m_identity_complete r) (m_identity_polls r) (m_identity_poll_left r)
    (m_identity_poll_slot r).
Definition set_m_src (v : list Z) (r : reac_master) : reac_master :=
  ReacMaster (m_state r) v (m_counter r) (m_fps r) (m_grant_frames r) (m_grant_stride r)
    (m_cfg r) (m_chanmap_nframes r) (m_chanmap r) (m_cycle_len r) (m_cycle_pos r)
    (m_probe_stride r) (m_burst_end r) (m_sub02_off r) (m_chanmap_off r) (m_sub01_off r)
    (m_scene_step r) (m_announce_tick r) (m_scene r) (m_scene_blk r) (m_filler_desc r)
    (m_commit_seen r) (m_scene_inflight r) (m_scene_complete r) (m_join_held r) (m_join_ev r)
    (m_join_src r) (m_join_hold_blk r) (m_join_has_blk r) (m_grant_ticks r)
    (m_enroll_sent_tick r) (m_dwell_ended_tick r) (m_enroll_pending r) (m_grant_dwell r)
    (m_alloc r) (m_grant_burst r) (m_grant_burst_len r) (m_headamp_src r) (m_join_blk r)
    (m_box_mac r) (m_session_seq r) (m_grant_attempts r) (m_chanmap_cursor r)
    (m_est_chanmap_tick r) (m_link_check r) (m_link_check_reload r) (m_box_seen r)
    (m_presence_tick r) (m_drop_reason r) (m_announce_blk r) (m_enroll_blk r)
    (m_identity_complete r) (m_identity_polls r) (m_identity_poll_left r)
    (m_identity_poll_slot r).
Definition set_m_counter (v : Z) (r : reac_master) : reac_master :=
  ReacMaster (m_state r) (m_src r) v (m_fps r) (m_grant_frames r) (m_grant_stride r)
    (m_cfg r) (m_chanmap_nframes r) (m_chanmap r) (m_cycle_len r) (m_cycle_pos r)
    (m_probe_stride r) (m_burst_end r) (m_sub02_off r) (m_chanmap_off r) (m_sub01_off r)
    (m_scene_step r) (m_announce_tick r) (m_scene r) (m_scene_blk r) (m_filler_desc r)
    (m_commit_seen r) (m_scene_inflight r) (m_scene_complete r) (m_join_held r) (m_join_ev r)
    (m_join_src r) (m_join_hold_blk r) (m_join_has_blk r) (m_grant_ticks r)
    (m_enroll_sent_tick r) (m_dwell_ended_tick r) (m_enroll_pending r) (m_grant_dwell r)
    (m_alloc r) (m_grant_burst r) (m_grant_burst_len r) (m_headamp_src r) (m_join_blk r)
    (m_box_mac r) (m_session_seq r) (m_grant_attempts r) (m_chanmap_cursor r)
    (m_est_chanmap_tick r) (m_link_check r) (m_link_check_reload r) (m_box_seen r)
    (m_presence_tick r) (m_drop_reason r) (m_announce_blk r) (m_enroll_blk r)
    (m_identity_complete r) (m_identity_polls r) (m_identity_poll_left r)
    (m_identity_poll_slot r).
Definition set_m_fps (v : Z) (r : reac_master) : reac_master :=
  ReacMaster (m_state r) (m_src r) (m_counter r) v (m_grant_frames r) (m_grant_stride r)
    (m_cfg r) (m_chanmap_nframes r) (m_chanmap r) (m_cycle_len r) (m_cycle_pos r)
    (m_probe_stride r) (m_burst_end r) (m_sub02_off r) (m_chanmap_off r) (m_sub01_off r)
    (m_scene_step r) (m_announce_tick r) (m_scene r) (m_scene_blk r) (m_filler_desc r)
    (m_commit_seen r) (m_scene_inflight r) (m_scene_complete r) (m_join_held r) (m_join_ev r)
    (m_join_src r) (m_join_hold_blk r) (m_join_has_blk r) (m_grant_ticks r)
    (m_enroll_sent_tick r) (m_dwell_ended_tick r) (m_enroll_pending r) (m_grant_dwell r)
    (m_alloc r) (m_grant_burst r) (m_grant_burst_len r) (m_headamp_src r) (m_join_blk r)
    (m_box_mac r) (m_session_seq r) (m_grant_attempts r) (m_chanmap_cursor r)
    (m_est_chanmap_tick r) (m_link_check r) (m_link_check_reload r) (m_box_seen r)
    (m_presence_tick r) (m_drop_reason r) (m_announce_blk r) (m_enroll_blk r)
    (m_identity_complete r) (m_identity_polls r) (m_identity_poll_left r)
    (m_identity_poll_slot r).
Definition set_m_grant_frames (v : Z) (r : reac_master) : reac_master :=
  ReacMaster (m_state r) (m_src r) (m_counter r) (m_fps r) v (m_grant_stride r) (m_cfg r)
    (m_chanmap_nframes r) (m_chanmap r) (m_cycle_len r) (m_cycle_pos r) (m_probe_stride r)
    (m_burst_end r) (m_sub02_off r) (m_chanmap_off r) (m_sub01_off r) (m_scene_step r)
    (m_announce_tick r) (m_scene r) (m_scene_blk r) (m_filler_desc r) (m_commit_seen r)
    (m_scene_inflight r) (m_scene_complete r) (m_join_held r) (m_join_ev r) (m_join_src r)
    (m_join_hold_blk r) (m_join_has_blk r) (m_grant_ticks r) (m_enroll_sent_tick r)
    (m_dwell_ended_tick r) (m_enroll_pending r) (m_grant_dwell r) (m_alloc r)
    (m_grant_burst r) (m_grant_burst_len r) (m_headamp_src r) (m_join_blk r) (m_box_mac r)
    (m_session_seq r) (m_grant_attempts r) (m_chanmap_cursor r) (m_est_chanmap_tick r)
    (m_link_check r) (m_link_check_reload r) (m_box_seen r) (m_presence_tick r)
    (m_drop_reason r) (m_announce_blk r) (m_enroll_blk r) (m_identity_complete r)
    (m_identity_polls r) (m_identity_poll_left r) (m_identity_poll_slot r).
Definition set_m_grant_stride (v : Z) (r : reac_master) : reac_master :=
  ReacMaster (m_state r) (m_src r) (m_counter r) (m_fps r) (m_grant_frames r) v (m_cfg r)
    (m_chanmap_nframes r) (m_chanmap r) (m_cycle_len r) (m_cycle_pos r) (m_probe_stride r)
    (m_burst_end r) (m_sub02_off r) (m_chanmap_off r) (m_sub01_off r) (m_scene_step r)
    (m_announce_tick r) (m_scene r) (m_scene_blk r) (m_filler_desc r) (m_commit_seen r)
    (m_scene_inflight r) (m_scene_complete r) (m_join_held r) (m_join_ev r) (m_join_src r)
    (m_join_hold_blk r) (m_join_has_blk r) (m_grant_ticks r) (m_enroll_sent_tick r)
    (m_dwell_ended_tick r) (m_enroll_pending r) (m_grant_dwell r) (m_alloc r)
    (m_grant_burst r) (m_grant_burst_len r) (m_headamp_src r) (m_join_blk r) (m_box_mac r)
    (m_session_seq r) (m_grant_attempts r) (m_chanmap_cursor r) (m_est_chanmap_tick r)
    (m_link_check r) (m_link_check_reload r) (m_box_seen r) (m_presence_tick r)
    (m_drop_reason r) (m_announce_blk r) (m_enroll_blk r) (m_identity_complete r)
    (m_identity_polls r) (m_identity_poll_left r) (m_identity_poll_slot r).
Definition set_m_cfg (v : reac_console_cfg) (r : reac_master) : reac_master :=
  ReacMaster (m_state r) (m_src r) (m_counter r) (m_fps r) (m_grant_frames r)
    (m_grant_stride r) v (m_chanmap_nframes r) (m_chanmap r) (m_cycle_len r) (m_cycle_pos r)
    (m_probe_stride r) (m_burst_end r) (m_sub02_off r) (m_chanmap_off r) (m_sub01_off r)
    (m_scene_step r) (m_announce_tick r) (m_scene r) (m_scene_blk r) (m_filler_desc r)
    (m_commit_seen r) (m_scene_inflight r) (m_scene_complete r) (m_join_held r) (m_join_ev r)
    (m_join_src r) (m_join_hold_blk r) (m_join_has_blk r) (m_grant_ticks r)
    (m_enroll_sent_tick r) (m_dwell_ended_tick r) (m_enroll_pending r) (m_grant_dwell r)
    (m_alloc r) (m_grant_burst r) (m_grant_burst_len r) (m_headamp_src r) (m_join_blk r)
    (m_box_mac r) (m_session_seq r) (m_grant_attempts r) (m_chanmap_cursor r)
    (m_est_chanmap_tick r) (m_link_check r) (m_link_check_reload r) (m_box_seen r)
    (m_presence_tick r) (m_drop_reason r) (m_announce_blk r) (m_enroll_blk r)
    (m_identity_complete r) (m_identity_polls r) (m_identity_poll_left r)
    (m_identity_poll_slot r).
Definition set_m_chanmap_nframes (v : Z) (r : reac_master) : reac_master :=
  ReacMaster (m_state r) (m_src r) (m_counter r) (m_fps r) (m_grant_frames r)
    (m_grant_stride r) (m_cfg r) v (m_chanmap r) (m_cycle_len r) (m_cycle_pos r)
    (m_probe_stride r) (m_burst_end r) (m_sub02_off r) (m_chanmap_off r) (m_sub01_off r)
    (m_scene_step r) (m_announce_tick r) (m_scene r) (m_scene_blk r) (m_filler_desc r)
    (m_commit_seen r) (m_scene_inflight r) (m_scene_complete r) (m_join_held r) (m_join_ev r)
    (m_join_src r) (m_join_hold_blk r) (m_join_has_blk r) (m_grant_ticks r)
    (m_enroll_sent_tick r) (m_dwell_ended_tick r) (m_enroll_pending r) (m_grant_dwell r)
    (m_alloc r) (m_grant_burst r) (m_grant_burst_len r) (m_headamp_src r) (m_join_blk r)
    (m_box_mac r) (m_session_seq r) (m_grant_attempts r) (m_chanmap_cursor r)
    (m_est_chanmap_tick r) (m_link_check r) (m_link_check_reload r) (m_box_seen r)
    (m_presence_tick r) (m_drop_reason r) (m_announce_blk r) (m_enroll_blk r)
    (m_identity_complete r) (m_identity_polls r) (m_identity_poll_left r)
    (m_identity_poll_slot r).
Definition set_m_chanmap (v : list (list Z)) (r : reac_master) : reac_master :=
  ReacMaster (m_state r) (m_src r) (m_counter r) (m_fps r) (m_grant_frames r)
    (m_grant_stride r) (m_cfg r) (m_chanmap_nframes r) v (m_cycle_len r) (m_cycle_pos r)
    (m_probe_stride r) (m_burst_end r) (m_sub02_off r) (m_chanmap_off r) (m_sub01_off r)
    (m_scene_step r) (m_announce_tick r) (m_scene r) (m_scene_blk r) (m_filler_desc r)
    (m_commit_seen r) (m_scene_inflight r) (m_scene_complete r) (m_join_held r) (m_join_ev r)
    (m_join_src r) (m_join_hold_blk r) (m_join_has_blk r) (m_grant_ticks r)
    (m_enroll_sent_tick r) (m_dwell_ended_tick r) (m_enroll_pending r) (m_grant_dwell r)
    (m_alloc r) (m_grant_burst r) (m_grant_burst_len r) (m_headamp_src r) (m_join_blk r)
    (m_box_mac r) (m_session_seq r) (m_grant_attempts r) (m_chanmap_cursor r)
    (m_est_chanmap_tick r) (m_link_check r) (m_link_check_reload r) (m_box_seen r)
    (m_presence_tick r) (m_drop_reason r) (m_announce_blk r) (m_enroll_blk r)
    (m_identity_complete r) (m_identity_polls r) (m_identity_poll_left r)
    (m_identity_poll_slot r).
Definition set_m_cycle_len (v : Z) (r : reac_master) : reac_master :=
  ReacMaster (m_state r) (m_src r) (m_counter r) (m_fps r) (m_grant_frames r)
    (m_grant_stride r) (m_cfg r) (m_chanmap_nframes r) (m_chanmap r) v (m_cycle_pos r)
    (m_probe_stride r) (m_burst_end r) (m_sub02_off r) (m_chanmap_off r) (m_sub01_off r)
    (m_scene_step r) (m_announce_tick r) (m_scene r) (m_scene_blk r) (m_filler_desc r)
    (m_commit_seen r) (m_scene_inflight r) (m_scene_complete r) (m_join_held r) (m_join_ev r)
    (m_join_src r) (m_join_hold_blk r) (m_join_has_blk r) (m_grant_ticks r)
    (m_enroll_sent_tick r) (m_dwell_ended_tick r) (m_enroll_pending r) (m_grant_dwell r)
    (m_alloc r) (m_grant_burst r) (m_grant_burst_len r) (m_headamp_src r) (m_join_blk r)
    (m_box_mac r) (m_session_seq r) (m_grant_attempts r) (m_chanmap_cursor r)
    (m_est_chanmap_tick r) (m_link_check r) (m_link_check_reload r) (m_box_seen r)
    (m_presence_tick r) (m_drop_reason r) (m_announce_blk r) (m_enroll_blk r)
    (m_identity_complete r) (m_identity_polls r) (m_identity_poll_left r)
    (m_identity_poll_slot r).
Definition set_m_cycle_pos (v : Z) (r : reac_master) : reac_master :=
  ReacMaster (m_state r) (m_src r) (m_counter r) (m_fps r) (m_grant_frames r)
    (m_grant_stride r) (m_cfg r) (m_chanmap_nframes r) (m_chanmap r) (m_cycle_len r) v
    (m_probe_stride r) (m_burst_end r) (m_sub02_off r) (m_chanmap_off r) (m_sub01_off r)
    (m_scene_step r) (m_announce_tick r) (m_scene r) (m_scene_blk r) (m_filler_desc r)
    (m_commit_seen r) (m_scene_inflight r) (m_scene_complete r) (m_join_held r) (m_join_ev r)
    (m_join_src r) (m_join_hold_blk r) (m_join_has_blk r) (m_grant_ticks r)
    (m_enroll_sent_tick r) (m_dwell_ended_tick r) (m_enroll_pending r) (m_grant_dwell r)
    (m_alloc r) (m_grant_burst r) (m_grant_burst_len r) (m_headamp_src r) (m_join_blk r)
    (m_box_mac r) (m_session_seq r) (m_grant_attempts r) (m_chanmap_cursor r)
    (m_est_chanmap_tick r) (m_link_check r) (m_link_check_reload r) (m_box_seen r)
    (m_presence_tick r) (m_drop_reason r) (m_announce_blk r) (m_enroll_blk r)
    (m_identity_complete r) (m_identity_polls r) (m_identity_poll_left r)
    (m_identity_poll_slot r).
Definition set_m_probe_stride (v : Z) (r : reac_master) : reac_master :=
  ReacMaster (m_state r) (m_src r) (m_counter r) (m_fps r) (m_grant_frames r)
    (m_grant_stride r) (m_cfg r) (m_chanmap_nframes r) (m_chanmap r) (m_cycle_len r)
    (m_cycle_pos r) v (m_burst_end r) (m_sub02_off r) (m_chanmap_off r) (m_sub01_off r)
    (m_scene_step r) (m_announce_tick r) (m_scene r) (m_scene_blk r) (m_filler_desc r)
    (m_commit_seen r) (m_scene_inflight r) (m_scene_complete r) (m_join_held r) (m_join_ev r)
    (m_join_src r) (m_join_hold_blk r) (m_join_has_blk r) (m_grant_ticks r)
    (m_enroll_sent_tick r) (m_dwell_ended_tick r) (m_enroll_pending r) (m_grant_dwell r)
    (m_alloc r) (m_grant_burst r) (m_grant_burst_len r) (m_headamp_src r) (m_join_blk r)
    (m_box_mac r) (m_session_seq r) (m_grant_attempts r) (m_chanmap_cursor r)
    (m_est_chanmap_tick r) (m_link_check r) (m_link_check_reload r) (m_box_seen r)
    (m_presence_tick r) (m_drop_reason r) (m_announce_blk r) (m_enroll_blk r)
    (m_identity_complete r) (m_identity_polls r) (m_identity_poll_left r)
    (m_identity_poll_slot r).
Definition set_m_burst_end (v : Z) (r : reac_master) : reac_master :=
  ReacMaster (m_state r) (m_src r) (m_counter r) (m_fps r) (m_grant_frames r)
    (m_grant_stride r) (m_cfg r) (m_chanmap_nframes r) (m_chanmap r) (m_cycle_len r)
    (m_cycle_pos r) (m_probe_stride r) v (m_sub02_off r) (m_chanmap_off r) (m_sub01_off r)
    (m_scene_step r) (m_announce_tick r) (m_scene r) (m_scene_blk r) (m_filler_desc r)
    (m_commit_seen r) (m_scene_inflight r) (m_scene_complete r) (m_join_held r) (m_join_ev r)
    (m_join_src r) (m_join_hold_blk r) (m_join_has_blk r) (m_grant_ticks r)
    (m_enroll_sent_tick r) (m_dwell_ended_tick r) (m_enroll_pending r) (m_grant_dwell r)
    (m_alloc r) (m_grant_burst r) (m_grant_burst_len r) (m_headamp_src r) (m_join_blk r)
    (m_box_mac r) (m_session_seq r) (m_grant_attempts r) (m_chanmap_cursor r)
    (m_est_chanmap_tick r) (m_link_check r) (m_link_check_reload r) (m_box_seen r)
    (m_presence_tick r) (m_drop_reason r) (m_announce_blk r) (m_enroll_blk r)
    (m_identity_complete r) (m_identity_polls r) (m_identity_poll_left r)
    (m_identity_poll_slot r).
Definition set_m_sub02_off (v : Z) (r : reac_master) : reac_master :=
  ReacMaster (m_state r) (m_src r) (m_counter r) (m_fps r) (m_grant_frames r)
    (m_grant_stride r) (m_cfg r) (m_chanmap_nframes r) (m_chanmap r) (m_cycle_len r)
    (m_cycle_pos r) (m_probe_stride r) (m_burst_end r) v (m_chanmap_off r) (m_sub01_off r)
    (m_scene_step r) (m_announce_tick r) (m_scene r) (m_scene_blk r) (m_filler_desc r)
    (m_commit_seen r) (m_scene_inflight r) (m_scene_complete r) (m_join_held r) (m_join_ev r)
    (m_join_src r) (m_join_hold_blk r) (m_join_has_blk r) (m_grant_ticks r)
    (m_enroll_sent_tick r) (m_dwell_ended_tick r) (m_enroll_pending r) (m_grant_dwell r)
    (m_alloc r) (m_grant_burst r) (m_grant_burst_len r) (m_headamp_src r) (m_join_blk r)
    (m_box_mac r) (m_session_seq r) (m_grant_attempts r) (m_chanmap_cursor r)
    (m_est_chanmap_tick r) (m_link_check r) (m_link_check_reload r) (m_box_seen r)
    (m_presence_tick r) (m_drop_reason r) (m_announce_blk r) (m_enroll_blk r)
    (m_identity_complete r) (m_identity_polls r) (m_identity_poll_left r)
    (m_identity_poll_slot r).
Definition set_m_chanmap_off (v : Z) (r : reac_master) : reac_master :=
  ReacMaster (m_state r) (m_src r) (m_counter r) (m_fps r) (m_grant_frames r)
    (m_grant_stride r) (m_cfg r) (m_chanmap_nframes r) (m_chanmap r) (m_cycle_len r)
    (m_cycle_pos r) (m_probe_stride r) (m_burst_end r) (m_sub02_off r) v (m_sub01_off r)
    (m_scene_step r) (m_announce_tick r) (m_scene r) (m_scene_blk r) (m_filler_desc r)
    (m_commit_seen r) (m_scene_inflight r) (m_scene_complete r) (m_join_held r) (m_join_ev r)
    (m_join_src r) (m_join_hold_blk r) (m_join_has_blk r) (m_grant_ticks r)
    (m_enroll_sent_tick r) (m_dwell_ended_tick r) (m_enroll_pending r) (m_grant_dwell r)
    (m_alloc r) (m_grant_burst r) (m_grant_burst_len r) (m_headamp_src r) (m_join_blk r)
    (m_box_mac r) (m_session_seq r) (m_grant_attempts r) (m_chanmap_cursor r)
    (m_est_chanmap_tick r) (m_link_check r) (m_link_check_reload r) (m_box_seen r)
    (m_presence_tick r) (m_drop_reason r) (m_announce_blk r) (m_enroll_blk r)
    (m_identity_complete r) (m_identity_polls r) (m_identity_poll_left r)
    (m_identity_poll_slot r).
Definition set_m_sub01_off (v : Z) (r : reac_master) : reac_master :=
  ReacMaster (m_state r) (m_src r) (m_counter r) (m_fps r) (m_grant_frames r)
    (m_grant_stride r) (m_cfg r) (m_chanmap_nframes r) (m_chanmap r) (m_cycle_len r)
    (m_cycle_pos r) (m_probe_stride r) (m_burst_end r) (m_sub02_off r) (m_chanmap_off r) v
    (m_scene_step r) (m_announce_tick r) (m_scene r) (m_scene_blk r) (m_filler_desc r)
    (m_commit_seen r) (m_scene_inflight r) (m_scene_complete r) (m_join_held r) (m_join_ev r)
    (m_join_src r) (m_join_hold_blk r) (m_join_has_blk r) (m_grant_ticks r)
    (m_enroll_sent_tick r) (m_dwell_ended_tick r) (m_enroll_pending r) (m_grant_dwell r)
    (m_alloc r) (m_grant_burst r) (m_grant_burst_len r) (m_headamp_src r) (m_join_blk r)
    (m_box_mac r) (m_session_seq r) (m_grant_attempts r) (m_chanmap_cursor r)
    (m_est_chanmap_tick r) (m_link_check r) (m_link_check_reload r) (m_box_seen r)
    (m_presence_tick r) (m_drop_reason r) (m_announce_blk r) (m_enroll_blk r)
    (m_identity_complete r) (m_identity_polls r) (m_identity_poll_left r)
    (m_identity_poll_slot r).
Definition set_m_scene_step (v : Z) (r : reac_master) : reac_master :=
  ReacMaster (m_state r) (m_src r) (m_counter r) (m_fps r) (m_grant_frames r)
    (m_grant_stride r) (m_cfg r) (m_chanmap_nframes r) (m_chanmap r) (m_cycle_len r)
    (m_cycle_pos r) (m_probe_stride r) (m_burst_end r) (m_sub02_off r) (m_chanmap_off r)
    (m_sub01_off r) v (m_announce_tick r) (m_scene r) (m_scene_blk r) (m_filler_desc r)
    (m_commit_seen r) (m_scene_inflight r) (m_scene_complete r) (m_join_held r) (m_join_ev r)
    (m_join_src r) (m_join_hold_blk r) (m_join_has_blk r) (m_grant_ticks r)
    (m_enroll_sent_tick r) (m_dwell_ended_tick r) (m_enroll_pending r) (m_grant_dwell r)
    (m_alloc r) (m_grant_burst r) (m_grant_burst_len r) (m_headamp_src r) (m_join_blk r)
    (m_box_mac r) (m_session_seq r) (m_grant_attempts r) (m_chanmap_cursor r)
    (m_est_chanmap_tick r) (m_link_check r) (m_link_check_reload r) (m_box_seen r)
    (m_presence_tick r) (m_drop_reason r) (m_announce_blk r) (m_enroll_blk r)
    (m_identity_complete r) (m_identity_polls r) (m_identity_poll_left r)
    (m_identity_poll_slot r).
Definition set_m_announce_tick (v : Z) (r : reac_master) : reac_master :=
  ReacMaster (m_state r) (m_src r) (m_counter r) (m_fps r) (m_grant_frames r)
    (m_grant_stride r) (m_cfg r) (m_chanmap_nframes r) (m_chanmap r) (m_cycle_len r)
    (m_cycle_pos r) (m_probe_stride r) (m_burst_end r) (m_sub02_off r) (m_chanmap_off r)
    (m_sub01_off r) (m_scene_step r) v (m_scene r) (m_scene_blk r) (m_filler_desc r)
    (m_commit_seen r) (m_scene_inflight r) (m_scene_complete r) (m_join_held r) (m_join_ev r)
    (m_join_src r) (m_join_hold_blk r) (m_join_has_blk r) (m_grant_ticks r)
    (m_enroll_sent_tick r) (m_dwell_ended_tick r) (m_enroll_pending r) (m_grant_dwell r)
    (m_alloc r) (m_grant_burst r) (m_grant_burst_len r) (m_headamp_src r) (m_join_blk r)
    (m_box_mac r) (m_session_seq r) (m_grant_attempts r) (m_chanmap_cursor r)
    (m_est_chanmap_tick r) (m_link_check r) (m_link_check_reload r) (m_box_seen r)
    (m_presence_tick r) (m_drop_reason r) (m_announce_blk r) (m_enroll_blk r)
    (m_identity_complete r) (m_identity_polls r) (m_identity_poll_left r)
    (m_identity_poll_slot r).
Definition set_m_scene (v : list Z) (r : reac_master) : reac_master :=
  ReacMaster (m_state r) (m_src r) (m_counter r) (m_fps r) (m_grant_frames r)
    (m_grant_stride r) (m_cfg r) (m_chanmap_nframes r) (m_chanmap r) (m_cycle_len r)
    (m_cycle_pos r) (m_probe_stride r) (m_burst_end r) (m_sub02_off r) (m_chanmap_off r)
    (m_sub01_off r) (m_scene_step r) (m_announce_tick r) v (m_scene_blk r) (m_filler_desc r)
    (m_commit_seen r) (m_scene_inflight r) (m_scene_complete r) (m_join_held r) (m_join_ev r)
    (m_join_src r) (m_join_hold_blk r) (m_join_has_blk r) (m_grant_ticks r)
    (m_enroll_sent_tick r) (m_dwell_ended_tick r) (m_enroll_pending r) (m_grant_dwell r)
    (m_alloc r) (m_grant_burst r) (m_grant_burst_len r) (m_headamp_src r) (m_join_blk r)
    (m_box_mac r) (m_session_seq r) (m_grant_attempts r) (m_chanmap_cursor r)
    (m_est_chanmap_tick r) (m_link_check r) (m_link_check_reload r) (m_box_seen r)
    (m_presence_tick r) (m_drop_reason r) (m_announce_blk r) (m_enroll_blk r)
    (m_identity_complete r) (m_identity_polls r) (m_identity_poll_left r)
    (m_identity_poll_slot r).
Definition set_m_scene_blk (v : list Z) (r : reac_master) : reac_master :=
  ReacMaster (m_state r) (m_src r) (m_counter r) (m_fps r) (m_grant_frames r)
    (m_grant_stride r) (m_cfg r) (m_chanmap_nframes r) (m_chanmap r) (m_cycle_len r)
    (m_cycle_pos r) (m_probe_stride r) (m_burst_end r) (m_sub02_off r) (m_chanmap_off r)
    (m_sub01_off r) (m_scene_step r) (m_announce_tick r) (m_scene r) v (m_filler_desc r)
    (m_commit_seen r) (m_scene_inflight r) (m_scene_complete r) (m_join_held r) (m_join_ev r)
    (m_join_src r) (m_join_hold_blk r) (m_join_has_blk r) (m_grant_ticks r)
    (m_enroll_sent_tick r) (m_dwell_ended_tick r) (m_enroll_pending r) (m_grant_dwell r)
    (m_alloc r) (m_grant_burst r) (m_grant_burst_len r) (m_headamp_src r) (m_join_blk r)
    (m_box_mac r) (m_session_seq r) (m_grant_attempts r) (m_chanmap_cursor r)
    (m_est_chanmap_tick r) (m_link_check r) (m_link_check_reload r) (m_box_seen r)
    (m_presence_tick r) (m_drop_reason r) (m_announce_blk r) (m_enroll_blk r)
    (m_identity_complete r) (m_identity_polls r) (m_identity_poll_left r)
    (m_identity_poll_slot r).
Definition set_m_filler_desc (v : Z) (r : reac_master) : reac_master :=
  ReacMaster (m_state r) (m_src r) (m_counter r) (m_fps r) (m_grant_frames r)
    (m_grant_stride r) (m_cfg r) (m_chanmap_nframes r) (m_chanmap r) (m_cycle_len r)
    (m_cycle_pos r) (m_probe_stride r) (m_burst_end r) (m_sub02_off r) (m_chanmap_off r)
    (m_sub01_off r) (m_scene_step r) (m_announce_tick r) (m_scene r) (m_scene_blk r) v
    (m_commit_seen r) (m_scene_inflight r) (m_scene_complete r) (m_join_held r) (m_join_ev r)
    (m_join_src r) (m_join_hold_blk r) (m_join_has_blk r) (m_grant_ticks r)
    (m_enroll_sent_tick r) (m_dwell_ended_tick r) (m_enroll_pending r) (m_grant_dwell r)
    (m_alloc r) (m_grant_burst r) (m_grant_burst_len r) (m_headamp_src r) (m_join_blk r)
    (m_box_mac r) (m_session_seq r) (m_grant_attempts r) (m_chanmap_cursor r)
    (m_est_chanmap_tick r) (m_link_check r) (m_link_check_reload r) (m_box_seen r)
    (m_presence_tick r) (m_drop_reason r) (m_announce_blk r) (m_enroll_blk r)
    (m_identity_complete r) (m_identity_polls r) (m_identity_poll_left r)
    (m_identity_poll_slot r).
Definition set_m_commit_seen (v : bool) (r : reac_master) : reac_master :=
  ReacMaster (m_state r) (m_src r) (m_counter r) (m_fps r) (m_grant_frames r)
    (m_grant_stride r) (m_cfg r) (m_chanmap_nframes r) (m_chanmap r) (m_cycle_len r)
    (m_cycle_pos r) (m_probe_stride r) (m_burst_end r) (m_sub02_off r) (m_chanmap_off r)
    (m_sub01_off r) (m_scene_step r) (m_announce_tick r) (m_scene r) (m_scene_blk r)
    (m_filler_desc r) v (m_scene_inflight r) (m_scene_complete r) (m_join_held r)
    (m_join_ev r) (m_join_src r) (m_join_hold_blk r) (m_join_has_blk r) (m_grant_ticks r)
    (m_enroll_sent_tick r) (m_dwell_ended_tick r) (m_enroll_pending r) (m_grant_dwell r)
    (m_alloc r) (m_grant_burst r) (m_grant_burst_len r) (m_headamp_src r) (m_join_blk r)
    (m_box_mac r) (m_session_seq r) (m_grant_attempts r) (m_chanmap_cursor r)
    (m_est_chanmap_tick r) (m_link_check r) (m_link_check_reload r) (m_box_seen r)
    (m_presence_tick r) (m_drop_reason r) (m_announce_blk r) (m_enroll_blk r)
    (m_identity_complete r) (m_identity_polls r) (m_identity_poll_left r)
    (m_identity_poll_slot r).
Definition set_m_scene_inflight (v : bool) (r : reac_master) : reac_master :=
  ReacMaster (m_state r) (m_src r) (m_counter r) (m_fps r) (m_grant_frames r)
    (m_grant_stride r) (m_cfg r) (m_chanmap_nframes r) (m_chanmap r) (m_cycle_len r)
    (m_cycle_pos r) (m_probe_stride r) (m_burst_end r) (m_sub02_off r) (m_chanmap_off r)
    (m_sub01_off r) (m_scene_step r) (m_announce_tick r) (m_scene r) (m_scene_blk r)
    (m_filler_desc r) (m_commit_seen r) v (m_scene_complete r) (m_join_held r) (m_join_ev r)
    (m_join_src r) (m_join_hold_blk r) (m_join_has_blk r) (m_grant_ticks r)
    (m_enroll_sent_tick r) (m_dwell_ended_tick r) (m_enroll_pending r) (m_grant_dwell r)
    (m_alloc r) (m_grant_burst r) (m_grant_burst_len r) (m_headamp_src r) (m_join_blk r)
    (m_box_mac r) (m_session_seq r) (m_grant_attempts r) (m_chanmap_cursor r)
    (m_est_chanmap_tick r) (m_link_check r) (m_link_check_reload r) (m_box_seen r)
    (m_presence_tick r) (m_drop_reason r) (m_announce_blk r) (m_enroll_blk r)
    (m_identity_complete r) (m_identity_polls r) (m_identity_poll_left r)
    (m_identity_poll_slot r).
Definition set_m_scene_complete (v : Z) (r : reac_master) : reac_master :=
  ReacMaster (m_state r) (m_src r) (m_counter r) (m_fps r) (m_grant_frames r)
    (m_grant_stride r) (m_cfg r) (m_chanmap_nframes r) (m_chanmap r) (m_cycle_len r)
    (m_cycle_pos r) (m_probe_stride r) (m_burst_end r) (m_sub02_off r) (m_chanmap_off r)
    (m_sub01_off r) (m_scene_step r) (m_announce_tick r) (m_scene r) (m_scene_blk r)
    (m_filler_desc r) (m_commit_seen r) (m_scene_inflight r) v (m_join_held r) (m_join_ev r)
    (m_join_src r) (m_join_hold_blk r) (m_join_has_blk r) (m_grant_ticks r)
    (m_enroll_sent_tick r) (m_dwell_ended_tick r) (m_enroll_pending r) (m_grant_dwell r)
    (m_alloc r) (m_grant_burst r) (m_grant_burst_len r) (m_headamp_src r) (m_join_blk r)
    (m_box_mac r) (m_session_seq r) (m_grant_attempts r) (m_chanmap_cursor r)
    (m_est_chanmap_tick r) (m_link_check r) (m_link_check_reload r) (m_box_seen r)
    (m_presence_tick r) (m_drop_reason r) (m_announce_blk r) (m_enroll_blk r)
    (m_identity_complete r) (m_identity_polls r) (m_identity_poll_left r)
    (m_identity_poll_slot r).
Definition set_m_join_held (v : bool) (r : reac_master) : reac_master :=
  ReacMaster (m_state r) (m_src r) (m_counter r) (m_fps r) (m_grant_frames r)
    (m_grant_stride r) (m_cfg r) (m_chanmap_nframes r) (m_chanmap r) (m_cycle_len r)
    (m_cycle_pos r) (m_probe_stride r) (m_burst_end r) (m_sub02_off r) (m_chanmap_off r)
    (m_sub01_off r) (m_scene_step r) (m_announce_tick r) (m_scene r) (m_scene_blk r)
    (m_filler_desc r) (m_commit_seen r) (m_scene_inflight r) (m_scene_complete r) v
    (m_join_ev r) (m_join_src r) (m_join_hold_blk r) (m_join_has_blk r) (m_grant_ticks r)
    (m_enroll_sent_tick r) (m_dwell_ended_tick r) (m_enroll_pending r) (m_grant_dwell r)
    (m_alloc r) (m_grant_burst r) (m_grant_burst_len r) (m_headamp_src r) (m_join_blk r)
    (m_box_mac r) (m_session_seq r) (m_grant_attempts r) (m_chanmap_cursor r)
    (m_est_chanmap_tick r) (m_link_check r) (m_link_check_reload r) (m_box_seen r)
    (m_presence_tick r) (m_drop_reason r) (m_announce_blk r) (m_enroll_blk r)
    (m_identity_complete r) (m_identity_polls r) (m_identity_poll_left r)
    (m_identity_poll_slot r).
Definition set_m_join_ev (v : reac_master_rx_event) (r : reac_master) : reac_master :=
  ReacMaster (m_state r) (m_src r) (m_counter r) (m_fps r) (m_grant_frames r)
    (m_grant_stride r) (m_cfg r) (m_chanmap_nframes r) (m_chanmap r) (m_cycle_len r)
    (m_cycle_pos r) (m_probe_stride r) (m_burst_end r) (m_sub02_off r) (m_chanmap_off r)
    (m_sub01_off r) (m_scene_step r) (m_announce_tick r) (m_scene r) (m_scene_blk r)
    (m_filler_desc r) (m_commit_seen r) (m_scene_inflight r) (m_scene_complete r)
    (m_join_held r) v (m_join_src r) (m_join_hold_blk r) (m_join_has_blk r) (m_grant_ticks r)
    (m_enroll_sent_tick r) (m_dwell_ended_tick r) (m_enroll_pending r) (m_grant_dwell r)
    (m_alloc r) (m_grant_burst r) (m_grant_burst_len r) (m_headamp_src r) (m_join_blk r)
    (m_box_mac r) (m_session_seq r) (m_grant_attempts r) (m_chanmap_cursor r)
    (m_est_chanmap_tick r) (m_link_check r) (m_link_check_reload r) (m_box_seen r)
    (m_presence_tick r) (m_drop_reason r) (m_announce_blk r) (m_enroll_blk r)
    (m_identity_complete r) (m_identity_polls r) (m_identity_poll_left r)
    (m_identity_poll_slot r).
Definition set_m_join_src (v : list Z) (r : reac_master) : reac_master :=
  ReacMaster (m_state r) (m_src r) (m_counter r) (m_fps r) (m_grant_frames r)
    (m_grant_stride r) (m_cfg r) (m_chanmap_nframes r) (m_chanmap r) (m_cycle_len r)
    (m_cycle_pos r) (m_probe_stride r) (m_burst_end r) (m_sub02_off r) (m_chanmap_off r)
    (m_sub01_off r) (m_scene_step r) (m_announce_tick r) (m_scene r) (m_scene_blk r)
    (m_filler_desc r) (m_commit_seen r) (m_scene_inflight r) (m_scene_complete r)
    (m_join_held r) (m_join_ev r) v (m_join_hold_blk r) (m_join_has_blk r) (m_grant_ticks r)
    (m_enroll_sent_tick r) (m_dwell_ended_tick r) (m_enroll_pending r) (m_grant_dwell r)
    (m_alloc r) (m_grant_burst r) (m_grant_burst_len r) (m_headamp_src r) (m_join_blk r)
    (m_box_mac r) (m_session_seq r) (m_grant_attempts r) (m_chanmap_cursor r)
    (m_est_chanmap_tick r) (m_link_check r) (m_link_check_reload r) (m_box_seen r)
    (m_presence_tick r) (m_drop_reason r) (m_announce_blk r) (m_enroll_blk r)
    (m_identity_complete r) (m_identity_polls r) (m_identity_poll_left r)
    (m_identity_poll_slot r).
Definition set_m_join_hold_blk (v : list Z) (r : reac_master) : reac_master :=
  ReacMaster (m_state r) (m_src r) (m_counter r) (m_fps r) (m_grant_frames r)
    (m_grant_stride r) (m_cfg r) (m_chanmap_nframes r) (m_chanmap r) (m_cycle_len r)
    (m_cycle_pos r) (m_probe_stride r) (m_burst_end r) (m_sub02_off r) (m_chanmap_off r)
    (m_sub01_off r) (m_scene_step r) (m_announce_tick r) (m_scene r) (m_scene_blk r)
    (m_filler_desc r) (m_commit_seen r) (m_scene_inflight r) (m_scene_complete r)
    (m_join_held r) (m_join_ev r) (m_join_src r) v (m_join_has_blk r) (m_grant_ticks r)
    (m_enroll_sent_tick r) (m_dwell_ended_tick r) (m_enroll_pending r) (m_grant_dwell r)
    (m_alloc r) (m_grant_burst r) (m_grant_burst_len r) (m_headamp_src r) (m_join_blk r)
    (m_box_mac r) (m_session_seq r) (m_grant_attempts r) (m_chanmap_cursor r)
    (m_est_chanmap_tick r) (m_link_check r) (m_link_check_reload r) (m_box_seen r)
    (m_presence_tick r) (m_drop_reason r) (m_announce_blk r) (m_enroll_blk r)
    (m_identity_complete r) (m_identity_polls r) (m_identity_poll_left r)
    (m_identity_poll_slot r).
Definition set_m_join_has_blk (v : bool) (r : reac_master) : reac_master :=
  ReacMaster (m_state r) (m_src r) (m_counter r) (m_fps r) (m_grant_frames r)
    (m_grant_stride r) (m_cfg r) (m_chanmap_nframes r) (m_chanmap r) (m_cycle_len r)
    (m_cycle_pos r) (m_probe_stride r) (m_burst_end r) (m_sub02_off r) (m_chanmap_off r)
    (m_sub01_off r) (m_scene_step r) (m_announce_tick r) (m_scene r) (m_scene_blk r)
    (m_filler_desc r) (m_commit_seen r) (m_scene_inflight r) (m_scene_complete r)
    (m_join_held r) (m_join_ev r) (m_join_src r) (m_join_hold_blk r) v (m_grant_ticks r)
    (m_enroll_sent_tick r) (m_dwell_ended_tick r) (m_enroll_pending r) (m_grant_dwell r)
    (m_alloc r) (m_grant_burst r) (m_grant_burst_len r) (m_headamp_src r) (m_join_blk r)
    (m_box_mac r) (m_session_seq r) (m_grant_attempts r) (m_chanmap_cursor r)
    (m_est_chanmap_tick r) (m_link_check r) (m_link_check_reload r) (m_box_seen r)
    (m_presence_tick r) (m_drop_reason r) (m_announce_blk r) (m_enroll_blk r)
    (m_identity_complete r) (m_identity_polls r) (m_identity_poll_left r)
    (m_identity_poll_slot r).
Definition set_m_grant_ticks (v : Z) (r : reac_master) : reac_master :=
  ReacMaster (m_state r) (m_src r) (m_counter r) (m_fps r) (m_grant_frames r)
    (m_grant_stride r) (m_cfg r) (m_chanmap_nframes r) (m_chanmap r) (m_cycle_len r)
    (m_cycle_pos r) (m_probe_stride r) (m_burst_end r) (m_sub02_off r) (m_chanmap_off r)
    (m_sub01_off r) (m_scene_step r) (m_announce_tick r) (m_scene r) (m_scene_blk r)
    (m_filler_desc r) (m_commit_seen r) (m_scene_inflight r) (m_scene_complete r)
    (m_join_held r) (m_join_ev r) (m_join_src r) (m_join_hold_blk r) (m_join_has_blk r) v
    (m_enroll_sent_tick r) (m_dwell_ended_tick r) (m_enroll_pending r) (m_grant_dwell r)
    (m_alloc r) (m_grant_burst r) (m_grant_burst_len r) (m_headamp_src r) (m_join_blk r)
    (m_box_mac r) (m_session_seq r) (m_grant_attempts r) (m_chanmap_cursor r)
    (m_est_chanmap_tick r) (m_link_check r) (m_link_check_reload r) (m_box_seen r)
    (m_presence_tick r) (m_drop_reason r) (m_announce_blk r) (m_enroll_blk r)
    (m_identity_complete r) (m_identity_polls r) (m_identity_poll_left r)
    (m_identity_poll_slot r).
Definition set_m_enroll_sent_tick (v : Z) (r : reac_master) : reac_master :=
  ReacMaster (m_state r) (m_src r) (m_counter r) (m_fps r) (m_grant_frames r)
    (m_grant_stride r) (m_cfg r) (m_chanmap_nframes r) (m_chanmap r) (m_cycle_len r)
    (m_cycle_pos r) (m_probe_stride r) (m_burst_end r) (m_sub02_off r) (m_chanmap_off r)
    (m_sub01_off r) (m_scene_step r) (m_announce_tick r) (m_scene r) (m_scene_blk r)
    (m_filler_desc r) (m_commit_seen r) (m_scene_inflight r) (m_scene_complete r)
    (m_join_held r) (m_join_ev r) (m_join_src r) (m_join_hold_blk r) (m_join_has_blk r)
    (m_grant_ticks r) v (m_dwell_ended_tick r) (m_enroll_pending r) (m_grant_dwell r)
    (m_alloc r) (m_grant_burst r) (m_grant_burst_len r) (m_headamp_src r) (m_join_blk r)
    (m_box_mac r) (m_session_seq r) (m_grant_attempts r) (m_chanmap_cursor r)
    (m_est_chanmap_tick r) (m_link_check r) (m_link_check_reload r) (m_box_seen r)
    (m_presence_tick r) (m_drop_reason r) (m_announce_blk r) (m_enroll_blk r)
    (m_identity_complete r) (m_identity_polls r) (m_identity_poll_left r)
    (m_identity_poll_slot r).
Definition set_m_dwell_ended_tick (v : Z) (r : reac_master) : reac_master :=
  ReacMaster (m_state r) (m_src r) (m_counter r) (m_fps r) (m_grant_frames r)
    (m_grant_stride r) (m_cfg r) (m_chanmap_nframes r) (m_chanmap r) (m_cycle_len r)
    (m_cycle_pos r) (m_probe_stride r) (m_burst_end r) (m_sub02_off r) (m_chanmap_off r)
    (m_sub01_off r) (m_scene_step r) (m_announce_tick r) (m_scene r) (m_scene_blk r)
    (m_filler_desc r) (m_commit_seen r) (m_scene_inflight r) (m_scene_complete r)
    (m_join_held r) (m_join_ev r) (m_join_src r) (m_join_hold_blk r) (m_join_has_blk r)
    (m_grant_ticks r) (m_enroll_sent_tick r) v (m_enroll_pending r) (m_grant_dwell r)
    (m_alloc r) (m_grant_burst r) (m_grant_burst_len r) (m_headamp_src r) (m_join_blk r)
    (m_box_mac r) (m_session_seq r) (m_grant_attempts r) (m_chanmap_cursor r)
    (m_est_chanmap_tick r) (m_link_check r) (m_link_check_reload r) (m_box_seen r)
    (m_presence_tick r) (m_drop_reason r) (m_announce_blk r) (m_enroll_blk r)
    (m_identity_complete r) (m_identity_polls r) (m_identity_poll_left r)
    (m_identity_poll_slot r).
Definition set_m_enroll_pending (v : bool) (r : reac_master) : reac_master :=
  ReacMaster (m_state r) (m_src r) (m_counter r) (m_fps r) (m_grant_frames r)
    (m_grant_stride r) (m_cfg r) (m_chanmap_nframes r) (m_chanmap r) (m_cycle_len r)
    (m_cycle_pos r) (m_probe_stride r) (m_burst_end r) (m_sub02_off r) (m_chanmap_off r)
    (m_sub01_off r) (m_scene_step r) (m_announce_tick r) (m_scene r) (m_scene_blk r)
    (m_filler_desc r) (m_commit_seen r) (m_scene_inflight r) (m_scene_complete r)
    (m_join_held r) (m_join_ev r) (m_join_src r) (m_join_hold_blk r) (m_join_has_blk r)
    (m_grant_ticks r) (m_enroll_sent_tick r) (m_dwell_ended_tick r) v (m_grant_dwell r)
    (m_alloc r) (m_grant_burst r) (m_grant_burst_len r) (m_headamp_src r) (m_join_blk r)
    (m_box_mac r) (m_session_seq r) (m_grant_attempts r) (m_chanmap_cursor r)
    (m_est_chanmap_tick r) (m_link_check r) (m_link_check_reload r) (m_box_seen r)
    (m_presence_tick r) (m_drop_reason r) (m_announce_blk r) (m_enroll_blk r)
    (m_identity_complete r) (m_identity_polls r) (m_identity_poll_left r)
    (m_identity_poll_slot r).
Definition set_m_grant_dwell (v : Z) (r : reac_master) : reac_master :=
  ReacMaster (m_state r) (m_src r) (m_counter r) (m_fps r) (m_grant_frames r)
    (m_grant_stride r) (m_cfg r) (m_chanmap_nframes r) (m_chanmap r) (m_cycle_len r)
    (m_cycle_pos r) (m_probe_stride r) (m_burst_end r) (m_sub02_off r) (m_chanmap_off r)
    (m_sub01_off r) (m_scene_step r) (m_announce_tick r) (m_scene r) (m_scene_blk r)
    (m_filler_desc r) (m_commit_seen r) (m_scene_inflight r) (m_scene_complete r)
    (m_join_held r) (m_join_ev r) (m_join_src r) (m_join_hold_blk r) (m_join_has_blk r)
    (m_grant_ticks r) (m_enroll_sent_tick r) (m_dwell_ended_tick r) (m_enroll_pending r) v
    (m_alloc r) (m_grant_burst r) (m_grant_burst_len r) (m_headamp_src r) (m_join_blk r)
    (m_box_mac r) (m_session_seq r) (m_grant_attempts r) (m_chanmap_cursor r)
    (m_est_chanmap_tick r) (m_link_check r) (m_link_check_reload r) (m_box_seen r)
    (m_presence_tick r) (m_drop_reason r) (m_announce_blk r) (m_enroll_blk r)
    (m_identity_complete r) (m_identity_polls r) (m_identity_poll_left r)
    (m_identity_poll_slot r).
Definition set_m_alloc (v : reac_grant_alloc) (r : reac_master) : reac_master :=
  ReacMaster (m_state r) (m_src r) (m_counter r) (m_fps r) (m_grant_frames r)
    (m_grant_stride r) (m_cfg r) (m_chanmap_nframes r) (m_chanmap r) (m_cycle_len r)
    (m_cycle_pos r) (m_probe_stride r) (m_burst_end r) (m_sub02_off r) (m_chanmap_off r)
    (m_sub01_off r) (m_scene_step r) (m_announce_tick r) (m_scene r) (m_scene_blk r)
    (m_filler_desc r) (m_commit_seen r) (m_scene_inflight r) (m_scene_complete r)
    (m_join_held r) (m_join_ev r) (m_join_src r) (m_join_hold_blk r) (m_join_has_blk r)
    (m_grant_ticks r) (m_enroll_sent_tick r) (m_dwell_ended_tick r) (m_enroll_pending r)
    (m_grant_dwell r) v (m_grant_burst r) (m_grant_burst_len r) (m_headamp_src r)
    (m_join_blk r) (m_box_mac r) (m_session_seq r) (m_grant_attempts r) (m_chanmap_cursor r)
    (m_est_chanmap_tick r) (m_link_check r) (m_link_check_reload r) (m_box_seen r)
    (m_presence_tick r) (m_drop_reason r) (m_announce_blk r) (m_enroll_blk r)
    (m_identity_complete r) (m_identity_polls r) (m_identity_poll_left r)
    (m_identity_poll_slot r).
Definition set_m_grant_burst (v : list (list Z)) (r : reac_master) : reac_master :=
  ReacMaster (m_state r) (m_src r) (m_counter r) (m_fps r) (m_grant_frames r)
    (m_grant_stride r) (m_cfg r) (m_chanmap_nframes r) (m_chanmap r) (m_cycle_len r)
    (m_cycle_pos r) (m_probe_stride r) (m_burst_end r) (m_sub02_off r) (m_chanmap_off r)
    (m_sub01_off r) (m_scene_step r) (m_announce_tick r) (m_scene r) (m_scene_blk r)
    (m_filler_desc r) (m_commit_seen r) (m_scene_inflight r) (m_scene_complete r)
    (m_join_held r) (m_join_ev r) (m_join_src r) (m_join_hold_blk r) (m_join_has_blk r)
    (m_grant_ticks r) (m_enroll_sent_tick r) (m_dwell_ended_tick r) (m_enroll_pending r)
    (m_grant_dwell r) (m_alloc r) v (m_grant_burst_len r) (m_headamp_src r) (m_join_blk r)
    (m_box_mac r) (m_session_seq r) (m_grant_attempts r) (m_chanmap_cursor r)
    (m_est_chanmap_tick r) (m_link_check r) (m_link_check_reload r) (m_box_seen r)
    (m_presence_tick r) (m_drop_reason r) (m_announce_blk r) (m_enroll_blk r)
    (m_identity_complete r) (m_identity_polls r) (m_identity_poll_left r)
    (m_identity_poll_slot r).
Definition set_m_grant_burst_len (v : Z) (r : reac_master) : reac_master :=
  ReacMaster (m_state r) (m_src r) (m_counter r) (m_fps r) (m_grant_frames r)
    (m_grant_stride r) (m_cfg r) (m_chanmap_nframes r) (m_chanmap r) (m_cycle_len r)
    (m_cycle_pos r) (m_probe_stride r) (m_burst_end r) (m_sub02_off r) (m_chanmap_off r)
    (m_sub01_off r) (m_scene_step r) (m_announce_tick r) (m_scene r) (m_scene_blk r)
    (m_filler_desc r) (m_commit_seen r) (m_scene_inflight r) (m_scene_complete r)
    (m_join_held r) (m_join_ev r) (m_join_src r) (m_join_hold_blk r) (m_join_has_blk r)
    (m_grant_ticks r) (m_enroll_sent_tick r) (m_dwell_ended_tick r) (m_enroll_pending r)
    (m_grant_dwell r) (m_alloc r) (m_grant_burst r) v (m_headamp_src r) (m_join_blk r)
    (m_box_mac r) (m_session_seq r) (m_grant_attempts r) (m_chanmap_cursor r)
    (m_est_chanmap_tick r) (m_link_check r) (m_link_check_reload r) (m_box_seen r)
    (m_presence_tick r) (m_drop_reason r) (m_announce_blk r) (m_enroll_blk r)
    (m_identity_complete r) (m_identity_polls r) (m_identity_poll_left r)
    (m_identity_poll_slot r).
Definition set_m_headamp_src (v : bool) (r : reac_master) : reac_master :=
  ReacMaster (m_state r) (m_src r) (m_counter r) (m_fps r) (m_grant_frames r)
    (m_grant_stride r) (m_cfg r) (m_chanmap_nframes r) (m_chanmap r) (m_cycle_len r)
    (m_cycle_pos r) (m_probe_stride r) (m_burst_end r) (m_sub02_off r) (m_chanmap_off r)
    (m_sub01_off r) (m_scene_step r) (m_announce_tick r) (m_scene r) (m_scene_blk r)
    (m_filler_desc r) (m_commit_seen r) (m_scene_inflight r) (m_scene_complete r)
    (m_join_held r) (m_join_ev r) (m_join_src r) (m_join_hold_blk r) (m_join_has_blk r)
    (m_grant_ticks r) (m_enroll_sent_tick r) (m_dwell_ended_tick r) (m_enroll_pending r)
    (m_grant_dwell r) (m_alloc r) (m_grant_burst r) (m_grant_burst_len r) v (m_join_blk r)
    (m_box_mac r) (m_session_seq r) (m_grant_attempts r) (m_chanmap_cursor r)
    (m_est_chanmap_tick r) (m_link_check r) (m_link_check_reload r) (m_box_seen r)
    (m_presence_tick r) (m_drop_reason r) (m_announce_blk r) (m_enroll_blk r)
    (m_identity_complete r) (m_identity_polls r) (m_identity_poll_left r)
    (m_identity_poll_slot r).
Definition set_m_join_blk (v : list Z) (r : reac_master) : reac_master :=
  ReacMaster (m_state r) (m_src r) (m_counter r) (m_fps r) (m_grant_frames r)
    (m_grant_stride r) (m_cfg r) (m_chanmap_nframes r) (m_chanmap r) (m_cycle_len r)
    (m_cycle_pos r) (m_probe_stride r) (m_burst_end r) (m_sub02_off r) (m_chanmap_off r)
    (m_sub01_off r) (m_scene_step r) (m_announce_tick r) (m_scene r) (m_scene_blk r)
    (m_filler_desc r) (m_commit_seen r) (m_scene_inflight r) (m_scene_complete r)
    (m_join_held r) (m_join_ev r) (m_join_src r) (m_join_hold_blk r) (m_join_has_blk r)
    (m_grant_ticks r) (m_enroll_sent_tick r) (m_dwell_ended_tick r) (m_enroll_pending r)
    (m_grant_dwell r) (m_alloc r) (m_grant_burst r) (m_grant_burst_len r) (m_headamp_src r) v
    (m_box_mac r) (m_session_seq r) (m_grant_attempts r) (m_chanmap_cursor r)
    (m_est_chanmap_tick r) (m_link_check r) (m_link_check_reload r) (m_box_seen r)
    (m_presence_tick r) (m_drop_reason r) (m_announce_blk r) (m_enroll_blk r)
    (m_identity_complete r) (m_identity_polls r) (m_identity_poll_left r)
    (m_identity_poll_slot r).
Definition set_m_box_mac (v : list Z) (r : reac_master) : reac_master :=
  ReacMaster (m_state r) (m_src r) (m_counter r) (m_fps r) (m_grant_frames r)
    (m_grant_stride r) (m_cfg r) (m_chanmap_nframes r) (m_chanmap r) (m_cycle_len r)
    (m_cycle_pos r) (m_probe_stride r) (m_burst_end r) (m_sub02_off r) (m_chanmap_off r)
    (m_sub01_off r) (m_scene_step r) (m_announce_tick r) (m_scene r) (m_scene_blk r)
    (m_filler_desc r) (m_commit_seen r) (m_scene_inflight r) (m_scene_complete r)
    (m_join_held r) (m_join_ev r) (m_join_src r) (m_join_hold_blk r) (m_join_has_blk r)
    (m_grant_ticks r) (m_enroll_sent_tick r) (m_dwell_ended_tick r) (m_enroll_pending r)
    (m_grant_dwell r) (m_alloc r) (m_grant_burst r) (m_grant_burst_len r) (m_headamp_src r)
    (m_join_blk r) v (m_session_seq r) (m_grant_attempts r) (m_chanmap_cursor r)
    (m_est_chanmap_tick r) (m_link_check r) (m_link_check_reload r) (m_box_seen r)
    (m_presence_tick r) (m_drop_reason r) (m_announce_blk r) (m_enroll_blk r)
    (m_identity_complete r) (m_identity_polls r) (m_identity_poll_left r)
    (m_identity_poll_slot r).
Definition set_m_session_seq (v : Z) (r : reac_master) : reac_master :=
  ReacMaster (m_state r) (m_src r) (m_counter r) (m_fps r) (m_grant_frames r)
    (m_grant_stride r) (m_cfg r) (m_chanmap_nframes r) (m_chanmap r) (m_cycle_len r)
    (m_cycle_pos r) (m_probe_stride r) (m_burst_end r) (m_sub02_off r) (m_chanmap_off r)
    (m_sub01_off r) (m_scene_step r) (m_announce_tick r) (m_scene r) (m_scene_blk r)
    (m_filler_desc r) (m_commit_seen r) (m_scene_inflight r) (m_scene_complete r)
    (m_join_held r) (m_join_ev r) (m_join_src r) (m_join_hold_blk r) (m_join_has_blk r)
    (m_grant_ticks r) (m_enroll_sent_tick r) (m_dwell_ended_tick r) (m_enroll_pending r)
    (m_grant_dwell r) (m_alloc r) (m_grant_burst r) (m_grant_burst_len r) (m_headamp_src r)
    (m_join_blk r) (m_box_mac r) v (m_grant_attempts r) (m_chanmap_cursor r)
    (m_est_chanmap_tick r) (m_link_check r) (m_link_check_reload r) (m_box_seen r)
    (m_presence_tick r) (m_drop_reason r) (m_announce_blk r) (m_enroll_blk r)
    (m_identity_complete r) (m_identity_polls r) (m_identity_poll_left r)
    (m_identity_poll_slot r).
Definition set_m_grant_attempts (v : Z) (r : reac_master) : reac_master :=
  ReacMaster (m_state r) (m_src r) (m_counter r) (m_fps r) (m_grant_frames r)
    (m_grant_stride r) (m_cfg r) (m_chanmap_nframes r) (m_chanmap r) (m_cycle_len r)
    (m_cycle_pos r) (m_probe_stride r) (m_burst_end r) (m_sub02_off r) (m_chanmap_off r)
    (m_sub01_off r) (m_scene_step r) (m_announce_tick r) (m_scene r) (m_scene_blk r)
    (m_filler_desc r) (m_commit_seen r) (m_scene_inflight r) (m_scene_complete r)
    (m_join_held r) (m_join_ev r) (m_join_src r) (m_join_hold_blk r) (m_join_has_blk r)
    (m_grant_ticks r) (m_enroll_sent_tick r) (m_dwell_ended_tick r) (m_enroll_pending r)
    (m_grant_dwell r) (m_alloc r) (m_grant_burst r) (m_grant_burst_len r) (m_headamp_src r)
    (m_join_blk r) (m_box_mac r) (m_session_seq r) v (m_chanmap_cursor r)
    (m_est_chanmap_tick r) (m_link_check r) (m_link_check_reload r) (m_box_seen r)
    (m_presence_tick r) (m_drop_reason r) (m_announce_blk r) (m_enroll_blk r)
    (m_identity_complete r) (m_identity_polls r) (m_identity_poll_left r)
    (m_identity_poll_slot r).
Definition set_m_chanmap_cursor (v : Z) (r : reac_master) : reac_master :=
  ReacMaster (m_state r) (m_src r) (m_counter r) (m_fps r) (m_grant_frames r)
    (m_grant_stride r) (m_cfg r) (m_chanmap_nframes r) (m_chanmap r) (m_cycle_len r)
    (m_cycle_pos r) (m_probe_stride r) (m_burst_end r) (m_sub02_off r) (m_chanmap_off r)
    (m_sub01_off r) (m_scene_step r) (m_announce_tick r) (m_scene r) (m_scene_blk r)
    (m_filler_desc r) (m_commit_seen r) (m_scene_inflight r) (m_scene_complete r)
    (m_join_held r) (m_join_ev r) (m_join_src r) (m_join_hold_blk r) (m_join_has_blk r)
    (m_grant_ticks r) (m_enroll_sent_tick r) (m_dwell_ended_tick r) (m_enroll_pending r)
    (m_grant_dwell r) (m_alloc r) (m_grant_burst r) (m_grant_burst_len r) (m_headamp_src r)
    (m_join_blk r) (m_box_mac r) (m_session_seq r) (m_grant_attempts r) v
    (m_est_chanmap_tick r) (m_link_check r) (m_link_check_reload r) (m_box_seen r)
    (m_presence_tick r) (m_drop_reason r) (m_announce_blk r) (m_enroll_blk r)
    (m_identity_complete r) (m_identity_polls r) (m_identity_poll_left r)
    (m_identity_poll_slot r).
Definition set_m_est_chanmap_tick (v : Z) (r : reac_master) : reac_master :=
  ReacMaster (m_state r) (m_src r) (m_counter r) (m_fps r) (m_grant_frames r)
    (m_grant_stride r) (m_cfg r) (m_chanmap_nframes r) (m_chanmap r) (m_cycle_len r)
    (m_cycle_pos r) (m_probe_stride r) (m_burst_end r) (m_sub02_off r) (m_chanmap_off r)
    (m_sub01_off r) (m_scene_step r) (m_announce_tick r) (m_scene r) (m_scene_blk r)
    (m_filler_desc r) (m_commit_seen r) (m_scene_inflight r) (m_scene_complete r)
    (m_join_held r) (m_join_ev r) (m_join_src r) (m_join_hold_blk r) (m_join_has_blk r)
    (m_grant_ticks r) (m_enroll_sent_tick r) (m_dwell_ended_tick r) (m_enroll_pending r)
    (m_grant_dwell r) (m_alloc r) (m_grant_burst r) (m_grant_burst_len r) (m_headamp_src r)
    (m_join_blk r) (m_box_mac r) (m_session_seq r) (m_grant_attempts r) (m_chanmap_cursor r)
    v (m_link_check r) (m_link_check_reload r) (m_box_seen r) (m_presence_tick r)
    (m_drop_reason r) (m_announce_blk r) (m_enroll_blk r) (m_identity_complete r)
    (m_identity_polls r) (m_identity_poll_left r) (m_identity_poll_slot r).
Definition set_m_link_check (v : Z) (r : reac_master) : reac_master :=
  ReacMaster (m_state r) (m_src r) (m_counter r) (m_fps r) (m_grant_frames r)
    (m_grant_stride r) (m_cfg r) (m_chanmap_nframes r) (m_chanmap r) (m_cycle_len r)
    (m_cycle_pos r) (m_probe_stride r) (m_burst_end r) (m_sub02_off r) (m_chanmap_off r)
    (m_sub01_off r) (m_scene_step r) (m_announce_tick r) (m_scene r) (m_scene_blk r)
    (m_filler_desc r) (m_commit_seen r) (m_scene_inflight r) (m_scene_complete r)
    (m_join_held r) (m_join_ev r) (m_join_src r) (m_join_hold_blk r) (m_join_has_blk r)
    (m_grant_ticks r) (m_enroll_sent_tick r) (m_dwell_ended_tick r) (m_enroll_pending r)
    (m_grant_dwell r) (m_alloc r) (m_grant_burst r) (m_grant_burst_len r) (m_headamp_src r)
    (m_join_blk r) (m_box_mac r) (m_session_seq r) (m_grant_attempts r) (m_chanmap_cursor r)
    (m_est_chanmap_tick r) v (m_link_check_reload r) (m_box_seen r) (m_presence_tick r)
    (m_drop_reason r) (m_announce_blk r) (m_enroll_blk r) (m_identity_complete r)
    (m_identity_polls r) (m_identity_poll_left r) (m_identity_poll_slot r).
Definition set_m_link_check_reload (v : Z) (r : reac_master) : reac_master :=
  ReacMaster (m_state r) (m_src r) (m_counter r) (m_fps r) (m_grant_frames r)
    (m_grant_stride r) (m_cfg r) (m_chanmap_nframes r) (m_chanmap r) (m_cycle_len r)
    (m_cycle_pos r) (m_probe_stride r) (m_burst_end r) (m_sub02_off r) (m_chanmap_off r)
    (m_sub01_off r) (m_scene_step r) (m_announce_tick r) (m_scene r) (m_scene_blk r)
    (m_filler_desc r) (m_commit_seen r) (m_scene_inflight r) (m_scene_complete r)
    (m_join_held r) (m_join_ev r) (m_join_src r) (m_join_hold_blk r) (m_join_has_blk r)
    (m_grant_ticks r) (m_enroll_sent_tick r) (m_dwell_ended_tick r) (m_enroll_pending r)
    (m_grant_dwell r) (m_alloc r) (m_grant_burst r) (m_grant_burst_len r) (m_headamp_src r)
    (m_join_blk r) (m_box_mac r) (m_session_seq r) (m_grant_attempts r) (m_chanmap_cursor r)
    (m_est_chanmap_tick r) (m_link_check r) v (m_box_seen r) (m_presence_tick r)
    (m_drop_reason r) (m_announce_blk r) (m_enroll_blk r) (m_identity_complete r)
    (m_identity_polls r) (m_identity_poll_left r) (m_identity_poll_slot r).
Definition set_m_box_seen (v : bool) (r : reac_master) : reac_master :=
  ReacMaster (m_state r) (m_src r) (m_counter r) (m_fps r) (m_grant_frames r)
    (m_grant_stride r) (m_cfg r) (m_chanmap_nframes r) (m_chanmap r) (m_cycle_len r)
    (m_cycle_pos r) (m_probe_stride r) (m_burst_end r) (m_sub02_off r) (m_chanmap_off r)
    (m_sub01_off r) (m_scene_step r) (m_announce_tick r) (m_scene r) (m_scene_blk r)
    (m_filler_desc r) (m_commit_seen r) (m_scene_inflight r) (m_scene_complete r)
    (m_join_held r) (m_join_ev r) (m_join_src r) (m_join_hold_blk r) (m_join_has_blk r)
    (m_grant_ticks r) (m_enroll_sent_tick r) (m_dwell_ended_tick r) (m_enroll_pending r)
    (m_grant_dwell r) (m_alloc r) (m_grant_burst r) (m_grant_burst_len r) (m_headamp_src r)
    (m_join_blk r) (m_box_mac r) (m_session_seq r) (m_grant_attempts r) (m_chanmap_cursor r)
    (m_est_chanmap_tick r) (m_link_check r) (m_link_check_reload r) v (m_presence_tick r)
    (m_drop_reason r) (m_announce_blk r) (m_enroll_blk r) (m_identity_complete r)
    (m_identity_polls r) (m_identity_poll_left r) (m_identity_poll_slot r).
Definition set_m_presence_tick (v : Z) (r : reac_master) : reac_master :=
  ReacMaster (m_state r) (m_src r) (m_counter r) (m_fps r) (m_grant_frames r)
    (m_grant_stride r) (m_cfg r) (m_chanmap_nframes r) (m_chanmap r) (m_cycle_len r)
    (m_cycle_pos r) (m_probe_stride r) (m_burst_end r) (m_sub02_off r) (m_chanmap_off r)
    (m_sub01_off r) (m_scene_step r) (m_announce_tick r) (m_scene r) (m_scene_blk r)
    (m_filler_desc r) (m_commit_seen r) (m_scene_inflight r) (m_scene_complete r)
    (m_join_held r) (m_join_ev r) (m_join_src r) (m_join_hold_blk r) (m_join_has_blk r)
    (m_grant_ticks r) (m_enroll_sent_tick r) (m_dwell_ended_tick r) (m_enroll_pending r)
    (m_grant_dwell r) (m_alloc r) (m_grant_burst r) (m_grant_burst_len r) (m_headamp_src r)
    (m_join_blk r) (m_box_mac r) (m_session_seq r) (m_grant_attempts r) (m_chanmap_cursor r)
    (m_est_chanmap_tick r) (m_link_check r) (m_link_check_reload r) (m_box_seen r) v
    (m_drop_reason r) (m_announce_blk r) (m_enroll_blk r) (m_identity_complete r)
    (m_identity_polls r) (m_identity_poll_left r) (m_identity_poll_slot r).
Definition set_m_drop_reason (v : reac_master_drop_reason) (r : reac_master) : reac_master :=
  ReacMaster (m_state r) (m_src r) (m_counter r) (m_fps r) (m_grant_frames r)
    (m_grant_stride r) (m_cfg r) (m_chanmap_nframes r) (m_chanmap r) (m_cycle_len r)
    (m_cycle_pos r) (m_probe_stride r) (m_burst_end r) (m_sub02_off r) (m_chanmap_off r)
    (m_sub01_off r) (m_scene_step r) (m_announce_tick r) (m_scene r) (m_scene_blk r)
    (m_filler_desc r) (m_commit_seen r) (m_scene_inflight r) (m_scene_complete r)
    (m_join_held r) (m_join_ev r) (m_join_src r) (m_join_hold_blk r) (m_join_has_blk r)
    (m_grant_ticks r) (m_enroll_sent_tick r) (m_dwell_ended_tick r) (m_enroll_pending r)
    (m_grant_dwell r) (m_alloc r) (m_grant_burst r) (m_grant_burst_len r) (m_headamp_src r)
    (m_join_blk r) (m_box_mac r) (m_session_seq r) (m_grant_attempts r) (m_chanmap_cursor r)
    (m_est_chanmap_tick r) (m_link_check r) (m_link_check_reload r) (m_box_seen r)
    (m_presence_tick r) v (m_announce_blk r) (m_enroll_blk r) (m_identity_complete r)
    (m_identity_polls r) (m_identity_poll_left r) (m_identity_poll_slot r).
Definition set_m_announce_blk (v : list Z) (r : reac_master) : reac_master :=
  ReacMaster (m_state r) (m_src r) (m_counter r) (m_fps r) (m_grant_frames r)
    (m_grant_stride r) (m_cfg r) (m_chanmap_nframes r) (m_chanmap r) (m_cycle_len r)
    (m_cycle_pos r) (m_probe_stride r) (m_burst_end r) (m_sub02_off r) (m_chanmap_off r)
    (m_sub01_off r) (m_scene_step r) (m_announce_tick r) (m_scene r) (m_scene_blk r)
    (m_filler_desc r) (m_commit_seen r) (m_scene_inflight r) (m_scene_complete r)
    (m_join_held r) (m_join_ev r) (m_join_src r) (m_join_hold_blk r) (m_join_has_blk r)
    (m_grant_ticks r) (m_enroll_sent_tick r) (m_dwell_ended_tick r) (m_enroll_pending r)
    (m_grant_dwell r) (m_alloc r) (m_grant_burst r) (m_grant_burst_len r) (m_headamp_src r)
    (m_join_blk r) (m_box_mac r) (m_session_seq r) (m_grant_attempts r) (m_chanmap_cursor r)
    (m_est_chanmap_tick r) (m_link_check r) (m_link_check_reload r) (m_box_seen r)
    (m_presence_tick r) (m_drop_reason r) v (m_enroll_blk r) (m_identity_complete r)
    (m_identity_polls r) (m_identity_poll_left r) (m_identity_poll_slot r).
Definition set_m_enroll_blk (v : list Z) (r : reac_master) : reac_master :=
  ReacMaster (m_state r) (m_src r) (m_counter r) (m_fps r) (m_grant_frames r)
    (m_grant_stride r) (m_cfg r) (m_chanmap_nframes r) (m_chanmap r) (m_cycle_len r)
    (m_cycle_pos r) (m_probe_stride r) (m_burst_end r) (m_sub02_off r) (m_chanmap_off r)
    (m_sub01_off r) (m_scene_step r) (m_announce_tick r) (m_scene r) (m_scene_blk r)
    (m_filler_desc r) (m_commit_seen r) (m_scene_inflight r) (m_scene_complete r)
    (m_join_held r) (m_join_ev r) (m_join_src r) (m_join_hold_blk r) (m_join_has_blk r)
    (m_grant_ticks r) (m_enroll_sent_tick r) (m_dwell_ended_tick r) (m_enroll_pending r)
    (m_grant_dwell r) (m_alloc r) (m_grant_burst r) (m_grant_burst_len r) (m_headamp_src r)
    (m_join_blk r) (m_box_mac r) (m_session_seq r) (m_grant_attempts r) (m_chanmap_cursor r)
    (m_est_chanmap_tick r) (m_link_check r) (m_link_check_reload r) (m_box_seen r)
    (m_presence_tick r) (m_drop_reason r) (m_announce_blk r) v (m_identity_complete r)
    (m_identity_polls r) (m_identity_poll_left r) (m_identity_poll_slot r).
Definition set_m_identity_complete (v : bool) (r : reac_master) : reac_master :=
  ReacMaster (m_state r) (m_src r) (m_counter r) (m_fps r) (m_grant_frames r)
    (m_grant_stride r) (m_cfg r) (m_chanmap_nframes r) (m_chanmap r) (m_cycle_len r)
    (m_cycle_pos r) (m_probe_stride r) (m_burst_end r) (m_sub02_off r) (m_chanmap_off r)
    (m_sub01_off r) (m_scene_step r) (m_announce_tick r) (m_scene r) (m_scene_blk r)
    (m_filler_desc r) (m_commit_seen r) (m_scene_inflight r) (m_scene_complete r)
    (m_join_held r) (m_join_ev r) (m_join_src r) (m_join_hold_blk r) (m_join_has_blk r)
    (m_grant_ticks r) (m_enroll_sent_tick r) (m_dwell_ended_tick r) (m_enroll_pending r)
    (m_grant_dwell r) (m_alloc r) (m_grant_burst r) (m_grant_burst_len r) (m_headamp_src r)
    (m_join_blk r) (m_box_mac r) (m_session_seq r) (m_grant_attempts r) (m_chanmap_cursor r)
    (m_est_chanmap_tick r) (m_link_check r) (m_link_check_reload r) (m_box_seen r)
    (m_presence_tick r) (m_drop_reason r) (m_announce_blk r) (m_enroll_blk r) v
    (m_identity_polls r) (m_identity_poll_left r) (m_identity_poll_slot r).
Definition set_m_identity_polls (v : Z) (r : reac_master) : reac_master :=
  ReacMaster (m_state r) (m_src r) (m_counter r) (m_fps r) (m_grant_frames r)
    (m_grant_stride r) (m_cfg r) (m_chanmap_nframes r) (m_chanmap r) (m_cycle_len r)
    (m_cycle_pos r) (m_probe_stride r) (m_burst_end r) (m_sub02_off r) (m_chanmap_off r)
    (m_sub01_off r) (m_scene_step r) (m_announce_tick r) (m_scene r) (m_scene_blk r)
    (m_filler_desc r) (m_commit_seen r) (m_scene_inflight r) (m_scene_complete r)
    (m_join_held r) (m_join_ev r) (m_join_src r) (m_join_hold_blk r) (m_join_has_blk r)
    (m_grant_ticks r) (m_enroll_sent_tick r) (m_dwell_ended_tick r) (m_enroll_pending r)
    (m_grant_dwell r) (m_alloc r) (m_grant_burst r) (m_grant_burst_len r) (m_headamp_src r)
    (m_join_blk r) (m_box_mac r) (m_session_seq r) (m_grant_attempts r) (m_chanmap_cursor r)
    (m_est_chanmap_tick r) (m_link_check r) (m_link_check_reload r) (m_box_seen r)
    (m_presence_tick r) (m_drop_reason r) (m_announce_blk r) (m_enroll_blk r)
    (m_identity_complete r) v (m_identity_poll_left r) (m_identity_poll_slot r).
Definition set_m_identity_poll_left (v : Z) (r : reac_master) : reac_master :=
  ReacMaster (m_state r) (m_src r) (m_counter r) (m_fps r) (m_grant_frames r)
    (m_grant_stride r) (m_cfg r) (m_chanmap_nframes r) (m_chanmap r) (m_cycle_len r)
    (m_cycle_pos r) (m_probe_stride r) (m_burst_end r) (m_sub02_off r) (m_chanmap_off r)
    (m_sub01_off r) (m_scene_step r) (m_announce_tick r) (m_scene r) (m_scene_blk r)
    (m_filler_desc r) (m_commit_seen r) (m_scene_inflight r) (m_scene_complete r)
    (m_join_held r) (m_join_ev r) (m_join_src r) (m_join_hold_blk r) (m_join_has_blk r)
    (m_grant_ticks r) (m_enroll_sent_tick r) (m_dwell_ended_tick r) (m_enroll_pending r)
    (m_grant_dwell r) (m_alloc r) (m_grant_burst r) (m_grant_burst_len r) (m_headamp_src r)
    (m_join_blk r) (m_box_mac r) (m_session_seq r) (m_grant_attempts r) (m_chanmap_cursor r)
    (m_est_chanmap_tick r) (m_link_check r) (m_link_check_reload r) (m_box_seen r)
    (m_presence_tick r) (m_drop_reason r) (m_announce_blk r) (m_enroll_blk r)
    (m_identity_complete r) (m_identity_polls r) v (m_identity_poll_slot r).
Definition set_m_identity_poll_slot (v : Z) (r : reac_master) : reac_master :=
  ReacMaster (m_state r) (m_src r) (m_counter r) (m_fps r) (m_grant_frames r)
    (m_grant_stride r) (m_cfg r) (m_chanmap_nframes r) (m_chanmap r) (m_cycle_len r)
    (m_cycle_pos r) (m_probe_stride r) (m_burst_end r) (m_sub02_off r) (m_chanmap_off r)
    (m_sub01_off r) (m_scene_step r) (m_announce_tick r) (m_scene r) (m_scene_blk r)
    (m_filler_desc r) (m_commit_seen r) (m_scene_inflight r) (m_scene_complete r)
    (m_join_held r) (m_join_ev r) (m_join_src r) (m_join_hold_blk r) (m_join_has_blk r)
    (m_grant_ticks r) (m_enroll_sent_tick r) (m_dwell_ended_tick r) (m_enroll_pending r)
    (m_grant_dwell r) (m_alloc r) (m_grant_burst r) (m_grant_burst_len r) (m_headamp_src r)
    (m_join_blk r) (m_box_mac r) (m_session_seq r) (m_grant_attempts r) (m_chanmap_cursor r)
    (m_est_chanmap_tick r) (m_link_check r) (m_link_check_reload r) (m_box_seen r)
    (m_presence_tick r) (m_drop_reason r) (m_announce_blk r) (m_enroll_blk r)
    (m_identity_complete r) (m_identity_polls r) (m_identity_poll_left r) v.

(** ** The generated blocks *)

(** [reac_ctrl_block_cksum_stamp(blk + 2)] on a 34-byte template. *)
Definition stamp_block_cksum (blk : list Z) : list Z := reac_ctrl_block_cksum_stamp blk 2.

Definition ENROLL_BLK : list Z :=
  [0xcd; 0xea; 0x01; 0x03; 0x00; 0x0d; 0x10; 0x04; 0x00; 0x41; 0x00; 0x00;
   0x00; 0x00; 0x00; 0xc3; 0xc3; 0xc3; 0xc3; 0x00; 0x00; 0x00; 0x00; 0x00;
   0x00; 0x00; 0x00; 0x00; 0x00; 0x00; 0x00; 0x00; 0x00; 0x8e].

Definition pace_code (cfg : reac_console_cfg) : Z := console_field cfg.

(** Input groups of the ENROLL map, 1 to 5. *)
Definition enroll_groups (in_ch : Z) : Z :=
  let n_in := if in_ch <=? 16 then 1 else in_ch / 8 in
  let n_in := if n_in <? 1 then 1 else n_in in
  if 5 <? n_in then 5 else n_in.

Definition set_enroll_width (blk : list Z) (in_ch : Z) : list Z :=
  let n_in := enroll_groups in_ch in
  let blk := foldl (λ blk i,
               let blk := wr blk (9 + i) (if i <? n_in then 0x41 else 0x00) in
               wr blk (14 + i) (if n_in <=? i then 0xc3 else 0x00)) blk (zseq 0 5) in
  stamp_block_cksum blk.

Definition gen_cfea (src : list Z) (cfg : reac_console_cfg) (box_count : Z) : list Z :=
  let out := zeros 34 in
  let out := blit out 0 [0xcf; 0xea; 0xff; 0xff; 0x01; 0x00; 0x01; 0x03; 0x0d; 0x01; 0x04] in
  let out := blit out ANNOUNCE_MAC_IDX src in
  let out := wr out 17 0x28 in
  let out := wr out 18 (out_channels cfg) in
  let out := wr out 19 (pace_code cfg) in
  let out := wr out 20 (u8 (Z.shiftr box_count 8)) in
  let out := wr out 21 (u8 (Z.land box_count 0xff)) in
  stamp_block_cksum out.

Definition REAC_CHANMAP_MARKER : Z := 0xfe.
Definition REAC_CHANMAP_SLOTS : Z := 8.

Definition ring_at (i : Z) : Z :=
  let i := i mod REAC_M_CHANMAP_RING in
  if i =? REAC_M_CHANMAP_RING - 1 then REAC_CHANMAP_MARKER else u8 i.

Definition chanmap_start (f : Z) : Z :=
  if f =? 0 then REAC_M_CHANMAP_RING - 1
  else
    let i := f - 1 in
    let base := 7 - i / 6 in
    let k := i mod 6 in
    base + 8 * k.

(** The three bytes of one advertised ring position. *)
Definition chanmap_slot (marker_family ch : Z) : list Z :=
  if ch =? REAC_CHANMAP_MARKER then [0xfe; marker_family; 0x00]
  else [ch; if (0x28 <=? ch) && (ch <=? 0x2f) then 0x38 else 0x28; 0x00].

Definition chanmap_frame (marker_family f : Z) : list Z :=
  let blk := zeros 34 in
  let blk := blit blk 0 [0xcd; 0xea; 0x01; 0x03; 0x00; 0x19; 0x01] in
  let start := chanmap_start f in
  let blk := foldl (λ blk s, blit blk (7 + s * 3) (chanmap_slot marker_family (ring_at (start + s))))
               blk (zseq 0 REAC_CHANMAP_SLOTS) in
  let blk := wr (wr blk 31 0x00) 32 0x00 in
  stamp_block_cksum blk.

Definition gen_chanmap (cfg : reac_console_cfg) : list (list Z) :=
  chanmap_frame (pace_code cfg) <$> zseq 0 REAC_M_CHANMAP_RING.

(** ** Small predicates and the sweep *)

Definition reac_master_has_box (m : reac_master) : bool := 0 <? ga_width (m_alloc m).

Definition headamp_view (m : reac_master) (tx : reac_headamp_tx) : option reac_headamp_tx :=
  if m_headamp_src m then Some tx else None.

(** All or nothing: a failed allocation or build leaves the master as it was. *)
Definition rebuild_grant_sweep (tx : reac_headamp_tx) (m : reac_master) (base in_ch : Z)
    : reac_master * Z :=
  match reac_grant_allocate base in_ch with
  | None => (m, -1)
  | Some a =>
      match reac_grant_build_sweep REAC_GRANT_SWEEP_MAX a (headamp_view m tx) with
      | None => (m, -1)
      | Some rows =>
          if zlen rows <=? 0 then (m, -1)
          else (set_m_grant_burst_len (zlen rows) (set_m_alloc a (set_m_grant_burst rows m)), 0)
      end
  end.

Definition reac_master_grant_anchor (m : reac_master) : Z :=
  if 0 <? m_dwell_ended_tick m then m_dwell_ended_tick m else m_grant_dwell m.

Definition declare_settle_slots (m : reac_master) : Z :=
  let slots := m_fps m / 20 in
  if slots <? 1 then 1 else slots.

(** The slot of burst chunk [k], and the chunk a slot carries (-1 for none). *)
Definition burst_slot (fps k : Z) : Z :=
  let s := (k * fps + REAC_M_BURST_PER_SEC / 2) / REAC_M_BURST_PER_SEC in
  if s <? k then k else s.

Definition burst_index_at (m : reac_master) (pos : Z) : Z :=
  if (pos <? 0) || (m_burst_end m <? pos) || (m_fps m <=? 0) then -1
  else
    let k := (pos * REAC_M_BURST_PER_SEC + m_fps m / 2) / m_fps m in
    let k := if pos <? k then pos else k in
    let hit d := let c := k + d in
                 (0 <=? c) && (c <? REAC_SCENE_CHUNKS) && (burst_slot (m_fps m) c =? pos) in
    if hit (-1) then k - 1 else if hit 0 then k else if hit 1 then k + 1 else -1.

(** A step that cannot be built leaves the block and the descriptor as they are. *)
Definition scene_prepare (m : reac_master) : reac_master :=
  match reac_ctrl_build_scene_step (m_scene m) (zlen (m_scene m)) (m_scene_step m) with
  | None => m
  | Some blk => set_m_filler_desc blk.[33] (set_m_scene_blk blk m)
  end.

Section Ops.
Context (tn : reac_master_tunables).

Definition grant_dwell_override_ms : Z :=
  let ms := tn_grant_dwell_ms tn in
  if (0 <? ms) && (ms <? 600000) then ms else -1.
Definition grant_dwell_override_s : Z :=
  let s := tn_grant_dwell_s tn in
  if (0 <? s) && (s <=? 3600) then s else -1.

Definition at_least_1 (x : Z) : Z := if x <? 1 then 1 else x.

Definition init_grant_dwell (fps : Z) : Z :=
  let dwell := at_least_1 (fps * REAC_M_GRANT_DWELL_SECONDS_X10 / 10) in
  if 0 <? grant_dwell_override_ms then at_least_1 (fps * grant_dwell_override_ms / 1000)
  else if 0 <? grant_dwell_override_s then fps * grant_dwell_override_s
  else dwell.

(** The body the master pushes: the placeholder, its MAC and its pace code. *)
Definition init_scene (src : list Z) (cfg : reac_console_cfg) : list Z :=
  let scene := reac_scene_placeholder in
  let scene := default scene (reac_ctrl_scene_set_mac scene (zlen scene) src) in
  wr (wr scene REAC_SCENE_REVISION_OFF (pace_code cfg)) (REAC_SCENE_REVISION_OFF + 1) 0x00.

Definition reac_master_init (src : list Z) (cfg : option reac_console_cfg) (fps : Z) : reac_master :=
  let fps := if 0 <? fps then fps else 8000 in
  let cfg := default REAC_CONSOLE_CFG_IDLE cfg in
  let cycle_len := fps * 10778 / 4000 in
  let probe_stride := at_least_1 ((fps + REAC_M_BURST_PER_SEC / 2) / REAC_M_BURST_PER_SEC) in
  let burst_end := burst_slot fps (REAC_SCENE_CHUNKS - 1) in
  let chanmap := gen_chanmap cfg in
  let enroll := set_enroll_width (wr ENROLL_BLK REAC_ENROLL_CONSOLE_IDX (pace_code cfg))
                  REAC_ENROLL_DEFAULT_WIDTH in
  scene_prepare {|
    m_state := REAC_M_IDLE; m_src := src; m_counter := 0; m_fps := fps;
    m_grant_frames := at_least_1 (fps * 15 / 100); m_grant_stride := REAC_M_GRANT_STRIDE;
    m_cfg := cfg; m_chanmap_nframes := zlen chanmap; m_chanmap := chanmap;
    m_cycle_len := cycle_len; m_cycle_pos := 0; m_probe_stride := probe_stride;
    m_burst_end := burst_end; m_sub02_off := burst_end + probe_stride;
    m_chanmap_off := fps * 5953 / 4000; m_sub01_off := cycle_len - 5;
    m_scene_step := 0; m_announce_tick := 0;
    m_scene := init_scene src cfg; m_scene_blk := zeros 34; m_filler_desc := 0;
    m_commit_seen := false; m_scene_inflight := false; m_scene_complete := 0;
    m_join_held := false; m_join_ev := REAC_M_RX_BOX_BCAST_FILLER; m_join_src := zeros 6;
    m_join_hold_blk := zeros 32; m_join_has_blk := false;
    m_grant_ticks := 0; m_enroll_sent_tick := 0; m_dwell_ended_tick := 0;
    m_enroll_pending := false; m_grant_dwell := init_grant_dwell fps;
    m_alloc := GrantAlloc 0 0; m_grant_burst := []; m_grant_burst_len := 0;
    m_headamp_src := false; m_join_blk := zeros 32; m_box_mac := zeros 6;
    m_session_seq := 0; m_grant_attempts := 0; m_chanmap_cursor := 0; m_est_chanmap_tick := 0;
    m_link_check := 0;
    m_link_check_reload := at_least_1 (fps * REAC_M_LINKCHECK_SECONDS_X10 / 10);
    m_box_seen := false; m_presence_tick := 0; m_drop_reason := REAC_M_DROP_NONE;
    m_announce_blk := gen_cfea src cfg 0; m_enroll_blk := enroll;
    m_identity_complete := false; m_identity_polls := 0; m_identity_poll_left := 0;
    m_identity_poll_slot := 0 |}.

(** Does the dwell end at this slot? Latches the slot the first time it does. *)
Definition dwell_ends_now (m : reac_master) : reac_master * bool :=
  if 0 <? m_dwell_ended_tick m then (m, true)
  else if negb (tn_grant_on_declare tn && negb (m_enroll_pending m) && (0 <? m_enroll_sent_tick m)
                && (m_enroll_sent_tick m + declare_settle_slots m <=? m_grant_ticks m))
  then (m, false)
  else (set_m_dwell_ended_tick (m_grant_ticks m) m, true).

(** ** The box *)

Definition mac_none (mac : list Z) : bool := zeqb mac (zeros 6).

Definition rx_event_is_join (ev : reac_master_rx_event) : bool :=
  match ev with REAC_M_RX_BOX_JOIN => true | _ => false end.
Definition state_eqb (a b : reac_master_state) : bool := bool_decide (a = b).

Definition reac_master_peer_accepts (m : reac_master) (src : list Z) (ev : reac_master_rx_event)
    : bool :=
  if negb (state_eqb (m_state m) REAC_M_GRANTING) && negb (state_eqb (m_state m) REAC_M_ESTABLISHED)
  then true
  else if mac_none (m_box_mac m) || zeqb src (m_box_mac m) then true
  else rx_event_is_join ev && state_eqb (m_state m) REAC_M_GRANTING.

Definition set_out_channels (v : Z) (c : reac_console_cfg) : reac_console_cfg :=
  ConsoleCfg v (console_field c).

Definition reac_master_forget_box (m : reac_master) : reac_master :=
  let m := set_m_alloc (GrantAlloc 0 0) m in
  let m := set_m_grant_burst_len 0 m in
  let m := set_m_enroll_pending false m in
  let m := set_m_enroll_sent_tick 0 m in
  let m := set_m_box_mac (zeros 6) m in
  let m := set_m_enroll_blk (set_enroll_width (m_enroll_blk m) REAC_ENROLL_DEFAULT_WIDTH) m in
  let m := set_m_cfg (set_out_channels (out_channels REAC_CONSOLE_CFG_IDLE) (m_cfg m)) m in
  set_m_announce_blk (gen_cfea (m_src m) (m_cfg m) 0) m.

Definition reac_master_set_box (tx : reac_headamp_tx) (m : reac_master)
    (in_ch out_ch headamp_base : Z) : reac_master :=
  let had_box := reac_master_has_box m in
  let '(m, rc) := rebuild_grant_sweep tx m headamp_base in_ch in
  if negb (rc =? 0) then m
  else
    let m := set_m_enroll_blk (set_enroll_width (m_enroll_blk m) in_ch) m in
    let m := set_m_enroll_pending true m in
    let m :=
      if negb had_box && state_eqb (m_state m) REAC_M_GRANTING then
        let m := set_m_grant_ticks 0 m in
        let m := set_m_enroll_sent_tick 0 m in
        let m := set_m_dwell_ended_tick 0 m in
        let m := set_m_announce_tick 0 m in
        let m := set_m_enroll_pending false m in
        set_m_enroll_sent_tick 0 m
      else m in
    let m := set_m_cfg (set_out_channels (u8 in_ch) (m_cfg m)) m in
    set_m_announce_blk
      (gen_cfea (m_src m) (m_cfg m) (if state_eqb (m_state m) REAC_M_ESTABLISHED then 1 else 0)) m.

Definition reac_master_set_headamp_src (tx : reac_headamp_tx) (set : bool) (m : reac_master)
    : reac_master :=
  let m := set_m_headamp_src set m in
  (rebuild_grant_sweep tx m (ga_base (m_alloc m)) (ga_width (m_alloc m))).1.

(** ** Entry actions *)

Definition reset_control_cadence (m : reac_master) : reac_master :=
  let m := set_m_cycle_pos (m_sub01_off m) m in
  let m := set_m_announce_tick (3 * m_fps m / 4) m in
  let m := set_m_chanmap_cursor 0 m in
  set_m_est_chanmap_tick (m_fps m / 4) m.

Definition enter_probing (m : reac_master) : reac_master :=
  let backward := negb (state_eqb (m_state m) REAC_M_IDLE) in
  let m := set_m_state REAC_M_PROBING m in
  let m := reset_control_cadence m in
  let m := set_m_scene_inflight false m in
  let m := set_m_scene_complete 0 m in
  let m := set_m_join_held false m in
  let m := set_m_commit_seen false m in
  if backward then reac_master_forget_box m
  else set_m_announce_blk (gen_cfea (m_src m) (m_cfg m) 0) m.

Definition enter_granting (tx : reac_headamp_tx) (m : reac_master) (box_src : list Z)
    (blk32 : option (list Z)) : reac_master :=
  let m := set_m_state REAC_M_GRANTING m in
  let m := set_m_grant_ticks 0 m in
  let m := set_m_enroll_sent_tick 0 m in
  let m := set_m_dwell_ended_tick 0 m in
  let m := set_m_grant_attempts (u32 (m_grant_attempts m + 1)) m in
  let m := set_m_box_mac box_src m in
  let m := match blk32 with Some b => set_m_join_blk b m | None => m end in
  let m := (rebuild_grant_sweep tx m (ga_base (m_alloc m)) (ga_width (m_alloc m))).1 in
  let m := if reac_master_has_box m
           then set_m_cfg (set_out_channels (ga_width (m_alloc m)) (m_cfg m)) m else m in
  set_m_announce_blk (gen_cfea (m_src m) (m_cfg m) 0) m.

Definition reac_master_regrant (tx : reac_headamp_tx) (m : reac_master) : reac_master :=
  enter_granting tx m (m_box_mac m) None.

(** What the pacer does with a new declaration: record it, and grant again when
    it changed the width of a box already granted. *)
Definition declare_box (tx : reac_headamp_tx) (m : reac_master) (in_ch out_ch headamp_base : Z)
    : reac_master :=
  let prev_w := ga_width (m_alloc m) in
  let m := reac_master_set_box tx m in_ch out_ch headamp_base in
  if (ga_width (m_alloc m) =? in_ch) && negb (in_ch =? prev_w)
     && (state_eqb (m_state m) REAC_M_GRANTING || state_eqb (m_state m) REAC_M_ESTABLISHED)
  then reac_master_regrant tx m else m.

Definition reac_master_identity_answered (complete : bool) (m : reac_master) : reac_master :=
  set_m_identity_complete complete m.

Definition enter_established (m : reac_master) : reac_master :=
  let m := set_m_state REAC_M_ESTABLISHED m in
  let m := set_m_session_seq (u32 (m_session_seq m + 1)) m in
  let m := set_m_identity_polls 0 m in
  let m := set_m_identity_poll_left 0 m in
  let m := reset_control_cadence m in
  let m := set_m_link_check (m_link_check_reload m) m in
  set_m_announce_blk (gen_cfea (m_src m) (m_cfg m) 1) m.

Definition grant_delivered (m : reac_master) : bool :=
  reac_master_has_box m &&
  (reac_master_grant_anchor m + m_grant_burst_len m * m_grant_stride m + 1 <=? m_grant_ticks m).

Definition scene_transfer_ready (m : reac_master) : bool :=
  (0 <? m_scene_complete m) && negb (m_scene_inflight m).

Definition hold_join (m : reac_master) (ev : reac_master_rx_event) (box_src : list Z)
    (blk32 : option (list Z)) : reac_master :=
  let m := set_m_join_held true m in
  let m := set_m_join_ev ev m in
  let m := set_m_join_src box_src m in
  let m := set_m_join_has_blk (match blk32 with Some _ => true | None => false end) m in
  match blk32 with Some b => set_m_join_hold_blk b m | None => m end.

Definition apply_edge (tx : reac_headamp_tx) (m : reac_master) (e : reac_master_edge)
    (box_src : list Z) (blk32 : option (list Z)) : reac_master :=
  let m := if bool_decide (e_drop e = REAC_M_DROP_NONE) then m else set_m_drop_reason (e_drop e) m in
  if negb (e_enter e) then m
  else match e_next e with
       | REAC_M_PROBING => enter_probing m
       | REAC_M_GRANTING => enter_granting tx m box_src blk32
       | REAC_M_ESTABLISHED => enter_established m
       | REAC_M_IDLE => m
       end.

Definition ev_is_join (dev : reac_master_ev) : bool :=
  match dev with REAC_M_EV_JOIN_NEW | REAC_M_EV_JOIN_SAME => true | _ => false end.

Definition have_blk (blk32 : option (list Z)) : bool :=
  match blk32 with Some _ => true | None => false end.

Definition release_held_join (tx : reac_headamp_tx) (m : reac_master) : reac_master :=
  let ev := m_join_ev m in
  let blk := if m_join_has_blk m then Some (m_join_hold_blk m) else None in
  let src := m_join_src m in
  let m := set_m_join_held false m in
  let dev := reac_master_fsm_classify ev (have_blk blk) (zeqb src (m_box_mac m)) (grant_delivered m) in
  let e := reac_master_fsm_step (m_state m) dev in
  apply_edge tx m e src (if ev_is_join dev then blk else None).

(** The START promotion both entry points run in IDLE. *)
Definition promote_idle (tx : reac_headamp_tx) (m : reac_master) : reac_master :=
  if state_eqb (m_state m) REAC_M_IDLE
  then apply_edge tx m (reac_master_fsm_step (m_state m) REAC_M_EV_START) (zeros 6) None
  else m.

Definition reac_master_rx (tx : reac_headamp_tx) (m : reac_master) (ev : reac_master_rx_event)
    (box_src : list Z) (blk32 : option (list Z)) : reac_master * bool :=
  if negb (reac_master_peer_accepts m box_src ev) then (m, false)
  else
    let m := set_m_presence_tick REAC_M_PRESENCE_TIMEOUT (set_m_box_seen true m) in
    let m := promote_idle tx m in
    let m := match ev with REAC_M_RX_BOX_CONFIG => set_m_commit_seen true m | _ => m end in
    let m := if state_eqb (m_state m) REAC_M_ESTABLISHED
             then set_m_link_check (m_link_check_reload m) m else m in
    let dev := reac_master_fsm_classify ev (have_blk blk32) (zeqb box_src (m_box_mac m))
                 (grant_delivered m) in
    let e := reac_master_fsm_step (m_state m) dev in
    let jblk := if ev_is_join dev then blk32 else None in
    if e_transitioned e && state_eqb (m_state m) REAC_M_PROBING
       && state_eqb (e_next e) REAC_M_GRANTING && negb (scene_transfer_ready m)
    then (hold_join m ev box_src jblk, false)
    else (apply_edge tx m e box_src jblk, e_transitioned e).

(** ** The cadence *)

(** Take the next window of the rolling channel map. *)
Definition take_chanmap (m : reac_master) : reac_master * Z :=
  (set_m_chanmap_cursor ((m_chanmap_cursor m + 1) mod m_chanmap_nframes m) m, m_chanmap_cursor m).

(** [Some idx] when a chanmap is due on this GRANTING slot. *)
Definition granting_chanmap_due (m : reac_master) : reac_master * option Z :=
  let m := set_m_est_chanmap_tick (m_est_chanmap_tick m + 1) m in
  if m_est_chanmap_tick m <? m_fps m then (m, None)
  else
    let m := set_m_est_chanmap_tick 0 m in
    let '(m, idx) := take_chanmap m in (m, Some idx).

Definition slot_out : Type := reac_master * reac_master_emit * Z.

Definition scene_slot (m : reac_master) (step : Z) (e : reac_master_emit) : slot_out :=
  (set_m_scene_step step m, e, 0).

(** The scene push of the three kinds of slot the cycle reserves for it. *)
Definition scene_chunk_at (m : reac_master) (pos : Z) : option slot_out :=
  let k := burst_index_at m pos in
  if 0 <=? k then Some (scene_slot m (1 + k) REAC_M_EMIT_SCENE_CHUNK) else None.
Definition scene_tail_at (m : reac_master) (pos : Z) : option slot_out :=
  if pos =? m_sub02_off m then Some (scene_slot m (REAC_SCENE_STEPS - 1) REAC_M_EMIT_SCENE_TAIL)
  else None.
Definition scene_head_at (m : reac_master) (pos : Z) : option slot_out :=
  if pos =? m_sub01_off m then Some (scene_slot m 0 REAC_M_EMIT_SCENE_HEAD) else None.

Definition or_else {A} (x : option A) (y : A) : A := default y x.

(** The re-poll of the identity page at the foot of the locked cadence. *)
Definition identity_repoll (m : reac_master) : slot_out :=
  if 0 <? m_identity_poll_left m then
    let m := set_m_identity_poll_slot (m_identity_poll_slot m + 1) m in
    if m_grant_stride m <=? m_identity_poll_slot m then
      let m := set_m_identity_poll_slot 0 m in
      let idx := REAC_GRANT_GROUPB_LEN - m_identity_poll_left m in
      (set_m_identity_poll_left (m_identity_poll_left m - 1) m, REAC_M_EMIT_IDENTITY_POLL, idx)
    else (m, REAC_M_EMIT_FILLER, 0)
  else if negb (m_identity_complete m) && (m_identity_polls m <? REAC_M_IDENTITY_POLLS)
          && (m_announce_tick m =? m_fps m / 4) then
    let m := set_m_identity_polls (m_identity_polls m + 1) m in
    let m := set_m_identity_poll_left REAC_GRANT_GROUPB_LEN m in
    (set_m_identity_poll_slot 0 m, REAC_M_EMIT_FILLER, 0)
  else (m, REAC_M_EMIT_FILLER, 0).

Definition locked_cadence (m : reac_master) (pos : Z) : slot_out :=
  let m := set_m_est_chanmap_tick (m_est_chanmap_tick m + 1) m in
  if m_fps m <=? m_announce_tick m then (set_m_announce_tick 0 m, REAC_M_EMIT_ANNOUNCE, 0)
  else if m_fps m <=? m_est_chanmap_tick m then
    let m := set_m_est_chanmap_tick 0 m in
    let '(m, idx) := take_chanmap m in (m, REAC_M_EMIT_CHANMAP, idx)
  else if tn_est_scene tn then
    or_else (scene_chunk_at m pos)
      (or_else (scene_tail_at m pos) (or_else (scene_head_at m pos) (identity_repoll m)))
  else identity_repoll m.

Definition hunt_cadence (m : reac_master) (pos : Z) : slot_out :=
  or_else (scene_chunk_at m pos)
    (or_else (scene_tail_at m pos)
       (if pos =? m_chanmap_off m then
          let '(m, idx) := take_chanmap m in (m, REAC_M_EMIT_CHANMAP, idx)
        else or_else (scene_head_at m pos)
          (if m_fps m <=? m_announce_tick m
           then (set_m_announce_tick 0 m, REAC_M_EMIT_ANNOUNCE, 0)
           else (m, REAC_M_EMIT_FILLER, 0)))).

Definition control_cadence (m : reac_master) : slot_out :=
  let pos := m_cycle_pos m in
  let m := set_m_cycle_pos ((pos + 1) mod m_cycle_len m) m in
  let m := set_m_announce_tick (m_announce_tick m + 1) m in
  if state_eqb (m_state m) REAC_M_ESTABLISHED then locked_cadence m pos else hunt_cadence m pos.

(** [++m->announce_tick >= m->fps] and the reset that goes with it. *)
Definition announce_due (m : reac_master) : reac_master * reac_master_emit :=
  let m := set_m_announce_tick (m_announce_tick m + 1) m in
  if m_fps m <=? m_announce_tick m then (set_m_announce_tick 0 m, REAC_M_EMIT_ANNOUNCE)
  else (m, REAC_M_EMIT_FILLER).

(** The map if one is due, else the announce, else FILLER. *)
Definition dwell_slot (m : reac_master) : slot_out :=
  match granting_chanmap_due m with
  | (m, Some idx) => (m, REAC_M_EMIT_CHANMAP, idx)
  | (m, None) => let '(m, e) := announce_due m in (m, e, 0)
  end.

(** GRANTING before the box has declared itself: the ungranted hold. *)
Definition granting_unknown (tx : reac_headamp_tx) (m : reac_master) : slot_out :=
  let '(m, emit, idx) :=
    if m_grant_ticks m =? 0 then (m, REAC_M_EMIT_ENROLL, 0) else dwell_slot m in
  let m := set_m_grant_ticks (m_grant_ticks m + 1) m in
  let m := if m_grant_dwell m <? m_grant_ticks m
           then apply_edge tx m (reac_master_fsm_step (m_state m) REAC_M_EV_BOX_UNKNOWN) (zeros 6) None
           else m in
  (m, emit, idx).

(** A slot of the burst: a sweep row on its stride, else a due map, else FILLER. *)
Definition burst_slot_out (m : reac_master) : slot_out :=
  let gt := m_grant_ticks m - 1 - reac_master_grant_anchor m in
  let k := Z.quot gt (m_grant_stride m) in
  if (Z.rem gt (m_grant_stride m) =? 0) && (k <? m_grant_burst_len m)
  then (m, REAC_M_EMIT_GRANT, k)
  else match granting_chanmap_due m with
       | (m, Some idx) => (m, REAC_M_EMIT_CHANMAP, idx)
       | (m, None) => (m, REAC_M_EMIT_FILLER, 0)
       end.

Definition enroll_emit : reac_master_emit :=
  if tn_no_enroll tn then REAC_M_EMIT_FILLER else REAC_M_EMIT_ENROLL.

(** GRANTING with a declared box: the ENROLL slot, the dwell, then the burst. *)
Definition granting_slot (m : reac_master) : slot_out :=
  if m_grant_ticks m =? 0 then (m, enroll_emit, 0)
  else
    let '(m, in_dwell) :=
      if m_grant_ticks m <=? m_grant_dwell m
      then let '(m, ends) := dwell_ends_now m in (m, negb ends) else (m, false) in
    if in_dwell then
      if m_enroll_pending m then
        let m := set_m_enroll_pending false m in
        (set_m_enroll_sent_tick (m_grant_ticks m) m, enroll_emit, 0)
      else dwell_slot m
    else burst_slot_out m.

Definition granting_known (tx : reac_headamp_tx) (m : reac_master) : slot_out :=
  let '(m, emit, idx) := granting_slot m in
  let m := set_m_grant_ticks (m_grant_ticks m + 1) m in
  let m := if grant_delivered m
           then apply_edge tx m (reac_master_fsm_step (m_state m) REAC_M_EV_GRANT_DELIVERED) (zeros 6) None
           else m in
  (m, emit, idx).

Definition established_slot (tx : reac_headamp_tx) (m : reac_master) : slot_out :=
  let '(m, emit, idx) := control_cadence m in
  let m := set_m_link_check (m_link_check m - 1) m in
  let m := if m_link_check m <=? 0
           then apply_edge tx m (reac_master_fsm_step (m_state m) REAC_M_EV_LINK_LOST) (zeros 6) None
           else m in
  (m, emit, idx).

Definition emit_is_scene (e : reac_master_emit) : bool :=
  match e with
  | REAC_M_EMIT_SCENE_HEAD | REAC_M_EMIT_SCENE_CHUNK | REAC_M_EMIT_SCENE_TAIL => true
  | _ => false
  end.

(** The transfer accounting after the slot is decided, with the held edge. *)
Definition transfer_account (tx : reac_headamp_tx) (m : reac_master) (emit : reac_master_emit)
    : reac_master :=
  match emit with
  | REAC_M_EMIT_SCENE_HEAD => set_m_scene_inflight true m
  | REAC_M_EMIT_SCENE_TAIL =>
      if m_scene_inflight m then
        let m := set_m_scene_inflight false m in
        let m := set_m_scene_complete (u32 (m_scene_complete m + 1)) m in
        if m_join_held m then release_held_join tx m else m
      else m
  | _ => m
  end.

(** The slot's decision: the switch on the state. *)
Definition slot_decide (tx : reac_headamp_tx) (m : reac_master) : slot_out :=
  match m_state m with
  | REAC_M_IDLE | REAC_M_PROBING => control_cadence m
  | REAC_M_GRANTING => if negb (reac_master_has_box m) then granting_unknown tx m else granting_known tx m
  | REAC_M_ESTABLISHED => established_slot tx m
  end.

(** The counter to stamp, the frame kind and its template index. *)
Definition reac_master_next (tx : reac_headamp_tx) (m : reac_master)
    : reac_master * (Z * reac_master_emit * Z) :=
  let counter := m_counter m in
  let m := set_m_counter (u16 (m_counter m + 1)) m in
  let m := promote_idle tx m in
  let m := if m_box_seen m then
             let m := set_m_presence_tick (m_presence_tick m - 1) m in
             if m_presence_tick m <=? 0 then set_m_box_seen false m else m
           else m in
  let '(m, emit, idx) := slot_decide tx m in
  let m := if emit_is_scene emit then scene_prepare m else m in
  let m := transfer_account tx m emit in
  (m, (counter, emit, idx)).

End Ops.

(** ** Stamping a frame *)

Definition apply_block (frame blk : list Z) : list Z :=
  reac_ctrl_checksum_apply (blit frame 16 blk).

Definition stamp_filler_descriptor (frame : list Z) (desc : Z) : list Z :=
  foldl (λ frame i, wr (wr frame i 0x00) (i + 1) desc) frame
    ((λ j, REAC_CTRL_BLOCK_OFF + 2 * j) <$> zseq 0 (REAC_CTRL_BLOCK_LEN / 2)).

(** [None] is the -1 return, the frame untouched. *)
Definition reac_master_stamp (m : reac_master) (frame : list Z) (emit : reac_master_emit)
    (tmpl_idx : Z) : option (list Z) :=
  match emit with
  | REAC_M_EMIT_FILLER => Some (stamp_filler_descriptor frame (m_filler_desc m))
  | REAC_M_EMIT_SCENE_HEAD | REAC_M_EMIT_SCENE_CHUNK | REAC_M_EMIT_SCENE_TAIL =>
      Some (apply_block frame (m_scene_blk m))
  | REAC_M_EMIT_GRANT =>
      if (tmpl_idx <? 0) || (m_grant_burst_len m <=? tmpl_idx) then None
      else apply_block frame <$> m_grant_burst m !! Z.to_nat tmpl_idx
  | REAC_M_EMIT_IDENTITY_POLL => apply_block frame <$> reac_ctrl_identity_poll_block tmpl_idx
  | REAC_M_EMIT_ENROLL => Some (apply_block frame (m_enroll_blk m))
  | REAC_M_EMIT_CHANMAP =>
      if (tmpl_idx <? 0) || (m_chanmap_nframes m <=? tmpl_idx) then None
      else apply_block frame <$> m_chanmap m !! Z.to_nat tmpl_idx
  | REAC_M_EMIT_ANNOUNCE => Some (apply_block frame (m_announce_blk m))
  end.

(** ** Rates *)

Definition reac_mixer_resolve_rate (requested : Z) : Z * bool :=
  if requested =? 0 then (48000, false)
  else if negb (requested =? 44100) && negb (requested =? 48000) && negb (requested =? 96000)
  then (48000, true)
  else (requested, false).
