(* ===== verification/MasterInv.v ===== *)
(** * MasterInv: what every reachable master state satisfies

    The invariant of [struct reac_master] over everything its owner does to it
    (the pacer's slots, received frames, box declarations, head-amp edits), and
    the safety theorems that follow from it. *)

From S2P Require Import Prelude Wire CtrlBlk CtrlFrames HeadampTx Grant MasterFsm Scene Master.
Local Open Scope Z_scope.

(** ** The generated blocks *)

Lemma set_enroll_width_ok blk n : zlen blk = 34 → tmpl_ok (set_enroll_width blk n).
Proof.
  intros Hl. apply tmpl_stamp_ok. change (zseq 0 5) with [0; 1; 2; 3; 4]. simpl. zl.
Qed.

Lemma set_enroll_width_head blk n i :
  0 ≤ i < 9 → (set_enroll_width blk n).[i] = blk.[i].
Proof.
  intros Hi. unfold set_enroll_width, stamp_block_cksum. rewrite rd_block_stamp_ne by lia.
  change (zseq 0 5) with [0; 1; 2; 3; 4]. simpl. by rewrite !rd_wr_ne by lia.
Qed.

Lemma gen_cfea_ok src cfg n : tmpl_ok (gen_cfea src cfg n).
Proof. apply tmpl_stamp_ok. zl. Qed.

Lemma chanmap_frame_ok f i : tmpl_ok (chanmap_frame f i).
Proof.
  apply tmpl_stamp_ok. change (zseq 0 REAC_CHANMAP_SLOTS) with [0; 1; 2; 3; 4; 5; 6; 7].
  cbn [foldl]. zl.
Qed.

Lemma init_scene_len src cfg : zlen (init_scene src cfg) = 8904.
Proof.
  unfold init_scene, reac_ctrl_scene_set_mac. rewrite !zlen_wr, scene_placeholder_len, Z.eqb_refl.
  change (zlen (blit reac_scene_placeholder REAC_SCENE_MAC_OFF src) = 8904).
  rewrite zlen_blit. apply scene_placeholder_len.
Qed.

Lemma gen_chanmap_lookup cfg i :
  0 ≤ i < 49 → gen_chanmap cfg !! Z.to_nat i = Some (chanmap_frame (console_field cfg) i).
Proof.
  intros Hi. unfold gen_chanmap, zseq. rewrite list_lookup_fmap, lookup_seqZ_lt
    by (unfold REAC_M_CHANMAP_RING; lia).
  simpl. by rewrite Z2Nat.id by lia.
Qed.

(** ** The invariant *)

Definition established (m : reac_master) : bool := state_eqb (m_state m) REAC_M_ESTABLISHED.

(** The slot geometry [reac_master_init] derives from the frame rate. *)
Definition geom (m : reac_master) : Prop :=
  500 ≤ m_fps m ∧ m_cycle_len m = m_fps m * 10778 / 4000 ∧
  m_probe_stride m = (m_fps m + 250) / 500 ∧ m_burst_end m = burst_slot (m_fps m) 340 ∧
  m_sub02_off m = m_burst_end m + m_probe_stride m ∧ m_chanmap_off m = m_fps m * 5953 / 4000 ∧
  m_sub01_off m = m_cycle_len m - 5 ∧ m_link_check_reload m = m_fps m * 65 / 10 ∧
  m_grant_stride m = 12 ∧ m_chanmap_nframes m = 49 ∧ 1 ≤ m_grant_dwell m.

(** Either no box is known and there is nothing to grant, or the allocation is
    admissible and the sweep in hand is the whole one for its width. *)
Definition box_ok (a : reac_grant_alloc) (burst : list (list Z)) (len out_ch : Z) : Prop :=
  (ga_width a = 0 ∧ len = 0) ∨
  (reac_grant_alloc_fits (ga_base a) (ga_width a) = true ∧ len = 8 + 3 * ga_width a ∧
   zlen burst = len ∧ Forall row_closed burst ∧ out_ch = ga_width a).

Definition held_ok (m : reac_master) : Prop :=
  m_join_held m = true →
  m_state m = REAC_M_PROBING ∧ scene_transfer_ready m = false ∧
  ((m_join_ev m = REAC_M_RX_BOX_JOIN ∧ m_join_has_blk m = true) ∨ m_join_ev m = REAC_M_RX_BOX_CONFIG).

(** The parts a step leaves alone hold by assumption. *)
Ltac iv_frame := split; simpl; try done; try lia.

Section Inv.
(** The identity a master is created with and keeps. *)
Context (src0 : list Z) (pace0 : Z).

Record minv (m : reac_master) : Prop := {
  iv_geom : geom m;
  iv_src : zlen (m_src m) = 6 ∧ m_src m = src0 ∧ console_field (m_cfg m) = pace0;
  iv_announce : m_announce_blk m = gen_cfea (m_src m) (m_cfg m) (b2z (established m));
  iv_pos : 0 ≤ m_cycle_pos m < m_cycle_len m;
  iv_cursor : 0 ≤ m_chanmap_cursor m < 49;
  iv_chanmap : m_chanmap m = gen_chanmap (m_cfg m);
  iv_box : box_ok (m_alloc m) (m_grant_burst m) (m_grant_burst_len m) (out_channels (m_cfg m));
  iv_enroll : tmpl_ok (m_enroll_blk m) ∧ (m_enroll_blk m).[8] = console_field (m_cfg m);
  iv_scene : zlen (m_scene m) = 8904 ∧ (m_scene m).[REAC_SCENE_REVISION_OFF] = console_field (m_cfg m)
             ∧ tmpl_ok (m_scene_blk m);
  iv_polls : 0 ≤ m_identity_poll_left m ≤ 6;
  iv_ticks : 0 ≤ m_grant_ticks m ∧ 0 ≤ m_dwell_ended_tick m ∧
             (m_state m = REAC_M_GRANTING → m_dwell_ended_tick m ≤ m_grant_ticks m);
  iv_held : held_ok m;
  iv_counter : 0 ≤ m_counter m < 65536
}.

Definition tx_ok (tx : reac_headamp_tx) : Prop := ∃ I, tx_refines tx I.

Lemma headamp_view_ok m tx : tx_ok tx → view_ok (headamp_view m tx).
Proof.
  intros [I HI]. unfold headamp_view. destruct (m_headamp_src m);
    [by apply (view_ok_refines tx I)|apply view_ok_none].
Qed.

(** A rebuild installs a complete sweep, or changes nothing. *)
Lemma rebuild_spec tx m base w :
  tx_ok tx →
  if reac_grant_alloc_fits base w then
    ∃ rows, zlen rows = 8 + 3 * w ∧ Forall row_closed rows ∧
      rebuild_grant_sweep tx m base w =
        (set_m_grant_burst_len (8 + 3 * w) (set_m_alloc (GrantAlloc base w) (set_m_grant_burst rows m)), 0)
  else rebuild_grant_sweep tx m base w = (m, -1).
Proof.
  intros Htx. unfold rebuild_grant_sweep, reac_grant_allocate.
  destruct (reac_grant_alloc_fits base w) eqn:Hf.
  - pose proof (proj1 (alloc_fits_iff _ _) Hf) as (Hw & Hb & Hbw).
    replace (_ || _) with false by (unfold REAC_GRANT_MAX_WIDTH; lia).
    cbn [negb]. rewrite !u8_small by lia.
    destruct (build_sweep_ok (headamp_view m tx) base w) as (rows & -> & Hlen & Hcl & _);
      [by apply headamp_view_ok|done|].
    exists rows. split_and!; [done|done|]. rewrite Hlen.
    by replace (8 + 3 * w <=? 0) with false by lia.
  - by destruct (_ || _).
Qed.

(** An existing box can always be rebuilt in place. *)
Lemma rebuild_box tx m out_ch :
  tx_ok tx → box_ok (m_alloc m) (m_grant_burst m) (m_grant_burst_len m) out_ch →
  ∃ rows, (rebuild_grant_sweep tx m (ga_base (m_alloc m)) (ga_width (m_alloc m))).1 =
      set_m_grant_burst rows m ∧
    box_ok (m_alloc m) rows (m_grant_burst_len m) out_ch.
Proof.
  intros Htx Hbox.
  pose proof (rebuild_spec tx m (ga_base (m_alloc m)) (ga_width (m_alloc m)) Htx) as Hr.
  destruct Hbox as [[Hw Hl]|(Hf & Hl & Hz & Hc & Ho)].
  - replace (reac_grant_alloc_fits _ _) with false in Hr by (rewrite Hw; reflexivity).
    rewrite Hr. exists (m_grant_burst m). split; [by destruct m|by left].
  - rewrite Hf in Hr. destruct Hr as (rows & Hlen & Hcl & ->).
    exists rows. split; [|right; split_and!; (done || lia)].
    rewrite <- Hl. by destruct m as [????? ????? ????? ????? ????? ????? ???? [] ].
Qed.

(** ** Preservation: the entry actions *)

Lemma geom_cycle m : geom m → 0 ≤ m_sub01_off m < m_cycle_len m.
Proof. intros (? & ? & ? & ? & ? & ? & ? & _). lia. Qed.

Lemma minv_forget m : minv m → established m = false → minv (reac_master_forget_box m).
Proof.
  intros [] Hne. destruct iv_enroll0. iv_frame.
  - unfold established in *; simpl. by rewrite Hne.
  - left; by split.
  - split; [apply set_enroll_width_ok; by destruct H|]. by rewrite set_enroll_width_head.
Qed.

Lemma minv_reset m : minv m → minv (reset_control_cadence m).
Proof.
  intros []. iv_frame. by apply geom_cycle.
Qed.

Lemma minv_enter_probing m : minv m → minv (enter_probing m).
Proof.
  intros H. unfold enter_probing.
  assert (Hm : minv (set_m_announce_blk (gen_cfea (m_src m) (m_cfg m) 0)
    (set_m_commit_seen false (set_m_join_held false (set_m_scene_complete 0
      (set_m_scene_inflight false (reset_control_cadence (set_m_state REAC_M_PROBING m)))))))).
  { destruct H as []. iv_frame.
    - by apply geom_cycle.
    - destruct iv_ticks0 as (? & ? & _). by split_and!. }
  destruct (negb _); [|done].
  by apply minv_forget in Hm.
Qed.

Lemma minv_enter_granting tx m src blk :
  tx_ok tx → minv m → m_join_held m = false → minv (enter_granting tx m src blk).
Proof.
  intros Htx [] Hh. unfold enter_granting.
  set (m1 := set_m_box_mac src _).
  set (m2 := match blk with Some b => set_m_join_blk b m1 | None => m1 end).
  assert (E : ∃ b, m2 = set_m_join_blk b m1)
    by (subst m2; destruct blk as [b|]; [by exists b|exists (m_join_blk m1); by destruct m]).
  destruct E as [b E]. rewrite E. clear E m2.
  destruct (rebuild_box tx (set_m_join_blk b m1) (out_channels (m_cfg m))) as (rows & -> & Hbox);
    [done|done|].
  assert (Hb : reac_master_has_box m = true → out_channels (m_cfg m) = ga_width (m_alloc m)).
  { unfold reac_master_has_box. destruct iv_box0 as [[-> _]|(_ & _ & _ & _ & ->)]; [done|lia]. }
  change (reac_master_has_box (set_m_grant_burst rows (set_m_join_blk b m1)))
    with (reac_master_has_box m).
  assert (Hcfg : reac_master_has_box m = true → set_out_channels (ga_width (m_alloc m)) (m_cfg m) = m_cfg m).
  { intros Hx. rewrite <- Hb by done. by destruct (m_cfg m). }
  destruct (reac_master_has_box m); iv_frame; rewrite ?Hcfg by done; try done;
    try (rewrite <- Hb by done; exact Hbox); intros Hx; simpl in Hx; congruence.
Qed.

Lemma minv_enter_established m :
  minv m → m_join_held m = false → minv (enter_established m).
Proof.
  intros [] Hh. iv_frame.
  - by apply geom_cycle.
  - by destruct iv_ticks0 as (? & ? & _).
  - intros Hx. simpl in Hx. congruence.
Qed.

Lemma held_false m : minv m → m_state m ≠ REAC_M_PROBING → m_join_held m = false.
Proof.
  intros H Hs. destruct (m_join_held m) eqn:E; [|done].
  by destruct (iv_held m H E) as [? _].
Qed.

Lemma minv_apply_edge tx m e src blk :
  tx_ok tx → minv m →
  (e_enter e = true → e_next e = REAC_M_GRANTING ∨ e_next e = REAC_M_ESTABLISHED →
   m_join_held m = false) →
  minv (apply_edge tx m e src blk).
Proof.
  intros Htx H Hh. unfold apply_edge.
  set (m1 := if bool_decide _ then m else _).
  assert (H1 : minv m1) by (subst m1; destruct (bool_decide _); [done|]; destruct H; by iv_frame).
  assert (Hj : m_join_held m1 = m_join_held m) by (subst m1; by destruct (bool_decide _)).
  destruct (e_enter e) eqn:En; [|done]. cbn [negb].
  destruct (e_next e) eqn:Ex; [done|by apply minv_enter_probing|
    apply minv_enter_granting|apply minv_enter_established]; try done; rewrite Hj; auto.
Qed.

(** Edges taken outside PROBING need no guard on the held join. *)
Lemma minv_step_edge tx m dev src blk :
  tx_ok tx → minv m → m_state m ≠ REAC_M_PROBING →
  minv (apply_edge tx m (reac_master_fsm_step (m_state m) dev) src blk).
Proof.
  intros Htx H Hs. apply minv_apply_edge; [done|done|]. intros _ _. by apply held_false.
Qed.

Lemma minv_promote tx m : tx_ok tx → minv m → minv (promote_idle tx m).
Proof.
  intros Htx H. unfold promote_idle, state_eqb. case_bool_decide as E; [|done].
  apply minv_step_edge; [done|done|]. by rewrite E.
Qed.

Lemma promote_state tx m :
  m_state (promote_idle tx m) =
    match m_state m with REAC_M_IDLE => REAC_M_PROBING | s => s end.
Proof.
  unfold promote_idle, state_eqb. destruct (m_state m) eqn:E; [|done..].
  unfold apply_edge, enter_probing. simpl. by destruct (negb _).
Qed.

Lemma minv_release tx m :
  tx_ok tx → minv m → minv (release_held_join tx m).
Proof.
  intros Htx H. unfold release_held_join. apply minv_apply_edge; [done| |done].
  destruct H. iv_frame.
Qed.

Lemma minv_rx tx m ev src blk :
  tx_ok tx → minv m → minv (reac_master_rx tx m ev src blk).1.
Proof.
  intros Htx H. unfold reac_master_rx. destruct (negb _); [done|].
  set (m0 := set_m_presence_tick _ _). assert (H0 : minv m0) by (destruct H; by iv_frame).
  pose proof (minv_promote tx m0 Htx H0) as H1. set (m1 := promote_idle tx m0) in *.
  set (m2 := match ev with REAC_M_RX_BOX_CONFIG => _ | _ => _ end).
  assert (H2 : minv m2) by (subst m2; destruct ev; try done; destruct H1; by iv_frame).
  set (m3 := if state_eqb (m_state m2) _ then _ else _).
  assert (H3 : minv m3) by (subst m3; destruct (state_eqb _ _); [|done]; destruct H2; by iv_frame).
  clearbody m3. set (dev := reac_master_fsm_classify _ _ _ _).
  set (e := reac_master_fsm_step (m_state m3) dev).
  destruct (_ && negb (scene_transfer_ready m3)) eqn:Eh; simpl.
  - apply andb_true_iff in Eh as [Eh Hr]. apply andb_true_iff in Eh as [Eh Hg].
    apply andb_true_iff in Eh as [_ Hs]. unfold state_eqb in Hs, Hg.
    apply bool_decide_eq_true in Hs, Hg. apply negb_true_iff in Hr.
    assert (Hev : (ev = REAC_M_RX_BOX_JOIN ∧ have_blk blk = true ∧ ev_is_join dev = true)
                  ∨ ev = REAC_M_RX_BOX_CONFIG).
    { subst e dev. rewrite Hs in Hg. destruct ev.
      - discriminate Hg.
      - left. destruct blk; [|discriminate Hg]. split_and!; [done..|].
        unfold reac_master_fsm_classify. simpl. by destruct (zeqb _ _).
      - simpl in Hg. by destruct (grant_delivered m3).
      - simpl in Hg. by destruct (grant_delivered m3).
      - discriminate Hg.
      - by right. }
    unfold hold_join. set (m4 := set_m_join_has_blk _ _).
    assert (H4 : minv (match (if ev_is_join dev then blk else None) with
                       | Some b => set_m_join_hold_blk b m4 | None => m4 end)).
    { destruct H3. destruct Hev as [(-> & Hb & Hj)| ->].
      - rewrite Hj in *. destruct blk; [|done]. iv_frame. intros _. simpl. split_and!; [done|done|].
        left. split; [done|]. subst m4. simpl. by rewrite Hj.
      - destruct (if ev_is_join dev then blk else None); iv_frame; intros _; simpl;
          split_and!; [done|done|by right|done|done|by right]. }
    done.
  - apply minv_apply_edge; [done|done|]. intros _ Hnext.
    destruct (m_join_held m3) eqn:Hh; [|done].
    destruct (iv_held m3 H3 Hh) as (Hs & Hr & _). exfalso. subst e.
    clearbody dev. rewrite Hs, Hr in *.
    destruct Hnext as [Hn|Hn]; destruct dev; simpl in *; done.
Qed.

(** ** Preservation: the box *)

Lemma minv_set_box tx m in_ch out_ch base :
  tx_ok tx → minv m → minv (reac_master_set_box tx m in_ch out_ch base).
Proof.
  intros Htx H. unfold reac_master_set_box.
  pose proof (rebuild_spec tx m base in_ch Htx) as Hr.
  destruct (reac_grant_alloc_fits base in_ch) eqn:Hf; [|by rewrite Hr].
  destruct Hr as (rows & Hlen & Hcl & ->). cbn [negb Z.eqb].
  pose proof (proj1 (alloc_fits_iff _ _) Hf) as (Hw & Hb & Hbw).
  destruct H as [? ? ? ? ? ? ? [[He1 He2] He3] ? ? ? ? ?].
  assert (Hbox : box_ok (GrantAlloc base in_ch) rows (8 + 3 * in_ch) (u8 in_ch)).
  { right. rewrite u8_small by lia. by split_and!. }
  assert (Hen : tmpl_ok (set_enroll_width (m_enroll_blk m) in_ch) ∧
                (set_enroll_width (m_enroll_blk m) in_ch).[8] = console_field (m_cfg m))
    by (split; [by apply set_enroll_width_ok|by rewrite set_enroll_width_head by lia]).
  destruct (negb (reac_master_has_box m) && _); iv_frame.
Qed.

Lemma minv_set_src tx set m : tx_ok tx → minv m → minv (reac_master_set_headamp_src tx set m).
Proof.
  intros Htx []. unfold reac_master_set_headamp_src.
  destruct (rebuild_box tx (set_m_headamp_src set m) (out_channels (m_cfg m))) as (rows & -> & Hbox);
    [done|done|]. iv_frame.
Qed.

(** ** Preservation: the cadence *)

Definition idx_ok (m : reac_master) (e : reac_master_emit) (idx : Z) : Prop :=
  match e with
  | REAC_M_EMIT_GRANT => 0 ≤ idx < m_grant_burst_len m
  | REAC_M_EMIT_CHANMAP => 0 ≤ idx < 49
  | REAC_M_EMIT_IDENTITY_POLL => 0 ≤ idx < 6
  | _ => True
  end.

(** A slot decided without leaving the state. *)
Definition slot_ok (s : reac_master_state) (o : slot_out) : Prop :=
  minv o.1.1 ∧ m_state o.1.1 = s ∧ idx_ok o.1.1 o.1.2 o.2.

Lemma minv_take m : minv m → minv (take_chanmap m).1 ∧ 0 ≤ (take_chanmap m).2 < 49.
Proof.
  intros []. simpl. split; [|done]. destruct iv_geom0 as (? & ? & ? & ? & ? & ? & ? & ? & ? & Hn & ?) eqn:E.
  iv_frame.
Qed.

Lemma slot_ok_chanmap m : minv m → slot_ok (m_state m) (let '(m, idx) := take_chanmap m in (m, REAC_M_EMIT_CHANMAP, idx)).
Proof. intros H. destruct (minv_take m H) as [H1 H2]. by split_and!. Qed.

Lemma minv_ticks m a b : minv m → minv (set_m_est_chanmap_tick a (set_m_announce_tick b m)).
Proof. intros []. iv_frame. Qed.

Lemma minv_est m a : minv m → minv (set_m_est_chanmap_tick a m).
Proof. intros []. iv_frame. Qed.

Lemma minv_ann m b : minv m → minv (set_m_announce_tick b m).
Proof. intros []. iv_frame. Qed.

Lemma minv_scene_step m k : minv m → minv (set_m_scene_step k m).
Proof. intros []. iv_frame. Qed.

Lemma minv_grant_ticks m v : minv m → m_grant_ticks m ≤ v → minv (set_m_grant_ticks v m).
Proof.
  intros [] Hv. destruct iv_ticks0 as (? & ? & ?). iv_frame. split_and!; [lia|done|].
  intros Hs. specialize (H1 Hs). lia.
Qed.

Lemma slot_ok_chanmap_due m :
  minv m →
  match granting_chanmap_due m with
  | (m', Some idx) => slot_ok (m_state m) (m', REAC_M_EMIT_CHANMAP, idx)
  | (m', None) => minv m' ∧ m_state m' = m_state m
  end.
Proof.
  intros H. unfold granting_chanmap_due. destruct (_ <? _).
  - split; [by apply minv_est|done].
  - exact (slot_ok_chanmap _ (minv_est _ 0 (minv_est m (m_est_chanmap_tick m + 1) H))).
Qed.

Lemma slot_ok_dwell m : minv m → slot_ok (m_state m) (dwell_slot m).
Proof.
  intros H. unfold dwell_slot. pose proof (slot_ok_chanmap_due m H) as Hd.
  destruct (granting_chanmap_due m) as [m' [idx|]]; [done|]. destruct Hd as [Hm Hs].
  unfold announce_due. destruct (_ <=? _); split_and!; simpl; try done; repeat apply minv_ann; done.
Qed.

Lemma slot_ok_scene m k e : minv m → emit_is_scene e = true → slot_ok (m_state m) (scene_slot m k e).
Proof. intros H He. split_and!; [by apply minv_scene_step|done|]. by destruct e. Qed.

Lemma slot_ok_or m (o : option slot_out) y :
  from_option (slot_ok (m_state m)) True o → slot_ok (m_state m) y → slot_ok (m_state m) (or_else o y).
Proof. intros. by destruct o. Qed.

Lemma slot_ok_chunk m pos : minv m → from_option (slot_ok (m_state m)) True (scene_chunk_at m pos).
Proof. intros H. unfold scene_chunk_at. destruct (0 <=? _); [by apply slot_ok_scene|done]. Qed.

Lemma slot_ok_tail m pos : minv m → from_option (slot_ok (m_state m)) True (scene_tail_at m pos).
Proof. intros H. unfold scene_tail_at. destruct (_ =? _); [by apply slot_ok_scene|done]. Qed.

Lemma slot_ok_head m pos : minv m → from_option (slot_ok (m_state m)) True (scene_head_at m pos).
Proof. intros H. unfold scene_head_at. destruct (_ =? _); [by apply slot_ok_scene|done]. Qed.

Lemma slot_ok_repoll m : minv m → slot_ok (m_state m) (identity_repoll m).
Proof.
  intros []. unfold identity_repoll. destruct (0 <? m_identity_poll_left m) eqn:E.
  - destruct (_ <=? _); simpl; split_and!; simpl; try done; try iv_frame; unfold REAC_GRANT_GROUPB_LEN; lia.
  - destruct (_ && _); split_and!; simpl; try done; iv_frame; unfold REAC_GRANT_GROUPB_LEN; lia.
Qed.

Lemma slot_ok_announce m : minv m → slot_ok (m_state m) (set_m_announce_tick 0 m, REAC_M_EMIT_ANNOUNCE, 0).
Proof. intros H. split_and!; [by apply minv_ann|done|done]. Qed.

Lemma slot_ok_cadence tn m : minv m → slot_ok (m_state m) (control_cadence tn m).
Proof.
  intros H. unfold control_cadence. set (pos := m_cycle_pos m).
  set (m1 := set_m_announce_tick _ _).
  assert (H1 : minv m1).
  { destruct H. iv_frame. }
  change (m_state m) with (m_state m1). clearbody m1 pos. clear H m.
  destruct (state_eqb _ _).
  - unfold locked_cadence. set (m2 := set_m_est_chanmap_tick _ _).
    assert (H2 : minv m2) by (by apply minv_est). change (m_state m1) with (m_state m2).
    clearbody m2. clear H1 m1.
    destruct (_ <=? m_announce_tick m2); [by apply slot_ok_announce|].
    destruct (_ <=? m_est_chanmap_tick m2);
      [exact (slot_ok_chanmap _ (minv_est m2 0 H2))|].
    destruct (tn_est_scene tn); [|by apply slot_ok_repoll].
    apply slot_ok_or; [by apply slot_ok_chunk|]. apply slot_ok_or; [by apply slot_ok_tail|].
    apply slot_ok_or; [by apply slot_ok_head|]. by apply slot_ok_repoll.
  - unfold hunt_cadence. apply slot_ok_or; [by apply slot_ok_chunk|].
    apply slot_ok_or; [by apply slot_ok_tail|].
    destruct (_ =? _); [by apply slot_ok_chanmap|]. apply slot_ok_or; [by apply slot_ok_head|].
    destruct (_ <=? _); [by apply slot_ok_announce|by split_and!].
Qed.

Lemma cadence_no_grant tn m : (control_cadence tn m).1.2 ≠ REAC_M_EMIT_GRANT.
Proof.
  unfold control_cadence, locked_cadence, hunt_cadence, or_else, scene_chunk_at, scene_tail_at,
    scene_head_at, identity_repoll, take_chanmap, scene_slot.
  by split_ifs.
Qed.

Lemma dwell_no_grant m : (dwell_slot m).1.2 ≠ REAC_M_EMIT_GRANT.
Proof.
  unfold dwell_slot, granting_chanmap_due, announce_due, take_chanmap. by split_ifs.
Qed.

Lemma idx_ok_any m m' e idx : e ≠ REAC_M_EMIT_GRANT → idx_ok m e idx → idx_ok m' e idx.
Proof. by destruct e. Qed.

Lemma slot_ok_burst m :
  minv m → m_state m = REAC_M_GRANTING →
  reac_master_grant_anchor m ≤ m_grant_ticks m → slot_ok REAC_M_GRANTING (burst_slot_out m).
Proof.
  intros H Hs Ha. unfold burst_slot_out.
  destruct (iv_geom m H) as (_ & _ & _ & _ & _ & _ & _ & _ & Hst & _).
  destruct (_ && _) eqn:E.
  - split_and!; [done|done|]. simpl. rewrite Hst in *. lia.
  - pose proof (slot_ok_chanmap_due m H) as Hd. rewrite Hs in Hd.
    destruct (granting_chanmap_due m) as [m' [idx|]]; [done|]. destruct Hd as [Hm Hs'].
    by split_and!.
Qed.

Lemma slot_ok_granting tn m :
  minv m → m_state m = REAC_M_GRANTING → slot_ok REAC_M_GRANTING (granting_slot tn m).
Proof.
  intros H Hs. unfold granting_slot. destruct (m_grant_ticks m =? 0) eqn:E0.
  { split_and!; [done|done|]. unfold enroll_emit. by destruct (tn_no_enroll tn). }
  destruct (iv_ticks m H) as (Ht & He & Hle). specialize (Hle Hs).
  destruct (m_grant_ticks m <=? m_grant_dwell m) eqn:Ed; cycle 1.
  { apply slot_ok_burst; [done|done|]. unfold reac_master_grant_anchor. destruct (0 <? _); lia. }
  unfold dwell_ends_now. destruct (0 <? m_dwell_ended_tick m) eqn:Ee; simpl.
  { apply slot_ok_burst; [done|done|]. unfold reac_master_grant_anchor. rewrite Ee. lia. }
  destruct (negb _); simpl.
  - destruct (m_enroll_pending m).
    + split_and!; simpl; [destruct H; iv_frame|done|]. unfold enroll_emit. by destruct (tn_no_enroll tn).
    + rewrite <- Hs. by apply slot_ok_dwell.
  - apply slot_ok_burst; simpl; [|done|].
    + destruct H. iv_frame.
    + unfold reac_master_grant_anchor. simpl. replace (0 <? m_grant_ticks m) with true by lia. lia.
Qed.

Lemma minv_prepare m : minv m → minv (scene_prepare m).
Proof.
  intros H. unfold scene_prepare. destruct (reac_ctrl_build_scene_step _ _ _) as [blk|] eqn:E; [|done].
  apply scene_step_tmpl in E. destruct H as [? ? ? ? ? ? ? ? (? & ? & ?) ? ? ? ?]. iv_frame.
Qed.

(** The decision of one slot, with the state it may move to. *)
Definition decided (o : slot_out) : Prop := minv o.1.1 ∧ idx_ok o.1.1 o.1.2 o.2.

Lemma decide_ok tn tx m : tx_ok tx → minv m → decided (slot_decide tn tx m).
Proof.
  intros Htx H. unfold slot_decide. destruct (m_state m) eqn:Es.
  1, 2: destruct (slot_ok_cadence tn m H) as (H1 & _ & H2); by split.
  - destruct (reac_master_has_box m) eqn:Eb; simpl.
    + unfold granting_known. pose proof (slot_ok_granting tn m H Es) as (H1 & H2 & H3).
      destruct (granting_slot tn m) as [[m1 e] idx]. simpl in *.
      set (m2 := set_m_grant_ticks _ m1). assert (Hm2 : minv m2) by (apply minv_grant_ticks; [done|lia]).
      destruct (grant_delivered m2); [|done].
      split; [|by cbn [fst snd]; subst m2; simpl; rewrite H2].
      exact (minv_step_edge tx m2 REAC_M_EV_GRANT_DELIVERED (zeros 6) None Htx Hm2 ltac:(subst m2; simpl; by rewrite H2)).
    + unfold granting_unknown.
      assert (Hd : slot_ok REAC_M_GRANTING
                (if m_grant_ticks m =? 0 then (m, REAC_M_EMIT_ENROLL, 0) else dwell_slot m) ∧
              (if m_grant_ticks m =? 0 then (m, REAC_M_EMIT_ENROLL, 0) else dwell_slot m).1.2
                ≠ REAC_M_EMIT_GRANT).
      { destruct (m_grant_ticks m =? 0); [by split_and!|].
        split; [rewrite <- Es; by apply slot_ok_dwell|apply dwell_no_grant]. }
      destruct (if m_grant_ticks m =? 0 then _ else _) as [[m1 e] idx]. destruct Hd as [(H1 & H2 & H3) He].
      simpl in *. set (m2 := set_m_grant_ticks _ m1).
      assert (Hm2 : minv m2) by (apply minv_grant_ticks; [done|lia]).
      split; [|by apply (idx_ok_any m1)].
      cbn [fst snd]. destruct (_ <? _); [|done].
      exact (minv_step_edge tx m2 REAC_M_EV_BOX_UNKNOWN (zeros 6) None Htx Hm2 ltac:(subst m2; simpl; by rewrite H2)).
  - unfold established_slot. pose proof (slot_ok_cadence tn m H) as (H1 & H2 & H3).
    pose proof (cadence_no_grant tn m) as He.
    destruct (control_cadence tn m) as [[m1 e] idx]. simpl in *.
    set (m2 := set_m_link_check _ m1). assert (Hm2 : minv m2) by (destruct H1; iv_frame).
    split; [|by apply (idx_ok_any m1)].
    cbn [fst snd]. destruct (_ <=? _); [|done].
    exact (minv_step_edge tx m2 REAC_M_EV_LINK_LOST (zeros 6) None Htx Hm2 ltac:(subst m2; simpl; by rewrite H2, Es)).
Qed.

Lemma minv_account tx m e : tx_ok tx → minv m → minv (transfer_account tx m e).
Proof.
  intros Htx H. unfold transfer_account. destruct e; try done.
  - destruct H as [? ? ? ? ? ? ? ? ? ? ? Hh ?]. iv_frame. intros Hj. simpl in *.
    destruct (Hh Hj) as (? & ? & ?). split_and!; [done| |done].
    unfold scene_transfer_ready. simpl. by rewrite andb_false_r.
  - destruct (m_scene_inflight m) eqn:Ei; [|done]. simpl. destruct (m_join_held m) eqn:Ej.
    + unfold release_held_join. simpl.
      apply minv_apply_edge; [done| |done]. destruct H. iv_frame.
    + destruct H. iv_frame. intros Hj. simpl in *. congruence.
Qed.

(** ** The counter free-runs: no transition touches it *)

Lemma counter_rebuild tx m base w : m_counter (rebuild_grant_sweep tx m base w).1 = m_counter m.
Proof.
  unfold rebuild_grant_sweep. destruct (reac_grant_allocate _ _); [|done].
  destruct (reac_grant_build_sweep _ _ _); [|done]. by destruct (_ <=? _).
Qed.

Lemma counter_granting tx m src blk : m_counter (enter_granting tx m src blk) = m_counter m.
Proof.
  unfold enter_granting. simpl. destruct (reac_master_has_box _); simpl;
    rewrite counter_rebuild; by destruct blk.
Qed.

Lemma counter_edge tx m e src blk : m_counter (apply_edge tx m e src blk) = m_counter m.
Proof.
  unfold apply_edge. set (m1 := if bool_decide _ then _ else _).
  assert (Hc : m_counter m1 = m_counter m) by (subst m1; by destruct (bool_decide _)).
  rewrite <- Hc. clearbody m1. destruct (negb _); [done|].
  destruct (e_next e); [done| |apply counter_granting|done].
  unfold enter_probing. by destruct (negb _).
Qed.

Lemma counter_promote tx m : m_counter (promote_idle tx m) = m_counter m.
Proof. unfold promote_idle. destruct (state_eqb _ _); [apply counter_edge|done]. Qed.

Lemma counter_cadence tn m : m_counter (control_cadence tn m).1.1 = m_counter m.
Proof.
  unfold control_cadence, locked_cadence, hunt_cadence, or_else, scene_chunk_at, scene_tail_at,
    scene_head_at, identity_repoll, take_chanmap, scene_slot.
  by split_ifs.
Qed.

Lemma counter_dwell m : m_counter (dwell_slot m).1.1 = m_counter m.
Proof. unfold dwell_slot, granting_chanmap_due, announce_due, take_chanmap. by split_ifs. Qed.

Lemma counter_granting_slot tn m : m_counter (granting_slot tn m).1.1 = m_counter m.
Proof.
  unfold granting_slot, dwell_ends_now, burst_slot_out, granting_chanmap_due, take_chanmap.
  split_ifs; simpl; split_ifs; simpl; try done; try apply counter_dwell; by split_ifs.
Qed.

Lemma counter_decide tn tx m : m_counter (slot_decide tn tx m).1.1 = m_counter m.
Proof.
  unfold slot_decide. destruct (m_state m); try apply counter_cadence.
  - destruct (negb _).
    + unfold granting_unknown. pose proof (counter_dwell m) as Hd. destruct (m_grant_ticks m =? 0).
      * cbn [fst snd]. destruct (_ <? _); [by rewrite counter_edge|done].
      * destruct (dwell_slot m) as [[m1 e] idx]. cbn [fst snd] in *.
        destruct (_ <? _); [rewrite counter_edge|]; done.
    + unfold granting_known. pose proof (counter_granting_slot tn m) as Hd.
      destruct (granting_slot tn m) as [[m1 e] idx]. cbn [fst snd] in *.
      destruct (grant_delivered _); [rewrite counter_edge|]; done.
  - unfold established_slot. pose proof (counter_cadence tn m) as Hd.
    destruct (control_cadence tn m) as [[m1 e] idx]. cbn [fst snd] in *.
    destruct (_ <=? _); [rewrite counter_edge|]; done.
Qed.

Lemma counter_account tx m e : m_counter (transfer_account tx m e) = m_counter m.
Proof.
  unfold transfer_account. destruct e; try done. destruct (m_scene_inflight m); [|done].
  simpl. destruct (m_join_held m); [|done]. unfold release_held_join. by rewrite counter_edge.
Qed.

Lemma counter_prepare m : m_counter (scene_prepare m) = m_counter m.
Proof. unfold scene_prepare. by destruct (reac_ctrl_build_scene_step _ _ _). Qed.

(** What [reac_master_next] has done before it decides the slot. *)
Definition slot_start (tx : reac_headamp_tx) (m : reac_master) : reac_master :=
  let m := promote_idle tx (set_m_counter (u16 (m_counter m + 1)) m) in
  if m_box_seen m then
    let m := set_m_presence_tick (m_presence_tick m - 1) m in
    if m_presence_tick m <=? 0 then set_m_box_seen false m else m
  else m.

Lemma minv_start tx m :
  tx_ok tx → minv m → minv (slot_start tx m) ∧ m_counter (slot_start tx m) = u16 (m_counter m + 1).
Proof.
  intros Htx H. unfold slot_start.
  assert (H1 : minv (set_m_counter (u16 (m_counter m + 1)) m))
    by (destruct H; iv_frame; unfold u16; lia).
  pose proof (minv_promote tx _ Htx H1) as H2.
  pose proof (counter_promote tx (set_m_counter (u16 (m_counter m + 1)) m)) as Hc.
  set (m2 := promote_idle tx _) in *. clearbody m2. simpl in Hc. rewrite <- Hc.
  destruct (m_box_seen m2); [|done]. simpl. destruct (_ <=? 0); (split; [|done]); destruct H2; iv_frame.
Qed.

Lemma minv_next tn tx m :
  tx_ok tx → minv m →
  let '(m', (cnt, e, idx)) := reac_master_next tn tx m in
  minv m' ∧ idx_ok m' e idx ∧ cnt = m_counter m ∧ m_counter m' = u16 (m_counter m + 1).
Proof.
  intros Htx H. unfold reac_master_next. fold (slot_start tx m).
  destruct (minv_start tx m Htx H) as [H1 Hc]. pose proof (decide_ok tn tx _ Htx H1) as [H2 H3].
  pose proof (counter_decide tn tx (slot_start tx m)) as Hc2.
  destruct (slot_decide tn tx (slot_start tx m)) as [[m2 e] idx]. cbn [fst snd] in *.
  set (m3 := if emit_is_scene e then _ else _).
  assert (Hm3 : minv m3) by (subst m3; destruct (emit_is_scene e); [by apply minv_prepare|done]).
  assert (Hc3 : m_counter m3 = m_counter m2)
    by (subst m3; destruct (emit_is_scene e); [apply counter_prepare|done]).
  split_and!; [by apply minv_account| |done|by rewrite counter_account; congruence].
  destruct e; try done.
Qed.

End Inv.

(** ** Reachable masters *)

(** Everything the owning thread does to a master. *)
Inductive master_op :=
| MNext
| MRx (ev : reac_master_rx_event) (src : list Z) (blk : option (list Z))
| MDeclare (in_ch out_ch base : Z)
| MSetSrc (set : bool)
| MIdentity (complete : bool).

Definition master_step (tn : reac_master_tunables) (tx : reac_headamp_tx) (m : reac_master)
    (o : master_op) : reac_master :=
  match o with
  | MNext => (reac_master_next tn tx m).1
  | MRx ev src blk => (reac_master_rx tx m ev src blk).1
  | MDeclare in_ch out_ch base => declare_box tx m in_ch out_ch base
  | MSetSrc set => reac_master_set_headamp_src tx set m
  | MIdentity complete => reac_master_identity_answered complete m
  end.

(** States reached from [reac_master_init], each step reading the head-amp
    table as it is then. *)
Inductive master_reach (tn : reac_master_tunables) (src : list Z) (cfg : option reac_console_cfg)
    (fps : Z) : reac_master → Prop :=
| reach_init : master_reach tn src cfg fps (reac_master_init tn src cfg fps)
| reach_step m tx o : master_reach tn src cfg fps m → tx_ok tx →
    master_reach tn src cfg fps (master_step tn tx m o).

Lemma minv_init tn src cfg fps :
  500 ≤ fps → zlen src = 6 →
  minv src (console_field (default REAC_CONSOLE_CFG_IDLE cfg)) (reac_master_init tn src cfg fps).
Proof.
  intros Hf Hs. unfold reac_master_init. replace (0 <? fps) with true by lia.
  set (c := default REAC_CONSOLE_CFG_IDLE cfg).
  set (m := {| m_state := REAC_M_IDLE |}).
  assert (H : ∀ blk d, tmpl_ok blk → minv src (console_field c) (set_m_filler_desc d (set_m_scene_blk blk m))).
  { intros blk d Hblk. subst m. unfold at_least_1, REAC_M_BURST_PER_SEC, REAC_SCENE_CHUNKS.
    split; simpl; try done; try lia.
    - unfold geom; simpl. unfold REAC_M_LINKCHECK_SECONDS_X10.
      change (500 / 2) with 250. change (341 - 1) with 340.
      replace ((fps + 250) / 500 <? 1) with false by lia.
      replace (fps * 65 / 10 <? 1) with false by lia.
      split_and!; try done; try lia.
      unfold init_grant_dwell, at_least_1, grant_dwell_override_ms,
        grant_dwell_override_s. split_ifs; lia.
    - by left.
    - split; [apply set_enroll_width_ok; by rewrite zlen_wr|]. rewrite set_enroll_width_head by lia. by rewrite rd_wr_eq.
    - split_and!; [apply init_scene_len| |done].
      unfold init_scene. rewrite rd_wr_ne by (unfold REAC_SCENE_REVISION_OFF; lia).
      apply rd_wr_eq. unfold REAC_SCENE_REVISION_OFF. unfold reac_ctrl_scene_set_mac.
      rewrite scene_placeholder_len, Z.eqb_refl.
      change (0 ≤ 20 < zlen (blit reac_scene_placeholder REAC_SCENE_MAC_OFF src)).
      rewrite zlen_blit, scene_placeholder_len. done. }
  unfold scene_prepare.
  destruct (scene_step_ok (init_scene src c) 0) as (blk & Hblk & _); [apply init_scene_len|lia|].
  change (m_scene m) with (init_scene src c). change (m_scene_step m) with 0.
  rewrite init_scene_len, Hblk. apply H. by apply (scene_step_tmpl _ _ _ _ Hblk).
Qed.

Lemma minv_declare src0 pace0 tx m in_ch out_ch base :
  tx_ok tx → minv src0 pace0 m → minv src0 pace0 (declare_box tx m in_ch out_ch base).
Proof.
  intros Htx H. unfold declare_box. pose proof (minv_set_box src0 pace0 tx m in_ch out_ch base Htx H) as H1.
  destruct (_ && _) eqn:E; [|done]. apply minv_enter_granting; [done|done|].
  apply (held_false src0 pace0); [done|]. intros Hp. rewrite Hp in E. by rewrite andb_false_r in E.
Qed.

Lemma master_reach_inv tn src cfg fps m :
  500 ≤ fps → zlen src = 6 → master_reach tn src cfg fps m →
  minv src (console_field (default REAC_CONSOLE_CFG_IDLE cfg)) m.
Proof.
  intros Hf Hs. induction 1 as [|m tx o _ IH Htx]; [by apply minv_init|].
  destruct o as [|ev s blk|in_ch out_ch base|set|b]; simpl.
  - pose proof (minv_next _ _ tn tx m Htx IH) as Hn.
    destruct (reac_master_next tn tx m) as [m' [[cnt e] idx]]. apply Hn.
  - by apply minv_rx.
  - by apply minv_declare.
  - by apply minv_set_src.
  - destruct IH. iv_frame.
Qed.

(** ** What goes on the wire *)

Lemma slice_blit_row frame blk :
  50 ≤ zlen frame → zlen blk = 34 → slice (blit frame 16 blk) 18 32 = slice blk 2 32.
Proof.
  intros Hf Hl. apply buf_ext; [zl|]. intros i Hi. rewrite zlen_slice, zlen_blit in Hi.
  rewrite !rd_slice by lia. rewrite rd_blit_in by lia. f_equal; lia.
Qed.

Lemma apply_block_eq frame blk :
  50 ≤ zlen frame → tmpl_ok blk →
  apply_block frame blk = blit frame 16 blk ∧
  reac_ctrl_checksum_verify (apply_block frame blk) = true.
Proof.
  intros Hf (Hl & Hb & Hs). pose proof (slice_blit_row frame blk Hf Hl) as Hsl.
  assert (He : apply_block frame blk = blit frame 16 blk).
  { unfold apply_block, reac_ctrl_checksum_apply, REAC_CTRL_BLOCK_OFF. apply block_stamp_noop.
    - rewrite rd_blit_in by lia. done.
    - lia.
    - rewrite zlen_blit. lia.
    - by rewrite Hsl. }
  split; [done|]. rewrite He. apply checksum_verify_iff. by rewrite Hsl.
Qed.

Lemma filler_stamp_out frame d i :
  0 ≤ i → ¬ (18 ≤ i < 50) → (stamp_filler_descriptor frame d).[i] = frame.[i].
Proof.
  intros Hi Ho. unfold stamp_filler_descriptor, REAC_CTRL_BLOCK_OFF.
  change (zseq 0 (REAC_CTRL_BLOCK_LEN / 2)) with [0;1;2;3;4;5;6;7;8;9;10;11;12;13;14;15].
  cbn [foldl fmap list_fmap]. by rewrite !rd_wr_ne by lia.
Qed.

Lemma filler_stamp_len frame d : zlen (stamp_filler_descriptor frame d) = zlen frame.
Proof.
  unfold stamp_filler_descriptor.
  change (zseq 0 (REAC_CTRL_BLOCK_LEN / 2)) with [0;1;2;3;4;5;6;7;8;9;10;11;12;13;14;15].
  cbn [foldl fmap list_fmap]. by rewrite !zlen_wr.
Qed.

(** The row a FILLER repeats. *)
Lemma filler_stamp_in frame d j :
  50 ≤ zlen frame → 0 ≤ j < 16 →
  (stamp_filler_descriptor frame d).[18 + 2 * j] = 0 ∧ (stamp_filler_descriptor frame d).[19 + 2 * j] = d.
Proof.
  intros Hl Hj. unfold stamp_filler_descriptor. change (REAC_CTRL_BLOCK_LEN / 2) with (Z.of_nat 16).
  set (step := λ frame i, wr (wr frame i 0x00) (i + 1) d).
  assert (H : ∀ n : nat, (n ≤ 16)%nat →
    let f := foldl step frame ((λ j, REAC_CTRL_BLOCK_OFF + 2 * j) <$> zseq 0 (Z.of_nat n)) in
    zlen f = zlen frame ∧ ∀ j, 0 ≤ j < Z.of_nat n → f.[18 + 2 * j] = 0 ∧ f.[19 + 2 * j] = d).
  { clear j Hj. induction n as [|n IH]; intros Hn; [split; [done|lia]|]. cbv zeta. unfold zseq in *.
    rewrite Nat2Z.inj_succ, <- Z.add_1_r, seqZ_app, fmap_app, foldl_app by lia.
    destruct (IH ltac:(lia)) as [Hz Hr]. set (f := foldl step frame _) in *. clearbody f.
    change (seqZ (0 + Z.of_nat n) 1) with [0 + Z.of_nat n]. rewrite Z.add_0_l.
    cbn [fmap list_fmap foldl]. unfold step, REAC_CTRL_BLOCK_OFF in *. split; [by rewrite !zlen_wr|].
    intros j Hj. replace (18 + 2 * Z.of_nat n + 1) with (19 + 2 * Z.of_nat n) by lia.
    destruct (decide (j = Z.of_nat n)) as [->|].
    - split; [rewrite rd_wr_ne by lia; rewrite rd_wr_eq by lia|rewrite rd_wr_eq by (rewrite zlen_wr; lia)]; done.
    - rewrite !rd_wr_ne by lia. apply Hr. lia. }
  destruct (H 16%nat ltac:(lia)) as [_ Hr]. by apply Hr.
Qed.

(** ** What each kind of slot is to carry *)

(** The 34 bytes of type word and control block, from what the master advertises
    and keeps; [None] for a FILLER. *)
Definition slot_block (m : reac_master) (e : reac_master_emit) (idx : Z) : option (list Z) :=
  match e with
  | REAC_M_EMIT_FILLER => None
  | REAC_M_EMIT_SCENE_HEAD => reac_ctrl_build_scene_step (m_scene m) REAC_SCENE_BYTES 0
  | REAC_M_EMIT_SCENE_CHUNK =>
      if (1 <=? m_scene_step m) && (m_scene_step m <=? 341)
      then reac_ctrl_build_scene_step (m_scene m) REAC_SCENE_BYTES (m_scene_step m) else None
  | REAC_M_EMIT_SCENE_TAIL => reac_ctrl_build_scene_step (m_scene m) REAC_SCENE_BYTES (REAC_SCENE_STEPS - 1)
  | REAC_M_EMIT_GRANT => m_grant_burst m !! Z.to_nat idx
  | REAC_M_EMIT_ENROLL => Some (m_enroll_blk m)
  | REAC_M_EMIT_CHANMAP => Some (chanmap_frame (console_field (m_cfg m)) idx)
  | REAC_M_EMIT_ANNOUNCE => Some (gen_cfea (m_src m) (m_cfg m) (b2z (established m)))
  | REAC_M_EMIT_IDENTITY_POLL => GRANT_GROUPB !! Z.to_nat idx
  end.

(** The step a scene slot asks for is the one of its kind. *)
Definition scene_step_kind (m : reac_master) (e : reac_master_emit) : Prop :=
  match e with
  | REAC_M_EMIT_SCENE_HEAD => m_scene_step m = 0
  | REAC_M_EMIT_SCENE_CHUNK => 1 ≤ m_scene_step m ≤ 341
  | REAC_M_EMIT_SCENE_TAIL => m_scene_step m = 342
  | _ => True
  end.

(** A scene slot has its own step's block in hand. *)
Definition scene_current (m : reac_master) (e : reac_master_emit) : Prop :=
  emit_is_scene e = true → slot_block m e 0 = Some (m_scene_blk m).

Lemma burst_index_sound m pos :
  geom m → 0 ≤ burst_index_at m pos →
  burst_index_at m pos < 341 ∧ burst_slot (m_fps m) (burst_index_at m pos) = pos.
Proof.
  intros Hg. unfold burst_index_at, REAC_SCENE_CHUNKS. destruct (_ || _); [lia|].
  set (k := if pos <? _ then pos else _). cbv zeta.
  destruct (_ && _) eqn:E1; [intros _; replace (k - 1) with (k + -1) by lia; lia|].
  destruct (_ && _) eqn:E2 in |- *; [intros _; replace (k + 0) with k in E2 by lia; lia|].
  destruct (_ && _) eqn:E3 in |- *; [intros _; lia|lia].
Qed.

Lemma cadence_scene tn m :
  geom m → scene_step_kind (control_cadence tn m).1.1 (control_cadence tn m).1.2.
Proof.
  intros Hg. unfold control_cadence. set (pos := m_cycle_pos m). set (m1 := set_m_announce_tick _ _).
  assert (Hg1 : geom m1) by done.
  assert (Hb : 0 ≤ burst_index_at m1 pos → burst_index_at m1 pos < 341) by (intros; by apply burst_index_sound).
  destruct (state_eqb _ _).
  - unfold locked_cadence, or_else, scene_chunk_at, scene_tail_at, scene_head_at, identity_repoll, take_chanmap.
    change (burst_index_at (set_m_est_chanmap_tick (m_est_chanmap_tick m1 + 1) m1) pos) with (burst_index_at m1 pos).
    split_ifs; simpl; (done || lia).
  - unfold hunt_cadence, or_else, scene_chunk_at, scene_tail_at, scene_head_at, take_chanmap.
    split_ifs; simpl; (done || lia).
Qed.

Lemma granting_no_scene tn m : emit_is_scene (granting_slot tn m).1.2 = false.
Proof.
  unfold granting_slot, dwell_ends_now, burst_slot_out, dwell_slot, granting_chanmap_due, announce_due,
    take_chanmap, enroll_emit.
  split_ifs; simpl; split_ifs; done.
Qed.

Lemma dwell_no_scene m : emit_is_scene (dwell_slot m).1.2 = false.
Proof. unfold dwell_slot, granting_chanmap_due, announce_due, take_chanmap. by split_ifs. Qed.

(** *** What only a scene slot touches *)

(** The scene, the block in hand and the descriptor of the FILLERs. *)
Definition scene_fields (m : reac_master) : list Z * list Z * Z := (m_scene m, m_scene_blk m, m_filler_desc m).

Lemma rebuild_scene tx m base w :
  let m' := (rebuild_grant_sweep tx m base w).1 in
  scene_fields m' = scene_fields m ∧ m_scene_step m' = m_scene_step m.
Proof.
  cbv zeta. unfold rebuild_grant_sweep. destruct (reac_grant_allocate _ _); [|done].
  destruct (reac_grant_build_sweep _ _ _); [|done]. by destruct (_ <=? _).
Qed.

Lemma granting_scene tx m src blk :
  let m' := enter_granting tx m src blk in
  scene_fields m' = scene_fields m ∧ m_scene_step m' = m_scene_step m.
Proof.
  cbv zeta. unfold enter_granting.
  match goal with |- context [rebuild_grant_sweep tx ?m1 ?b ?w] =>
    pose proof (rebuild_scene tx m1 b w) as [H1 H2]; set (m2 := (rebuild_grant_sweep tx m1 b w).1) in * end.
  clearbody m2. unfold scene_fields in *. destruct (reac_master_has_box m2), blk; simpl in *; by rewrite H1, H2.
Qed.

Lemma edge_scene tx m e src blk :
  let m' := apply_edge tx m e src blk in
  scene_fields m' = scene_fields m ∧ m_scene_step m' = m_scene_step m.
Proof.
  cbv zeta. unfold apply_edge. set (m1 := if bool_decide _ then _ else _).
  assert (H1 : scene_fields m1 = scene_fields m ∧ m_scene_step m1 = m_scene_step m) by (subst m1; by destruct (bool_decide _)).
  destruct H1 as [<- <-]. clearbody m1. destruct (negb _); [done|].
  destruct (e_next e); [done| |apply granting_scene|done]. unfold enter_probing. by destruct (negb _).
Qed.

Lemma promote_scene tx m : scene_fields (promote_idle tx m) = scene_fields m.
Proof. unfold promote_idle. destruct (state_eqb _ _); [apply edge_scene|done]. Qed.

Lemma cadence_fields tn m : scene_fields (control_cadence tn m).1.1 = scene_fields m.
Proof.
  unfold control_cadence, locked_cadence, hunt_cadence, or_else, scene_chunk_at, scene_tail_at,
    scene_head_at, identity_repoll, take_chanmap, scene_slot.
  by split_ifs.
Qed.

Lemma dwell_fields m : scene_fields (dwell_slot m).1.1 = scene_fields m.
Proof. unfold dwell_slot, granting_chanmap_due, announce_due, take_chanmap. by split_ifs. Qed.

Lemma granting_fields tn m : scene_fields (granting_slot tn m).1.1 = scene_fields m.
Proof.
  unfold granting_slot, dwell_ends_now, burst_slot_out, granting_chanmap_due, take_chanmap.
  split_ifs; simpl; split_ifs; simpl; try done; try apply dwell_fields; by split_ifs.
Qed.

Lemma decide_scene tn tx m :
  geom m →
  let o := slot_decide tn tx m in scene_fields o.1.1 = scene_fields m ∧ scene_step_kind o.1.1 o.1.2.
Proof.
  intros Hg. cbv zeta. unfold slot_decide.
  destruct (m_state m); try (split; [apply cadence_fields|by apply cadence_scene]).
  - destruct (negb _).
    + unfold granting_unknown. set (o := if m_grant_ticks m =? 0 then _ else _).
      assert (Ho : scene_fields o.1.1 = scene_fields m ∧ emit_is_scene o.1.2 = false).
      { subst o. destruct (m_grant_ticks m =? 0); [done|]. split; [apply dwell_fields|apply dwell_no_scene]. }
      destruct o as [[m1 e] idx]. cbn [fst snd] in *. destruct Ho as [<- He]. split; [|by destruct e].
      destruct (_ <? _); [exact (proj1 (edge_scene _ _ _ _ _))|done].
    + unfold granting_known. pose proof (granting_fields tn m) as Hf. pose proof (granting_no_scene tn m) as He.
      destruct (granting_slot tn m) as [[m1 e] idx]. cbn [fst snd] in *. rewrite <- Hf. split; [|by destruct e].
      destruct (grant_delivered _); [exact (proj1 (edge_scene _ _ _ _ _))|done].
  - unfold established_slot. pose proof (cadence_fields tn m) as Hf. pose proof (cadence_scene tn m Hg) as Hk.
    destruct (control_cadence tn m) as [[m1 e] idx]. cbn [fst snd] in *. rewrite <- Hf.
    destruct (_ <=? _); [|done]. set (m2 := set_m_link_check _ m1).
    pose proof (edge_scene tx m2 (reac_master_fsm_step (m_state m2) REAC_M_EV_LINK_LOST) (zeros 6) None) as [E1 E2].
    cbv zeta in *. rewrite E1. split; [done|]. unfold scene_step_kind in *. by rewrite E2.
Qed.

Lemma start_scene tx m : scene_fields (slot_start tx m) = scene_fields m.
Proof.
  unfold slot_start. set (m1 := promote_idle tx _).
  assert (H1 : scene_fields m1 = scene_fields m) by (subst m1; by rewrite promote_scene). rewrite <- H1. clearbody m1.
  destruct (m_box_seen m1); [|done]. by destruct (_ <=? 0).
Qed.

Lemma account_scene tx m e :
  let m' := transfer_account tx m e in
  scene_fields m' = scene_fields m ∧ m_scene_step m' = m_scene_step m.
Proof.
  cbv zeta. unfold transfer_account. destruct e; try done. destruct (m_scene_inflight m); [|done].
  simpl. destruct (m_join_held m); [|done]. unfold release_held_join. simpl.
  exact (edge_scene tx (set_m_join_held false (set_m_scene_complete (u32 (m_scene_complete m + 1))
    (set_m_scene_inflight false m))) _ _ _).
Qed.

(** A FILLER repeats the checksum of the block pushed last. *)
Definition filler_follows (m : reac_master) : Prop := m_filler_desc m = (m_scene_blk m).[33].

Lemma filler_same m m' : scene_fields m' = scene_fields m → filler_follows m → filler_follows m'.
Proof. unfold scene_fields, filler_follows. by intros [= E1 -> ->]. Qed.

Lemma next_scene src0 pace0 tn tx m :
  tx_ok tx → minv src0 pace0 m →
  let '(m', (_, e, _)) := reac_master_next tn tx m in
  scene_current m' e ∧ (filler_follows m → filler_follows m').
Proof.
  intros Htx H. unfold reac_master_next. fold (slot_start tx m).
  destruct (minv_start src0 pace0 tx m Htx H) as [H1 _]. pose proof (start_scene tx m) as E1.
  pose proof (decide_ok src0 pace0 tn tx _ Htx H1) as [H2 _].
  pose proof (decide_scene tn tx _ (iv_geom _ _ _ H1)) as [E2 Hk]. cbv zeta in *. rewrite E1 in E2.
  destruct (slot_decide tn tx (slot_start tx m)) as [[m2 e] idx]. cbn [fst snd] in *. clear E1 H1.
  set (m3 := if emit_is_scene e then _ else _).
  pose proof (account_scene tx m3 e) as [E4 E5]. cbv zeta in *. set (m4 := transfer_account tx m3 e) in *.
  clearbody m4. unfold scene_current. destruct (emit_is_scene e) eqn:Ee; cycle 1.
  { split; [done|]. apply filler_same. subst m3. congruence. }
  intros. destruct (iv_scene _ _ _ H2) as (Hlen & _).
  assert (Hr : 0 ≤ m_scene_step m2 < 343) by (destruct e; simpl in *; (done || lia)).
  destruct (scene_step_ok (m_scene m2) _ Hlen Hr) as (blk & Hblk & _).
  assert (Hm3 : m3 = set_m_filler_desc blk.[33] (set_m_scene_blk blk m2))
    by (subst m3; unfold scene_prepare; by rewrite Hlen, Hblk).
  clearbody m3. subst m3. unfold scene_fields in E4. simpl in E4, E5. injection E4 as F1 F2 F3.
  split; [|intros _; unfold filler_follows; congruence].
  intros _. unfold slot_block, REAC_SCENE_STEPS, REAC_SCENE_CHUNKS, REAC_SCENE_BYTES. rewrite F1, F2, E5.
  destruct e; try done; simpl in Hk.
  - by replace ((1 <=? m_scene_step m2) && (m_scene_step m2 <=? 341)) with true by lia.
  - by rewrite Hk in Hblk.
  - by rewrite Hk in Hblk.
Qed.

Lemma rx_scene tx m ev src blk : scene_fields (reac_master_rx tx m ev src blk).1 = scene_fields m.
Proof.
  unfold reac_master_rx. destruct (negb _); [done|]. set (m0 := set_m_presence_tick _ _).
  pose proof (promote_scene tx m0) as E1. set (m1 := promote_idle tx m0) in *. clearbody m1.
  assert (E0 : scene_fields m1 = scene_fields m) by (rewrite E1; done). rewrite <- E0. clear E0 E1.
  set (m2 := match ev with REAC_M_RX_BOX_CONFIG => _ | _ => _ end).
  set (m3 := if state_eqb (m_state m2) _ then _ else _).
  assert (E3 : scene_fields m3 = scene_fields m1) by (subst m3 m2; destruct ev; by destruct (state_eqb _ _)).
  rewrite <- E3. clearbody m3. destruct (_ && _); simpl; [|apply edge_scene].
  unfold hold_join. by destruct (if ev_is_join _ then blk else None).
Qed.

Lemma declare_scene tx m a b c : scene_fields (declare_box tx m a b c) = scene_fields m.
Proof.
  unfold declare_box.
  assert (E : scene_fields (reac_master_set_box tx m a b c) = scene_fields m).
  { unfold reac_master_set_box. pose proof (rebuild_scene tx m c a) as [E _].
    destruct (rebuild_grant_sweep tx m c a) as [m1 rc]. cbn [fst] in E. rewrite <- E.
    destruct (negb (rc =? 0)); [done|]. by destruct (_ && _). }
  rewrite <- E. destruct (_ && _); [|done]. apply granting_scene.
Qed.

Lemma master_reach_filler tn src cfg fps m :
  500 ≤ fps → zlen src = 6 → master_reach tn src cfg fps m → filler_follows m.
Proof.
  intros Hf Hs. induction 1 as [|m tx o Hr IH Htx].
  { unfold reac_master_init, scene_prepare. by destruct (reac_ctrl_build_scene_step _ _ _). }
  pose proof (master_reach_inv _ _ _ _ _ Hf Hs Hr) as H.
  destruct o as [|ev s blk|in_ch out_ch base|set|b]; simpl.
  - pose proof (next_scene _ _ tn tx m Htx H) as Hn.
    destruct (reac_master_next tn tx m) as [m' [[cnt e] idx]]. by apply Hn.
  - by apply (filler_same m); [apply rx_scene|].
  - by apply (filler_same m); [apply declare_scene|].
  - apply (filler_same m); [|done]. exact (proj1 (rebuild_scene tx (set_m_headamp_src set m) _ _)).
  - done.
Qed.

(** ** Stamping *)

(** The template a non-FILLER slot stamps. *)
Lemma slot_template src0 pace0 m e idx :
  minv src0 pace0 m → idx_ok m e idx → scene_current m e → e ≠ REAC_M_EMIT_FILLER →
  ∃ blk, slot_block m e idx = Some blk ∧ tmpl_ok blk ∧
    ∀ frame, reac_master_stamp m frame e idx = Some (apply_block frame blk).
Proof.
  intros H Hi Hc He. destruct H as [? ? Han ? ? Hmap Hbox [Hen _] (_ & _ & Hsc) ? ? ? ?].
  destruct e; simpl in *; try done.
  1-3: exists (m_scene_blk m); split; [exact (Hc eq_refl)|done].
  - destruct Hbox as [[_ Hl]|(_ & _ & Hz & Hcl & _)]; [lia|].
    destruct (lookup_lt_is_Some_2 (m_grant_burst m) (Z.to_nat idx)) as [blk Hblk];
      [unfold zlen in Hz; lia|].
    exists blk. split; [done|]. split.
    + rewrite Forall_lookup in Hcl. by destruct (Hcl _ _ Hblk) as (_ & _ & ?).
    + intros frame. replace (_ || _) with false by lia. by rewrite Hblk.
  - exists (m_enroll_blk m). done.
  - exists (chanmap_frame (console_field (m_cfg m)) idx). split; [done|]. split; [apply chanmap_frame_ok|].
    intros frame. destruct iv_geom0 as (_ & _ & _ & _ & _ & _ & _ & _ & _ & Hn & _).
    rewrite Hn. replace (_ || _) with false by lia. by rewrite Hmap, gen_chanmap_lookup.
  - exists (m_announce_blk m). rewrite Han. split; [done|]. split; [apply gen_cfea_ok|done].
  - destruct (lookup_lt_is_Some_2 GRANT_GROUPB (Z.to_nat idx)) as [blk Hblk]; [simpl; lia|].
    exists blk. split; [done|]. split.
    + pose proof groupb_closed as Hg. rewrite Forall_lookup in Hg. by destruct (Hg _ _ Hblk) as (_ & _ & ?).
    + intros frame. unfold reac_ctrl_identity_poll_block, REAC_GRANT_GROUPB_LEN.
      replace (_ || _) with false by lia. by rewrite Hblk.
Qed.

(** What a stamped frame carries at its type word and control block. *)
Definition carries_slot (m : reac_master) (e : reac_master_emit) (idx : Z) (frame frame' : list Z) : Prop :=
  if decide (e = REAC_M_EMIT_FILLER) then
    slice frame' 16 2 = slice frame 16 2 ∧
    ∀ j, 0 ≤ j < 16 → frame'.[18 + 2 * j] = 0 ∧ frame'.[19 + 2 * j] = m_filler_desc m
  else
    slot_block m e idx = Some (slice frame' 16 34) ∧ tmpl_ok (slice frame' 16 34) ∧
    reac_ctrl_checksum_verify frame' = true.

(** A decided slot can be stamped on any frame. *)
Lemma stamp_valid src0 pace0 m e idx frame :
  minv src0 pace0 m → idx_ok m e idx → scene_current m e → zlen frame = REAC_FRAME_BYTES →
  ∃ frame', reac_master_stamp m frame e idx = Some frame' ∧ zlen frame' = zlen frame ∧
    (∀ i, 0 ≤ i → ¬ (16 ≤ i < 50) → frame'.[i] = frame.[i]) ∧ carries_slot m e idx frame frame'.
Proof.
  intros Hm Hi Hc Hl. change REAC_FRAME_BYTES with 1492 in Hl. unfold carries_slot. case_decide as He.
  - subst e. eexists; split; [done|]. split_and!; [apply filler_stamp_len| | |].
    + intros i Hi0 Ho. apply filler_stamp_out; lia.
    + apply slice_ext; [apply filler_stamp_len|lia|]. intros i Hi'. apply filler_stamp_out; lia.
    + intros j Hj. apply filler_stamp_in; lia.
  - destruct (slot_template _ _ m e idx Hm Hi Hc He) as (blk & Hsb & Hblk & Hst).
    destruct (apply_block_eq frame blk) as [Heq Hv]; [lia|done|].
    exists (apply_block frame blk). rewrite Hst, Heq. pose proof Hblk as (Hbl & _).
    assert (Hs : slice (blit frame 16 blk) 16 34 = blk) by (rewrite <- Hbl; apply slice_blit_in; lia).
    split_and!; [done|zl| |by rewrite Hs|by rewrite Hs|by rewrite <- Heq].
    intros i Hi0 Ho. apply rd_blit_out; zl.
Qed.

(** C11. Every slot a master decides can be put on the wire, and carries what its
    kind is to carry. Whatever frames, declarations and head-amp edits the master
    has been through, the slot it decides next is one [reac_master_stamp] accepts:
    the frame keeps its length and every byte outside the type word and control
    block (addresses, counter, audio, end marker). An announce lands the block that
    names the master's address, width, pace and whether a box is enrolled; a map
    slot the window of its index; a scene slot the block of its step of the
    master's scene (the header's, a chunk's, the final's); a grant slot that row of
    the sweep in hand; an ENROLL slot the enrolment of the box; a poll that row of
    the identity polls ([slot_block]); each with a valid checksum. A FILLER keeps
    its type word and repeats the checksum of the scene block pushed last. The
    counter handed out is the master's, which moves on by one, modulo 2^16. *)
Theorem master_slots_valid (tn : reac_master_tunables) (src : list Z)
    (cfg : option reac_console_cfg) (fps : Z) (m : reac_master) (tx : reac_headamp_tx)
    (frame : list Z) :
  500 ≤ fps → zlen src = 6 → master_reach tn src cfg fps m → tx_ok tx →
  zlen frame = REAC_FRAME_BYTES →
  let '(m', (cnt, e, idx)) := reac_master_next tn tx m in
  cnt = m_counter m ∧ m_counter m' = u16 (cnt + 1) ∧ m_filler_desc m' = (m_scene_blk m').[33] ∧
  ∃ frame', reac_master_stamp m' frame e idx = Some frame' ∧ zlen frame' = zlen frame ∧
    (∀ i, 0 ≤ i → ¬ (16 ≤ i < 50) → frame'.[i] = frame.[i]) ∧ carries_slot m' e idx frame frame'.
Proof.
  intros Hf Hs Hr Htx Hl. pose proof (master_reach_inv _ _ _ _ _ Hf Hs Hr) as H.
  pose proof (minv_next _ _ tn tx m Htx H) as Hn. pose proof (next_scene _ _ tn tx m Htx H) as Hc.
  destruct (reac_master_next tn tx m) as [m' [[cnt e] idx]].
  destruct Hn as (Hm & Hi & -> & Hcnt). destruct Hc as [Hc Hd].
  split_and!; [done|done|by eapply Hd, master_reach_filler|]. by eapply stamp_valid.
Qed.

Lemma tx_ok_init : tx_ok reac_headamp_tx_init.
Proof. exists ∅. apply tx_refines_init. Qed.

(** A master at 48 kHz under its default tunables, as the pacer makes one. *)
Definition demo_src : list Z := [0; 0x40; 0xab; 1; 2; 3].
Definition demo_master : reac_master :=
  reac_master_init REAC_MASTER_TUNABLES_DEFAULT demo_src (Some (ConsoleCfg 8 0)) 4000.

Lemma master_slots_valid_witness :
  let '(m', (cnt, e, idx)) :=
    reac_master_next REAC_MASTER_TUNABLES_DEFAULT reac_headamp_tx_init demo_master in
  cnt = 0 ∧ ∃ frame', reac_master_stamp m' (zeros 1492) e idx = Some frame' ∧ zlen frame' = 1492.
Proof.
  pose proof (master_slots_valid REAC_MASTER_TUNABLES_DEFAULT demo_src (Some (ConsoleCfg 8 0)) 4000
    demo_master reac_headamp_tx_init (zeros 1492) ltac:(lia) eq_refl (reach_init _ _ _ _)
    tx_ok_init eq_refl) as H.
  destruct (reac_master_next _ _ _) as [m' [[cnt e] idx]].
  destruct H as (Hc & _ & _ & frame' & Hst & Hl & _).
  split; [rewrite Hc; vm_compute; done|]. exists frame'. split; [done|]. rewrite Hl. reflexivity.
Defined.

(** ** What the advertised blocks say *)

Lemma gen_cfea_rd src cfg n :
  zlen src = 6 → 0 ≤ n < 65536 →
  slice (gen_cfea src cfg n) 11 6 = src ∧ (gen_cfea src cfg n).[17] = 0x28 ∧
  (gen_cfea src cfg n).[18] = out_channels cfg ∧ (gen_cfea src cfg n).[19] = console_field cfg ∧
  256 * (gen_cfea src cfg n).[20] + (gen_cfea src cfg n).[21] = n.
Proof.
  intros Hs Hn. unfold gen_cfea, stamp_block_cksum, ANNOUNCE_MAC_IDX.
  rewrite !rd_block_stamp_ne by lia. split_and!.
  - apply buf_ext; [zl|]. intros j Hj. rewrite zlen_slice in Hj.
    rewrite rd_slice by lia. rewrite rd_block_stamp_ne by lia. rds. f_equal; lia.
  - by rds.
  - by rds.
  - by rds.
  - rds. rewrite u8_land_ff, Z.shiftr_div_pow2 by lia. unfold u8. lia.
Qed.

Lemma chanmap_slot_len f ch : zlen (chanmap_slot f ch) = 3.
Proof. unfold chanmap_slot. by destruct (_ =? _). Qed.

(** Window [f] advertises the eight ring positions from its start. *)
Lemma chanmap_frame_slot mf f s :
  0 ≤ s < 8 →
  slice (chanmap_frame mf f) (7 + 3 * s) 3 = chanmap_slot mf (ring_at (chanmap_start f + s)).
Proof.
  intros Hs. unfold chanmap_frame, stamp_block_cksum.
  change (zseq 0 REAC_CHANMAP_SLOTS) with [0; 1; 2; 3; 4; 5; 6; 7]. cbn [foldl].
  apply buf_ext.
  { rewrite chanmap_slot_len. zl. }
  intros j Hj. rewrite zlen_slice in Hj. autorewrite with zlen in Hj.
  rewrite rd_slice by lia. rewrite rd_block_stamp_ne, !rd_wr_ne by lia.
  pose proof (chanmap_slot_len mf) as Hc.
  assert (s = 0 ∨ s = 1 ∨ s = 2 ∨ s = 3 ∨ s = 4 ∨ s = 5 ∨ s = 6 ∨ s = 7) as Hs' by lia.
  destruct Hs' as [-> |[-> |[-> |[-> |[-> |[-> |[-> | ->]]]]]]];
    repeat (rewrite rd_blit_out by (rewrite ?Hc; lia));
    rewrite rd_blit_in by (rewrite ?zlen_blit, ?Hc, ?zlen_zeros; lia); f_equal; lia.
Qed.

(** The 49 windows start at the 49 ring positions, once each. *)
Definition chanmap_window_of (p : Z) : Z := if p =? 48 then 0 else 1 + (7 - p mod 8) * 6 + p / 8.

Lemma chanmap_start_inverse f p :
  0 ≤ f < 49 → 0 ≤ p < 49 → chanmap_start f = p ↔ f = chanmap_window_of p.
Proof.
  intros Hf Hp. unfold chanmap_start, chanmap_window_of, REAC_M_CHANMAP_RING.
  destruct (f =? 0) eqn:E, (p =? 48) eqn:E2; lia.
Qed.

Lemma chanmap_window_range p : 0 ≤ p < 49 → 0 ≤ chanmap_window_of p < 49.
Proof. intros Hp. unfold chanmap_window_of. destruct (p =? 48) eqn:E; lia. Qed.

(** C39. A master only says what is so. In every reachable state the announce
    carries the master's own MAC, the 40-slot total, the width of the box it
    knows and a box count of one exactly while it is ESTABLISHED; the enrol
    frame, the pushed scene and the channel map's section marker carry the same
    pace code as the announce; and the channel map starts a window at every one
    of the 49 ring positions exactly once, each window naming eight consecutive
    positions, so every box sees the window that maps its own slots. *)
Theorem master_advertises_truth (tn : reac_master_tunables) (src : list Z)
    (cfg : option reac_console_cfg) (fps : Z) (m : reac_master) :
  500 ≤ fps → zlen src = 6 → master_reach tn src cfg fps m →
  let pace := console_field (default REAC_CONSOLE_CFG_IDLE cfg) in
  let a := m_announce_blk m in
  slice a 11 6 = src ∧ a.[17] = 40 ∧ a.[19] = pace ∧
  256 * a.[20] + a.[21] = (if decide (m_state m = REAC_M_ESTABLISHED) then 1 else 0) ∧
  (reac_master_has_box m = true → a.[18] = ga_width (m_alloc m)) ∧
  (m_enroll_blk m).[REAC_ENROLL_CONSOLE_IDX] = pace ∧
  (m_scene m).[REAC_SCENE_REVISION_OFF] = pace ∧
  (∀ p, 0 ≤ p < 49 → ∃ f row, 0 ≤ f < 49 ∧ m_chanmap m !! Z.to_nat f = Some row ∧
     (∀ s, 0 ≤ s < 8 → slice row (7 + 3 * s) 3 = chanmap_slot pace (ring_at (p + s))) ∧
     (∀ g, 0 ≤ g < 49 → chanmap_start g = p → g = f)).
Proof.
  intros Hf Hs Hr pace a.
  destruct (master_reach_inv _ _ _ _ _ Hf Hs Hr) as
    [? (Hl & Hsrc & Hp) Han ? ? Hmap Hbox [_ Hen] (_ & Hsc & _) ? ? ? ?].
  destruct (gen_cfea_rd (m_src m) (m_cfg m) (b2z (established m)) Hl) as (H1 & H2 & H3 & H4 & H5);
    [destruct (established m); simpl; lia|].
  subst a pace. rewrite Han. split_and!; try congruence.
  - rewrite H5. unfold established, state_eqb, b2z. by repeat case_decide || case_bool_decide.
  - intros Hb. rewrite H3. unfold reac_master_has_box in Hb. destruct Hbox as [[Hw _]|(_ & _ & _ & _ & ?)]; [lia|done].
  - etransitivity; [exact Hen|exact Hp].
  - intros p Hpr. exists (chanmap_window_of p), (chanmap_frame (console_field (m_cfg m)) (chanmap_window_of p)).
    pose proof (chanmap_window_range p Hpr) as Hw. split_and!; [lia|lia| | |].
    + rewrite Hmap. by apply gen_chanmap_lookup.
    + intros s Hs8. rewrite chanmap_frame_slot by done. rewrite Hp.
      by rewrite (proj2 (chanmap_start_inverse (chanmap_window_of p) p Hw Hpr) eq_refl).
    + intros g Hg Hst. by apply chanmap_start_inverse.
Qed.

Lemma master_advertises_truth_witness :
  256 * (m_announce_blk demo_master).[20] + (m_announce_blk demo_master).[21] = 0 ∧
  (m_announce_blk demo_master).[19] = 0.
Proof.
  destruct (master_advertises_truth REAC_MASTER_TUNABLES_DEFAULT demo_src (Some (ConsoleCfg 8 0)) 4000
    demo_master ltac:(lia) eq_refl (reach_init _ _ _ _)) as (_ & _ & H19 & Hc & _).
  split; [|exact H19]. rewrite Hc. vm_compute. done.
Defined.

(** ** Well-formedness of the state *)

(** C38. The master's state is well formed in every reachable state. Every block
    it may stamp (the announce, the enrol frame, the scene step, the rows of the
    channel map and of the grant sweep) is a closed 34-byte template; the
    allocation is empty or admissible, and its sweep is then the complete one,
    inside the array reserved for it; the counter is a 16-bit value; each index
    (cycle position, channel-map cursor, identity polls left) is inside what it
    indexes; and a join is only ever held while PROBING. *)
Theorem master_state_typed (tn : reac_master_tunables) (src : list Z)
    (cfg : option reac_console_cfg) (fps : Z) (m : reac_master) :
  500 ≤ fps → zlen src = 6 → master_reach tn src cfg fps m →
  m_src m = src ∧ 0 ≤ m_counter m < 2 ^ 16 ∧
  tmpl_ok (m_announce_blk m) ∧ tmpl_ok (m_enroll_blk m) ∧ tmpl_ok (m_scene_blk m) ∧
  zlen (m_scene m) = REAC_SCENE_BYTES ∧
  zlen (m_chanmap m) = m_chanmap_nframes m ∧ Forall tmpl_ok (m_chanmap m) ∧
  0 ≤ m_chanmap_cursor m < zlen (m_chanmap m) ∧
  0 ≤ m_cycle_pos m < m_cycle_len m ∧ 0 ≤ m_identity_poll_left m ≤ REAC_GRANT_GROUPB_LEN ∧
  (if reac_master_has_box m
   then 0 < ga_width (m_alloc m) ∧ ga_base (m_alloc m) + ga_width (m_alloc m) ≤ REAC_HEADAMP_MAX_CH ∧
        zlen (m_grant_burst m) = m_grant_burst_len m ∧
        m_grant_burst_len m = REAC_GRANT_SWEEP_LEN (ga_width (m_alloc m)) ∧
        m_grant_burst_len m ≤ REAC_GRANT_SWEEP_MAX ∧
        Forall tmpl_ok (m_grant_burst m)
   else ga_width (m_alloc m) = 0 ∧ m_grant_burst_len m = 0) ∧
  (m_join_held m = true → m_state m = REAC_M_PROBING).
Proof.
  intros Hf Hs Hr.
  destruct (master_reach_inv _ _ _ _ _ Hf Hs Hr) as
    [Hg (Hl & Hsrc & Hp) Han Hpos Hcur Hmap Hbox [Hen _] (Hsc & _ & Hsb) Hpo ? Hh Hc].
  destruct Hg as (_ & _ & _ & _ & _ & _ & _ & _ & _ & Hn & _).
  assert (Hz : zlen (m_chanmap m) = 49) by (rewrite Hmap; unfold gen_chanmap; by rewrite zlen_fmap, zlen_zseq).
  rewrite Hz, Hn. unfold REAC_GRANT_GROUPB_LEN. split_and!; try done; try lia.
  - rewrite Han. apply gen_cfea_ok.
  - rewrite Hmap. unfold gen_chanmap. apply Forall_fmap, Forall_true. intros i. apply chanmap_frame_ok.
  - unfold reac_master_has_box. destruct Hbox as [[Hw Hlen]|(Hfit & Hlen & Hzb & Hrows & _)].
    + by rewrite Hw.
    + pose proof (proj1 (alloc_fits_iff _ _) Hfit) as (Hw & Hb & Hbw).
      replace (0 <? _) with true by lia. unfold REAC_GRANT_SWEEP_MAX, REAC_GRANT_SWEEP_LEN, REAC_GRANT_MAX_WIDTH, REAC_HEADAMP_MAX_CH.
      split_and!; try lia. eapply Forall_impl; [exact Hrows|]. by intros row (_ & _ & ?).
  - intros Hj. by destruct (Hh Hj) as (? & _).
Qed.

Lemma master_state_typed_witness :
  tmpl_ok (m_announce_blk demo_master) ∧ 0 ≤ m_chanmap_cursor demo_master < 49.
Proof.
  destruct (master_state_typed REAC_MASTER_TUNABLES_DEFAULT demo_src (Some (ConsoleCfg 8 0)) 4000
    demo_master ltac:(lia) eq_refl (reach_init _ _ _ _)) as (_ & _ & H & _ & _ & _ & _ & _ & Hc & _).
  split; [exact H|]. change 49 with (zlen (m_chanmap demo_master)) at 1. exact Hc.
Defined.
