(* ===== verification/MasterLink.v ===== *)
(** * MasterLink: how a master links, holds and loses a box

    Trace theorems over the slots of [Master]: the sweep that must leave the
    wire before a box is ESTABLISHED, the budget that holds the link, and the
    scene push a courted box waits for. *)

From S2P Require Import Prelude Wire CtrlBlk CtrlFrames HeadampTx Grant MasterFsm Scene Master MasterInv.
Local Open Scope Z_scope.

(** ** Frames: what a slot leaves alone *)

Lemma cadence_frame tn m :
  let m' := (control_cadence tn m).1.1 in
  m_state m' = m_state m ∧ m_link_check m' = m_link_check m ∧
  m_link_check_reload m' = m_link_check_reload m ∧ m_join_held m' = m_join_held m ∧
  m_box_mac m' = m_box_mac m ∧ m_grant_ticks m' = m_grant_ticks m ∧ m_alloc m' = m_alloc m ∧
  m_grant_burst_len m' = m_grant_burst_len m ∧ m_scene m' = m_scene m.
Proof.
  cbv zeta. unfold control_cadence, locked_cadence, hunt_cadence, or_else, scene_chunk_at,
    scene_tail_at, scene_head_at, identity_repoll, take_chanmap, scene_slot.
  split_ifs; by split_and!.
Qed.

Lemma prepare_frame m :
  let m' := scene_prepare m in
  m_state m' = m_state m ∧ m_link_check m' = m_link_check m ∧
  m_link_check_reload m' = m_link_check_reload m ∧ m_join_held m' = m_join_held m ∧
  m_box_mac m' = m_box_mac m ∧ m_grant_ticks m' = m_grant_ticks m ∧ m_alloc m' = m_alloc m ∧
  m_grant_burst_len m' = m_grant_burst_len m ∧ m_drop_reason m' = m_drop_reason m.
Proof. cbv zeta. unfold scene_prepare. by destruct (reac_ctrl_build_scene_step _ _ _). Qed.

(** ** Holding and losing the link *)

Section Hold.
Context (tn : reac_master_tunables) (src0 : list Z) (pace0 : Z).
Abbreviation minv := (minv src0 pace0).

(** [n] slots with nothing received in between. *)
Fixpoint quiet_slots (txs : list reac_headamp_tx) (m : reac_master) : reac_master :=
  match txs with
  | [] => m
  | tx :: txs => quiet_slots txs (reac_master_next tn tx m).1
  end.

Lemma start_established tx m :
  m_state m = REAC_M_ESTABLISHED →
  let m' := slot_start tx m in
  m_state m' = m_state m ∧ m_link_check m' = m_link_check m ∧ m_join_held m' = m_join_held m ∧
  m_box_mac m' = m_box_mac m ∧ m_link_check_reload m' = m_link_check_reload m.
Proof.
  intros Hs. cbv zeta. unfold slot_start, promote_idle. simpl.
  replace (state_eqb (m_state m) REAC_M_IDLE) with false by (unfold state_eqb; by rewrite Hs).
  simpl. destruct (m_box_seen m); [|done]. by destruct (_ <=? 0).
Qed.

(** One silent slot of an established master. *)
Lemma next_established tx m :
  tx_ok tx → minv m → m_state m = REAC_M_ESTABLISHED →
  let m' := (reac_master_next tn tx m).1 in
  minv m' ∧
  if 1 <? m_link_check m then
    m_state m' = REAC_M_ESTABLISHED ∧ m_link_check m' = m_link_check m - 1 ∧
    m_box_mac m' = m_box_mac m ∧ m_link_check_reload m' = m_link_check_reload m
  else m_state m' = REAC_M_PROBING ∧ m_drop_reason m' = REAC_M_DROP_PEER_GONE ∧
       reac_master_has_box m' = false ∧ m_box_mac m' = zeros 6.
Proof.
  intros Htx H Hs. cbv zeta. pose proof (minv_next src0 pace0 tn tx m Htx H) as Hn.
  assert (Hm' : minv (reac_master_next tn tx m).1)
    by (destruct (reac_master_next tn tx m) as [? [[? ?] ?]]; apply Hn).
  split; [done|]. clear Hn Hm'. unfold reac_master_next. fold (slot_start tx m).
  destruct (start_established tx m Hs) as (S1 & S2 & S3 & S4 & S5).
  assert (Hh : m_join_held m = false)
    by (apply (held_false src0 pace0); [done|]; by rewrite Hs).
  set (m0 := slot_start tx m) in *. clearbody m0. rewrite <- S2, <- S4, <- S5. rewrite Hs in S1. rewrite Hh in S3.
  clear S2 S4 S5 Hs H Hh.
  unfold slot_decide. rewrite S1. unfold established_slot.
  destruct (cadence_frame tn m0) as (C1 & C2 & C3 & C4 & C5 & _).
  destruct (control_cadence tn m0) as [[m1 e] idx]. cbn [fst snd] in *.
  set (m2 := set_m_link_check (m_link_check m1 - 1) m1).
  assert (Hacc : ∀ m3, m_join_held m3 = false →
    let m4 := transfer_account tx (if emit_is_scene e then scene_prepare m3 else m3) e in
    m_state m4 = m_state m3 ∧ m_link_check m4 = m_link_check m3 ∧ m_box_mac m4 = m_box_mac m3 ∧
    m_link_check_reload m4 = m_link_check_reload m3 ∧ m_drop_reason m4 = m_drop_reason m3 ∧
    reac_master_has_box m4 = reac_master_has_box m3).
  { intros m3 H3. cbv zeta. destruct (prepare_frame m3) as (P1 & P2 & P3 & P4 & P5 & _ & P6 & _ & P7).
    set (m5 := if emit_is_scene e then scene_prepare m3 else m3).
    assert (m_state m5 = m_state m3 ∧ m_link_check m5 = m_link_check m3 ∧ m_box_mac m5 = m_box_mac m3 ∧
      m_link_check_reload m5 = m_link_check_reload m3 ∧ m_drop_reason m5 = m_drop_reason m3 ∧
      m_alloc m5 = m_alloc m3 ∧ m_join_held m5 = false) as (Q1 & Q2 & Q3 & Q4 & Q5 & Q6 & Q7)
      by (subst m5; destruct (emit_is_scene e); split_and!; congruence).
    unfold reac_master_has_box. rewrite <- Q1, <- Q2, <- Q3, <- Q4, <- Q5, <- Q6. clearbody m5.
    unfold transfer_account. destruct e; try done. destruct (m_scene_inflight m5); [|done].
    simpl. by rewrite Q7. }
  change (m_link_check m2 <=? 0) with (m_link_check m1 - 1 <=? 0). rewrite C2.
  destruct (m_link_check m0 - 1 <=? 0) eqn:E.
  - replace (1 <? m_link_check m0) with false by lia.
    set (m3 := apply_edge _ _ _ _ _).
    assert (E3 : m3 = enter_probing (set_m_drop_reason REAC_M_DROP_PEER_GONE m2)).
    { subst m3. subst m2. simpl. rewrite C1. by rewrite S1. }
    assert (Hst : negb (state_eqb (m_state m2) REAC_M_IDLE) = true)
      by (unfold state_eqb; simpl; by rewrite C1, S1).
    assert (m_state m3 = REAC_M_PROBING ∧ m_drop_reason m3 = REAC_M_DROP_PEER_GONE ∧
            reac_master_has_box m3 = false ∧ m_box_mac m3 = zeros 6 ∧ m_join_held m3 = false) as (? & ? & ? & ? & ?).
    { rewrite E3. unfold enter_probing. simpl in Hst |- *. rewrite Hst. by split_and!. }
    destruct (Hacc m3) as (? & ? & ? & ? & ? & ?); [done|]. split_and!; congruence.
  - replace (1 <? m_link_check m0) with true by lia.
    destruct (Hacc m2) as (? & ? & ? & ? & ? & ?); [subst m2; simpl; congruence|].
    subst m2; simpl in *. split_and!; congruence.
Qed.

Lemma quiet_established txs m :
  Forall tx_ok txs → minv m → m_state m = REAC_M_ESTABLISHED → zlen txs < m_link_check m →
  let m' := quiet_slots txs m in
  minv m' ∧ m_state m' = REAC_M_ESTABLISHED ∧ m_link_check m' = m_link_check m - zlen txs ∧
  m_box_mac m' = m_box_mac m.
Proof.
  intros Htx. revert m. induction Htx as [|tx txs Ht _ IH]; intros m H Hs Hl; cbv zeta; simpl.
  - split_and!; try done. unfold zlen; simpl; lia.
  - rewrite zlen_cons in Hl. pose proof (zlen_nonneg txs).
    destruct (next_established tx m Ht H Hs) as [H1 H2].
    replace (1 <? m_link_check m) with true in H2 by lia. destruct H2 as (Hs1 & Hl1 & Hb1 & _).
    destruct (IH _ H1 Hs1 ltac:(lia)) as (H2 & Hs2 & Hl2 & Hb2).
    split_and!; try done; [rewrite zlen_cons; lia|congruence].
Qed.
End Hold.

Lemma quiet_slots_app tn txs txs' m :
  quiet_slots tn (txs ++ txs') m = quiet_slots tn txs' (quiet_slots tn txs m).
Proof. revert m; induction txs as [|tx txs IH]; intros m; simpl; [done|apply IH]. Qed.

(** A frame from another source, while a box is bound, is nothing at all. *)
Lemma rx_foreign tx m ev src blk :
  m_state m = REAC_M_ESTABLISHED → m_box_mac m ≠ zeros 6 → src ≠ m_box_mac m →
  reac_master_rx tx m ev src blk = (m, false).
Proof.
  intros Hs Hb Hne. unfold reac_master_rx, reac_master_peer_accepts, state_eqb, mac_none.
  rewrite Hs. rewrite (proj2 (zeqb_neq _ _) Hb), (proj2 (zeqb_neq _ _) Hne). simpl.
  by rewrite andb_false_r.
Qed.

#[local] Arguments grant_delivered : simpl never.

(** What a frame of the bound box does to an established master. *)
Lemma rx_bound tx m ev blk :
  m_state m = REAC_M_ESTABLISHED →
  let m' := (reac_master_rx tx m ev (m_box_mac m) blk).1 in
  match ev with
  | REAC_M_RX_BOX_BYE =>
      m_state m' = REAC_M_PROBING ∧ m_drop_reason m' = REAC_M_DROP_BYE ∧
      reac_master_has_box m' = false
  | _ => m_state m' = REAC_M_ESTABLISHED ∧ m_link_check m' = m_link_check_reload m ∧
         m_link_check_reload m' = m_link_check_reload m ∧ m_box_mac m' = m_box_mac m
  end.
Proof.
  intros Hs. cbv zeta. unfold reac_master_rx.
  replace (reac_master_peer_accepts m (m_box_mac m) ev) with true; cycle 1.
  { unfold reac_master_peer_accepts, state_eqb. rewrite Hs. simpl. by rewrite zeqb_refl, orb_true_r. }
  cbn [negb]. destruct m. simpl in Hs. subst. unfold promote_idle, state_eqb. simpl.
  destruct ev, blk; simpl; rewrite ?zeqb_refl; simpl; try by split_and!.
  all: destruct (grant_delivered _); simpl; by split_and!.
Qed.

(** C34. The link lives exactly as long as its box does. An established master
    answers to its box alone: a frame from any other MAC changes nothing. Any
    frame of the box but a farewell keeps the link and refills the budget to
    6.5 s of slots; the box's silence then drops the link at exactly the last
    slot of that budget, not one sooner, forgetting the box; a farewell drops
    it at once. *)
Theorem master_link_exact (tn : reac_master_tunables) (src : list Z)
    (cfg : option reac_console_cfg) (fps : Z) (m : reac_master) (tx : reac_headamp_tx)
    (ev : reac_master_rx_event) (blk : option (list Z)) (txs : list reac_headamp_tx) :
  500 ≤ fps → zlen src = 6 → master_reach tn src cfg fps m → tx_ok tx → Forall tx_ok txs →
  m_state m = REAC_M_ESTABLISHED → m_box_mac m ≠ zeros 6 →
  let budget := m_fps m * 65 / 10 in
  let m1 := (reac_master_rx tx m ev (m_box_mac m) blk).1 in
  let m2 := quiet_slots tn txs m1 in
  (∀ ev' mac' blk', mac' ≠ m_box_mac m → reac_master_rx tx m ev' mac' blk' = (m, false)) ∧
  match ev with
  | REAC_M_RX_BOX_BYE =>
      m_state m1 = REAC_M_PROBING ∧ m_drop_reason m1 = REAC_M_DROP_BYE ∧
      reac_master_has_box m1 = false
  | _ =>
      (zlen txs < budget → m_state m2 = REAC_M_ESTABLISHED ∧ m_box_mac m2 = m_box_mac m) ∧
      (zlen txs = budget → m_state m2 = REAC_M_PROBING ∧ m_drop_reason m2 = REAC_M_DROP_PEER_GONE ∧
         reac_master_has_box m2 = false ∧ m_box_mac m2 = zeros 6)
  end.
Proof.
  intros Hf Hs Hr Htx Htxs He Hb budget m1 m2.
  pose proof (master_reach_inv _ _ _ _ _ Hf Hs Hr) as Hi.
  assert (Hbud : m_link_check_reload m = budget)
    by (destruct (iv_geom _ _ _ Hi) as (_ & _ & _ & _ & _ & _ & _ & -> & _); done).
  assert (Hpos : 0 < budget)
    by (destruct (iv_geom _ _ _ Hi) as (? & _); subst budget; lia).
  split; [intros; by apply rx_foreign|].
  pose proof (rx_bound tx m ev blk He) as Hrx. fold m1 in Hrx.
  assert (Hi1 : minv src (console_field (default REAC_CONSOLE_CFG_IDLE cfg)) m1) by (by apply minv_rx).
  assert (Hlive : m_state m1 = REAC_M_ESTABLISHED ∧ m_link_check m1 = m_link_check_reload m ∧
      m_link_check_reload m1 = m_link_check_reload m ∧ m_box_mac m1 = m_box_mac m →
    (zlen txs < budget → m_state m2 = REAC_M_ESTABLISHED ∧ m_box_mac m2 = m_box_mac m) ∧
    (zlen txs = budget → m_state m2 = REAC_M_PROBING ∧ m_drop_reason m2 = REAC_M_DROP_PEER_GONE ∧
         reac_master_has_box m2 = false ∧ m_box_mac m2 = zeros 6)).
  { intros (Hs1 & Hl1 & _ & Hb1). rewrite Hbud in Hl1. split; intros Hn.
    - destruct (quiet_established tn _ _ txs m1 Htxs Hi1 Hs1 ltac:(lia)) as (_ & Hq & _ & Hbq).
      split; [exact Hq|exact (eq_trans Hbq Hb1)].
    - destruct (decide (txs = [])) as [->|Hne]; [unfold zlen in Hn; simpl in Hn; lia|].
      destruct (exists_last Hne) as (txs' & tx' & ->).
      apply Forall_app in Htxs as [Ht1 Ht2]. apply Forall_cons in Ht2 as [Ht2 _].
      rewrite zlen_app, zlen_cons in Hn. unfold zlen in Hn at 2; simpl in Hn.
      destruct (quiet_established tn _ _ txs' m1 Ht1 Hi1 Hs1 ltac:(lia)) as (Hi3 & Hs3 & Hl3 & _).
      subst m2. rewrite quiet_slots_app. simpl.
      destruct (next_established tn _ _ tx' _ Ht2 Hi3 Hs3) as [_ Hd].
      replace (1 <? _) with false in Hd by lia. done. }
  destruct ev; try done; by apply Hlive.
Qed.

(** ** A concrete link

    A small master (500 slots a second, the slowest the schedule supports)
    courted by an S-1608 (16 inputs, base 0x20): the JOIN comes during the first
    transfer and is held for it, the box declares itself in the dwell, the sweep
    goes out. *)
Lemma reach_quiet tn src cfg fps m txs :
  master_reach tn src cfg fps m → Forall tx_ok txs → master_reach tn src cfg fps (quiet_slots tn txs m).
Proof.
  intros Hr Htx. revert m Hr. induction Htx as [|tx txs Ht _ IH]; intros m Hr; simpl; [done|].
  apply IH. exact (reach_step tn src cfg fps m tx MNext Hr Ht).
Qed.

Lemma reach_rx tn src cfg fps m tx ev mac blk :
  master_reach tn src cfg fps m → tx_ok tx →
  master_reach tn src cfg fps (reac_master_rx tx m ev mac blk).1.
Proof. intros Hr Ht. exact (reach_step tn src cfg fps m tx (MRx ev mac blk) Hr Ht). Qed.

Lemma reach_declare tn src cfg fps m tx a b c :
  master_reach tn src cfg fps m → tx_ok tx →
  master_reach tn src cfg fps (declare_box tx m a b c).
Proof. intros Hr Ht. exact (reach_step tn src cfg fps m tx (MDeclare a b c) Hr Ht). Qed.

Definition demo_box : list Z := [0; 0x40; 0xab; 0xc4; 0x80; 0x41].
Definition demo_slots (n : Z) : list reac_headamp_tx :=
  replicate (Z.to_nat n) reac_headamp_tx_init.
Definition demo_start : reac_master :=
  reac_master_init REAC_MASTER_TUNABLES_DEFAULT demo_src None 500.
Definition demo_granting : reac_master :=
  let tn := REAC_MASTER_TUNABLES_DEFAULT in let tx := reac_headamp_tx_init in
  let m := quiet_slots tn (demo_slots 10) demo_start in
  let m := (reac_master_rx tx m REAC_M_RX_BOX_JOIN demo_box (Some (zeros 32))).1 in
  quiet_slots tn (demo_slots 337) m.
Definition demo_linked : reac_master :=
  let tn := REAC_MASTER_TUNABLES_DEFAULT in let tx := reac_headamp_tx_init in
  quiet_slots tn (demo_slots 1480) (declare_box tx demo_granting 16 8 32).

Lemma demo_slots_ok n : Forall tx_ok (demo_slots n).
Proof. apply Forall_replicate, tx_ok_init. Qed.

Lemma demo_granting_reach :
  master_reach REAC_MASTER_TUNABLES_DEFAULT demo_src None 500 demo_granting.
Proof.
  unfold demo_granting. cbv zeta. apply reach_quiet; [|apply demo_slots_ok].
  apply reach_rx; [|apply tx_ok_init].
  apply reach_quiet; [apply reach_init|apply demo_slots_ok].
Qed.

Lemma demo_linked_reach :
  master_reach REAC_MASTER_TUNABLES_DEFAULT demo_src None 500 demo_linked.
Proof.
  unfold demo_linked. cbv zeta. apply reach_quiet; [|apply demo_slots_ok].
  apply reach_declare; [apply demo_granting_reach|apply tx_ok_init].
Qed.

Lemma demo_linked_state :
  m_state demo_linked = REAC_M_ESTABLISHED ∧ m_box_mac demo_linked = demo_box.
Proof. vm_compute. done. Qed.

Lemma master_link_exact_witness :
  let m1 := (reac_master_rx reac_headamp_tx_init demo_linked REAC_M_RX_BOX_UNICAST
               (m_box_mac demo_linked) None).1 in
  m_state (quiet_slots REAC_MASTER_TUNABLES_DEFAULT (demo_slots 3) m1) = REAC_M_ESTABLISHED.
Proof.
  destruct demo_linked_state as [Hs Hb].
  destruct (master_link_exact REAC_MASTER_TUNABLES_DEFAULT demo_src None 500 demo_linked
    reac_headamp_tx_init REAC_M_RX_BOX_UNICAST None (demo_slots 3) ltac:(lia) eq_refl
    demo_linked_reach tx_ok_init (demo_slots_ok 3) Hs ltac:(rewrite Hb; done)) as (_ & Hl & _).
  apply Hl. vm_compute. done.
Defined.
