(* ===== verification/MasterGrant.v ===== *)
(** * MasterGrant: no link without its whole enrolment

    A ghost of the sweep rows a grant window has put on the wire, kept beside
    every reachable master, shows that ESTABLISHED is entered only once every
    row of the sweep has left. *)

From S2P Require Import Prelude Wire CtrlBlk CtrlFrames HeadampTx Grant MasterFsm Scene.
From S2P Require Import Master MasterInv MasterLink.
Local Open Scope Z_scope.

(** The rows a window opened [t] slots ago has sent, when its burst started at
    slot [a] and has [len] rows. *)
Definition rows_sent (t a len : Z) : Z := Z.max 0 (Z.min len ((t + 10 - a) / 12)).

Definition grants_sent (m : reac_master) : Z :=
  rows_sent (m_grant_ticks m) (reac_master_grant_anchor m) (m_grant_burst_len m).

(** The row index a slot puts on the wire, if it is a grant. *)
Definition granted_row (e : reac_master_emit) (idx : Z) : list Z :=
  match e with REAC_M_EMIT_GRANT => [idx] | _ => [] end.

Lemma dwell_slot_frame m :
  let o := dwell_slot m in
  m_state o.1.1 = m_state m ∧ m_grant_ticks o.1.1 = m_grant_ticks m ∧ m_alloc o.1.1 = m_alloc m ∧
  m_grant_burst_len o.1.1 = m_grant_burst_len m ∧ m_dwell_ended_tick o.1.1 = m_dwell_ended_tick m ∧
  m_grant_dwell o.1.1 = m_grant_dwell m ∧ granted_row o.1.2 o.2 = [].
Proof.
  cbv zeta. unfold dwell_slot, granting_chanmap_due, announce_due, take_chanmap.
  split_ifs; by split_and!.
Qed.

(** The burst puts row [k] out on its own slot and nothing on the others. *)
Lemma burst_slot_rows m :
  m_grant_stride m = 12 → 0 ≤ m_grant_burst_len m →
  reac_master_grant_anchor m ≤ m_grant_ticks m →
  let o := burst_slot_out m in
  m_state o.1.1 = m_state m ∧ m_grant_ticks o.1.1 = m_grant_ticks m ∧ m_alloc o.1.1 = m_alloc m ∧
  m_grant_burst_len o.1.1 = m_grant_burst_len m ∧
  reac_master_grant_anchor o.1.1 = reac_master_grant_anchor m ∧
  zseq 0 (grants_sent m) ++ granted_row o.1.2 o.2 =
    zseq 0 (rows_sent (m_grant_ticks m + 1) (reac_master_grant_anchor m) (m_grant_burst_len m)).
Proof.
  intros Hst Hlen Ha. cbv zeta. unfold burst_slot_out, granting_chanmap_due, take_chanmap, grants_sent.
  rewrite Hst. unfold rows_sent.
  set (t := m_grant_ticks m) in *. set (a := reac_master_grant_anchor m) in *.
  set (len := m_grant_burst_len m) in *.
  destruct ((Z.rem (t - 1 - a) 12 =? 0) && (Z.quot (t - 1 - a) 12 <? len)) eqn:E.
  - split_and!; try done. simpl. unfold zseq.
    replace (Z.max 0 (Z.min len ((t + 10 - a) / 12))) with (Z.quot (t - 1 - a) 12) by lia.
    replace (Z.max 0 (Z.min len ((t + 1 + 10 - a) / 12))) with (Z.quot (t - 1 - a) 12 + 1) by lia.
    rewrite (seqZ_app 0 (Z.quot (t - 1 - a) 12) 1) by lia. by rewrite Z.add_0_l.
  - replace (Z.max 0 (Z.min len ((t + 1 + 10 - a) / 12)))
      with (Z.max 0 (Z.min len ((t + 10 - a) / 12))) by lia.
    clear E. destruct (_ <? _); split_and!; try done; apply app_nil_r.
Qed.

#[local] Arguments burst_slot_out : simpl never.
#[local] Arguments dwell_slot : simpl never.
#[local] Arguments granting_slot : simpl never.
#[local] Arguments grant_delivered : simpl never.

Section Window.
Context (tn : reac_master_tunables) (src0 : list Z) (pace0 : Z).
Abbreviation minv := (minv src0 pace0).

(** One slot of a window with a declared box. *)
Lemma granting_slot_rows m :
  minv m → m_state m = REAC_M_GRANTING → reac_master_has_box m = true →
  let o := granting_slot tn m in
  m_state o.1.1 = m_state m ∧ m_grant_ticks o.1.1 = m_grant_ticks m ∧ m_alloc o.1.1 = m_alloc m ∧
  m_grant_burst_len o.1.1 = m_grant_burst_len m ∧
  zseq 0 (grants_sent m) ++ granted_row o.1.2 o.2 =
    zseq 0 (rows_sent (m_grant_ticks m + 1) (reac_master_grant_anchor o.1.1) (m_grant_burst_len m)).
Proof.
  intros H Hs Hb. cbv zeta.
  destruct (iv_geom _ _ _ H) as (_ & _ & _ & _ & _ & _ & _ & _ & Hst & _ & Hdw).
  destruct (iv_ticks _ _ _ H) as (Ht & He & Hle). specialize (Hle Hs).
  assert (Hlen : 0 ≤ m_grant_burst_len m).
  { unfold reac_master_has_box in Hb. destruct (iv_box _ _ _ H) as [[? _]|(_ & -> & _)]; lia. }
  (* in the dwell nothing has been sent and nothing is *)
  assert (Hquiet : m_grant_ticks m ≤ m_grant_dwell m → m_dwell_ended_tick m = 0 →
    ∀ m' a, reac_master_grant_anchor m' = a → a = m_grant_dwell m →
    zseq 0 (grants_sent m) ++ [] = zseq 0 (rows_sent (m_grant_ticks m + 1) a (m_grant_burst_len m))).
  { intros Hd H0 m' a _ ->. rewrite app_nil_r. unfold grants_sent, rows_sent, reac_master_grant_anchor.
    rewrite H0. simpl. f_equal. lia. }
  unfold granting_slot. destruct (m_grant_ticks m =? 0) eqn:E0.
  { split_and!; try done. cbn [fst snd].
    assert (granted_row (enroll_emit tn) 0 = []) as -> by (unfold enroll_emit; by destruct (tn_no_enroll tn)).
    apply (Hquiet ltac:(lia) ltac:(lia) m); [done|]. unfold reac_master_grant_anchor.
    by replace (0 <? m_dwell_ended_tick m) with false by lia. }
  destruct (m_grant_ticks m <=? m_grant_dwell m) eqn:Ed; cycle 1.
  { destruct (burst_slot_rows m Hst Hlen) as (? & ? & ? & ? & -> & ?); [|by split_and!].
    unfold reac_master_grant_anchor. destruct (0 <? _); lia. }
  unfold dwell_ends_now. destruct (0 <? m_dwell_ended_tick m) eqn:Ee; simpl.
  { destruct (burst_slot_rows m Hst Hlen) as (? & ? & ? & ? & -> & ?); [|by split_and!].
    unfold reac_master_grant_anchor. rewrite Ee. lia. }
  assert (Ha : reac_master_grant_anchor m = m_grant_dwell m) by (unfold reac_master_grant_anchor; by rewrite Ee).
  destruct (negb _); simpl.
  - destruct (m_enroll_pending m).
    + split_and!; try done. cbn [fst snd].
      assert (granted_row (enroll_emit tn) 0 = []) as -> by (unfold enroll_emit; by destruct (tn_no_enroll tn)).
      by apply (Hquiet ltac:(lia) ltac:(lia) m).
    + destruct (dwell_slot_frame m) as (? & ? & ? & ? & Hde & Hgd & ->). split_and!; try done.
      apply (Hquiet ltac:(lia) ltac:(lia) (dwell_slot m).1.1); [done|].
      unfold reac_master_grant_anchor. rewrite Hde, Hgd. by rewrite Ee.
  - set (m1 := set_m_dwell_ended_tick (m_grant_ticks m) m).
    assert (Ha1 : reac_master_grant_anchor m1 = m_grant_ticks m).
    { unfold reac_master_grant_anchor. simpl. by replace (0 <? m_grant_ticks m) with true by lia. }
    destruct (burst_slot_rows m1 Hst Hlen) as (? & ? & ? & ? & -> & Hr); [rewrite Ha1; simpl; lia|].
    split_and!; try done. simpl in Hr. rewrite <- Hr. f_equal.
    unfold grants_sent. rewrite Ha, Ha1. simpl. unfold rows_sent. f_equal. lia.
Qed.
End Window.

(** ** The ghost *)

(** The rows a step puts on the wire. *)
Definition step_rows (tn : reac_master_tunables) (tx : reac_headamp_tx) (m : reac_master)
    (o : master_op) : list Z :=
  match o with
  | MNext => let '(_, (_, e, idx)) := reac_master_next tn tx m in granted_row e idx
  | _ => []
  end.

(** A window at its first slot has sent nothing. *)
Definition window_rows (m : reac_master) (g : list Z) : list Z :=
  if m_grant_ticks m =? 0 then [] else g.

(** Reachable masters with the rows their current grant window has sent. *)
Inductive window_reach (tn : reac_master_tunables) (src : list Z) (cfg : option reac_console_cfg)
    (fps : Z) : reac_master → list Z → Prop :=
| win_init : window_reach tn src cfg fps (reac_master_init tn src cfg fps) []
| win_step m g tx o : window_reach tn src cfg fps m g → tx_ok tx →
    window_reach tn src cfg fps (master_step tn tx m o)
      (window_rows (master_step tn tx m o) (g ++ step_rows tn tx m o)).

Lemma window_reach_reach tn src cfg fps m g :
  window_reach tn src cfg fps m g → master_reach tn src cfg fps m.
Proof. induction 1; econstructor; eauto. Qed.

(** What the ghost says in each state. *)
Definition window_ok (m : reac_master) (g : list Z) : Prop :=
  match m_state m with
  | REAC_M_GRANTING => g = if reac_master_has_box m then zseq 0 (grants_sent m) else []
  | REAC_M_ESTABLISHED =>
      reac_master_has_box m = true ∧ m_grant_ticks m ≠ 0 ∧ g = zseq 0 (m_grant_burst_len m)
  | _ => True
  end.

(** Two states of one window, and the first slot of a new one. *)
Definition same_window (m m' : reac_master) : Prop :=
  m_state m' = m_state m ∧ m_grant_ticks m' = m_grant_ticks m ∧ m_alloc m' = m_alloc m ∧
  m_grant_burst_len m' = m_grant_burst_len m ∧
  m_dwell_ended_tick m' = m_dwell_ended_tick m ∧ m_grant_dwell m' = m_grant_dwell m.
Definition fresh_window (m : reac_master) : Prop :=
  m_state m = REAC_M_GRANTING ∧ m_grant_ticks m = 0 ∧ m_dwell_ended_tick m = 0.

Lemma rows_sent_0 a len : 1 ≤ a → rows_sent 0 a len = 0.
Proof. unfold rows_sent. lia. Qed.

Lemma window_ok_fresh src0 pace0 m g :
  minv src0 pace0 m → fresh_window m → window_ok m (window_rows m g).
Proof.
  intros H (Hs & Ht & He). unfold window_ok, window_rows. rewrite Hs, Ht. simpl.
  unfold grants_sent, reac_master_grant_anchor. rewrite Ht, He. simpl.
  destruct (iv_geom _ _ _ H) as (_ & _ & _ & _ & _ & _ & _ & _ & _ & _ & Hd).
  rewrite rows_sent_0 by lia. by destruct (reac_master_has_box m).
Qed.

Lemma window_ok_unlinked m g :
  m_state m = REAC_M_PROBING ∨ m_state m = REAC_M_IDLE → window_ok m g.
Proof. unfold window_ok. intros [-> | ->]; done. Qed.

Lemma window_ok_same m m' g : same_window m m' → window_ok m g → window_ok m' g.
Proof.
  intros (Es & Et & Ea & El & Ee & Ed) Hw. unfold window_ok in *.
  unfold grants_sent, reac_master_grant_anchor, reac_master_has_box in *.
  by rewrite Es, Et, Ea, El, Ee, Ed.
Qed.

Lemma window_ok_rows src0 pace0 m g :
  minv src0 pace0 m → window_ok m g → window_ok m (window_rows m g).
Proof.
  intros H Hw. unfold window_rows. destruct (m_grant_ticks m =? 0) eqn:E0; [|done].
  unfold window_ok in *. destruct (m_state m) eqn:Hs; try done.
  - pose proof (window_ok_fresh src0 pace0 m g H) as Hf. unfold window_ok, window_rows in Hf.
    rewrite Hs, E0 in Hf. apply Hf. destruct (iv_ticks _ _ _ H) as (_ & ? & Hle). specialize (Hle Hs).
    split_and!; (done || lia).
  - destruct Hw as (? & ? & ?). lia.
Qed.

Lemma rebuild_frame tx m base w :
  let m' := (rebuild_grant_sweep tx m base w).1 in
  m_state m' = m_state m ∧ m_grant_ticks m' = m_grant_ticks m ∧
  m_dwell_ended_tick m' = m_dwell_ended_tick m ∧ m_grant_dwell m' = m_grant_dwell m.
Proof.
  cbv zeta. unfold rebuild_grant_sweep. destruct (reac_grant_allocate _ _); [|done].
  destruct (reac_grant_build_sweep _ _ _); [|done]. by destruct (_ <=? _).
Qed.

Lemma granting_fresh tx m src blk : fresh_window (enter_granting tx m src blk).
Proof.
  unfold enter_granting, fresh_window.
  match goal with |- context [rebuild_grant_sweep tx ?m1 ?b ?w] =>
    pose proof (rebuild_frame tx m1 b w) as (H1 & H2 & H3 & _);
    set (m2 := (rebuild_grant_sweep tx m1 b w).1) in * end.
  clearbody m2. destruct (reac_master_has_box m2); simpl; rewrite H1, H2, H3; by destruct blk.
Qed.

(** What executing an edge does to the window. *)
Lemma edge_outcome tx m e src blk :
  let m' := apply_edge tx m e src blk in
  if e_enter e then
    match e_next e with
    | REAC_M_IDLE => same_window m m'
    | REAC_M_PROBING => m_state m' = REAC_M_PROBING
    | REAC_M_GRANTING => fresh_window m'
    | REAC_M_ESTABLISHED =>
        m_state m' = REAC_M_ESTABLISHED ∧ m_grant_ticks m' = m_grant_ticks m ∧
        m_alloc m' = m_alloc m ∧ m_grant_burst_len m' = m_grant_burst_len m
    end
  else same_window m m'.
Proof.
  cbv zeta. unfold apply_edge. set (m1 := if bool_decide _ then m else _).
  assert (H1 : same_window m m1) by (subst m1; by destruct (bool_decide _)). clearbody m1.
  destruct (e_enter e); [|done]. cbn [negb]. destruct (e_next e); [done| |apply granting_fresh|].
  - unfold enter_probing. by destruct (negb _).
  - destruct H1 as (_ & ? & ? & ? & _). done.
Qed.

(** A delivered grant has sent every row. *)
Lemma rows_sent_all t a len : 0 ≤ len → a + len * 12 + 1 ≤ t → rows_sent t a len = len.
Proof. unfold rows_sent. lia. Qed.

Lemma delivered_facts src0 pace0 m :
  minv src0 pace0 m → grant_delivered m = true →
  reac_master_has_box m = true ∧ m_grant_ticks m ≠ 0 ∧ grants_sent m = m_grant_burst_len m.
Proof.
  intros H Hd. unfold grant_delivered in Hd. apply andb_true_iff in Hd as [Hb Hd].
  destruct (iv_geom _ _ _ H) as (_ & _ & _ & _ & _ & _ & _ & _ & Hst & _ & Hdw).
  destruct (iv_ticks _ _ _ H) as (Ht & He & _). rewrite Hst in Hd.
  assert (Hlen : 0 < m_grant_burst_len m).
  { unfold reac_master_has_box in Hb. destruct (iv_box _ _ _ H) as [[? _]|(_ & -> & _)]; lia. }
  assert (0 < reac_master_grant_anchor m) by (unfold reac_master_grant_anchor; destruct (0 <? _) eqn:E; lia).
  split_and!; [done|lia|]. unfold grants_sent. apply rows_sent_all; lia.
Qed.

Section Steps.
Context (tn : reac_master_tunables) (src0 : list Z) (pace0 : Z).
Abbreviation minv := (minv src0 pace0).

(** An edge of the table, taken from a state whose window is in order. *)
Lemma window_edge tx m dev src blk g :
  minv m → tx_ok tx → minv (apply_edge tx m (reac_master_fsm_step (m_state m) dev) src blk) →
  (m_state m = REAC_M_GRANTING → links dev = true → grant_delivered m = true) →
  window_ok m g →
  let m' := apply_edge tx m (reac_master_fsm_step (m_state m) dev) src blk in
  window_ok m' (window_rows m' g).
Proof.
  intros H Htx H' Hl Hw. cbv zeta.
  pose proof (edge_outcome tx m (reac_master_fsm_step (m_state m) dev) src blk) as Ho. cbv zeta in Ho.
  set (m' := apply_edge _ _ _ _ _) in *. clearbody m'.
  assert (Hsame : same_window m m' → window_ok m' (window_rows m' g))
    by (intros E; eapply window_ok_rows; [done|by eapply window_ok_same]).
  destruct (e_enter (reac_master_fsm_step (m_state m) dev)) eqn:En; [|by apply Hsame].
  destruct (e_next (reac_master_fsm_step (m_state m) dev)) eqn:Ex; [by apply Hsame| | |].
  - apply window_ok_unlinked. by left.
  - by eapply window_ok_fresh.
  - assert (Hs : m_state m = REAC_M_GRANTING ∧ links dev = true).
    { destruct (m_state m), dev; simpl in *; try discriminate; done. }
    destruct Hs as [Hs Hdev]. specialize (Hl Hs Hdev).
    destruct (delivered_facts _ _ _ H Hl) as (Hb & Ht & Hsent).
    unfold window_ok in Hw. rewrite Hs, Hb, Hsent in Hw.
    destruct Ho as (Hs' & Ht' & Ha' & Hl'). unfold window_ok, window_rows, reac_master_has_box in *.
    rewrite Hs', Ht', Ha', Hl'. replace (m_grant_ticks m =? 0) with false by lia. done.
Qed.

Lemma window_promote tx m g : window_ok m g → window_ok (promote_idle tx m) g.
Proof.
  intros Hw. unfold promote_idle, state_eqb. case_bool_decide as E; [|done].
  apply window_ok_unlinked. left. rewrite E. unfold apply_edge, enter_probing. simpl. by destruct (negb _).
Qed.

Lemma classify_links ev hb sb gd dev :
  dev = reac_master_fsm_classify ev hb sb gd → links dev = true → gd = true.
Proof. intros -> H. by destruct ev, hb, sb, gd. Qed.

Lemma window_rx tx m ev src blk g :
  tx_ok tx → minv m → window_ok m g →
  let m' := (reac_master_rx tx m ev src blk).1 in window_ok m' (window_rows m' g).
Proof.
  intros Htx H Hw. cbv zeta. pose proof (minv_rx src0 pace0 tx m ev src blk Htx H) as Hfin. revert Hfin.
  unfold reac_master_rx. destruct (negb _); [intros _; by eapply window_ok_rows|].
  set (m0 := set_m_presence_tick _ _). assert (H0 : minv m0) by (destruct H; by iv_frame).
  assert (Hw0 : window_ok m0 g) by done.
  pose proof (minv_promote _ _ tx m0 Htx H0) as H1. pose proof (window_promote tx m0 g Hw0) as Hw1.
  set (m1 := promote_idle tx m0) in *.
  set (m2 := match ev with REAC_M_RX_BOX_CONFIG => _ | _ => _ end).
  assert (H2 : minv m2 ∧ window_ok m2 g)
    by (subst m2; destruct ev; (split; [|done]); try done; destruct H1; by iv_frame).
  set (m3 := if state_eqb (m_state m2) _ then _ else _).
  assert (H3 : minv m3 ∧ window_ok m3 g).
  { destruct H2 as [H2 Hw2]. subst m3. destruct (state_eqb _ _); [|done]. split; [|done]. destruct H2; by iv_frame. }
  clearbody m3. destruct H3 as [H3 Hw3]. set (dev := reac_master_fsm_classify _ _ _ _).
  destruct (_ && negb (scene_transfer_ready m3)); simpl; intros Hfin.
  - eapply window_ok_rows; [done|]. eapply window_ok_same; [|done].
    unfold hold_join. by destruct (if ev_is_join dev then blk else None).
  - apply (window_edge tx m3 dev); [done|done|done| |done].
    intros _ Hlk. by eapply classify_links.
Qed.

(** What an accepted declaration leaves of the window. *)
Lemma set_box_outcome tx m in_ch out_ch base :
  tx_ok tx →
  let m' := reac_master_set_box tx m in_ch out_ch base in
  if reac_grant_alloc_fits base in_ch then
    m_alloc m' = GrantAlloc base in_ch ∧ m_grant_burst_len m' = 8 + 3 * in_ch ∧ m_state m' = m_state m ∧
    (reac_master_has_box m = true → m_grant_ticks m' = m_grant_ticks m ∧
       m_dwell_ended_tick m' = m_dwell_ended_tick m ∧ m_grant_dwell m' = m_grant_dwell m)
  else m' = m.
Proof.
  intros Htx. cbv zeta. pose proof (rebuild_spec tx m base in_ch Htx) as Hr. unfold reac_master_set_box.
  destruct (reac_grant_alloc_fits base in_ch); [|by rewrite Hr].
  destruct Hr as (rows & _ & _ & ->). cbn [negb Z.eqb].
  destruct (reac_master_has_box m); simpl; [done|]. by destruct (state_eqb _ _).
Qed.

Lemma window_declare tx m in_ch out_ch base g :
  tx_ok tx → minv m → window_ok m g →
  let m' := declare_box tx m in_ch out_ch base in window_ok m' (window_rows m' g).
Proof.
  intros Htx H Hw. cbv zeta. pose proof (minv_declare src0 pace0 tx m in_ch out_ch base Htx H) as Hfin.
  revert Hfin. unfold declare_box. pose proof (set_box_outcome tx m in_ch out_ch base Htx) as Ho. cbv zeta in Ho.
  set (m1 := reac_master_set_box tx m in_ch out_ch base) in *.
  destruct (_ && _) eqn:E; intros Hfin.
  { eapply window_ok_fresh; [done|]. apply granting_fresh. }
  eapply window_ok_rows; [done|].
  destruct (reac_grant_alloc_fits base in_ch) eqn:Hf; [|by rewrite Ho].
  destruct Ho as (Ha & Hl & Hs & Hk). rewrite Hs, Ha in E. cbn [ga_width] in E. rewrite Z.eqb_refl in E.
  pose proof (proj1 (alloc_fits_iff _ _) Hf) as (Hw1 & _).
  unfold window_ok in *. rewrite Hs. destruct (m_state m) eqn:Es; try done.
  all: assert (Hin : in_ch = ga_width (m_alloc m)) by (destruct (in_ch =? ga_width (m_alloc m)) eqn:Ei;
         [lia|]; simpl in E; discriminate E).
  all: assert (Hb : reac_master_has_box m = true) by (unfold reac_master_has_box; lia).
  all: destruct (Hk Hb) as (Ht & He & Hd).
  all: destruct (iv_box _ _ _ H) as [[? _]|(_ & Hlen & _)]; [lia|].
  all: assert (Hb1 : reac_master_has_box m1 = true) by (unfold reac_master_has_box; rewrite Ha; simpl; lia).
  - rewrite Hb1. rewrite Hb in Hw. rewrite Hw. unfold grants_sent, reac_master_grant_anchor.
    rewrite Ht, He, Hd, Hl, Hlen, Hin. done.
  - destruct Hw as (_ & Hnz & ->). rewrite Ht. split_and!; [done|done|]. by rewrite Hl, Hlen, Hin.
Qed.

Lemma window_set_src tx set m g :
  tx_ok tx → minv m → window_ok m g →
  let m' := reac_master_set_headamp_src tx set m in window_ok m' (window_rows m' g).
Proof.
  intros Htx H Hw. cbv zeta. eapply window_ok_rows; [by apply minv_set_src|].
  unfold reac_master_set_headamp_src.
  destruct (rebuild_box tx (set_m_headamp_src set m) (out_channels (m_cfg m))) as (rows & -> & _);
    [done|by destruct H|]. by eapply window_ok_same.
Qed.

(** ** The slots *)

Lemma start_window tx m g : window_ok m g → window_ok (slot_start tx m) g.
Proof.
  intros Hw. unfold slot_start. set (m1 := promote_idle tx _).
  assert (Hw1 : window_ok m1 g) by (by apply window_promote).
  destruct (m_box_seen m1); [|done]. by destruct (_ <=? 0).
Qed.

(** The scene bookkeeping after a slot touches the window only when it releases
    a held join, which happens in PROBING alone. *)
Lemma window_account tx m e g :
  tx_ok tx → minv m → window_ok m g →
  let m' := transfer_account tx (if emit_is_scene e then scene_prepare m else m) e in
  window_ok m' (window_rows m' g).
Proof.
  intros Htx H Hw. cbv zeta. set (m1 := if emit_is_scene e then scene_prepare m else m).
  assert (H1 : minv m1) by (subst m1; destruct (emit_is_scene e); [by apply minv_prepare|done]).
  assert (Hw1 : window_ok m1 g).
  { eapply window_ok_same; [|done]. subst m1. destruct (emit_is_scene e); [|done].
    unfold scene_prepare. by destruct (reac_ctrl_build_scene_step _ _ _). }
  clearbody m1. pose proof (minv_account src0 pace0 tx m1 e Htx H1) as Hfin. revert Hfin.
  unfold transfer_account. destruct e; intros Hfin; try (by eapply window_ok_rows).
  destruct (m_scene_inflight m1); [|by eapply window_ok_rows].
  cbn [m_join_held] in *. simpl in *. destruct (m_join_held m1) eqn:Eh; [|by eapply window_ok_rows].
  destruct (iv_held _ _ _ H1 Eh) as (Hs & _).
  unfold release_held_join in *. simpl in *.
  set (dev := reac_master_fsm_classify _ _ _ _) in *.
  match goal with |- context [apply_edge tx ?m2 _ _ _] => set (m3 := m2) in * end.
  pose proof (edge_outcome tx m3 (reac_master_fsm_step (m_state m3) dev) (m_join_src m1)
    (if ev_is_join dev then if m_join_has_blk m1 then Some (m_join_hold_blk m1) else None else None)) as Ho.
  change (m_state m3) with (m_state m1) in Ho. cbv zeta in Ho.
  set (m4 := apply_edge _ _ _ _ _) in *. clearbody m4. rewrite Hs in Ho.
  assert (Hst : m_state m3 = REAC_M_PROBING) by done.
  destruct dev; simpl in Ho; first [by eapply window_ok_fresh
    | destruct Ho as (Hq & _); apply window_ok_unlinked; left; congruence].
Qed.

Lemma cadence_rows m : let o := control_cadence tn m in granted_row o.1.2 o.2 = [].
Proof.
  cbv zeta. pose proof (cadence_no_grant tn m). by destruct (control_cadence tn m) as [[? []] ?].
Qed.

Lemma window_decide tx m g :
  tx_ok tx → minv m → window_ok m g →
  let o := slot_decide tn tx m in window_ok o.1.1 (g ++ granted_row o.1.2 o.2).
Proof.
  intros Htx H Hw. cbv zeta. unfold slot_decide. destruct (m_state m) eqn:Es.
  1, 2: apply window_ok_unlinked; destruct (cadence_frame tn m) as (-> & _); rewrite Es; auto.
  - unfold window_ok in Hw. rewrite Es in Hw. destruct (reac_master_has_box m) eqn:Eb; simpl.
    + unfold granting_known. destruct (granting_slot_rows tn src0 pace0 m H Es Eb) as (R1 & R2 & R3 & R4 & R5).
      pose proof (slot_ok_granting src0 pace0 tn m H Es) as (Hm1 & _ & _).
      destruct (granting_slot tn m) as [[m1 e] idx]. cbn [fst snd] in *. rewrite R2.
      set (m2 := set_m_grant_ticks (m_grant_ticks m + 1) m1).
      assert (Hm2 : minv m2) by (apply minv_grant_ticks; [done|rewrite R2; lia]).
      assert (Hb2 : reac_master_has_box m2 = true) by (unfold reac_master_has_box; subst m2; simpl; by rewrite R3).
      assert (Hg2 : g ++ granted_row e idx = zseq 0 (grants_sent m2)).
      { rewrite Hw, R5. unfold grants_sent. subst m2. simpl. by rewrite R4. }
      rewrite Hg2. assert (Hs2 : m_state m2 = REAC_M_GRANTING) by (subst m2; simpl; congruence).
      destruct (grant_delivered m2) eqn:Ed; [|unfold window_ok; by rewrite Hs2, Hb2].
      destruct (delivered_facts _ _ _ Hm2 Ed) as (_ & Hnz & ->). rewrite Hs2.
      unfold window_ok. simpl. by split_and!.
    + unfold granting_unknown. subst g. simpl.
      assert (Hd : let o := (if m_grant_ticks m =? 0 then (m, REAC_M_EMIT_ENROLL, 0) else dwell_slot m) in
        m_state o.1.1 = m_state m ∧ m_alloc o.1.1 = m_alloc m ∧ granted_row o.1.2 o.2 = []).
      { destruct (m_grant_ticks m =? 0); [done|]. by destruct (dwell_slot_frame m) as (? & ? & ? & ? & ? & ? & ?). }
      destruct (if m_grant_ticks m =? 0 then _ else _) as [[m1 e] idx]. cbn [fst snd] in *.
      destruct Hd as (D1 & D2 & ->). rewrite D1, Es. destruct (_ <? _).
      * apply window_ok_unlinked. left. unfold apply_edge, enter_probing. simpl. by destruct (negb _).
      * unfold window_ok, reac_master_has_box in *. simpl. by rewrite D1, Es, D2, Eb.
  - unfold established_slot. unfold window_ok in Hw. rewrite Es in Hw.
    pose proof (cadence_rows m) as Hrows. destruct (cadence_frame tn m) as (C1 & _ & _ & _ & _ & C2 & C3 & C4 & _).
    destruct (control_cadence tn m) as [[m1 e] idx]. cbn [fst snd] in *. rewrite Hrows, app_nil_r.
    destruct (_ <=? _).
    + apply window_ok_unlinked. left. simpl. rewrite C1, Es. unfold apply_edge, enter_probing. simpl. by destruct (negb _).
    + unfold window_ok, reac_master_has_box in *. simpl. by rewrite C1, Es, C2, C3, C4.
Qed.

Lemma window_next tx m g :
  tx_ok tx → minv m → window_ok m g →
  let '(m', (_, e, idx)) := reac_master_next tn tx m in
  window_ok m' (window_rows m' (g ++ granted_row e idx)).
Proof.
  intros Htx H Hw. unfold reac_master_next. fold (slot_start tx m).
  destruct (minv_start src0 pace0 tx m Htx H) as [H1 _]. pose proof (start_window tx m g Hw) as Hw1.
  pose proof (decide_ok src0 pace0 tn tx _ Htx H1) as [H2 _].
  pose proof (window_decide tx _ g Htx H1 Hw1) as Hw2.
  destruct (slot_decide tn tx (slot_start tx m)) as [[m2 e] idx]. cbn [fst snd] in *.
  by apply window_account.
Qed.
End Steps.

Lemma window_reach_ok tn src cfg fps m g :
  500 ≤ fps → zlen src = 6 → window_reach tn src cfg fps m g → window_ok m g.
Proof.
  intros Hf Hs. induction 1 as [|m g tx o Hr IH Htx].
  { unfold window_ok, reac_master_init, scene_prepare. by destruct (reac_ctrl_build_scene_step _ _ _). }
  pose proof (master_reach_inv _ _ _ _ _ Hf Hs (window_reach_reach _ _ _ _ _ _ Hr)) as Hi.
  destruct o as [|ev s blk|in_ch out_ch base|set|b]; simpl; rewrite ?app_nil_r.
  - pose proof (window_next tn _ _ tx m g Htx Hi IH) as Hn.
    by destruct (reac_master_next tn tx m) as [m' [[cnt e] idx]].
  - by eapply window_rx.
  - by eapply window_declare.
  - by eapply window_set_src.
  - apply (window_ok_rows src (console_field (default REAC_CONSOLE_CFG_IDLE cfg))
      (reac_master_identity_answered b m)); [destruct Hi; iv_frame|].
    by apply (window_ok_same m).
Qed.

(** C1. No link without its whole enrolment. Whatever the order of slots,
    frames, declarations and head-amp edits, a master is ESTABLISHED only with
    a declared box whose allocation is admissible, and only after the current
    grant window has put every row of that box's sweep on the wire, in order
    and once each: all 8 + 3w of them. *)
Theorem established_after_full_sweep (tn : reac_master_tunables) (src : list Z)
    (cfg : option reac_console_cfg) (fps : Z) (m : reac_master) (rows : list Z) :
  500 ≤ fps → zlen src = 6 → window_reach tn src cfg fps m rows →
  m_state m = REAC_M_ESTABLISHED →
  let a := m_alloc m in
  reac_grant_alloc_fits (ga_base a) (ga_width a) = true ∧
  m_grant_burst_len m = REAC_GRANT_SWEEP_LEN (ga_width a) ∧
  Forall row_closed (m_grant_burst m) ∧ zlen (m_grant_burst m) = m_grant_burst_len m ∧
  rows = zseq 0 (REAC_GRANT_SWEEP_LEN (ga_width a)).
Proof.
  intros Hf Hs Hr Hst a.
  pose proof (master_reach_inv _ _ _ _ _ Hf Hs (window_reach_reach _ _ _ _ _ _ Hr)) as Hi.
  pose proof (window_reach_ok _ _ _ _ _ _ Hf Hs Hr) as Hw. unfold window_ok in Hw. rewrite Hst in Hw.
  destruct Hw as (Hb & _ & ->). unfold reac_master_has_box in Hb. fold a in Hb.
  destruct (iv_box _ _ _ Hi) as [[? _]|(Hfit & Hl & Hz & Hc & _)]; [subst a; lia|].
  unfold REAC_GRANT_SWEEP_LEN. subst a. split_and!; try done; try lia. f_equal. lia.
Qed.

Lemma window_quiet tn src cfg fps m txs :
  (∃ g, window_reach tn src cfg fps m g) → Forall tx_ok txs →
  ∃ g, window_reach tn src cfg fps (quiet_slots tn txs m) g.
Proof.
  intros Hr Htx. revert m Hr. induction Htx as [|tx txs Ht _ IH]; intros m [g Hr]; simpl; [by exists g|].
  apply IH. eexists. exact (win_step tn src cfg fps m g tx MNext Hr Ht).
Qed.

Lemma window_reach_rx tn src cfg fps m tx ev mac blk :
  (∃ g, window_reach tn src cfg fps m g) → tx_ok tx →
  ∃ g, window_reach tn src cfg fps (reac_master_rx tx m ev mac blk).1 g.
Proof. intros [g Hr] Ht. eexists. exact (win_step tn src cfg fps m g tx (MRx ev mac blk) Hr Ht). Qed.

Lemma window_reach_declare tn src cfg fps m tx a b c :
  (∃ g, window_reach tn src cfg fps m g) → tx_ok tx →
  ∃ g, window_reach tn src cfg fps (declare_box tx m a b c) g.
Proof. intros [g Hr] Ht. eexists. exact (win_step tn src cfg fps m g tx (MDeclare a b c) Hr Ht). Qed.

Lemma demo_linked_window :
  ∃ g, window_reach REAC_MASTER_TUNABLES_DEFAULT demo_src None 500 demo_linked g.
Proof.
  unfold demo_linked, demo_granting. cbv zeta.
  apply window_quiet; [|apply demo_slots_ok]. apply window_reach_declare; [|apply tx_ok_init].
  apply window_quiet; [|apply demo_slots_ok]. apply window_reach_rx; [|apply tx_ok_init].
  apply window_quiet; [|apply demo_slots_ok]. exists []. apply win_init.
Qed.

Lemma established_after_full_sweep_witness :
  ∃ rows, window_reach REAC_MASTER_TUNABLES_DEFAULT demo_src None 500 demo_linked rows ∧
    rows = zseq 0 (REAC_GRANT_SWEEP_LEN (ga_width (m_alloc demo_linked))).
Proof.
  destruct demo_linked_window as [rows Hr]. exists rows. split; [exact Hr|].
  destruct demo_linked_state as [Hs _].
  exact (proj2 (proj2 (proj2 (proj2 (established_after_full_sweep REAC_MASTER_TUNABLES_DEFAULT demo_src
    None 500 demo_linked rows ltac:(lia) eq_refl Hr Hs))))).
Defined.
