(* ===== verification/MasterScene.v ===== *)
(** * MasterScene: the scene push of a hunting master

    The burst's slot arithmetic and its inverse, the exact transfer one control
    cycle puts on the wire, and the wait of a courted box for it. *)

From S2P Require Import Prelude Wire CtrlBlk CtrlFrames HeadampTx Grant MasterFsm Scene.
From S2P Require Import Master MasterInv MasterLink MasterGrant.
Local Open Scope Z_scope.

(** ** The burst schedule *)

Lemma burst_slot_eq f k : 500 ≤ f → 0 ≤ k → burst_slot f k = (k * f + 250) / 500.
Proof.
  intros Hf Hk. unfold burst_slot, REAC_M_BURST_PER_SEC. change (500 / 2) with 250.
  assert (k ≤ (k * f + 250) / 500) by (apply Z.div_le_lower_bound; nia).
  by replace (_ <? k) with false by lia.
Qed.

Lemma burst_slot_lt f a b : 500 ≤ f → 0 ≤ a < b → burst_slot f a < burst_slot f b.
Proof.
  intros Hf Hab. rewrite !burst_slot_eq by lia.
  assert ((a * f + 250 + 1 * 500) / 500 ≤ (b * f + 250) / 500) by (apply Z.div_le_mono; nia).
  rewrite Z.div_add in H by lia. lia.
Qed.

Lemma burst_slot_inj f a b : 500 ≤ f → 0 ≤ a → 0 ≤ b → burst_slot f a = burst_slot f b → a = b.
Proof.
  intros Hf Ha Hb He. destruct (Z.lt_trichotomy a b) as [Hl|[Hl|Hl]]; [|done|].
  - pose proof (burst_slot_lt f a b Hf ltac:(lia)). lia.
  - pose proof (burst_slot_lt f b a Hf ltac:(lia)). lia.
Qed.

(** The slot of every chunk leads back to it. *)
Lemma burst_index_hit m k :
  geom m → 0 ≤ k < 341 → burst_index_at m (burst_slot (m_fps m) k) = k.
Proof.
  intros Hg Hk. pose proof Hg as (Hf & _ & _ & He & _).
  set (pos := burst_slot (m_fps m) k).
  assert (Hpos : 0 ≤ pos ≤ m_burst_end m).
  { subst pos. rewrite He. split; [rewrite burst_slot_eq by lia; apply Z.div_pos; nia|].
    destruct (decide (k = 340)) as [->|]; [done|].
    pose proof (burst_slot_lt (m_fps m) k 340 Hf ltac:(lia)). lia. }
  assert (Hin : 0 ≤ burst_index_at m pos).
  { unfold burst_index_at, REAC_M_BURST_PER_SEC, REAC_SCENE_CHUNKS.
    replace (_ || _) with false by lia. cbv zeta.
    set (est := (pos * 500 + m_fps m / 2) / m_fps m).
    assert (Hest : k ≤ est ≤ k + 1).
    { assert (Hp : 500 * pos ≤ k * m_fps m + 250 < 500 * pos + 500)
        by (subst pos; rewrite burst_slot_eq by lia; lia).
      subst est. split; [apply Z.div_le_lower_bound; nia|].
      assert ((pos * 500 + m_fps m / 2) / m_fps m < k + 2); [|lia].
      apply Z.div_lt_upper_bound; [lia|]. nia. }
    assert (Hkp : k ≤ pos)
      by (subst pos; rewrite burst_slot_eq by lia; apply Z.div_le_lower_bound; nia).
    set (kk := if pos <? est then pos else est).
    assert (Hkk : kk = k ∨ kk = k + 1) by (subst kk; destruct (pos <? est) eqn:?; lia).
    clearbody kk. destruct Hkk as [-> | ->].
    - destruct (_ && _) eqn:E1; [lia|]. replace (k + 0) with k by lia.
      replace ((0 <=? k) && (k <? 341) && (burst_slot (m_fps m) k =? pos)) with true by lia. lia.
    - replace (k + 1 + -1) with k by lia.
      replace ((0 <=? k) && (k <? 341) && (burst_slot (m_fps m) k =? pos)) with true by lia. lia. }
  destruct (burst_index_sound m pos) as [_ Hs]; [done|done|].
  apply (burst_slot_inj (m_fps m)); [lia|done|lia|done].
Qed.

(** ** Picking the occupied slots of a stretch *)

Lemma omap_none {A B} (f : A → option B) l : (∀ x, x ∈ l → f x = None) → omap f l = [].
Proof.
  induction l as [|x l IH]; intros H; csimpl; [done|]. rewrite (H x) by (by left).
  apply IH. intros; apply H; by right.
Qed.

Lemma omap_single {B} (f : Z → option B) a n p v :
  a ≤ p < a + n → f p = Some v → (∀ q, a ≤ q < a + n → q ≠ p → f q = None) →
  omap f (zseq a n) = [v].
Proof.
  intros Hp Hv Hn. unfold zseq.
  replace n with ((p - a) + (1 + (a + n - p - 1))) by lia.
  rewrite !seqZ_app by lia. rewrite !omap_app.
  rewrite (omap_none f (seqZ a _)) by (intros x Hx%elem_of_seqZ; apply Hn; lia).
  rewrite (omap_none f (seqZ (a + (p - a) + 1) _)) by (intros x Hx%elem_of_seqZ; apply Hn; lia).
  replace (a + (p - a)) with p by lia. rewrite seqZ_cons by lia. csimpl. by rewrite Hv.
Qed.

(** ** One slot of the hunt *)

(** The transfer step a cycle slot carries, if any. *)
Definition scene_step_at (m : reac_master) (pos : Z) : option Z :=
  if 0 <=? burst_index_at m pos then Some (1 + burst_index_at m pos)
  else if pos =? m_sub02_off m then Some 342
  else if pos =? m_chanmap_off m then None
  else if pos =? m_sub01_off m then Some 0
  else None.

Definition step_emit (k : Z) : reac_master_emit :=
  if k =? 0 then REAC_M_EMIT_SCENE_HEAD
  else if k =? 342 then REAC_M_EMIT_SCENE_TAIL else REAC_M_EMIT_SCENE_CHUNK.

(** What stays put while a master hunts. *)
Definition same_hunt (m m' : reac_master) : Prop :=
  m_fps m' = m_fps m ∧ m_cycle_len m' = m_cycle_len m ∧ m_burst_end m' = m_burst_end m ∧
  m_sub02_off m' = m_sub02_off m ∧ m_chanmap_off m' = m_chanmap_off m ∧
  m_sub01_off m' = m_sub01_off m ∧ m_scene m' = m_scene m ∧ m_join_held m' = m_join_held m ∧
  m_join_ev m' = m_join_ev m ∧ m_join_src m' = m_join_src m ∧ m_join_has_blk m' = m_join_has_blk m.

Lemma same_hunt_trans m1 m2 m3 : same_hunt m1 m2 → same_hunt m2 m3 → same_hunt m1 m3.
Proof.
  intros (? & ? & ? & ? & ? & ? & ? & ? & ? & ? & ?) (? & ? & ? & ? & ? & ? & ? & ? & ? & ? & ?).
  unfold same_hunt. split_and!; congruence.
Qed.

Lemma step_at_same m m' pos : same_hunt m m' → scene_step_at m' pos = scene_step_at m pos.
Proof.
  intros (E1 & E2 & E3 & E4 & E5 & E6 & _). unfold scene_step_at, burst_index_at.
  by rewrite E1, E3, E4, E5, E6.
Qed.

Lemma hunt_decides tn m :
  geom m → m_state m = REAC_M_PROBING →
  let o := control_cadence tn m in
  m_state o.1.1 = REAC_M_PROBING ∧ m_cycle_pos o.1.1 = (m_cycle_pos m + 1) mod m_cycle_len m ∧
  same_hunt m o.1.1 ∧ m_scene_inflight o.1.1 = m_scene_inflight m ∧
  m_scene_complete o.1.1 = m_scene_complete m ∧ m_box_mac o.1.1 = m_box_mac m ∧
  match scene_step_at m (m_cycle_pos m) with
  | Some k => o.1.2 = step_emit k ∧ m_scene_step o.1.1 = k ∧ emit_is_scene o.1.2 = true
  | None => emit_is_scene o.1.2 = false
  end.
Proof.
  intros Hg Hs. cbv zeta. unfold control_cadence. set (pos := m_cycle_pos m).
  set (m1 := set_m_announce_tick _ _).
  replace (state_eqb (m_state m1) REAC_M_ESTABLISHED) with false
    by (unfold state_eqb; simpl; by rewrite Hs).
  unfold hunt_cadence, scene_chunk_at, scene_tail_at, scene_head_at, scene_step_at.
  change (burst_index_at m1 pos) with (burst_index_at m pos).
  change (m_sub02_off m1) with (m_sub02_off m). change (m_chanmap_off m1) with (m_chanmap_off m).
  change (m_sub01_off m1) with (m_sub01_off m).
  destruct (0 <=? burst_index_at m pos) eqn:Eb.
  { split_and!; try done. destruct (burst_index_sound m pos) as [Hk _]; [done|lia|].
    unfold step_emit. simpl. replace (1 + _ =? 0) with false by lia.
    by replace (1 + _ =? 342) with false by lia. }
  destruct (pos =? m_sub02_off m); [by split_and!|].
  destruct (pos =? m_chanmap_off m); [by split_and!|].
  destruct (pos =? m_sub01_off m); [by split_and!|].
  unfold or_else. cbn [default from_option]. destruct (m_fps m1 <=? m_announce_tick m1); by split_and!.
Qed.

(** The 34-byte block a slot pushes, if it is a slot of the transfer. *)
Definition slot_push (tn : reac_master_tunables) (tx : reac_headamp_tx) (m : reac_master)
    : option (list Z) :=
  let '(m', (_, e, _)) := reac_master_next tn tx m in
  if emit_is_scene e then Some (m_scene_blk m') else None.

(** Every block a stretch of silent slots pushes, in order. *)
Fixpoint push_blocks (tn : reac_master_tunables) (txs : list reac_headamp_tx) (m : reac_master)
    : list (list Z) :=
  match txs with
  | [] => []
  | tx :: txs =>
      from_option (λ b, [b]) [] (slot_push tn tx m) ++ push_blocks tn txs (reac_master_next tn tx m).1
  end.

Definition step_block (m : reac_master) (k : Z) : option (list Z) :=
  reac_ctrl_build_scene_step (m_scene m) 8904 k.

(** The transfer a box is being sent: what a slot appends to the blocks pushed
    since the last header, a header starting over. *)
Definition slot_log (tn : reac_master_tunables) (tx : reac_headamp_tx) (m : reac_master)
    (g : list (list Z)) : list (list Z) :=
  let '(m', (_, e, _)) := reac_master_next tn tx m in
  match e with
  | REAC_M_EMIT_SCENE_HEAD => [m_scene_blk m']
  | REAC_M_EMIT_SCENE_CHUNK | REAC_M_EMIT_SCENE_TAIL => g ++ [m_scene_blk m']
  | _ => g
  end.

Definition log_step (m : reac_master) (g : list (list Z)) (step : option Z) : list (list Z) :=
  match step with
  | Some k => (if k =? 0 then [] else g) ++ from_option (λ b, [b]) [] (step_block m k)
  | None => g
  end.

Lemma start_hunt tx m :
  m_state m = REAC_M_PROBING →
  let m' := slot_start tx m in
  m_state m' = REAC_M_PROBING ∧ m_cycle_pos m' = m_cycle_pos m ∧ same_hunt m m' ∧
  m_scene_inflight m' = m_scene_inflight m ∧ m_scene_complete m' = m_scene_complete m ∧
  m_box_mac m' = m_box_mac m.
Proof.
  intros Hs. cbv zeta. unfold slot_start, promote_idle. simpl.
  replace (state_eqb (m_state m) REAC_M_IDLE) with false by (unfold state_eqb; by rewrite Hs).
  simpl. destruct (m_box_seen m); [|by split_and!]. destruct (_ <=? 0); by split_and!.
Qed.

Definition step_inflight (step : option Z) (b : bool) : bool :=
  match step with Some k => if k =? 0 then true else if k =? 342 then false else b | None => b end.

Lemma step_at_range m pos k : geom m → scene_step_at m pos = Some k → 0 ≤ k < 343.
Proof.
  intros Hg. unfold scene_step_at. destruct (0 <=? burst_index_at m pos) eqn:E.
  - destruct (burst_index_sound m pos) as [? _]; [done|lia|]. intros [= <-]. lia.
  - split_ifs; intros [= <-]; lia.
Qed.

Lemma rebuild_keeps tx m base w :
  let m' := (rebuild_grant_sweep tx m base w).1 in
  m_state m' = m_state m ∧ m_box_mac m' = m_box_mac m ∧ m_grant_ticks m' = m_grant_ticks m ∧
  m_scene_blk m' = m_scene_blk m.
Proof.
  cbv zeta. unfold rebuild_grant_sweep. destruct (reac_grant_allocate _ _); [|done].
  destruct (reac_grant_build_sweep _ _ _); [|done]. by destruct (_ <=? _).
Qed.

Lemma granting_facts tx m src blk :
  let m' := enter_granting tx m src blk in
  m_state m' = REAC_M_GRANTING ∧ m_box_mac m' = src ∧ m_grant_ticks m' = 0 ∧
  m_scene_blk m' = m_scene_blk m.
Proof.
  cbv zeta. unfold enter_granting.
  match goal with |- context [rebuild_grant_sweep tx ?m1 ?b ?w] =>
    pose proof (rebuild_keeps tx m1 b w) as (H1 & H2 & H3 & H4);
    set (m2 := (rebuild_grant_sweep tx m1 b w).1) in * end.
  clearbody m2. destruct (reac_master_has_box m2); simpl; rewrite H1, H2, H3, H4; by destruct blk.
Qed.

Lemma edge_granting tx m src blk :
  let m' := apply_edge tx m (GO REAC_M_GRANTING REAC_M_DROP_NONE true) src blk in
  m_state m' = REAC_M_GRANTING ∧ m_box_mac m' = src ∧ m_grant_ticks m' = 0 ∧
  m_scene_blk m' = m_scene_blk m.
Proof. exact (granting_facts tx m src blk). Qed.

(** Releasing a held join latches the box that sent it. *)
Lemma release_latches src0 pace0 tx m :
  minv src0 pace0 m → m_join_held m = true →
  let m1 := set_m_scene_complete (u32 (m_scene_complete m + 1)) (set_m_scene_inflight false m) in
  let m' := release_held_join tx m1 in
  m_state m' = REAC_M_GRANTING ∧ m_box_mac m' = m_join_src m ∧ m_grant_ticks m' = 0 ∧
  m_scene_blk m' = m_scene_blk m.
Proof.
  intros H Hj. destruct (iv_held _ _ _ H Hj) as (Hs & _ & Hev). cbv zeta.
  set (m1 := set_m_join_held false (set_m_scene_complete (u32 (m_scene_complete m + 1))
    (set_m_scene_inflight false m))).
  unfold release_held_join. simpl. rewrite Hs. fold m1.
  destruct Hev as [[-> ->]| ->]; simpl.
  - destruct (zeqb _ _); exact (edge_granting tx m1 _ _).
  - destruct (grant_delivered _); exact (edge_granting tx m1 _ _).
Qed.

#[local] Arguments release_held_join : simpl never.

(** One slot of a hunting master, unless it ends a transfer a join waits for. *)
Lemma next_hunt tn src0 pace0 tx m :
  tx_ok tx → minv src0 pace0 m → m_state m = REAC_M_PROBING →
  let step := scene_step_at m (m_cycle_pos m) in
  let m' := (reac_master_next tn tx m).1 in
  slot_push tn tx m = step ≫= step_block m ∧
  (∀ g, slot_log tn tx m g = log_step m g step) ∧
  if bool_decide (step = Some 342) && m_scene_inflight m && m_join_held m then
    m_state m' = REAC_M_GRANTING ∧ m_box_mac m' = m_join_src m ∧ m_grant_ticks m' = 0
  else
    m_state m' = REAC_M_PROBING ∧ m_cycle_pos m' = (m_cycle_pos m + 1) mod m_cycle_len m ∧
    same_hunt m m' ∧ m_scene_inflight m' = step_inflight step (m_scene_inflight m) ∧
    m_scene_complete m' = (if bool_decide (step = Some 342) && m_scene_inflight m
                           then u32 (m_scene_complete m + 1) else m_scene_complete m).
Proof.
  intros Htx H Hs. cbv zeta. unfold slot_push, slot_log, log_step, reac_master_next. fold (slot_start tx m).
  destruct (minv_start src0 pace0 tx m Htx H) as [H0 _].
  destruct (start_hunt tx m Hs) as (S1 & S2 & S3 & S4 & S5 & _).
  set (m0 := slot_start tx m) in *. clearbody m0.
  pose proof (decide_ok src0 pace0 tn tx m0 Htx H0) as [H1 _].
  unfold slot_decide in *. rewrite S1 in *.
  destruct (hunt_decides tn m0 (iv_geom _ _ _ H0) S1) as (D1 & D2 & D3 & D4 & D5 & _ & D7).
  destruct (control_cadence tn m0) as [[m1 e] idx]. cbn [fst snd] in *.
  rewrite (step_at_same m m0 _ S3), S2 in D7. rewrite S2 in D2.
  assert (Hc0 : m_cycle_len m0 = m_cycle_len m) by apply S3. rewrite Hc0 in D2. clear Hc0.
  pose proof (same_hunt_trans _ _ _ S3 D3) as D3'. clear D3 S3.
  rewrite <- S4, <- S5, <- D4, <- D5. clear D4 D5 S4 S5 S1 S2 H0 m0.
  pose proof D3' as (E1 & E2 & E3 & E4 & E5 & E6 & E7 & E8 & E9 & E10 & E11).
  destruct (scene_step_at m (m_cycle_pos m)) as [k|] eqn:Ek.
  - destruct D7 as (-> & Hk & Hsc). rewrite Hsc.
    pose proof (step_at_range m _ _ (iv_geom _ _ _ H) Ek) as Hr.
    destruct (iv_scene _ _ _ H) as (Hlen & _).
    destruct (scene_step_ok (m_scene m) k Hlen Hr) as (blk & Hblk & _).
    assert (Hp : scene_prepare m1 = set_m_filler_desc blk.[33] (set_m_scene_blk blk m1)).
    { unfold scene_prepare. by rewrite E7, Hlen, Hk, Hblk. }
    rewrite Hp. unfold step_emit in *. cbn [mbind option_bind]. unfold step_block. rewrite Hblk.
    assert (bool_decide (Some k = Some 342) = (k =? 342)) as ->.
    { destruct (k =? 342) eqn:E; [apply bool_decide_eq_true_2; f_equal; lia|].
      apply bool_decide_eq_false_2. intros [=]. lia. }
    destruct (k =? 0) eqn:K0; [|destruct (k =? 342) eqn:K2].
    + replace (k =? 342) with false by lia. simpl. rewrite K0. by split_and!.
    + simpl. rewrite K0, K2. destruct (m_scene_inflight m1) eqn:Ei; [|by split_and!].
      cbn [andb]. rewrite <- E8, <- E10. destruct (m_join_held m1) eqn:Ej; [|by split_and!].
      set (mp := set_m_filler_desc blk.[33] (set_m_scene_blk blk m1)).
      assert (Hmp : minv src0 pace0 mp) by (subst mp; rewrite <- Hp; by apply minv_prepare).
      destruct (release_latches src0 pace0 tx mp Hmp Ej) as (R1 & R2 & R3 & R4). split_and!; [exact (f_equal Some R4)|intros g; exact (f_equal (λ b, g ++ [b]) R4)|done..].
    + simpl. rewrite K0, K2. by split_and!.
  - rewrite D7. cbn [mbind option_bind]. destruct e; try discriminate D7; simpl; by split_and!.
Qed.

(** ** A whole cycle *)

Lemma omap_pointwise {A B} (f g : A → option B) (l : list A) :
  (∀ x, f x = g x) → omap f l = omap g l.
Proof. intros H. induction l as [|x l IH]; csimpl; [done|]. by rewrite H, IH. Qed.

Lemma omap_bind {A B C} (f : A → option B) (h : B → option C) (l : list A) :
  omap (λ x, f x ≫= h) l = omap h (omap f l).
Proof.
  induction l as [|x l IH]; csimpl; [done|]. destruct (f x) as [y|]; csimpl; [|done].
  destruct (h y); csimpl; by rewrite IH.
Qed.

Lemma omap_zseq_shift {B} (f : Z → option B) a n d :
  omap f (zseq (a + d) n) = omap (λ i, f (i + d)) (zseq a n).
Proof.
  unfold zseq. revert a. induction (Z.to_nat n) as [|k IH] eqn:E in n |- *; intros a.
  - rewrite !seqZ_nil by lia. done.
  - rewrite !(seqZ_cons _ n) by lia. csimpl. replace (Z.succ (a + d)) with (Z.succ a + d) by lia.
    by rewrite IH by lia.
Qed.

Section Hunt.
Context (tn : reac_master_tunables) (src0 : list Z) (pace0 : Z).
Abbreviation minv := (minv src0 pace0).

Lemma minv_next1 tx m : tx_ok tx → minv m → minv (reac_master_next tn tx m).1.
Proof.
  intros Htx H. pose proof (minv_next src0 pace0 tn tx m Htx H) as Hn.
  destruct (reac_master_next tn tx m) as [? [[? ?] ?]]. apply Hn.
Qed.

(** The cycle slot [n] slots on. *)
Definition slot_at (m : reac_master) (n : Z) : Z := (m_cycle_pos m + n) mod m_cycle_len m.

Lemma hunt_run txs m :
  Forall tx_ok txs → minv m → m_state m = REAC_M_PROBING → m_join_held m = false →
  let m' := quiet_slots tn txs m in
  push_blocks tn txs m =
    omap (λ n, scene_step_at m (slot_at m n) ≫= step_block m) (zseq 0 (zlen txs)) ∧
  minv m' ∧ m_state m' = REAC_M_PROBING ∧ same_hunt m m' ∧ m_cycle_pos m' = slot_at m (zlen txs).
Proof.
  intros Htx. revert m. induction Htx as [|tx txs Ht _ IH]; intros m H Hs Hj; cbv zeta.
  - cbn [push_blocks quiet_slots]. unfold zlen, slot_at, zseq. simpl.
    destruct (iv_pos _ _ _ H). rewrite Z.add_0_r, Z.mod_small by lia. by split_and!.
  - cbn [push_blocks quiet_slots].
    destruct (next_hunt tn src0 pace0 tx m Ht H Hs) as (Hp & _ & Hn). cbv zeta in Hn.
    rewrite Hj, andb_false_r in Hn. destruct Hn as (N1 & N2 & N3 & _ & _).
    pose proof (minv_next1 tx m Ht H) as H1. set (m1 := (reac_master_next tn tx m).1) in *.
    assert (Hj1 : m_join_held m1 = false) by (etransitivity; [apply N3|done]).
    destruct (IH m1 H1 N1 Hj1) as (I1 & I2 & I3 & I4 & I5).
    assert (Hat : ∀ n, slot_at m1 n = slot_at m (n + 1)).
    { intros n. unfold slot_at. rewrite N2. assert (m_cycle_len m1 = m_cycle_len m) as -> by apply N3.
      rewrite Zplus_mod_idemp_l. f_equal. lia. }
    rewrite zlen_cons. pose proof (zlen_nonneg txs). split_and!.
    + rewrite Hp, I1. unfold zseq. rewrite (seqZ_cons 0 (1 + zlen txs)) by lia. csimpl.
      assert (slot_at m 0 = m_cycle_pos m) as ->
        by (destruct (iv_pos _ _ _ H); unfold slot_at; rewrite Z.add_0_r; by apply Z.mod_small).
      change (Z.succ 0) with (0 + 1). replace (Z.pred (1 + zlen txs)) with (zlen txs) by lia.
      fold (zseq 0 (zlen txs)). fold (zseq (0 + 1) (zlen txs)). rewrite omap_zseq_shift.
      assert (Hext : omap (λ n, scene_step_at m1 (slot_at m1 n) ≫= step_block m1) (zseq 0 (zlen txs)) =
                     omap (λ n, scene_step_at m (slot_at m (n + 1)) ≫= step_block m) (zseq 0 (zlen txs))).
      { apply omap_pointwise. intros n. rewrite (step_at_same m m1 _ N3), Hat.
        unfold step_block. by assert (m_scene m1 = m_scene m) as -> by apply N3. }
      rewrite Hext. by destruct (scene_step_at m (m_cycle_pos m) ≫= step_block m).
    + done.
    + done.
    + by eapply same_hunt_trans.
    + rewrite I5, Hat. f_equal. lia.
Qed.
End Hunt.

(** ** The steps of a cycle, from its header slot *)

Section Cycle.
Context (m : reac_master) (Hg : geom m).

(** The marks of a cycle lie in this order. *)
Lemma cycle_marks :
  0 ≤ m_burst_end m < m_sub02_off m ∧ m_sub02_off m < m_chanmap_off m < m_sub01_off m ∧
  m_cycle_len m = m_sub01_off m + 5.
Proof.
  destruct Hg as (Hf & Hc & Hp & He & H2 & Hm & H1 & _). rewrite burst_slot_eq in He by lia. lia.
Qed.

Lemma step_at_late pos :
  m_burst_end m < pos →
  scene_step_at m pos = if pos =? m_sub02_off m then Some 342
                        else if pos =? m_chanmap_off m then None
                        else if pos =? m_sub01_off m then Some 0 else None.
Proof.
  intros Hp. unfold scene_step_at.
  assert (burst_index_at m pos = -1) as ->; [|done].
  unfold burst_index_at. by replace (_ || _) with true by lia.
Qed.

Lemma step_at_burst pos :
  pos ≤ m_burst_end m →
  scene_step_at m pos = (if 0 <=? burst_index_at m pos then Some (1 + burst_index_at m pos) else None).
Proof.
  intros Hp. pose proof cycle_marks. unfold scene_step_at.
  replace (pos =? m_sub02_off m) with false by lia. replace (pos =? m_chanmap_off m) with false by lia.
  by replace (pos =? m_sub01_off m) with false by lia.
Qed.

Lemma step_at_chunk k : 0 ≤ k < 341 → scene_step_at m (burst_slot (m_fps m) k) = Some (1 + k).
Proof.
  intros Hk. pose proof Hg as (Hf & _ & _ & He & _). rewrite step_at_burst, burst_index_hit by
    (done || (rewrite He; destruct (decide (k = 340)) as [->|];
              [lia|pose proof (burst_slot_lt (m_fps m) k 340 Hf ltac:(lia)); lia])).
  by replace (0 <=? k) with true by lia.
Qed.

Lemma step_at_gap pos :
  pos ≤ m_burst_end m → (∀ k, 0 ≤ k < 341 → pos ≠ burst_slot (m_fps m) k) → scene_step_at m pos = None.
Proof.
  intros Hp Hno. rewrite step_at_burst by done. destruct (0 <=? _) eqn:E; [|done].
  destruct (burst_index_sound m pos Hg) as [Hk Hs]; [lia|]. exfalso. apply (Hno (burst_index_at m pos)); [lia|done].
Qed.

(** The burst up to chunk [j]. *)
Lemma burst_steps (j : nat) :
  (j < 341)%nat →
  omap (scene_step_at m) (zseq 0 (burst_slot (m_fps m) (Z.of_nat j) + 1)) = zseq 1 (Z.of_nat j + 1).
Proof.
  pose proof Hg as (Hf & _ & _ & He & _). induction j as [|j IH]; intros Hj.
  - change (Z.of_nat 0) with 0. assert (H0 : burst_slot (m_fps m) 0 = 0) by (rewrite burst_slot_eq by lia; lia).
    apply (omap_single _ 0 _ (burst_slot (m_fps m) 0)).
    + lia.
    + by apply step_at_chunk.
    + intros q Hq Hne. lia.
  - set (a := burst_slot (m_fps m) (Z.of_nat j)) in *.
    set (b := burst_slot (m_fps m) (Z.of_nat (S j))).
    assert (Hab : a < b) by (apply burst_slot_lt; lia).
    assert (Ha : 0 ≤ a) by (subst a; rewrite burst_slot_eq by lia; apply Z.div_pos; lia).
    assert (Hb : b ≤ m_burst_end m).
    { subst b. rewrite He. destruct (decide (Z.of_nat (S j) = 340)) as [->|]; [lia|].
      pose proof (burst_slot_lt (m_fps m) (Z.of_nat (S j)) 340 Hf ltac:(lia)). lia. }
    unfold zseq in *. replace (b + 1) with ((a + 1) + (b - a)) by lia.
    rewrite seqZ_app, omap_app, IH by lia.
    replace (Z.of_nat (S j) + 1) with ((Z.of_nat j + 1) + 1) by lia. rewrite (seqZ_app 1 (Z.of_nat j + 1) 1) by lia. f_equal.
    rewrite (omap_single _ (0 + (a + 1)) (b - a) b (1 + Z.of_nat (S j))).
    + rewrite (seqZ_cons _ 1), seqZ_nil by lia. f_equal. lia.
    + lia.
    + apply step_at_chunk. lia.
    + intros q Hq Hne. apply step_at_gap; [lia|]. intros k Hk ->.
      destruct (Z.le_gt_cases k (Z.of_nat j)).
      * destruct (decide (k = Z.of_nat j)) as [->|]; [lia|].
        pose proof (burst_slot_lt (m_fps m) k (Z.of_nat j) Hf ltac:(lia)). lia.
      * destruct (decide (k = Z.of_nat (S j))) as [->|]; [done|].
        pose proof (burst_slot_lt (m_fps m) (Z.of_nat (S j)) k Hf ltac:(lia)). lia.
Qed.

(** From the header slot, one cycle carries every step once, in order. *)
Lemma cycle_steps :
  m_cycle_pos m = m_sub01_off m →
  omap (λ n, scene_step_at m (slot_at m n)) (zseq 0 (m_cycle_len m)) = zseq 0 343.
Proof.
  intros Hpos. destruct cycle_marks as (M1 & M2 & M3). pose proof Hg as (Hf & _ & _ & He & _).
  unfold zseq. rewrite M3. replace (m_sub01_off m + 5) with (5 + m_sub01_off m) by lia.
  rewrite seqZ_app, omap_app by lia. fold (zseq 0 5). fold (zseq (0 + 5) (m_sub01_off m)).
  rewrite (omap_single _ 0 5 0 0); cycle 1.
  - lia.
  - unfold slot_at. rewrite Hpos, Z.add_0_r, Z.mod_small by lia. rewrite step_at_late by lia.
    replace (_ =? m_sub02_off m) with false by lia. replace (_ =? m_chanmap_off m) with false by lia.
    by rewrite Z.eqb_refl.
  - intros q Hq Hne. unfold slot_at. rewrite Hpos, Z.mod_small by lia. rewrite step_at_late by lia.
    replace (_ =? m_sub02_off m) with false by lia. replace (_ =? m_chanmap_off m) with false by lia.
    by replace (_ =? m_sub01_off m) with false by lia.
  - rewrite omap_zseq_shift.
    assert (Hlist : omap (λ i, scene_step_at m (slot_at m (i + 5))) (zseq 0 (m_sub01_off m)) =
                    omap (scene_step_at m) (zseq 0 (m_sub01_off m))).
    { apply list_omap_ext, Forall2_same_length_lookup. split; [done|]. intros i x y Hx Hy.
      rewrite Hx in Hy. injection Hy as <-. apply lookup_seqZ in Hx as [-> Hi]. f_equal. unfold slot_at.
      rewrite Hpos, M3. replace (m_sub01_off m + (0 + Z.of_nat i + 5)) with (Z.of_nat i + 1 * (m_sub01_off m + 5)) by lia.
      rewrite Z.mod_add by lia. rewrite Z.mod_small by lia. lia. }
    rewrite Hlist. unfold zseq. replace (m_sub01_off m) with ((m_burst_end m + 1) + (m_sub01_off m - m_burst_end m - 1)) at 1 by lia.
    rewrite seqZ_app, omap_app by lia. pose proof (burst_steps 340 ltac:(lia)) as Hb. unfold zseq in Hb.
    rewrite He. change (Z.of_nat 340) with 340 in Hb. rewrite Hb. rewrite <- He.
    fold (zseq (0 + (m_burst_end m + 1)) (m_sub01_off m - m_burst_end m - 1)).
    rewrite (omap_single _ _ _ (m_sub02_off m) 342).
    + change (340 + 1) with 341. change 343 with (1 + (341 + 1)). rewrite !seqZ_app by lia. done.
    + lia.
    + rewrite step_at_late by lia. by rewrite Z.eqb_refl.
    + intros q Hq Hne. rewrite step_at_late by lia. replace (q =? m_sub02_off m) with false by lia.
      destruct (q =? m_chanmap_off m); [done|]. by replace (q =? m_sub01_off m) with false by lia.
Qed.
End Cycle.

(** The whole transfer: header, 341 chunks and final. *)
Definition scene_blocks (m : reac_master) : list (list Z) :=
  omap (reac_ctrl_build_scene_step (m_scene m) REAC_SCENE_BYTES) (zseq 0 REAC_SCENE_STEPS).

(** A box that reassembles its payloads holds the scene, byte for byte. *)
Lemma scene_blocks_whole m :
  zlen (m_scene m) = 8904 →
  zlen (scene_blocks m) = REAC_SCENE_STEPS ∧ concat (scene_payload <$> scene_blocks m) = m_scene m.
Proof.
  intros Hlen. change (scene_blocks m) with (omap (step_block m) (zseq 0 343)).
  assert (Hom : ∀ l : list Z, Forall (λ k, 0 ≤ k < 343) l →
    omap (step_block m) l = (λ k, default [] (step_block m k)) <$> l).
  { induction 1 as [|k l Hk _ IH]; csimpl; [done|]. unfold step_block in *.
    destruct (scene_step_ok (m_scene m) k Hlen Hk) as (blk & -> & _). csimpl. by f_equal. }
  rewrite Hom by (apply Forall_forall; intros k Hk%elem_of_seqZ; lia).
  split; [by rewrite zlen_fmap, zlen_zseq|]. rewrite <- list_fmap_compose.
  etransitivity; [|exact (scene_concat (m_scene m) 341 Hlen eq_refl)].
  apply (f_equal (@concat Z)). change (zseq 0 (Z.of_nat 341 + 1 + 1)) with (zseq 0 343).
  apply list_fmap_ext. intros i k Hk. simpl. unfold step_payload, step_block.
  apply lookup_seqZ in Hk as [-> Hi]. change REAC_SCENE_BYTES with 8904.
  by destruct (scene_step_ok (m_scene m) (0 + Z.of_nat i) Hlen ltac:(lia)) as (blk & -> & _).
Qed.

(** A hunting master pushes its whole scene, every cycle. From the header
    slot a courtship opens on, at any frame rate the schedule supports, one
    control cycle puts exactly the 343 steps of the transfer on the wire, once
    each and in order (header, 341 chunks, final), whatever else shares the
    cycle; a box that reassembles their payloads holds the master's scene byte
    for byte, and the next cycle opens on the header slot again. *)
Theorem scene_push_complete (tn : reac_master_tunables) (src : list Z)
    (cfg : option reac_console_cfg) (fps : Z) (m : reac_master) (txs : list reac_headamp_tx) :
  500 ≤ fps → zlen src = 6 → master_reach tn src cfg fps m → Forall tx_ok txs →
  m_state m = REAC_M_PROBING → m_join_held m = false →
  m_cycle_pos m = m_sub01_off m → zlen txs = m_cycle_len m →
  let blocks := push_blocks tn txs m in
  let m' := quiet_slots tn txs m in
  blocks = scene_blocks m ∧
  zlen blocks = REAC_SCENE_STEPS ∧ concat (scene_payload <$> blocks) = m_scene m ∧
  m_state m' = REAC_M_PROBING ∧ m_cycle_pos m' = m_sub01_off m'.
Proof.
  intros Hf Hs Hr Htx Hst Hj Hpos Hn blocks m'.
  pose proof (master_reach_inv _ _ _ _ _ Hf Hs Hr) as H. pose proof (iv_geom _ _ _ H) as Hg.
  destruct (iv_scene _ _ _ H) as (Hlen & _).
  destruct (hunt_run tn _ _ txs m Htx H Hst Hj) as (Hb & _ & Hst' & Hh & Hp').
  rewrite Hn, omap_bind, cycle_steps in Hb by done. fold blocks in Hb. fold m' in Hst', Hh, Hp'.
  change (omap (step_block m) (zseq 0 343)) with (scene_blocks m) in Hb. rewrite Hb.
  destruct (scene_blocks_whole m Hlen) as [Hw1 Hw2]. split_and!; try done.
  - rewrite Hp', Hn. unfold slot_at. destruct (cycle_marks m Hg) as (M1 & M2 & M3).
    destruct Hh as (_ & _ & _ & _ & _ & -> & _).
    replace (m_cycle_pos m + m_cycle_len m) with (m_cycle_pos m + 1 * m_cycle_len m) by lia.
    rewrite Z.mod_add, Z.mod_small by lia. done.
Qed.

(** ** The wait of a courted box *)

Section Held.
Context (tn : reac_master_tunables) (src0 : list Z) (pace0 : Z).
Abbreviation minv := (minv src0 pace0).

(** The blocks a stretch of silent slots leaves in the log. *)
Fixpoint quiet_log (txs : list reac_headamp_tx) (m : reac_master) (g : list (list Z)) : list (list Z) :=
  match txs with
  | [] => g
  | tx :: txs => quiet_log txs (reac_master_next tn tx m).1 (slot_log tn tx m g)
  end.

(** *** What the log holds while a transfer is under way *)

(** The blocks of the [n] slots since the header slot. *)
Definition since_head (m : reac_master) (n : Z) : list (list Z) :=
  omap (λ i, scene_step_at m ((m_sub01_off m + i) mod m_cycle_len m) ≫= step_block m) (zseq 0 n).

Definition push_ok (m : reac_master) (g : list (list Z)) : Prop :=
  m_state m = REAC_M_PROBING → m_scene_inflight m = true →
  m_cycle_pos m = m_sub01_off m ∨
  ∃ n, 0 < n ≤ m_sub02_off m + 5 ∧ m_cycle_pos m = (m_sub01_off m + n) mod m_cycle_len m ∧
    g = since_head m n.

Lemma since_head_snoc m n :
  0 ≤ n → since_head m (n + 1) = since_head m n ++
    from_option (λ b, [b]) [] (scene_step_at m ((m_sub01_off m + n) mod m_cycle_len m) ≫= step_block m).
Proof.
  intros Hn. unfold since_head, zseq. rewrite seqZ_app, omap_app by lia.
  apply (f_equal (app _)). rewrite Z.add_0_l. change (seqZ n 1) with [0 + n]. rewrite Z.add_0_l. csimpl.
  by destruct (_ ≫= _).
Qed.

(** From the header slot to the final it is the whole transfer. *)
Lemma since_head_all m : geom m → since_head m (m_sub02_off m + 6) = scene_blocks m.
Proof.
  intros Hg. destruct (cycle_marks m Hg) as (M1 & M2 & M3).
  set (mh := set_m_cycle_pos (m_sub01_off m) m).
  pose proof (cycle_steps mh Hg eq_refl) as Hc. apply (f_equal (omap (step_block m))) in Hc.
  rewrite <- omap_bind in Hc. change (omap (step_block m) (zseq 0 343)) with (scene_blocks m) in Hc.
  rewrite <- Hc. change (m_cycle_len mh) with (m_cycle_len m).
  replace (m_cycle_len m) with ((m_sub02_off m + 6) + (m_cycle_len m - m_sub02_off m - 6)) by lia.
  unfold zseq. rewrite seqZ_app, omap_app by lia. fold (zseq 0 (m_sub02_off m + 6)).
  rewrite (omap_none _ (seqZ (0 + _) _)), app_nil_r; [done|].
  intros q Hq%elem_of_seqZ. unfold slot_at. simpl.
  assert (scene_step_at mh ((m_sub01_off m + q) mod m_cycle_len m) = None) as ->; [|done].
  assert ((m_sub01_off m + q) mod m_cycle_len m = q - 5) as ->.
  { replace (m_sub01_off m + q) with (q - 5 + 1 * m_cycle_len m) by lia.
    rewrite Z.mod_add by lia. apply Z.mod_small. lia. }
  rewrite (step_at_late mh) by (simpl; lia). simpl. replace (q - 5 =? m_sub02_off m) with false by lia.
  destruct (_ =? m_chanmap_off m); [done|]. by replace (q - 5 =? m_sub01_off m) with false by lia.
Qed.

Lemma step_at_342 m pos : geom m → scene_step_at m pos = Some 342 → pos = m_sub02_off m.
Proof.
  intros Hg. unfold scene_step_at. destruct (0 <=? _) eqn:E.
  - destruct (burst_index_sound m pos) as [? _]; [done|lia|]. intros [=]. lia.
  - destruct (pos =? m_sub02_off m) eqn:E2; [lia|]. by split_ifs.
Qed.

Lemma step_at_0 m pos : geom m → scene_step_at m pos = Some 0 → pos = m_sub01_off m.
Proof.
  intros Hg. unfold scene_step_at. destruct (0 <=? _) eqn:E; [intros [=]; lia|].
  split_ifs; intros [=]; lia.
Qed.

Lemma step_at_head m : geom m → scene_step_at m (m_sub01_off m) = Some 0.
Proof.
  intros Hg. destruct (cycle_marks m Hg) as (M1 & M2 & M3). rewrite step_at_late by (done || lia).
  replace (_ =? m_sub02_off m) with false by lia. replace (_ =? m_chanmap_off m) with false by lia.
  by rewrite Z.eqb_refl.
Qed.

Lemma step_at_final m : geom m → scene_step_at m (m_sub02_off m) = Some 342.
Proof.
  intros Hg. destruct (cycle_marks m Hg) as (M1 & M2 & M3). rewrite step_at_late by (done || lia).
  by rewrite Z.eqb_refl.
Qed.

(** The final of a transfer under way closes the whole of it. *)
Lemma push_ok_final m g :
  geom m → push_ok m g → m_state m = REAC_M_PROBING → m_scene_inflight m = true →
  scene_step_at m (m_cycle_pos m) = Some 342 → log_step m g (Some 342) = scene_blocks m.
Proof.
  intros Hg Hp Hs Hi Hstep. destruct (cycle_marks m Hg) as (M1 & M2 & M3).
  apply (step_at_342 m _ Hg) in Hstep. destruct (Hp Hs Hi) as [?|(n & Hn & Hpos & ->)]; [lia|].
  assert (n = m_sub02_off m + 5) as ->.
  { destruct (decide (n < 5)); [rewrite Z.mod_small in Hpos by lia; lia|].
    replace (m_sub01_off m + n) with (n - 5 + 1 * m_cycle_len m) in Hpos by lia.
    rewrite Z.mod_add, Z.mod_small in Hpos by lia. lia. }
  rewrite <- (since_head_all m Hg). replace (m_sub02_off m + 6) with (m_sub02_off m + 5 + 1) by lia.
  rewrite since_head_snoc, <- Hpos, Hstep, step_at_final by (done || lia). done.
Qed.

Lemma since_head_same m m' n : same_hunt m m' → since_head m' n = since_head m n.
Proof.
  intros Hh. pose proof Hh as (_ & E2 & _ & _ & _ & E6 & E7 & _). unfold since_head. rewrite E2, E6.
  apply omap_pointwise. intros i. rewrite (step_at_same m m' _ Hh). unfold step_block. by rewrite E7.
Qed.

(** The log is kept by every slot of the hunt. *)
Lemma push_ok_hunt tx m g :
  tx_ok tx → minv m → m_state m = REAC_M_PROBING → push_ok m g →
  push_ok (reac_master_next tn tx m).1 (slot_log tn tx m g).
Proof.
  intros Htx H Hs Hp. pose proof (iv_geom _ _ _ H) as Hg. destruct (cycle_marks m Hg) as (M1 & M2 & M3).
  destruct (next_hunt tn src0 pace0 tx m Htx H Hs) as (_ & Hlog & Hn). cbv zeta in Hn. rewrite Hlog.
  set (m' := (reac_master_next tn tx m).1) in *. intros Hs' Hi'.
  destruct (bool_decide _ && _ && _); [destruct Hn as (E & _); congruence|].
  destruct Hn as (_ & Hpos & Hh & Hi & _). rewrite Hi in Hi'. pose proof Hh as (_ & E2 & _ & E4 & _ & E6 & _).
  assert (Hcase : (scene_step_at m (m_cycle_pos m) = Some 0) ∨
    (m_scene_inflight m = true ∧ m_cycle_pos m ≠ m_sub02_off m ∧ m_cycle_pos m ≠ m_sub01_off m ∧
     ∀ g, log_step m g (scene_step_at m (m_cycle_pos m)) =
       g ++ from_option (λ b, [b]) [] (scene_step_at m (m_cycle_pos m) ≫= step_block m))).
  { unfold step_inflight in Hi'. destruct (scene_step_at m (m_cycle_pos m)) as [k|] eqn:Ek.
    - destruct (k =? 0) eqn:E0; [left; f_equal; lia|]. destruct (k =? 342) eqn:E3; [done|]. right.
      split_and!; [done| | |intros; simpl; by rewrite E0].
      + intros E. rewrite E, step_at_final in Ek by done. injection Ek. lia.
      + intros E. rewrite E, step_at_head in Ek by done. injection Ek. lia.
    - right. split_and!; [done|..].
      + intros E. by rewrite E, step_at_final in Ek by done.
      + intros E. by rewrite E, step_at_head in Ek by done.
      + intros. simpl. by rewrite app_nil_r. }
  right. rewrite E2, E4, E6. destruct Hcase as [Hz|(Hin & Hn2 & Hn1 & ->)].
  - apply (step_at_0 m _ Hg) in Hz as Hz'. exists 1. rewrite Hpos, Hz, Hz'. split; [lia|]. split; [done|].
    rewrite (since_head_same m m' _ Hh). change 1 with (0 + 1).
    rewrite since_head_snoc by lia. rewrite Z.add_0_r, Z.mod_small by lia. by rewrite step_at_head.
  - destruct (Hp Hs Hin) as [?|(n & Hnr & Hnp & ->)]; [done|]. exists (n + 1). split; [split; [lia|]|split].
    + destruct (decide (n = m_sub02_off m + 5)) as [->|]; [|lia]. exfalso. apply Hn2. rewrite Hnp.
      replace (m_sub01_off m + (m_sub02_off m + 5)) with (m_sub02_off m + 1 * m_cycle_len m) by lia.
      rewrite Z.mod_add, Z.mod_small by lia. done.
    + rewrite Hpos, Hnp, Zplus_mod_idemp_l. f_equal. lia.
    + rewrite (since_head_same m m' _ Hh), since_head_snoc by lia. by rewrite <- Hnp.
Qed.

(** *** The wait *)

(** The box [src] is latched by the slot that ends the transfer of [blocks],
    the master hunting until then. *)
Fixpoint latches (src : list Z) (blocks : list (list Z)) (txs : list reac_headamp_tx)
    (m : reac_master) (g : list (list Z)) : Prop :=
  match txs with
  | [] => False
  | tx :: txs =>
      let m' := (reac_master_next tn tx m).1 in
      m_state m = REAC_M_PROBING ∧
      ((m_state m' = REAC_M_GRANTING ∧ m_box_mac m' = src ∧ slot_log tn tx m g = blocks) ∨
       latches src blocks txs m' (slot_log tn tx m g))
  end.

Lemma latches_app src blocks txs txs' m g :
  latches src blocks txs m g → latches src blocks (txs ++ txs') m g.
Proof.
  revert m g. induction txs as [|tx txs IH]; intros m g; simpl; [done|].
  intros (Hs & [H|H]); (split; [done|]); [by left|right; by apply IH].
Qed.

Lemma latches_split src blocks txs m g :
  latches src blocks txs m g →
  ∃ pre tx post, txs = pre ++ tx :: post ∧
    (∀ n, m_state (quiet_slots tn (take n pre) m) = REAC_M_PROBING) ∧
    let m1 := quiet_slots tn pre m in
    let m2 := (reac_master_next tn tx m1).1 in
    m_state m2 = REAC_M_GRANTING ∧ m_box_mac m2 = src ∧ slot_log tn tx m1 (quiet_log pre m g) = blocks.
Proof.
  revert m g. induction txs as [|tx txs IH]; intros m g; simpl; [done|].
  intros (Hs & [H|H]).
  - exists [], tx, txs. split; [done|split; [|exact H]]. intros n. by rewrite take_nil.
  - destruct (IH _ _ H) as (pre & tx' & post & -> & Hb & Hl). exists (tx :: pre), tx', post.
    split; [done|split; [|exact Hl]]. intros [|n]; [done|]. apply Hb.
Qed.

(** Until it is latched, the master hunts on. *)
Lemma held_run txs m g :
  Forall tx_ok txs → minv m → m_state m = REAC_M_PROBING → m_join_held m = true → push_ok m g →
  latches (m_join_src m) (scene_blocks m) txs m g ∨
  (let m' := quiet_slots tn txs m in
   minv m' ∧ m_state m' = REAC_M_PROBING ∧ same_hunt m m' ∧ m_cycle_pos m' = slot_at m (zlen txs) ∧
   push_ok m' (quiet_log txs m g) ∧
   (m_scene_inflight m = true →
    (∀ n, 0 ≤ n < zlen txs → scene_step_at m (slot_at m n) ≠ Some 342) → m_scene_inflight m' = true) ∧
   (∀ src blocks txs', latches src blocks txs' m' (quiet_log txs m g) →
      latches src blocks (txs ++ txs') m g)).
Proof.
  intros Htx. revert m g. induction Htx as [|tx txs Ht _ IH]; intros m g H Hs Hj Hp.
  - right. cbv zeta. cbn [quiet_slots quiet_log]. destruct (iv_pos _ _ _ H).
    unfold zlen, slot_at; simpl. rewrite Z.add_0_r, Z.mod_small by lia. by split_and!.
  - destruct (next_hunt tn src0 pace0 tx m Ht H Hs) as (_ & Hlog & Hn). cbv zeta in Hn.
    pose proof (push_ok_hunt tx m g Ht H Hs Hp) as Hp1. rewrite Hj, andb_true_r in Hn.
    destruct (_ && m_scene_inflight m) eqn:E.
    { left. apply andb_true_iff in E as [E1 E2]. apply bool_decide_eq_true_1 in E1.
      simpl. split; [done|]. left. destruct Hn as (? & ? & _). split_and!; [done|done|].
      rewrite Hlog, E1. apply push_ok_final; [apply H|done..]. }
    destruct Hn as (N1 & N2 & N3 & N4 & _).
    pose proof (minv_next1 tn src0 pace0 tx m Ht H) as H1. set (m1 := (reac_master_next tn tx m).1) in *.
    assert (Hj1 : m_join_held m1 = true) by (etransitivity; [apply N3|done]).
    assert (Hsrc : m_join_src m1 = m_join_src m) by apply N3.
    assert (Hsc : scene_blocks m1 = scene_blocks m)
      by (unfold scene_blocks; assert (m_scene m1 = m_scene m) as -> by apply N3; done).
    assert (Hat : ∀ n, slot_at m1 n = slot_at m (n + 1)).
    { intros n. unfold slot_at. rewrite N2. assert (m_cycle_len m1 = m_cycle_len m) as -> by apply N3.
      rewrite Zplus_mod_idemp_l. f_equal. lia. }
    destruct (IH m1 _ H1 N1 Hj1 Hp1) as [Hl|(I1 & I2 & I3 & I4 & I5 & I6 & I7)].
    + left. simpl. split; [done|]. right. rewrite Hsrc, Hsc in Hl. exact Hl.
    + right. cbv zeta. cbn [quiet_slots quiet_log]. fold m1. pose proof (zlen_nonneg txs).
      split_and!; try done.
      * by eapply same_hunt_trans.
      * rewrite I4, Hat, zlen_cons. f_equal. lia.
      * intros Hi Hno. rewrite zlen_cons in Hno. apply I6.
        -- rewrite N4. assert (Hne : scene_step_at m (m_cycle_pos m) ≠ Some 342).
           { destruct (iv_pos _ _ _ H). specialize (Hno 0 ltac:(lia)). unfold slot_at in Hno.
             by rewrite Z.add_0_r, Z.mod_small in Hno by lia. }
           unfold step_inflight. destruct (scene_step_at m (m_cycle_pos m)) as [k|]; [|done].
           destruct (k =? 0); [done|]. destruct (k =? 342) eqn:Ek; [|done]. exfalso. apply Hne. f_equal. lia.
        -- intros n Hnr. rewrite (step_at_same m m1 _ N3), Hat. apply Hno. lia.
      * intros src blocks txs' Hl. simpl. split; [done|]. right. by apply I7.
Qed.

(** The slots after the header, through the wrap. *)
Lemma wrap_slot s n :
  0 ≤ s → 0 ≤ n < s + 9 → (s + 1 + n) mod (s + 5) = if n <? 4 then s + 1 + n else n - 4.
Proof.
  intros Hs Hn. destruct (n <? 4) eqn:E; [apply Z.mod_small; lia|].
  replace (s + 1 + n) with (n - 4 + 1 * (s + 5)) by lia. rewrite Z.mod_add by lia. apply Z.mod_small. lia.
Qed.

(** From the header slot, the join is released by the cycle's final. *)
Lemma held_cycle txs m g :
  Forall tx_ok txs → minv m → m_state m = REAC_M_PROBING → m_join_held m = true → push_ok m g →
  m_cycle_pos m = m_sub01_off m → zlen txs = m_sub02_off m + 6 →
  latches (m_join_src m) (scene_blocks m) txs m g.
Proof.
  intros Htx H Hs Hj Hp Hpos Hn. pose proof (iv_geom _ _ _ H) as Hg.
  destruct (cycle_marks m Hg) as (M1 & M2 & M3).
  destruct txs as [|tx txs]; [unfold zlen in Hn; simpl in Hn; lia|].
  rewrite zlen_cons in Hn. apply Forall_cons in Htx as [Ht Htx].
  destruct (next_hunt tn src0 pace0 tx m Ht H Hs) as (_ & _ & Hh). cbv zeta in Hh.
  pose proof (push_ok_hunt tx m g Ht H Hs Hp) as Hp1.
  rewrite Hpos, step_at_head in Hh by done.
  replace (bool_decide (Some 0 = Some 342)) with false in Hh by done.
  destruct Hh as (N1 & N2 & N3 & N4 & _). cbn [andb step_inflight Z.eqb] in N4.
  pose proof (minv_next1 tn src0 pace0 tx m Ht H) as H1. set (m1 := (reac_master_next tn tx m).1) in *.
  simpl. split; [done|]. right. fold m1.
  pose proof N3 as (_ & E2 & _ & E4 & _ & E6 & E7 & Ej & _ & Es & _).
  assert (Hj1 : m_join_held m1 = true) by congruence.
  replace (scene_blocks m) with (scene_blocks m1) by (unfold scene_blocks; by rewrite E7). rewrite <- Es.
  rewrite Z.mod_small in N2 by lia.
  destruct (decide (txs = [])) as [->|Hne]; [unfold zlen in Hn; simpl in Hn; lia|].
  destruct (exists_last Hne) as (txs' & tx' & ->). rewrite zlen_app, zlen_cons in Hn.
  unfold zlen in Hn at 2; simpl in Hn. apply Forall_app in Htx as [Ht1 Ht2]. apply Forall_cons in Ht2 as [Ht2 _].
  destruct (held_run txs' m1 _ Ht1 H1 N1 Hj1 Hp1) as [Hl|(I1 & I2 & I3 & I4 & I5 & I6 & I7)]; [by apply latches_app|].
  assert (Hg1 : geom m1) by apply (iv_geom _ _ _ H1).
  assert (Hin : m_scene_inflight (quiet_slots tn txs' m1) = true).
  { apply I6; [done|]. intros n Hnr Hx. apply step_at_342 in Hx; [|done].
    rewrite E4 in Hx. unfold slot_at in Hx. rewrite N2, E2, M3 in Hx.
    rewrite wrap_slot in Hx by lia. destruct (n <? 4) eqn:En; lia. }
  apply I7. set (m2 := quiet_slots tn txs' m1) in *. simpl. split; [done|]. left.
  pose proof (next_hunt tn src0 pace0 tx' m2 Ht2 I1 I2) as (_ & Hlog & Hh). cbv zeta in Hh.
  pose proof I3 as (_ & E2' & _ & E4' & _ & _ & E7' & Ej' & _ & Es' & _).
  assert (Hstep2 : scene_step_at m2 (m_cycle_pos m2) = Some 342).
  { assert (m_cycle_pos m2 = m_sub02_off m2) as ->.
    { rewrite E4', E4, I4. unfold slot_at. rewrite N2, E2, M3, wrap_slot by lia.
      replace (zlen txs' <? 4) with false by lia. lia. }
    apply step_at_final. by destruct I1. }
  rewrite Hlog. rewrite Hstep2, Hin, Ej', Hj1 in Hh.
  replace (bool_decide (Some 342 = Some 342)) with true in Hh by done.
  destruct Hh as (R1 & R2 & _). split_and!; [done|congruence|]. rewrite Hstep2.
  rewrite (push_ok_final m2 _); [|by destruct I1|done..]. unfold scene_blocks. by rewrite E7'.
Qed.
End Held.

(** *** The log of every reachable master *)

(** One step of a master and what it leaves in the log: only a slot pushes. *)
Definition step_log (tn : reac_master_tunables) (tx : reac_headamp_tx) (m : reac_master)
    (o : master_op) (g : list (list Z)) : list (list Z) :=
  match o with MNext => slot_log tn tx m g | _ => g end.

(** Reachable masters with the blocks put on the wire since the last header. *)
Inductive push_reach (tn : reac_master_tunables) (src : list Z) (cfg : option reac_console_cfg)
    (fps : Z) : reac_master → list (list Z) → Prop :=
| push_init : push_reach tn src cfg fps (reac_master_init tn src cfg fps) []
| push_step m g tx o : push_reach tn src cfg fps m g → tx_ok tx →
    push_reach tn src cfg fps (master_step tn tx m o) (step_log tn tx m o g).

Lemma push_reach_reach tn src cfg fps m g :
  push_reach tn src cfg fps m g → master_reach tn src cfg fps m.
Proof. induction 1; econstructor; eauto. Qed.

(** A step that opens no transfer leaves a hunting master's schedule alone. *)
Definition same_push (m m' : reac_master) : Prop :=
  m_state m' = REAC_M_PROBING → m_scene_inflight m' = true →
  m_state m = REAC_M_PROBING ∧ m_scene_inflight m = true ∧ m_cycle_pos m' = m_cycle_pos m ∧
  m_fps m' = m_fps m ∧ m_cycle_len m' = m_cycle_len m ∧ m_burst_end m' = m_burst_end m ∧
  m_sub02_off m' = m_sub02_off m ∧ m_chanmap_off m' = m_chanmap_off m ∧
  m_sub01_off m' = m_sub01_off m ∧ m_scene m' = m_scene m.

Lemma same_push_ok m m' g : same_push m m' → push_ok m g → push_ok m' g.
Proof.
  intros Hsp Hp Hs Hi. destruct (Hsp Hs Hi) as (S1 & S2 & S3 & E1 & E2 & E3 & E4 & E5 & E6 & E7).
  rewrite S3, E2, E4, E6. destruct (Hp S1 S2) as [?|(n & Hn & Hpos & ->)]; [by left|].
  right. exists n. split; [done|split; [done|]]. unfold since_head. rewrite E2, E6.
  apply omap_pointwise. intros i. unfold scene_step_at, burst_index_at, step_block.
  by rewrite E1, E3, E4, E5, E6, E7.
Qed.

Lemma same_push_trans m1 m2 m3 : same_push m1 m2 → same_push m2 m3 → same_push m1 m3.
Proof.
  intros H1 H2 Hs Hi. destruct (H2 Hs Hi) as (S1 & S2 & ? & ? & ? & ? & ? & ? & ? & ?).
  destruct (H1 S1 S2) as (? & ? & ? & ? & ? & ? & ? & ? & ? & ?). split_and!; congruence.
Qed.

Lemma granting_state tx m src blk : m_state (enter_granting tx m src blk) = REAC_M_GRANTING.
Proof. by destruct (granting_facts tx m src blk). Qed.

Lemma probing_push m : m_scene_inflight (enter_probing m) = false ∧
  m_state (enter_probing m) = REAC_M_PROBING ∧ m_cycle_pos (enter_probing m) = m_sub01_off (enter_probing m).
Proof. unfold enter_probing. by destruct (negb _). Qed.

(** An edge never carries a transfer into PROBING. *)
Lemma edge_same_push tx m e src blk : same_push m (apply_edge tx m e src blk).
Proof.
  unfold apply_edge. set (m1 := if bool_decide _ then m else _).
  assert (H1 : same_push m m1) by (subst m1; destruct (bool_decide _); by intros ??; split_and!).
  destruct (negb _); [done|]. destruct (e_next e); [done|..]; intros Hs Hi.
  - destruct (probing_push m1) as (E & _). congruence.
  - rewrite granting_state in Hs. done.
  - done.
Qed.

Lemma promote_same_push tx m : same_push m (promote_idle tx m).
Proof. unfold promote_idle. destruct (state_eqb _ _); [apply edge_same_push|]. by intros ??; split_and!. Qed.

Lemma rx_same_push tx m ev src blk : same_push m (reac_master_rx tx m ev src blk).1.
Proof.
  unfold reac_master_rx. destruct (negb _); [by intros ??; split_and!|].
  set (m0 := set_m_presence_tick _ _).
  apply (same_push_trans m (promote_idle tx m0)).
  { apply (same_push_trans m m0); [by intros ??; split_and!|apply promote_same_push]. }
  set (m1 := promote_idle tx m0). set (m2 := match ev with REAC_M_RX_BOX_CONFIG => _ | _ => _ end).
  set (m3 := if state_eqb (m_state m2) _ then _ else _).
  apply (same_push_trans m1 m3).
  { subst m3 m2. destruct ev; destruct (state_eqb _ _); by intros ??; split_and!. }
  clearbody m3. destruct (_ && _); simpl; [|apply edge_same_push].
  unfold hold_join. destruct (if ev_is_join _ then blk else None); by intros ??; split_and!.
Qed.

Lemma rebuild_same_push tx m base w : same_push m (rebuild_grant_sweep tx m base w).1.
Proof.
  unfold rebuild_grant_sweep. destruct (reac_grant_allocate _ _); [|by intros ??; split_and!].
  destruct (reac_grant_build_sweep _ _ _); [|by intros ??; split_and!].
  destruct (_ <=? _); by intros ??; split_and!.
Qed.

Lemma declare_same_push tx m a b c : same_push m (declare_box tx m a b c).
Proof.
  unfold declare_box. destruct (_ && _).
  { intros Hs. unfold reac_master_regrant in Hs. by rewrite granting_state in Hs. }
  unfold reac_master_set_box. pose proof (rebuild_same_push tx m c a) as Hr.
  destruct (rebuild_grant_sweep tx m c a) as [m1 rc]. destruct (negb (rc =? 0)); [done|].
  apply (same_push_trans m m1); [done|]. destruct (_ && _); by intros ??; split_and!.
Qed.

(** *** A slot, whatever state it finds the master in *)

Lemma promote_counter tx m c :
  m_state m = REAC_M_IDLE →
  promote_idle tx (set_m_counter c m) = set_m_counter c (promote_idle tx m) ∧
  m_counter (promote_idle tx m) = m_counter m ∧ m_state (promote_idle tx m) = REAC_M_PROBING.
Proof. destruct m; simpl; intros ->. split_and!; reflexivity. Qed.

(** A slot in IDLE is the first slot of the hunt. *)
Lemma next_idle tn tx m :
  m_state m = REAC_M_IDLE → reac_master_next tn tx m = reac_master_next tn tx (promote_idle tx m).
Proof.
  intros Hs. destruct (promote_counter tx m (u16 (m_counter m + 1)) Hs) as (E1 & E2 & E3).
  unfold reac_master_next at 1. unfold reac_master_next at 1. rewrite E1, E2.
  set (m1 := set_m_counter _ (promote_idle tx m)).
  assert (promote_idle tx m1 = m1) as ->; [|done].
  unfold promote_idle at 1, state_eqb. subst m1. simpl. by rewrite E3.
Qed.

(** Out of GRANTING and ESTABLISHED a slot can only fall back, onto the header
    slot of a fresh cycle. *)
Definition fallen (m : reac_master) : Prop :=
  m_state m = REAC_M_PROBING → m_cycle_pos m = m_sub01_off m ∧ m_join_held m = false.

Lemma fallen_not m : m_state m ≠ REAC_M_PROBING → fallen m.
Proof. done. Qed.

Lemma fallen_edge tx m e src blk :
  e_enter e = true → e_next e ≠ REAC_M_IDLE → fallen (apply_edge tx m e src blk).
Proof.
  intros Hen Hni. unfold apply_edge. rewrite Hen. cbn [negb]. set (m1 := if bool_decide _ then m else _).
  destruct (e_next _) eqn:En; intros Hp.
  - done.
  - unfold enter_probing. by destruct (negb _).
  - by rewrite granting_state in Hp.
  - done.
Qed.

Lemma linked_decide tn src0 pace0 tx m :
  minv src0 pace0 m → m_state m = REAC_M_GRANTING ∨ m_state m = REAC_M_ESTABLISHED →
  fallen (slot_decide tn tx m).1.1.
Proof.
  intros H Hs. unfold slot_decide. destruct Hs as [Es|Es]; rewrite Es.
  - destruct (reac_master_has_box m) eqn:Eb; simpl.
    + unfold granting_known. destruct (granting_slot_rows tn src0 pace0 m H Es Eb) as (R1 & _).
      destruct (granting_slot tn m) as [[m1 e] idx]. cbn [fst snd m_state set_m_grant_ticks] in *. rewrite R1, Es.
      destruct (grant_delivered _); [|apply fallen_not; simpl; by rewrite R1, Es].
      by apply fallen_edge.
    + unfold granting_unknown. set (o := if m_grant_ticks m =? 0 then _ else _).
      assert (Hx : m_state o.1.1 = m_state m).
      { subst o. destruct (m_grant_ticks m =? 0); [done|]. by destruct (dwell_slot_frame m). }
      destruct o as [[m1 e] idx]. cbn [fst snd m_state set_m_grant_ticks] in *. rewrite Hx, Es.
      destruct (_ <? _); [|apply fallen_not; simpl; by rewrite Hx, Es].
      by apply fallen_edge.
  - unfold established_slot. destruct (cadence_frame tn m) as (C1 & _).
    destruct (control_cadence tn m) as [[m1 e] idx]. cbn [fst snd m_state set_m_link_check] in *.
    rewrite C1, Es. destruct (_ <=? _); [|apply fallen_not; simpl; by rewrite C1, Es].
    by apply fallen_edge.
Qed.

(** The transfer bookkeeping leaves a fallen master where it is. *)
Lemma fallen_account src0 pace0 tx m e :
  minv src0 pace0 m → fallen m →
  let m' := transfer_account tx (if emit_is_scene e then scene_prepare m else m) e in
  m_state m' = REAC_M_PROBING → m_cycle_pos m' = m_sub01_off m'.
Proof.
  intros H Hf. cbv zeta. set (m1 := if emit_is_scene e then _ else _).
  assert (H1 : minv src0 pace0 m1) by (subst m1; destruct (emit_is_scene e); [by apply minv_prepare|done]).
  assert (Hf1 : fallen m1).
  { subst m1. destruct (emit_is_scene e); [|done]. unfold scene_prepare.
    by destruct (reac_ctrl_build_scene_step _ _ _). }
  clearbody m1. unfold transfer_account. destruct e; try (intros Hs; by apply Hf1).
  destruct (m_scene_inflight m1); [|intros Hs; by apply Hf1]. cbn [m_join_held set_m_scene_inflight set_m_scene_complete].
  destruct (m_join_held m1) eqn:Ej; [|intros Hs; by apply Hf1].
  destruct (iv_held _ _ _ H1 Ej) as (Hx & _). destruct (Hf1 Hx). congruence.
Qed.

Lemma linked_slot tn src0 pace0 tx m :
  tx_ok tx → minv src0 pace0 m → m_state m = REAC_M_GRANTING ∨ m_state m = REAC_M_ESTABLISHED →
  let m' := (reac_master_next tn tx m).1 in
  m_state m' = REAC_M_PROBING → m_cycle_pos m' = m_sub01_off m'.
Proof.
  intros Htx H Hs. cbv zeta. unfold reac_master_next. fold (slot_start tx m).
  destruct (minv_start src0 pace0 tx m Htx H) as [H0 _].
  assert (Hs0 : m_state (slot_start tx m) = m_state m).
  { unfold slot_start, promote_idle. simpl.
    replace (state_eqb (m_state m) REAC_M_IDLE) with false
      by (unfold state_eqb; by destruct Hs as [-> | ->]).
    destruct (m_box_seen _); [|done]. by destruct (_ <=? 0). }
  rewrite <- Hs0 in Hs. pose proof (decide_ok src0 pace0 tn tx _ Htx H0) as [H1 _].
  pose proof (linked_decide tn src0 pace0 tx _ H0 Hs) as Hf.
  destruct (slot_decide tn tx (slot_start tx m)) as [[m1 e] idx].
  by apply (fallen_account src0 pace0).
Qed.

Lemma push_ok_next tn src0 pace0 tx m g :
  tx_ok tx → minv src0 pace0 m → push_ok m g →
  push_ok (reac_master_next tn tx m).1 (slot_log tn tx m g).
Proof.
  intros Htx H Hp. destruct (m_state m) eqn:Hs.
  - unfold slot_log. rewrite next_idle by done. fold (slot_log tn tx (promote_idle tx m) g).
    apply (push_ok_hunt tn src0 pace0); [done|by apply minv_promote| |].
    + unfold promote_idle, state_eqb. rewrite Hs. simpl. unfold apply_edge, enter_probing. simpl. by destruct (negb _).
    + eapply same_push_ok; [apply promote_same_push|done].
  - by apply (push_ok_hunt tn src0 pace0).
  - intros Hs' _. left. apply (linked_slot tn src0 pace0 tx m); auto.
  - intros Hs' _. left. apply (linked_slot tn src0 pace0 tx m); auto.
Qed.

Lemma push_reach_ok tn src cfg fps m g :
  500 ≤ fps → zlen src = 6 → push_reach tn src cfg fps m g → push_ok m g.
Proof.
  intros Hf Hs. induction 1 as [|m g tx o Hr IH Htx].
  { unfold push_ok, reac_master_init, scene_prepare. by destruct (reac_ctrl_build_scene_step _ _ _). }
  pose proof (master_reach_inv _ _ _ _ _ Hf Hs (push_reach_reach _ _ _ _ _ _ Hr)) as Hi.
  destruct o as [|ev s blk|in_ch out_ch base|set|b]; simpl.
  - by eapply push_ok_next.
  - eapply same_push_ok; [apply rx_same_push|done].
  - eapply same_push_ok; [apply declare_same_push|done].
  - eapply same_push_ok; [|done]. apply (same_push_trans m (set_m_headamp_src set m));
      [by intros ??; split_and!|apply rebuild_same_push].
  - done.
Qed.

(** The box is latched within the stretch: up to some slot the master hunts on,
    and that slot puts the last block of the whole transfer on the wire. *)
Definition latched (tn : reac_master_tunables) (txs : list reac_headamp_tx) (m : reac_master)
    (g : list (list Z)) : Prop :=
  ∃ pre tx post, txs = pre ++ tx :: post ∧
    (∀ n, m_state (quiet_slots tn (take n pre) m) = REAC_M_PROBING) ∧
    let m1 := quiet_slots tn pre m in
    let m2 := (reac_master_next tn tx m1).1 in
    let pushed := slot_log tn tx m1 (quiet_log tn pre m g) in
    m_state m2 = REAC_M_GRANTING ∧ m_box_mac m2 = m_join_src m ∧
    pushed = scene_blocks m ∧ zlen pushed = REAC_SCENE_STEPS ∧
    concat (scene_payload <$> pushed) = m_scene m.

(** C36. No timer takes a master forward: a box does, and it is not kept
    waiting. While no join is held, a hunting master stays in PROBING through
    any number of silent slots. A join or declaration that arrived before the
    box had the whole scene is neither dropped nor honoured early. Whatever run
    led to the master, with [g] the blocks it has put on the wire since its
    last header: within one cycle and one transfer there is a slot up to which
    it hunts on, which pushes the final of a transfer whose blocks, header
    first, are all 343 of the scene in order (their payloads concatenate to the
    scene), and with that same slot it is GRANTING that very box. *)
Theorem held_join_latched (tn : reac_master_tunables) (src : list Z)
    (cfg : option reac_console_cfg) (fps : Z) (m : reac_master) (g : list (list Z))
    (txs : list reac_headamp_tx) :
  500 ≤ fps → zlen src = 6 → push_reach tn src cfg fps m g → Forall tx_ok txs →
  m_state m = REAC_M_PROBING →
  if m_join_held m then
    m_cycle_len m + m_sub02_off m + 6 ≤ zlen txs → latched tn txs m g
  else m_state (quiet_slots tn txs m) = REAC_M_PROBING.
Proof.
  intros Hf Hs Hr Htx Hst. pose proof (push_reach_ok _ _ _ _ _ _ Hf Hs Hr) as Hp.
  pose proof (master_reach_inv _ _ _ _ _ Hf Hs (push_reach_reach _ _ _ _ _ _ Hr)) as H.
  set (pace := console_field _) in H. destruct (m_join_held m) eqn:Hj; cycle 1.
  { by destruct (hunt_run tn src pace txs m Htx H Hst Hj) as (_ & _ & ? & _). }
  intros Hn. enough (latches tn (m_join_src m) (scene_blocks m) txs m g) as Hl.
  { destruct (latches_split _ _ _ _ _ _ Hl) as (pre & tx & post & E & Hb & L1 & L2 & L3).
    exists pre, tx, post. cbv zeta. rewrite L3. destruct (iv_scene _ _ _ H) as (Hlen & _).
    destruct (scene_blocks_whole m Hlen). by split_and!. }
  destruct (cycle_marks m (iv_geom _ _ _ H)) as (M1 & M2 & M3). destruct (iv_pos _ _ _ H) as [P1 P2].
  set (d := (m_sub01_off m - m_cycle_pos m) mod m_cycle_len m).
  assert (Hd : 0 ≤ d < m_cycle_len m) by (apply Z.mod_pos_bound; lia).
  set (t1 := take (Z.to_nat d) txs).
  set (t2 := take (Z.to_nat (m_sub02_off m + 6)) (drop (Z.to_nat d) txs)).
  assert (Hsplit : txs = (t1 ++ t2) ++ drop (Z.to_nat (m_sub02_off m + 6)) (drop (Z.to_nat d) txs))
    by (subst t1 t2; rewrite <- app_assoc; by rewrite !take_drop).
  assert (L1 : zlen t1 = d) by (subst t1; unfold zlen in *; rewrite length_take; lia).
  assert (L2 : zlen t2 = m_sub02_off m + 6)
    by (subst t2; unfold zlen in *; rewrite length_take, length_drop; lia).
  rewrite Hsplit in Htx |- *. apply Forall_app in Htx as [Htx _]. apply Forall_app in Htx as [T1 T2].
  apply latches_app. destruct (held_run tn src pace t1 m g T1 H Hst Hj Hp) as [Hl|(I1 & I2 & I3 & I4 & I5 & _ & I7)];
    [by apply latches_app|].
  apply I7. pose proof I3 as (_ & _ & _ & E4 & _ & E6 & E7 & E8 & _ & Es & _).
  replace (scene_blocks m) with (scene_blocks (quiet_slots tn t1 m)) by (unfold scene_blocks; by rewrite E7).
  rewrite <- Es. apply (held_cycle tn src pace); [done|done|done|congruence|done| |].
  - rewrite I4, L1, E6. unfold slot_at. subst d. rewrite Zplus_mod_idemp_r.
    replace (m_cycle_pos m + (m_sub01_off m - m_cycle_pos m)) with (m_sub01_off m) by lia.
    apply Z.mod_small. lia.
  - rewrite L2, E4. done.
Qed.

(** ** Concrete courtships *)

(** A master woken by a presence frame, and one woken by a JOIN. *)
Definition demo_hunting : reac_master :=
  (reac_master_rx reac_headamp_tx_init demo_start REAC_M_RX_BOX_BCAST_FILLER demo_box None).1.
Definition demo_held : reac_master :=
  (reac_master_rx reac_headamp_tx_init demo_start REAC_M_RX_BOX_JOIN demo_box (Some (zeros 32))).1.

Lemma demo_hunting_reach : master_reach REAC_MASTER_TUNABLES_DEFAULT demo_src None 500 demo_hunting.
Proof. apply reach_rx; [apply reach_init|apply tx_ok_init]. Qed.

Lemma demo_held_reach : push_reach REAC_MASTER_TUNABLES_DEFAULT demo_src None 500 demo_held [].
Proof.
  exact (push_step REAC_MASTER_TUNABLES_DEFAULT demo_src None 500 _ _ reac_headamp_tx_init
    (MRx REAC_M_RX_BOX_JOIN demo_box (Some (zeros 32))) (push_init _ _ _ _) tx_ok_init).
Qed.

Lemma demo_hunting_facts :
  m_state demo_hunting = REAC_M_PROBING ∧ m_join_held demo_hunting = false ∧
  m_cycle_pos demo_hunting = m_sub01_off demo_hunting ∧
  zlen (demo_slots 1347) = m_cycle_len demo_hunting.
Proof. vm_compute. done. Qed.

Lemma demo_held_facts :
  m_state demo_held = REAC_M_PROBING ∧ m_join_held demo_held = true ∧ m_join_src demo_held = demo_box ∧
  m_cycle_len demo_held + m_sub02_off demo_held + 6 ≤ zlen (demo_slots 2000).
Proof. vm_compute. done. Qed.

Lemma scene_push_complete_witness :
  let blocks := push_blocks REAC_MASTER_TUNABLES_DEFAULT (demo_slots 1347) demo_hunting in
  zlen blocks = 343 ∧ concat (scene_payload <$> blocks) = m_scene demo_hunting.
Proof.
  destruct demo_hunting_facts as (H1 & H2 & H3 & H4).
  destruct (scene_push_complete REAC_MASTER_TUNABLES_DEFAULT demo_src None 500 demo_hunting
    (demo_slots 1347) ltac:(lia) eq_refl demo_hunting_reach (demo_slots_ok 1347) H1 H2 H3 H4)
    as (_ & Hl & Hc & _).
  exact (conj Hl Hc).
Defined.

Lemma held_join_latched_witness :
  ∃ pre tx post, demo_slots 2000 = pre ++ tx :: post ∧
    let m1 := quiet_slots REAC_MASTER_TUNABLES_DEFAULT pre demo_held in
    let m2 := (reac_master_next REAC_MASTER_TUNABLES_DEFAULT tx m1).1 in
    m_state m1 = REAC_M_PROBING ∧ m_state m2 = REAC_M_GRANTING ∧ m_box_mac m2 = demo_box.
Proof.
  destruct demo_held_facts as (H1 & H2 & H3 & H4).
  pose proof (held_join_latched REAC_MASTER_TUNABLES_DEFAULT demo_src None 500 demo_held []
    (demo_slots 2000) ltac:(lia) eq_refl demo_held_reach (demo_slots_ok 2000) H1) as H.
  rewrite H2 in H. destruct (H H4) as (pre & tx & post & Hs & Hp & Hg & Hb & _). exists pre, tx, post.
  pose proof (Hp (length pre)) as Hq. rewrite firstn_all in Hq.
  exact (conj Hs (conj Hq (conj Hg (eq_trans Hb H3)))).
Defined.
