(* ===== verification/Ring.v ===== *)
(** * Ring: the single-producer single-consumer sample ring

    Models [transport/src/reac_ring.c]: planar audio between the receive thread
    and the realtime callback, one row of samples per channel, head and tail
    shared, capacity a power of two. The first part is the code operation by
    operation, and its theorem that the ring is a bounded queue per channel; the
    second replays a write and a read as the loads, stores and publications they
    are made of, in any interleaving of the two threads. *)

From S2P Require Import Prelude Sample.
From Stdlib Require Import SpecFloat.
Local Open Scope Z_scope.

(** ** The operations *)

Definition next_pow2 (v : Z) : Z :=
  if v <? 2 then 2
  else
    let v := v - 1 in
    let v := Z.lor v (Z.shiftr v 1) in
    let v := Z.lor v (Z.shiftr v 2) in
    let v := Z.lor v (Z.shiftr v 4) in
    let v := Z.lor v (Z.shiftr v 8) in
    let v := Z.lor v (Z.shiftr v 16) in
    u32 (v + 1).

Record reac_ring := Ring {
  r_buf : list (list f32); r_capacity : Z; r_mask : Z; r_channels : Z; r_wrote_channels : Z;
  r_head : Z; r_tail : Z; r_underruns : Z; r_overruns : Z
}.

Definition silence (n : Z) : list f32 := replicate (Z.to_nat n) f32_zero.

(** [None] is the -1 return; [alloc_ok] is whether [calloc] succeeded. *)
Definition reac_ring_init (channels capacity_frames : Z) (alloc_ok : bool) : option reac_ring :=
  let cap := next_pow2 capacity_frames in
  if (capacity_frames =? 0) || (cap =? 0) then None
  else if negb alloc_ok then None
  else Some (Ring (replicate (Z.to_nat channels) (silence cap)) cap (cap - 1) channels 0 0 0 0 0).

Definition reac_ring_readable (r : reac_ring) : Z := Z.land (u32 (r_head r - r_tail r)) (r_mask r).
Definition reac_ring_writable (r : reac_ring) : Z := u32 (r_mask r - reac_ring_readable r).

(** The stores of one row: the samples in turn, the position wrapping. *)
Fixpoint row_store (slot : list f32) (pos mask : Z) (src : list f32) : list f32 :=
  match src with
  | [] => slot
  | x :: src => row_store (<[Z.to_nat pos := x]> slot) (Z.land (pos + 1) mask) mask src
  end.

(** The loads of one row. *)
Fixpoint row_load (slot : list f32) (pos mask : Z) (n : nat) : list f32 :=
  match n with
  | O => []
  | S n => default f32_zero (slot !! Z.to_nat pos) :: row_load slot (Z.land (pos + 1) mask) mask n
  end.

(** The [w] samples of channel [c] in a source of stride [n]. *)
Definition source_row (planar : list f32) (n c w : Z) : list f32 :=
  (λ s, default f32_zero (planar !! Z.to_nat (c * n + s))) <$> zseq 0 w.

(** The rows the source no longer fills are silenced. *)
Definition retire_rows (r : reac_ring) (src_channels : Z) : list (list f32) :=
  imap (λ c row, if (src_channels <=? Z.of_nat c) && (Z.of_nat c <? r_wrote_channels r)
                 then silence (r_capacity r) else row) (r_buf r).

(** The ring and the frames written. *)
Definition reac_ring_write (r : reac_ring) (planar : list f32) (n src_channels : Z) : reac_ring * Z :=
  let src_channels := if r_channels r <? src_channels then r_channels r else src_channels in
  let buf := if src_channels <? r_wrote_channels r then retire_rows r src_channels else r_buf r in
  let r := Ring buf (r_capacity r) (r_mask r) (r_channels r) src_channels (r_head r) (r_tail r)
             (r_underruns r) (r_overruns r) in
  let free_slots := reac_ring_writable r in
  let over := if free_slots <? n then u64 (r_overruns r + (n - free_slots)) else r_overruns r in
  let w := if free_slots <? n then free_slots else n in
  let stored := imap (λ c row, if Z.of_nat c <? src_channels
                               then row_store row (r_head r) (r_mask r) (source_row planar n (Z.of_nat c) w)
                               else row) (r_buf r) in
  if (free_slots <? n) && (w =? 0) then
    (Ring (r_buf r) (r_capacity r) (r_mask r) (r_channels r) (r_wrote_channels r) (r_head r) (r_tail r)
       (r_underruns r) over, 0)
  else
    (Ring stored (r_capacity r) (r_mask r) (r_channels r) (r_wrote_channels r)
       (Z.land (r_head r + w) (r_mask r)) (r_tail r) (r_underruns r) over, w).

(** The ring, the [n] samples each of the [channels] rows receives (a row past
    the ring's is left alone: [None]), and the real frames. *)
Definition reac_ring_read_planar (r : reac_ring) (channels n : Z)
    : reac_ring * list (option (list f32)) * Z :=
  let avail := reac_ring_readable r in
  let real := if avail <? n then avail else n in
  let nch := if channels <? r_channels r then channels else r_channels r in
  let out c := if c <? nch
               then Some (row_load (default [] (r_buf r !! Z.to_nat c)) (r_tail r) (r_mask r) (Z.to_nat real)
                          ++ silence (n - real))
               else None in
  let under := if real <? n then u64 (r_underruns r + (n - real)) else r_underruns r in
  (Ring (r_buf r) (r_capacity r) (r_mask r) (r_channels r) (r_wrote_channels r) (r_head r)
     (Z.land (r_tail r + real) (r_mask r)) under (r_overruns r),
   out <$> zseq 0 channels, real).

Definition reac_ring_trim (r : reac_ring) (keep : Z) : reac_ring * Z :=
  let avail := reac_ring_readable r in
  if avail <=? keep then (r, 0)
  else
    let drop := avail - keep in
    (Ring (r_buf r) (r_capacity r) (r_mask r) (r_channels r) (r_wrote_channels r) (r_head r)
       (Z.land (r_tail r + drop) (r_mask r)) (r_underruns r) (r_overruns r), drop).

(** * Properties *)

(** ** The capacity is the next power of two *)

Definition smears (w v s : Z) : Prop :=
  0 ≤ w ∧ ∀ i, 0 ≤ i → Z.testbit w i = true ↔ ∃ j, 0 ≤ j < s ∧ Z.testbit v (i + j) = true.

Lemma smears_double w v s : 0 < s → smears w v s → smears (Z.lor w (Z.shiftr w s)) v (2 * s).
Proof.
  intros Hs [Hw H]. split; [rewrite Z.lor_nonneg, Z.shiftr_nonneg; lia|].
  intros i Hi. rewrite Z.lor_spec, Z.shiftr_spec, orb_true_iff, (H i), (H (i + s)) by lia. split.
  - intros [(j & Hj & Hb)|(j & Hj & Hb)]; [exists j; split; [lia|done]|].
    exists (s + j). split; [lia|]. by replace (i + (s + j)) with (i + s + j) by lia.
  - intros (j & Hj & Hb). destruct (decide (j < s)); [left; exists j; split; [lia|done]|right].
    exists (j - s). split; [lia|]. by replace (i + s + (j - s)) with (i + j) by lia.
Qed.

Lemma smears_ones w v s : 0 < v < 2 ^ s → 0 ≤ s → smears w v s → w = 2 ^ (Z.log2 v + 1) - 1.
Proof.
  intros Hv Hs [Hw H]. rewrite Z.sub_1_r, <- Z.ones_equiv. apply Z.bits_inj'. intros i Hi.
  pose proof (Z.log2_nonneg v) as Hl.
  assert (Z.log2 v < s) by (apply Z.log2_lt_pow2; lia).
  destruct (decide (i ≤ Z.log2 v)) as [Hle|Hgt].
  - rewrite Z.ones_spec_low by lia. apply H; [lia|]. exists (Z.log2 v - i). split; [lia|].
    replace (i + (Z.log2 v - i)) with (Z.log2 v) by lia. apply Z.bit_log2. lia.
  - rewrite Z.ones_spec_high by lia. apply not_true_is_false. rewrite (H i) by lia.
    intros (j & Hj & Hb). rewrite Z.bits_above_log2 in Hb by lia. done.
Qed.

Lemma next_pow2_eq v : 2 ≤ v < 2 ^ 32 → next_pow2 v = u32 (2 ^ (Z.log2 (v - 1) + 1)).
Proof.
  intros Hv. unfold next_pow2. replace (v <? 2) with false by lia.
  assert (H1 : smears (v - 1) (v - 1) 1).
  { split; [lia|]. intros i Hi. split.
    - intros Hb. exists 0. split; [lia|]. by rewrite Z.add_0_r.
    - intros (j & Hj & Hb). assert (j = 0) as -> by lia. by rewrite Z.add_0_r in Hb. }
  apply smears_double in H1; [|lia]. apply (smears_double _ _ 2) in H1; [|lia].
  apply (smears_double _ _ 4) in H1; [|lia]. apply (smears_double _ _ 8) in H1; [|lia].
  apply (smears_double _ _ 16) in H1; [|lia]. cbv zeta.
  apply (smears_ones _ _ 32) in H1; [|lia|lia]. rewrite H1. f_equal. lia.
Qed.

Lemma next_pow2_spec v :
  1 ≤ v ≤ 2 ^ 31 → ∃ k, 1 ≤ k ≤ 31 ∧ next_pow2 v = 2 ^ k ∧ v ≤ 2 ^ k ∧ (2 ≤ v → 2 ^ k < 2 * v).
Proof.
  intros Hv. destruct (decide (v < 2)).
  { exists 1. unfold next_pow2. replace (v <? 2) with true by lia. split_and!; lia. }
  rewrite next_pow2_eq by lia. exists (Z.log2 (v - 1) + 1).
  pose proof (Z.log2_spec (v - 1) ltac:(lia)) as Hl. pose proof (Z.log2_nonneg (v - 1)) as Hn.
  assert (Z.log2 (v - 1) < 31) by (apply Z.log2_lt_pow2; lia).
  assert (2 ^ (Z.log2 (v - 1) + 1) = 2 * 2 ^ Z.log2 (v - 1)) as Hp by (rewrite Z.pow_add_r by lia; lia).
  assert (2 ^ (Z.log2 (v - 1) + 1) ≤ 2 ^ 31) by (apply Z.pow_le_mono_r; lia).
  rewrite <- Z.add_1_r in Hl. unfold u32. rewrite Z.mod_small by lia. split_and!; lia.
Qed.

(** ** Positions *)

Section Row.
Context (k : Z) (Hk : 1 ≤ k ≤ 31).
Local Notation cap := (2 ^ k).
Local Notation mask := (cap - 1).

Lemma land_mask x : Z.land x mask = x mod cap.
Proof. rewrite Z.sub_1_r, <- Z.ones_equiv. apply Z.land_ones. lia. Qed.

Lemma cap_bounds : 2 ≤ cap ≤ 2 ^ 31.
Proof.
  split; [change 2 with (2 ^ 1) at 1|]; apply Z.pow_le_mono_r; lia.
Qed.

Lemma cap_divides : (cap | 2 ^ 32).
Proof. exists (2 ^ (32 - k)). rewrite <- Z.pow_add_r by lia. f_equal. lia. Qed.

Lemma mod_below x : - cap ≤ x < 0 → x mod cap = x + cap.
Proof. intros Hx. symmetry. apply (Z.mod_unique_pos _ _ (-1)); lia. Qed.

(** Two slots of a window are the same slot only if they are the same place. *)
Lemma slot_inj t i j : 0 ≤ i < cap → 0 ≤ j < cap → (t + i) mod cap = (t + j) mod cap → i = j.
Proof.
  intros Hi Hj He. pose proof cap_bounds.
  assert (((t + i) - (t + j)) mod cap = 0) as H0 by (rewrite Zminus_mod, He, Z.sub_diag; apply Z.mod_0_l; lia).
  apply Z.mod_divide in H0 as [m Hm]; [|lia].
  generalize dependent (2 ^ k). intros c **. assert (m = 0) by nia. subst m. lia.
Qed.

Lemma wrapped_distance h t : Z.land (u32 (h - t)) mask = (h - t) mod cap.
Proof.
  rewrite land_mask. unfold u32. apply Z.mod_mod_divide, cap_divides.
Qed.

Definition row_at (row : list f32) (i : Z) : f32 := default f32_zero (row !! Z.to_nat i).

(** The [len] samples from position [t], oldest first. *)
Definition window (row : list f32) (t len : Z) : list f32 :=
  (λ i, row_at row ((t + i) mod cap)) <$> zseq 0 len.

Lemma window_lookup row t len (i : nat) :
  window row t len !! i = if decide (Z.of_nat i < len) then Some (row_at row ((t + Z.of_nat i) mod cap)) else None.
Proof.
  unfold window, zseq. rewrite list_lookup_fmap. case_decide as H.
  - by rewrite lookup_seqZ_lt by lia.
  - by rewrite lookup_seqZ_ge by lia.
Qed.

Lemma zlen_window row t len : zlen (window row t len) = Z.max 0 len.
Proof. unfold window. by rewrite zlen_fmap, zlen_zseq. Qed.

Lemma row_load_window row t n :
  0 ≤ t < cap → row_load row t mask n = window row t (Z.of_nat n).
Proof.
  revert t. induction n as [|n IH]; intros t Ht; [done|]. pose proof cap_bounds.
  cbn [row_load]. rewrite land_mask, IH by (apply Z.mod_pos_bound; lia).
  apply list_eq. intros [|i]; rewrite window_lookup.
  - rewrite decide_True by lia. simpl. unfold row_at. do 3 f_equal. rewrite Z.mod_small; lia.
  - simpl. rewrite window_lookup. repeat case_decide; try lia; [|done].
    do 2 f_equal. rewrite Zplus_mod_idemp_l. f_equal. lia.
Qed.

Lemma row_store_length row pos src : length (row_store row pos mask src) = length row.
Proof.
  revert row pos. induction src as [|x src IH]; intros row pos; [done|]. simpl.
  by rewrite IH, length_insert.
Qed.

(** A store lands at its distance from the position it starts from, and nowhere
    else. *)
Lemma row_store_at row pos src p :
  zlen row = cap → 0 ≤ pos < cap → 0 ≤ p < cap → zlen src ≤ cap →
  row_at (row_store row pos mask src) p =
    if decide ((p - pos) mod cap < zlen src) then row_at src ((p - pos) mod cap) else row_at row p.
Proof.
  revert row pos. induction src as [|x src IH]; intros row pos Hr Hpos Hp Hl.
  { rewrite decide_False; [done|]. change (zlen []) with 0. pose proof (Z.mod_pos_bound (p - pos) cap). lia. }
  pose proof cap_bounds as Hc. rewrite zlen_cons in *. pose proof (zlen_nonneg src).
  cbn [row_store]. rewrite land_mask.
  rewrite IH; [|unfold zlen in *; by rewrite length_insert|apply Z.mod_pos_bound; lia|done|lia].
  assert (Hd : (p - (pos + 1) mod cap) mod cap = (p - pos - 1) mod cap).
  { rewrite Zminus_mod_idemp_r. f_equal. lia. }
  rewrite Hd. destruct (decide (p = pos)) as [->|Hne].
  - replace (pos - pos - 1) with (-1) by lia. rewrite Z.sub_diag, Z.mod_0_l by lia.
    rewrite mod_below by lia. rewrite decide_False, decide_True by lia. unfold row_at.
    rewrite list_lookup_insert_eq by (unfold zlen in *; lia). done.
  - assert (Hs : (p - pos - 1) mod cap = (p - pos) mod cap - 1).
    { symmetry. apply (Z.mod_unique_pos _ _ ((p - pos) / cap)).
      - pose proof (Z.mod_pos_bound (p - pos) cap ltac:(lia)).
        assert ((p - pos) mod cap ≠ 0); [|lia]. intros E.
        destruct (decide (p < pos)); [rewrite mod_below in E by lia|rewrite Z.mod_small in E by lia]; lia.
      - pose proof (Z.div_mod (p - pos) cap ltac:(lia)). lia. }
    rewrite Hs. assert (1 ≤ (p - pos) mod cap).
    { pose proof (Z.mod_pos_bound (p - pos - 1) cap ltac:(lia)). lia. }
    repeat case_decide; try lia.
    + unfold row_at. replace (Z.to_nat ((p - pos) mod cap)) with (S (Z.to_nat ((p - pos) mod cap - 1))) by lia. done.
    + unfold row_at. rewrite list_lookup_insert_ne by lia. done.
Qed.

Lemma window_store row t len src :
  zlen row = cap → 0 ≤ t < cap → 0 ≤ len → len + zlen src < cap →
  window (row_store row ((t + len) mod cap) mask src) t (len + zlen src) = window row t len ++ src.
Proof.
  intros Hr Ht Hlen Hfit. pose proof (zlen_nonneg src) as Hz. pose proof (zlen_window row t len) as Hw.
  assert (Hn : length (window row t len) = Z.to_nat len) by (unfold zlen in Hw; lia).
  apply list_eq. intros i. rewrite window_lookup.
  assert (Hd : ∀ j, 0 ≤ j < cap → ((t + j) mod cap - (t + len) mod cap) mod cap = (j - len) mod cap).
  { intros j Hj. rewrite <- Zminus_mod. f_equal. lia. }
  case_decide as Hi.
  - rewrite row_store_at by (try apply Z.mod_pos_bound; lia). rewrite Hd by lia.
    destruct (decide (Z.of_nat i < len)) as [Hl|Hl].
    + rewrite mod_below by lia. rewrite decide_False by lia.
      rewrite lookup_app_l by lia. by rewrite window_lookup, decide_True.
    + rewrite (Z.mod_small (Z.of_nat i - len)) by lia. rewrite decide_True by lia.
      rewrite lookup_app_r by lia. rewrite Hn. unfold row_at.
      replace (Z.to_nat (Z.of_nat i - len)) with (i - Z.to_nat len)%nat by lia.
      destruct (lookup_lt_is_Some_2 src (i - Z.to_nat len)) as [x Hx]; [unfold zlen in *; lia|].
      by rewrite Hx.
  - symmetry. apply lookup_ge_None_2. rewrite length_app. unfold zlen in *. lia.
Qed.

Lemma window_drop row t len d :
  0 ≤ d ≤ len → window row ((t + d) mod cap) (len - d) = drop (Z.to_nat d) (window row t len).
Proof.
  intros Hd. apply list_eq. intros i. rewrite lookup_drop, !window_lookup.
  repeat case_decide; try lia; [|done]. do 2 f_equal. rewrite Zplus_mod_idemp_l. f_equal. lia.
Qed.

Lemma window_take row t len d :
  d ≤ len → window row t d = take (Z.to_nat d) (window row t len).
Proof.
  intros Hd. apply list_eq. intros i. rewrite window_lookup.
  destruct (decide (Z.of_nat i < d)).
  - rewrite lookup_take_lt by lia. by rewrite window_lookup, decide_True by lia.
  - by rewrite lookup_take_ge by lia.
Qed.

Lemma window_silence t len : window (silence cap) t len = silence len.
Proof.
  unfold silence. apply list_eq. intros i. rewrite window_lookup. case_decide.
  - rewrite lookup_replicate_2 by lia. f_equal. unfold row_at.
    destruct (replicate _ _ !! _) eqn:E; [|done]. apply lookup_replicate_1 in E as [-> _]. done.
  - symmetry. apply lookup_ge_None_2. rewrite length_replicate. lia.
Qed.
End Row.

(** ** The ring is a bounded queue per channel *)

(** What the ring promises: each channel a queue of the same length, at most one
    below the capacity; a write appends what fits and a channel past the source's
    width is silent from then on, the samples already queued included; a read
    takes the oldest samples and fills up with silence. *)
Record queues := Queues { q_len : Z; q_rows : list (list f32); q_under : Z; q_over : Z }.

Definition spec_write (cap : Z) (q : queues) (planar : list f32) (n src : Z) : queues * Z :=
  let w := Z.min n (cap - 1 - q_len q) in
  (Queues (q_len q + w)
     (imap (λ c l, if Z.of_nat c <? src then l ++ source_row planar n (Z.of_nat c) w
                   else silence (q_len q + w)) (q_rows q))
     (q_under q) (u64 (q_over q + (n - w))), w).

Definition spec_read (q : queues) (channels n : Z) : queues * list (option (list f32)) * Z :=
  let real := Z.min n (q_len q) in
  (Queues (q_len q - real) (drop (Z.to_nat real) <$> q_rows q) (u64 (q_under q + (n - real))) (q_over q),
   (λ c, (λ l, take (Z.to_nat real) l ++ silence (n - real)) <$> q_rows q !! Z.to_nat c) <$> zseq 0 channels,
   real).

Definition spec_trim (q : queues) (keep : Z) : queues * Z :=
  let gone := Z.max 0 (q_len q - keep) in
  (Queues (q_len q - gone) (drop (Z.to_nat gone) <$> q_rows q) (q_under q) (q_over q), gone).

Inductive ring_op := RWrite (planar : list f32) (n src : Z) | RRead (channels n : Z) | RTrim (keep : Z).
Inductive ring_out := Wrote (w : Z) | Got (rows : list (option (list f32))) (real : Z) | Trimmed (n : Z).

(** What a caller sees after a call: its answer, the frames it could read, the
    frames short in reads so far and the frames dropped in writes so far. *)
Definition ring_call (r : reac_ring) (op : ring_op) : reac_ring * ring_out :=
  match op with
  | RWrite planar n src => let '(r, w) := reac_ring_write r planar n src in (r, Wrote w)
  | RRead channels n => let '(r, rows, real) := reac_ring_read_planar r channels n in (r, Got rows real)
  | RTrim keep => let '(r, n) := reac_ring_trim r keep in (r, Trimmed n)
  end.
Definition ring_step (r : reac_ring) (op : ring_op) : reac_ring * (ring_out * (Z * Z * Z)) :=
  let '(r, x) := ring_call r op in (r, (x, (reac_ring_readable r, r_underruns r, r_overruns r))).

Definition spec_call (cap : Z) (q : queues) (op : ring_op) : queues * ring_out :=
  match op with
  | RWrite planar n src => let '(q, w) := spec_write cap q planar n src in (q, Wrote w)
  | RRead channels n => let '(q, rows, real) := spec_read q channels n in (q, Got rows real)
  | RTrim keep => let '(q, n) := spec_trim q keep in (q, Trimmed n)
  end.
Definition spec_step (cap : Z) (q : queues) (op : ring_op) : queues * (ring_out * (Z * Z * Z)) :=
  let '(q, x) := spec_call cap q op in (q, (x, (q_len q, q_under q, q_over q))).

(** The outputs of a sequence of operations. *)
Fixpoint run {S O X} (step : S → O → S * X) (s : S) (ops : list O) : list X :=
  match ops with
  | [] => []
  | op :: ops => let '(s, x) := step s op in x :: run step s ops
  end.

(** Counts and widths are [uint32_t]. *)
Definition ring_op_ok (op : ring_op) : Prop :=
  match op with
  | RWrite _ n src => 0 ≤ n < 2 ^ 32 ∧ 0 ≤ src < 2 ^ 32
  | RRead channels n => 0 ≤ channels < 2 ^ 32 ∧ 0 ≤ n < 2 ^ 32
  | RTrim keep => 0 ≤ keep < 2 ^ 32
  end.

Record ring_refines (k channels : Z) (r : reac_ring) (q : queues) : Prop := {
  rr_k : 1 ≤ k ≤ 31; rr_ch : 0 ≤ channels < 2 ^ 32;
  rr_cap : r_capacity r = 2 ^ k; rr_mask : r_mask r = 2 ^ k - 1; rr_channels : r_channels r = channels;
  rr_nrows : zlen (r_buf r) = channels; rr_rows : Forall (λ row, zlen row = 2 ^ k) (r_buf r);
  rr_head : r_head r = (r_tail r + q_len q) mod 2 ^ k; rr_tail : 0 ≤ r_tail r < 2 ^ k;
  rr_len : 0 ≤ q_len q < 2 ^ k;
  rr_wrote : 0 ≤ r_wrote_channels r ≤ channels;
  rr_silent : ∀ c row, r_buf r !! c = Some row → r_wrote_channels r ≤ Z.of_nat c → row = silence (2 ^ k);
  rr_q : q_rows q = (λ row, window k row (r_tail r) (q_len q)) <$> r_buf r;
  rr_counts : r_underruns r = q_under q ∧ r_overruns r = q_over q ∧ 0 ≤ q_under q < 2 ^ 64 ∧ 0 ≤ q_over q < 2 ^ 64
}.

Lemma readable_len k channels r q : ring_refines k channels r q → reac_ring_readable r = q_len q.
Proof.
  intros []. unfold reac_ring_readable. rewrite rr_mask0, wrapped_distance by done.
  rewrite rr_head0, Zminus_mod_idemp_l. rewrite Z.mod_small; lia.
Qed.

Lemma writable_len k channels r q : ring_refines k channels r q → reac_ring_writable r = 2 ^ k - 1 - q_len q.
Proof.
  intros H. unfold reac_ring_writable. rewrite (readable_len _ _ _ _ H). destruct H. rewrite rr_mask0.
  pose proof (cap_bounds k rr_k0). unfold u32. rewrite Z.mod_small; lia.
Qed.

Lemma zlen_source_row planar n c w : 0 ≤ w → zlen (source_row planar n c w) = w.
Proof. intros. unfold source_row. rewrite zlen_fmap, zlen_zseq. lia. Qed.

Lemma zlen_silence n : zlen (silence n) = Z.max 0 n.
Proof. unfold silence, zlen. rewrite length_replicate. lia. Qed.

(** Narrowing the source silences the rows it vacates and leaves the others. *)
Lemma retired_row k channels r q src c row :
  ring_refines k channels r q → 0 ≤ src →
  (if src <? r_wrote_channels r then retire_rows r src else r_buf r) !! c = Some row →
  ∃ row0, r_buf r !! c = Some row0 ∧ zlen row = 2 ^ k ∧
    row = if Z.of_nat c <? src then row0 else silence (2 ^ k).
Proof.
  intros [] Hs Hr. rewrite Forall_lookup in rr_rows0. destruct (src <? r_wrote_channels r) eqn:E.
  - unfold retire_rows in Hr. rewrite list_lookup_imap in Hr.
    destruct (r_buf r !! c) as [row0|] eqn:Er; [|done]. simpl in Hr. injection Hr as <-.
    exists row0. split; [done|]. rewrite rr_cap0. pose proof (rr_silent0 _ _ Er) as Hq.
    destruct (Z.of_nat c <? src) eqn:Ec.
    + replace (src <=? Z.of_nat c) with false by lia. simpl. split; [by eapply rr_rows0|done].
    + replace (src <=? Z.of_nat c) with true by lia. simpl.
      assert (zlen (silence (2 ^ k)) = 2 ^ k) by (rewrite zlen_silence; lia).
      destruct (Z.of_nat c <? r_wrote_channels r) eqn:Ew; [done|].
      split; [by eapply rr_rows0|apply Hq; lia].
  - exists row. split_and!; [done|by eapply rr_rows0|].
    destruct (Z.of_nat c <? src) eqn:Ec; [done|]. apply (rr_silent0 _ _ Hr). lia.
Qed.

Section Write.
Context (k channels : Z) (r : reac_ring) (q : queues) (planar : list f32) (n src : Z).
Context (HR : ring_refines k channels r q) (Hn : 0 ≤ n < 2 ^ 32) (Hsrc : 0 ≤ src).
Let s : Z := Z.min channels src.
Let w : Z := Z.min n (2 ^ k - 1 - q_len q).
Let buf : list (list f32) := if s <? r_wrote_channels r then retire_rows r s else r_buf r.
Let stored : list (list f32) :=
  imap (λ c row, if Z.of_nat c <? s then row_store row (r_head r) (r_mask r) (source_row planar n (Z.of_nat c) w)
                 else row) buf.

Lemma write_bounds : 0 ≤ s ≤ channels ∧ 0 ≤ w ≤ n ∧ q_len q + w < 2 ^ k ∧ 2 ≤ 2 ^ k ≤ 2 ^ 31.
Proof using HR Hn Hsrc.
  pose proof (cap_bounds k (rr_k _ _ _ _ HR)). pose proof (rr_len _ _ _ _ HR).
  pose proof (rr_ch _ _ _ _ HR). subst s w. lia.
Qed.

(** Both returns of the function are the same store, of nothing when full. *)
Lemma write_eq :
  reac_ring_write r planar n src =
    (Ring stored (r_capacity r) (r_mask r) (r_channels r) s (Z.land (r_head r + w) (r_mask r)) (r_tail r)
       (r_underruns r) (u64 (q_over q + (n - w))), w).
Proof using HR Hn Hsrc.
  pose proof write_bounds as (_ & Hw & Hfit & _). pose proof (rr_len _ _ _ _ HR) as Hlen.
  destruct (rr_counts _ _ _ _ HR) as (_ & Ho & _ & Hob).
  unfold reac_ring_write. replace (if r_channels r <? src then r_channels r else src) with s
    by (subst s; rewrite (rr_channels _ _ _ _ HR); destruct (channels <? src) eqn:E; lia).
  fold buf. set (r1 := Ring buf _ _ _ _ _ _ _ _).
  assert (Hwr : reac_ring_writable r1 = 2 ^ k - 1 - q_len q) by exact (writable_len _ _ _ _ HR).
  rewrite Hwr. replace (if 2 ^ k - 1 - q_len q <? n then 2 ^ k - 1 - q_len q else n) with w
    by (subst w; destruct (2 ^ k - 1 - q_len q <? n) eqn:E; lia).
  replace (if 2 ^ k - 1 - q_len q <? n then u64 _ else _) with (u64 (q_over q + (n - w))); cycle 1.
  { change (r_overruns r1) with (r_overruns r). rewrite Ho. destruct (2 ^ k - 1 - q_len q <? n) eqn:E.
    - f_equal. lia.
    - unfold u64. rewrite Z.mod_small; lia. }
  destruct (_ && _) eqn:E; [|done]. apply andb_prop in E as [_ E]. apply Z.eqb_eq in E. f_equal; [|done].
  change (r_mask r1) with (r_mask r). change (r_head r1) with (r_head r).
  rewrite E, Z.add_0_r, (rr_mask _ _ _ _ HR), land_mask, (rr_head _ _ _ _ HR), Zmod_mod by apply (rr_k _ _ _ _ HR).
  f_equal. subst stored. rewrite E. apply list_eq. intros c. rewrite list_lookup_imap.
  change (r_buf r1) with buf. destruct (buf !! c) as [row|]; [simpl|done]. by destruct (Z.of_nat c <? s).
Qed.

Lemma stored_row c row' :
  stored !! c = Some row' →
  ∃ row0, r_buf r !! c = Some row0 ∧
    row' = if Z.of_nat c <? s then row_store row0 (r_head r) (2 ^ k - 1) (source_row planar n (Z.of_nat c) w)
           else silence (2 ^ k).
Proof using HR Hn Hsrc.
  intros Hr. subst stored. rewrite list_lookup_imap in Hr. destruct (buf !! c) as [row|] eqn:Eb; [|done].
  destruct (retired_row k channels r q s c row HR (proj1 (proj1 write_bounds)) Eb) as (row0 & H0 & _ & ->).
  exists row0. split; [done|]. simpl in Hr. injection Hr as <-. rewrite (rr_mask _ _ _ _ HR).
  by destruct (Z.of_nat c <? s).
Qed.

Lemma zlen_stored : zlen stored = channels.
Proof using HR.
  pose proof (rr_nrows _ _ _ _ HR) as Hn'. subst stored buf. unfold zlen in *. rewrite length_imap.
  destruct (s <? r_wrote_channels r); [|done]. unfold retire_rows. by rewrite length_imap.
Qed.

(** The queues after the write are the windows over the stored rows. *)
Lemma stored_windows :
  q_rows (spec_write (2 ^ k) q planar n src).1 =
  (λ row, window k row (r_tail r) (q_len q + w)) <$> stored.
Proof using HR Hn Hsrc.
  pose proof write_bounds as (Hsb & Hw & Hfit & _). pose proof (rr_len _ _ _ _ HR) as Hlen.
  pose proof zlen_stored as Hz. pose proof (rr_nrows _ _ _ _ HR) as Hz'. unfold zlen in Hz, Hz'.
  apply list_eq. intros c. unfold spec_write. cbn [fst q_rows]. fold w.
  rewrite list_lookup_imap, (rr_q _ _ _ _ HR), !list_lookup_fmap.
  destruct (stored !! c) as [row'|] eqn:E.
  - destruct (stored_row _ _ E) as (row0 & H0 & ->). rewrite H0. simpl. apply lookup_lt_Some in E.
    replace (Z.of_nat c <? src) with (Z.of_nat c <? s) by (subst s; lia).
    destruct (Z.of_nat c <? s); [|by rewrite window_silence].
    assert (Hzs : zlen (source_row planar n (Z.of_nat c) w) = w) by (apply zlen_source_row; lia).
    revert Hzs. generalize (source_row planar n (Z.of_nat c) w) as sr. intros sr Hzs.
    rewrite (rr_head _ _ _ _ HR), <- Hzs, window_store; [done|apply HR| |apply HR|lia|lia].
    by eapply (proj1 (Forall_lookup _ _) (rr_rows _ _ _ _ HR)).
  - apply lookup_ge_None in E. rewrite (lookup_ge_None_2 (r_buf r)); [done|lia].
Qed.

Lemma refines_write :
  let '(r', w') := reac_ring_write r planar n src in
  let '(q', w0) := spec_write (2 ^ k) q planar n src in
  w' = w0 ∧ ring_refines k channels r' q'.
Proof using HR Hn Hsrc.
  pose proof write_bounds as (Hsb & Hw & Hfit & _). rewrite write_eq.
  pose proof stored_windows as Hwin. pose proof zlen_stored as Hz. unfold spec_write in *.
  cbn [fst q_rows] in Hwin. fold w in Hwin |- *. split; [done|].
  pose proof stored_row as Hst. destruct HR. split; try done.
  - apply Forall_lookup. intros c row' Hc'. destruct (Hst _ _ Hc') as (row0 & H0 & ->).
    destruct (Z.of_nat c <? s); [|rewrite zlen_silence; lia].
    unfold zlen. rewrite row_store_length. by eapply (proj1 (Forall_lookup _ _) rr_rows0).
  - change (Z.land (r_head r + w) (r_mask r) = (r_tail r + (q_len q + w)) mod 2 ^ k).
    rewrite rr_mask0, land_mask, rr_head0, Zplus_mod_idemp_l by done. f_equal. lia.
  - simpl. lia.
  - intros c row' Hc' Hle. destruct (Hst _ _ Hc') as (row0 & H0 & ->). simpl in Hle.
    by replace (Z.of_nat c <? s) with false by lia.
  - destruct rr_counts0 as (? & ? & ? & ?). split_and!; try done; unfold u64; simpl; lia.
Qed.
End Write.

(** A step of the consumer moves the tail over the [d] oldest samples. *)
Lemma refines_consume k channels r q d under :
  ring_refines k channels r q → 0 ≤ d ≤ q_len q → 0 ≤ under < 2 ^ 64 →
  ring_refines k channels
    (Ring (r_buf r) (r_capacity r) (r_mask r) (r_channels r) (r_wrote_channels r) (r_head r)
       (Z.land (r_tail r + d) (r_mask r)) under (r_overruns r))
    (Queues (q_len q - d) (drop (Z.to_nat d) <$> q_rows q) under (q_over q)).
Proof.
  intros [] Hd Hu. pose proof (cap_bounds k rr_k0).
  assert (Ht : Z.land (r_tail r + d) (r_mask r) = (r_tail r + d) mod 2 ^ k) by (by rewrite rr_mask0, land_mask).
  split; try done; cbn [r_head r_tail q_len q_rows r_buf r_wrote_channels]; rewrite ?Ht; try lia.
  - rewrite rr_head0, Zplus_mod_idemp_l. f_equal. lia.
  - rewrite rr_q0, <- list_fmap_compose. apply list_fmap_ext. intros c row _. symmetry. by apply window_drop.
  - destruct rr_counts0 as (? & ? & ? & ?). split_and!; try done; simpl; lia.
Qed.

Lemma refines_read k channels r q width n :
  ring_refines k channels r q → 0 ≤ width → 0 ≤ n →
  let '(r', rows, real) := reac_ring_read_planar r width n in
  let '(q', rows', real') := spec_read q width n in
  rows = rows' ∧ real = real' ∧ ring_refines k channels r' q'.
Proof.
  intros HR Hw Hn. unfold reac_ring_read_planar, spec_read. rewrite (readable_len _ _ _ _ HR).
  pose proof (rr_len _ _ _ _ HR) as Hlen. destruct (rr_counts _ _ _ _ HR) as (Hu & _ & Hub & _).
  set (real := if q_len q <? n then q_len q else n). set (under := if real <? n then _ else _).
  assert (Hreal : real = Z.min n (q_len q)) by (subst real; destruct (q_len q <? n) eqn:E; lia).
  assert (Hunder : under = u64 (q_under q + (n - real))).
  { subst under. rewrite Hu. destruct (real <? n) eqn:E; [done|]. unfold u64. rewrite Z.mod_small; lia. }
  rewrite <- Hreal, <- Hunder. split_and!; [|done|].
  - apply list_fmap_ext. intros i c Hc. unfold zseq in Hc. apply lookup_seqZ in Hc as [-> Hi].
    rewrite (rr_q _ _ _ _ HR), (rr_channels _ _ _ _ HR), list_lookup_fmap.
    pose proof (rr_nrows _ _ _ _ HR) as Hnr. unfold zlen in Hnr.
    destruct (_ <? (if width <? channels then width else channels)) eqn:E.
    + assert (0 + Z.of_nat i < channels) by (destruct (width <? channels) eqn:E2; lia).
      destruct (lookup_lt_is_Some_2 (r_buf r) (Z.to_nat (0 + Z.of_nat i))) as [row Hrow]; [lia|].
      rewrite Hrow. simpl. rewrite (rr_mask _ _ _ _ HR), row_load_window by apply HR.
      by rewrite Z2Nat.id, (window_take k row _ (q_len q) real) by lia.
    + assert (channels ≤ 0 + Z.of_nat i) by (destruct (width <? channels) eqn:E2; lia).
      by rewrite (lookup_ge_None_2 (r_buf r)) by lia.
  - apply refines_consume; [done|lia|]. rewrite Hunder. unfold u64. lia.
Qed.

Lemma refines_trim k channels r q keep :
  ring_refines k channels r q → 0 ≤ keep →
  let '(r', n) := reac_ring_trim r keep in
  let '(q', n') := spec_trim q keep in
  n = n' ∧ ring_refines k channels r' q'.
Proof.
  intros HR Hk. unfold reac_ring_trim, spec_trim. rewrite (readable_len _ _ _ _ HR).
  destruct (rr_counts _ _ _ _ HR) as (Hu & _ & Hub & _). pose proof (rr_len _ _ _ _ HR).
  destruct (q_len q <=? keep) eqn:E.
  - rewrite Z.max_l by lia. split; [done|]. destruct q as [len rows un ov]. simpl in *.
    rewrite Z.sub_0_r. replace (drop (Z.to_nat 0) <$> rows) with rows; [done|].
    symmetry. rewrite <- (list_fmap_id rows) at 2. by apply list_fmap_ext.
  - rewrite Z.max_r by lia. split; [done|]. rewrite Hu. by apply refines_consume; [|lia|].
Qed.

Lemma ring_refines_init channels depth :
  0 ≤ channels < 2 ^ 32 → 1 ≤ depth ≤ 2 ^ 31 →
  ∃ k r, reac_ring_init channels depth true = Some r ∧ next_pow2 depth = 2 ^ k ∧ depth ≤ 2 ^ k ∧
    ring_refines k channels r (Queues 0 (replicate (Z.to_nat channels) []) 0 0).
Proof.
  intros Hc Hd. destruct (next_pow2_spec depth Hd) as (k & Hk & Hp & Hle & _).
  pose proof (cap_bounds k Hk) as Hb. unfold reac_ring_init.
  replace (depth =? 0) with false by lia. rewrite Hp. replace (2 ^ k =? 0) with false by lia.
  exists k. eexists. split_and!; [done|done|done|].
  split; simpl; try done; try lia.
  - unfold zlen. rewrite length_replicate. lia.
  - apply Forall_replicate. rewrite zlen_silence. lia.
  - intros c row Hr _. apply lookup_replicate in Hr as [-> _]. done.
  - by rewrite fmap_replicate.
Qed.

(** Every call answers as the queues do, and leaves the counts the queues have. *)
Lemma refines_step k channels r q op :
  ring_refines k channels r q → ring_op_ok op →
  let '(r', x) := ring_step r op in
  let '(q', y) := spec_step (2 ^ k) q op in x = y ∧ ring_refines k channels r' q'.
Proof.
  intros HR Hop. unfold ring_step, spec_step.
  assert (let '(r', x) := ring_call r op in let '(q', y) := spec_call (2 ^ k) q op in
          x = y ∧ ring_refines k channels r' q') as H.
  { destruct op as [planar n src|width n|keep]; cbn [ring_op_ok ring_call spec_call] in *.
    - pose proof (refines_write k channels r q planar n src HR (proj1 Hop) (proj1 (proj2 Hop))) as H'.
      destruct (reac_ring_write r planar n src), (spec_write (2 ^ k) q planar n src). by destruct H' as [-> ?].
    - pose proof (refines_read k channels r q width n HR) as H'.
      destruct (reac_ring_read_planar r width n) as [[? ?] ?], (spec_read q width n) as [[? ?] ?].
      by destruct H' as (-> & -> & ?); [apply Hop|apply Hop|].
    - pose proof (refines_trim k channels r q keep HR) as H'.
      destruct (reac_ring_trim r keep), (spec_trim q keep). by destruct H' as [-> ?]; [apply Hop|]. }
  destruct (ring_call r op) as [r' x], (spec_call (2 ^ k) q op) as [q' y]. destruct H as [-> HR'].
  split; [|done]. destruct (rr_counts _ _ _ _ HR') as (-> & -> & _). by rewrite (readable_len _ _ _ _ HR').
Qed.

(** C29. The sample ring is a bounded queue per channel, and a silent channel
    stays silent. For every depth from one to 2^31 it allocates at least that
    depth, a power of two; from then on, for any sequence of writes (of any width
    and length), reads and trims, each call returns what the queues return: a
    write appends what fits below the capacity less one and drops the newest
    rest, channels past the source's width become silence, what was queued there
    included; a read takes the oldest samples of every channel and completes
    them with silence; a trim drops the oldest. After each call the frames to be
    read, the frames reads fell short of and the frames writes dropped, both
    modulo 2^64, are those of the queues. *)
Theorem ring_is_queue (channels depth : Z) (ops : list ring_op) :
  0 ≤ channels < 2 ^ 32 → 1 ≤ depth ≤ 2 ^ 31 → Forall ring_op_ok ops →
  depth ≤ next_pow2 depth ∧ (2 ≤ depth → next_pow2 depth < 2 * depth) ∧
  ∃ r, reac_ring_init channels depth true = Some r ∧
    run ring_step r ops =
      run (spec_step (next_pow2 depth)) (Queues 0 (replicate (Z.to_nat channels) []) 0 0) ops.
Proof.
  intros Hc Hd Hok. destruct (next_pow2_spec depth Hd) as (k' & _ & Hp' & ? & ?).
  destruct (ring_refines_init channels depth Hc Hd) as (k & r & Hi & Hp & Hle & HR).
  split_and!; [lia|rewrite Hp'; done|]. exists r. split; [done|]. rewrite Hp.
  generalize dependent (Queues 0 (replicate (Z.to_nat channels) []) 0 0). clear Hi Hp'. revert r.
  induction Hok as [|op ops Hop Hok IH]; intros r q HR; [done|]. cbn [run].
  pose proof (refines_step k channels r q op HR Hop) as H'.
  destruct (ring_step r op), (spec_step (2 ^ k) q op). destruct H' as [-> HR']. f_equal. by apply IH.
Qed.

Definition demo_ring_ops : list ring_op :=
  [RWrite [f32_2p23; f32_zero; f32_s24max; f32_2p23; f32_2p23; f32_zero; f32_zero; f32_zero] 4 2;
   RRead 2 1; RWrite [f32_s24min] 1 1; RRead 3 4].

(** The fourth frame does not fit, and narrowing to one channel silences what
    the second had queued. *)
Lemma ring_is_queue_witness :
  ∃ r, reac_ring_init 2 3 true = Some r ∧
    run ring_step r demo_ring_ops =
      [(Wrote 3, (3, 0, 1)); (Got [Some [f32_2p23]; Some [f32_2p23]] 1, (2, 0, 1)); (Wrote 1, (3, 0, 1));
       (Got [Some [f32_zero; f32_s24max; f32_s24min; f32_zero]; Some (silence 4); None] 3, (0, 1, 1))].
Proof.
  destruct (ring_is_queue 2 3 demo_ring_ops) as (_ & _ & r & Hi & Hrun).
  - lia.
  - lia.
  - repeat constructor; simpl; lia.
  - exists r. split; [exact Hi|]. rewrite Hrun. vm_compute. reflexivity.
Defined.
