(* ===== verification/RingSpsc.v ===== *)
(** * RingSpsc: the ring's two threads, interleaved

    [reac_ring_write], [reac_ring_read_planar] and [reac_ring_trim] of
    [transport/src/reac_ring.c] run on two threads at once. Here one row of the
    ring is replayed at the grain of the shared accesses: a producer that, when the
    source narrows past the row, clears it slot by slot, then reads the tail once,
    stores its samples one at a time and publishes the head; a consumer that reads
    the head once, loads its samples one at a time (or drops them unread) and
    publishes the tail; in any order of steps. The accesses are sequentially
    consistent: the source pairs each publication (release) with the other side's
    read of it (acquire), so a slot's plain stores are visible to whoever saw the
    index move past it. The stores of the clear are not paired with anything, and
    the last section shows them racing the loads of the consumer. *)

From stdpp Require Import fin_sets gmap.
From S2P Require Import Prelude Sample Ring.
Local Open Scope Z_scope.

(** The locals of a write between its two shared accesses: the head it started
    from, the position and index of the next store, the samples that fit. *)
Record writer := Writer { w_h : Z; w_pos : Z; w_s : nat; w_src : list f32 }.

(** Where the producer is: clearing the row of a source that narrowed, with the
    slots the [memset] still has to clear; about to read the tail; or writing. The
    flag says whether the source fills this row. *)
Inductive producer :=
| PIdle
| PClear (todo : gset nat) (n : nat)
| PFree (wide : bool) (src : list f32)
| PWrite (wide : bool) (w : writer).

(** The locals of a read: the tail, the position and index of the next load, the
    number of real samples, and the output so far. *)
Record reader := Reader { d_t : Z; d_pos : Z; d_s : nat; d_real : nat; d_out : list f32 }.
Inductive consumer := CIdle | CRead (d : reader) | CTrim (t drop : Z).

(** One row; [sp_filled] is [c < wrote_channels] for the row [c]. *)
Record spsc := Spsc {
  sp_slot : list f32; sp_head : Z; sp_tail : Z; sp_filled : bool; sp_prod : producer; sp_cons : consumer
}.

Section Steps.
Context (k : Z).
Local Notation mask := (2 ^ k - 1).

Definition sp_readable (s : spsc) : Z := Z.land (u32 (sp_head s - sp_tail s)) mask.

Definition set_prod (s : spsc) (p : producer) : spsc :=
  Spsc (sp_slot s) (sp_head s) (sp_tail s) (sp_filled s) p (sp_cons s).
Definition set_cons (s : spsc) (c : consumer) : spsc :=
  Spsc (sp_slot s) (sp_head s) (sp_tail s) (sp_filled s) (sp_prod s) c.

(** The entry of a write of [src] per row, by a source that fills this row
    ([wide]) or not. *)
Definition p_narrows (s : spsc) (wide : bool) : bool := negb wide && sp_filled s.
Definition p_enter (s : spsc) (wide : bool) (src : list f32) : spsc :=
  if p_narrows s wide then set_prod s (PClear (set_seq 0 (Z.to_nat (2 ^ k))) (length src))
  else Spsc (sp_slot s) (sp_head s) (sp_tail s) wide (PFree wide src) (sp_cons s).

(** One slot of the [memset], and its end. *)
Definition p_clear (s : spsc) (todo : gset nat) (n i : nat) : spsc :=
  Spsc (<[i := f32_zero]> (sp_slot s)) (sp_head s) (sp_tail s) (sp_filled s)
    (PClear (todo ∖ {[i]}) n) (sp_cons s).
Definition p_cleared (s : spsc) (n : nat) : spsc :=
  Spsc (sp_slot s) (sp_head s) (sp_tail s) false (PFree false (replicate n f32_zero)) (sp_cons s).

(** The tail is read: what fits is decided. A row the source does not fill gets
    the silence it holds. *)
Definition p_start (s : spsc) (wide : bool) (src : list f32) : spsc :=
  let free_slots := u32 (mask - sp_readable s) in
  let src := if wide then src else replicate (length src) f32_zero in
  set_prod s (PWrite wide (Writer (sp_head s) (sp_head s) 0 (take (Z.to_nat free_slots) src))).

Definition p_store (s : spsc) (w : writer) (x : f32) : spsc :=
  Spsc (<[Z.to_nat (w_pos w) := x]> (sp_slot s)) (sp_head s) (sp_tail s) (sp_filled s)
    (PWrite true (Writer (w_h w) (Z.land (w_pos w + 1) mask) (S (w_s w)) (w_src w))) (sp_cons s).

Definition p_publish (s : spsc) (w : writer) : spsc :=
  Spsc (sp_slot s) (Z.land (w_h w + zlen (w_src w)) mask) (sp_tail s) (sp_filled s) PIdle (sp_cons s).

Definition c_start (s : spsc) (n : nat) : spsc :=
  set_cons s (CRead (Reader (sp_tail s) (sp_tail s) 0 (Nat.min (Z.to_nat (sp_readable s)) n) [])).

Definition c_load (s : spsc) (d : reader) : spsc :=
  set_cons s (CRead (Reader (d_t d) (Z.land (d_pos d + 1) mask) (S (d_s d)) (d_real d)
                       (d_out d ++ [row_at (sp_slot s) (d_pos d)]))).

Definition c_publish (s : spsc) (d : reader) : spsc :=
  Spsc (sp_slot s) (sp_head s) (Z.land (d_t d + Z.of_nat (d_real d)) mask) (sp_filled s) (sp_prod s) CIdle.

(** [reac_ring_trim]: the head is read, then the tail is moved past the oldest. *)
Definition c_trim (s : spsc) (keep : Z) : spsc :=
  if sp_readable s <=? keep then s else set_cons s (CTrim (sp_tail s) (sp_readable s - keep)).
Definition c_trimmed (s : spsc) (t drop : Z) : spsc :=
  Spsc (sp_slot s) (sp_head s) (Z.land (t + drop) mask) (sp_filled s) (sp_prod s) CIdle.

(** ** Histories

    [acc]: the samples of the completed writes, each with whether the source has
    narrowed past the row while it was queued. [del]: what became of them, in
    order: the value a completed read delivered, or [None] for one dropped unread. *)
Definition history : Type := list (f32 * bool).

Definition marked (e : f32 * bool) : f32 * bool := (e.1, true).
(** A narrowing marks what is not yet taken. *)
Definition mark (acc : history) (del : list (option f32)) : history :=
  take (length del) acc ++ (marked <$> drop (length del) acc).

Inductive spsc_reach : spsc → history → list (option f32) → Prop :=
| sp_init : spsc_reach (Spsc (silence (2 ^ k)) 0 0 false PIdle CIdle) [] []
| sp_p_enter s acc del wide src :
    spsc_reach s acc del → sp_prod s = PIdle →
    spsc_reach (p_enter s wide src) (if p_narrows s wide then mark acc del else acc) del
| sp_p_clear s acc del todo n i :
    spsc_reach s acc del → sp_prod s = PClear todo n → i ∈ todo → spsc_reach (p_clear s todo n i) acc del
| sp_p_cleared s acc del todo n :
    spsc_reach s acc del → sp_prod s = PClear todo n → todo = ∅ → spsc_reach (p_cleared s n) acc del
| sp_p_start s acc del wide src :
    spsc_reach s acc del → sp_prod s = PFree wide src → spsc_reach (p_start s wide src) acc del
| sp_p_store s acc del w x :
    spsc_reach s acc del → sp_prod s = PWrite true w → w_src w !! w_s w = Some x →
    spsc_reach (p_store s w x) acc del
| sp_p_publish s acc del wide w :
    spsc_reach s acc del → sp_prod s = PWrite wide w → (wide = true → w_s w = length (w_src w)) →
    spsc_reach (p_publish s w) (acc ++ ((λ x, (x, false)) <$> w_src w)) del
| sp_c_start s acc del n :
    spsc_reach s acc del → sp_cons s = CIdle → spsc_reach (c_start s n) acc del
| sp_c_load s acc del d :
    spsc_reach s acc del → sp_cons s = CRead d → (d_s d < d_real d)%nat → spsc_reach (c_load s d) acc del
| sp_c_publish s acc del d :
    spsc_reach s acc del → sp_cons s = CRead d → d_s d = d_real d →
    spsc_reach (c_publish s d) acc (del ++ (Some <$> d_out d))
| sp_c_trim s acc del keep :
    spsc_reach s acc del → sp_cons s = CIdle → 0 ≤ keep → spsc_reach (c_trim s keep) acc del
| sp_c_trimmed s acc del t drop :
    spsc_reach s acc del → sp_cons s = CTrim t drop →
    spsc_reach (c_trimmed s t drop) acc (del ++ replicate (Z.to_nat drop) None).

(** What a delivery may make of an accepted sample: itself; silence too when the
    source narrowed past the row before it was taken. *)
Definition delivered (e : f32 * bool) (v : f32) : Prop := v = e.1 ∨ e.2 = true ∧ v = f32_zero.
Definition became (e : f32 * bool) (v : option f32) : Prop :=
  match v with Some v => delivered e v | None => True end.
(** What a queued sample reads as once the clear has run. *)
Definition settled (e : f32 * bool) : f32 := if e.2 then f32_zero else e.1.

(** The slots the next access of each thread may touch. *)
Definition stores_to (s : spsc) (i : nat) : Prop :=
  match sp_prod s with
  | PClear todo _ => i ∈ todo
  | PWrite true w => (w_s w < length (w_src w))%nat ∧ i = Z.to_nat (w_pos w)
  | _ => False
  end.
Definition loads_from (s : spsc) (i : nat) : Prop :=
  match sp_cons s with CRead d => (d_s d < d_real d)%nat ∧ i = Z.to_nat (d_pos d) | _ => False end.
Definition clearing (s : spsc) : Prop := match sp_prod s with PClear _ _ => True | _ => False end.

(** * Properties *)

Context (Hk : 1 ≤ k ≤ 31).
Local Notation cap := (2 ^ k).

Lemma not_clearing s p : sp_prod s = p → match p with PClear _ _ => False | _ => True end → ¬ clearing s.
Proof. unfold clearing. intros ->. by destruct p; auto. Qed.

Lemma window_insert_out row t len m x :
  0 ≤ t < cap → len ≤ m < cap → window k (<[Z.to_nat ((t + m) mod cap) := x]> row) t len = window k row t len.
Proof.
  intros Ht Hm. apply list_eq. intros i. rewrite !window_lookup. case_decide as Hi; [|done].
  unfold row_at. rewrite list_lookup_insert_ne; [done|]. intros E.
  pose proof (cap_bounds k Hk). pose proof (Z.mod_pos_bound (t + m) cap ltac:(lia)).
  pose proof (Z.mod_pos_bound (t + Z.of_nat i) cap ltac:(lia)).
  assert (m = Z.of_nat i); [|lia]. apply (slot_inj k Hk t); lia.
Qed.

Lemma window_snoc row h d x :
  zlen row = cap → 0 ≤ h < cap → 0 ≤ d → d + 1 < cap →
  window k (<[Z.to_nat ((h + d) mod cap) := x]> row) h (d + 1) = window k row h d ++ [x].
Proof. intros. by apply (window_store k Hk row h d [x]). Qed.

Lemma window_split row t len w :
  0 ≤ len → 0 ≤ w → window k row t (len + w) = window k row t len ++ window k row ((t + len) mod cap) w.
Proof.
  intros. replace w with (len + w - len) at 2 by lia. rewrite window_drop by lia.
  rewrite (window_take k row t (len + w) len) by lia. by rewrite take_drop.
Qed.

Lemma zlen_silence_cap : zlen (silence cap) = cap.
Proof. rewrite zlen_silence. pose proof (cap_bounds k Hk). lia. Qed.

(** A cleared slot reads as it was or as silence, wherever it is. *)
Lemma window_clear row t len i q :
  Forall (λ e : f32 * bool, e.2 = true) q → Forall2 delivered q (window k row t len) →
  Forall2 delivered q (window k (<[i := f32_zero]> row) t len).
Proof.
  intros Hm H. apply Forall2_same_length_lookup. apply Forall2_same_length_lookup in H as [Hl H].
  split; [rewrite Hl; unfold window; by rewrite !length_fmap|].
  intros j e v He Hv. pose proof (H j e) as Hj. rewrite window_lookup in Hv, Hj.
  case_decide; [|done]. injection Hv as <-. unfold row_at in *.
  destruct (decide (i = Z.to_nat ((t + Z.of_nat j) mod cap))) as [->|Hne].
  - right. split; [exact (Forall_lookup_1 _ _ _ _ Hm He)|].
    destruct (decide (Z.to_nat ((t + Z.of_nat j) mod cap) < length row)%nat).
    + by rewrite list_lookup_insert_eq.
    + by rewrite lookup_ge_None_2 by (rewrite length_insert; lia).
  - rewrite list_lookup_insert_ne by done. by apply Hj.
Qed.

Lemma delivered_mark q l : Forall2 delivered q l → Forall2 delivered (marked <$> q) l.
Proof.
  intros H. apply Forall2_fmap_l. eapply Forall2_impl; [exact H|]. intros [x b] v [?|[? ?]]; [by left|by right].
Qed.
Lemma marked_mark q : Forall (λ e : f32 * bool, e.2 = true) (marked <$> q).
Proof. apply Forall_fmap, Forall_true. by intros []. Qed.
Lemma settled_marked q : Forall (λ e : f32 * bool, e.2 = true) q → settled <$> q = silence (zlen q).
Proof.
  induction 1 as [|[x b] q Hb _ IH]; [done|]. simpl in Hb. subst b. rewrite fmap_cons, IH. unfold settled, silence. simpl.
  unfold zlen. simpl length. by rewrite !Nat2Z.id.
Qed.
Lemma settled_delivered q : Forall2 delivered q (settled <$> q).
Proof. induction q as [|[x []] q IH]; [constructor|..]; (constructor; [by (right + left)|done]). Qed.

(** The samples queued, the slots being filled, the samples being taken. *)
Record spsc_inv (s : spsc) (acc : history) (del : list (option f32)) (len : Z) (q : history) : Prop := {
  si_slot : zlen (sp_slot s) = cap; si_tail : 0 ≤ sp_tail s < cap; si_len : 0 ≤ len < cap;
  si_head : sp_head s = (sp_tail s + len) mod cap;
  si_acc : ∃ dn, acc = dn ++ q ∧ Forall2 became dn del;
  si_q : zlen q = len;
  si_vals : Forall2 delivered q (window k (sp_slot s) (sp_tail s) len);
  si_settled : ¬ clearing s → window k (sp_slot s) (sp_tail s) len = settled <$> q;
  si_dry : sp_filled s = false → sp_slot s = silence cap;
  si_prod : match sp_prod s with
    | PIdle => True
    | PClear todo _ => sp_filled s = true ∧ Forall (λ e, e.2 = true) q ∧
        (∀ i, (i < Z.to_nat cap)%nat → i ∉ todo → sp_slot s !! i = Some f32_zero)
    | PFree wide _ => sp_filled s = wide
    | PWrite wide w => sp_filled s = wide ∧ w_h w = sp_head s ∧ len + zlen (w_src w) < cap ∧
        (w_s w ≤ length (w_src w))%nat ∧ w_pos w = (sp_head s + Z.of_nat (w_s w)) mod cap ∧
        (if wide then window k (sp_slot s) (sp_head s) (Z.of_nat (w_s w)) = take (w_s w) (w_src w)
         else w_src w = silence (zlen (w_src w)))
    end;
  si_cons : match sp_cons s with
    | CIdle => True
    | CRead d => d_t d = sp_tail s ∧ Z.of_nat (d_real d) ≤ len ∧ (d_s d ≤ d_real d)%nat ∧
        d_pos d = (sp_tail s + Z.of_nat (d_s d)) mod cap ∧ Forall2 delivered (take (d_s d) q) (d_out d)
    | CTrim t drop => t = sp_tail s ∧ 0 ≤ drop ≤ len
    end
}.

Lemma sp_readable_len s acc del len q : spsc_inv s acc del len q → sp_readable s = len.
Proof.
  intros []. unfold sp_readable. rewrite wrapped_distance, si_head0, Zminus_mod_idemp_l by done.
  rewrite Z.mod_small; lia.
Qed.

Lemma inv_length s acc del len q dn : spsc_inv s acc del len q → acc = dn ++ q → Forall2 became dn del →
  mark acc del = dn ++ (marked <$> q).
Proof. intros _ -> H. apply Forall2_length in H. unfold mark. rewrite <- H. by rewrite take_app_length, drop_app_length. Qed.

Lemma inv_init : spsc_inv (Spsc (silence cap) 0 0 false PIdle CIdle) [] [] 0 [].
Proof.
  pose proof (cap_bounds k Hk). split; simpl; try done; try lia;
    first [apply zlen_silence_cap|by exists []|constructor].
Qed.

Lemma inv_enter s acc del len q wide src :
  spsc_inv s acc del len q → sp_prod s = PIdle →
  ∃ q', spsc_inv (p_enter s wide src) (if p_narrows s wide then mark acc del else acc) del len q'.
Proof.
  intros HI Hp. pose proof HI as HI'. destruct HI. destruct si_acc0 as (dn & Ea & Hd). unfold p_enter.
  destruct (p_narrows s wide) eqn:En.
  - unfold p_narrows in En. apply andb_true_iff in En as [_ Ef].
    exists (marked <$> q). rewrite (inv_length s acc del len q dn) by done.
    split; simpl; try done.
    + by exists dn.
    + by rewrite zlen_fmap.
    + by apply delivered_mark.
    + split; [exact Ef|]. split; [apply marked_mark|]. intros i Hi Hn. exfalso. apply Hn.
      apply elem_of_set_seq. split; [apply Nat.le_0_l|exact Hi].
    + destruct (sp_cons s); try done. destruct si_cons0 as (? & ? & ? & ? & ?).
      rewrite <- fmap_take. split_and!; try done. by apply delivered_mark.
  - exists q. split; simpl; try done.
    + by exists dn.
    + intros _. apply si_settled0. by eapply not_clearing.
    + intros ->. apply si_dry0. unfold p_narrows in En. simpl in En. done.
Qed.

Lemma inv_clear s acc del len q todo n i :
  spsc_inv s acc del len q → sp_prod s = PClear todo n → i ∈ todo → spsc_inv (p_clear s todo n i) acc del len q.
Proof.
  intros [] Hp Hi. rewrite Hp in *. destruct si_prod0 as (Hf & Hm & Hz). split; simpl; try done.
  - unfold zlen in *. by rewrite length_insert.
  - by apply window_clear.
  - intros H. congruence.
  - split_and!; [done|done|]. intros j Hj Hn. destruct (decide (i = j)) as [->|Hne].
    + apply list_lookup_insert_eq. unfold zlen in *. lia.
    + rewrite list_lookup_insert_ne by done. apply Hz; [done|]. intros Hin. apply Hn, elem_of_difference.
      split; [done|]. by intros ->%elem_of_singleton.
Qed.

Lemma inv_cleared s acc del len q n :
  spsc_inv s acc del len q → sp_prod s = PClear ∅ n → spsc_inv (p_cleared s n) acc del len q.
Proof.
  intros [] Hp. rewrite Hp in *. destruct si_prod0 as (Hf & Hm & Hz).
  assert (E : sp_slot s = silence cap).
  { apply list_eq. intros i. unfold silence. destruct (decide (i < Z.to_nat cap)%nat).
    - rewrite Hz by set_solver. by rewrite lookup_replicate_2.
    - rewrite !lookup_ge_None_2; [done|rewrite length_replicate; lia|unfold zlen in *; lia]. }
  split; simpl; try done. intros _. rewrite E, window_silence, settled_marked by done. by rewrite si_q0.
Qed.

Lemma inv_start s acc del len q wide src :
  spsc_inv s acc del len q → sp_prod s = PFree wide src → spsc_inv (p_start s wide src) acc del len q.
Proof.
  intros HI Hp. pose proof (sp_readable_len _ _ _ _ _ HI) as Hr. pose proof (cap_bounds k Hk).
  destruct HI. rewrite Hp in *.
  assert (¬ clearing s) as Hn by (by eapply not_clearing).
  split; simpl; try done; [intros _; by apply si_settled0|].
  rewrite Hr. unfold u32. rewrite Z.mod_small by lia. set (l := if wide then src else _).
  assert (zlen (take (Z.to_nat (mask - len)) l) ≤ mask - len) by (unfold zlen; rewrite length_take; lia).
  split_and!; try done; try lia.
  - rewrite Z.add_0_r, si_head0. symmetry. rewrite Z.mod_mod; lia.
  - destruct wide; [done|]. subst l. rewrite take_replicate. unfold silence. f_equal. unfold zlen. rewrite length_replicate. lia.
Qed.

Lemma inv_store s acc del len q w x :
  spsc_inv s acc del len q → sp_prod s = PWrite true w → w_src w !! w_s w = Some x →
  spsc_inv (p_store s w x) acc del len q.
Proof.
  intros [] Hp Hx. rewrite Hp in *. destruct si_prod0 as (Hf & Hh & Hfit & Hs & Hpos & Hwin).
  apply lookup_lt_Some in Hx as Hlt. unfold zlen in Hfit. pose proof (cap_bounds k Hk).
  assert (Hq : window k (<[Z.to_nat (w_pos w):=x]> (sp_slot s)) (sp_tail s) len = window k (sp_slot s) (sp_tail s) len).
  { rewrite Hpos, si_head0, Zplus_mod_idemp_l, <- Z.add_assoc. apply window_insert_out; lia. }
  assert (¬ clearing s) as Hn by (by eapply not_clearing).
  split; simpl; try done; rewrite ?Hq; try done.
  - unfold zlen in *. by rewrite length_insert.
  - intros _. by apply si_settled0.
  - intros H1. congruence.
  - split_and!; try done; try lia.
    + rewrite land_mask, Hpos, Zplus_mod_idemp_l by done. f_equal. lia.
    + rewrite Hpos. replace (Z.of_nat (S (w_s w))) with (Z.of_nat (w_s w) + 1) by lia.
      rewrite window_snoc; [|done|rewrite si_head0; apply Z.mod_pos_bound; lia|lia|lia].
      rewrite Hwin. by rewrite (take_S_r _ _ x).
Qed.

Lemma inv_publish s acc del len q wide w :
  spsc_inv s acc del len q → sp_prod s = PWrite wide w → (wide = true → w_s w = length (w_src w)) →
  ∃ q', spsc_inv (p_publish s w) (acc ++ ((λ x, (x, false)) <$> w_src w)) del (len + zlen (w_src w)) q'.
Proof.
  intros [] Hp Hd. rewrite Hp in *. destruct si_prod0 as (Hf & Hh & Hfit & _ & _ & Hwin).
  assert (¬ clearing s) as Hn by (by eapply not_clearing).
  pose proof (zlen_nonneg (w_src w)). pose proof (cap_bounds k Hk). destruct si_acc0 as (dn & -> & Hb).
  assert (Hnew : window k (sp_slot s) (sp_head s) (zlen (w_src w)) = w_src w).
  { destruct wide; [rewrite Hd in Hwin by done; rewrite take_ge in Hwin by lia; exact Hwin|].
    rewrite si_dry0 by done. by rewrite window_silence, <- Hwin. }
  assert (Hw : window k (sp_slot s) (sp_tail s) (len + zlen (w_src w)) =
               settled <$> (q ++ ((λ x, (x, false)) <$> w_src w))).
  { rewrite window_split, fmap_app, si_settled0 by (done || lia). f_equal.
    rewrite <- si_head0, Hnew, <- list_fmap_compose. symmetry. apply list_fmap_id. }
  exists (q ++ ((λ x, (x, false)) <$> w_src w)). split; simpl; try done; try lia.
  - rewrite land_mask, Hh, si_head0, Zplus_mod_idemp_l by done. f_equal. lia.
  - exists dn. by rewrite <- app_assoc.
  - by rewrite zlen_app, zlen_fmap, si_q0.
  - rewrite Hw. apply settled_delivered.
  - destruct (sp_cons s); [done| |lia]. destruct si_cons0 as (? & ? & ? & ? & ?). split_and!; try done; [lia|].
    rewrite take_app_le; [done|]. unfold zlen in *. lia.
Qed.

Lemma inv_cstart s acc del len q n :
  spsc_inv s acc del len q → spsc_inv (c_start s n) acc del len q.
Proof.
  intros HI. pose proof (sp_readable_len _ _ _ _ _ HI) as Hr. destruct HI. split; simpl; try done.
  rewrite Hr. split_and!; try done; try lia. rewrite Z.add_0_r. symmetry. apply Z.mod_small. lia.
Qed.

Lemma inv_load s acc del len q d :
  spsc_inv s acc del len q → sp_cons s = CRead d → (d_s d < d_real d)%nat → spsc_inv (c_load s d) acc del len q.
Proof.
  intros [] Hc Hlt. rewrite Hc in *. destruct si_cons0 as (Ht & Hl & Hs & Hpos & Hout). pose proof (cap_bounds k Hk).
  split; simpl; try done. split_and!; try done; try lia.
  - rewrite land_mask, Hpos, Zplus_mod_idemp_l by done. f_equal. lia.
  - destruct (lookup_lt_is_Some_2 q (d_s d)) as [e He]; [unfold zlen in *; lia|].
    rewrite (take_S_r _ _ e) by done. apply Forall2_app; [done|]. constructor; [|constructor].
    apply Forall2_same_length_lookup in si_vals0 as [_ Hv]. apply (Hv (d_s d)); [done|].
    rewrite window_lookup, decide_True by lia. by rewrite Hpos.
Qed.

(** The tail moves past the [n] oldest. *)
Lemma inv_taken s acc del len q n vs :
  spsc_inv s acc del len q → (n ≤ length q)%nat → Forall2 became (take n q) vs →
  spsc_inv (Spsc (sp_slot s) (sp_head s) (Z.land (sp_tail s + Z.of_nat n) mask) (sp_filled s) (sp_prod s) CIdle)
    acc (del ++ vs) (len - Z.of_nat n) (drop n q).
Proof.
  intros [] Hn Hv. destruct si_acc0 as (dn & -> & Hb). pose proof (cap_bounds k Hk).
  assert (Htl : Z.land (sp_tail s + Z.of_nat n) mask = (sp_tail s + Z.of_nat n) mod cap) by (by rewrite land_mask).
  unfold zlen in si_q0.
  assert (Hw : window k (sp_slot s) ((sp_tail s + Z.of_nat n) mod cap) (len - Z.of_nat n)
               = drop n (window k (sp_slot s) (sp_tail s) len)) by (rewrite window_drop by lia; by rewrite Nat2Z.id).
  split; simpl; rewrite ?Htl, ?Hw; try done; try lia.
  - rewrite si_head0, Zplus_mod_idemp_l. f_equal. lia.
  - exists (dn ++ take n q). split; [|by apply Forall2_app]. by rewrite <- app_assoc, take_drop.
  - unfold zlen. rewrite length_drop. lia.
  - by apply Forall2_drop.
  - intros H1. rewrite fmap_drop. f_equal. by apply si_settled0.
  - destruct (sp_prod s); try done.
    + destruct si_prod0 as (? & ? & ?). split_and!; try done. by apply Forall_drop.
    + destruct si_prod0 as (? & ? & ? & ? & ? & ?). split_and!; (done || lia).
Qed.

Lemma inv_cpublish s acc del len q d :
  spsc_inv s acc del len q → sp_cons s = CRead d → d_s d = d_real d →
  ∃ len' q', spsc_inv (c_publish s d) acc (del ++ (Some <$> d_out d)) len' q'.
Proof.
  intros HI Hc Hd. pose proof HI as HI'. destruct HI'. rewrite Hc in *. destruct si_cons0 as (Ht & Hl & _ & _ & Hout).
  exists (len - Z.of_nat (d_real d)), (drop (d_real d) q). unfold c_publish. rewrite Ht.
  apply inv_taken; [done|unfold zlen in *; lia|]. rewrite Hd in Hout. apply Forall2_fmap_r.
  eapply Forall2_impl; [exact Hout|]. done.
Qed.

Lemma inv_trim s acc del len q keep :
  spsc_inv s acc del len q → 0 ≤ keep → spsc_inv (c_trim s keep) acc del len q.
Proof.
  intros HI Hkp. pose proof (sp_readable_len _ _ _ _ _ HI) as Hr. unfold c_trim. rewrite Hr.
  destruct (len <=? keep) eqn:E; [done|]. destruct HI. split; simpl; try done. lia.
Qed.

Lemma inv_trimmed s acc del len q t drop :
  spsc_inv s acc del len q → sp_cons s = CTrim t drop →
  ∃ len' q', spsc_inv (c_trimmed s t drop) acc (del ++ replicate (Z.to_nat drop) None) len' q'.
Proof.
  intros HI Hc. pose proof HI as HI'. destruct HI'. rewrite Hc in *. destruct si_cons0 as (-> & Hd).
  eexists _, _. unfold c_trimmed. replace drop with (Z.of_nat (Z.to_nat drop)) at 1 by lia.
  apply inv_taken; [done|unfold zlen in *; lia|]. apply Forall2_same_length_lookup.
  split; [rewrite length_take, length_replicate; unfold zlen in *; lia|].
  by intros i e v _ [-> _]%lookup_replicate_1.
Qed.

Lemma spsc_reach_inv s acc del : spsc_reach s acc del → ∃ len q, spsc_inv s acc del len q.
Proof.
  induction 1 as [|s acc del wide src _ (len & q & IH) Hp|s acc del todo n i _ (len & q & IH) Hp Hi
                 |s acc del todo n _ (len & q & IH) Hp He|s acc del wide src _ (len & q & IH) Hp
                 |s acc del w x _ (len & q & IH) Hp Hx|s acc del wide w _ (len & q & IH) Hp Hd
                 |s acc del n _ (len & q & IH) Hp|s acc del d _ (len & q & IH) Hp Hx|s acc del d _ (len & q & IH) Hp Hd
                 |s acc del keep _ (len & q & IH) Hp Hkp|s acc del t drop _ (len & q & IH) Hp].
  - exists 0, []. exact inv_init.
  - exists len. by eapply inv_enter.
  - exists len, q. by eapply inv_clear.
  - exists len, q. subst todo. by eapply inv_cleared.
  - exists len, q. by eapply inv_start.
  - exists len, q. by eapply inv_store.
  - eexists. by eapply inv_publish.
  - exists len, q. by eapply inv_cstart.
  - exists len, q. by eapply inv_load.
  - by eapply inv_cpublish.
  - exists len, q. by eapply inv_trim.
  - by eapply inv_trimmed.
Qed.

(** Outside a clear the threads touch different slots. *)
Lemma slots_apart s acc del len q i :
  spsc_inv s acc del len q → stores_to s i → loads_from s i → clearing s.
Proof.
  intros [] Hst Hld. unfold stores_to, loads_from, clearing in *. pose proof (cap_bounds k Hk).
  destruct (sp_prod s) as [|todo n|wide src|[] w]; try done.
  destruct (sp_cons s) as [|d|t drop]; try done.
  destruct si_prod0 as (_ & _ & Hfit & _ & Hpos & _). destruct si_cons0 as (_ & Hl & _ & Hpos' & _).
  destruct Hst as [Hs ->], Hld as [Hd E]. exfalso. rewrite Hpos, Hpos', si_head0, Zplus_mod_idemp_l in E.
  pose proof (Z.mod_pos_bound (sp_tail s + len + Z.of_nat (w_s w)) cap ltac:(lia)).
  pose proof (Z.mod_pos_bound (sp_tail s + Z.of_nat (d_s d)) cap ltac:(lia)).
  unfold zlen in Hfit. assert (len + Z.of_nat (w_s w) = Z.of_nat (d_s d)); [|lia].
  apply (slot_inj k Hk (sp_tail s)); [lia|lia|]. rewrite Z.add_assoc. lia.
Qed.
End Steps.


(** A write of two samples into a ring of two slots accepts one; while the next
    write is waiting to store, a read has loaded it. *)
Definition demo_spsc : spsc :=
  c_load 1 (c_start 1 (p_publish 1
    (p_store 1 (p_start 1 (p_enter 1 (Spsc (silence 2) 0 0 false PIdle CIdle) true [f32_2p23; f32_zero])
                  true [f32_2p23; f32_zero])
       (Writer 0 0 0 [f32_2p23]) f32_2p23) (Writer 0 1 1 [f32_2p23])) 5) (Reader 0 0 0 1 []).

Lemma demo_spsc_reach : spsc_reach 1 demo_spsc [(f32_2p23, false)] [].
Proof.
  unfold demo_spsc. apply sp_c_load; [|reflexivity|simpl; lia]. apply sp_c_start; [|reflexivity].
  apply (sp_p_publish 1 _ [] [] true (Writer 0 1 1 [f32_2p23])); [|reflexivity|reflexivity].
  apply sp_p_store; [|reflexivity|reflexivity]. apply sp_p_start; [|reflexivity].
  apply (sp_p_enter 1 (Spsc _ 0 0 false PIdle CIdle) [] [] true); [apply sp_init|reflexivity].
Qed.


(** ** The clear races the reader *)

(** A sample queued, a read about to load it, and a write by a source that no
    longer fills the row: both threads' next access is slot 0, one a store. *)
Definition queued_spsc : spsc :=
  c_start 1 (p_publish 1
    (p_store 1 (p_start 1 (p_enter 1 (Spsc (silence 2) 0 0 false PIdle CIdle) true [f32_2p23]) true [f32_2p23])
       (Writer 0 0 0 [f32_2p23]) f32_2p23) (Writer 0 1 1 [f32_2p23])) 1.
Definition racing_spsc : spsc := p_enter 1 queued_spsc false [f32_zero].

Lemma queued_spsc_reach : spsc_reach 1 queued_spsc [(f32_2p23, false)] [].
Proof.
  unfold queued_spsc. apply sp_c_start; [|reflexivity].
  apply (sp_p_publish 1 _ [] [] true (Writer 0 1 1 [f32_2p23])); [|reflexivity|reflexivity].
  apply sp_p_store; [|reflexivity|reflexivity]. apply sp_p_start; [|reflexivity].
  apply (sp_p_enter 1 (Spsc _ 0 0 false PIdle CIdle) [] [] true); [apply sp_init|reflexivity].
Qed.

Lemma narrowing_races :
  spsc_reach 1 racing_spsc [(f32_2p23, true)] [] ∧ stores_to racing_spsc 0 ∧ loads_from racing_spsc 0.
Proof.
  split_and!; [|by vm_compute|by split; [vm_compute; lia|]].
  exact (sp_p_enter 1 queued_spsc [(f32_2p23, false)] [] false [f32_zero] queued_spsc_reach eq_refl).
Qed.
