(* ===== verification/FrameRing.v ===== *)
(** * FrameRing: the queue of encoded frames between the graph and the pacer

    Models the frame ring of [transport/src/reac_pacer.c] (lines 38 to 215):
    whole frames in fixed slots, the depth guard that trims it and the watermarks
    the guard works to. The producer owns the head and the consumer the tail, as
    in [Ring]; here each call runs whole. *)

From S2P Require Import Prelude Sample Ring.
Local Open Scope Z_scope.

(** One row of [slot_sz] bytes per slot, and the length of the frame in it. *)
Record reac_frame_ring := FrameRing {
  fr_buf : list (list Z); fr_len : list Z; fr_slots : Z; fr_mask : Z; fr_slot_sz : Z;
  fr_head : Z; fr_tail : Z; fr_overruns : Z; fr_underruns : Z
}.

Definition REAC_PACER_SLOT_SZ : Z := 2048.

(** [None] is the -1 return: an allocation failed. *)
Definition reac_frame_ring_init (slots slot_sz : Z) (alloc_ok : bool) : option reac_frame_ring :=
  let n := next_pow2 slots in
  if negb alloc_ok then None
  else Some (FrameRing (replicate (Z.to_nat n) (zeros slot_sz)) (zeros n) n (u32 (n - 1)) slot_sz 0 0 0 0).

Definition reac_frame_ring_readable (r : reac_frame_ring) : Z :=
  Z.land (u32 (fr_head r - fr_tail r)) (fr_mask r).

(** [frame] is the caller's buffer of at least [n] bytes; the flag is the 1 return. *)
Definition reac_frame_ring_push (r : reac_frame_ring) (frame : list Z) (n : Z) : reac_frame_ring * bool :=
  let n := if fr_slot_sz r <? n then u16 (fr_slot_sz r) else n in
  let h := fr_head r in
  if Z.land (u32 (h + 1)) (fr_mask r) =? Z.land (fr_tail r) (fr_mask r) then
    (FrameRing (fr_buf r) (fr_len r) (fr_slots r) (fr_mask r) (fr_slot_sz r) h (fr_tail r)
       (u64 (fr_overruns r + 1)) (fr_underruns r), false)
  else
    let slot := Z.to_nat (Z.land h (fr_mask r)) in
    (FrameRing (alter (λ row, blit row 0 (slice frame 0 n)) slot (fr_buf r)) (<[slot := n]> (fr_len r))
       (fr_slots r) (fr_mask r) (fr_slot_sz r) (Z.land (u32 (h + 1)) (fr_mask r)) (fr_tail r)
       (fr_overruns r) (fr_underruns r), true).

(** The bytes copied out; none on an underrun. *)
Definition reac_frame_ring_pop (r : reac_frame_ring) : reac_frame_ring * list Z :=
  let t := fr_tail r in
  if Z.land t (fr_mask r) =? Z.land (fr_head r) (fr_mask r) then
    (FrameRing (fr_buf r) (fr_len r) (fr_slots r) (fr_mask r) (fr_slot_sz r) (fr_head r) t
       (fr_overruns r) (u64 (fr_underruns r + 1)), [])
  else
    let slot := Z.to_nat (Z.land t (fr_mask r)) in
    let n := default 0 (fr_len r !! slot) in
    (FrameRing (fr_buf r) (fr_len r) (fr_slots r) (fr_mask r) (fr_slot_sz r) (fr_head r)
       (Z.land (u32 (t + 1)) (fr_mask r)) (fr_overruns r) (fr_underruns r),
     slice (default [] (fr_buf r !! slot)) 0 n).

(** ** The depth guard *)

Definition REAC_PACER_GUARD_FLOOR_FRAMES : Z := 512.
Definition REAC_PACER_GUARD_FLOOR_MIN : Z := 96.
Definition REAC_PACER_GUARD_FLOOR_MAX : Z := 4096.
Definition REAC_PACER_GUARD_BURST_MULT : Z := 4.

(** The floor the tunable [v] resolves to; the code keeps the first answer. *)
Definition reac_pacer_guard_floor (v : Z) : Z :=
  if negb (v =? 0) && ((REAC_PACER_GUARD_FLOOR_MIN <=? v) && (v <=? REAC_PACER_GUARD_FLOOR_MAX)) then v
  else REAC_PACER_GUARD_FLOOR_FRAMES.

Definition reac_pacer_guard_high (v quantum_frames : Z) : Z :=
  let floor := reac_pacer_guard_floor v in
  let burst := u32 (REAC_PACER_GUARD_BURST_MULT * quantum_frames) in
  if floor <? burst then burst else floor.

Definition reac_frame_ring_trim_count (depth high target : Z) : Z :=
  if depth <=? high then 0 else if depth <=? target then 0 else depth - target.

Definition reac_frame_ring_trim (r : reac_frame_ring) (high target : Z) : reac_frame_ring * Z :=
  let drop := reac_frame_ring_trim_count (reac_frame_ring_readable r) high target in
  if drop =? 0 then (r, 0)
  else
    (FrameRing (fr_buf r) (fr_len r) (fr_slots r) (fr_mask r) (fr_slot_sz r) (fr_head r)
       (Z.land (u32 (fr_tail r + drop)) (fr_mask r)) (fr_overruns r) (fr_underruns r), drop).

(** * The ring is a bounded queue of frames *)

Record frame_queue := FrameQueue { fq_frames : list (list Z); fq_over : Z; fq_under : Z }.

Definition spec_push (cap sz : Z) (q : frame_queue) (frame : list Z) (n : Z) : frame_queue * bool :=
  if zlen (fq_frames q) =? cap - 1 then (FrameQueue (fq_frames q) (u64 (fq_over q + 1)) (fq_under q), false)
  else (FrameQueue (fq_frames q ++ [slice frame 0 (Z.min n sz)]) (fq_over q) (fq_under q), true).

Definition spec_pop (q : frame_queue) : frame_queue * list Z :=
  match fq_frames q with
  | [] => (FrameQueue [] (fq_over q) (u64 (fq_under q + 1)), [])
  | f :: l => (FrameQueue l (fq_over q) (fq_under q), f)
  end.

(** Past the high mark the oldest go, down to the target. *)
Definition spec_guard (q : frame_queue) (high target : Z) : frame_queue * Z :=
  let len := zlen (fq_frames q) in
  let gone := if (high <? len) && (target <? len) then len - target else 0 in
  (FrameQueue (drop (Z.to_nat gone) (fq_frames q)) (fq_over q) (fq_under q), gone).

Inductive frame_op := FPush (frame : list Z) (n : Z) | FPop | FTrim (high target : Z).
Inductive frame_out := Pushed (ok : bool) | Popped (frame : list Z) | Dropped (n : Z).

Definition frame_step (r : reac_frame_ring) (op : frame_op) : reac_frame_ring * frame_out :=
  match op with
  | FPush frame n => let '(r, ok) := reac_frame_ring_push r frame n in (r, Pushed ok)
  | FPop => let '(r, f) := reac_frame_ring_pop r in (r, Popped f)
  | FTrim high target => let '(r, n) := reac_frame_ring_trim r high target in (r, Dropped n)
  end.
Definition frame_spec_step (cap sz : Z) (q : frame_queue) (op : frame_op) : frame_queue * frame_out :=
  match op with
  | FPush frame n => let '(q, ok) := spec_push cap sz q frame n in (q, Pushed ok)
  | FPop => let '(q, f) := spec_pop q in (q, Popped f)
  | FTrim high target => let '(q, n) := spec_guard q high target in (q, Dropped n)
  end.

(** A pushed buffer holds the bytes it claims; the marks are [uint32_t]. *)
Definition frame_op_ok (op : frame_op) : Prop :=
  match op with
  | FPush frame n => 0 ≤ n < 65536 ∧ n ≤ zlen frame
  | FPop => True
  | FTrim high target => 0 ≤ high < 2 ^ 32 ∧ 0 ≤ target < 2 ^ 32
  end.

(** ** Refinement *)

Section Refines.
Context (k sz : Z) (Hk : 1 ≤ k ≤ 31) (Hsz : 0 < sz < 65536).
Local Notation cap := (2 ^ k).

Definition frame_at (r : reac_frame_ring) (i : Z) : list Z :=
  slice (default [] (fr_buf r !! Z.to_nat i)) 0 (default 0 (fr_len r !! Z.to_nat i)).

(** The [n] frames from slot [t] on. *)
Definition frames_from (r : reac_frame_ring) (t n : Z) : list (list Z) :=
  (λ j, frame_at r ((t + j) mod cap)) <$> zseq 0 n.

Record frame_refines (r : reac_frame_ring) (q : frame_queue) : Prop := {
  fn_mask : fr_mask r = cap - 1; fn_sz : fr_slot_sz r = sz;
  fn_rows : zlen (fr_buf r) = cap; fn_row : Forall (λ row, zlen row = sz) (fr_buf r);
  fn_lens : zlen (fr_len r) = cap;
  fn_head : fr_head r = (fr_tail r + zlen (fq_frames q)) mod cap; fn_tail : 0 ≤ fr_tail r < cap;
  fn_room : zlen (fq_frames q) < cap;
  fn_q : fq_frames q = frames_from r (fr_tail r) (zlen (fq_frames q));
  fn_over : fr_overruns r = fq_over q; fn_under : fr_underruns r = fq_under q
}.

Lemma zlen_frames_from r t n : zlen (frames_from r t n) = Z.max 0 n.
Proof using. unfold frames_from. by rewrite zlen_fmap, zlen_zseq. Qed.

Lemma frames_from_lookup r t n (j : nat) :
  frames_from r t n !! j = if decide (Z.of_nat j < n) then Some (frame_at r ((t + Z.of_nat j) mod cap)) else None.
Proof using.
  unfold frames_from, zseq. rewrite list_lookup_fmap. case_decide.
  - by rewrite lookup_seqZ_lt by lia.
  - by rewrite lookup_seqZ_ge by lia.
Qed.

Lemma land_low x : Z.land (u32 x) (cap - 1) = x mod cap.
Proof using Hk. rewrite land_mask by done. unfold u32. apply Z.mod_mod_divide, cap_divides, Hk. Qed.

Lemma land_small x : 0 ≤ x < cap → Z.land x (cap - 1) = x.
Proof using Hk. intros. rewrite land_mask by done. by apply Z.mod_small. Qed.

Lemma head_range r q : frame_refines r q → 0 ≤ fr_head r < cap.
Proof using Hk. intros []. rewrite fn_head0. apply Z.mod_pos_bound. pose proof (cap_bounds k Hk). lia. Qed.

Lemma frame_readable r q : frame_refines r q → reac_frame_ring_readable r = zlen (fq_frames q).
Proof using Hk.
  intros []. unfold reac_frame_ring_readable. rewrite fn_mask0, wrapped_distance by done.
  rewrite fn_head0, Zminus_mod_idemp_l, Z.mod_small; [lia|]. pose proof (zlen_nonneg (fq_frames q)). lia.
Qed.

(** Moving the tail over [n] frames drops them. *)
Lemma frames_drop r t len n :
  0 ≤ n ≤ len → frames_from r ((t + n) mod cap) (len - n) = drop (Z.to_nat n) (frames_from r t len).
Proof using Hk.
  intros Hn. pose proof (cap_bounds k Hk). apply list_eq. intros j. rewrite lookup_drop, !frames_from_lookup.
  repeat case_decide; try lia; [|done]. do 2 f_equal. rewrite Zplus_mod_idemp_l. f_equal. lia.
Qed.

Definition moved (r : reac_frame_ring) (tail over under : Z) : reac_frame_ring :=
  FrameRing (fr_buf r) (fr_len r) (fr_slots r) (fr_mask r) (fr_slot_sz r) (fr_head r) tail over under.

Lemma frames_moved r t o u a n : frames_from (moved r t o u) a n = frames_from r a n.
Proof using. done. Qed.

(** Consuming the [n] oldest frames. *)
Lemma refines_consume_frames r q n o u :
  frame_refines r q → 0 ≤ n ≤ zlen (fq_frames q) →
  frame_refines (moved r ((fr_tail r + n) mod cap) o u)
    (FrameQueue (drop (Z.to_nat n) (fq_frames q)) o u).
Proof using Hk.
  intros [] Hn. pose proof (cap_bounds k Hk).
  assert (Hlen : zlen (drop (Z.to_nat n) (fq_frames q)) = zlen (fq_frames q) - n)
    by (unfold zlen in *; rewrite length_drop; lia).
  split; simpl; try done; rewrite ?Hlen.
  - rewrite Zplus_mod_idemp_l, fn_head0. f_equal. lia.
  - apply Z.mod_pos_bound. lia.
  - lia.
  - rewrite frames_moved, fn_q0 at 1. by apply eq_sym, frames_drop.
Qed.

Lemma refines_counts r q o u :
  frame_refines r q → frame_refines (moved r (fr_tail r) o u) (FrameQueue (fq_frames q) o u).
Proof using. by intros []. Qed.

(** What the slots hold after a push, in the slot pushed and in the others. *)
Lemma frame_at_pushed r r' q frame n i :
  frame_refines r q → 0 ≤ n ≤ zlen frame → n ≤ sz → 0 ≤ i < cap →
  fr_buf r' = alter (λ row, blit row 0 (slice frame 0 n)) (Z.to_nat (fr_head r)) (fr_buf r) →
  fr_len r' = <[Z.to_nat (fr_head r) := n]> (fr_len r) →
  frame_at r' i = if i =? fr_head r then slice frame 0 n else frame_at r i.
Proof using Hk Hsz.
  intros HR Hn Hs Hi Eb El. pose proof (head_range r q HR) as Hh. destruct HR. unfold frame_at. rewrite Eb, El.
  destruct (i =? fr_head r) eqn:E.
  - assert (i = fr_head r) as -> by lia. rewrite list_lookup_alter_eq, list_lookup_insert_eq by (unfold zlen in *; lia).
    destruct (lookup_lt_is_Some_2 (fr_buf r) (Z.to_nat (fr_head r))) as [row Hrow]; [unfold zlen in *; lia|].
    rewrite Hrow. simpl. pose proof (Forall_lookup_1 _ _ _ _ fn_row0 Hrow) as Hz. simpl in Hz.
    assert (Hl : zlen (slice frame 0 n) = n) by (rewrite zlen_slice; lia).
    rewrite <- Hl at 2. apply slice_blit_in; lia.
  - by rewrite list_lookup_alter_ne, list_lookup_insert_ne by lia.
Qed.

Lemma refines_push r q frame n :
  frame_refines r q → 0 ≤ n < 65536 → n ≤ zlen frame →
  let '(r', ok) := reac_frame_ring_push r frame n in
  let '(q', ok') := spec_push cap sz q frame n in
  ok = ok' ∧ frame_refines r' q'.
Proof using Hk Hsz.
  intros HR Hn Hf. pose proof (head_range r q HR) as Hh. pose proof HR as []. pose proof (cap_bounds k Hk) as Hcap.
  pose proof (zlen_nonneg (fq_frames q)) as Hq.
  unfold reac_frame_ring_push, spec_push. cbv zeta. rewrite fn_mask0, fn_sz0, land_low, !land_small by (done || lia).
  replace (if sz <? n then u16 sz else n) with (Z.min n sz) by (unfold u16; destruct (sz <? n) eqn:?; lia).
  assert (Hfull : ((fr_head r + 1) mod cap =? fr_tail r) = (zlen (fq_frames q) =? cap - 1)).
  { rewrite fn_head0, Zplus_mod_idemp_l. destruct (zlen (fq_frames q) =? cap - 1) eqn:E.
    - apply Z.eqb_eq. assert (zlen (fq_frames q) = cap - 1) as -> by lia.
      replace (fr_tail r + (cap - 1) + 1) with (fr_tail r + 1 * cap) by lia.
      rewrite Z.mod_add by lia. by apply Z.mod_small.
    - apply Z.eqb_neq. intros He. apply Z.eqb_neq in E. apply E.
      assert (zlen (fq_frames q) + 1 = 0); [|lia]. apply (slot_inj k Hk (fr_tail r)); [lia|lia|].
      rewrite Z.add_0_r, Z.add_assoc, He. symmetry. by apply Z.mod_small. }
  rewrite Hfull. destruct (zlen (fq_frames q) =? cap - 1) eqn:E; (split; [done|]).
  { rewrite fn_over0, fn_under0. by split. }
  set (m := Z.min n sz). set (g := slice frame 0 m).
  assert (Hlen : zlen (fq_frames q ++ [g]) = zlen (fq_frames q) + 1) by (rewrite zlen_app; done).
  split; cbn [fr_buf fr_len fr_slots fr_mask fr_slot_sz fr_head fr_tail fr_overruns fr_underruns fq_frames fq_over fq_under];
    rewrite ?Hlen; try done; try lia.
  - unfold zlen in *. by rewrite length_alter.
  - apply Forall_alter; [done|]. intros row _ Hz. by rewrite zlen_blit.
  - unfold zlen in *. by rewrite length_insert.
  - rewrite fn_head0, Zplus_mod_idemp_l. f_equal. lia.
  - apply list_eq. intros j. rewrite frames_from_lookup.
    destruct (decide (Z.of_nat j < zlen (fq_frames q) + 1)) as [Hj|Hj]; cycle 1.
    { apply lookup_ge_None_2. unfold zlen in *. lia. }
    rewrite (frame_at_pushed r _ q frame m) by (done || (subst m; lia) || (apply Z.mod_pos_bound; lia)).
    fold g. rewrite fn_head0. destruct (decide (Z.of_nat j = zlen (fq_frames q))) as [Hj'|Hj'].
    + rewrite Hj', Z.eqb_refl. rewrite lookup_app_r by (unfold zlen in *; lia).
      by replace (j - length (fq_frames q))%nat with 0%nat by (unfold zlen in *; lia).
    + replace (_ =? _) with false; cycle 1.
      { symmetry. apply Z.eqb_neq. intros He. apply slot_inj in He; lia. }
      rewrite lookup_app_l by (unfold zlen in *; lia). rewrite fn_q0 at 1. rewrite frames_from_lookup.
      by rewrite decide_True by lia.
Qed.

Lemma refines_pop r q :
  frame_refines r q →
  let '(r', f) := reac_frame_ring_pop r in
  let '(q', f') := spec_pop q in
  f = f' ∧ frame_refines r' q'.
Proof using Hk.
  intros HR. pose proof (head_range r q HR) as Hh. pose proof HR as []. pose proof (cap_bounds k Hk) as Hcap.
  unfold reac_frame_ring_pop, spec_pop. cbv zeta. rewrite fn_mask0, land_low, !land_small by (done || lia).
  destruct (fq_frames q) as [|f l] eqn:Eq.
  - replace (fr_tail r =? fr_head r) with true; cycle 1.
    { symmetry. apply Z.eqb_eq. rewrite fn_head0. change (zlen []) with 0. rewrite Z.add_0_r. symmetry. by apply Z.mod_small. }
    split; [done|]. rewrite fn_over0, fn_under0.
    pose proof (refines_counts r q (fq_over q) (u64 (fq_under q + 1)) HR) as H. unfold moved in H.
    by rewrite Eq, fn_mask0 in H.
  - assert (Hne : fr_tail r ≠ fr_head r).
    { rewrite fn_head0. intros He. rewrite zlen_cons in *. pose proof (zlen_nonneg l).
      assert (0 = zlen l + 1); [|lia]. apply (slot_inj k Hk (fr_tail r)); [lia|lia|].
      rewrite Z.add_0_r, Z.mod_small by lia. rewrite He at 1. f_equal. lia. }
    replace (fr_tail r =? fr_head r) with false by lia. split.
    + assert (H0 : frames_from r (fr_tail r) (zlen (f :: l)) !! 0%nat = Some f) by (by rewrite <- fn_q0).
      rewrite frames_from_lookup in H0. case_decide; [|done]. injection H0 as <-.
      rewrite Z.add_0_r, Z.mod_small by done. done.
    + pose proof (refines_consume_frames r q 1 (fq_over q) (fq_under q) HR) as H.
      rewrite Eq in H. change (drop (Z.to_nat 1) (f :: l)) with l in H. unfold moved in H.
      rewrite fn_mask0 in H. rewrite fn_over0, fn_under0. apply H. rewrite zlen_cons. pose proof (zlen_nonneg l). lia.
Qed.

Lemma refines_guard r q high target :
  frame_refines r q → 0 ≤ high → 0 ≤ target →
  let '(r', n) := reac_frame_ring_trim r high target in
  let '(q', n') := spec_guard q high target in
  n = n' ∧ frame_refines r' q'.
Proof using Hk.
  intros HR Hh Ht. unfold reac_frame_ring_trim, spec_guard, reac_frame_ring_trim_count. cbv zeta.
  rewrite (frame_readable r q HR). set (len := zlen (fq_frames q)).
  destruct (high <? len) eqn:E1; [destruct (target <? len) eqn:E2|].
  - replace (len <=? high) with false by lia. replace (len <=? target) with false by lia. simpl andb. cbv iota.
    replace (len - target =? 0) with false by lia. split; [done|]. pose proof HR as [].
    rewrite fn_mask0, land_low by done. rewrite <- fn_mask0, fn_over0, fn_under0.
    apply (refines_consume_frames r q (len - target)); [done|]. lia.
  - replace (len <=? high) with false by lia. replace (len <=? target) with true by lia.
    split; [done|]. by destruct q.
  - replace (len <=? high) with true by lia. split; [done|]. by destruct q.
Qed.
End Refines.

Lemma frame_refines_init slots sz :
  1 ≤ slots ≤ 2 ^ 31 → 0 < sz < 65536 →
  ∃ k r, 1 ≤ k ≤ 31 ∧ next_pow2 slots = 2 ^ k ∧ reac_frame_ring_init slots sz true = Some r ∧
    frame_refines k sz r (FrameQueue [] 0 0).
Proof.
  intros Hs Hz. destruct (next_pow2_spec slots Hs) as (k & Hk & Hp & _). pose proof (cap_bounds k Hk).
  exists k. unfold reac_frame_ring_init. rewrite Hp. simpl negb. cbv iota.
  eexists. split_and!; [lia|lia|done|done|]. split; simpl; try done; try lia.
  - unfold u32. rewrite Z.mod_small; lia.
  - unfold zlen. rewrite length_replicate. lia.
  - apply Forall_replicate. unfold zeros, zlen, fill. rewrite length_replicate. lia.
  - unfold zeros, zlen, fill. rewrite length_replicate. lia.
  - change (zlen (@nil (list Z))) with 0. lia.
Qed.

(** The frame ring is a bounded queue with a depth guard. Opened for any
    number of slots up to 2^31, it answers every sequence of pushes, pops and
    guard trims as a queue would: a push of a whole frame is refused exactly
    when the capacity less one is queued, and counted; a pop hands out the oldest
    frame byte for byte, or nothing, and counts that; the guard acts only above
    the high mark, and then drops exactly the oldest frames down to its target. *)
Theorem frame_ring_fifo (slots sz : Z) (ops : list frame_op) :
  1 ≤ slots ≤ 2 ^ 31 → 0 < sz < 65536 → Forall frame_op_ok ops →
  ∃ r, reac_frame_ring_init slots sz true = Some r ∧
    run frame_step r ops = run (frame_spec_step (next_pow2 slots) sz) (FrameQueue [] 0 0) ops.
Proof.
  intros Hs Hz Hok. destruct (frame_refines_init slots sz Hs Hz) as (k & r & Hk & Hp & Hi & HR).
  exists r. split; [done|]. rewrite Hp. generalize dependent (FrameQueue [] 0 0). clear Hi. revert r.
  induction Hok as [|op ops Hop Hok IH]; intros r q HR; [done|].
  destruct op as [frame n| |high target]; cbn [frame_op_ok] in Hop; cbn [run frame_step frame_spec_step].
  - pose proof (refines_push k sz Hk Hz r q frame n HR (proj1 Hop) (proj2 Hop)) as H'.
    destruct (reac_frame_ring_push r frame n), (spec_push (2 ^ k) sz q frame n).
    destruct H' as [-> HR']. f_equal. by apply IH.
  - pose proof (refines_pop k sz Hk r q HR) as H'.
    destruct (reac_frame_ring_pop r), (spec_pop q). destruct H' as [-> HR']. f_equal. by apply IH.
  - pose proof (refines_guard k sz Hk r q high target HR (proj1 (proj1 Hop)) (proj1 (proj2 Hop))) as H'.
    destruct (reac_frame_ring_trim r high target), (spec_guard q high target).
    destruct H' as [-> HR']. f_equal. by apply IH.
Qed.

Definition demo_frame_ops : list frame_op :=
  [FPush [1; 2] 2; FPush [3; 4] 2; FPush [5; 6] 2; FPush [7; 8] 2; FTrim 2 1; FPop; FPop].

Lemma frame_ring_fifo_witness :
  ∃ r, reac_frame_ring_init 3 2 true = Some r ∧
    run frame_step r demo_frame_ops =
      [Pushed true; Pushed true; Pushed true; Pushed false; Dropped 2; Popped [5; 6]; Popped []].
Proof.
  destruct (frame_ring_fifo 3 2 demo_frame_ops) as (r & Hi & Hrun).
  - lia.
  - lia.
  - repeat constructor; simpl; lia || (vm_compute; congruence).
  - exists r. split; [exact Hi|]. rewrite Hrun. vm_compute. reflexivity.
Defined.

(** The mark the guard works to always clears the floor and, below the wrap of
    [uint32_t], four bursts of the graph. *)
Lemma guard_high_clears v quantum :
  0 ≤ quantum < 2 ^ 30 →
  96 ≤ reac_pacer_guard_high v quantum ∧ 4 * quantum ≤ reac_pacer_guard_high v quantum.
Proof.
  intros Hq. unfold reac_pacer_guard_high, reac_pacer_guard_floor, REAC_PACER_GUARD_BURST_MULT,
    REAC_PACER_GUARD_FLOOR_FRAMES, REAC_PACER_GUARD_FLOOR_MIN, REAC_PACER_GUARD_FLOOR_MAX, u32.
  rewrite Z.mod_small by lia. destruct (negb _ && _) eqn:E; split_ifs; lia.
Qed.
