(* ===== verification/IxRing.v ===== *)
(** * IxRing: the single-producer rings with free-running indices

    Models the two small rings of [transport/src/reac_pacer.c] whose indices are
    free-running [uint32_t] counters, reduced only when a slot is addressed: the
    event ring ([pev_push], the pop of [reac_pacer_log_drain]) and the head-amp
    command ring ([reac_pacer_headamp_set], [reac_pacer_headamp_drain]). Both are
    one structure over what a slot holds. The producer owns the head and the
    consumer the tail; the consumer re-reads the head before every element, so
    one push and one pop are the units that interleave. *)

From S2P Require Import Prelude Ring CtrlBlk HeadampTx.
Local Open Scope Z_scope.

(** ** The ring *)

Section IxRing.
Context {A : Type}.

Record ixring := IxRing { ix_slots : list A; ix_head : Z; ix_tail : Z; ix_drops : Z }.

(** [h - t >= CAP]: full, the newest is dropped and counted. *)
Definition ix_push (r : ixring) (x : A) : ixring * bool :=
  let cap := zlen (ix_slots r) in
  if cap <=? u32 (ix_head r - ix_tail r) then
    (IxRing (ix_slots r) (ix_head r) (ix_tail r) (u64 (ix_drops r + 1)), false)
  else
    (IxRing (<[Z.to_nat (ix_head r mod cap) := x]> (ix_slots r)) (u32 (ix_head r + 1)) (ix_tail r)
       (ix_drops r), true).

(** One turn of the drain; [None] when it finds [t == h]. *)
Definition ix_pop (r : ixring) : ixring * option A :=
  if ix_tail r =? ix_head r then (r, None)
  else
    (IxRing (ix_slots r) (ix_head r) (u32 (ix_tail r + 1)) (ix_drops r),
     ix_slots r !! Z.to_nat (ix_tail r mod zlen (ix_slots r))).

(** The ring of [cap] slots a zeroed structure holds. *)
Definition ix_init (cap : Z) (x : A) : ixring := IxRing (replicate (Z.to_nat cap) x) 0 0 0.

(** *** As a queue *)

Record ix_queue := IxQueue { iq_list : list A; iq_drops : Z }.

Definition queue_push (cap : Z) (q : ix_queue) (x : A) : ix_queue * bool :=
  if cap <=? zlen (iq_list q) then (IxQueue (iq_list q) (u64 (iq_drops q + 1)), false)
  else (IxQueue (iq_list q ++ [x]) (iq_drops q), true).
Definition queue_pop (q : ix_queue) : ix_queue * option A :=
  match iq_list q with
  | [] => (q, None)
  | x :: l => (IxQueue l (iq_drops q), Some x)
  end.

Record ix_refines (k : Z) (r : ixring) (q : ix_queue) : Prop := {
  ix_cap : zlen (ix_slots r) = 2 ^ k;
  ix_tail_ok : 0 ≤ ix_tail r < 2 ^ 32;
  ix_head_ok : ix_head r = u32 (ix_tail r + zlen (iq_list q));
  ix_room : zlen (iq_list q) ≤ 2 ^ k;
  ix_held : ∀ j x, iq_list q !! j = Some x →
    ix_slots r !! Z.to_nat ((ix_tail r + Z.of_nat j) mod 2 ^ k) = Some x;
  ix_count : ix_drops r = iq_drops q
}.

Context (k : Z) (Hk : 1 ≤ k ≤ 31).

Lemma u32_mod_cap x : u32 x mod 2 ^ k = x mod 2 ^ k.
Proof using Hk. unfold u32. apply Z.mod_mod_divide, cap_divides, Hk. Qed.

Lemma ix_distance r q : ix_refines k r q → u32 (ix_head r - ix_tail r) = zlen (iq_list q).
Proof using Hk.
  intros []. pose proof (zlen_nonneg (iq_list q)). pose proof (cap_bounds k Hk).
  rewrite ix_head_ok0. unfold u32. rewrite Zminus_mod_idemp_l, Z.mod_small; lia.
Qed.

Lemma ix_refines_push r q x :
  ix_refines k r q →
  let '(r', ok) := ix_push r x in
  let '(q', ok') := queue_push (2 ^ k) q x in
  ok = ok' ∧ ix_refines k r' q'.
Proof using Hk.
  intros HR. pose proof (ix_distance r q HR) as Hd. destruct HR. pose proof (cap_bounds k Hk).
  unfold ix_push, queue_push. cbv zeta. rewrite Hd, ix_cap0.
  destruct (2 ^ k <=? zlen (iq_list q)) eqn:E; (split; [done|]).
  - split; simpl; try done. by rewrite ix_count0.
  - assert (zlen (iq_list q ++ [x]) = zlen (iq_list q) + 1) as Hl by (rewrite zlen_app; done).
    assert (ix_head r mod 2 ^ k = (ix_tail r + zlen (iq_list q)) mod 2 ^ k) as Hh
      by (rewrite ix_head_ok0; apply u32_mod_cap).
    split; simpl; rewrite ?Hl; try done; try lia.
    + unfold zlen in *. by rewrite length_insert.
    + rewrite ix_head_ok0. unfold u32. rewrite Zplus_mod_idemp_l. f_equal. lia.
    + rewrite Hh. intros j y Hy.
      assert (0 ≤ (ix_tail r + zlen (iq_list q)) mod 2 ^ k < 2 ^ k) by (apply Z.mod_pos_bound; lia).
      destruct (decide (Z.of_nat j = zlen (iq_list q))) as [Hj|Hj].
      * rewrite lookup_app_r in Hy by (unfold zlen in *; lia).
        replace (j - length (iq_list q))%nat with 0%nat in Hy by (unfold zlen in *; lia).
        injection Hy as <-. rewrite Hj. apply list_lookup_insert_eq. unfold zlen in *. lia.
      * pose proof (lookup_lt_Some _ _ _ Hy) as Hlt. rewrite length_app in Hlt. simpl in Hlt.
        rewrite lookup_app_l in Hy by (unfold zlen in *; lia).
        rewrite list_lookup_insert_ne; [by apply ix_held0|].
        intros He. apply Z2Nat.inj in He; [|lia|apply Z.mod_pos_bound; lia].
        apply slot_inj in He; unfold zlen in *; lia.
Qed.

Lemma ix_refines_pop r q :
  ix_refines k r q →
  let '(r', x) := ix_pop r in
  let '(q', x') := queue_pop q in
  x = x' ∧ ix_refines k r' q'.
Proof using Hk.
  intros HR. pose proof HR as []. pose proof (cap_bounds k Hk). unfold ix_pop, queue_pop. rewrite ix_cap0.
  destruct (iq_list q) as [|x l] eqn:Eq.
  - change (zlen (@nil A)) with 0 in *. rewrite Z.add_0_r in ix_head_ok0.
    replace (ix_tail r =? ix_head r) with true; [done|].
    symmetry. apply Z.eqb_eq. rewrite ix_head_ok0. symmetry. by apply Z.mod_small.
  - pose proof (zlen_nonneg l). rewrite zlen_cons in *.
    replace (ix_tail r =? ix_head r) with false; cycle 1.
    { symmetry. apply Z.eqb_neq. intros He. pose proof (ix_distance r q HR) as Hd.
      rewrite Eq, <- He, Z.sub_diag, zlen_cons in Hd. change (u32 0) with 0 in Hd. lia. }
    split.
    + rewrite <- (ix_held0 0%nat x eq_refl). do 3 f_equal. lia.
    + split; simpl; try done; try lia.
      * unfold u32. apply Z.mod_pos_bound. lia.
      * rewrite ix_head_ok0. unfold u32. rewrite Zplus_mod_idemp_l. f_equal. lia.
      * intros j y Hy. rewrite <- (ix_held0 (S j) y Hy). do 2 f_equal.
        rewrite <- Zplus_mod_idemp_l, u32_mod_cap, Zplus_mod_idemp_l. f_equal. lia.
Qed.

Lemma ix_refines_init x : ix_refines k (ix_init (2 ^ k) x) (IxQueue [] 0).
Proof using Hk.
  pose proof (cap_bounds k Hk). split; simpl; try done; try lia.
  - unfold zlen. rewrite length_replicate. lia.
  - change (zlen (@nil A)) with 0. lia.
Qed.
End IxRing.

Arguments ixring : clear implicits.
Arguments ix_queue : clear implicits.

(** ** Live head-amp commands *)

Definition reac_headamp_pack (ch param value : Z) : Z :=
  Z.lor (Z.lor (Z.shiftl ch 16) (Z.shiftl param 8)) value.
Definition reac_headamp_unpack (w : Z) : Z * Z * Z :=
  (u8 (Z.land (Z.shiftr w 16) 0xff), u8 (Z.land (Z.shiftr w 8) 0xff), u8 (Z.land w 0xff)).

Definition REAC_HEADAMP_CMD_RING : Z := 128.

(** The ring, the table its consumer owns, and the count of commands applied. *)
Record ha_path := HaPath { hp_cmd : ixring Z; hp_table : reac_headamp_tx; hp_applied : Z }.

(** [reac_pacer_headamp_set]; the flag is the 1 return. *)
Definition reac_pacer_headamp_set (p : ha_path) (ch param value : Z) : ha_path * bool :=
  let '(r, ok) := ix_push (hp_cmd p) (reac_headamp_pack ch param value) in
  (HaPath r (hp_table p) (hp_applied p), ok).

(** One turn of the loop of [reac_pacer_headamp_drain]; [false] when it breaks. *)
Definition headamp_drain_one (p : ha_path) : ha_path * bool :=
  match ix_pop (hp_cmd p) with
  | (r, Some w) =>
      let '(ch, param, value) := reac_headamp_unpack w in
      (HaPath r (reac_headamp_tx_set (hp_table p) ch param value).1 (hp_applied p), true)
  | (_, None) => (p, false)
  end.

(** The whole drain; each turn takes one command and the ring holds at most
    [REAC_HEADAMP_CMD_RING], so that many turns empty it. *)
Fixpoint headamp_drain_loop (fuel : nat) (p : ha_path) (applied : Z) : ha_path * Z :=
  match fuel with
  | O => (p, applied)
  | S fuel =>
      match headamp_drain_one p with
      | (p, true) => headamp_drain_loop fuel p (applied + 1)
      | (p, false) => (p, applied)
      end
  end.

Definition reac_pacer_headamp_drain (p : ha_path) : ha_path * Z :=
  let '(p, applied) := headamp_drain_loop (Z.to_nat REAC_HEADAMP_CMD_RING) p 0 in
  (HaPath (hp_cmd p) (hp_table p) (if applied =? 0 then hp_applied p else u64 (hp_applied p + applied)),
   applied).

Definition ha_path_init (t : reac_headamp_tx) : ha_path := HaPath (ix_init REAC_HEADAMP_CMD_RING 0) t 0.

(** *** Every command accepted is applied, once and in order *)

Notation command := (Z * Z * Z)%type.
Definition apply_command (t : reac_headamp_tx) (c : command) : reac_headamp_tx :=
  let '(ch, param, value) := c in (reac_headamp_tx_set t ch param value).1.

Inductive cmd_op := CSet (c : command) | CTurn.
Definition command_ok (c : command) : Prop := let '(ch, param, value) := c in is_byte ch ∧ is_byte param ∧ is_byte value.
Definition cmd_op_ok (op : cmd_op) : Prop := match op with CSet c => command_ok c | CTurn => True end.

(** A run of the two threads, with the commands accepted so far and how many of
    them were taken. *)
Definition cmd_step (st : ha_path * list command * nat) (op : cmd_op) : ha_path * list command * nat :=
  let '(p, acc, n) := st in
  match op with
  | CSet (ch, param, value) =>
      let '(p, ok) := reac_pacer_headamp_set p ch param value in
      (p, if ok then acc ++ [(ch, param, value)] else acc, n)
  | CTurn => let '(p, more) := headamp_drain_one p in (p, acc, if more then S n else n)
  end.
Definition cmd_run (t : reac_headamp_tx) (ops : list cmd_op) : ha_path * list command * nat :=
  foldl cmd_step (ha_path_init t, [], 0%nat) ops.

Lemma unpack_pack ch param value :
  is_byte ch → is_byte param → is_byte value →
  reac_headamp_unpack (reac_headamp_pack ch param value) = (ch, param, value).
Proof.
  unfold is_byte. intros Hc Hp Hv. unfold reac_headamp_unpack, reac_headamp_pack.
  assert (Z.lor (Z.lor (Z.shiftl ch 16) (Z.shiftl param 8)) value = value + 256 * (param + 256 * ch)) as ->.
  { rewrite <- lor_shift8 by (unfold is_byte; lia). rewrite <- lor_shift8 by (unfold is_byte; lia).
    by rewrite Z.shiftl_lor, Z.shiftl_shiftl, (Z.lor_comm value), (Z.lor_comm (Z.shiftl param 8)) by lia. }
  rewrite !land_ff, !Z.shiftr_div_pow2 by lia. unfold u8. repeat f_equal; lia.
Qed.

(** What relates a state of the run to its history. *)
Record cmd_inv (t : reac_headamp_tx) (p : ha_path) (acc : list command) (n : nat) : Prop := {
  ci_taken : (n ≤ length acc)%nat;
  ci_table : hp_table p = foldl apply_command t (take n acc);
  ci_queue : ∃ drops, ix_refines 7 (hp_cmd p)
    (IxQueue ((λ c : command, let '(ch, param, value) := c in reac_headamp_pack ch param value) <$> drop n acc) drops);
  ci_ok : Forall command_ok acc
}.

Lemma cmd_inv_turn t p acc n :
  cmd_inv t p acc n →
  let '(p', more) := headamp_drain_one p in
  more = bool_decide (n < length acc)%nat ∧ cmd_inv t p' acc (if more then S n else n).
Proof.
  intros []. destruct ci_queue0 as [drops HR]. unfold headamp_drain_one.
  pose proof (ix_refines_pop 7 ltac:(lia) _ _ HR) as H. unfold queue_pop in H. cbn [iq_list iq_drops] in H.
  destruct (ix_pop (hp_cmd p)) as [r x]. destruct (drop n acc) as [|[[ch param] value] l] eqn:Ed; cbn [fmap list_fmap] in H.
  - destruct H as [-> HR']. assert (length acc ≤ n)%nat.
    { apply (f_equal length) in Ed. rewrite length_drop in Ed. simpl in Ed. lia. }
    rewrite bool_decide_eq_false_2 by lia. split; [done|]. split; try done. exists drops. by rewrite Ed.
  - destruct H as [-> HR'].
    assert (acc !! n = Some (ch, param, value)) as Hn.
    { pose proof (lookup_drop acc n 0) as L. rewrite Ed, Nat.add_0_r in L. exact (eq_sym L). }
    pose proof (lookup_lt_Some _ _ _ Hn).
    destruct (Forall_lookup_1 _ _ _ _ ci_ok0 Hn) as (Hc & Hp & Hv). rewrite unpack_pack by done.
    rewrite bool_decide_eq_true_2 by done. split; [done|]. split; cbn [hp_cmd hp_table]; [lia| | |done].
    + by rewrite (take_S_r _ _ _ Hn), foldl_snoc, ci_table0.
    + exists drops. replace (drop (S n) acc) with l; [done|].
      pose proof (drop_S _ _ _ Hn) as E. rewrite Ed in E. by injection E.
Qed.

Lemma cmd_inv_set t p acc n c :
  cmd_inv t p acc n → command_ok c →
  let '(ch, param, value) := c in
  let '(p', ok) := reac_pacer_headamp_set p ch param value in
  ok = bool_decide (length acc < n + 128)%nat ∧ cmd_inv t p' (if ok then acc ++ [c] else acc) n.
Proof.
  intros [] Hc. destruct c as [[ch param] value]. destruct ci_queue0 as [drops HR]. unfold reac_pacer_headamp_set.
  pose proof (ix_refines_push 7 ltac:(lia) _ _ (reac_headamp_pack ch param value) HR) as H.
  unfold queue_push in H. cbn [iq_list iq_drops] in H. rewrite zlen_fmap in H.
  assert (zlen (drop n acc) = Z.of_nat (length acc) - Z.of_nat n) as Hl
    by (unfold zlen; rewrite length_drop; lia). rewrite Hl in H. change (2 ^ 7) with 128 in H.
  destruct (ix_push _ _) as [r ok]. destruct (Z.leb_spec 128 (Z.of_nat (length acc) - Z.of_nat n)).
  - destruct H as [-> HR']. rewrite bool_decide_eq_false_2 by lia. split; [done|]. split; try done. eauto.
  - destruct H as [-> HR']. rewrite bool_decide_eq_true_2 by lia. split; [done|].
    split; cbn [hp_cmd hp_table].
    + rewrite length_app. lia.
    + by rewrite take_app_le by lia.
    + exists drops. rewrite drop_app_le, fmap_app by lia. exact HR'.
    + apply Forall_app. split; [done|]. by constructor.
Qed.

Lemma cmd_inv_run t ops :
  Forall cmd_op_ok ops → let '(p, acc, n) := cmd_run t ops in cmd_inv t p acc n.
Proof.
  unfold cmd_run. assert (cmd_inv t (ha_path_init t) [] 0) as H0.
  { split; simpl; [lia|done| |done]. exists 0. apply (ix_refines_init 7). lia. }
  revert H0. generalize (ha_path_init t) as p, (@nil command) as acc, 0%nat as n.
  intros p acc n HI Hops. revert p acc n HI. induction Hops as [|op ops Hop Hops IH]; intros; [done|].
  cbn [foldl cmd_step]. destruct op as [[[ch param] value]|].
  - pose proof (cmd_inv_set t p acc n (ch, param, value) HI Hop) as H.
    cbv beta iota in H. destruct (reac_pacer_headamp_set p ch param value). exact (IH _ _ _ (proj2 H)).
  - pose proof (cmd_inv_turn t p acc n HI) as H. destruct (headamp_drain_one p) as [p' more].
    exact (IH _ _ _ (proj2 H)).
Qed.

(** Enough turns take every command left. *)
Lemma drain_loop_all t fuel p acc n k :
  cmd_inv t p acc n → (length acc - n ≤ fuel)%nat →
  let '(p', applied) := headamp_drain_loop fuel p k in
  applied = k + Z.of_nat (length acc - n) ∧ hp_table p' = foldl apply_command t acc.
Proof.
  revert p n k. induction fuel as [|fuel IH]; intros p n k HI Hf; cbn [headamp_drain_loop].
  - pose proof (ci_taken _ _ _ _ HI). destruct HI. split; [lia|].
    by rewrite ci_table0, take_ge by lia.
  - pose proof (cmd_inv_turn t p acc n HI) as H. pose proof (ci_table _ _ _ _ HI) as Ht.
    unfold headamp_drain_one in *. destruct (ix_pop (hp_cmd p)) as [r [w|]].
    + destruct (reac_headamp_unpack w) as [[ch param] value]. destruct H as [Hm HI'].
      symmetry in Hm. apply bool_decide_eq_true in Hm.
      pose proof (IH _ _ (k + 1) HI' ltac:(lia)) as H. destruct (headamp_drain_loop _ _ _) as [p' applied].
      destruct H as [-> Htab]. split; [lia|done].
    + destruct H as [Hm _]. symmetry in Hm. apply bool_decide_eq_false in Hm.
      split; [lia|]. by rewrite Ht, take_ge by lia.
Qed.

(** C23. No live head-amp command is lost, repeated or reordered. Whatever the
    controller sends and however its calls interleave with the turns of the pacer
    that drain them, the preamp table is always the initial one after exactly the
    first commands accepted, in their order; a command is refused only when 128
    wait; and one drain applies all that wait. *)
Theorem live_commands_in_order (t : reac_headamp_tx) (ops : list cmd_op) (c : command) :
  Forall cmd_op_ok ops → command_ok c →
  let '(p, accepted, taken) := cmd_run t ops in
  (taken ≤ length accepted)%nat ∧
  hp_table p = foldl apply_command t (take taken accepted) ∧
  (let '(ch, param, value) := c in (reac_pacer_headamp_set p ch param value).2)
    = bool_decide (length accepted < taken + 128)%nat ∧
  (reac_pacer_headamp_drain p).2 = Z.of_nat (length accepted - taken) ∧
  hp_table (reac_pacer_headamp_drain p).1 = foldl apply_command t accepted.
Proof.
  intros Hops Hc. pose proof (cmd_inv_run t ops Hops) as HI. destruct (cmd_run t ops) as [[p acc] n].
  pose proof (cmd_inv_set t p acc n c HI Hc) as HS. destruct c as [[ch param] value].
  destruct (reac_pacer_headamp_set p ch param value) as [p1 ok]. destruct HS as [-> _].
  assert (length acc - n ≤ 128)%nat as Hroom.
  { destruct (ci_queue _ _ _ _ HI) as [drops HR]. pose proof (ix_room _ _ _ HR) as Hr. simpl in Hr.
    rewrite zlen_fmap in Hr. unfold zlen in Hr. rewrite length_drop in Hr. lia. }
  pose proof (drain_loop_all t 128 p acc n 0 HI Hroom) as HD. unfold reac_pacer_headamp_drain.
  change (Z.to_nat REAC_HEADAMP_CMD_RING) with 128%nat. destruct (headamp_drain_loop 128 p 0) as [p' applied].
  destruct HD as [-> HD]. destruct HI. by rewrite Z.add_0_l.
Qed.

(** Two presses of the phantom key around one turn, and a bad cell in between. *)
Definition demo_cmd_ops : list cmd_op := [CSet (3, 0, 1); CTurn; CSet (99, 0, 1); CSet (3, 0, 0)].

Lemma live_commands_in_order_witness :
  let '(p, accepted, taken) := cmd_run reac_headamp_tx_init demo_cmd_ops in
  taken = 1%nat ∧ accepted = [(3, 0, 1); (99, 0, 1); (3, 0, 0)] ∧
  reac_headamp_tx_effective (Some (hp_table p)) 3 0 = 1 ∧
  reac_headamp_tx_effective (Some (hp_table (reac_pacer_headamp_drain p).1)) 3 0 = 0.
Proof.
  assert (Forall cmd_op_ok demo_cmd_ops) as Hops by (repeat constructor; unfold is_byte; lia).
  assert (command_ok (0, 0, 0)) as Hc by (unfold command_ok, is_byte; lia).
  pose proof (live_commands_in_order reac_headamp_tx_init demo_cmd_ops (0, 0, 0) Hops Hc) as H.
  assert (((cmd_run reac_headamp_tx_init demo_cmd_ops).1).2 = [(3, 0, 1); (99, 0, 1); (3, 0, 0)]) as Ha
    by (vm_compute; reflexivity).
  assert ((cmd_run reac_headamp_tx_init demo_cmd_ops).2 = 1%nat) as Hn by (vm_compute; reflexivity).
  destruct (cmd_run reac_headamp_tx_init demo_cmd_ops) as [[p acc] n]. simpl in Ha, Hn. subst acc n.
  destruct H as (_ & Ht & _ & _ & Hd). split; [reflexivity|]. split; [reflexivity|]. rewrite Ht, Hd.
  split; vm_compute; reflexivity.
Defined.
