(* ===== verification/Pace.v ===== *)
(** * Pace: the instants at which the pacer puts its frames on the wire

    Models the timing of [transport/src/reac_pacer.c] and the launch grid of
    [transport/src/reac_etf.c]: the exact rational grid of launch times, the
    choice of the backend that owns the egress instant and what a missing
    precondition does to it, the slot period, and the slot clock of the pacer
    loop with its debt law. Instants are nanoseconds of a [uint64_t]; a turn of
    the loop is given the period the discipline asks for and the clock it reads
    after sending. *)

From Stdlib Require String.
From S2P Require Import Prelude BoxModel Clock.
Import String.StringSyntax.
Local Open Scope Z_scope.

(** ** The launch grid *)

Inductive reac_etf_refusal :=
| REAC_ETF_OK | REAC_ETF_REFUSE_NO_TXTIME | REAC_ETF_REFUSE_TXTIME_EPERM | REAC_ETF_REFUSE_NO_QDISC
| REAC_ETF_REFUSE_TAI_UNSET | REAC_ETF_REFUSE_NO_TAI_CLOCK | REAC_ETF_REFUSE_BAD_FPS
| REAC_ETF_REFUSE_BAD_LEAD.

#[global] Instance reac_etf_refusal_eq_dec : EqDecision reac_etf_refusal.
Proof. solve_decision. Defined.

Record reac_etf_grid := EtfGrid {
  eg_launch_ns : Z; eg_base_ns : Z; eg_slot : Z; eg_whole : Z; eg_rem : Z; eg_frac : Z; eg_fps : Z
}.

Definition NS_PER_S : Z := 1000000000.

Definition reac_etf_grid_init (fps base_ns : Z) : reac_etf_refusal * reac_etf_grid :=
  if fps <=? 0 then (REAC_ETF_REFUSE_BAD_FPS, EtfGrid 0 0 0 0 0 0 0)
  else
    let fps := u32 fps in
    (REAC_ETF_OK, EtfGrid base_ns base_ns 0 (u32 (NS_PER_S / fps)) (u32 (NS_PER_S mod fps)) 0 fps).

Definition reac_etf_grid_advance (g : reac_etf_grid) (steer_ns : Z) : reac_etf_grid :=
  let slot := u64 (eg_slot g + 1) in
  if 0 <? steer_ns then
    EtfGrid (u64 (eg_launch_ns g + u64 steer_ns)) (eg_base_ns g) slot (eg_whole g) (eg_rem g)
      (eg_frac g) (eg_fps g)
  else
    let launch := u64 (eg_launch_ns g + eg_whole g) in
    let frac := u32 (eg_frac g + eg_rem g) in
    if eg_fps g <=? frac then
      EtfGrid (u64 (launch + 1)) (eg_base_ns g) slot (eg_whole g) (eg_rem g) (u32 (frac - eg_fps g))
        (eg_fps g)
    else EtfGrid launch (eg_base_ns g) slot (eg_whole g) (eg_rem g) frac (eg_fps g).

Definition reac_etf_grid_rebase (g : reac_etf_grid) (now_ns : Z) : reac_etf_grid :=
  reac_etf_grid_advance
    (EtfGrid now_ns now_ns 0 (eg_whole g) (eg_rem g) (eg_frac g) (eg_fps g)) 0.

(** ** The backend and its preconditions *)

Definition REAC_ETF_LEAD_US_DEFAULT : Z := 2500.
Definition REAC_ETF_LEAD_US_MIN : Z := 50.
Definition REAC_ETF_LEAD_US_MAX : Z := 50000.

Definition reac_etf_lead_check (lead_us : Z) : reac_etf_refusal :=
  if (lead_us <? REAC_ETF_LEAD_US_MIN) || (REAC_ETF_LEAD_US_MAX <? lead_us)
  then REAC_ETF_REFUSE_BAD_LEAD else REAC_ETF_OK.

(** [setopt] is what [setsockopt] of [SO_TXTIME] answers: done, or the [errno]. *)
Definition EPERM : Z := 1.
Definition reac_etf_socket_arm (tai_offset_s : Z) (setopt : option Z) : reac_etf_refusal :=
  if tai_offset_s <=? 0 then REAC_ETF_REFUSE_TAI_UNSET
  else match setopt with
       | Some errno => if errno =? EPERM then REAC_ETF_REFUSE_TXTIME_EPERM else REAC_ETF_REFUSE_NO_TXTIME
       | None => REAC_ETF_OK
       end.

Inductive reac_etf_qdisc_state := REAC_ETF_QDISC_NONE | REAC_ETF_QDISC_PRESENT | REAC_ETF_QDISC_UNREADABLE.

(** Arming: the refusal, and the lead in nanoseconds the handle is left with. *)
Definition pacer_arm_etf (lead_us tai : Z) (q : reac_etf_qdisc_state) (setopt : option Z)
    : reac_etf_refusal * option Z :=
  let r := reac_etf_lead_check lead_us in
  if negb (bool_decide (r = REAC_ETF_OK)) then (r, None)
  else if tai <? 0 then (REAC_ETF_REFUSE_NO_TAI_CLOCK, None)
  else match q with
       | REAC_ETF_QDISC_NONE => (REAC_ETF_REFUSE_NO_QDISC, None)
       | _ =>
           let r := reac_etf_socket_arm tai setopt in
           if negb (bool_decide (r = REAC_ETF_OK)) then (r, None)
           else (REAC_ETF_OK, Some (u32 (lead_us * 1000)))
       end.

Inductive reac_pacer_backend := REAC_PACER_BACKEND_THREAD | REAC_PACER_BACKEND_ETF.

(** [found] is the value the layered lookup copied out, [None] when no layer has
    one; the flag is [*understood]. *)
Definition reac_pacer_backend_resolve (found : option (list Z)) : reac_pacer_backend * bool :=
  match found with
  | None => (REAC_PACER_BACKEND_ETF, true)
  | Some v =>
      if zeqb v (str "etf") then (REAC_PACER_BACKEND_ETF, true)
      else if zeqb v (str "thread") then (REAC_PACER_BACKEND_THREAD, true)
      else (REAC_PACER_BACKEND_ETF, false)
  end.

(** [strtol] in base 10 on an ASCII string: white space, a sign, digits; the
    value saturates at the ends of [long]. [None] when no digit was read, else
    the value and the characters left. *)
Definition is_space (c : Z) : bool := (c =? 32) || ((9 <=? c) && (c <=? 13)).
Definition is_digit (c : Z) : bool := (48 <=? c) && (c <=? 57).
Fixpoint skip_space (s : list Z) : list Z :=
  match s with c :: s' => if is_space c then skip_space s' else s | [] => [] end.
Fixpoint digits_of (acc : Z) (s : list Z) : Z * list Z :=
  match s with
  | c :: s' => if is_digit c then digits_of (acc * 10 + (c - 48)) s' else (acc, s)
  | [] => (acc, [])
  end.
Definition LONG_MAX : Z := 2 ^ 63 - 1.
Definition strtol10 (s : list Z) : option (Z * list Z) :=
  let s := skip_space s in
  let '(neg, s) := match s with
                   | c :: s' => if c =? 45 then (true, s') else if c =? 43 then (false, s') else (false, s)
                   | [] => (false, [])
                   end in
  match s with
  | c :: _ =>
      if is_digit c then
        let '(v, rest) := digits_of 0 s in
        Some ((if neg then Z.max (- LONG_MAX - 1) (- v) else Z.min LONG_MAX v), rest)
      else None
  | [] => None
  end.

Definition reac_pacer_lead_us_resolve (found : option (list Z)) : Z * bool :=
  match found with
  | None => (REAC_ETF_LEAD_US_DEFAULT, true)
  | Some v =>
      match strtol10 v with
      | Some (n, []) =>
          if (n <=? 0) || negb (bool_decide (reac_etf_lead_check (u32 n) = REAC_ETF_OK))
          then (REAC_ETF_LEAD_US_DEFAULT, false) else (u32 n, true)
      | _ => (REAC_ETF_LEAD_US_DEFAULT, false)
      end
  end.

(** What [reac_pacer_open] does with the backend: it fails, or it runs on the
    thread with the refusal it remembers, or on the launch grid with its lead. *)
Inductive backend_opened :=
| OpenRefused (r : reac_etf_refusal)
| OpenThread (remembered : option reac_etf_refusal)
| OpenEtf (lead_ns : Z).

Definition open_backend (pacer_found lead_found : option (list Z)) (tai : Z)
    (q : reac_etf_qdisc_state) (setopt : option Z) : backend_opened :=
  match (reac_pacer_backend_resolve pacer_found).1 with
  | REAC_PACER_BACKEND_THREAD => OpenThread None
  | REAC_PACER_BACKEND_ETF =>
      match pacer_arm_etf (reac_pacer_lead_us_resolve lead_found).1 tai q setopt with
      | (_, Some lead_ns) => OpenEtf lead_ns
      | (r, None) => if bool_decide (is_Some pacer_found) then OpenRefused r else OpenThread (Some r)
      end
  end.

(** ** Period and budget *)

Definition reac_pacer_period_ns (fps : Z) : Z :=
  let fps := if fps <=? 0 then 8000 else fps in
  f64_to_Z (f64_add (f64_div (f64_of_Z NS_PER_S) (f64_of_Z fps)) (f64_ratio 1 2)).

Definition REAC_CATCHUP_MAX_DEFAULT_US : Z := 1000.

Definition reac_catchup_default_slots (fps : Z) : Z :=
  if fps <=? 0 then 1
  else
    let n := u32 (f64_to_Z (f64_add (f64_div (f64_mul (f64_of_Z REAC_CATCHUP_MAX_DEFAULT_US) (f64_of_Z fps))
                                       (f64_of_Z 1000000)) (f64_ratio 1 2))) in
    if n =? 0 then 1 else n.

Definition resolve_catchup_slots (cfg_val fps : Z) : Z :=
  if cfg_val =? 0 then reac_catchup_default_slots fps
  else if cfg_val <? 0 then 0 else u32 cfg_val.

(** ** The slot clock of the pacer loop *)

Record slot_clock := SlotClock {
  sc_etf : bool; sc_lead_ns : Z; sc_grid : reac_etf_grid; sc_deadline : Z; sc_period_ns : Z;
  sc_catchup_max_slots : Z; sc_late_wakes : Z; sc_slots_catchup : Z; sc_slots_dropped : Z;
  sc_slot_debt_max : Z
}.

Definition set_deadline (c : slot_clock) (g : reac_etf_grid) (deadline : Z) : slot_clock :=
  SlotClock (sc_etf c) (sc_lead_ns c) g deadline (sc_period_ns c) (sc_catchup_max_slots c)
    (sc_late_wakes c) (sc_slots_catchup c) (sc_slots_dropped c) (sc_slot_debt_max c).

(** The first deadline; [now] is the clock of the backend. *)
Definition slot_clock_start (etf : bool) (lead_ns period_ns fps catchup now : Z) : slot_clock :=
  if etf then
    let g := (reac_etf_grid_init fps (u64 (now + lead_ns + u64 period_ns))).2 in
    SlotClock etf lead_ns g (u64 (eg_launch_ns g - lead_ns)) period_ns catchup 0 0 0 0
  else SlotClock etf lead_ns (EtfGrid 0 0 0 0 0 0 0) (u64 (now + u64 period_ns)) period_ns catchup 0 0 0 0.

(** One period on: the grid under launch times, the deadline otherwise. *)
Definition slot_clock_advance (c : slot_clock) (follow : bool) (slot_ns : Z) : slot_clock :=
  if sc_etf c then
    let g := reac_etf_grid_advance (sc_grid c) (if follow then slot_ns else 0) in
    set_deadline c g (u64 (eg_launch_ns g - sc_lead_ns c))
  else set_deadline c (sc_grid c) (u64 (sc_deadline c + u64 slot_ns)).

(** The debt of a late wake, in slots. *)
Definition slots_behind (c : slot_clock) (now : Z) : Z :=
  u64 (u64 (now - sc_deadline c) / u64 (sc_period_ns c) + 1).

(** Overslept: repay the debt within the budget, or abandon it and re-base. *)
Definition slot_clock_settle (c : slot_clock) (now : Z) : slot_clock :=
  if now <=? sc_deadline c then c
  else
    let behind := slots_behind c now in
    let b32 := if 2 ^ 32 - 1 <? behind then 2 ^ 32 - 1 else u32 behind in
    let late := u64 (sc_late_wakes c + 1) in
    let worst := if sc_slot_debt_max c <? b32 then b32 else sc_slot_debt_max c in
    if negb (sc_catchup_max_slots c =? 0) && (behind <=? sc_catchup_max_slots c) then
      SlotClock (sc_etf c) (sc_lead_ns c) (sc_grid c) (sc_deadline c) (sc_period_ns c)
        (sc_catchup_max_slots c) late (u64 (sc_slots_catchup c + 1)) (sc_slots_dropped c) worst
    else
      let g := if sc_etf c then reac_etf_grid_rebase (sc_grid c) (u64 (now + sc_lead_ns c)) else sc_grid c in
      let deadline := if sc_etf c then u64 (eg_launch_ns g - sc_lead_ns c)
                      else u64 (now + u64 (sc_period_ns c)) in
      SlotClock (sc_etf c) (sc_lead_ns c) g deadline (sc_period_ns c) (sc_catchup_max_slots c) late
        (sc_slots_catchup c) (u64 (sc_slots_dropped c + behind)) worst.

Definition slot_clock_turn (c : slot_clock) (follow : bool) (slot_ns now : Z) : slot_clock :=
  slot_clock_settle (slot_clock_advance c follow slot_ns) now.

(** ** The grid is exact *)

Inductive grid_op := GAdvance (steer_ns : Z) | GRebase (now_ns : Z).

Definition grid_step (g : reac_etf_grid) (op : grid_op) : reac_etf_grid :=
  match op with
  | GAdvance steer => reac_etf_grid_advance g steer
  | GRebase now => reac_etf_grid_rebase g now
  end.

(** An instant the grid is re-based to is a [uint64_t]. *)
Definition grid_op_ok (op : grid_op) : Prop :=
  match op with GAdvance _ => True | GRebase now => 0 ≤ now < 2 ^ 64 end.

(** The grid as arithmetic: an anchor, the nanoseconds steered past it, and the
    nominal slots advanced before and since the anchor. *)
Record grid_spec := GridSpec { gs_anchor : Z; gs_steered : Z; gs_before : Z; gs_since : Z }.

Definition grid_spec_step (s : grid_spec) (op : grid_op) : grid_spec :=
  match op with
  | GAdvance steer =>
      if 0 <? steer then GridSpec (gs_anchor s) (gs_steered s + steer) (gs_before s) (gs_since s)
      else GridSpec (gs_anchor s) (gs_steered s) (gs_before s) (gs_since s + 1)
  | GRebase now => GridSpec now 0 (gs_before s + gs_since s) 1
  end.

(** [k] nominal periods at [fps], to the nanosecond. *)
Definition periods_ns (fps k : Z) : Z := k * NS_PER_S / fps.
Definition grid_instant (fps : Z) (s : grid_spec) : Z :=
  gs_anchor s + gs_steered s + periods_ns fps (gs_before s + gs_since s) - periods_ns fps (gs_before s).

Record grid_exact (fps : Z) (g : reac_etf_grid) (s : grid_spec) : Prop := {
  gx_launch : eg_launch_ns g = u64 (grid_instant fps s);
  gx_frac : eg_frac g = ((gs_before s + gs_since s) * NS_PER_S) mod fps;
  gx_whole : eg_whole g = NS_PER_S / fps;
  gx_rem : eg_rem g = NS_PER_S mod fps;
  gx_fps : eg_fps g = fps
}.

Lemma u64_add_l a b : u64 (u64 a + b) = u64 (a + b).
Proof. unfold u64. by rewrite Zplus_mod_idemp_l. Qed.
Lemma u64_add_r a b : u64 (a + u64 b) = u64 (a + b).
Proof. unfold u64. by rewrite Zplus_mod_idemp_r. Qed.
Lemma u64_small x : 0 ≤ x < 2 ^ 64 → u64 x = x.
Proof. intros. unfold u64. by apply Z.mod_small. Qed.

Section Grid.
Context (fps : Z) (Hfps : 0 < fps < 2 ^ 31).

(** One more period: the quotient and the remainder carry apart. *)
Lemma period_carry k :
  let f := (k * NS_PER_S) mod fps + NS_PER_S mod fps in
  if fps <=? f
  then periods_ns fps (k + 1) = periods_ns fps k + NS_PER_S / fps + 1 ∧
       ((k + 1) * NS_PER_S) mod fps = f - fps
  else periods_ns fps (k + 1) = periods_ns fps k + NS_PER_S / fps ∧
       ((k + 1) * NS_PER_S) mod fps = f.
Proof using Hfps.
  cbv zeta. unfold periods_ns. replace ((k + 1) * NS_PER_S) with (k * NS_PER_S + NS_PER_S) by ring.
  generalize (k * NS_PER_S) as a. generalize NS_PER_S as b. intros b a.
  pose proof (Z.div_mod a fps ltac:(lia)). pose proof (Z.div_mod b fps ltac:(lia)).
  pose proof (Z.mod_pos_bound a fps ltac:(lia)). pose proof (Z.mod_pos_bound b fps ltac:(lia)).
  destruct (Z.leb_spec fps (a mod fps + b mod fps)).
  - split.
    + symmetry. apply (Z.div_unique_pos _ _ _ (a mod fps + b mod fps - fps)); lia.
    + symmetry. apply (Z.mod_unique_pos _ _ (a / fps + b / fps + 1)); lia.
  - split.
    + symmetry. apply (Z.div_unique_pos _ _ _ (a mod fps + b mod fps)); lia.
    + symmetry. apply (Z.mod_unique_pos _ _ (a / fps + b / fps)); lia.
Qed.

Lemma grid_advance_nominal g s :
  grid_exact fps g s →
  grid_exact fps (reac_etf_grid_advance g 0)
    (GridSpec (gs_anchor s) (gs_steered s) (gs_before s) (gs_since s + 1)).
Proof using Hfps.
  intros []. pose proof (period_carry (gs_before s + gs_since s)) as C. cbv zeta in C.
  pose proof (Z.mod_pos_bound ((gs_before s + gs_since s) * NS_PER_S) fps ltac:(lia)).
  pose proof (Z.mod_pos_bound NS_PER_S fps ltac:(lia)).
  unfold reac_etf_grid_advance. cbv zeta. change (0 <? 0) with false. cbv iota.
  rewrite gx_fps0, gx_frac0, gx_rem0, gx_whole0, gx_launch0.
  assert (u32 (((gs_before s + gs_since s) * NS_PER_S) mod fps + NS_PER_S mod fps)
    = ((gs_before s + gs_since s) * NS_PER_S) mod fps + NS_PER_S mod fps) as ->
    by (unfold u32; apply Z.mod_small; lia).
  destruct (fps <=? _) eqn:E in C |- *; destruct C as [C1 C2]; split; simpl; try done.
  - rewrite u64_add_l, <- Z.add_assoc, u64_add_l. f_equal. unfold grid_instant. simpl.
    rewrite (Z.add_assoc (gs_before s)), C1. lia.
  - rewrite Z.add_assoc, C2. unfold u32. apply Z.mod_small. lia.
  - rewrite u64_add_l. f_equal. unfold grid_instant. simpl.
    rewrite (Z.add_assoc (gs_before s)), C1. lia.
  - by rewrite Z.add_assoc, C2.
Qed.

Lemma grid_exact_step g s op :
  grid_op_ok op → grid_exact fps g s → grid_exact fps (grid_step g op) (grid_spec_step s op).
Proof using Hfps.
  intros Hop HR. destruct op as [steer|now]; cbn [grid_step grid_spec_step].
  - destruct (0 <? steer) eqn:E.
    + destruct HR. unfold reac_etf_grid_advance. rewrite E. split; simpl; try done.
      rewrite gx_launch0, u64_add_l, u64_add_r. f_equal. unfold grid_instant. simpl. lia.
    + apply grid_advance_nominal in HR. unfold reac_etf_grid_advance in HR |- *.
      rewrite E. change (0 <? 0) with false in HR. exact HR.
  - unfold reac_etf_grid_rebase. destruct HR.
    apply (grid_advance_nominal _ (GridSpec now 0 (gs_before s + gs_since s) 0)).
    split; simpl; try done.
    + cbn [grid_op_ok] in Hop. unfold grid_instant. simpl. rewrite !Z.add_0_r, Z.add_simpl_r.
      symmetry. apply u64_small. lia.
    + by rewrite Z.add_0_r.
Qed.
End Grid.

(** C25. The launch grid never loses a nanosecond. From the start and through any
    sequence of nominal slots, slots steered by the clock discipline and re-bases,
    the launch time is the last anchor plus what was steered plus the whole number
    of nominal periods since, each instant rounded down from the exact rational
    n*10^9/fps: the rounding of one slot never carries into the next, and a
    steered slot or a re-base leaves the phase of the remainder where it was. *)
Theorem etf_grid_exact (fps base : Z) (ops : list grid_op) :
  0 < fps < 2 ^ 31 → 0 ≤ base < 2 ^ 64 → Forall grid_op_ok ops →
  ∃ g, reac_etf_grid_init fps base = (REAC_ETF_OK, g) ∧
    eg_launch_ns (foldl grid_step g ops) =
      u64 (grid_instant fps (foldl grid_spec_step (GridSpec base 0 0 0) ops)).
Proof.
  intros Hfps Hbase Hops. unfold reac_etf_grid_init. rewrite (proj2 (Z.leb_gt _ _)) by lia.
  eexists. split; [done|]. apply gx_launch.
  assert (grid_exact fps (EtfGrid base base 0 (u32 (NS_PER_S / u32 fps)) (u32 (NS_PER_S mod u32 fps)) 0 (u32 fps))
    (GridSpec base 0 0 0)) as H0.
  { assert (u32 fps = fps) as -> by (unfold u32; apply Z.mod_small; lia).
    split; simpl; [| |unfold u32; apply Z.mod_small..|done].
    - replace (grid_instant _ _) with base; [symmetry; apply u64_small; lia|].
      unfold grid_instant. cbn [gs_anchor gs_steered gs_before gs_since].
      rewrite Z.add_simpl_r. symmetry. apply Z.add_0_r.
    - symmetry. apply Z.mod_0_l. lia.
    - unfold NS_PER_S. split; [apply Z.div_pos; lia|]. apply Z.le_lt_trans with (1000000000 / 1); [|by vm_compute].
      apply Z.div_le_compat_l; lia.
    - pose proof (Z.mod_pos_bound NS_PER_S fps ltac:(lia)). lia. }
  revert H0. generalize (EtfGrid base base 0 (u32 (NS_PER_S / u32 fps)) (u32 (NS_PER_S mod u32 fps)) 0 (u32 fps)).
  generalize (GridSpec base 0 0 0). induction Hops as [|op ops Hop Hops IH]; intros s g HR; [done|].
  simpl. apply IH. by apply grid_exact_step.
Qed.

(** Thirteen 44.1 kHz slots, one steered by a microsecond, then a re-base. *)
Definition demo_grid_ops : list grid_op :=
  replicate 13 (GAdvance 0) ++ [GAdvance 273109; GRebase 9000000; GAdvance 0].

Lemma etf_grid_exact_witness :
  eg_launch_ns (foldl grid_step (reac_etf_grid_init 3675 1000).2 demo_grid_ops) = 9544218.
Proof.
  destruct (etf_grid_exact 3675 1000 demo_grid_ops) as (g & Hg & Hrun).
  - lia.
  - lia.
  - repeat constructor; simpl; lia.
  - rewrite Hg. unfold snd. rewrite Hrun. vm_compute. reflexivity.
Defined.

(** A whole second of nominal slots takes a second, whatever the rate. *)
Lemma grid_second fps : 0 < fps → periods_ns fps fps = NS_PER_S.
Proof. intros. unfold periods_ns. rewrite Z.mul_comm. apply Z.div_mul. lia. Qed.

(** ** No slot is lost unaccounted *)

Definition turns (c : slot_clock) (follow : bool) (ts : list (Z * Z)) : slot_clock :=
  foldl (λ c t, slot_clock_turn c follow t.1 t.2) c ts.

(** The slots a run of turns is asked for, in nanoseconds. *)
Definition asked_ns (ts : list (Z * Z)) : Z := zsum (fst <$> ts).

(** A turn in service: a positive period below a second, a clock below 2^62. *)
Definition turn_ok (t : Z * Z) : Prop := 0 < t.1 < 2 ^ 30 ∧ 0 ≤ t.2 < 2 ^ 62.

(** The books after [n] turns that were asked for [asked] nanoseconds. *)
Record books (d0 : Z) (c0 c : slot_clock) (asked n : Z) : Prop := {
  bk_thread : sc_etf c = false;
  bk_period : sc_period_ns c = sc_period_ns c0;
  bk_budget : sc_catchup_max_slots c = sc_catchup_max_slots c0;
  bk_late : 0 ≤ sc_slots_catchup c ≤ sc_late_wakes c ∧ sc_late_wakes c ≤ n;
  bk_dropped : 0 ≤ sc_slots_dropped c;
  bk_low : d0 + asked + sc_slots_dropped c * sc_period_ns c0 ≤ sc_deadline c;
  bk_high : sc_deadline c ≤ d0 + asked + sc_slots_dropped c * sc_period_ns c0
              + (sc_late_wakes c - sc_slots_catchup c) * (sc_period_ns c0 - 1);
  bk_top : sc_deadline c ≤ 2 ^ 62 + n * 2 ^ 30;
  bk_debt : 0 ≤ sc_slot_debt_max c;
  bk_repaid : sc_slot_debt_max c ≤ sc_catchup_max_slots c0 → sc_slots_catchup c = sc_late_wakes c
}.

Lemma scale_up x p : 0 ≤ x → 1 ≤ p → x ≤ x * p.
Proof. nia. Qed.

Section Books.
Context (c0 : slot_clock).
Hypothesis Hthread : sc_etf c0 = false.
Hypothesis Hperiod : 0 < sc_period_ns c0 < 2 ^ 30.
Hypothesis Hbudget : 0 < sc_catchup_max_slots c0 < 2 ^ 32 - 1.
Hypothesis Hd0 : 0 ≤ sc_deadline c0 < 2 ^ 62.

(** A clock past the deadline is [behind - 1] whole periods and a part past it. *)
Lemma behind_spec c now :
  sc_period_ns c = sc_period_ns c0 → 0 ≤ sc_deadline c < now → now < 2 ^ 62 →
  let b := slots_behind c now in
  0 < b ∧ (b - 1) * sc_period_ns c0 ≤ now - sc_deadline c < b * sc_period_ns c0 ∧ b ≤ 2 ^ 62.
Proof using Hd0 Hperiod.
  intros Hp Hd Hn. unfold slots_behind. rewrite Hp, !(u64_small (_ - _)), (u64_small (sc_period_ns c0)) by lia.
  set (x := now - sc_deadline c). assert (0 < x < 2 ^ 62) as Hx by lia. clearbody x.
  pose proof (Z.div_mod x (sc_period_ns c0) ltac:(lia)) as E.
  pose proof (Z.mod_pos_bound x (sc_period_ns c0) ltac:(lia)).
  assert (0 ≤ x / sc_period_ns c0 ≤ x) by (split; [apply Z.div_pos|apply Z.div_le_upper_bound]; nia).
  rewrite u64_small by lia. cbv zeta. revert E. generalize (x / sc_period_ns c0) as q. intros. nia.
Qed.

Lemma settle_on_time c asked n now :
  now ≤ sc_deadline c → books (sc_deadline c0) c0 c asked n →
  books (sc_deadline c0) c0 (slot_clock_settle c now) asked n.
Proof using. intros. unfold slot_clock_settle. by rewrite (proj2 (Z.leb_le _ _)). Qed.

Lemma settle_late c asked n now :
  sc_deadline c < now < 2 ^ 62 → 0 ≤ asked → 0 ≤ n ≤ 2 ^ 32 → sc_late_wakes c < n →
  books (sc_deadline c0) c0 c asked n → books (sc_deadline c0) c0 (slot_clock_settle c now) asked n.
Proof using Hperiod Hbudget Hd0.
  intros Hw Ha Hn Hl [].
  destruct (behind_spec c now) as (B1 & B2 & B3); [done|nia|lia|].
  unfold slot_clock_settle. rewrite (proj2 (Z.leb_gt _ _)) by lia.
  set (b := slots_behind c now) in *. clearbody b. cbv zeta.
  rewrite bk_budget0, bk_thread0, bk_period0, (u64_small (sc_period_ns c0)) by lia.
  set (b32 := if _ <? b then _ else _).
  assert (Z.min b (2 ^ 32 - 1) = b32) as Hb.
  { subst b32. unfold u32. destruct (Z.ltb_spec (2 ^ 32 - 1) b); [lia|]. rewrite Z.mod_small; lia. }
  clearbody b32. replace (negb (sc_catchup_max_slots c0 =? 0)) with true by lia.
  set (P := sc_period_ns c0) in *. set (D := sc_slots_dropped c) in *.
  assert (D ≤ D * P ∧ b ≤ b * P) as [HD HB] by (split; apply scale_up; lia).
  assert (0 ≤ (sc_late_wakes c - sc_slots_catchup c) * (P - 1)) by (apply Z.mul_nonneg_nonneg; lia).
  assert (Z.max (sc_slot_debt_max c) b32 = if sc_slot_debt_max c <? b32 then b32 else sc_slot_debt_max c)
    as <- by (destruct (Z.ltb_spec (sc_slot_debt_max c) b32); lia).
  rewrite !(u64_small (sc_late_wakes c + 1)), !(u64_small (sc_slots_catchup c + 1)), (u64_small (D + b)),
    (u64_small (now + P)) by lia.
  destruct (b <=? sc_catchup_max_slots c0) eqn:E; cbn [andb]; split; simpl; try done; fold P D; lia.
Qed.

Lemma turn_books c asked n t :
  books (sc_deadline c0) c0 c asked n → 0 ≤ asked → 0 ≤ n < 2 ^ 32 → turn_ok t →
  ∀ follow, books (sc_deadline c0) c0 (slot_clock_turn c follow t.1 t.2) (asked + t.1) (n + 1).
Proof using Hthread Hperiod Hbudget Hd0.
  intros HB Ha Hn [Hs Hw] follow. unfold slot_clock_turn.
  assert (books (sc_deadline c0) c0 (slot_clock_advance c follow t.1) (asked + t.1) (n + 1)
    ∧ sc_late_wakes (slot_clock_advance c follow t.1) < n + 1) as [HB' Hl].
  { destruct HB. unfold slot_clock_advance. rewrite bk_thread0.
    assert (0 ≤ sc_slots_dropped c * sc_period_ns c0) by (apply Z.mul_nonneg_nonneg; lia).
    split; [split; simpl; try done; rewrite ?u64_add_r, ?u64_small by lia; lia|simpl; lia]. }
  destruct (Z.le_gt_cases t.2 (sc_deadline (slot_clock_advance c follow t.1))).
  - by apply settle_on_time.
  - apply settle_late; [lia..|done].
Qed.

Lemma turns_books c asked n follow ts :
  books (sc_deadline c0) c0 c asked n → 0 ≤ asked → 0 ≤ n → n + zlen ts ≤ 2 ^ 32 → Forall turn_ok ts →
  books (sc_deadline c0) c0 (turns c follow ts) (asked + asked_ns ts) (n + zlen ts).
Proof using Hthread Hperiod Hbudget Hd0.
  intros HB Ha Hn Hlen Hts. revert c asked n HB Ha Hn Hlen. induction Hts as [|t ts Ht Hts IH]; intros.
  - change (asked_ns []) with 0. change (zlen (@nil (Z * Z))) with 0. rewrite !Z.add_0_r. exact HB.
  - rewrite zlen_cons in Hlen |- *. pose proof (zlen_nonneg ts).
    change (asked_ns (t :: ts)) with (t.1 + asked_ns ts).
    replace (n + (1 + zlen ts)) with (n + 1 + zlen ts) by lia. rewrite Z.add_assoc.
    pose proof (proj1 Ht). apply (IH (slot_clock_turn c follow t.1 t.2)); [|lia..].
    apply turn_books; [done|lia|lia|done].
Qed.
End Books.

(** C26. The slot clock accounts for every slot of wire time. On the thread backend,
    through any run of turns from the start of the loop, the deadline is the first
    deadline plus every period asked for plus the slots counted as dropped, up to
    less than one period of phase for each late wake that was not repaid; and when
    the worst single debt recorded is within the budget, every late wake was
    repaid and the deadline is exactly on the original grid. *)
Theorem slot_debt_accounted (c : slot_clock) (follow : bool) (ts : list (Z * Z)) :
  sc_etf c = false → 0 < sc_period_ns c < 2 ^ 30 → 0 < sc_catchup_max_slots c < 2 ^ 32 - 1 →
  0 ≤ sc_deadline c < 2 ^ 62 →
  sc_late_wakes c = 0 → sc_slots_catchup c = 0 → sc_slots_dropped c = 0 → sc_slot_debt_max c = 0 →
  zlen ts ≤ 2 ^ 32 → Forall turn_ok ts →
  let c' := turns c follow ts in
  let on_grid := sc_deadline c + asked_ns ts in
  let rebased := sc_late_wakes c' - sc_slots_catchup c' in
  let dropped_ns := sc_slots_dropped c' * sc_period_ns c in
  0 ≤ rebased ∧
  on_grid + dropped_ns ≤ sc_deadline c' ≤ on_grid + dropped_ns + rebased * (sc_period_ns c - 1) ∧
  (sc_slot_debt_max c' ≤ sc_catchup_max_slots c → rebased = 0).
Proof.
  intros Ht Hp Hb Hd Hl Hc Hdr Hm Hlen Hts.
  assert (books (sc_deadline c) c c 0 0) as HB by (split; rewrite ?Hl, ?Hc, ?Hdr, ?Hm; lia || done).
  apply (turns_books c Ht Hp Hb Hd c 0 0 follow ts) in HB; [|lia..|done]. destruct HB.
  cbv zeta. rewrite Z.add_0_l in *. split_and!; lia.
Qed.

(** Five 48 kHz slots: on time, one slot late and repaid, then a stall of ten
    slots that is abandoned. *)
Definition demo_slot_clock : slot_clock := slot_clock_start false 0 250000 4000 4 1000000.
Definition demo_turns : list (Z * Z) :=
  [(250000, 1250000); (250000, 1900000); (250000, 1950000); (250000, 4700000); (250000, 4950000)].

Lemma slot_debt_accounted_witness :
  let c' := turns demo_slot_clock false demo_turns in
  sc_late_wakes c' = 2 ∧ sc_slots_catchup c' = 1 ∧ sc_slots_dropped c' = 10 ∧
  1250000 + 5 * 250000 + 10 * 250000 ≤ sc_deadline c' ≤ 1250000 + 5 * 250000 + 10 * 250000 + 249999.
Proof.
  pose proof (slot_debt_accounted demo_slot_clock false demo_turns) as H.
  assert (sc_late_wakes (turns demo_slot_clock false demo_turns) = 2) as Hl by (vm_compute; reflexivity).
  assert (sc_slots_catchup (turns demo_slot_clock false demo_turns) = 1) as Hc by (vm_compute; reflexivity).
  assert (sc_slots_dropped (turns demo_slot_clock false demo_turns) = 10) as Hd by (vm_compute; reflexivity).
  cbv zeta in H |- *. rewrite Hl, Hc, Hd in H. destruct H as (_ & H & _); try reflexivity.
  - vm_compute. split; reflexivity.
  - vm_compute. split; reflexivity.
  - vm_compute. split; [discriminate|reflexivity].
  - vm_compute. discriminate.
  - unfold demo_turns, turn_ok. repeat (apply List.Forall_cons || apply List.Forall_nil); simpl; lia.
  - split; [exact Hl|]. split; [exact Hc|]. split; [exact Hd|]. exact H.
Defined.

(** ** The backend that was asked for *)

Lemma lead_resolved_in_bounds found :
  REAC_ETF_LEAD_US_MIN ≤ (reac_pacer_lead_us_resolve found).1 ≤ REAC_ETF_LEAD_US_MAX.
Proof.
  unfold reac_pacer_lead_us_resolve, reac_etf_lead_check, REAC_ETF_LEAD_US_MIN, REAC_ETF_LEAD_US_MAX,
    REAC_ETF_LEAD_US_DEFAULT.
  destruct found as [v|]; simpl; [|lia]. destruct (strtol10 v) as [[n [|]]|]; simpl; try lia.
  destruct ((u32 n <? 50) || (50000 <? u32 n)) eqn:E; simpl.
  - rewrite orb_true_r. simpl. lia.
  - destruct (n <=? 0); simpl; lia.
Qed.

Lemma arm_lead lead_us tai q setopt lead_ns :
  (pacer_arm_etf lead_us tai q setopt).2 = Some lead_ns ↔
  reac_etf_lead_check lead_us = REAC_ETF_OK ∧ 0 < tai ∧ q ≠ REAC_ETF_QDISC_NONE ∧ setopt = None ∧
  lead_ns = u32 (lead_us * 1000).
Proof.
  unfold pacer_arm_etf, reac_etf_socket_arm.
  destruct (bool_decide_reflect (reac_etf_lead_check lead_us = REAC_ETF_OK)); simpl; [|naive_solver].
  destruct (Z.ltb_spec tai 0); simpl; [split; [done|lia]|].
  destruct (Z.leb_spec tai 0), q, setopt as [errno|]; simpl; try destruct (errno =? EPERM); simpl;
    (split; [intros ?; simplify_eq; split_and!; done || lia|intros (_ & ? & ? & ? & ->); done || lia]).
Qed.

Lemma arm_refuses lead_us tai q setopt r :
  pacer_arm_etf lead_us tai q setopt = (r, None) → r ≠ REAC_ETF_OK.
Proof.
  unfold pacer_arm_etf. repeat case_match; intros; simplify_eq; try done;
    match goal with H : negb (bool_decide _) = true |- _ => apply negb_true_iff, bool_decide_eq_false in H end;
    done.
Qed.

(** The operator never gets another backend than the one asked for in silence.
    When a backend was asked for, opening runs exactly that one or fails with the
    code of the missing precondition; when none was, opening never fails and a
    fall-back to the thread remembers its refusal; and the launch grid is only
    ever on with every precondition met and a lead within its bounds. *)
Theorem backend_as_asked (asked lead : option (list Z)) (tai : Z) (q : reac_etf_qdisc_state) (setopt : option Z) :
  match open_backend asked lead tai q setopt with
  | OpenThread None => asked = Some (str "thread")
  | OpenThread (Some r) => asked = None ∧ r ≠ REAC_ETF_OK
  | OpenRefused r => is_Some asked ∧ asked ≠ Some (str "thread") ∧ r ≠ REAC_ETF_OK
  | OpenEtf lead_ns =>
      asked ≠ Some (str "thread") ∧ 0 < tai ∧ q ≠ REAC_ETF_QDISC_NONE ∧ setopt = None ∧
      1000 * REAC_ETF_LEAD_US_MIN ≤ lead_ns ≤ 1000 * REAC_ETF_LEAD_US_MAX
  end.
Proof.
  unfold open_backend. assert ((reac_pacer_backend_resolve asked).1 = REAC_PACER_BACKEND_THREAD ↔
    asked = Some (str "thread")) as Hb.
  { unfold reac_pacer_backend_resolve. destruct asked as [v|]; [|naive_solver].
    destruct (zeqb v (str "etf")) eqn:E; [apply zeqb_eq in E as ->; naive_solver|].
    destruct (zeqb v (str "thread")) eqn:E'; [apply zeqb_eq in E' as ->; naive_solver|].
    simpl. split; [done|]. intros [= ->]. by rewrite zeqb_refl in E'. }
  destruct (reac_pacer_backend_resolve asked).1; [naive_solver|].
  assert (asked ≠ Some (str "thread")) as Hn by naive_solver.
  pose proof (lead_resolved_in_bounds lead) as Hl.
  set (l := (reac_pacer_lead_us_resolve lead).1) in *. clearbody l.
  pose proof (arm_lead l tai q setopt) as HA. destruct (pacer_arm_etf l tai q setopt) as [r [ns|]] eqn:E.
  - destruct (proj1 (HA ns) eq_refl) as (_ & ? & ? & ? & ->). split_and!; [done..| |];
      unfold u32; rewrite Z.mod_small; unfold REAC_ETF_LEAD_US_MIN, REAC_ETF_LEAD_US_MAX in *; lia.
  - apply arm_refuses in E. case_bool_decide as Ha; [done|]. split; [|done].
    destruct asked; [exfalso; apply Ha; eauto|done].
Qed.

(** A mistyped word counts as an asked-for launch grid: where the device has no
    qdisc, opening fails. *)
Lemma mistyped_word_refuses :
  reac_pacer_backend_resolve (Some (str "thraed")) = (REAC_PACER_BACKEND_ETF, false) ∧
  open_backend (Some (str "thraed")) None 37 REAC_ETF_QDISC_NONE None = OpenRefused REAC_ETF_REFUSE_NO_QDISC.
Proof. by vm_compute. Qed.

(** A lead above 2^32 is checked after it has lost its high bits. *)
Lemma lead_loses_high_bits : reac_pacer_lead_us_resolve (Some (str "4294969796")) = (2500, true).
Proof. by vm_compute. Qed.

(** The nominal periods and budgets at the paces in use. *)
Lemma paces_in_use :
  reac_pacer_period_ns 8000 = 125000 ∧ reac_pacer_period_ns 4000 = 250000 ∧
  reac_pacer_period_ns 3675 = 272109 ∧ reac_catchup_default_slots 8000 = 8 ∧
  reac_catchup_default_slots 4000 = 4 ∧ reac_catchup_default_slots 3675 = 4.
Proof. by vm_compute. Qed.
