(* ===== verification/PacerClock.v ===== *)
(** * PacerClock: the references a pacer is offered and the one it follows

    Models the clock half of [transport/src/reac_pacer.c]: the slots publishers
    drop their samples in ([reac_pacer_clock_publish],
    [reac_pacer_clock_publish_graph]), the device labels, the tick of the pacer
    thread that ages them, drives the discipline of [Clock] and steers the period
    ([reac_pacer_clock_tick]), and the pace the segment publishes
    ([reac_pacer_pace_source]). One publication and one tick are the units that
    interleave. *)

From S2P Require Import Prelude Clock Arbitration Pace.
From Stdlib Require Import SpecFloat.
Local Open Scope Z_scope.

Definition REAC_CLOCK_TICK_SLOTS : Z := 1024.
Definition REAC_CLOCK_STALE_NS : Z := 2000000000.
Definition REAC_CLOCK_LABEL_MAX : Z := 28.

(** One cell per reference of the arrays of [struct reac_pacer]. *)
Definition per_source (A : Type) : Type := reac_clock_source → A.
Definition set_source {A} (s : reac_clock_source) (v : A) (f : per_source A) : per_source A :=
  λ x, if decide (x = s) then v else f x.

Record pacer_clock := PacerClock {
  pk_follow : bool; pk_period_ns : Z;
  pk_present : Z; pk_ppm_milli : per_source Z; pk_stamp_ns : per_source Z;
  pk_label : per_source (list Z); pk_quality : per_source reac_clock_quality;
  pk_pace : Z; pk_disc : reac_clock_disc; pk_slot_period_ns : Z; pk_slots : Z; pk_gen_seen : Z;
  pk_stamp_seen : per_source Z
}.

(** The clock fields [reac_pacer_open] leaves. *)
Definition pacer_clock_open (follow : bool) (period_ns : Z) : pacer_clock :=
  PacerClock follow period_ns 0 (λ _, 0) (λ _, 0) (λ _, []) (λ _, REAC_CLOCK_Q_UNUSABLE) 0
    (reac_clock_disc_init REAC_ROLE_MASTER period_ns) period_ns 0 0 (λ _, 0).

(** What [reac_pacer_apply_rate] does to them. *)
Definition pacer_clock_rerate (k : pacer_clock) (period_ns : Z) : pacer_clock :=
  PacerClock (pk_follow k) period_ns (pk_present k) (pk_ppm_milli k) (pk_stamp_ns k) (pk_label k)
    (pk_quality k) (pk_pace k) (reac_clock_disc_init REAC_ROLE_MASTER period_ns) period_ns
    (pk_slots k) (pk_gen_seen k) (pk_stamp_seen k).

(** ** Publication *)

(** The stored name, and whether it changed; names are their characters. *)
Definition reac_clock_label_set (stored : list Z) (name : option (list Z)) : list Z * bool :=
  match name with
  | None => (stored, false)
  | Some n =>
      if zeqb (slice stored 0 REAC_CLOCK_LABEL_MAX) (slice n 0 REAC_CLOCK_LABEL_MAX) then (stored, false)
      else (slice n 0 (REAC_CLOCK_LABEL_MAX - 1), true)
  end.

Definition reac_pacer_clock_publish (k : pacer_clock) (src : reac_clock_source) (present : bool)
    (ppm_milli : Z) (label : option (list Z)) (q : reac_clock_quality) (now_ns : Z) : pacer_clock :=
  if bool_decide (src = REAC_CLOCK_SRC_FREERUN) then k
  else if present then
    PacerClock (pk_follow k) (pk_period_ns k) (Z.lor (pk_present k) (Z.shiftl 1 (src_index src)))
      (set_source src ppm_milli (pk_ppm_milli k)) (set_source src now_ns (pk_stamp_ns k))
      (set_source src (reac_clock_label_set (pk_label k src) label).1 (pk_label k))
      (set_source src q (pk_quality k)) (pk_pace k) (pk_disc k) (pk_slot_period_ns k) (pk_slots k)
      (pk_gen_seen k) (pk_stamp_seen k)
  else
    PacerClock (pk_follow k) (pk_period_ns k)
      (Z.ldiff (pk_present k) (Z.shiftl 1 (src_index src))) (pk_ppm_milli k) (pk_stamp_ns k)
      (pk_label k) (pk_quality k) (pk_pace k) (pk_disc k) (pk_slot_period_ns k) (pk_slots k)
      (pk_gen_seen k) (pk_stamp_seen k).

Definition reac_pacer_clock_publish_graph (k : pacer_clock) (name : option (list Z)) (freewheel : bool)
    (rate_diff : spec_float) (nsec : Z) (clock_ref : option (list Z)) : pacer_clock :=
  if negb (pk_follow k) then k
  else if freewheel || negb (reac_clock_name_is_hardware name) then k
  else
    reac_pacer_clock_publish k REAC_CLOCK_SRC_GRAPH true
      (f64_to_Z (f64_mul (reac_clock_ppm_from_rate_diff rate_diff) (f64_of_Z 1000)))
      name (reac_clock_grade_name name clock_ref) nsec.

(** ** The tick *)

Definition fresh_sample (k : pacer_clock) (now_ns : Z) (s : reac_clock_source) : bool :=
  present (pk_present k) s && negb (pk_stamp_ns k s =? 0)
  && (u64 (now_ns - pk_stamp_ns k s) <? REAC_CLOCK_STALE_NS).

(** The sources of the loop, in its order. *)
Definition offered : list reac_clock_source :=
  [REAC_CLOCK_SRC_BOX; REAC_CLOCK_SRC_GRAPH; REAC_CLOCK_SRC_PHC; REAC_CLOCK_SRC_WIRE].

(** One turn of the loop: availability, and the grade handed to the discipline. *)
Definition offer_step (k : pacer_clock) (now_ns : Z) (st : Z * reac_clock_disc) (s : reac_clock_source)
    : Z * reac_clock_disc :=
  let '(avail, c) := st in
  if negb (present (pk_present k) s) then (avail, c)
  else
    (if negb (pk_stamp_ns k s =? 0) && (u64 (now_ns - pk_stamp_ns k s) <? REAC_CLOCK_STALE_NS)
     then Z.lor avail (Z.shiftl 1 (src_index s)) else avail,
     reac_clock_disc_set_quality c s (pk_quality k s)).

Definition state_index (s : reac_clock_state) : Z :=
  match s with
  | REAC_CLOCK_UNLOCKED => 0 | REAC_CLOCK_LOCKING => 1 | REAC_CLOCK_LOCKED => 2 | REAC_CLOCK_HOLDOVER => 3
  end.

(** The bytes of the [REAC_PEV_CLOCK] event: source, state and grade, block. *)
Definition clock_event (c : reac_clock_disc) (label : list Z) : Z * Z * list Z :=
  let applied := f64_to_Z (f64_mul (d_applied_ppm (c_dll c)) (f64_of_Z 1000)) in
  let blk := blit (zeros 32) 0 [u8 applied; u8 (Z.shiftr applied 8); u8 (Z.shiftr applied 16);
                                u8 (Z.shiftr applied 24)] in
  (src_index (c_src c),
   u8 (Z.lor (state_index (c_state c)) (Z.shiftl (quality_rank (c_src_quality c)) 4)),
   if bool_decide (c_src c = REAC_CLOCK_SRC_FREERUN) then blk else blit blk 4 label).

(** What one evaluation is fed: the fresh references and the grades. *)
Definition clock_offer (k : pacer_clock) (now_ns : Z) : Z * reac_clock_disc :=
  foldl (offer_step k now_ns) (0, pk_disc k) offered.

(** Only a sample not seen before steers: the flag and the measurement. *)
Definition clock_sample (k : pacer_clock) (avail : Z) (c : reac_clock_disc)
    : reac_clock_source * bool * spec_float :=
  let sel := reac_clock_select_graded (c_role c) avail (Some (c_quality c)) (c_min_quality c) in
  let have := negb (bool_decide (sel = REAC_CLOCK_SRC_FREERUN))
              && negb (pk_stamp_ns k sel =? pk_stamp_seen k sel) in
  (sel, have, if have then f64_div (f64_of_Z (pk_ppm_milli k sel)) (f64_of_Z 1000) else f64_zero).

(** The enumerators of the mirrored pace. *)
Definition pace_word (c : reac_clock_disc) : Z :=
  Z.lor (src_index (c_src c)) (Z.shiftl (state_index (c_state c)) 8).

(** An evaluation of the discipline; the event when the reference or its state
    changed. *)
Definition clock_evaluate (k : pacer_clock) (now_ns : Z) : pacer_clock * option (Z * Z * list Z) :=
  let '(avail, c) := clock_offer k now_ns in
  let '(sel, have, ppm) := clock_sample k avail c in
  let seen := if have then set_source sel (pk_stamp_ns k sel) (pk_stamp_seen k) else pk_stamp_seen k in
  let c := reac_clock_disc_update c avail ppm have in
  let period := reac_clock_disc_period_ns c in
  (PacerClock (pk_follow k) (pk_period_ns k) (pk_present k) (pk_ppm_milli k) (pk_stamp_ns k) (pk_label k)
     (pk_quality k) (pace_word c) c period 0 (c_generation c) seen,
   if c_generation c =? pk_gen_seen k then None else Some (clock_event c (pk_label k (c_src c)))).

(** The state, the period this slot advances by, and the event pushed. *)
Definition reac_pacer_clock_tick (k : pacer_clock) (now_ns : Z)
    : pacer_clock * Z * option (Z * Z * list Z) :=
  if negb (pk_follow k) then (k, pk_period_ns k, None)
  else
    let slots := u32 (pk_slots k + 1) in
    if slots <? REAC_CLOCK_TICK_SLOTS then
      (PacerClock (pk_follow k) (pk_period_ns k) (pk_present k) (pk_ppm_milli k) (pk_stamp_ns k)
         (pk_label k) (pk_quality k) (pk_pace k) (pk_disc k) (pk_slot_period_ns k) slots (pk_gen_seen k)
         (pk_stamp_seen k), pk_slot_period_ns k, None)
    else let '(k, ev) := clock_evaluate k now_ns in (k, pk_slot_period_ns k, ev).

(** The enumerators a byte of the mirror stands for; others fall to the default
    of [reac_pace_from_clock]. *)
Definition source_of_byte (b : Z) : reac_clock_source :=
  if b =? 1 then REAC_CLOCK_SRC_BOX else if b =? 2 then REAC_CLOCK_SRC_GRAPH
  else if b =? 3 then REAC_CLOCK_SRC_PHC else if b =? 4 then REAC_CLOCK_SRC_WIRE
  else REAC_CLOCK_SRC_FREERUN.
Definition state_of_byte (b : Z) : reac_clock_state :=
  if b =? 1 then REAC_CLOCK_LOCKING else if b =? 2 then REAC_CLOCK_LOCKED
  else if b =? 3 then REAC_CLOCK_HOLDOVER else REAC_CLOCK_UNLOCKED.

Definition reac_pacer_pace_source (k : pacer_clock) : reac_pace_source :=
  if negb (pk_follow k) then REAC_PACE_FREE_RUN
  else reac_pace_from_clock (source_of_byte (Z.land (pk_pace k) 0xff))
         (state_of_byte (Z.land (Z.shiftr (pk_pace k) 8) 0xff)).

(** ** A published pace was measured *)

Definition evaluates (k : pacer_clock) : bool :=
  pk_follow k && negb (u32 (pk_slots k + 1) <? REAC_CLOCK_TICK_SLOTS).

(** *** Publications and the samples made of them

    What each publisher has published, newest first, in thousandths of a ppm; and
    the accepted samples, newest first: the reference whose publisher was read, how
    many times it had published, the value handed to the loop, and whether the
    filtered residual was in band after it. *)
Definition publications : Type := per_source (list Z).
Record fed := Fed { fe_src : reac_clock_source; fe_pub : nat; fe_ppm : spec_float; fe_in_band : bool }.

Definition published (P : publications) (src : reac_clock_source) (present : bool) (ppm_milli : Z) : publications :=
  if bool_decide (src = REAC_CLOCK_SRC_FREERUN) || negb present then P
  else set_source src (ppm_milli :: P src) P.
Definition graph_published (P : publications) (k : pacer_clock) (name : option (list Z)) (freewheel : bool)
    (rate_diff : spec_float) : publications :=
  if negb (pk_follow k) || freewheel || negb (reac_clock_name_is_hardware name) then P
  else published P REAC_CLOCK_SRC_GRAPH true
         (f64_to_Z (f64_mul (reac_clock_ppm_from_rate_diff rate_diff) (f64_of_Z 1000))).

(** The value of the [n]th publication of a reference, as the loop reads it. *)
Definition value_of (P : publications) (s : reac_clock_source) (n : nat) (x : spec_float) : Prop :=
  ∃ v, rev (P s) !! (n - 1)%nat = Some v ∧ x = f64_div (f64_of_Z v) (f64_of_Z 1000).

(** The log of accepted samples after an evaluation: an entry says whose sample
    was read, not which reference the discipline then reports. *)
Definition evaluate_log (k : pacer_clock) (now_ns : Z) (P : publications) (log : list fed) : list fed :=
  let '(avail, c) := clock_offer k now_ns in
  let '(sel, have, ppm) := clock_sample k avail c in
  let c' := reac_clock_disc_update c avail ppm have in
  if sample_accepted c avail ppm have
  then Fed sel (length (P sel)) ppm (f64_ltb (d_resid_ema (c_dll c')) REAC_DLL_LOCK_PPM) :: log else log.

(** Every state the publishers, the slots and a rate change can lead to. *)
Inductive pclock_reach : pacer_clock → publications → list fed → Prop :=
| pc_open follow period : pclock_reach (pacer_clock_open follow period) (λ _, []) []
| pc_publish k P log src present ppm label q now :
    pclock_reach k P log →
    pclock_reach (reac_pacer_clock_publish k src present ppm label q now) (published P src present ppm) log
| pc_publish_graph k P log name fw rate nsec ref :
    pclock_reach k P log →
    pclock_reach (reac_pacer_clock_publish_graph k name fw rate nsec ref) (graph_published P k name fw rate) log
| pc_tick k P log now :
    pclock_reach k P log →
    pclock_reach (reac_pacer_clock_tick k now).1.1 P (if evaluates k then evaluate_log k now P log else log)
| pc_rerate k P log period : pclock_reach k P log → pclock_reach (pacer_clock_rerate k period) P [].

Lemma present_lor avail s s' :
  0 ≤ avail → present (Z.lor avail (Z.shiftl 1 (src_index s'))) s = present avail s || bool_decide (s = s').
Proof.
  intros. unfold present. rewrite Z.lor_spec. f_equal.
  by destruct s, s'; vm_compute.
Qed.

(** The walk over the offered references. *)
Lemma offer_fold k now role nominal log l :
  ∀ avail c,
  clock_run role nominal c log → 0 ≤ avail →
  (∀ s, present avail s = true → fresh_sample k now s = true ∧ c_quality c s = pk_quality k s) →
  let '(avail, c) := foldl (offer_step k now) (avail, c) l in
  clock_run role nominal c log ∧
  ∀ s, present avail s = true → fresh_sample k now s = true ∧ c_quality c s = pk_quality k s.
Proof.
  induction l as [|s' l IH]; intros avail c Hrun Ha H; [done|]. cbn [foldl offer_step].
  destruct (present (pk_present k) s') eqn:Ep; cbn [negb]; [|by apply IH].
  apply IH; [by apply run_grade|destruct (_ && _); [apply Z.lor_nonneg; split; [done|apply Z.shiftl_nonneg; lia]|done]|].
  intros s. unfold reac_clock_disc_set_quality. cbn [c_quality].
  destruct (negb (pk_stamp_ns k s' =? 0) && (u64 (now - pk_stamp_ns k s') <? REAC_CLOCK_STALE_NS)) eqn:Ef.
  - rewrite present_lor by done. intros [Hs|Hs%bool_decide_eq_true]%orb_true_iff.
    + destruct (H s Hs). by destruct (decide (s = s')) as [->|].
    + subst s'. split; [|by rewrite decide_True]. unfold fresh_sample. by rewrite Ep, <- andb_assoc, Ef.
  - intros Hs. destruct (H s Hs). by destruct (decide (s = s')) as [->|].
Qed.

Lemma offer_spec k now role nominal log :
  clock_run role nominal (pk_disc k) log →
  let '(avail, c) := clock_offer k now in
  clock_run role nominal c log ∧
  ∀ s, present avail s = true → fresh_sample k now s = true ∧ c_quality c s = pk_quality k s.
Proof.
  intros. apply (offer_fold k now role nominal log offered 0 (pk_disc k)); [done|done|]. intros s.
  unfold present. by rewrite Z.testbit_0_l.
Qed.

Lemma publish_disc k src p ppm label q now : pk_disc (reac_pacer_clock_publish k src p ppm label q now) = pk_disc k.
Proof. unfold reac_pacer_clock_publish. by repeat case_match. Qed.

Lemma select_from_offered h avail q min_q :
  let s := select_from h avail (Some q) min_q in
  s = REAC_CLOCK_SRC_FREERUN ∨ present avail s = true ∧ quality_rank min_q ≤ quality_rank (q s).
Proof.
  cbv zeta. induction h as [|s h IH]; [by left|]. simpl. destruct (present avail s) eqn:Ep; [|done]. simpl.
  destruct (quality_rank min_q <=? quality_rank (q s)) eqn:Eq; [|done]. right. split; [done|by apply Z.leb_le].
Qed.

Lemma pace_word_read c :
  reac_pace_from_clock (source_of_byte (Z.land (pace_word c) 0xff))
    (state_of_byte (Z.land (Z.shiftr (pace_word c) 8) 0xff)) = reac_pace_from_clock (c_src c) (c_state c).
Proof. unfold pace_word. by destruct (c_src c), (c_state c). Qed.

(** A published sample is fed once: [n s] is the number of publications of [s] when
    its last sample was read. *)
Record fed_ok (k : pacer_clock) (P : publications) (log : list fed) (n : per_source nat) : Prop := {
  fo_value : ∀ s v l, P s = v :: l → pk_ppm_milli k s = v;
  fo_none : ∀ s, P s = [] → pk_stamp_ns k s = 0 ∧ pk_stamp_seen k s = 0;
  fo_read : ∀ s, (n s ≤ length (P s))%nat;
  fo_seen : ∀ s, n s = length (P s) → pk_stamp_seen k s = pk_stamp_ns k s;
  fo_log : ∀ e, e ∈ log → (1 ≤ fe_pub e ≤ n (fe_src e))%nat ∧ value_of P (fe_src e) (fe_pub e) (fe_ppm e);
  fo_fresh : ∀ i j e f, log !! i = Some e → log !! j = Some f → (i < j)%nat → fe_src e = fe_src f →
    (fe_pub f < fe_pub e)%nat
}.

Lemma value_of_published P src present ppm s n x :
  (1 ≤ n ≤ length (P s))%nat → value_of P s n x → value_of (published P src present ppm) s n x.
Proof.
  intros Hn (v & Hv & Hx). exists v. split; [|done]. unfold published. case_match; [done|].
  unfold set_source. destruct (decide (s = src)) as [->|]; [|exact Hv]. simpl. rewrite lookup_app_l; [done|].
  rewrite length_rev. lia.
Qed.

Lemma fed_publish k P log n src present ppm label q now :
  fed_ok k P log n →
  fed_ok (reac_pacer_clock_publish k src present ppm label q now) (published P src present ppm) log n.
Proof.
  intros [Hv H0 Hr Hs Hl Hf].
  assert (Hlog : ∀ e, e ∈ log → (1 ≤ fe_pub e ≤ n (fe_src e))%nat ∧
                 value_of (published P src present ppm) (fe_src e) (fe_pub e) (fe_ppm e)).
  { intros e He. destruct (Hl e He) as [Hb Hval]. split; [done|]. apply value_of_published; [|done].
    specialize (Hr (fe_src e)). lia. }
  unfold reac_pacer_clock_publish, published in *. case_bool_decide as Hfr; simpl in *; [by split|].
  destruct present; simpl in *; [|by split].
  split; simpl; try done; unfold set_source; intros s.
  - intros v l. case_decide; [by intros [= -> _]|apply Hv].
  - case_decide; [done|apply H0].
  - specialize (Hr s). case_decide; [subst; simpl; lia|done].
  - specialize (Hr s). case_decide; [subst; simpl; lia|apply Hs].
Qed.

Lemma fed_publish_graph k P log n name fw rate nsec ref :
  fed_ok k P log n →
  fed_ok (reac_pacer_clock_publish_graph k name fw rate nsec ref) (graph_published P k name fw rate) log n.
Proof.
  intros H. unfold reac_pacer_clock_publish_graph, graph_published.
  destruct (pk_follow k); simpl; [|done]. destruct (fw || _); [done|]. by apply fed_publish.
Qed.

(** An evaluation reads the publisher it selects, and only if it has published since. *)
Lemma sample_new k P log n avail c sel have ppm :
  fed_ok k P log n → clock_sample k avail c = (sel, have, ppm) → have = true →
  sel = reac_clock_select_graded (c_role c) avail (Some (c_quality c)) (c_min_quality c) ∧
  (n sel < length (P sel))%nat ∧ value_of P sel (length (P sel)) ppm.
Proof.
  intros [Hv H0 Hr Hs _ _]. unfold clock_sample. set (g := reac_clock_select_graded _ _ _ _).
  intros E ->. injection E as Es Eh Ep. rewrite Eh in Ep. apply andb_true_iff in Eh as [_ Eh].
  split; [done|]. subst sel. specialize (Hr g). specialize (Hs g).
  assert (pk_stamp_ns k g ≠ pk_stamp_seen k g) as Hne by (intros E; rewrite E, Z.eqb_refl in Eh; done).
  split; [destruct (decide (n g = length (P g))) as [E|]; [exfalso; apply Hne; by rewrite Hs|lia]|].
  destruct (P g) as [|v l] eqn:EP; [exfalso; apply Hne; destruct (H0 g EP); congruence|].
  exists v. split; [|by rewrite <- Ep, (Hv g v l)]. rewrite EP. simpl. rewrite Nat.sub_0_r, lookup_app_r by (by rewrite length_rev).
  by rewrite length_rev, Nat.sub_diag.
Qed.

(** The log of the discipline is that of the fed samples. *)
Definition as_sample (e : fed) : reac_clock_source * bool := (fe_src e, fe_in_band e).

Record pclock_inv (k : pacer_clock) (P : publications) (log : list fed) : Prop := {
  pi_run : ∃ nominal, clock_run REAC_ROLE_MASTER nominal (pk_disc k) (as_sample <$> log);
  pi_fed : ∃ n, fed_ok k P log n
}.

(** One evaluation, with the states between its parts. *)
Lemma evaluate_inv k P log now :
  pclock_inv k P log → pk_follow k = true →
  let '(avail, c) := clock_offer k now in
  let '(sel, have, ppm) := clock_sample k avail c in
  let c' := reac_clock_disc_update c avail ppm have in
  (∃ nominal, clock_run REAC_ROLE_MASTER nominal c' (as_sample <$> evaluate_log k now P log)) ∧
  pclock_inv (clock_evaluate k now).1 P (evaluate_log k now P log).
Proof.
  intros [[nominal Hrun] [n Hfed]] _. unfold evaluate_log, clock_evaluate.
  pose proof (offer_spec k now _ _ _ Hrun) as H. destruct (clock_offer k now) as [avail c]. destruct H as [Hrun' _].
  destruct (clock_sample k avail c) as [[sel have] ppm] eqn:Es. cbv zeta.
  pose proof (run_update _ _ _ _ avail ppm have Hrun') as Hnew. cbv zeta in Hnew.
  set (c' := reac_clock_disc_update c avail ppm have) in *.
  assert (Hsel : have = true → sel = c_src c' ∧ (n sel < length (P sel))%nat ∧ value_of P sel (length (P sel)) ppm)
    by (apply (sample_new k P log n avail c sel have ppm Hfed Es)).
  assert (Hlog : (∃ nm, clock_run REAC_ROLE_MASTER nm c' (as_sample <$> (if sample_accepted c avail ppm have
             then Fed sel (length (P sel)) ppm (f64_ltb (d_resid_ema (c_dll c')) REAC_DLL_LOCK_PPM) :: log else log)))).
  { exists nominal. destruct (sample_accepted c avail ppm have) eqn:Ea; [|done]. rewrite fmap_cons.
    replace (as_sample (Fed _ _ _ _)) with (log_of c'); [done|]. unfold log_of, as_sample. cbn [fe_src fe_in_band].
    destruct have; [by destruct Hsel as [-> _]|done]. }
  split; [exact Hlog|]. split; [exact Hlog|]. cbn [fst].
  destruct Hfed as [Hv H0 Hr Hs Hl Hf].
  exists (if have then set_source sel (length (P sel)) n else n). split; simpl; [done| | | | |].
  - intros s E. destruct (H0 s E) as [-> E2]. split; [done|]. destruct have; [|done]. unfold set_source.
    case_decide; [|done]. subst s. destruct Hsel as (_ & Hlt & _); [done|]. rewrite E in Hlt. simpl in Hlt. lia.
  - intros s. destruct have; [|apply Hr]. unfold set_source. case_decide; [by subst s|apply Hr].
  - intros s. destruct have; [|apply Hs]. unfold set_source. case_decide; [by subst s|apply Hs].
  - assert (Hold : ∀ e, e ∈ log → (1 ≤ fe_pub e ≤ (if have then set_source sel (length (P sel)) n else n) (fe_src e))%nat ∧
                   value_of P (fe_src e) (fe_pub e) (fe_ppm e)).
    { intros e He. destruct (Hl e He) as [Hb ?]. split; [|done]. destruct have; [|done]. unfold set_source.
      case_decide as Ee; [|done]. specialize (Hr (fe_src e)). rewrite <- Ee. lia. }
    destruct (sample_accepted c avail ppm have) eqn:Ea; [|done].
    intros e [->|He]%elem_of_cons; [|by apply Hold]. cbn [fe_src fe_pub fe_ppm].
    destruct have; [|done]. destruct Hsel as (_ & Hlt & Hval); [done|]. split; [|done].
    unfold set_source. rewrite decide_True by done. lia.
  - destruct (sample_accepted c avail ppm have) eqn:Ea; [|done].
    intros [|i] [|j] e f He Hj Hlt Hsrc; try lia; [|apply (Hf i j); (done || lia)].
    simpl in He, Hj. injection He as <-. cbn [fe_src fe_pub] in *. destruct have; [|done].
    destruct Hsel as (_ & Hlt' & _); [done|]. apply list_elem_of_lookup_2 in Hj.
    destruct (Hl f Hj) as [? _]. rewrite <- Hsrc in *. lia.
Qed.

Lemma pclock_reach_inv k P log : pclock_reach k P log → pclock_inv k P log.
Proof.
  induction 1 as [follow period|k P log src p ppm label q now _ [[n IH] [m IF]]
    |k P log name fw rate nsec ref _ [[n IH] [m IF]]|k P log now _ IH|k P log period _ [_ [m [Hv H0 Hr Hs Hl Hf]]]].
  - split; [exists period; apply run_init|]. exists (λ _, 0%nat). split; try done. by intros e ?%elem_of_nil.
  - split; [exists n; by rewrite publish_disc|exists m; by apply fed_publish].
  - split; [exists n|exists m; by apply fed_publish_graph].
    unfold reac_pacer_clock_publish_graph. repeat case_match; by rewrite ?publish_disc.
  - unfold reac_pacer_clock_tick, evaluates. destruct (pk_follow k) eqn:Ef; [|done]. cbn [negb andb].
    destruct (u32 _ <? _); cbn [negb fst]; [by destruct IH as [? [m []]]; split; [|exists m; split]|].
    pose proof (evaluate_inv k P log now IH Ef) as H. destruct (clock_offer k now) as [avail c].
    destruct (clock_sample k avail c) as [[sel have] ppm]. destruct H as [_ H].
    by destruct (clock_evaluate k now).
  - split; [exists period; apply run_init|]. exists m. split; try done. by intros e ?%elem_of_nil.
Qed.

(** Four entries of one reference are four of its publications. *)
Definition four_samples (P : publications) (s : reac_clock_source) (l : list fed) : Prop :=
  ∃ e1 e2 e3 e4, l = [e1; e2; e3; e4] ∧
    (fe_pub e4 < fe_pub e3)%nat ∧ (fe_pub e3 < fe_pub e2)%nat ∧ (fe_pub e2 < fe_pub e1)%nat ∧
    Forall (λ e, fe_src e = s ∧ fe_in_band e = true ∧ value_of P s (fe_pub e) (fe_ppm e)) l.

Lemma four_of_log k P log n s :
  fed_ok k P log n → take 4 (as_sample <$> log) = replicate 4 (s, true) → four_samples P s (take 4 log).
Proof.
  intros [_ _ _ _ Hl Hf] H. rewrite <- fmap_take in H.
  destruct log as [|e1 [|e2 [|e3 [|e4 log]]]]; try done. simpl in H |- *. rewrite take_0 in *.
  unfold as_sample in H. simplify_eq/=. exists e1, e2, e3, e4.
  pose proof (Hf 0%nat 1%nat e1 e2 eq_refl eq_refl ltac:(lia) ltac:(congruence)).
  pose proof (Hf 1%nat 2%nat e2 e3 eq_refl eq_refl ltac:(lia) ltac:(congruence)).
  pose proof (Hf 2%nat 3%nat e3 e4 eq_refl eq_refl ltac:(lia) ltac:(congruence)).
  split_and!; try done.
  assert (Hval : ∀ e, e ∈ e1 :: e2 :: e3 :: e4 :: log → value_of P (fe_src e) (fe_pub e) (fe_ppm e)) by (intros e He; by apply Hl).
  repeat (constructor; [split_and!; try congruence; match goal with |- value_of _ ?s (fe_pub ?e) _ =>
    replace s with (fe_src e) by congruence; apply Hval; set_solver end|]). constructor.
Qed.

(** C24. The segment publishes a reference as its pace only when it was measured
    against it. Between evaluations the published pace does not move. At an
    evaluation it names a reference only if clock following is on, that reference
    is of the master's hierarchy, its publisher is present and was heard less than
    two seconds ago with at least a marginal grade, and the last four samples the
    loop accepted were read from that very publisher, from four different
    publications of it, each with the value then published, and left the residual
    in band; otherwise it reads free-run. *)
Theorem published_pace_is_earned (k : pacer_clock) (P : publications) (log : list fed) (now : Z) :
  pclock_reach k P log →
  let k' := (reac_pacer_clock_tick k now).1.1 in
  if negb (evaluates k) then reac_pacer_pace_source k' = reac_pacer_pace_source k
  else reac_pacer_pace_source k' = REAC_PACE_FREE_RUN ∨
    ∃ s, s ∈ master_hier ∧ fresh_sample k now s = true ∧
      quality_rank REAC_CLOCK_Q_MARGINAL ≤ quality_rank (pk_quality k s) ∧
      four_samples P s (take 4 (evaluate_log k now P log)) ∧
      reac_pacer_pace_source k' = reac_pace_from_clock s REAC_CLOCK_LOCKED.
Proof.
  intros HR. pose proof (pclock_reach_inv k P log HR) as HI. cbv zeta.
  unfold reac_pacer_clock_tick, evaluates. destruct (pk_follow k) eqn:Ef; [|done]. cbn [negb andb].
  destruct (u32 _ <? _) eqn:E; cbn [negb]; [unfold reac_pacer_pace_source; by rewrite Ef|].
  pose proof (evaluate_inv k P log now HI Ef) as Hev.
  destruct HI as [[n Hrun] _]. unfold clock_evaluate in *.
  pose proof (offer_spec k now _ _ _ Hrun) as H.
  destruct (clock_offer k now) as [avail c] eqn:Eo. destruct H as [Hrun' Hoff].
  pose proof (clock_run_inv _ _ _ _ Hrun') as Hinv.
  destruct (clock_sample k avail c) as [[sel have] ppm]. destruct Hev as [[nm Hnew] [_ [m Hfed]]].
  pose proof (clock_run_inv _ _ _ _ Hnew) as [_ _ Hband Hlock Hfree _ _ _ Hsrc].
  unfold reac_pacer_pace_source. cbn [fst negb pk_pace pk_follow]. rewrite Ef, pace_word_read. cbn [negb].
  set (c' := reac_clock_disc_update c avail ppm have) in *.
  destruct (decide (c_state c' = REAC_CLOCK_LOCKED)) as [HL|HL]; cycle 1.
  { left. unfold reac_pace_from_clock. rewrite bool_decide_eq_false_2 by done.
    destruct Hsrc as [->|Hs]; [done|]. destruct (c_src c'); set_solver. }
  right. exists (c_src c'). rewrite HL.
  assert (c_src c' ≠ REAC_CLOCK_SRC_FREERUN) as Hne by (intros Hf; apply Hfree in Hf as [|]; congruence).
  destruct Hsrc as [|Hin]; [done|].
  assert (c_src c' = select_from master_hier avail (Some (c_quality c)) (c_min_quality c)) as Hs.
  { change (c_src c') with (reac_clock_select_graded (c_role c) avail (Some (c_quality c)) (c_min_quality c)).
    unfold reac_clock_select_graded. by rewrite (cv_role _ _ _ Hinv). }
  destruct (select_from_offered master_hier avail (c_quality c) (c_min_quality c)) as [|[Hp Hq]]; [congruence|].
  rewrite <- Hs in Hp, Hq. destruct (Hoff _ Hp) as [Hfresh Hgrade].
  rewrite (cv_min _ _ _ Hinv), Hgrade in Hq. split_and!; [done|done|lia| |done].
  eapply four_of_log; [exact Hfed|]. destruct Hband as [_ [old ->]].
  pose proof (Hlock HL) as Hb. unfold REAC_DLL_LOCK_UPDATES in Hb.
  replace (Z.to_nat (c_in_band c')) with (4 + (Z.to_nat (c_in_band c') - 4))%nat by lia.
  by rewrite replicate_add, <- app_assoc, take_app_length' by (by rewrite length_replicate).
Qed.

(** A hardware graph clock publishes every 1024 slots at 48 kHz. *)
Definition demo_name : option (list Z) := Some [97; 112; 105; 46; 97; 108; 115; 97].
Definition demo_slot (n : nat) (k : pacer_clock) : pacer_clock :=
  let now := 250000 * (Z.of_nat n + 1) in
  let k := if Z.of_nat n mod 1024 =? 0
           then reac_pacer_clock_publish_graph k demo_name false (f64_of_Z 1) now None else k in
  (reac_pacer_clock_tick k now).1.1.
Fixpoint demo_pclock (n : nat) : pacer_clock :=
  match n with O => pacer_clock_open true 250000 | S n => demo_slot n (demo_pclock n) end.

Lemma demo_pclock_reach n : ∃ P log, pclock_reach (demo_pclock n) P log.
Proof.
  induction n as [|n (P & log & IH)]; [exists (λ _, []), []; apply pc_open|]. cbn [demo_pclock]. unfold demo_slot.
  destruct (_ =? 0); eexists _, _; apply pc_tick; [by apply pc_publish_graph|done].
Qed.

Lemma published_pace_is_earned_witness :
  let k := demo_pclock (Z.to_nat 4095) in
  reac_pacer_pace_source k = REAC_PACE_FREE_RUN ∧
  reac_pacer_pace_source (reac_pacer_clock_tick k 1024000000).1.1 = REAC_PACE_GRAPH_REF ∧
  ∃ s P l, s ∈ master_hier ∧ fresh_sample k 1024000000 s = true ∧ four_samples P s l.
Proof.
  cbv zeta. assert (reac_pacer_pace_source (demo_pclock (Z.to_nat 4095)) = REAC_PACE_FREE_RUN) as E1
    by (vm_compute; reflexivity).
  assert (evaluates (demo_pclock (Z.to_nat 4095)) = true) as E2 by (vm_compute; reflexivity).
  assert (reac_pacer_pace_source (reac_pacer_clock_tick (demo_pclock (Z.to_nat 4095)) 1024000000).1.1
    = REAC_PACE_GRAPH_REF) as E3 by (vm_compute; reflexivity).
  destruct (demo_pclock_reach (Z.to_nat 4095)) as (P & log & HR).
  generalize dependent (demo_pclock (Z.to_nat 4095)). intros k E1 E2 E3 HR.
  split; [exact E1|]. split; [exact E3|].
  pose proof (published_pace_is_earned k P log 1024000000 HR) as H. cbv zeta in H. rewrite E2 in H. cbn [negb] in H.
  rewrite E3 in H. destruct H as [H|(s & Hs & Hf & _ & H4 & _)]; [discriminate|].
  exists s, P, (take 4 (evaluate_log k 1024000000 P log)). exact (conj Hs (conj Hf H4)).
Defined.

(** ** The launch grid under a discipline that has nothing to follow

    Clock following is on but no reference was ever offered: the tick still
    returns the rounded nominal period, and the grid takes it for a steered one.
    At 44.1 kHz a second of slots is 575 ns long. *)
Fixpoint follow_slots (n : nat) (k : pacer_clock) (g : reac_etf_grid) : reac_etf_grid :=
  match n with
  | O => g
  | S n =>
      let '(k, slot_ns, _) := reac_pacer_clock_tick k 0 in
      follow_slots n k (reac_etf_grid_advance g slot_ns)
  end.

Lemma free_run_grid_drifts :
  let k := pacer_clock_open true (reac_pacer_period_ns 3675) in
  let g := (reac_etf_grid_init 3675 0).2 in
  eg_launch_ns (follow_slots (Z.to_nat 3675) k g) = NS_PER_S + 575 ∧
  eg_launch_ns (Nat.iter (Z.to_nat 3675) (λ g, reac_etf_grid_advance g 0) g) = NS_PER_S.
Proof. vm_compute. done. Qed.
