(* ===== verification/Seqlock.v ===== *)
(** * Seqlock: facts that cross threads without a lock

    Models the sequence-counted cells of [transport/src/reac_pacer.c]: the box's
    identity ([identity_write_begin], [identity_write_end],
    [reac_pacer_read_identity]) and the device labels of the clock references
    ([reac_clock_label_set], [reac_clock_label_get]). The counter is odd while a
    write is in flight; a reader keeps a copy only when it saw the same even
    counter before and after it. The steps are the single accesses to the counter
    and to the words of the cell, and they interleave in any order; memory is
    sequentially consistent (the code fences both sides). *)

From S2P Require Import Prelude.
Local Open Scope Z_scope.

Section Seqlock.
Context {W : Type}.

(** The writer remembers the counter it started from; the reader remembers the
    counter it read first and the words copied so far. *)
Record seqlock := Seqlock {
  sq_seq : Z; sq_cells : list W; sq_writing : option Z; sq_reading : option (Z * list W)
}.

Definition identity_write_begin (s : seqlock) : seqlock :=
  Seqlock (u32 (sq_seq s + 1)) (sq_cells s) (Some (sq_seq s)) (sq_reading s).
Definition write_word (s : seqlock) (i : nat) (x : W) : seqlock :=
  Seqlock (sq_seq s) (<[i := x]> (sq_cells s)) (sq_writing s) (sq_reading s).
Definition identity_write_end (s : seqlock) (start : Z) : seqlock :=
  Seqlock (u32 (start + 2)) (sq_cells s) None (sq_reading s).

(** An odd counter restarts the reader at once. *)
Definition read_begin (s : seqlock) : seqlock :=
  Seqlock (sq_seq s) (sq_cells s) (sq_writing s) (if Z.odd (sq_seq s) then None else Some (sq_seq s, [])).
Definition read_word (s : seqlock) (s1 : Z) (copied : list W) (x : W) : seqlock :=
  Seqlock (sq_seq s) (sq_cells s) (sq_writing s) (Some (s1, copied ++ [x])).
(** The copy, when the counter has not moved; [None] sends the reader around. *)
Definition read_end (s : seqlock) (s1 : Z) (copied : list W) : option (list W) :=
  if s1 =? sq_seq s then Some copied else None.

(** Every interleaving, from a cell that holds [v0]: the value the last finished
    write left, and the number of writes begun since the reader last started. *)
Inductive sq_reach (v0 : list W) : seqlock → list W → Z → Prop :=
| sq_start : sq_reach v0 (Seqlock 0 v0 None None) v0 0
| sq_w_begin s v k : sq_reach v0 s v k → sq_writing s = None → sq_reach v0 (identity_write_begin s) v (k + 1)
| sq_w_word s v k w i x : sq_reach v0 s v k → sq_writing s = Some w → sq_reach v0 (write_word s i x) v k
| sq_w_end s v k w : sq_reach v0 s v k → sq_writing s = Some w →
    sq_reach v0 (identity_write_end s w) (sq_cells s) k
| sq_r_begin s v k : sq_reach v0 s v k → sq_reach v0 (read_begin s) v 0
| sq_r_word s v k s1 c x : sq_reach v0 s v k → sq_reading s = Some (s1, c) →
    sq_cells s !! length c = Some x → sq_reach v0 (read_word s s1 c x) v k.

(** The counter without its wrap is [T]; the reader started when it was [T1]. *)
Record sq_inv (n : nat) (s : seqlock) (v : list W) (k T : Z) : Prop := {
  si_seq : sq_seq s = u32 T;
  si_len : length (sq_cells s) = n;
  si_k : 0 ≤ k;
  si_idle : sq_writing s = None → Z.Even T ∧ sq_cells s = v;
  si_busy : ∀ w, sq_writing s = Some w → Z.Odd T ∧ w = u32 (T - 1);
  si_read : ∀ s1 c, sq_reading s = Some (s1, c) →
    ∃ T1, s1 = u32 T1 ∧ Z.Even T1 ∧ T1 ≤ T ≤ T1 + 2 * k ∧ (T = T1 → c = take (length c) (sq_cells s))
}.

Lemma u32_odd T : Z.Odd (u32 T) ↔ Z.Odd T.
Proof.
  unfold u32, Z.Odd. split; intros [m H]; [exists (m + 2 ^ 31 * (T / 2 ^ 32))|exists (m - 2 ^ 31 * (T / 2 ^ 32))]; lia.
Qed.

Lemma sq_reach_inv v0 s v k : sq_reach v0 s v k → ∃ T, sq_inv (length v0) s v k T.
Proof.
  induction 1 as [|s v k _ [T []] Hw|s v k w i x _ [T []] Hw|s v k w _ [T []] Hw|s v k _ [T []]|s v k s1 c x _ [T []] Hr Hx].
  - exists 0. split; simpl; try done; try lia. intros _. split; [by exists 0|done].
  - exists (T + 1). destruct (si_idle0 Hw) as [He _]. split; simpl; try done; try lia.
    + rewrite si_seq0. unfold u32. by rewrite Zplus_mod_idemp_l.
    + intros w [= <-]. split; [destruct He as [m ->]; exists m; lia|].
      rewrite si_seq0. f_equal. lia.
    + intros s1 c Hc. destruct (si_read0 s1 c Hc) as (T1 & -> & HE & HT & _). exists T1. split_and!; try done; try lia.
  - exists T. split; simpl; try done; try lia.
    + by rewrite length_insert.
    + congruence.
    + intros s1 c Hc. destruct (si_read0 s1 c Hc) as (T1 & -> & HE & HT & _). exists T1. split_and!; try done; try lia.
      intros ->. destruct (si_busy0 w Hw) as [[m Hm] _], HE as [m' Hm']. lia.
  - destruct (si_busy0 w Hw) as [[m Hm] ->]. exists (T + 1). split; simpl; try done; try lia.
    + unfold u32. rewrite Zplus_mod_idemp_l. f_equal. lia.
    + intros _. split; [exists (m + 1); lia|done].
    + intros s1 c Hc. destruct (si_read0 s1 c Hc) as (T1 & -> & [m' HE] & HT & _). exists T1.
      split; [done|]. split; [by exists m'|]. split; lia.
  - exists T. split; simpl; try done; try lia. intros s1 c. destruct (Z.odd (sq_seq s)) eqn:E; intros [= <- <-].
    exists T. split; [done|]. split; [|by split; [lia|]]. destruct (Z.Even_or_Odd T) as [|HO]; [done|].
    rewrite si_seq0 in E. apply u32_odd, Z.odd_spec in HO. congruence.
  - exists T. split; simpl; try done. intros s1' c' [= <- <-].
    destruct (si_read0 _ _ Hr) as (T1 & -> & HE & HT & Hc). exists T1. split_and!; try done; try lia.
    intros HT1. rewrite length_app. simpl. rewrite Nat.add_1_r, (take_S_r _ _ _ Hx). by rewrite <- (Hc HT1).
Qed.
End Seqlock.

Arguments seqlock : clear implicits.

(** C22. A reader never sees half a write. Whatever the interleaving of the pacer
    thread's writes with a reader's accesses, a complete copy the reader accepts
    is exactly the value the last finished write left, with no write in flight,
    provided fewer than 2^31 writes began during the attempt; and an attempt
    during which no write began is accepted. *)
Theorem seqlock_snapshot {W} (v0 : list W) (s : seqlock W) (v : list W) (k s1 : Z) (copied : list W) :
  sq_reach v0 s v k → sq_reading s = Some (s1, copied) → length copied = length v0 → k < 2 ^ 31 →
  (is_Some (read_end s s1 copied) → read_end s s1 copied = Some v ∧ sq_writing s = None) ∧
  (k = 0 → is_Some (read_end s s1 copied)).
Proof.
  intros HR Hr Hl Hk. destruct (sq_reach_inv _ _ _ _ HR) as [T []].
  destruct (si_read0 _ _ Hr) as (T1 & -> & [m Hm] & HT & Hc). unfold read_end. rewrite si_seq0. split.
  - case_match eqn:E; [|by intros []]. apply Z.eqb_eq in E. intros _.
    assert (T = T1) as -> by (unfold u32 in E; lia).
    destruct (sq_writing s) as [w|] eqn:Ew.
    + destruct (si_busy0 w eq_refl) as [[m' Hm'] _]. lia.
    + split; [|done]. destruct (si_idle0 eq_refl) as [_ <-]. by rewrite (Hc eq_refl), Hl, take_ge by lia.
  - intros ->. assert (T = T1) as -> by lia. by rewrite Z.eqb_refl.
Qed.

(** A two-word cell: a write between the reader's two words is caught; the next
    attempt succeeds. *)
Definition torn_cell : seqlock Z :=
  let s := read_begin (Seqlock 0 [1; 1] None None) in
  let s := read_word s 0 [] 1 in
  let s := identity_write_end (write_word (write_word (identity_write_begin s) 0 2) 1 2) 0 in
  read_word s 0 [1] 2.
Definition clean_cell : seqlock Z := read_word (read_word (read_begin torn_cell) 2 [] 2) 2 [2] 2.

Lemma seqlock_snapshot_witness :
  read_end torn_cell 0 [1; 2] = None ∧ read_end clean_cell 2 [2; 2] = Some [2; 2].
Proof.
  assert (sq_reach [1; 1] torn_cell [2; 2] 1) as HT.
  { pose proof (sq_r_begin _ _ _ _ (sq_start [1; 1])) as H.
    apply (sq_r_word _ _ _ _ 0 [] 1) in H; [|reflexivity|reflexivity].
    apply sq_w_begin in H; [|reflexivity]. apply (sq_w_word _ _ _ _ 0 0%nat 2) in H; [|reflexivity].
    apply (sq_w_word _ _ _ _ 0 1%nat 2) in H; [|reflexivity]. apply (sq_w_end _ _ _ _ 0) in H; [|reflexivity].
    apply (sq_r_word _ _ _ _ 0 [1] 2) in H; [|reflexivity|reflexivity]. exact H. }
  assert (sq_reach [1; 1] clean_cell [2; 2] 0) as HC.
  { apply sq_r_begin in HT. apply (sq_r_word _ _ _ _ 2 [] 2) in HT; [|reflexivity|reflexivity].
    apply (sq_r_word _ _ _ _ 2 [2] 2) in HT; [exact HT|reflexivity|reflexivity]. }
  split.
  - destruct (seqlock_snapshot [1; 1] torn_cell [2; 2] 1 0 [1; 2] HT eq_refl eq_refl ltac:(lia)) as [H _].
    destruct (read_end torn_cell 0 [1; 2]) eqn:E; [|reflexivity].
    destruct (H (ex_intro _ _ eq_refl)) as [H' _]. vm_compute in E. discriminate.
  - apply (seqlock_snapshot [1; 1] clean_cell [2; 2] 0 2 [2; 2] HC eq_refl eq_refl ltac:(lia)).
    apply (seqlock_snapshot [1; 1] clean_cell [2; 2] 0 2 [2; 2] HC eq_refl eq_refl ltac:(lia)). reflexivity.
Defined.
