(* ===== verification/PacerState.v ===== *)
(** * PacerState: the state of a pacer and its elementary operations

    Models [struct reac_pacer] of [include/reac/transport/reac_pacer.h] and the
    functions of [transport/src/reac_pacer.c] that every other one calls: the
    event log ([pev_push]), the bookkeeping of a state transition
    ([note_transition]) and the mirror of the enrolled box that other threads read
    ([sync_published_box]). The frame ring, the command ring, the slot clock and
    the clock references are the structures of [FrameRing], [IxRing], [Pace] and
    [PacerClock]; a field both of those need ([period_ns]) is in both. An atomic
    field is its value: one call is one step of the thread that makes it. *)

From S2P Require Import Prelude Wire CtrlBlk Identity BoxModel BoxFacts Disco HeadampTx Grant MasterFsm Master Ring FrameRing IxRing Clock Pace PacerClock.
Local Open Scope Z_scope.

(** ** The event log *)

Definition REAC_PACER_EVRING : Z := 128.
Definition REAC_PEV_CAUSE_TIMER : Z := 0xff.
Definition REAC_PEV_CAUSE_RATE_CHANGE : Z := 0xfe.
Definition REAC_PEV_CAUSE_LINK_UP : Z := 0xfd.
Definition REAC_PEV_CAUSE_LINK_DOWN : Z := 0xfc.
Definition REAC_HEADAMP_RESWEEP_SECONDS : Z := 0.

Inductive reac_pacer_evkind :=
| REAC_PEV_STATE | REAC_PEV_RX | REAC_PEV_JOIN | REAC_PEV_PRESENCE | REAC_PEV_GRANT_TIMEOUT
| REAC_PEV_DROP | REAC_PEV_WATCHDOG | REAC_PEV_RECOGNIZED | REAC_PEV_SIGHTING | REAC_PEV_CLOCK.

Record reac_pacer_event := PacerEvent {
  pev_mono_ns : Z; pev_kind : reac_pacer_evkind; pev_a : Z; pev_b : Z; pev_src : list Z; pev_blk : list Z
}.

(** ** The pacer *)

Record reac_pacer := ReacPacer {
  pc_src : list Z;
  pc_fps : Z;
  pc_master : reac_master;
  pc_ha : ha_path;
  pc_ring : reac_frame_ring;
  pc_slotclk : slot_clock;
  pc_catchup_max_slots_cfg : Z;
  pc_clk : pacer_clock;
  pc_disco_gate : list reac_disco_gate_entry;
  pc_disco_peer_lock : reac_disco_peer_lock;
  pc_disco : reac_disco_table;
  pc_ev : ixring reac_pacer_event;
  pc_rx_identity : reac_identity;
  pc_rx_identity_frag : reac_identity_frag;
  pc_declared_in : Z;
  pc_declared_out : Z;
  pc_fsm_state : reac_master_state;
  pc_recognized_box : option reac_box_model;
  pc_recognized_headamp_base : Z;
  pc_recognized_box_mac : Z;
  pc_grant_attempts : Z;
  pc_rx_box_frames : Z;
  pc_rx_box_ctrl : Z;
  pc_rx_joins : Z;
  pc_drops : list Z;
  pc_prev_state : reac_master_state;
  pc_presence_seen : bool;
  pc_rx_since_change : list Z;
  pc_probing_slots : Z;
  pc_last_chanmap_ns : Z;
  pc_ring_trims : Z;
  pc_ring_trim_frames : Z;
  pc_ring_depth_peak : Z;
  pc_ring_depth_min : Z;
  pc_graph_quantum : Z;
  pc_tx_frames : Z;
  pc_tx_errors : Z;
  pc_rate_req_hz : Z;
  pc_rate_req_seq : Z;
  pc_rate_req_seen : Z;
  pc_reestab_cause : Z;
  pc_rate_hz : Z;
  pc_rate_asserted : bool;
  pc_rate_reestablishing : bool;
  pc_sessions : list (option (list Z * Z))
}.

Definition set_pc_src (v : list Z) (r : reac_pacer) : reac_pacer :=
  ReacPacer v (pc_fps r) (pc_master r) (pc_ha r) (pc_ring r) (pc_slotclk r)
    (pc_catchup_max_slots_cfg r) (pc_clk r) (pc_disco_gate r) (pc_disco_peer_lock r)
    (pc_disco r) (pc_ev r) (pc_rx_identity r) (pc_rx_identity_frag r) (pc_declared_in r)
    (pc_declared_out r) (pc_fsm_state r) (pc_recognized_box r) (pc_recognized_headamp_base r)
    (pc_recognized_box_mac r) (pc_grant_attempts r) (pc_rx_box_frames r) (pc_rx_box_ctrl r)
    (pc_rx_joins r) (pc_drops r) (pc_prev_state r) (pc_presence_seen r)
    (pc_rx_since_change r) (pc_probing_slots r) (pc_last_chanmap_ns r) (pc_ring_trims r)
    (pc_ring_trim_frames r) (pc_ring_depth_peak r) (pc_ring_depth_min r) (pc_graph_quantum r)
    (pc_tx_frames r) (pc_tx_errors r) (pc_rate_req_hz r) (pc_rate_req_seq r)
    (pc_rate_req_seen r) (pc_reestab_cause r) (pc_rate_hz r) (pc_rate_asserted r)
    (pc_rate_reestablishing r) (pc_sessions r).
Definition set_pc_fps (v : Z) (r : reac_pacer) : reac_pacer :=
  ReacPacer (pc_src r) v (pc_master r) (pc_ha r) (pc_ring r) (pc_slotclk r)
    (pc_catchup_max_slots_cfg r) (pc_clk r) (pc_disco_gate r) (pc_disco_peer_lock r)
    (pc_disco r) (pc_ev r) (pc_rx_identity r) (pc_rx_identity_frag r) (pc_declared_in r)
    (pc_declared_out r) (pc_fsm_state r) (pc_recognized_box r) (pc_recognized_headamp_base r)
    (pc_recognized_box_mac r) (pc_grant_attempts r) (pc_rx_box_frames r) (pc_rx_box_ctrl r)
    (pc_rx_joins r) (pc_drops r) (pc_prev_state r) (pc_presence_seen r)
    (pc_rx_since_change r) (pc_probing_slots r) (pc_last_chanmap_ns r) (pc_ring_trims r)
    (pc_ring_trim_frames r) (pc_ring_depth_peak r) (pc_ring_depth_min r) (pc_graph_quantum r)
    (pc_tx_frames r) (pc_tx_errors r) (pc_rate_req_hz r) (pc_rate_req_seq r)
    (pc_rate_req_seen r) (pc_reestab_cause r) (pc_rate_hz r) (pc_rate_asserted r)
    (pc_rate_reestablishing r) (pc_sessions r).
Definition set_pc_master (v : reac_master) (r : reac_pacer) : reac_pacer :=
  ReacPacer (pc_src r) (pc_fps r) v (pc_ha r) (pc_ring r) (pc_slotclk r)
    (pc_catchup_max_slots_cfg r) (pc_clk r) (pc_disco_gate r) (pc_disco_peer_lock r)
    (pc_disco r) (pc_ev r) (pc_rx_identity r) (pc_rx_identity_frag r) (pc_declared_in r)
    (pc_declared_out r) (pc_fsm_state r) (pc_recognized_box r) (pc_recognized_headamp_base r)
    (pc_recognized_box_mac r) (pc_grant_attempts r) (pc_rx_box_frames r) (pc_rx_box_ctrl r)
    (pc_rx_joins r) (pc_drops r) (pc_prev_state r) (pc_presence_seen r)
    (pc_rx_since_change r) (pc_probing_slots r) (pc_last_chanmap_ns r) (pc_ring_trims r)
    (pc_ring_trim_frames r) (pc_ring_depth_peak r) (pc_ring_depth_min r) (pc_graph_quantum r)
    (pc_tx_frames r) (pc_tx_errors r) (pc_rate_req_hz r) (pc_rate_req_seq r)
    (pc_rate_req_seen r) (pc_reestab_cause r) (pc_rate_hz r) (pc_rate_asserted r)
    (pc_rate_reestablishing r) (pc_sessions r).
Definition set_pc_ha (v : ha_path) (r : reac_pacer) : reac_pacer :=
  ReacPacer (pc_src r) (pc_fps r) (pc_master r) v (pc_ring r) (pc_slotclk r)
    (pc_catchup_max_slots_cfg r) (pc_clk r) (pc_disco_gate r) (pc_disco_peer_lock r)
    (pc_disco r) (pc_ev r) (pc_rx_identity r) (pc_rx_identity_frag r) (pc_declared_in r)
    (pc_declared_out r) (pc_fsm_state r) (pc_recognized_box r) (pc_recognized_headamp_base r)
    (pc_recognized_box_mac r) (pc_grant_attempts r) (pc_rx_box_frames r) (pc_rx_box_ctrl r)
    (pc_rx_joins r) (pc_drops r) (pc_prev_state r) (pc_presence_seen r)
    (pc_rx_since_change r) (pc_probing_slots r) (pc_last_chanmap_ns r) (pc_ring_trims r)
    (pc_ring_trim_frames r) (pc_ring_depth_peak r) (pc_ring_depth_min r) (pc_graph_quantum r)
    (pc_tx_frames r) (pc_tx_errors r) (pc_rate_req_hz r) (pc_rate_req_seq r)
    (pc_rate_req_seen r) (pc_reestab_cause r) (pc_rate_hz r) (pc_rate_asserted r)
    (pc_rate_reestablishing r) (pc_sessions r).
Definition set_pc_ring (v : reac_frame_ring) (r : reac_pacer) : reac_pacer :=
  ReacPacer (pc_src r) (pc_fps r) (pc_master r) (pc_ha r) v (pc_slotclk r)
    (pc_catchup_max_slots_cfg r) (pc_clk r) (pc_disco_gate r) (pc_disco_peer_lock r)
    (pc_disco r) (pc_ev r) (pc_rx_identity r) (pc_rx_identity_frag r) (pc_declared_in r)
    (pc_declared_out r) (pc_fsm_state r) (pc_recognized_box r) (pc_recognized_headamp_base r)
    (pc_recognized_box_mac r) (pc_grant_attempts r) (pc_rx_box_frames r) (pc_rx_box_ctrl r)
    (pc_rx_joins r) (pc_drops r) (pc_prev_state r) (pc_presence_seen r)
    (pc_rx_since_change r) (pc_probing_slots r) (pc_last_chanmap_ns r) (pc_ring_trims r)
    (pc_ring_trim_frames r) (pc_ring_depth_peak r) (pc_ring_depth_min r) (pc_graph_quantum r)
    (pc_tx_frames r) (pc_tx_errors r) (pc_rate_req_hz r) (pc_rate_req_seq r)
    (pc_rate_req_seen r) (pc_reestab_cause r) (pc_rate_hz r) (pc_rate_asserted r)
    (pc_rate_reestablishing r) (pc_sessions r).
Definition set_pc_slotclk (v : slot_clock) (r : reac_pacer) : reac_pacer :=
  ReacPacer (pc_src r) (pc_fps r) (pc_master r) (pc_ha r) (pc_ring r) v
    (pc_catchup_max_slots_cfg r) (pc_clk r) (pc_disco_gate r) (pc_disco_peer_lock r)
    (pc_disco r) (pc_ev r) (pc_rx_identity r) (pc_rx_identity_frag r) (pc_declared_in r)
    (pc_declared_out r) (pc_fsm_state r) (pc_recognized_box r) (pc_recognized_headamp_base r)
    (pc_recognized_box_mac r) (pc_grant_attempts r) (pc_rx_box_frames r) (pc_rx_box_ctrl r)
    (pc_rx_joins r) (pc_drops r) (pc_prev_state r) (pc_presence_seen r)
    (pc_rx_since_change r) (pc_probing_slots r) (pc_last_chanmap_ns r) (pc_ring_trims r)
    (pc_ring_trim_frames r) (pc_ring_depth_peak r) (pc_ring_depth_min r) (pc_graph_quantum r)
    (pc_tx_frames r) (pc_tx_errors r) (pc_rate_req_hz r) (pc_rate_req_seq r)
    (pc_rate_req_seen r) (pc_reestab_cause r) (pc_rate_hz r) (pc_rate_asserted r)
    (pc_rate_reestablishing r) (pc_sessions r).
Definition set_pc_catchup_max_slots_cfg (v : Z) (r : reac_pacer) : reac_pacer :=
  ReacPacer (pc_src r) (pc_fps r) (pc_master r) (pc_ha r) (pc_ring r) (pc_slotclk r) v
    (pc_clk r) (pc_disco_gate r) (pc_disco_peer_lock r) (pc_disco r) (pc_ev r)
    (pc_rx_identity r) (pc_rx_identity_frag r) (pc_declared_in r) (pc_declared_out r)
    (pc_fsm_state r) (pc_recognized_box r) (pc_recognized_headamp_base r)
    (pc_recognized_box_mac r) (pc_grant_attempts r) (pc_rx_box_frames r) (pc_rx_box_ctrl r)
    (pc_rx_joins r) (pc_drops r) (pc_prev_state r) (pc_presence_seen r)
    (pc_rx_since_change r) (pc_probing_slots r) (pc_last_chanmap_ns r) (pc_ring_trims r)
    (pc_ring_trim_frames r) (pc_ring_depth_peak r) (pc_ring_depth_min r) (pc_graph_quantum r)
    (pc_tx_frames r) (pc_tx_errors r) (pc_rate_req_hz r) (pc_rate_req_seq r)
    (pc_rate_req_seen r) (pc_reestab_cause r) (pc_rate_hz r) (pc_rate_asserted r)
    (pc_rate_reestablishing r) (pc_sessions r).
Definition set_pc_clk (v : pacer_clock) (r : reac_pacer) : reac_pacer :=
  ReacPacer (pc_src r) (pc_fps r) (pc_master r) (pc_ha r) (pc_ring r) (pc_slotclk r)
    (pc_catchup_max_slots_cfg r) v (pc_disco_gate r) (pc_disco_peer_lock r) (pc_disco r)
    (pc_ev r) (pc_rx_identity r) (pc_rx_identity_frag r) (pc_declared_in r)
    (pc_declared_out r) (pc_fsm_state r) (pc_recognized_box r) (pc_recognized_headamp_base r)
    (pc_recognized_box_mac r) (pc_grant_attempts r) (pc_rx_box_frames r) (pc_rx_box_ctrl r)
    (pc_rx_joins r) (pc_drops r) (pc_prev_state r) (pc_presence_seen r)
    (pc_rx_since_change r) (pc_probing_slots r) (pc_last_chanmap_ns r) (pc_ring_trims r)
    (pc_ring_trim_frames r) (pc_ring_depth_peak r) (pc_ring_depth_min r) (pc_graph_quantum r)
    (pc_tx_frames r) (pc_tx_errors r) (pc_rate_req_hz r) (pc_rate_req_seq r)
    (pc_rate_req_seen r) (pc_reestab_cause r) (pc_rate_hz r) (pc_rate_asserted r)
    (pc_rate_reestablishing r) (pc_sessions r).
Definition set_pc_disco_gate (v : list reac_disco_gate_entry) (r : reac_pacer) : reac_pacer :=
  ReacPacer (pc_src r) (pc_fps r) (pc_master r) (pc_ha r) (pc_ring r) (pc_slotclk r)
    (pc_catchup_max_slots_cfg r) (pc_clk r) v (pc_disco_peer_lock r) (pc_disco r) (pc_ev r)
    (pc_rx_identity r) (pc_rx_identity_frag r) (pc_declared_in r) (pc_declared_out r)
    (pc_fsm_state r) (pc_recognized_box r) (pc_recognized_headamp_base r)
    (pc_recognized_box_mac r) (pc_grant_attempts r) (pc_rx_box_frames r) (pc_rx_box_ctrl r)
    (pc_rx_joins r) (pc_drops r) (pc_prev_state r) (pc_presence_seen r)
    (pc_rx_since_change r) (pc_probing_slots r) (pc_last_chanmap_ns r) (pc_ring_trims r)
    (pc_ring_trim_frames r) (pc_ring_depth_peak r) (pc_ring_depth_min r) (pc_graph_quantum r)
    (pc_tx_frames r) (pc_tx_errors r) (pc_rate_req_hz r) (pc_rate_req_seq r)
    (pc_rate_req_seen r) (pc_reestab_cause r) (pc_rate_hz r) (pc_rate_asserted r)
    (pc_rate_reestablishing r) (pc_sessions r).
Definition set_pc_disco_peer_lock (v : reac_disco_peer_lock) (r : reac_pacer) : reac_pacer :=
  ReacPacer (pc_src r) (pc_fps r) (pc_master r) (pc_ha r) (pc_ring r) (pc_slotclk r)
    (pc_catchup_max_slots_cfg r) (pc_clk r) (pc_disco_gate r) v (pc_disco r) (pc_ev r)
    (pc_rx_identity r) (pc_rx_identity_frag r) (pc_declared_in r) (pc_declared_out r)
    (pc_fsm_state r) (pc_recognized_box r) (pc_recognized_headamp_base r)
    (pc_recognized_box_mac r) (pc_grant_attempts r) (pc_rx_box_frames r) (pc_rx_box_ctrl r)
    (pc_rx_joins r) (pc_drops r) (pc_prev_state r) (pc_presence_seen r)
    (pc_rx_since_change r) (pc_probing_slots r) (pc_last_chanmap_ns r) (pc_ring_trims r)
    (pc_ring_trim_frames r) (pc_ring_depth_peak r) (pc_ring_depth_min r) (pc_graph_quantum r)
    (pc_tx_frames r) (pc_tx_errors r) (pc_rate_req_hz r) (pc_rate_req_seq r)
    (pc_rate_req_seen r) (pc_reestab_cause r) (pc_rate_hz r) (pc_rate_asserted r)
    (pc_rate_reestablishing r) (pc_sessions r).
Definition set_pc_disco (v : reac_disco_table) (r : reac_pacer) : reac_pacer :=
  ReacPacer (pc_src r) (pc_fps r) (pc_master r) (pc_ha r) (pc_ring r) (pc_slotclk r)
    (pc_catchup_max_slots_cfg r) (pc_clk r) (pc_disco_gate r) (pc_disco_peer_lock r) v
    (pc_ev r) (pc_rx_identity r) (pc_rx_identity_frag r) (pc_declared_in r)
    (pc_declared_out r) (pc_fsm_state r) (pc_recognized_box r) (pc_recognized_headamp_base r)
    (pc_recognized_box_mac r) (pc_grant_attempts r) (pc_rx_box_frames r) (pc_rx_box_ctrl r)
    (pc_rx_joins r) (pc_drops r) (pc_prev_state r) (pc_presence_seen r)
    (pc_rx_since_change r) (pc_probing_slots r) (pc_last_chanmap_ns r) (pc_ring_trims r)
    (pc_ring_trim_frames r) (pc_ring_depth_peak r) (pc_ring_depth_min r) (pc_graph_quantum r)
    (pc_tx_frames r) (pc_tx_errors r) (pc_rate_req_hz r) (pc_rate_req_seq r)
    (pc_rate_req_seen r) (pc_reestab_cause r) (pc_rate_hz r) (pc_rate_asserted r)
    (pc_rate_reestablishing r) (pc_sessions r).
Definition set_pc_ev (v : ixring reac_pacer_event) (r : reac_pacer) : reac_pacer :=
  ReacPacer (pc_src r) (pc_fps r) (pc_master r) (pc_ha r) (pc_ring r) (pc_slotclk r)
    (pc_catchup_max_slots_cfg r) (pc_clk r) (pc_disco_gate r) (pc_disco_peer_lock r)
    (pc_disco r) v (pc_rx_identity r) (pc_rx_identity_frag r) (pc_declared_in r)
    (pc_declared_out r) (pc_fsm_state r) (pc_recognized_box r) (pc_recognized_headamp_base r)
    (pc_recognized_box_mac r) (pc_grant_attempts r) (pc_rx_box_frames r) (pc_rx_box_ctrl r)
    (pc_rx_joins r) (pc_drops r) (pc_prev_state r) (pc_presence_seen r)
    (pc_rx_since_change r) (pc_probing_slots r) (pc_last_chanmap_ns r) (pc_ring_trims r)
    (pc_ring_trim_frames r) (pc_ring_depth_peak r) (pc_ring_depth_min r) (pc_graph_quantum r)
    (pc_tx_frames r) (pc_tx_errors r) (pc_rate_req_hz r) (pc_rate_req_seq r)
    (pc_rate_req_seen r) (pc_reestab_cause r) (pc_rate_hz r) (pc_rate_asserted r)
    (pc_rate_reestablishing r) (pc_sessions r).
Definition set_pc_rx_identity (v : reac_identity) (r : reac_pacer) : reac_pacer :=
  ReacPacer (pc_src r) (pc_fps r) (pc_master r) (pc_ha r) (pc_ring r) (pc_slotclk r)
    (pc_catchup_max_slots_cfg r) (pc_clk r) (pc_disco_gate r) (pc_disco_peer_lock r)
    (pc_disco r) (pc_ev r) v (pc_rx_identity_frag r) (pc_declared_in r) (pc_declared_out r)
    (pc_fsm_state r) (pc_recognized_box r) (pc_recognized_headamp_base r)
    (pc_recognized_box_mac r) (pc_grant_attempts r) (pc_rx_box_frames r) (pc_rx_box_ctrl r)
    (pc_rx_joins r) (pc_drops r) (pc_prev_state r) (pc_presence_seen r)
    (pc_rx_since_change r) (pc_probing_slots r) (pc_last_chanmap_ns r) (pc_ring_trims r)
    (pc_ring_trim_frames r) (pc_ring_depth_peak r) (pc_ring_depth_min r) (pc_graph_quantum r)
    (pc_tx_frames r) (pc_tx_errors r) (pc_rate_req_hz r) (pc_rate_req_seq r)
    (pc_rate_req_seen r) (pc_reestab_cause r) (pc_rate_hz r) (pc_rate_asserted r)
    (pc_rate_reestablishing r) (pc_sessions r).
Definition set_pc_rx_identity_frag (v : reac_identity_frag) (r : reac_pacer) : reac_pacer :=
  ReacPacer (pc_src r) (pc_fps r) (pc_master r) (pc_ha r) (pc_ring r) (pc_slotclk r)
    (pc_catchup_max_slots_cfg r) (pc_clk r) (pc_disco_gate r) (pc_disco_peer_lock r)
    (pc_disco r) (pc_ev r) (pc_rx_identity r) v (pc_declared_in r) (pc_declared_out r)
    (pc_fsm_state r) (pc_recognized_box r) (pc_recognized_headamp_base r)
    (pc_recognized_box_mac r) (pc_grant_attempts r) (pc_rx_box_frames r) (pc_rx_box_ctrl r)
    (pc_rx_joins r) (pc_drops r) (pc_prev_state r) (pc_presence_seen r)
    (pc_rx_since_change r) (pc_probing_slots r) (pc_last_chanmap_ns r) (pc_ring_trims r)
    (pc_ring_trim_frames r) (pc_ring_depth_peak r) (pc_ring_depth_min r) (pc_graph_quantum r)
    (pc_tx_frames r) (pc_tx_errors r) (pc_rate_req_hz r) (pc_rate_req_seq r)
    (pc_rate_req_seen r) (pc_reestab_cause r) (pc_rate_hz r) (pc_rate_asserted r)
    (pc_rate_reestablishing r) (pc_sessions r).
Definition set_pc_declared_in (v : Z) (r : reac_pacer) : reac_pacer :=
  ReacPacer (pc_src r) (pc_fps r) (pc_master r) (pc_ha r) (pc_ring r) (pc_slotclk r)
    (pc_catchup_max_slots_cfg r) (pc_clk r) (pc_disco_gate r) (pc_disco_peer_lock r)
    (pc_disco r) (pc_ev r) (pc_rx_identity r) (pc_rx_identity_frag r) v (pc_declared_out r)
    (pc_fsm_state r) (pc_recognized_box r) (pc_recognized_headamp_base r)
    (pc_recognized_box_mac r) (pc_grant_attempts r) (pc_rx_box_frames r) (pc_rx_box_ctrl r)
    (pc_rx_joins r) (pc_drops r) (pc_prev_state r) (pc_presence_seen r)
    (pc_rx_since_change r) (pc_probing_slots r) (pc_last_chanmap_ns r) (pc_ring_trims r)
    (pc_ring_trim_frames r) (pc_ring_depth_peak r) (pc_ring_depth_min r) (pc_graph_quantum r)
    (pc_tx_frames r) (pc_tx_errors r) (pc_rate_req_hz r) (pc_rate_req_seq r)
    (pc_rate_req_seen r) (pc_reestab_cause r) (pc_rate_hz r) (pc_rate_asserted r)
    (pc_rate_reestablishing r) (pc_sessions r).
Definition set_pc_declared_out (v : Z) (r : reac_pacer) : reac_pacer :=
  ReacPacer (pc_src r) (pc_fps r) (pc_master r) (pc_ha r) (pc_ring r) (pc_slotclk r)
    (pc_catchup_max_slots_cfg r) (pc_clk r) (pc_disco_gate r) (pc_disco_peer_lock r)
    (pc_disco r) (pc_ev r) (pc_rx_identity r) (pc_rx_identity_frag r) (pc_declared_in r) v
    (pc_fsm_state r) (pc_recognized_box r) (pc_recognized_headamp_base r)
    (pc_recognized_box_mac r) (pc_grant_attempts r) (pc_rx_box_frames r) (pc_rx_box_ctrl r)
    (pc_rx_joins r) (pc_drops r) (pc_prev_state r) (pc_presence_seen r)
    (pc_rx_since_change r) (pc_probing_slots r) (pc_last_chanmap_ns r) (pc_ring_trims r)
    (pc_ring_trim_frames r) (pc_ring_depth_peak r) (pc_ring_depth_min r) (pc_graph_quantum r)
    (pc_tx_frames r) (pc_tx_errors r) (pc_rate_req_hz r) (pc_rate_req_seq r)
    (pc_rate_req_seen r) (pc_reestab_cause r) (pc_rate_hz r) (pc_rate_asserted r)
    (pc_rate_reestablishing r) (pc_sessions r).
Definition set_pc_fsm_state (v : reac_master_state) (r : reac_pacer) : reac_pacer :=
  ReacPacer (pc_src r) (pc_fps r) (pc_master r) (pc_ha r) (pc_ring r) (pc_slotclk r)
    (pc_catchup_max_slots_cfg r) (pc_clk r) (pc_disco_gate r) (pc_disco_peer_lock r)
    (pc_disco r) (pc_ev r) (pc_rx_identity r) (pc_rx_identity_frag r) (pc_declared_in r)
    (pc_declared_out r) v (pc_recognized_box r) (pc_recognized_headamp_base r)
    (pc_recognized_box_mac r) (pc_grant_attempts r) (pc_rx_box_frames r) (pc_rx_box_ctrl r)
    (pc_rx_joins r) (pc_drops r) (pc_prev_state r) (pc_presence_seen r)
    (pc_rx_since_change r) (pc_probing_slots r) (pc_last_chanmap_ns r) (pc_ring_trims r)
    (pc_ring_trim_frames r) (pc_ring_depth_peak r) (pc_ring_depth_min r) (pc_graph_quantum r)
    (pc_tx_frames r) (pc_tx_errors r) (pc_rate_req_hz r) (pc_rate_req_seq r)
    (pc_rate_req_seen r) (pc_reestab_cause r) (pc_rate_hz r) (pc_rate_asserted r)
    (pc_rate_reestablishing r) (pc_sessions r).
Definition set_pc_recognized_box (v : option reac_box_model) (r : reac_pacer) : reac_pacer :=
  ReacPacer (pc_src r) (pc_fps r) (pc_master r) (pc_ha r) (pc_ring r) (pc_slotclk r)
    (pc_catchup_max_slots_cfg r) (pc_clk r) (pc_disco_gate r) (pc_disco_peer_lock r)
    (pc_disco r) (pc_ev r) (pc_rx_identity r) (pc_rx_identity_frag r) (pc_declared_in r)
    (pc_declared_out r) (pc_fsm_state r) v (pc_recognized_headamp_base r)
    (pc_recognized_box_mac r) (pc_grant_attempts r) (pc_rx_box_frames r) (pc_rx_box_ctrl r)
    (pc_rx_joins r) (pc_drops r) (pc_prev_state r) (pc_presence_seen r)
    (pc_rx_since_change r) (pc_probing_slots r) (pc_last_chanmap_ns r) (pc_ring_trims r)
    (pc_ring_trim_frames r) (pc_ring_depth_peak r) (pc_ring_depth_min r) (pc_graph_quantum r)
    (pc_tx_frames r) (pc_tx_errors r) (pc_rate_req_hz r) (pc_rate_req_seq r)
    (pc_rate_req_seen r) (pc_reestab_cause r) (pc_rate_hz r) (pc_rate_asserted r)
    (pc_rate_reestablishing r) (pc_sessions r).
Definition set_pc_recognized_headamp_base (v : Z) (r : reac_pacer) : reac_pacer :=
  ReacPacer (pc_src r) (pc_fps r) (pc_master r) (pc_ha r) (pc_ring r) (pc_slotclk r)
    (pc_catchup_max_slots_cfg r) (pc_clk r) (pc_disco_gate r) (pc_disco_peer_lock r)
    (pc_disco r) (pc_ev r) (pc_rx_identity r) (pc_rx_identity_frag r) (pc_declared_in r)
    (pc_declared_out r) (pc_fsm_state r) (pc_recognized_box r) v (pc_recognized_box_mac r)
    (pc_grant_attempts r) (pc_rx_box_frames r) (pc_rx_box_ctrl r) (pc_rx_joins r)
    (pc_drops r) (pc_prev_state r) (pc_presence_seen r) (pc_rx_since_change r)
    (pc_probing_slots r) (pc_last_chanmap_ns r) (pc_ring_trims r) (pc_ring_trim_frames r)
    (pc_ring_depth_peak r) (pc_ring_depth_min r) (pc_graph_quantum r) (pc_tx_frames r)
    (pc_tx_errors r) (pc_rate_req_hz r) (pc_rate_req_seq r) (pc_rate_req_seen r)
    (pc_reestab_cause r) (pc_rate_hz r) (pc_rate_asserted r) (pc_rate_reestablishing r)
    (pc_sessions r).
Definition set_pc_recognized_box_mac (v : Z) (r : reac_pacer) : reac_pacer :=
  ReacPacer (pc_src r) (pc_fps r) (pc_master r) (pc_ha r) (pc_ring r) (pc_slotclk r)
    (pc_catchup_max_slots_cfg r) (pc_clk r) (pc_disco_gate r) (pc_disco_peer_lock r)
    (pc_disco r) (pc_ev r) (pc_rx_identity r) (pc_rx_identity_frag r) (pc_declared_in r)
    (pc_declared_out r) (pc_fsm_state r) (pc_recognized_box r) (pc_recognized_headamp_base r)
    v (pc_grant_attempts r) (pc_rx_box_frames r) (pc_rx_box_ctrl r) (pc_rx_joins r)
    (pc_drops r) (pc_prev_state r) (pc_presence_seen r) (pc_rx_since_change r)
    (pc_probing_slots r) (pc_last_chanmap_ns r) (pc_ring_trims r) (pc_ring_trim_frames r)
    (pc_ring_depth_peak r) (pc_ring_depth_min r) (pc_graph_quantum r) (pc_tx_frames r)
    (pc_tx_errors r) (pc_rate_req_hz r) (pc_rate_req_seq r) (pc_rate_req_seen r)
    (pc_reestab_cause r) (pc_rate_hz r) (pc_rate_asserted r) (pc_rate_reestablishing r)
    (pc_sessions r).
Definition set_pc_grant_attempts (v : Z) (r : reac_pacer) : reac_pacer :=
  ReacPacer (pc_src r) (pc_fps r) (pc_master r) (pc_ha r) (pc_ring r) (pc_slotclk r)
    (pc_catchup_max_slots_cfg r) (pc_clk r) (pc_disco_gate r) (pc_disco_peer_lock r)
    (pc_disco r) (pc_ev r) (pc_rx_identity r) (pc_rx_identity_frag r) (pc_declared_in r)
    (pc_declared_out r) (pc_fsm_state r) (pc_recognized_box r) (pc_recognized_headamp_base r)
    (pc_recognized_box_mac r) v (pc_rx_box_frames r) (pc_rx_box_ctrl r) (pc_rx_joins r)
    (pc_drops r) (pc_prev_state r) (pc_presence_seen r) (pc_rx_since_change r)
    (pc_probing_slots r) (pc_last_chanmap_ns r) (pc_ring_trims r) (pc_ring_trim_frames r)
    (pc_ring_depth_peak r) (pc_ring_depth_min r) (pc_graph_quantum r) (pc_tx_frames r)
    (pc_tx_errors r) (pc_rate_req_hz r) (pc_rate_req_seq r) (pc_rate_req_seen r)
    (pc_reestab_cause r) (pc_rate_hz r) (pc_rate_asserted r) (pc_rate_reestablishing r)
    (pc_sessions r).
Definition set_pc_rx_box_frames (v : Z) (r : reac_pacer) : reac_pacer :=
  ReacPacer (pc_src r) (pc_fps r) (pc_master r) (pc_ha r) (pc_ring r) (pc_slotclk r)
    (pc_catchup_max_slots_cfg r) (pc_clk r) (pc_disco_gate r) (pc_disco_peer_lock r)
    (pc_disco r) (pc_ev r) (pc_rx_identity r) (pc_rx_identity_frag r) (pc_declared_in r)
    (pc_declared_out r) (pc_fsm_state r) (pc_recognized_box r) (pc_recognized_headamp_base r)
    (pc_recognized_box_mac r) (pc_grant_attempts r) v (pc_rx_box_ctrl r) (pc_rx_joins r)
    (pc_drops r) (pc_prev_state r) (pc_presence_seen r) (pc_rx_since_change r)
    (pc_probing_slots r) (pc_last_chanmap_ns r) (pc_ring_trims r) (pc_ring_trim_frames r)
    (pc_ring_depth_peak r) (pc_ring_depth_min r) (pc_graph_quantum r) (pc_tx_frames r)
    (pc_tx_errors r) (pc_rate_req_hz r) (pc_rate_req_seq r) (pc_rate_req_seen r)
    (pc_reestab_cause r) (pc_rate_hz r) (pc_rate_asserted r) (pc_rate_reestablishing r)
    (pc_sessions r).
Definition set_pc_rx_box_ctrl (v : Z) (r : reac_pacer) : reac_pacer :=
  ReacPacer (pc_src r) (pc_fps r) (pc_master r) (pc_ha r) (pc_ring r) (pc_slotclk r)
    (pc_catchup_max_slots_cfg r) (pc_clk r) (pc_disco_gate r) (pc_disco_peer_lock r)
    (pc_disco r) (pc_ev r) (pc_rx_identity r) (pc_rx_identity_frag r) (pc_declared_in r)
    (pc_declared_out r) (pc_fsm_state r) (pc_recognized_box r) (pc_recognized_headamp_base r)
    (pc_recognized_box_mac r) (pc_grant_attempts r) (pc_rx_box_frames r) v (pc_rx_joins r)
    (pc_drops r) (pc_prev_state r) (pc_presence_seen r) (pc_rx_since_change r)
    (pc_probing_slots r) (pc_last_chanmap_ns r) (pc_ring_trims r) (pc_ring_trim_frames r)
    (pc_ring_depth_peak r) (pc_ring_depth_min r) (pc_graph_quantum r) (pc_tx_frames r)
    (pc_tx_errors r) (pc_rate_req_hz r) (pc_rate_req_seq r) (pc_rate_req_seen r)
    (pc_reestab_cause r) (pc_rate_hz r) (pc_rate_asserted r) (pc_rate_reestablishing r)
    (pc_sessions r).
Definition set_pc_rx_joins (v : Z) (r : reac_pacer) : reac_pacer :=
  ReacPacer (pc_src r) (pc_fps r) (pc_master r) (pc_ha r) (pc_ring r) (pc_slotclk r)
    (pc_catchup_max_slots_cfg r) (pc_clk r) (pc_disco_gate r) (pc_disco_peer_lock r)
    (pc_disco r) (pc_ev r) (pc_rx_identity r) (pc_rx_identity_frag r) (pc_declared_in r)
    (pc_declared_out r) (pc_fsm_state r) (pc_recognized_box r) (pc_recognized_headamp_base r)
    (pc_recognized_box_mac r) (pc_grant_attempts r) (pc_rx_box_frames r) (pc_rx_box_ctrl r) v
    (pc_drops r) (pc_prev_state r) (pc_presence_seen r) (pc_rx_since_change r)
    (pc_probing_slots r) (pc_last_chanmap_ns r) (pc_ring_trims r) (pc_ring_trim_frames r)
    (pc_ring_depth_peak r) (pc_ring_depth_min r) (pc_graph_quantum r) (pc_tx_frames r)
    (pc_tx_errors r) (pc_rate_req_hz r) (pc_rate_req_seq r) (pc_rate_req_seen r)
    (pc_reestab_cause r) (pc_rate_hz r) (pc_rate_asserted r) (pc_rate_reestablishing r)
    (pc_sessions r).
Definition set_pc_drops (v : list Z) (r : reac_pacer) : reac_pacer :=
  ReacPacer (pc_src r) (pc_fps r) (pc_master r) (pc_ha r) (pc_ring r) (pc_slotclk r)
    (pc_catchup_max_slots_cfg r) (pc_clk r) (pc_disco_gate r) (pc_disco_peer_lock r)
    (pc_disco r) (pc_ev r) (pc_rx_identity r) (pc_rx_identity_frag r) (pc_declared_in r)
    (pc_declared_out r) (pc_fsm_state r) (pc_recognized_box r) (pc_recognized_headamp_base r)
    (pc_recognized_box_mac r) (pc_grant_attempts r) (pc_rx_box_frames r) (pc_rx_box_ctrl r)
    (pc_rx_joins r) v (pc_prev_state r) (pc_presence_seen r) (pc_rx_since_change r)
    (pc_probing_slots r) (pc_last_chanmap_ns r) (pc_ring_trims r) (pc_ring_trim_frames r)
    (pc_ring_depth_peak r) (pc_ring_depth_min r) (pc_graph_quantum r) (pc_tx_frames r)
    (pc_tx_errors r) (pc_rate_req_hz r) (pc_rate_req_seq r) (pc_rate_req_seen r)
    (pc_reestab_cause r) (pc_rate_hz r) (pc_rate_asserted r) (pc_rate_reestablishing r)
    (pc_sessions r).
Definition set_pc_prev_state (v : reac_master_state) (r : reac_pacer) : reac_pacer :=
  ReacPacer (pc_src r) (pc_fps r) (pc_master r) (pc_ha r) (pc_ring r) (pc_slotclk r)
    (pc_catchup_max_slots_cfg r) (pc_clk r) (pc_disco_gate r) (pc_disco_peer_lock r)
    (pc_disco r) (pc_ev r) (pc_rx_identity r) (pc_rx_identity_frag r) (pc_declared_in r)
    (pc_declared_out r) (pc_fsm_state r) (pc_recognized_box r) (pc_recognized_headamp_base r)
    (pc_recognized_box_mac r) (pc_grant_attempts r) (pc_rx_box_frames r) (pc_rx_box_ctrl r)
    (pc_rx_joins r) (pc_drops r) v (pc_presence_seen r) (pc_rx_since_change r)
    (pc_probing_slots r) (pc_last_chanmap_ns r) (pc_ring_trims r) (pc_ring_trim_frames r)
    (pc_ring_depth_peak r) (pc_ring_depth_min r) (pc_graph_quantum r) (pc_tx_frames r)
    (pc_tx_errors r) (pc_rate_req_hz r) (pc_rate_req_seq r) (pc_rate_req_seen r)
    (pc_reestab_cause r) (pc_rate_hz r) (pc_rate_asserted r) (pc_rate_reestablishing r)
    (pc_sessions r).
Definition set_pc_presence_seen (v : bool) (r : reac_pacer) : reac_pacer :=
  ReacPacer (pc_src r) (pc_fps r) (pc_master r) (pc_ha r) (pc_ring r) (pc_slotclk r)
    (pc_catchup_max_slots_cfg r) (pc_clk r) (pc_disco_gate r) (pc_disco_peer_lock r)
    (pc_disco r) (pc_ev r) (pc_rx_identity r) (pc_rx_identity_frag r) (pc_declared_in r)
    (pc_declared_out r) (pc_fsm_state r) (pc_recognized_box r) (pc_recognized_headamp_base r)
    (pc_recognized_box_mac r) (pc_grant_attempts r) (pc_rx_box_frames r) (pc_rx_box_ctrl r)
    (pc_rx_joins r) (pc_drops r) (pc_prev_state r) v (pc_rx_since_change r)
    (pc_probing_slots r) (pc_last_chanmap_ns r) (pc_ring_trims r) (pc_ring_trim_frames r)
    (pc_ring_depth_peak r) (pc_ring_depth_min r) (pc_graph_quantum r) (pc_tx_frames r)
    (pc_tx_errors r) (pc_rate_req_hz r) (pc_rate_req_seq r) (pc_rate_req_seen r)
    (pc_reestab_cause r) (pc_rate_hz r) (pc_rate_asserted r) (pc_rate_reestablishing r)
    (pc_sessions r).
Definition set_pc_rx_since_change (v : list Z) (r : reac_pacer) : reac_pacer :=
  ReacPacer (pc_src r) (pc_fps r) (pc_master r) (pc_ha r) (pc_ring r) (pc_slotclk r)
    (pc_catchup_max_slots_cfg r) (pc_clk r) (pc_disco_gate r) (pc_disco_peer_lock r)
    (pc_disco r) (pc_ev r) (pc_rx_identity r) (pc_rx_identity_frag r) (pc_declared_in r)
    (pc_declared_out r) (pc_fsm_state r) (pc_recognized_box r) (pc_recognized_headamp_base r)
    (pc_recognized_box_mac r) (pc_grant_attempts r) (pc_rx_box_frames r) (pc_rx_box_ctrl r)
    (pc_rx_joins r) (pc_drops r) (pc_prev_state r) (pc_presence_seen r) v
    (pc_probing_slots r) (pc_last_chanmap_ns r) (pc_ring_trims r) (pc_ring_trim_frames r)
    (pc_ring_depth_peak r) (pc_ring_depth_min r) (pc_graph_quantum r) (pc_tx_frames r)
    (pc_tx_errors r) (pc_rate_req_hz r) (pc_rate_req_seq r) (pc_rate_req_seen r)
    (pc_reestab_cause r) (pc_rate_hz r) (pc_rate_asserted r) (pc_rate_reestablishing r)
    (pc_sessions r).
Definition set_pc_probing_slots (v : Z) (r : reac_pacer) : reac_pacer :=
  ReacPacer (pc_src r) (pc_fps r) (pc_master r) (pc_ha r) (pc_ring r) (pc_slotclk r)
    (pc_catchup_max_slots_cfg r) (pc_clk r) (pc_disco_gate r) (pc_disco_peer_lock r)
    (pc_disco r) (pc_ev r) (pc_rx_identity r) (pc_rx_identity_frag r) (pc_declared_in r)
    (pc_declared_out r) (pc_fsm_state r) (pc_recognized_box r) (pc_recognized_headamp_base r)
    (pc_recognized_box_mac r) (pc_grant_attempts r) (pc_rx_box_frames r) (pc_rx_box_ctrl r)
    (pc_rx_joins r) (pc_drops r) (pc_prev_state r) (pc_presence_seen r)
    (pc_rx_since_change r) v (pc_last_chanmap_ns r) (pc_ring_trims r) (pc_ring_trim_frames r)
    (pc_ring_depth_peak r) (pc_ring_depth_min r) (pc_graph_quantum r) (pc_tx_frames r)
    (pc_tx_errors r) (pc_rate_req_hz r) (pc_rate_req_seq r) (pc_rate_req_seen r)
    (pc_reestab_cause r) (pc_rate_hz r) (pc_rate_asserted r) (pc_rate_reestablishing r)
    (pc_sessions r).
Definition set_pc_last_chanmap_ns (v : Z) (r : reac_pacer) : reac_pacer :=
  ReacPacer (pc_src r) (pc_fps r) (pc_master r) (pc_ha r) (pc_ring r) (pc_slotclk r)
    (pc_catchup_max_slots_cfg r) (pc_clk r) (pc_disco_gate r) (pc_disco_peer_lock r)
    (pc_disco r) (pc_ev r) (pc_rx_identity r) (pc_rx_identity_frag r) (pc_declared_in r)
    (pc_declared_out r) (pc_fsm_state r) (pc_recognized_box r) (pc_recognized_headamp_base r)
    (pc_recognized_box_mac r) (pc_grant_attempts r) (pc_rx_box_frames r) (pc_rx_box_ctrl r)
    (pc_rx_joins r) (pc_drops r) (pc_prev_state r) (pc_presence_seen r)
    (pc_rx_since_change r) (pc_probing_slots r) v (pc_ring_trims r) (pc_ring_trim_frames r)
    (pc_ring_depth_peak r) (pc_ring_depth_min r) (pc_graph_quantum r) (pc_tx_frames r)
    (pc_tx_errors r) (pc_rate_req_hz r) (pc_rate_req_seq r) (pc_rate_req_seen r)
    (pc_reestab_cause r) (pc_rate_hz r) (pc_rate_asserted r) (pc_rate_reestablishing r)
    (pc_sessions r).
Definition set_pc_ring_trims (v : Z) (r : reac_pacer) : reac_pacer :=
  ReacPacer (pc_src r) (pc_fps r) (pc_master r) (pc_ha r) (pc_ring r) (pc_slotclk r)
    (pc_catchup_max_slots_cfg r) (pc_clk r) (pc_disco_gate r) (pc_disco_peer_lock r)
    (pc_disco r) (pc_ev r) (pc_rx_identity r) (pc_rx_identity_frag r) (pc_declared_in r)
    (pc_declared_out r) (pc_fsm_state r) (pc_recognized_box r) (pc_recognized_headamp_base r)
    (pc_recognized_box_mac r) (pc_grant_attempts r) (pc_rx_box_frames r) (pc_rx_box_ctrl r)
    (pc_rx_joins r) (pc_drops r) (pc_prev_state r) (pc_presence_seen r)
    (pc_rx_since_change r) (pc_probing_slots r) (pc_last_chanmap_ns r) v
    (pc_ring_trim_frames r) (pc_ring_depth_peak r) (pc_ring_depth_min r) (pc_graph_quantum r)
    (pc_tx_frames r) (pc_tx_errors r) (pc_rate_req_hz r) (pc_rate_req_seq r)
    (pc_rate_req_seen r) (pc_reestab_cause r) (pc_rate_hz r) (pc_rate_asserted r)
    (pc_rate_reestablishing r) (pc_sessions r).
Definition set_pc_ring_trim_frames (v : Z) (r : reac_pacer) : reac_pacer :=
  ReacPacer (pc_src r) (pc_fps r) (pc_master r) (pc_ha r) (pc_ring r) (pc_slotclk r)
    (pc_catchup_max_slots_cfg r) (pc_clk r) (pc_disco_gate r) (pc_disco_peer_lock r)
    (pc_disco r) (pc_ev r) (pc_rx_identity r) (pc_rx_identity_frag r) (pc_declared_in r)
    (pc_declared_out r) (pc_fsm_state r) (pc_recognized_box r) (pc_recognized_headamp_base r)
    (pc_recognized_box_mac r) (pc_grant_attempts r) (pc_rx_box_frames r) (pc_rx_box_ctrl r)
    (pc_rx_joins r) (pc_drops r) (pc_prev_state r) (pc_presence_seen r)
    (pc_rx_since_change r) (pc_probing_slots r) (pc_last_chanmap_ns r) (pc_ring_trims r) v
    (pc_ring_depth_peak r) (pc_ring_depth_min r) (pc_graph_quantum r) (pc_tx_frames r)
    (pc_tx_errors r) (pc_rate_req_hz r) (pc_rate_req_seq r) (pc_rate_req_seen r)
    (pc_reestab_cause r) (pc_rate_hz r) (pc_rate_asserted r) (pc_rate_reestablishing r)
    (pc_sessions r).
Definition set_pc_ring_depth_peak (v : Z) (r : reac_pacer) : reac_pacer :=
  ReacPacer (pc_src r) (pc_fps r) (pc_master r) (pc_ha r) (pc_ring r) (pc_slotclk r)
    (pc_catchup_max_slots_cfg r) (pc_clk r) (pc_disco_gate r) (pc_disco_peer_lock r)
    (pc_disco r) (pc_ev r) (pc_rx_identity r) (pc_rx_identity_frag r) (pc_declared_in r)
    (pc_declared_out r) (pc_fsm_state r) (pc_recognized_box r) (pc_recognized_headamp_base r)
    (pc_recognized_box_mac r) (pc_grant_attempts r) (pc_rx_box_frames r) (pc_rx_box_ctrl r)
    (pc_rx_joins r) (pc_drops r) (pc_prev_state r) (pc_presence_seen r)
    (pc_rx_since_change r) (pc_probing_slots r) (pc_last_chanmap_ns r) (pc_ring_trims r)
    (pc_ring_trim_frames r) v (pc_ring_depth_min r) (pc_graph_quantum r) (pc_tx_frames r)
    (pc_tx_errors r) (pc_rate_req_hz r) (pc_rate_req_seq r) (pc_rate_req_seen r)
    (pc_reestab_cause r) (pc_rate_hz r) (pc_rate_asserted r) (pc_rate_reestablishing r)
    (pc_sessions r).
Definition set_pc_ring_depth_min (v : Z) (r : reac_pacer) : reac_pacer :=
  ReacPacer (pc_src r) (pc_fps r) (pc_master r) (pc_ha r) (pc_ring r) (pc_slotclk r)
    (pc_catchup_max_slots_cfg r) (pc_clk r) (pc_disco_gate r) (pc_disco_peer_lock r)
    (pc_disco r) (pc_ev r) (pc_rx_identity r) (pc_rx_identity_frag r) (pc_declared_in r)
    (pc_declared_out r) (pc_fsm_state r) (pc_recognized_box r) (pc_recognized_headamp_base r)
    (pc_recognized_box_mac r) (pc_grant_attempts r) (pc_rx_box_frames r) (pc_rx_box_ctrl r)
    (pc_rx_joins r) (pc_drops r) (pc_prev_state r) (pc_presence_seen r)
    (pc_rx_since_change r) (pc_probing_slots r) (pc_last_chanmap_ns r) (pc_ring_trims r)
    (pc_ring_trim_frames r) (pc_ring_depth_peak r) v (pc_graph_quantum r) (pc_tx_frames r)
    (pc_tx_errors r) (pc_rate_req_hz r) (pc_rate_req_seq r) (pc_rate_req_seen r)
    (pc_reestab_cause r) (pc_rate_hz r) (pc_rate_asserted r) (pc_rate_reestablishing r)
    (pc_sessions r).
Definition set_pc_graph_quantum (v : Z) (r : reac_pacer) : reac_pacer :=
  ReacPacer (pc_src r) (pc_fps r) (pc_master r) (pc_ha r) (pc_ring r) (pc_slotclk r)
    (pc_catchup_max_slots_cfg r) (pc_clk r) (pc_disco_gate r) (pc_disco_peer_lock r)
    (pc_disco r) (pc_ev r) (pc_rx_identity r) (pc_rx_identity_frag r) (pc_declared_in r)
    (pc_declared_out r) (pc_fsm_state r) (pc_recognized_box r) (pc_recognized_headamp_base r)
    (pc_recognized_box_mac r) (pc_grant_attempts r) (pc_rx_box_frames r) (pc_rx_box_ctrl r)
    (pc_rx_joins r) (pc_drops r) (pc_prev_state r) (pc_presence_seen r)
    (pc_rx_since_change r) (pc_probing_slots r) (pc_last_chanmap_ns r) (pc_ring_trims r)
    (pc_ring_trim_frames r) (pc_ring_depth_peak r) (pc_ring_depth_min r) v (pc_tx_frames r)
    (pc_tx_errors r) (pc_rate_req_hz r) (pc_rate_req_seq r) (pc_rate_req_seen r)
    (pc_reestab_cause r) (pc_rate_hz r) (pc_rate_asserted r) (pc_rate_reestablishing r)
    (pc_sessions r).
Definition set_pc_tx_frames (v : Z) (r : reac_pacer) : reac_pacer :=
  ReacPacer (pc_src r) (pc_fps r) (pc_master r) (pc_ha r) (pc_ring r) (pc_slotclk r)
    (pc_catchup_max_slots_cfg r) (pc_clk r) (pc_disco_gate r) (pc_disco_peer_lock r)
    (pc_disco r) (pc_ev r) (pc_rx_identity r) (pc_rx_identity_frag r) (pc_declared_in r)
    (pc_declared_out r) (pc_fsm_state r) (pc_recognized_box r) (pc_recognized_headamp_base r)
    (pc_recognized_box_mac r) (pc_grant_attempts r) (pc_rx_box_frames r) (pc_rx_box_ctrl r)
    (pc_rx_joins r) (pc_drops r) (pc_prev_state r) (pc_presence_seen r)
    (pc_rx_since_change r) (pc_probing_slots r) (pc_last_chanmap_ns r) (pc_ring_trims r)
    (pc_ring_trim_frames r) (pc_ring_depth_peak r) (pc_ring_depth_min r) (pc_graph_quantum r)
    v (pc_tx_errors r) (pc_rate_req_hz r) (pc_rate_req_seq r) (pc_rate_req_seen r)
    (pc_reestab_cause r) (pc_rate_hz r) (pc_rate_asserted r) (pc_rate_reestablishing r)
    (pc_sessions r).
Definition set_pc_tx_errors (v : Z) (r : reac_pacer) : reac_pacer :=
  ReacPacer (pc_src r) (pc_fps r) (pc_master r) (pc_ha r) (pc_ring r) (pc_slotclk r)
    (pc_catchup_max_slots_cfg r) (pc_clk r) (pc_disco_gate r) (pc_disco_peer_lock r)
    (pc_disco r) (pc_ev r) (pc_rx_identity r) (pc_rx_identity_frag r) (pc_declared_in r)
    (pc_declared_out r) (pc_fsm_state r) (pc_recognized_box r) (pc_recognized_headamp_base r)
    (pc_recognized_box_mac r) (pc_grant_attempts r) (pc_rx_box_frames r) (pc_rx_box_ctrl r)
    (pc_rx_joins r) (pc_drops r) (pc_prev_state r) (pc_presence_seen r)
    (pc_rx_since_change r) (pc_probing_slots r) (pc_last_chanmap_ns r) (pc_ring_trims r)
    (pc_ring_trim_frames r) (pc_ring_depth_peak r) (pc_ring_depth_min r) (pc_graph_quantum r)
    (pc_tx_frames r) v (pc_rate_req_hz r) (pc_rate_req_seq r) (pc_rate_req_seen r)
    (pc_reestab_cause r) (pc_rate_hz r) (pc_rate_asserted r) (pc_rate_reestablishing r)
    (pc_sessions r).
Definition set_pc_rate_req_hz (v : Z) (r : reac_pacer) : reac_pacer :=
  ReacPacer (pc_src r) (pc_fps r) (pc_master r) (pc_ha r) (pc_ring r) (pc_slotclk r)
    (pc_catchup_max_slots_cfg r) (pc_clk r) (pc_disco_gate r) (pc_disco_peer_lock r)
    (pc_disco r) (pc_ev r) (pc_rx_identity r) (pc_rx_identity_frag r) (pc_declared_in r)
    (pc_declared_out r) (pc_fsm_state r) (pc_recognized_box r) (pc_recognized_headamp_base r)
    (pc_recognized_box_mac r) (pc_grant_attempts r) (pc_rx_box_frames r) (pc_rx_box_ctrl r)
    (pc_rx_joins r) (pc_drops r) (pc_prev_state r) (pc_presence_seen r)
    (pc_rx_since_change r) (pc_probing_slots r) (pc_last_chanmap_ns r) (pc_ring_trims r)
    (pc_ring_trim_frames r) (pc_ring_depth_peak r) (pc_ring_depth_min r) (pc_graph_quantum r)
    (pc_tx_frames r) (pc_tx_errors r) v (pc_rate_req_seq r) (pc_rate_req_seen r)
    (pc_reestab_cause r) (pc_rate_hz r) (pc_rate_asserted r) (pc_rate_reestablishing r)
    (pc_sessions r).
Definition set_pc_rate_req_seq (v : Z) (r : reac_pacer) : reac_pacer :=
  ReacPacer (pc_src r) (pc_fps r) (pc_master r) (pc_ha r) (pc_ring r) (pc_slotclk r)
    (pc_catchup_max_slots_cfg r) (pc_clk r) (pc_disco_gate r) (pc_disco_peer_lock r)
    (pc_disco r) (pc_ev r) (pc_rx_identity r) (pc_rx_identity_frag r) (pc_declared_in r)
    (pc_declared_out r) (pc_fsm_state r) (pc_recognized_box r) (pc_recognized_headamp_base r)
    (pc_recognized_box_mac r) (pc_grant_attempts r) (pc_rx_box_frames r) (pc_rx_box_ctrl r)
    (pc_rx_joins r) (pc_drops r) (pc_prev_state r) (pc_presence_seen r)
    (pc_rx_since_change r) (pc_probing_slots r) (pc_last_chanmap_ns r) (pc_ring_trims r)
    (pc_ring_trim_frames r) (pc_ring_depth_peak r) (pc_ring_depth_min r) (pc_graph_quantum r)
    (pc_tx_frames r) (pc_tx_errors r) (pc_rate_req_hz r) v (pc_rate_req_seen r)
    (pc_reestab_cause r) (pc_rate_hz r) (pc_rate_asserted r) (pc_rate_reestablishing r)
    (pc_sessions r).
Definition set_pc_rate_req_seen (v : Z) (r : reac_pacer) : reac_pacer :=
  ReacPacer (pc_src r) (pc_fps r) (pc_master r) (pc_ha r) (pc_ring r) (pc_slotclk r)
    (pc_catchup_max_slots_cfg r) (pc_clk r) (pc_disco_gate r) (pc_disco_peer_lock r)
    (pc_disco r) (pc_ev r) (pc_rx_identity r) (pc_rx_identity_frag r) (pc_declared_in r)
    (pc_declared_out r) (pc_fsm_state r) (pc_recognized_box r) (pc_recognized_headamp_base r)
    (pc_recognized_box_mac r) (pc_grant_attempts r) (pc_rx_box_frames r) (pc_rx_box_ctrl r)
    (pc_rx_joins r) (pc_drops r) (pc_prev_state r) (pc_presence_seen r)
    (pc_rx_since_change r) (pc_probing_slots r) (pc_last_chanmap_ns r) (pc_ring_trims r)
    (pc_ring_trim_frames r) (pc_ring_depth_peak r) (pc_ring_depth_min r) (pc_graph_quantum r)
    (pc_tx_frames r) (pc_tx_errors r) (pc_rate_req_hz r) (pc_rate_req_seq r) v
    (pc_reestab_cause r) (pc_rate_hz r) (pc_rate_asserted r) (pc_rate_reestablishing r)
    (pc_sessions r).
Definition set_pc_reestab_cause (v : Z) (r : reac_pacer) : reac_pacer :=
  ReacPacer (pc_src r) (pc_fps r) (pc_master r) (pc_ha r) (pc_ring r) (pc_slotclk r)
    (pc_catchup_max_slots_cfg r) (pc_clk r) (pc_disco_gate r) (pc_disco_peer_lock r)
    (pc_disco r) (pc_ev r) (pc_rx_identity r) (pc_rx_identity_frag r) (pc_declared_in r)
    (pc_declared_out r) (pc_fsm_state r) (pc_recognized_box r) (pc_recognized_headamp_base r)
    (pc_recognized_box_mac r) (pc_grant_attempts r) (pc_rx_box_frames r) (pc_rx_box_ctrl r)
    (pc_rx_joins r) (pc_drops r) (pc_prev_state r) (pc_presence_seen r)
    (pc_rx_since_change r) (pc_probing_slots r) (pc_last_chanmap_ns r) (pc_ring_trims r)
    (pc_ring_trim_frames r) (pc_ring_depth_peak r) (pc_ring_depth_min r) (pc_graph_quantum r)
    (pc_tx_frames r) (pc_tx_errors r) (pc_rate_req_hz r) (pc_rate_req_seq r)
    (pc_rate_req_seen r) v (pc_rate_hz r) (pc_rate_asserted r) (pc_rate_reestablishing r)
    (pc_sessions r).
Definition set_pc_rate_hz (v : Z) (r : reac_pacer) : reac_pacer :=
  ReacPacer (pc_src r) (pc_fps r) (pc_master r) (pc_ha r) (pc_ring r) (pc_slotclk r)
    (pc_catchup_max_slots_cfg r) (pc_clk r) (pc_disco_gate r) (pc_disco_peer_lock r)
    (pc_disco r) (pc_ev r) (pc_rx_identity r) (pc_rx_identity_frag r) (pc_declared_in r)
    (pc_declared_out r) (pc_fsm_state r) (pc_recognized_box r) (pc_recognized_headamp_base r)
    (pc_recognized_box_mac r) (pc_grant_attempts r) (pc_rx_box_frames r) (pc_rx_box_ctrl r)
    (pc_rx_joins r) (pc_drops r) (pc_prev_state r) (pc_presence_seen r)
    (pc_rx_since_change r) (pc_probing_slots r) (pc_last_chanmap_ns r) (pc_ring_trims r)
    (pc_ring_trim_frames r) (pc_ring_depth_peak r) (pc_ring_depth_min r) (pc_graph_quantum r)
    (pc_tx_frames r) (pc_tx_errors r) (pc_rate_req_hz r) (pc_rate_req_seq r)
    (pc_rate_req_seen r) (pc_reestab_cause r) v (pc_rate_asserted r)
    (pc_rate_reestablishing r) (pc_sessions r).
Definition set_pc_rate_asserted (v : bool) (r : reac_pacer) : reac_pacer :=
  ReacPacer (pc_src r) (pc_fps r) (pc_master r) (pc_ha r) (pc_ring r) (pc_slotclk r)
    (pc_catchup_max_slots_cfg r) (pc_clk r) (pc_disco_gate r) (pc_disco_peer_lock r)
    (pc_disco r) (pc_ev r) (pc_rx_identity r) (pc_rx_identity_frag r) (pc_declared_in r)
    (pc_declared_out r) (pc_fsm_state r) (pc_recognized_box r) (pc_recognized_headamp_base r)
    (pc_recognized_box_mac r) (pc_grant_attempts r) (pc_rx_box_frames r) (pc_rx_box_ctrl r)
    (pc_rx_joins r) (pc_drops r) (pc_prev_state r) (pc_presence_seen r)
    (pc_rx_since_change r) (pc_probing_slots r) (pc_last_chanmap_ns r) (pc_ring_trims r)
    (pc_ring_trim_frames r) (pc_ring_depth_peak r) (pc_ring_depth_min r) (pc_graph_quantum r)
    (pc_tx_frames r) (pc_tx_errors r) (pc_rate_req_hz r) (pc_rate_req_seq r)
    (pc_rate_req_seen r) (pc_reestab_cause r) (pc_rate_hz r) v (pc_rate_reestablishing r)
    (pc_sessions r).
Definition set_pc_rate_reestablishing (v : bool) (r : reac_pacer) : reac_pacer :=
  ReacPacer (pc_src r) (pc_fps r) (pc_master r) (pc_ha r) (pc_ring r) (pc_slotclk r)
    (pc_catchup_max_slots_cfg r) (pc_clk r) (pc_disco_gate r) (pc_disco_peer_lock r)
    (pc_disco r) (pc_ev r) (pc_rx_identity r) (pc_rx_identity_frag r) (pc_declared_in r)
    (pc_declared_out r) (pc_fsm_state r) (pc_recognized_box r) (pc_recognized_headamp_base r)
    (pc_recognized_box_mac r) (pc_grant_attempts r) (pc_rx_box_frames r) (pc_rx_box_ctrl r)
    (pc_rx_joins r) (pc_drops r) (pc_prev_state r) (pc_presence_seen r)
    (pc_rx_since_change r) (pc_probing_slots r) (pc_last_chanmap_ns r) (pc_ring_trims r)
    (pc_ring_trim_frames r) (pc_ring_depth_peak r) (pc_ring_depth_min r) (pc_graph_quantum r)
    (pc_tx_frames r) (pc_tx_errors r) (pc_rate_req_hz r) (pc_rate_req_seq r)
    (pc_rate_req_seen r) (pc_reestab_cause r) (pc_rate_hz r) (pc_rate_asserted r) v
    (pc_sessions r).
Definition set_pc_sessions (v : list (option (list Z * Z))) (r : reac_pacer) : reac_pacer :=
  ReacPacer (pc_src r) (pc_fps r) (pc_master r) (pc_ha r) (pc_ring r) (pc_slotclk r)
    (pc_catchup_max_slots_cfg r) (pc_clk r) (pc_disco_gate r) (pc_disco_peer_lock r)
    (pc_disco r) (pc_ev r) (pc_rx_identity r) (pc_rx_identity_frag r) (pc_declared_in r)
    (pc_declared_out r) (pc_fsm_state r) (pc_recognized_box r) (pc_recognized_headamp_base r)
    (pc_recognized_box_mac r) (pc_grant_attempts r) (pc_rx_box_frames r) (pc_rx_box_ctrl r)
    (pc_rx_joins r) (pc_drops r) (pc_prev_state r) (pc_presence_seen r)
    (pc_rx_since_change r) (pc_probing_slots r) (pc_last_chanmap_ns r) (pc_ring_trims r)
    (pc_ring_trim_frames r) (pc_ring_depth_peak r) (pc_ring_depth_min r) (pc_graph_quantum r)
    (pc_tx_frames r) (pc_tx_errors r) (pc_rate_req_hz r) (pc_rate_req_seq r)
    (pc_rate_req_seen r) (pc_reestab_cause r) (pc_rate_hz r) (pc_rate_asserted r)
    (pc_rate_reestablishing r) v.

(** What the environment fixes: the tunables, and whether a session callback is
    installed. *)
Record pacer_env := PacerEnv {
  pe_tn : reac_master_tunables; pe_no_headamp : bool; pe_guard_floor_frames : Z; pe_on_session : bool
}.

Abbreviation pc_headamp p := (hp_table (pc_ha p)).
Definition set_pc_headamp (t : reac_headamp_tx) (p : reac_pacer) : reac_pacer :=
  set_pc_ha (HaPath (hp_cmd (pc_ha p)) t (hp_applied (pc_ha p))) p.

(** The enumerators as the bytes of an event. *)
Definition state_byte (s : reac_master_state) : Z :=
  match s with
  | REAC_M_IDLE => 0 | REAC_M_PROBING => 1 | REAC_M_GRANTING => 2 | REAC_M_ESTABLISHED => 3
  end.
Definition rx_event_byte (ev : reac_master_rx_event) : Z :=
  match ev with
  | REAC_M_RX_BOX_BCAST_FILLER => 0 | REAC_M_RX_BOX_JOIN => 1 | REAC_M_RX_BOX_UNICAST => 2
  | REAC_M_RX_BOX_HEARTBEAT => 3 | REAC_M_RX_BOX_BYE => 4 | REAC_M_RX_BOX_CONFIG => 5
  end.
Definition drop_byte (r : reac_master_drop_reason) : Z :=
  match r with
  | REAC_M_DROP_NONE => 0 | REAC_M_DROP_PEER_GONE => 1 | REAC_M_DROP_BYE => 2
  | REAC_M_DROP_MAC_CHANGE => 3 | REAC_M_DROP_GRANT_TIMEOUT => 4 | REAC_M_DROP_BOX_UNKNOWN => 5
  end.
Definition role_byte (r : reac_disco_role) : Z :=
  match r with REAC_DISCO_ROLE_UNKNOWN => 0 | REAC_DISCO_ROLE_BOX => 1 | REAC_DISCO_ROLE_MASTER => 2 end.

Definition pev_push (now : Z) (kind : reac_pacer_evkind) (a b : Z) (src blk : option (list Z))
    (p : reac_pacer) : reac_pacer :=
  set_pc_ev (ix_push (pc_ev p) (PacerEvent now kind (u8 a) (u8 b) (default (zeros 6) src)
                                  (default (zeros 32) blk))).1 p.

Definition count (get : reac_pacer → Z) (set : Z → reac_pacer → reac_pacer) (p : reac_pacer) : reac_pacer :=
  set (u64 (get p + 1)) p.

(** [atomic_fetch_add(&p->drops[r & 7], 1)]. *)
Definition count_drop (r : reac_master_drop_reason) (p : reac_pacer) : reac_pacer :=
  set_pc_drops (wr (pc_drops p) (Z.land (drop_byte r) 7) (u64 ((pc_drops p).[Z.land (drop_byte r) 7] + 1))) p.

(** ** A transition happened *)

(** The calls made to [on_session]: a session that begins, or [None] for one
    that ended. *)
Definition call_session (env : pacer_env) (s : option (list Z * Z)) (p : reac_pacer) : reac_pacer :=
  if pe_on_session env then set_pc_sessions (pc_sessions p ++ [s]) p else p.

Definition session_edge (env : pacer_env) (from to : reac_master_state) (p : reac_pacer) : reac_pacer :=
  if state_eqb to REAC_M_ESTABLISHED
  then call_session env (Some (m_box_mac (pc_master p), m_session_seq (pc_master p))) p
  else if state_eqb from REAC_M_ESTABLISHED then call_session env None p else p.

(** The complete head-amp scene, armed on the entry into ESTABLISHED. *)
Definition arm_on_establish (env : pacer_env) (from to : reac_master_state) (p : reac_pacer) : reac_pacer :=
  if state_eqb to REAC_M_ESTABLISHED && negb (state_eqb from REAC_M_ESTABLISHED) then
    if pe_no_headamp env then p
    else set_pc_headamp (reac_headamp_tx_arm_scene (pc_headamp p) (ga_base (m_alloc (pc_master p)))
                           (ga_width (m_alloc (pc_master p)))) p
  else p.

(** The one event a transition leaves in the log. *)
Definition log_transition (now : Z) (from to : reac_master_state) (cause : Z) (p : reac_pacer) : reac_pacer :=
  let r := m_drop_reason (pc_master p) in
  let mac := Some (m_box_mac (pc_master p)) in
  if state_eqb from REAC_M_GRANTING && state_eqb to REAC_M_PROBING
     && bool_decide (r = REAC_M_DROP_GRANT_TIMEOUT) then
    pev_push now REAC_PEV_GRANT_TIMEOUT (Z.land (m_grant_attempts (pc_master p)) 0xff) 0 mac None
      (count_drop REAC_M_DROP_GRANT_TIMEOUT p)
  else if state_eqb from REAC_M_ESTABLISHED && negb (state_eqb to REAC_M_ESTABLISHED) then
    pev_push now REAC_PEV_DROP (drop_byte r) (state_byte to) mac None (count_drop r p)
  else pev_push now REAC_PEV_STATE (state_byte from) (state_byte to) mac (Some (wr (zeros 32) 0 cause)) p.

Definition note_transition (env : pacer_env) (now : Z) (from to : reac_master_state) (cause : Z)
    (p : reac_pacer) : reac_pacer :=
  let p := set_pc_prev_state to p in
  let p := session_edge env from to p in
  let p := if state_eqb to REAC_M_ESTABLISHED then set_pc_rate_reestablishing false p else p in
  let p := set_pc_fsm_state to p in
  let p := set_pc_grant_attempts (m_grant_attempts (pc_master p)) p in
  let p := set_pc_rx_since_change (zeros 4) p in
  let p := set_pc_probing_slots 0 p in
  let p := arm_on_establish env from to p in
  log_transition now from to cause p.

(** ** The published box *)

(** What goes with a box that is forgotten. *)
Definition forget_published (p : reac_pacer) : reac_pacer :=
  let p := set_pc_recognized_box None p in
  let p := set_pc_recognized_headamp_base (-1) p in
  let p := set_pc_declared_out 0 (set_pc_declared_in 0 p) in
  let id := pc_rx_identity p in
  let p := if id_has_fw id || id_has_model_name id || id_has_version id
           then set_pc_rx_identity reac_identity_init p else p in
  let p := set_pc_rx_identity_frag frag_zero p in
  set_pc_master (reac_master_identity_answered false (pc_master p)) p.

Definition sync_published_box (p : reac_pacer) : reac_pacer :=
  let p := set_pc_recognized_box_mac (reac_mac48_pack (Some (m_box_mac (pc_master p)))) p in
  if negb (reac_master_has_box (pc_master p)) then forget_published p
  else set_pc_recognized_headamp_base (ga_base (m_alloc (pc_master p))) p.
