(* ===== verification/Pacer.v ===== *)
(** * Pacer: reception, the slot, rate changes and opening

    Models the rest of the pacer of [transport/src/reac_pacer.c] over the state
    of [PacerState]: what a received frame does ([reac_pacer_rx_ingest]), one
    turn of [pacer_loop] from the receive queue to the deadline, the live rate
    changes, the drain of the event log as far as it changes state, and what
    [reac_pacer_open] leaves. A call reads the monotonic clock once here; the
    kernel's answers (the frames received, whether a send succeeded, the clock of
    the backend) are arguments. *)

From S2P Require Import Prelude Wire CtrlBlk CtrlFrames Identity BoxModel BoxFacts Disco HeadampTx Grant MasterFsm Master Link Ring FrameRing IxRing Clock Pace PacerClock PacerState.
Local Open Scope Z_scope.

(** ** Reception *)

Definition sighting_block (s : reac_disco_sighting) : list Z :=
  blit (zeros 32) 0
    [if REAC_MAX_CHANNELS <? s_channels s then REAC_MAX_CHANNELS else u8 (s_channels s);
     b2z (s_has_decl s); s_decl_in s; s_decl_out s; s_announced_slots s].

(** Passive discovery, before any filter. *)
Definition ingest_discovery (now : Z) (frame : list Z) (len : Z) (p : reac_pacer) : reac_pacer :=
  let '(lock, s) := reac_disco_classify_on_segment (pc_disco_peer_lock p) frame len (pc_src p) in
  let p := set_pc_disco_peer_lock lock p in
  match s with
  | None => p
  | Some s =>
      let '(gate, push) := reac_disco_gate_should_push (pc_disco_gate p) s now in
      let p := set_pc_disco_gate gate p in
      if push then pev_push now REAC_PEV_SIGHTING (role_byte (s_role s)) 0 (Some (s_mac s))
                     (Some (sighting_block s)) p
      else p
  end.

Definition store_identity (addr_lo : Z) (payload : list Z) (p : reac_pacer) : reac_pacer :=
  let p := set_pc_rx_identity (reac_identity_ingest (pc_rx_identity p) addr_lo payload (zlen payload)).1 p in
  set_pc_master (reac_master_identity_answered
    (id_has_fw (pc_rx_identity p) && id_has_version (pc_rx_identity p)) (pc_master p)) p.

(** The identity page, before the master's filter: only the enrolled box's. *)
Definition ingest_identity (frame : list Z) (len : Z) (p : reac_pacer) : reac_pacer :=
  let from_ours := negb (reac_master_has_box (pc_master p))
                   || zeqb (slice frame 6 6) (m_box_mac (pc_master p))
                   || zeqb (m_box_mac (pc_master p)) (zeros 6) in
  if negb from_ours then p
  else
    match reac_ctrl_identity_reply frame len with
    | Some (addr_lo, payload) => store_identity addr_lo payload p
    | None =>
        let '(frag, r) := reac_ctrl_identity_fragment (pc_rx_identity_frag p) frame len in
        let p := set_pc_rx_identity_frag frag p in
        match r with Some (addr_lo, payload) => store_identity addr_lo payload p | None => p end
    end.

Definition ingest_counters (parsed : reac_ctrl_parsed) (ev : reac_master_rx_event) (p : reac_pacer) : reac_pacer :=
  let p := count pc_rx_box_frames set_pc_rx_box_frames p in
  let p := if bool_decide (p_kind parsed = REAC_CTRL_FILLER) then p
           else count pc_rx_box_ctrl set_pc_rx_box_ctrl p in
  if rx_event_is_join ev then count pc_rx_joins set_pc_rx_joins p else p.

(** The note of a recognised declaration: what could not be read of it. *)
Definition declaration_note (block : list Z) (out_ch : Z) : list Z :=
  let '(unknown, code) := default (-1, 0) (reac_ports_unknown block) in
  blit (zeros 32) 0 [if 0 <? unknown then u8 unknown else 0; code; u8 out_ch].

(** A declaration differing from the one held, applied; recorded, and granted
    anew where its width moved, only once it holds. *)
Definition apply_declaration (now : Z) (block src : list Z) (ports : reac_box_ports) (p : reac_pacer)
    : reac_pacer :=
  let prev_w := ga_width (m_alloc (pc_master p)) in
  let p := set_pc_master (reac_master_set_box (pc_headamp p) (pc_master p) (bp_in_ch ports)
                            (bp_out_ch ports) (bp_headamp_base ports)) p in
  if negb (ga_width (m_alloc (pc_master p)) =? bp_in_ch ports) then p
  else
    let p := if negb (bp_in_ch ports =? prev_w)
                && (state_eqb (m_state (pc_master p)) REAC_M_GRANTING
                    || state_eqb (m_state (pc_master p)) REAC_M_ESTABLISHED)
             then set_pc_master (reac_master_regrant (pc_headamp p) (pc_master p)) p else p in
    let p := set_pc_declared_out (bp_out_ch ports) (set_pc_declared_in (bp_in_ch ports) p) in
    pev_push now REAC_PEV_RECOGNIZED (bp_in_ch ports) 0 (Some src)
      (Some (declaration_note block (bp_out_ch ports))) p.

Definition ingest_declaration (now : Z) (frame : list Z) (len : Z) (src : list Z) (p : reac_pacer) : reac_pacer :=
  let block := slice frame REAC_CTRL_BLOCK_OFF REAC_CTRL_BLOCK_LEN in
  if len <? REAC_CTRL_BLOCK_OFF + REAC_CTRL_BLOCK_LEN then p
  else match reac_ports_parse block with
       | None => p
       | Some ports =>
           let p := match reac_box_catalogue_match frame len with
                    | Some bm => set_pc_recognized_box (Some bm) p | None => p end in
           if negb (bp_in_ch ports =? pc_declared_in p) || negb (bp_out_ch ports =? pc_declared_out p)
           then apply_declaration now block src ports p else p
       end.

(** What the log keeps of an accepted frame. *)
Definition lat_us_bytes (now : Z) (p : reac_pacer) : list Z :=
  let lat_us := u32 (u64 (now - pc_last_chanmap_ns p) / 1000) in
  [u8 lat_us; u8 (Z.shiftr lat_us 8); u8 (Z.shiftr lat_us 16); u8 (Z.shiftr lat_us 24)].

Definition log_rx (now : Z) (frame : list Z) (parsed : reac_ctrl_parsed) (ev : reac_master_rx_event)
    (p : reac_pacer) : reac_pacer :=
  let st := state_byte (m_state (pc_master p)) in
  let src := Some (p_src parsed) in
  match ev with
  | REAC_M_RX_BOX_JOIN =>
      pev_push now REAC_PEV_JOIN (b2z (p_is_broadcast parsed)) st src (Some (slice frame 18 32)) p
  | REAC_M_RX_BOX_BYE => pev_push now REAC_PEV_RX (rx_event_byte ev) st src (Some (slice frame 18 32)) p
  | _ =>
      let k := Z.land (rx_event_byte ev) 3 in
      let seen := (pc_rx_since_change p).[k] in
      let p := set_pc_rx_since_change (wr (pc_rx_since_change p) k (u32 (seen + 1))) p in
      let unicast := bool_decide (rx_event_byte ev = rx_event_byte REAC_M_RX_BOX_UNICAST) in
      let is_hb := unicast && bool_decide (p_kind parsed = REAC_CTRL_BOX_HB) in
      let log_it := (seen =? 0) || (is_hb && (Z.land seen 7 =? 0)) in
      if log_it && negb (rx_event_byte ev =? rx_event_byte REAC_M_RX_BOX_BCAST_FILLER) then
        let blk := if unicast && negb (pc_last_chanmap_ns p =? 0)
                   then blit (zeros 32) 0 (lat_us_bytes now p) else zeros 32 in
        pev_push now REAC_PEV_RX (rx_event_byte ev) st src (Some blk) p
      else p
  end.

(** The frame given to the master, the mirrors, the log and the transition. *)
Definition ingest_master (env : pacer_env) (now : Z) (frame : list Z) (parsed : reac_ctrl_parsed)
    (ev : reac_master_rx_event) (p : reac_pacer) : reac_pacer :=
  let from := m_state (pc_master p) in
  let '(m, changed) := reac_master_rx (pc_headamp p) (pc_master p) ev (p_src parsed)
                         (if rx_event_is_join ev then Some (slice frame 18 32) else None) in
  let p := sync_published_box (set_pc_master m p) in
  let p := if m_box_seen (pc_master p) && negb (pc_presence_seen p)
           then pev_push now REAC_PEV_PRESENCE 1 (rx_event_byte ev) (Some (p_src parsed)) None p else p in
  let p := set_pc_presence_seen (m_box_seen (pc_master p)) p in
  let p := log_rx now frame parsed ev p in
  if changed then note_transition env now from (m_state (pc_master p)) (rx_event_byte ev) p else p.

(** A frame no filter dropped. *)
Definition ingest_accepted (env : pacer_env) (now : Z) (frame : list Z) (len : Z)
    (parsed : reac_ctrl_parsed) (ev : reac_master_rx_event) (p : reac_pacer) : reac_pacer :=
  let p := ingest_counters parsed ev p in
  let p := ingest_declaration now frame len (p_src parsed) p in
  ingest_master env now frame parsed ev p.

Definition reac_pacer_rx_ingest (env : pacer_env) (now : Z) (frame : list Z) (len : Z) (p : reac_pacer)
    : reac_pacer :=
  let len := reac_frame_clean_len len in
  let p := ingest_discovery now frame len p in
  let p := ingest_identity frame len p in
  match reac_ctrl_classify_box_frame frame len (pc_src p) with
  | (_, None) => p
  | (parsed, Some ev) =>
      if negb (reac_master_peer_accepts (pc_master p) (p_src parsed) ev) then p
      else ingest_accepted env now frame len parsed ev p
  end.

(** ** Live rate changes *)

Definition request_pending (hz cause : Z) (p : reac_pacer) : reac_pacer :=
  let p := set_pc_rate_req_hz hz p in
  let p := set_pc_reestab_cause cause p in
  set_pc_rate_req_seq (u32 (pc_rate_req_seq p + 1)) p.

Definition reac_pacer_request_rate (hz : Z) (p : reac_pacer) : reac_pacer :=
  request_pending hz REAC_PEV_CAUSE_RATE_CHANGE p.
Definition reac_pacer_request_reestablish (cause : Z) (p : reac_pacer) : reac_pacer :=
  request_pending (pc_rate_hz p) cause p.

(** The timing fields at the new cadence. *)
Definition retime (fps : Z) (p : reac_pacer) : reac_pacer :=
  let period := reac_pacer_period_ns fps in
  let c := pc_slotclk p in
  let p := set_pc_fps fps p in
  let p := set_pc_slotclk
    (SlotClock (sc_etf c) (sc_lead_ns c) (sc_grid c) (sc_deadline c) period
       (resolve_catchup_slots (pc_catchup_max_slots_cfg p) fps) (sc_late_wakes c) (sc_slots_catchup c)
       (sc_slots_dropped c) (sc_slot_debt_max c)) p in
  set_pc_clk (pacer_clock_rerate (pc_clk p) period) p.

Definition with_pace (cfg : reac_console_cfg) (fps : Z) : reac_console_cfg :=
  ConsoleCfg (out_channels cfg) (reac_pace_code fps).

(** The master made anew, and the head-amp table pointed at again. *)
Definition restart_master (env : pacer_env) (fps : Z) (p : reac_pacer) : reac_pacer :=
  let cfg := with_pace (m_cfg (pc_master p)) fps in
  let m := reac_master_init (pe_tn env) (pc_src p)
             (if negb (out_channels cfg =? 0) then Some cfg else None) fps in
  let p := set_pc_master (reac_master_set_headamp_src (pc_headamp p) true m) p in
  set_pc_headamp (reac_headamp_tx_set_resweep (pc_headamp p) (u32 (fps * REAC_HEADAMP_RESWEEP_SECONDS))) p.

Definition reset_books (p : reac_pacer) : reac_pacer :=
  let p := set_pc_prev_state REAC_M_IDLE p in
  let p := set_pc_fsm_state REAC_M_IDLE p in
  let p := set_pc_grant_attempts 0 p in
  let p := set_pc_rx_since_change (zeros 4) p in
  set_pc_probing_slots 0 p.

Definition reac_pacer_apply_rate (env : pacer_env) (now hz : Z) (p : reac_pacer) : reac_pacer :=
  let fps := Z.quot hz REAC_SAMPLES_PER_PKT in
  let p := retime fps p in
  let old_state := m_state (pc_master p) in
  let old_box_mac := m_box_mac (pc_master p) in
  let p := restart_master env fps p in
  let p := reset_books p in
  let p := if state_eqb old_state REAC_M_ESTABLISHED then call_session env None p else p in
  let p := set_pc_recognized_box None p in
  let p := set_pc_recognized_headamp_base (-1) p in
  let p := set_pc_recognized_box_mac 0 p in
  let p := set_pc_declared_out 0 (set_pc_declared_in 0 p) in
  let cause := if pc_reestab_cause p =? 0 then REAC_PEV_CAUSE_RATE_CHANGE else pc_reestab_cause p in
  let p := pev_push now REAC_PEV_STATE (state_byte old_state) (state_byte REAC_M_IDLE) (Some old_box_mac)
             (Some (wr (zeros 32) 0 (u8 cause))) p in
  let p := set_pc_reestab_cause 0 p in
  let p := set_pc_rate_hz hz p in
  let p := set_pc_rate_asserted true p in
  set_pc_rate_reestablishing true p.

(** The flag is the 1 return. *)
Definition reac_pacer_rate_drain (env : pacer_env) (now : Z) (p : reac_pacer) : reac_pacer * bool :=
  let seq := pc_rate_req_seq p in
  if seq =? pc_rate_req_seen p then (p, false)
  else
    let p := set_pc_rate_req_seen seq p in
    (reac_pacer_apply_rate env now (pc_rate_req_hz p) p, true).

(** ** One slot *)

Definition REAC_PACER_RX_BUDGET : Z := 8.

(** The receive queue, within the budget. *)
Definition drain_rx (env : pacer_env) (now : Z) (rx : list (list Z)) (p : reac_pacer) : reac_pacer :=
  foldl (λ p frame, reac_pacer_rx_ingest env now frame (zlen frame) p) p
    (take (Z.to_nat REAC_PACER_RX_BUDGET) rx).

(** The depth guard and its telemetry. *)
Definition guard_ring (env : pacer_env) (p : reac_pacer) : reac_pacer :=
  let depth := reac_frame_ring_readable (pc_ring p) in
  let p := set_pc_ring_depth_peak (Z.max (pc_ring_depth_peak p) depth) p in
  let p := set_pc_ring_depth_min (Z.min (pc_ring_depth_min p) depth) p in
  let qframes := pc_graph_quantum p / REAC_SAMPLES_PER_PKT in
  let high := reac_pacer_guard_high (pe_guard_floor_frames env) qframes in
  let '(ring, trimmed) := reac_frame_ring_trim (pc_ring p) high (high / 2) in
  let p := set_pc_ring ring p in
  if trimmed =? 0 then p
  else set_pc_ring_trim_frames (u64 (pc_ring_trim_frames p + trimmed))
         (count pc_ring_trims set_pc_ring_trims p).

Definition build_silent_filler (src : list Z) : list Z :=
  let f := blit (blit (zeros REAC_FRAME_BYTES) 0 (fill 6 0xFF)) 6 src in
  let f := wr (wr f 12 0x88) 13 0x19 in
  wr (wr f (REAC_FRAME_BYTES - 2) 0xC2) (REAC_FRAME_BYTES - 1) 0xEA.

(** The next frame of the graph, or a silent one; only [REAC_FRAME_BYTES] are sent. *)
Definition next_frame (p : reac_pacer) : reac_pacer * list Z :=
  let '(ring, popped) := reac_frame_ring_pop (pc_ring p) in
  (set_pc_ring ring p,
   if zlen popped <? REAC_FRAME_BYTES then build_silent_filler (pc_src p)
   else slice popped 0 REAC_FRAME_BYTES).

(** The master's decision stamped on the frame. *)
Definition stamp_slot (env : pacer_env) (now : Z) (frame : list Z) (p : reac_pacer)
    : reac_pacer * list Z * reac_master_emit :=
  let '(m, (counter, emit, idx)) := reac_master_next (pe_tn env) (pc_headamp p) (pc_master p) in
  let p := set_pc_master m p in
  let frame := wr (wr frame 14 (Z.land counter 0xff)) 15 (Z.land (Z.shiftr counter 8) 0xff) in
  let frame := default frame (reac_master_stamp m frame emit idx) in
  let p := match emit with REAC_M_EMIT_CHANMAP => set_pc_last_chanmap_ns now p | _ => p end in
  (p, frame, emit).

(** The head-amp record laid over an ESTABLISHED FILLER. *)
Definition overlay_headamp (frame : list Z) (emit : reac_master_emit) (p : reac_pacer) : reac_pacer * list Z :=
  match emit with
  | REAC_M_EMIT_FILLER =>
      if state_eqb (m_state (pc_master p)) REAC_M_ESTABLISHED
         && (t_active (pc_headamp p) || negb (t_replay_width (pc_headamp p) =? 0)) then
        let '(t, r) := reac_headamp_tx_next (pc_headamp p) in
        let p := set_pc_headamp t p in
        match r with
        | Some (hch, hparam, hval) => (p, default frame (reac_ctrl_stamp_headamp frame hch hparam hval))
        | None => (p, frame)
        end
      else (p, frame)
  | _ => (p, frame)
  end.

(** The transitions only time makes, with the presence edge and the watchdog. *)
Definition timer_edges (env : pacer_env) (now : Z) (p : reac_pacer) : reac_pacer :=
  let m := pc_master p in
  let p := if negb (state_eqb (m_state m) (pc_prev_state p))
           then sync_published_box (note_transition env now (pc_prev_state p) (m_state m) REAC_PEV_CAUSE_TIMER p)
           else p in
  let p := if negb (m_box_seen (pc_master p)) && pc_presence_seen p
           then set_pc_presence_seen false (pev_push now REAC_PEV_PRESENCE 0 0 None None p) else p in
  if state_eqb (m_state (pc_master p)) REAC_M_PROBING then
    let p := count pc_probing_slots set_pc_probing_slots p in
    if pc_probing_slots p mod (pc_fps p * 10) =? 0
    then pev_push now REAC_PEV_WATCHDOG (b2z (m_box_seen (pc_master p))) 0 None None p else p
  else set_pc_probing_slots 0 p.

(** Everything from the guard to the frame handed to the socket. *)
Definition slot_emit (env : pacer_env) (now : Z) (p : reac_pacer) : reac_pacer * list Z :=
  let p := guard_ring env p in
  let '(p, frame) := next_frame p in
  let p := (reac_pacer_rate_drain env now p).1 in
  let '(p, frame, emit) := stamp_slot env now frame p in
  let p := set_pc_ha (reac_pacer_headamp_drain (pc_ha p)).1 p in
  let '(p, frame) := overlay_headamp frame emit p in
  (timer_edges env now p, frame).

(** The send and its answer: [bad] launch times the qdisc reports refused. *)
Definition slot_sent (ok : bool) (bad : Z) (p : reac_pacer) : reac_pacer :=
  let p := if ok then count pc_tx_frames set_pc_tx_frames p else count pc_tx_errors set_pc_tx_errors p in
  if bad =? 0 then p else set_pc_tx_errors (u64 (pc_tx_errors p + bad)) p.

(** The deadline: [now] is the monotonic clock, [clk] the clock of the backend. *)
Definition slot_advance (now clk : Z) (p : reac_pacer) : reac_pacer :=
  let '(k, slot_ns, ev) := reac_pacer_clock_tick (pc_clk p) now in
  let p := set_pc_clk k p in
  let p := match ev with Some (a, b, blk) => pev_push now REAC_PEV_CLOCK a b None (Some blk) p | None => p end in
  set_pc_slotclk (slot_clock_turn (pc_slotclk p) (pk_follow k) slot_ns clk) p.

(** One turn of [pacer_loop]: what was received, the clock, and the answer of
    the send. The frame is what went to the socket. *)
Definition pacer_turn (env : pacer_env) (now clk : Z) (rx : list (list Z)) (ok : bool) (bad : Z)
    (p : reac_pacer) : reac_pacer * list Z :=
  let p := drain_rx env now rx p in
  let '(p, frame) := slot_emit env now p in
  (slot_advance now clk (slot_sent ok bad p), frame).

(** ** The drain of the event log *)

Definition family_byte (f : reac_box_family) : Z :=
  match f with
  | REAC_BOX_FAMILY_UNKNOWN => 0 | REAC_BOX_FAMILY_S0808 => 1 | REAC_BOX_FAMILY_S1608 => 2
  | REAC_BOX_FAMILY_S4000S => 3
  end.

(** The reader's side of a sighting: the record rebuilt, and completed with what
    the enrolled box itself declared. *)
Definition sighting_of_event (e : reac_pacer_event) : reac_disco_sighting :=
  Sighting (pev_src e)
    (if pev_a e =? 1 then REAC_DISCO_ROLE_BOX else if pev_a e =? 2 then REAC_DISCO_ROLE_MASTER
     else REAC_DISCO_ROLE_UNKNOWN)
    (negb ((pev_blk e).[1] =? 0)) (pev_blk e).[2] (pev_blk e).[3] 0 (pev_blk e).[4] (pev_blk e).[0].

Definition sighting_owned (p : reac_pacer) (e : reac_pacer_event) : bool :=
  state_eqb (m_state (pc_master p)) REAC_M_ESTABLISHED && zeqb (m_box_mac (pc_master p)) (pev_src e).

Definition owned_sighting (p : reac_pacer) (s : reac_disco_sighting) : reac_disco_sighting :=
  let fill := negb (s_has_decl s) && (0 <? pc_declared_in p + pc_declared_out p) in
  Sighting (s_mac s) (s_role s) (fill || s_has_decl s)
    (if fill then u8 (pc_declared_in p) else s_decl_in s)
    (if fill then u8 (pc_declared_out p) else s_decl_out s)
    (family_byte (reac_box_family_of (Some (pc_rx_identity p)))) (s_announced_slots s) (s_channels s).

Definition fold_sighting (p : reac_pacer) (e : reac_pacer_event) : reac_pacer :=
  let owned := sighting_owned p e in
  let s := sighting_of_event e in
  let s := if owned then owned_sighting p s else s in
  set_pc_disco (reac_disco_table_observe (pc_disco p) s owned (pev_mono_ns e)).1 p.

(** One turn of the loop of [reac_pacer_log_drain]; printing is left out. *)
Definition log_drain_one (p : reac_pacer) : reac_pacer * bool :=
  match ix_pop (pc_ev p) with
  | (r, Some e) =>
      let p := set_pc_ev r p in
      (match pev_kind e with REAC_PEV_SIGHTING => fold_sighting p e | _ => p end, true)
  | (_, None) => (p, false)
  end.

Fixpoint log_drain_loop (fuel : nat) (p : reac_pacer) (n : Z) : reac_pacer * Z :=
  match fuel with
  | O => (p, n)
  | S fuel => match log_drain_one p with
              | (p, true) => log_drain_loop fuel p (n + 1)
              | (p, false) => (p, n)
              end
  end.

(** The events drained, and the silent devices withdrawn. *)
Definition reac_pacer_log_drain (now : Z) (p : reac_pacer) : reac_pacer * Z :=
  let '(p, n) := log_drain_loop (Z.to_nat REAC_PACER_EVRING) p 0 in
  (set_pc_disco (reac_disco_table_age (pc_disco p) now).1 p, n).

(** ** Opening *)

Record reac_pacer_cfg := PacerCfg {
  cf_fps : Z; cf_src : list Z; cf_console : reac_console_cfg; cf_headamps : list command;
  cf_clock_follow : bool; cf_catchup_max_slots : Z; cf_rate_asserted : bool
}.

(** The head-amp table loaded with the operator's settings. *)
Definition open_headamp (settings : list command) : reac_headamp_tx :=
  foldl apply_command reac_headamp_tx_init settings.

Definition open_master (env : pacer_env) (cfg : reac_pacer_cfg) (t : reac_headamp_tx) : reac_master :=
  let console := if negb (out_channels (cf_console cfg) =? 0) then cf_console cfg
                 else REAC_CONSOLE_CFG_IDLE in
  reac_master_set_headamp_src t true
    (reac_master_init (pe_tn env) (cf_src cfg) (Some (with_pace console (cf_fps cfg))) (cf_fps cfg)).

Definition open_ring_slots (fps : Z) : Z :=
  let depth := u32 (Z.quot fps 4) in if depth <? 8 then 8 else depth.

(** The structure once every system call has succeeded, on the backend opened. *)
Definition pacer_opened (env : pacer_env) (cfg : reac_pacer_cfg) (ring : reac_frame_ring)
    (etf : bool) (lead_ns : Z) : reac_pacer :=
  let fps := cf_fps cfg in
  let period := reac_pacer_period_ns fps in
  let settings := open_headamp (cf_headamps cfg) in
  let pfps := if 0 <? fps then fps else 8000 in
  let t := reac_headamp_tx_set_resweep settings (u32 (pfps * REAC_HEADAMP_RESWEEP_SECONDS)) in
  {| pc_src := cf_src cfg; pc_fps := pfps; pc_master := open_master env cfg t;
     pc_ha := ha_path_init t; pc_ring := ring;
     pc_slotclk := SlotClock etf lead_ns (EtfGrid 0 0 0 0 0 0 0) 0 period
                     (resolve_catchup_slots (cf_catchup_max_slots cfg) fps) 0 0 0 0;
     pc_catchup_max_slots_cfg := cf_catchup_max_slots cfg;
     pc_clk := pacer_clock_open (cf_clock_follow cfg) period;
     pc_disco_gate := reac_disco_gate_init; pc_disco_peer_lock := reac_disco_peer_lock_init;
     pc_disco := reac_disco_table_init;
     pc_ev := ix_init REAC_PACER_EVRING (PacerEvent 0 REAC_PEV_STATE 0 0 (zeros 6) (zeros 32));
     pc_rx_identity := reac_identity_init; pc_rx_identity_frag := frag_zero;
     pc_declared_in := 0; pc_declared_out := 0; pc_fsm_state := REAC_M_IDLE;
     pc_recognized_box := None; pc_recognized_headamp_base := -1; pc_recognized_box_mac := 0;
     pc_grant_attempts := 0; pc_rx_box_frames := 0; pc_rx_box_ctrl := 0; pc_rx_joins := 0;
     pc_drops := zeros 8; pc_prev_state := REAC_M_IDLE; pc_presence_seen := false;
     pc_rx_since_change := zeros 4; pc_probing_slots := 0; pc_last_chanmap_ns := 0;
     pc_ring_trims := 0; pc_ring_trim_frames := 0; pc_ring_depth_peak := 0;
     pc_ring_depth_min := 2 ^ 32 - 1; pc_graph_quantum := 0; pc_tx_frames := 0; pc_tx_errors := 0;
     pc_rate_req_hz := 0; pc_rate_req_seq := 0; pc_rate_req_seen := 0; pc_reestab_cause := 0;
     pc_rate_hz := fps * REAC_SAMPLES_PER_PKT; pc_rate_asserted := cf_rate_asserted cfg;
     pc_rate_reestablishing := false; pc_sessions := [] |}.

(** [None] is the -1 return: an allocation, the socket or the asked-for backend
    failed. *)
Definition reac_pacer_open (env : pacer_env) (cfg : reac_pacer_cfg) (alloc_ok socket_ok : bool)
    (backend : backend_opened) : option reac_pacer :=
  match reac_frame_ring_init (open_ring_slots (cf_fps cfg)) REAC_PACER_SLOT_SZ alloc_ok with
  | None => None
  | Some ring =>
      if negb socket_ok then None
      else match backend with
           | OpenRefused _ => None
           | OpenThread _ => Some (pacer_opened env cfg ring false 0)
           | OpenEtf lead_ns => Some (pacer_opened env cfg ring true lead_ns)
           end
  end.

(** The first deadline, before the loop. *)
Definition pacer_loop_start (clk : Z) (p : reac_pacer) : reac_pacer :=
  let c := pc_slotclk p in
  set_pc_slotclk (slot_clock_start (sc_etf c) (sc_lead_ns c) (sc_period_ns c) (pc_fps p)
                    (sc_catchup_max_slots c) clk) p.
