(* ===== verification/MasterBox.v ===== *)
(** * MasterBox: what a master does to the facts of its box

    The lemmas a thread that publishes those facts needs: which steps of the
    master keep the box's address and allocation, and which let go of them. *)

From S2P Require Import Prelude Wire CtrlBlk CtrlFrames HeadampTx Grant MasterFsm Master MasterInv MasterLink MasterGrant.
Local Open Scope Z_scope.

(** ** The facts *)

Definition linked (s : reac_master_state) : bool :=
  match s with REAC_M_GRANTING | REAC_M_ESTABLISHED => true | _ => false end.

(** The facts other threads read: the address and the allocation. *)
Definition box_facts (m : reac_master) : list Z * reac_grant_alloc := (m_box_mac m, m_alloc m).

Definition kept (m m' : reac_master) : Prop := m_state m' = m_state m ∧ box_facts m' = box_facts m.

Lemma kept_dwell m : kept m (dwell_slot m).1.1.
Proof.
  unfold kept, box_facts, dwell_slot, granting_chanmap_due, announce_due, take_chanmap. by split_ifs.
Qed.

Lemma kept_cadence tn m : kept m (control_cadence tn m).1.1.
Proof.
  destruct (cadence_frame tn m) as (H1 & _ & _ & _ & H2 & _ & H3 & _). split; [done|].
  unfold box_facts. by rewrite H2, H3.
Qed.

Lemma kept_granting tn m : kept m (granting_slot tn m).1.1.
Proof.
  unfold kept, granting_slot, dwell_ends_now, burst_slot_out, granting_chanmap_due, take_chanmap.
  split_ifs; simpl; split_ifs; simpl; try done; try apply kept_dwell; by split_ifs.
Qed.

Lemma kept_prepare m : kept m (scene_prepare m).
Proof. unfold kept, scene_prepare. by destruct (reac_ctrl_build_scene_step _ _ _). Qed.

Lemma has_box_facts m m' : box_facts m' = box_facts m → reac_master_has_box m' = reac_master_has_box m.
Proof. unfold box_facts, reac_master_has_box. by intros [= _ ->]. Qed.

(** Falling back to PROBING forgets a held join. *)
Lemma probing_edge tx m e src blk :
  e_enter e = true → e_next e = REAC_M_PROBING →
  let m' := apply_edge tx m e src blk in
  m_state m' = REAC_M_PROBING ∧ m_join_held m' = false ∧
  (m_state m ≠ REAC_M_IDLE → box_facts m' = (zeros 6, GrantAlloc 0 0)).
Proof.
  intros He Hn. cbv zeta. unfold apply_edge. rewrite He, Hn. cbn [negb].
  set (m1 := if bool_decide _ then m else _).
  assert (Hs : m_state m1 = m_state m) by (subst m1; by destruct (bool_decide _)). clearbody m1.
  unfold enter_probing, state_eqb. rewrite Hs. case_bool_decide; split_and!; try done.
Qed.

Lemma established_edge tx m e src blk :
  e_enter e = true → e_next e = REAC_M_ESTABLISHED →
  let m' := apply_edge tx m e src blk in m_state m' = REAC_M_ESTABLISHED ∧ box_facts m' = box_facts m.
Proof.
  intros He Hn. cbv zeta. unfold apply_edge. rewrite He, Hn. cbn [negb].
  by destruct (bool_decide _).
Qed.

Lemma held_edge tx m e src blk : e_enter e = false → kept m (apply_edge tx m e src blk).
Proof. intros He. unfold apply_edge. rewrite He. unfold kept. by destruct (bool_decide _). Qed.

Lemma granting_edge tx m e src blk :
  e_enter e = true → e_next e = REAC_M_GRANTING → m_state (apply_edge tx m e src blk) = REAC_M_GRANTING.
Proof. intros He Hn. pose proof (edge_outcome tx m e src blk) as Ho. cbv zeta in Ho. rewrite He, Hn in Ho. apply Ho. Qed.

Lemma probing_steps dev :
  let e := reac_master_fsm_step REAC_M_PROBING dev in
  e_enter e = false ∨ (e_enter e = true ∧ e_next e = REAC_M_GRANTING).
Proof. destruct dev; cbn; auto. Qed.

Lemma kept_promote tx m :
  box_facts (promote_idle tx m) = box_facts m ∧ linked (m_state (promote_idle tx m)) = linked (m_state m).
Proof.
  split; [|rewrite promote_state; by destruct (m_state m)].
  unfold promote_idle, state_eqb. case_bool_decide as E; [|done]. rewrite E.
  unfold apply_edge, enter_probing, state_eqb. simpl. by rewrite E.
Qed.

(** Granting keeps the allocation it has. *)
Lemma granting_alloc tx m src blk out_ch :
  tx_ok tx → box_ok (m_alloc m) (m_grant_burst m) (m_grant_burst_len m) out_ch →
  m_alloc (enter_granting tx m src blk) = m_alloc m.
Proof.
  intros Htx Hb. unfold enter_granting. set (m1 := set_m_box_mac src _).
  set (m2 := match blk with Some b => set_m_join_blk b m1 | None => m1 end).
  assert (E : ∃ b, m2 = set_m_join_blk b m1)
    by (subst m2; destruct blk as [b|]; [by exists b|exists (m_join_blk m1); by destruct m]).
  destruct E as [b ->].
  destruct (rebuild_box tx (set_m_join_blk b m1) out_ch) as (rows & -> & _); [done|done|].
  by destruct (reac_master_has_box _).
Qed.

(** Any edge keeps the allocation, or forgets it. *)
Lemma edge_alloc tx m e src blk out_ch :
  tx_ok tx → box_ok (m_alloc m) (m_grant_burst m) (m_grant_burst_len m) out_ch →
  m_alloc (apply_edge tx m e src blk) = m_alloc m ∨ m_alloc (apply_edge tx m e src blk) = GrantAlloc 0 0.
Proof.
  intros Htx Hb. unfold apply_edge. set (m1 := if bool_decide _ then m else _).
  assert (H1 : box_ok (m_alloc m1) (m_grant_burst m1) (m_grant_burst_len m1) out_ch ∧ m_alloc m1 = m_alloc m)
    by (subst m1; by destruct (bool_decide _)).
  clearbody m1. destruct H1 as [H1 <-]. destruct (negb _); [by left|].
  destruct (e_next e); [by left| |left; by eapply granting_alloc|by left].
  unfold enter_probing. destruct (negb _); [by right|by left].
Qed.

(** The outcome of one step of a master, as its box sees it: the facts are kept
    with the link, or the link was lost and the box forgotten. *)
Definition box_step (m m' : reac_master) : Prop :=
  (linked (m_state m') = linked (m_state m) ∧ box_facts m' = box_facts m)
  ∨ (linked (m_state m) = true ∧ m_state m' = REAC_M_PROBING ∧ m_join_held m' = false ∧
     box_facts m' = (zeros 6, GrantAlloc 0 0)).

Lemma box_step_kept m m' : kept m m' → box_step m m'.
Proof. intros [Hs Hf]. left. by rewrite Hs. Qed.

(** A step before which the facts were only kept. *)
Lemma box_step_after m m1 m' : kept m m1 → box_step m1 m' → box_step m m'.
Proof. unfold box_step. intros [-> ->]. done. Qed.

(** ESTABLISHED is only entered with a box. *)
Definition enters_with_box (m m' : reac_master) : Prop :=
  m_state m' = REAC_M_ESTABLISHED → m_state m = REAC_M_ESTABLISHED ∨ reac_master_has_box m' = true.

Lemma lost_edge tx m dev src blk :
  linked (m_state m) = true → (reac_master_fsm_step (m_state m) dev).(e_enter) = true →
  (reac_master_fsm_step (m_state m) dev).(e_next) = REAC_M_PROBING →
  box_step m (apply_edge tx m (reac_master_fsm_step (m_state m) dev) src blk).
Proof.
  intros Hl He Hn. destruct (probing_edge tx m _ src blk He Hn) as (H1 & H2 & H3). right.
  split_and!; [done..|]. apply H3. by intros E; rewrite E in Hl.
Qed.

Lemma decide_step tn tx m :
  let m' := (slot_decide tn tx m).1.1 in box_step m m' ∧ enters_with_box m m'.
Proof.
  cbv zeta. unfold slot_decide, enters_with_box. destruct (m_state m) eqn:Es.
  1, 2: split; [apply box_step_kept, kept_cadence|]; destruct (kept_cadence tn m) as [-> _]; rewrite Es; done.
  - destruct (reac_master_has_box m) eqn:Eb; cbn [negb].
    + unfold granting_known. pose proof (kept_granting tn m) as K.
      destruct (granting_slot tn m) as [[m1 e] idx]. cbn [fst snd] in *.
      set (m2 := set_m_grant_ticks _ m1). assert (K2 : kept m m2) by exact K.
      destruct (grant_delivered m2) eqn:Ed; [|split; [by apply box_step_kept|destruct K2 as [-> _]; by rewrite Es]].
      assert (Hs2 : m_state m2 = REAC_M_GRANTING) by (destruct K2; congruence).
      destruct (established_edge tx m2 (reac_master_fsm_step (m_state m2) REAC_M_EV_GRANT_DELIVERED) (zeros 6) None)
        as [H1 H2]; [by rewrite Hs2..|]. split.
      * left. rewrite H1, H2, Es. by destruct K2 as [_ ->].
      * intros _. right. unfold grant_delivered in Ed. apply andb_true_iff in Ed as [Ed _].
        by rewrite (has_box_facts _ _ H2).
    + unfold granting_unknown.
      assert (K : kept m (if m_grant_ticks m =? 0 then (m, REAC_M_EMIT_ENROLL, 0) else dwell_slot m).1.1)
        by (destruct (_ =? 0); [done|apply kept_dwell]).
      destruct (if m_grant_ticks m =? 0 then _ else _) as [[m1 e] idx]. cbn [fst snd] in *.
      set (m2 := set_m_grant_ticks _ m1). assert (K2 : kept m m2) by exact K.
      assert (Hs2 : m_state m2 = REAC_M_GRANTING) by (destruct K2; congruence).
      destruct (_ <? _); [|split; [by apply box_step_kept|by rewrite Hs2]].
      split; [eapply box_step_after; [exact K2|]; apply lost_edge; by rewrite Hs2|].
      destruct (probing_edge tx m2 (reac_master_fsm_step (m_state m2) REAC_M_EV_BOX_UNKNOWN) (zeros 6) None)
        as [-> _]; by rewrite ?Hs2.
  - unfold established_slot. pose proof (kept_cadence tn m) as K.
    destruct (control_cadence tn m) as [[m1 e] idx]. cbn [fst snd] in *.
    set (m2 := set_m_link_check _ m1). assert (K2 : kept m m2) by exact K.
    assert (Hs2 : m_state m2 = REAC_M_ESTABLISHED) by (destruct K2; congruence).
    destruct (_ <=? _); (split; [|by left]); [|by apply box_step_kept].
    eapply box_step_after; [exact K2|]. apply lost_edge; by rewrite Hs2.
Qed.

(** A slot: where the link does not change, neither do the facts; a box that is
    there after it is the one that was allocated before. *)
Definition box_follows (m m' : reac_master) : Prop :=
  (linked (m_state m') = linked (m_state m) → box_facts m' = box_facts m) ∧
  (m_alloc m' = m_alloc m ∨ m_alloc m' = GrantAlloc 0 0) ∧ enters_with_box m m'.

Lemma box_step_follows m m' : box_step m m' → enters_with_box m m' → box_follows m m'.
Proof.
  intros [[H1 H2]|(H1 & H2 & _ & H3)] He; (split_and!; [| |done]).
  - done.
  - left. by injection H2.
  - rewrite H1, H2. done.
  - right. by injection H3.
Qed.

(** The release of a held join: only out of PROBING, and only into GRANTING. *)
Lemma release_step tx m out_ch :
  tx_ok tx → box_ok (m_alloc m) (m_grant_burst m) (m_grant_burst_len m) out_ch →
  m_state m = REAC_M_PROBING →
  let m' := release_held_join tx m in
  (kept m m' ∨ m_state m' = REAC_M_GRANTING) ∧ (m_alloc m' = m_alloc m ∨ m_alloc m' = GrantAlloc 0 0).
Proof.
  intros Htx Hb Hs. cbv zeta. unfold release_held_join. set (m1 := set_m_join_held false m).
  set (dev := reac_master_fsm_classify _ _ _ _). set (blk := if ev_is_join dev then _ else _).
  split; [|exact (edge_alloc tx m1 _ _ _ _ Htx Hb)].
  assert (K : kept m m1) by done. clearbody dev blk m1.
  assert (Hs1 : m_state m1 = REAC_M_PROBING) by (destruct K; congruence). rewrite Hs1.
  destruct (probing_steps dev) as [He|[He Hn]].
  - left. destruct (held_edge tx m1 _ (m_join_src m) blk He) as [E1 E2]. destruct K as [K1 K2].
    split; congruence.
  - right. by apply granting_edge.
Qed.

Lemma account_step tx m e src0 pace0 :
  tx_ok tx → minv src0 pace0 m →
  let m' := transfer_account tx m e in
  (kept m m' ∨ (m_state m = REAC_M_PROBING ∧ m_join_held m = true ∧ m_state m' = REAC_M_GRANTING))
  ∧ (m_alloc m' = m_alloc m ∨ m_alloc m' = GrantAlloc 0 0).
Proof.
  intros Htx H. cbv zeta. unfold transfer_account. destruct e; try (by split; left).
  destruct (m_scene_inflight m); [|by split; left]. simpl.
  destruct (m_join_held m) eqn:Ej; [|by split; left].
  destruct (iv_held _ _ _ H Ej) as (Hs & _).
  destruct (release_step tx (set_m_scene_complete (u32 (m_scene_complete m + 1)) (set_m_scene_inflight false m))
    (out_channels (m_cfg m)) Htx (iv_box _ _ _ H) Hs) as [H1 H2].
  split; [|done]. destruct H1 as [H1|H1]; [by left|by right].
Qed.

Lemma start_step tx m :
  let m' := slot_start tx m in
  box_facts m' = box_facts m ∧ m_state m' = match m_state m with REAC_M_IDLE => REAC_M_PROBING | s => s end.
Proof.
  cbv zeta. unfold slot_start. set (m0 := set_m_counter _ m).
  destruct (kept_promote tx m0) as [H _]. pose proof (promote_state tx m0) as Hs.
  set (m1 := promote_idle tx m0) in *. change (m_state m0) with (m_state m) in Hs.
  change (box_facts m0) with (box_facts m) in H. clearbody m1. by split_ifs.
Qed.

Lemma next_follows tn tx m src0 pace0 :
  tx_ok tx → minv src0 pace0 m → box_follows m (reac_master_next tn tx m).1.
Proof.
  intros Htx H. unfold reac_master_next. fold (slot_start tx m).
  destruct (minv_start src0 pace0 tx m Htx H) as [H1 _]. destruct (start_step tx m) as [F1 S1].
  pose proof (decide_step tn tx (slot_start tx m)) as [D De].
  destruct (decide_ok src0 pace0 tn tx _ Htx H1) as [H2 _].
  set (m1 := slot_start tx m) in *. clearbody m1.
  destruct (slot_decide tn tx m1) as [[m2 e] idx]. cbn [fst snd] in *.
  set (m3 := if emit_is_scene e then scene_prepare m2 else m2).
  assert (K3 : kept m2 m3 ∧ m_join_held m3 = m_join_held m2 ∧ minv src0 pace0 m3).
  { subst m3. destruct (emit_is_scene e); [|by split_and!]. split_and!;
      [apply kept_prepare| |by apply minv_prepare].
    unfold scene_prepare. by destruct (reac_ctrl_build_scene_step _ _ _). }
  clearbody m3. destruct K3 as ([K3 K3'] & J3 & H3).
  assert (L1 : linked (m_state m1) = linked (m_state m)) by (rewrite S1; by destruct (m_state m)).
  destruct (account_step tx m3 e src0 pace0 Htx H3) as [[[A1 A2]|(A1 & A2 & A3)] Aa].
  - apply box_step_follows.
    + destruct D as [[D1 D2]|(D1 & D2 & D3 & D4)].
      * left. split; [congruence|]. by rewrite A2, K3', D2.
      * right. split_and!; [congruence|congruence| |by rewrite A2, K3'].
        destruct (m_join_held (transfer_account tx m3 e)) eqn:Ej; [|done].
        pose proof (minv_account _ _ tx m3 e Htx H3) as H4.
        unfold transfer_account in Ej. destruct e; simpl in Ej; try congruence.
        destruct (m_scene_inflight m3); simpl in Ej; [|congruence].
        destruct (m_join_held m3) eqn:Ej3; simpl in Ej; congruence.
    + unfold enters_with_box in *. rewrite A1, K3. intros E. destruct (De E) as [E'|E'].
      * left. rewrite S1 in E'. by destruct (m_state m).
      * right. rewrite (has_box_facts m2); [done|]. by rewrite A2.
  - destruct D as [[D1 D2]|(D1 & D2 & D3 & D4)]; [|congruence].
    assert (L : linked (m_state m) = false) by (rewrite <- L1, <- D1, <- K3, A1; done).
    split_and!.
    + by rewrite A3, L.
    + destruct Aa as [-> | ->]; [left|by right]. injection K3' as _ ->. injection D2 as _ ->. by injection F1.
    + intros E. congruence.
Qed.

(** *** Reception *)

Lemma classify_step ev hb sb gd s :
  let e := reac_master_fsm_step s (reac_master_fsm_classify ev hb sb gd) in
  (e_transitioned e = false → e_enter e = false) ∧
  (e_enter e = true → e_next e = REAC_M_ESTABLISHED → gd = true).
Proof. by destruct s, ev, hb, sb, gd. Qed.

(** The master just before the table is consulted. *)
Definition rx_ready (tx : reac_headamp_tx) (m : reac_master) (ev : reac_master_rx_event) : reac_master :=
  let m := set_m_presence_tick REAC_M_PRESENCE_TIMEOUT (set_m_box_seen true m) in
  let m := promote_idle tx m in
  let m := match ev with REAC_M_RX_BOX_CONFIG => set_m_commit_seen true m | _ => m end in
  if state_eqb (m_state m) REAC_M_ESTABLISHED then set_m_link_check (m_link_check_reload m) m else m.

Lemma ready_step tx m ev src0 pace0 :
  tx_ok tx → minv src0 pace0 m →
  let m' := rx_ready tx m ev in
  minv src0 pace0 m' ∧ box_facts m' = box_facts m ∧
  m_state m' = match m_state m with REAC_M_IDLE => REAC_M_PROBING | s => s end.
Proof.
  intros Htx H. cbv zeta. unfold rx_ready. set (m0 := set_m_presence_tick _ _).
  assert (H0 : minv src0 pace0 m0) by (destruct H; by iv_frame).
  pose proof (minv_promote src0 pace0 tx m0 Htx H0) as H1.
  destruct (kept_promote tx m0) as [F1 _]. pose proof (promote_state tx m0) as S1.
  change (m_state m0) with (m_state m) in S1. change (box_facts m0) with (box_facts m) in F1.
  set (m1 := promote_idle tx m0) in *. clearbody m1.
  set (m2 := match ev with REAC_M_RX_BOX_CONFIG => _ | _ => _ end).
  assert (H2 : minv src0 pace0 m2 ∧ box_facts m2 = box_facts m1 ∧ m_state m2 = m_state m1)
    by (subst m2; destruct ev; split_and!; try done; destruct H1; by iv_frame).
  clearbody m2. destruct H2 as (H2 & F2 & S2).
  destruct (state_eqb (m_state m2) _); (split_and!; [|by rewrite <- F1, <- F2|by rewrite <- S1, <- S2]);
    [|done]. destruct H2; by iv_frame.
Qed.

Definition rx_outcome (m : reac_master) (r : reac_master * bool) : Prop :=
  (r.2 = false → m_state r.1 = m_state m ∨ (m_state m = REAC_M_IDLE ∧ m_state r.1 = REAC_M_PROBING)) ∧
  (m_alloc r.1 = m_alloc m ∨ m_alloc r.1 = GrantAlloc 0 0) ∧ enters_with_box m r.1.

Lemma rx_follows tx m ev src blk src0 pace0 :
  tx_ok tx → minv src0 pace0 m → rx_outcome m (reac_master_rx tx m ev src blk).
Proof.
  intros Htx H. unfold reac_master_rx. destruct (negb _); [split_and!; auto; by left|].
  fold (rx_ready tx m ev). destruct (ready_step tx m ev src0 pace0 Htx H) as (H1 & F1 & S1).
  set (m1 := rx_ready tx m ev) in *. clearbody m1.
  assert (Ha : m_alloc m1 = m_alloc m) by by injection F1.
  assert (Hq : m_state m1 = m_state m ∨ m_state m = REAC_M_IDLE ∧ m_state m1 = REAC_M_PROBING)
    by (rewrite S1; destruct (m_state m); auto).
  assert (He : m_state m1 = REAC_M_ESTABLISHED → m_state m = REAC_M_ESTABLISHED)
    by (rewrite S1; by destruct (m_state m)).
  destruct (classify_step ev (have_blk blk) (zeqb src (m_box_mac m1)) (grant_delivered m1) (m_state m1)) as [C1 C2].
  set (dev := reac_master_fsm_classify _ _ _ _) in *. set (e := reac_master_fsm_step _ _) in *.
  set (jblk := if ev_is_join dev then blk else None).
  destruct (_ && negb (scene_transfer_ready m1)).
  - assert (K : kept m1 (hold_join m1 ev src jblk)) by (unfold kept, hold_join; by destruct jblk).
    destruct K as [K1 K2]. unfold rx_outcome, enters_with_box. cbn [fst snd]. rewrite K1.
    split_and!; [done| |auto]. left. injection K2. congruence.
  - unfold rx_outcome, enters_with_box. cbn [fst snd]. split_and!.
    + intros Ht. destruct (held_edge tx m1 e src jblk (C1 Ht)) as [-> _]. done.
    + rewrite <- Ha. by eapply edge_alloc, iv_box.
    + intros Hs. destruct (e_enter e) eqn:En.
      * destruct (decide (e_next e = REAC_M_ESTABLISHED)) as [Hn|Hn].
        -- right. destruct (established_edge tx m1 e src jblk En Hn) as [_ F].
           rewrite (has_box_facts _ _ F). specialize (C2 eq_refl Hn). unfold grant_delivered in C2.
           by apply andb_true_iff in C2 as [? _].
        -- pose proof (edge_outcome tx m1 e src jblk) as Ho. cbv zeta in Ho. rewrite En in Ho.
           left. apply He. destruct (e_next e); [destruct Ho|..|done]; try congruence. destruct Ho; congruence.
      * left. apply He. destruct (held_edge tx m1 e src jblk En). congruence.
Qed.
