(* ===== verification/PacerInv.v ===== *)
(** * PacerInv: what other threads read of a pacer is what its master holds

    The lemmas behind the theorems of [PacerProps]: which parts of the state each
    operation of [Pacer] leaves alone, and that every one of them keeps the
    published facts equal to the box its master holds. *)

From S2P Require Import Prelude Wire CtrlBlk CtrlFrames Identity BoxModel BoxFacts Disco HeadampTx Grant MasterFsm Master MasterInv MasterGrant MasterBox Link Ring FrameRing IxRing Clock Pace PacerClock PacerState Pacer.
Local Open Scope Z_scope.

(** ** The invariant *)

(** What the theorems read of a pacer; everything else is telemetry. *)
Definition core (p : reac_pacer) :=
  (pc_src p, pc_headamp p, pc_master p, pc_fps p, (pc_prev_state p, pc_fsm_state p),
   (pc_recognized_box p, pc_recognized_headamp_base p, pc_recognized_box_mac p),
   (pc_declared_in p, pc_declared_out p),
   (pc_rate_req_hz p, pc_rate_req_seq p, pc_rate_req_seen p, pc_rate_hz p)).

(** The logged state is the master's, but for the two moves nothing announces:
    the promotion out of IDLE and the new grant of a declaration. *)
Definition lags (prev s : reac_master_state) : Prop :=
  prev = s ∨ (prev = REAC_M_IDLE ∧ s = REAC_M_PROBING)
  ∨ (prev = REAC_M_ESTABLISHED ∧ s = REAC_M_GRANTING).

(** The facts of the box other threads read, and what a box that is gone leaves. *)
Definition mirrors (p : reac_pacer) : Prop :=
  pc_recognized_box_mac p = reac_mac48_pack (Some (m_box_mac (pc_master p))) ∧
  if reac_master_has_box (pc_master p)
  then pc_recognized_headamp_base p = ga_base (m_alloc (pc_master p))
  else pc_recognized_headamp_base p = -1 ∧ pc_recognized_box p = None ∧
       pc_declared_in p = 0 ∧ pc_declared_out p = 0.

Section Inv.
Context (src : list Z) (Hsrc : zlen src = 6).

Record pbase (p : reac_pacer) : Prop := {
  pb_src : pc_src p = src;
  pb_tx : tx_ok (pc_headamp p);
  pb_fps : 500 ≤ pc_fps p;
  pb_master : ∃ pace, minv src pace (pc_master p);
  pb_decl : reac_master_has_box (pc_master p) = true → pc_declared_in p = ga_width (m_alloc (pc_master p));
  pb_req : pc_rate_req_seq p = pc_rate_req_seen p ∨ 6000 ≤ pc_rate_req_hz p;
  pb_rate : 6000 ≤ pc_rate_hz p;
  pb_seq : 0 ≤ pc_rate_req_seq p < 2 ^ 32
}.

Record pinv (p : reac_pacer) : Prop := {
  pi_base : pbase p;
  pi_lags : lags (pc_prev_state p) (m_state (pc_master p));
  pi_fsm : pc_fsm_state p = pc_prev_state p;
  pi_mirror : mirrors p
}.

Lemma pbase_core p p' : core p' = core p → pbase p → pbase p'.
Proof.
  unfold core. intros [= E1 E2 E3 E4 E5 E6 E7 E8 E9 E10 E11 E12 E13 E14 E15] [].
  split; rewrite ?E1, ?E2, ?E3, ?E4, ?E10, ?E12, ?E13, ?E14, ?E15; done.
Qed.

Lemma pinv_core p p' : core p' = core p → pinv p → pinv p'.
Proof.
  intros E [B L F M]. pose proof (pbase_core _ _ E B) as B'. revert E. unfold core.
  intros [= E1 E2 E3 E4 E5 E6 E7 E8 E9 E10 E11 E12 E13 E14 E15].
  split; [done|by rewrite E3, E5|by rewrite E5, E6|].
  unfold mirrors. by rewrite E3, E7, E8, E9, E10, E11.
Qed.

(** Only the completeness of the identity page. *)
Lemma pinv_answered p b : pinv p → pinv (set_pc_master (reac_master_identity_answered b (pc_master p)) p).
Proof.
  intros [[] L F M]. split; [|done..]. split; try done. simpl. destruct pb_master0 as [pace []]. exists pace. iv_frame.
Qed.

(** *** The elementary operations *)

Lemma core_push now kind a b s blk p : core (pev_push now kind a b s blk p) = core p.
Proof. done. Qed.

Lemma core_session env s p : core (call_session env s p) = core p.
Proof. unfold call_session. by destruct (pe_on_session env). Qed.

Lemma core_log now from to cause p : core (log_transition now from to cause p) = core p.
Proof. unfold log_transition. by split_ifs. Qed.

Lemma core_session_edge env from to p : core (session_edge env from to p) = core p.
Proof. unfold session_edge. split_ifs; by rewrite ?core_session. Qed.

(** An allocation is two bytes. *)
Lemma alloc_bytes m pace : minv src pace m → is_byte (ga_base (m_alloc m)) ∧ is_byte (ga_width (m_alloc m))
  ∨ ga_width (m_alloc m) = 0.
Proof.
  intros H. destruct (iv_box _ _ _ H) as [[? _]|(Hf & _)]; [by right|left].
  apply alloc_fits_iff in Hf. unfold is_byte. lia.
Qed.

Lemma tx_ok_arm m pace tx :
  minv src pace m → tx_ok tx →
  tx_ok (reac_headamp_tx_arm_scene tx (ga_base (m_alloc m)) (ga_width (m_alloc m))).
Proof.
  intros H [I HI]. destruct (alloc_bytes m pace H) as [[Hb Hw]|Hw].
  - exists I. by apply tx_refines_arm.
  - exists I. unfold reac_headamp_tx_arm_scene. by rewrite Hw.
Qed.

(** What a transition does to the core: the logged and the published state, and
    the head-amp scene armed on the entry into ESTABLISHED. *)
Definition armed (env : pacer_env) (from to : reac_master_state) (p : reac_pacer) : reac_headamp_tx :=
  pc_headamp (arm_on_establish env from to p).

Lemma core_note env now from to cause p :
  core (note_transition env now from to cause p) =
  core (set_pc_headamp (armed env from to p) (set_pc_fsm_state to (set_pc_prev_state to p))).
Proof.
  unfold note_transition. rewrite core_log. unfold armed, arm_on_establish.
  set (p1 := session_edge env from to (set_pc_prev_state to p)).
  assert (E : core p1 = core (set_pc_prev_state to p)) by apply core_session_edge. clearbody p1.
  revert E. unfold core. cbv zeta. intros [= E1 E2 E3 E4 E5 E6 E7 E8 E9 E10 E11 E12 E13 E14 E15].
  split_ifs; simpl in *; by rewrite ?E1, ?E2, ?E3, ?E4, ?E5, ?E6, ?E7, ?E8, ?E9, ?E10, ?E11, ?E12, ?E13, ?E14, ?E15.
Qed.

Lemma note_base env now from to cause p :
  pbase p →
  let p' := note_transition env now from to cause p in
  pbase p' ∧ pc_master p' = pc_master p ∧ pc_prev_state p' = to ∧ pc_fsm_state p' = to ∧
  (mirrors p → mirrors p').
Proof.
  intros B. cbv zeta. pose proof (core_note env now from to cause p) as E.
  set (p' := note_transition _ _ _ _ _ _) in *. clearbody p'.
  set (q := set_pc_headamp _ _) in *.
  assert (Bq : pbase q).
  { destruct B. split; try done. subst q. simpl. unfold armed, arm_on_establish.
    destruct pb_master0 as [pace Hm]. split_ifs; try done. simpl. by eapply tx_ok_arm. }
  split; [by eapply pbase_core|]. assert (Mq : mirrors p → mirrors q) by done.
  revert E. subst q. unfold core. simpl.
  intros [= E1 E2 E3 E4 E5 E6 E7 E8 E9 E10 E11 E12 E13 E14 E15]. split_and!; [done..|].
  unfold mirrors in *. simpl in Mq. by rewrite E3, E7, E8, E9, E10, E11.
Qed.

(** What forgetting does to the core. *)
Lemma core_forget p :
  core (forget_published p) =
  (pc_src p, pc_headamp p, reac_master_identity_answered false (pc_master p), pc_fps p,
   (pc_prev_state p, pc_fsm_state p), (None, -1, pc_recognized_box_mac p), (0, 0),
   (pc_rate_req_hz p, pc_rate_req_seq p, pc_rate_req_seen p, pc_rate_hz p)).
Proof. destruct p. unfold forget_published. cbn. by destruct (_ || _). Qed.

(** A pacer [p'] whose box is the published one of [p]. *)
Definition synced (p p' : reac_pacer) : Prop :=
  pbase p' ∧ m_state (pc_master p') = m_state (pc_master p) ∧ m_alloc (pc_master p') = m_alloc (pc_master p) ∧
  pc_prev_state p' = pc_prev_state p ∧ pc_fsm_state p' = pc_fsm_state p ∧ mirrors p'.

Lemma forget_base q :
  pbase q → reac_master_has_box (pc_master q) = false →
  pc_recognized_box_mac q = reac_mac48_pack (Some (m_box_mac (pc_master q))) →
  synced q (forget_published q).
Proof.
  intros [] Hb Hq. pose proof (core_forget q) as E. set (q2 := forget_published q) in *. clearbody q2.
  set (m' := reac_master_identity_answered false (pc_master q)) in *.
  destruct pb_master0 as [pace Hp].
  assert (Hm : minv src pace m' ∧ m_state m' = m_state (pc_master q) ∧
    m_alloc m' = m_alloc (pc_master q) ∧ m_box_mac m' = m_box_mac (pc_master q) ∧
    reac_master_has_box m' = false) by (split_and!; [destruct Hp; iv_frame|done..]).
  clearbody m'. destruct Hm as (Hm & Hs & Ha & Hbm & Eb').
  revert E. unfold core. intros [= E1 E2 E3 E4 E5 E6 E7 E8 E9 E10 E11 E12 E13 E14 E15].
  unfold synced. split_and!; [|by rewrite E3..|done|done|].
  - split; rewrite ?E1, ?E2, ?E3, ?E4, ?E12, ?E13, ?E14, ?E15; try done; [by exists pace|by rewrite Eb'].
  - unfold mirrors. by rewrite E3, Eb', E7, E8, E9, E10, E11, Hq, Hbm.
Qed.

Lemma synced_at p q p' :
  pc_master q = pc_master p → pc_prev_state q = pc_prev_state p → pc_fsm_state q = pc_fsm_state p →
  synced q p' → synced p p'.
Proof. unfold synced. by intros -> -> ->. Qed.

Lemma sync_base p : pbase p → synced p (sync_published_box p).
Proof.
  intros B. unfold sync_published_box.
  set (q := set_pc_recognized_box_mac _ p).
  assert (Q : pbase q) by (destruct B; by split). assert (Hm : pc_master q = pc_master p) by done.
  rewrite Hm. destruct (reac_master_has_box (pc_master p)) eqn:Eb; cbn [negb].
  - unfold synced. split_and!; [destruct Q; split; auto|done..|]. unfold mirrors. simpl. by rewrite Eb.
  - assert (Hq : pc_recognized_box_mac q = reac_mac48_pack (Some (m_box_mac (pc_master q)))) by done.
    apply (synced_at p q); [done..|]. rewrite <- Hm in Eb. clearbody q. by apply forget_base.
Qed.

(** *** Reception *)

Lemma core_discovery now frame len p : core (ingest_discovery now frame len p) = core p.
Proof.
  unfold ingest_discovery. destruct (reac_disco_classify_on_segment _ _ _ _) as [lock [s|]]; [|done].
  destruct (reac_disco_gate_should_push _ _ _) as [gate []]; done.
Qed.

Lemma pinv_store addr payload p : pinv p → pinv (store_identity addr payload p).
Proof.
  intros H. unfold store_identity. set (p1 := set_pc_rx_identity _ p).
  assert (H1 : pinv p1) by (by apply (pinv_core p)). clearbody p1. by apply pinv_answered.
Qed.

Lemma pinv_identity frame len p : pinv p → pinv (ingest_identity frame len p).
Proof.
  intros H. unfold ingest_identity. destruct (negb _); [done|].
  destruct (reac_ctrl_identity_reply frame len) as [[addr payload]|]; [by apply pinv_store|].
  destruct (reac_ctrl_identity_fragment _ _ _) as [frag [[addr payload]|]];
    [apply pinv_store|]; by apply (pinv_core p).
Qed.

Lemma core_counters parsed ev p : core (ingest_counters parsed ev p) = core p.
Proof. unfold ingest_counters. by destruct (bool_decide _), (rx_event_is_join ev). Qed.

Lemma core_log_rx now frame parsed ev p : core (log_rx now frame parsed ev p) = core p.
Proof. unfold log_rx. destruct ev; try done; by split_ifs. Qed.

(** The invariant without the mirror, which the next [sync_published_box] restores. *)
Definition unsynced (p : reac_pacer) : Prop :=
  pbase p ∧ lags (pc_prev_state p) (m_state (pc_master p)) ∧ pc_fsm_state p = pc_prev_state p.

Lemma unsynced_core p p' : core p' = core p → unsynced p → unsynced p'.
Proof.
  intros E (B & L & F). pose proof (pbase_core _ _ E B) as B'. revert E. unfold core.
  intros [= E1 E2 E3 E4 E5 E6 E7 E8 E9 E10 E11 E12 E13 E14 E15].
  split; [done|]. by rewrite E3, E5, E6.
Qed.

Lemma unsynced_pinv p : pinv p → unsynced p.
Proof. by intros []. Qed.

(** A new master and a new declaration, in agreement. *)
Lemma unsynced_declared p m i o pace :
  unsynced p → minv src pace m → lags (pc_prev_state p) (m_state m) →
  (reac_master_has_box m = true → i = ga_width (m_alloc m)) →
  unsynced (set_pc_declared_out o (set_pc_declared_in i (set_pc_master m p))).
Proof. intros ([] & L & F) Hm Hl Hi. unfold unsynced. split_and!; try done. split; try done. by exists pace. Qed.

Lemma unsynced_apply now block s ports p : unsynced p → unsynced (apply_declaration now block s ports p).
Proof.
  intros H. pose proof H as ([] & L & _). destruct pb_master0 as [pace Hm]. unfold apply_declaration.
  pose proof (minv_set_box src pace _ _ (bp_in_ch ports) (bp_out_ch ports) (bp_headamp_base ports) pb_tx0 Hm) as H1.
  pose proof (set_box_outcome (pc_headamp p) (pc_master p) (bp_in_ch ports) (bp_out_ch ports)
    (bp_headamp_base ports) pb_tx0) as Ho. cbv zeta in Ho.
  set (m1 := reac_master_set_box _ _ _ _ _) in *.
  assert (S1 : m_state m1 = m_state (pc_master p)) by (destruct (reac_grant_alloc_fits _ _); [apply Ho|by rewrite Ho]).
  change (pc_master (set_pc_master m1 p)) with m1.
  change (pc_ha (set_pc_master m1 p)) with (pc_ha p). clearbody m1.
  destruct (ga_width (m_alloc m1) =? bp_in_ch ports) eqn:Ew; cbn [negb].
  - set (p2 := if negb _ && _ then _ else _).
    assert (E : ∃ m2, p2 = set_pc_master m2 (set_pc_master m1 p) ∧ minv src pace m2 ∧
      lags (pc_prev_state p) (m_state m2) ∧ ga_width (m_alloc m2) = bp_in_ch ports).
    { subst p2. destruct (negb _ && _) eqn:Ec.
      - apply andb_true_iff in Ec as [_ Ec].
        assert (Hl : m_state m1 = REAC_M_GRANTING ∨ m_state m1 = REAC_M_ESTABLISHED)
          by (apply orb_true_iff in Ec as [Ec|Ec]; apply bool_decide_eq_true in Ec; auto).
        eexists. split_and!; [done| | |].
        + apply minv_enter_granting; [done|done|]. apply (held_false src pace); [done|]. intuition congruence.
        + unfold reac_master_regrant. destruct (granting_fresh (pc_headamp p) m1 (m_box_mac m1) None) as (-> & _).
          rewrite S1 in Hl. unfold lags in *. intuition congruence.
        + unfold reac_master_regrant. rewrite (granting_alloc _ _ _ _ _ pb_tx0 (iv_box _ _ _ H1)). lia.
      - exists m1. split_and!; [by destruct p|done|by rewrite S1|lia]. }
    clearbody p2. destruct E as (m2 & -> & H2 & L2 & W2).
    apply (unsynced_core (set_pc_declared_out (bp_out_ch ports) (set_pc_declared_in (bp_in_ch ports) (set_pc_master m2 p))));
      [done|]. by apply (unsynced_declared p m2 _ _ pace).
  - destruct (reac_grant_alloc_fits _ _); [destruct Ho as (Ha & _); rewrite Ha in Ew; simpl in Ew; lia|].
    subst m1. apply (unsynced_core p); [by destruct p|done].
Qed.

Lemma unsynced_declaration now frame len s p : unsynced p → unsynced (ingest_declaration now frame len s p).
Proof.
  intros H. unfold ingest_declaration. destruct (_ <? _); [done|]. destruct (reac_ports_parse _); [|done].
  set (p1 := match reac_box_catalogue_match frame len with Some _ => _ | None => _ end).
  assert (H1 : unsynced p1) by (subst p1; destruct (reac_box_catalogue_match _ _); [|done]; destruct H as ([] & L & F); by split).
  clearbody p1. destruct (_ || _); [by apply unsynced_apply|done].
Qed.

(** *** The frame given to the master *)

Lemma lags_moved prev s s' :
  lags prev s → s' = s ∨ (s = REAC_M_IDLE ∧ s' = REAC_M_PROBING) → lags prev s'.
Proof. unfold lags. intuition congruence. Qed.

(** A master whose box is the one it was, or gone. *)
Lemma pbase_master p m pace :
  pbase p → minv src pace m →
  m_alloc m = m_alloc (pc_master p) ∨ m_alloc m = GrantAlloc 0 0 → pbase (set_pc_master m p).
Proof.
  intros [] Hm Ha. split; try done; [by exists pace|]. simpl. unfold reac_master_has_box in *.
  destruct Ha as [-> | ->]; [done|]. simpl. lia.
Qed.

Lemma pinv_rx env now frame parsed ev p : unsynced p → pinv (ingest_master env now frame parsed ev p).
Proof.
  intros (B & L & F). pose proof B as []. destruct pb_master0 as [pace Hm]. unfold ingest_master.
  set (blk := if rx_event_is_join ev then _ else _).
  pose proof (minv_rx src pace _ _ ev (p_src parsed) blk pb_tx0 Hm) as H1.
  destruct (rx_follows _ _ ev (p_src parsed) blk src pace pb_tx0 Hm) as (R1 & R2 & _).
  destruct (reac_master_rx _ _ _ _ _) as [m changed]. cbn [fst snd] in *. set (p1 := set_pc_master m p).
  assert (B1 : pbase p1) by by apply (pbase_master p m pace).
  assert (P1 : m_state (pc_master p1) = m_state m ∧ pc_prev_state p1 = pc_prev_state p ∧
    pc_fsm_state p1 = pc_fsm_state p) by done.
  clearbody p1. destruct P1 as (S1 & V1 & F1).
  destruct (sync_base p1 B1) as (B2 & S2 & _ & V2 & F2 & M2).
  set (p2 := sync_published_box p1) in *. clearbody p2. rewrite S1 in S2. rewrite V1 in V2. rewrite F1 in F2.
  set (p3 := if m_box_seen (pc_master p2) && _ then _ else p2).
  assert (E3 : core p3 = core p2) by (subst p3; by destruct (_ && _)). clearbody p3.
  set (p4 := log_rx _ _ _ _ _).
  assert (E4 : core p4 = core p2) by (subst p4; rewrite core_log_rx; exact E3). clearbody p4.
  assert (Q : pbase p4 ∧ mirrors p4 ∧ m_state (pc_master p4) = m_state m ∧ pc_prev_state p4 = pc_prev_state p ∧
    pc_fsm_state p4 = pc_fsm_state p).
  { split; [by apply (pbase_core p2)|]. revert E4. unfold core.
    intros [= D1 D2 D3 D4 D5 D6 D7 D8 D9 D10 D11 D12 D13 D14 D15].
    split; [unfold mirrors; by rewrite D3, D7, D8, D9, D10, D11|]. by rewrite D3, D5, D6. }
  clear E4. destruct Q as (B4 & M4 & S4 & V4 & F4). destruct changed.
  - destruct (note_base env now (m_state (pc_master p)) (m_state (pc_master p4)) (rx_event_byte ev) p4 B4)
      as (B5 & E5 & V5 & F5 & M5).
    split; [done| | |by apply M5]; [left; by rewrite V5, E5|by rewrite V5, F5].
  - split; [done| | |done]; [|congruence]. rewrite S4, V4. by apply (lags_moved _ _ _ L), R1.
Qed.

Lemma pinv_ingest env now frame len p : pinv p → pinv (reac_pacer_rx_ingest env now frame len p).
Proof.
  intros H. unfold reac_pacer_rx_ingest. cbv zeta. set (p1 := ingest_discovery _ _ _ p).
  assert (H1 : pinv p1) by (apply (pinv_core p); [apply core_discovery|done]). clearbody p1.
  pose proof (pinv_identity frame (reac_frame_clean_len len) p1 H1) as H2.
  set (p2 := ingest_identity _ _ p1) in *. clearbody p2.
  destruct (reac_ctrl_classify_box_frame _ _ _) as [parsed [ev|]]; [|done].
  destruct (negb _); [done|]. unfold ingest_accepted. apply pinv_rx, unsynced_declaration.
  apply (unsynced_core p2); [apply core_counters|by apply unsynced_pinv].
Qed.

(** *** The head-amp table *)

Lemma tx_ok_set tx ch param value :
  is_byte ch → is_byte param → is_byte value → tx_ok tx → tx_ok (reac_headamp_tx_set tx ch param value).1.
Proof. intros ??? [I HI]. eexists. by apply tx_refines_set. Qed.

Lemma tx_ok_next tx : tx_ok tx → tx_ok (reac_headamp_tx_next tx).1.
Proof. intros [I HI]. exists I. by apply tx_refines_next. Qed.

Lemma tx_ok_resweep tx n : tx_ok tx → tx_ok (reac_headamp_tx_set_resweep tx n).
Proof. intros [I HI]. exists I. destruct HI as [? ? ? [? ?] ?] eqn:E. by apply (tx_refines_frame tx). Qed.

(** A command taken off the ring is three bytes, whatever the word. *)
Lemma tx_ok_drain_one p : tx_ok (hp_table p) → tx_ok (hp_table (headamp_drain_one p).1).
Proof.
  intros H. unfold headamp_drain_one. destruct (ix_pop _) as [r [w|]]; [|done]. unfold reac_headamp_unpack.
  apply tx_ok_set; [apply is_byte_u8..|done].
Qed.

Lemma tx_ok_drain p : tx_ok (hp_table p) → tx_ok (hp_table (reac_pacer_headamp_drain p).1).
Proof.
  intros H. unfold reac_pacer_headamp_drain.
  assert (Hl : ∀ fuel p n, tx_ok (hp_table p) → tx_ok (hp_table (headamp_drain_loop fuel p n).1)).
  { clear p H. induction fuel as [|fuel IH]; intros p n H; [done|]. simpl.
    pose proof (tx_ok_drain_one p H) as H1. destruct (headamp_drain_one p) as [p' []]; [by apply IH|done]. }
  specialize (Hl (Z.to_nat REAC_HEADAMP_CMD_RING) p 0 H). by destruct (headamp_drain_loop _ _ _).
Qed.

(** *** A rate change *)

Lemma set_src_facts tx m :
  ga_width (m_alloc m) = 0 →
  let m' := reac_master_set_headamp_src tx true m in
  box_facts m' = box_facts m ∧ m_state m' = m_state m ∧ m_counter m' = m_counter m ∧ m_cfg m' = m_cfg m.
Proof.
  intros Hw. cbv zeta. unfold reac_master_set_headamp_src, rebuild_grant_sweep, reac_grant_allocate.
  change (m_alloc (set_m_headamp_src true m)) with (m_alloc m). rewrite Hw. done.
Qed.

Lemma init_facts tn s cfg fps :
  let m := reac_master_init tn s cfg fps in
  box_facts m = (zeros 6, GrantAlloc 0 0) ∧ m_state m = REAC_M_IDLE ∧ m_counter m = 0 ∧
  m_cfg m = default REAC_CONSOLE_CFG_IDLE cfg.
Proof.
  cbv zeta. unfold reac_master_init, scene_prepare.
  by destruct (reac_ctrl_build_scene_step _ _ _).
Qed.

(** The master [restart_master] makes. *)
Lemma started_facts tn s cfg fps tx :
  500 ≤ fps → zlen s = 6 → tx_ok tx →
  let m := reac_master_set_headamp_src tx true (reac_master_init tn s cfg fps) in
  minv s (console_field (default REAC_CONSOLE_CFG_IDLE cfg)) m ∧ box_facts m = (zeros 6, GrantAlloc 0 0) ∧
  m_state m = REAC_M_IDLE ∧ m_counter m = 0 ∧ m_cfg m = default REAC_CONSOLE_CFG_IDLE cfg.
Proof.
  intros Hf Hs Htx. cbv zeta. destruct (init_facts tn s cfg fps) as (I1 & I2 & I3 & I4).
  pose proof (minv_init tn s cfg fps Hf Hs) as Hm. set (m := reac_master_init _ _ _ _) in *. clearbody m.
  assert (Hw : ga_width (m_alloc m) = 0) by (injection I1 as _ ->; done).
  destruct (set_src_facts tx m Hw) as (F1 & F2 & F3 & F4).
  split_and!; [by apply minv_set_src|congruence..].
Qed.

(** A pacer whose master has just been made. *)
Lemma pinv_restarted p :
  pbase p → m_state (pc_master p) = REAC_M_IDLE → box_facts (pc_master p) = (zeros 6, GrantAlloc 0 0) →
  core p = (pc_src p, pc_headamp p, pc_master p, pc_fps p, (REAC_M_IDLE, REAC_M_IDLE), (None, -1, 0), (0, 0),
            (pc_rate_req_hz p, pc_rate_req_seq p, pc_rate_req_seen p, pc_rate_hz p)) →
  pinv p.
Proof.
  intros B Hs Hf. unfold core. intros [= E5 E6 E7 E8 E9 E10 E11].
  split; [done|left; congruence|congruence|]. unfold mirrors, reac_master_has_box.
  injection Hf as Hmac Ha. rewrite Hmac, Ha, E7, E8, E9, E10, E11. by split_and!.
Qed.

(** The master a rate change makes, and what it leaves of the core. *)
Definition rerated_cfg (m : reac_master) (fps : Z) : option reac_console_cfg :=
  if negb (out_channels (m_cfg m) =? 0) then Some (with_pace (m_cfg m) fps) else None.
Definition rerated (env : pacer_env) (fps : Z) (p : reac_pacer) : reac_master :=
  reac_master_set_headamp_src (pc_headamp p) true
    (reac_master_init (pe_tn env) (pc_src p) (rerated_cfg (pc_master p) fps) fps).

Lemma core_apply_rate env now hz p :
  core (reac_pacer_apply_rate env now hz p) =
  (pc_src p, reac_headamp_tx_set_resweep (pc_headamp p) (u32 (Z.quot hz 12 * REAC_HEADAMP_RESWEEP_SECONDS)),
   rerated env (Z.quot hz 12) p, Z.quot hz 12, (REAC_M_IDLE, REAC_M_IDLE), (None, -1, 0), (0, 0),
   (pc_rate_req_hz p, pc_rate_req_seq p, pc_rate_req_seen p, hz)).
Proof.
  destruct p. unfold reac_pacer_apply_rate, restart_master, call_session.
  destruct (state_eqb _ _), (pe_on_session env); reflexivity.
Qed.

Lemma pinv_apply_rate env now hz p :
  pbase p → 6000 ≤ hz → (pc_rate_req_seq p = pc_rate_req_seen p ∨ 6000 ≤ pc_rate_req_hz p) →
  pinv (reac_pacer_apply_rate env now hz p).
Proof.
  intros [] Hz Hr. pose proof (core_apply_rate env now hz p) as E.
  assert (Hf : 500 ≤ Z.quot hz 12) by (apply Z.quot_le_lower_bound; lia).
  destruct (started_facts (pe_tn env) (pc_src p) (rerated_cfg (pc_master p) (Z.quot hz 12)) (Z.quot hz 12)
    (pc_headamp p) Hf ltac:(by rewrite pb_src0) pb_tx0) as (S1 & S2 & S3 & _).
  fold (rerated env (Z.quot hz 12) p) in S1, S2, S3.
  set (m := rerated _ _ _) in *. set (p' := reac_pacer_apply_rate _ _ _ _) in *. clearbody m p'.
  revert E. unfold core. intros [= E1 E2 E3 E4 E5 E6 E7 E8 E9 E10 E11 E12 E13 E14 E15].
  apply pinv_restarted; [|by rewrite E3..|unfold core; by rewrite E5, E6, E7, E8, E9, E10, E11].
  split; rewrite ?E1, ?E2, ?E3, ?E4, ?E10, ?E12, ?E13, ?E14, ?E15; try done.
  - by apply tx_ok_resweep.
  - rewrite pb_src0 in S1. by eexists.
  - unfold reac_master_has_box. by injection S2 as _ ->.
Qed.

Lemma pinv_rate_drain env now p : pinv p → pinv (reac_pacer_rate_drain env now p).1.
Proof.
  intros H. unfold reac_pacer_rate_drain. destruct (_ =? _) eqn:E; [done|].
  destruct H as [B _ _ _]. pose proof B as []. destruct pb_req0 as [Hq|Hq]; [lia|].
  apply pinv_apply_rate; [|done|by left]. split; try done. by right.
Qed.

(** *** The slot *)

Lemma core_guard env p : core (guard_ring env p) = core p.
Proof. unfold guard_ring. destruct (reac_frame_ring_trim _ _ _) as [ring n]. by destruct (n =? 0). Qed.

Lemma core_next_frame p : core (next_frame p).1 = core p.
Proof. unfold next_frame. by destruct (reac_frame_ring_pop _). Qed.

(** Between the master's step and the bookkeeping that follows it: nothing
    published has moved, and the master has made one slot. *)
Definition mid_slot (p p' : reac_pacer) : Prop :=
  pbase p' ∧ box_follows (pc_master p) (pc_master p') ∧
  (pc_prev_state p', pc_fsm_state p') = (pc_prev_state p, pc_fsm_state p) ∧
  (pc_recognized_box p', pc_recognized_headamp_base p', pc_recognized_box_mac p') =
    (pc_recognized_box p, pc_recognized_headamp_base p, pc_recognized_box_mac p) ∧
  (pc_declared_in p', pc_declared_out p') = (pc_declared_in p, pc_declared_out p).

Lemma mid_headamp p p' t :
  tx_ok t → mid_slot p p' → mid_slot p (set_pc_headamp t p').
Proof. intros Ht ([] & H). split; [by split|exact H]. Qed.

Lemma mid_ha p p' h :
  tx_ok (hp_table h) → mid_slot p p' → mid_slot p (set_pc_ha h p').
Proof. intros Ht ([] & H). split; [by split|exact H]. Qed.

Lemma mid_stamp env now frame p : pinv p → mid_slot p (stamp_slot env now frame p).1.1.
Proof.
  intros [B _ _ _]. pose proof B as []. destruct pb_master0 as [pace Hm]. unfold stamp_slot.
  pose proof (minv_next src pace (pe_tn env) _ _ pb_tx0 Hm) as Hn.
  pose proof (next_follows (pe_tn env) _ _ src pace pb_tx0 Hm) as Hb.
  destruct (reac_master_next _ _ _) as [m [[counter emit] idx]]. destruct Hn as (Hm' & _). cbn [fst snd] in *.
  set (p1 := set_pc_master m p).
  assert (M : mid_slot p p1).
  { split; [|by split_and!]. apply (pbase_master p m pace B Hm'), Hb. }
  clearbody p1. destruct emit; try exact M. destruct M as ([] & M). split; [by split|exact M].
Qed.

Lemma mid_overlay p p' frame emit : mid_slot p p' → mid_slot p (overlay_headamp frame emit p').1.
Proof.
  intros M. unfold overlay_headamp. destruct emit; try exact M. destruct (_ && _); [|exact M].
  pose proof (tx_ok_next (pc_headamp p') ltac:(apply M)) as Ht.
  destruct (reac_headamp_tx_next _) as [t [[[hch hparam] hval]|]]; by apply mid_headamp.
Qed.

(** After the bookkeeping the logged state is the master's. *)
Definition settled (p : reac_pacer) : Prop := pinv p ∧ pc_prev_state p = m_state (pc_master p).

Lemma settled_core p p' : core p' = core p → settled p → settled p'.
Proof.
  intros E [H1 H2]. split; [by eapply pinv_core|]. revert E. unfold core.
  intros [= E1 E2 E3 E4 E5 E6 E7 E8 E9 E10 E11 E12 E13 E14 E15]. by rewrite E3, E5.
Qed.

Lemma settled_timer env now p p' : pinv p → mid_slot p p' → settled (timer_edges env now p').
Proof.
  intros [_ L F M] (B & (H1 & _ & _) & V & R & D). unfold timer_edges.
  set (q := if negb (state_eqb _ _) then _ else p').
  assert (Q : settled q).
  { subst q. unfold state_eqb. case_bool_decide as Es; cbn [negb].
    - split; [|done]. injection V as V1 V2. injection R as R1 R2 R3. injection D as D1 D2.
      split; [done|by left|congruence|].
      assert (Hf : box_facts (pc_master p') = box_facts (pc_master p)).
      { apply H1. rewrite Es, V1. unfold lags in L. by destruct L as [-> |[[-> ->]|[-> ->]]]. }
      unfold mirrors in *. rewrite (has_box_facts _ _ Hf), R1, R2, R3, D1, D2.
      unfold box_facts in Hf. injection Hf as -> ->. exact M.
    - destruct (note_base env now (pc_prev_state p') (m_state (pc_master p')) REAC_PEV_CAUSE_TIMER p' B)
        as (B1 & E1 & V1 & F1 & _).
      set (p1 := note_transition _ _ _ _ _ p') in *. clearbody p1.
      destruct (sync_base p1 B1) as (B2 & S2 & _ & V2 & F2 & M2).
      assert (X : pc_prev_state (sync_published_box p1) = m_state (pc_master (sync_published_box p1)))
        by congruence.
      split; [|done]. split; [done|by left|congruence|done]. }
  clearbody q.
  set (q1 := if negb (m_box_seen _) && _ then _ else q).
  assert (Q1 : settled q1) by (subst q1; destruct (_ && _); [by apply (settled_core q)|done]).
  clearbody q1. split_ifs; by apply (settled_core q1).
Qed.

Lemma settled_emit env now p : pinv p → settled (slot_emit env now p).1.
Proof.
  intros H. unfold slot_emit. cbv zeta.
  assert (H0 : pinv (guard_ring env p)) by (apply (pinv_core p); [apply core_guard|done]).
  pose proof (core_next_frame (guard_ring env p)) as E1.
  destruct (next_frame (guard_ring env p)) as [p1 f1]. cbn [fst] in *.
  assert (H2 : pinv (reac_pacer_rate_drain env now p1).1)
    by (apply pinv_rate_drain, (pinv_core (guard_ring env p)); done).
  set (p2 := (reac_pacer_rate_drain env now p1).1) in *. clearbody p2.
  pose proof (mid_stamp env now f1 p2 H2) as H3. destruct (stamp_slot env now f1 p2) as [[p3 f3] emit].
  cbn [fst] in *. set (p4 := set_pc_ha _ p3).
  assert (H4 : mid_slot p2 p4) by (apply mid_ha; [apply tx_ok_drain, H3|done]). clearbody p4.
  pose proof (mid_overlay p2 p4 f3 emit H4) as H5. destruct (overlay_headamp f3 emit p4) as [p5 f5].
  cbn [fst] in *. by apply (settled_timer env now p2).
Qed.

(** *** The other threads, and opening *)

Lemma core_advance now clk p : core (slot_advance now clk p) = core p.
Proof. unfold slot_advance. by destruct (reac_pacer_clock_tick _ _) as [[k slot_ns] [[[a b] blk]|]]. Qed.

Lemma core_sent ok bad p : core (slot_sent ok bad p) = core p.
Proof. unfold slot_sent. by destruct ok, (bad =? 0). Qed.

Lemma core_log_drain now p : core (reac_pacer_log_drain now p).1 = core p.
Proof.
  unfold reac_pacer_log_drain.
  assert (H : ∀ fuel p n, core (log_drain_loop fuel p n).1 = core p).
  { clear p. induction fuel as [|fuel IH]; intros p n; [done|]. simpl.
    assert (H1 : core (log_drain_one p).1 = core p)
      by (unfold log_drain_one; destruct (ix_pop _) as [r [e|]]; [by destruct (pev_kind e)|done]).
    destruct (log_drain_one p) as [p' []]; [by rewrite IH|done]. }
  specialize (H (Z.to_nat REAC_PACER_EVRING) p 0). by destruct (log_drain_loop _ _ _).
Qed.

Lemma pinv_request hz cause p : 6000 ≤ hz → pinv p → pinv (request_pending hz cause p).
Proof.
  intros Hz [[] L F M]. split; [|done..]. split; try done; [by right|].
  change (0 ≤ u32 (pc_rate_req_seq p + 1) < 2 ^ 32). unfold u32. lia.
Qed.

Lemma tx_ok_open settings : Forall command_ok settings → tx_ok (open_headamp settings).
Proof.
  unfold open_headamp. intros H.
  assert (H0 : tx_ok reac_headamp_tx_init) by apply tx_ok_init. revert H0.
  generalize reac_headamp_tx_init. induction H as [|[[ch param] value] l Hc _ IH]; intros t Ht; [done|].
  simpl. apply IH. destruct Hc as (? & ? & ?). by apply tx_ok_set.
Qed.

Lemma pinv_opened env cfg ring etf lead :
  cf_src cfg = src → 500 ≤ cf_fps cfg → Forall command_ok (cf_headamps cfg) →
  settled (pacer_opened env cfg ring etf lead).
Proof.
  intros Hs Hf Hc. unfold pacer_opened. cbv zeta. replace (0 <? cf_fps cfg) with true by lia.
  set (t := reac_headamp_tx_set_resweep _ _).
  assert (Ht : tx_ok t) by by apply tx_ok_resweep, tx_ok_open. unfold open_master.
  set (console := if negb _ then _ else _).
  destruct (started_facts (pe_tn env) (cf_src cfg) (Some (with_pace console (cf_fps cfg))) (cf_fps cfg) t
    Hf ltac:(by rewrite Hs) Ht) as (S1 & S2 & S3 & _).
  set (m := reac_master_set_headamp_src _ _ _) in *. clearbody m t. split; [|done].
  apply pinv_restarted; [|done..].
  split; simpl; try done; try by left.
  - rewrite Hs in S1. by eexists.
  - unfold reac_master_has_box. by injection S2 as _ ->.
  - unfold REAC_SAMPLES_PER_PKT. lia.
Qed.
End Inv.
