(* ===== verification/PacerProps.v ===== *)
(** * PacerProps: the theorems on a running pacer

    Everything its two threads do to a pacer, in any order, and what then holds:
    the facts other threads read mirror the master, the frame of every slot is
    one the wire may carry, a live rate change starts the master anew, and the
    entry into ESTABLISHED opens a session and arms the head-amp scene. *)

From S2P Require Import Prelude Wire Codec CtrlBlk CtrlFrames Identity BoxModel BoxFacts Disco HeadampTx Grant MasterFsm Master MasterInv MasterGrant MasterBox Link Ring FrameRing IxRing Clock Pace PacerClock PacerState Pacer PacerInv.
Local Open Scope Z_scope.

(** ** Runs of a pacer *)

(** The pieces of a slot of the pacer thread, and the calls of the others. *)
Inductive pacer_op :=
| PIngest (now : Z) (frame : list Z)
| PEmit (now : Z)
| PSent (ok : bool) (bad : Z)
| PAdvance (now clk : Z)
| PSubmit (frame : list Z) (n : Z)
| PQuantum (samples : Z)
| PHeadampSet (ch param value : Z)
| PRequestRate (hz : Z)
| PReestablish (cause : Z)
| PClock (src : reac_clock_source) (present : bool) (ppm_milli : Z) (label : option (list Z))
    (q : reac_clock_quality) (now : Z)
| PLogDrain (now : Z).

Definition pacer_step (env : pacer_env) (p : reac_pacer) (op : pacer_op) : reac_pacer :=
  match op with
  | PIngest now frame => reac_pacer_rx_ingest env now frame (zlen frame) p
  | PEmit now => (slot_emit env now p).1
  | PSent ok bad => slot_sent ok bad p
  | PAdvance now clk => slot_advance now clk p
  | PSubmit frame n => set_pc_ring (reac_frame_ring_push (pc_ring p) frame n).1 p
  | PQuantum samples => set_pc_graph_quantum samples p
  | PHeadampSet ch param value => set_pc_ha (reac_pacer_headamp_set (pc_ha p) ch param value).1 p
  | PRequestRate hz => reac_pacer_request_rate hz p
  | PReestablish cause => reac_pacer_request_reestablish cause p
  | PClock src present ppm_milli label q now =>
      set_pc_clk (reac_pacer_clock_publish (pc_clk p) src present ppm_milli label q now) p
  | PLogDrain now => (reac_pacer_log_drain now p).1
  end.

(** A requested rate is one the caller has accepted: an audio rate. *)
Definition pacer_op_ok (op : pacer_op) : Prop :=
  match op with PRequestRate hz => 6000 ≤ hz | _ => True end.

Definition cfg_ok (cfg : reac_pacer_cfg) : Prop :=
  zlen (cf_src cfg) = 6 ∧ 500 ≤ cf_fps cfg ∧ Forall command_ok (cf_headamps cfg).

Inductive pacer_reach (env : pacer_env) (cfg : reac_pacer_cfg) : reac_pacer → Prop :=
| pacer_reach_open alloc_ok socket_ok backend clk p :
    reac_pacer_open env cfg alloc_ok socket_ok backend = Some p →
    pacer_reach env cfg (pacer_loop_start clk p)
| pacer_reach_step p op :
    pacer_reach env cfg p → pacer_op_ok op → pacer_reach env cfg (pacer_step env p op).

Lemma pacer_reach_inv env cfg p : cfg_ok cfg → pacer_reach env cfg p → pinv (cf_src cfg) p.
Proof.
  intros (Hs & Hf & Hc). induction 1 as [alloc_ok socket_ok backend clk p Ho|p op _ IH Hop].
  - unfold reac_pacer_open in Ho. destruct (reac_frame_ring_init _ _ _) as [ring|]; [|done].
    destruct socket_ok; [|done]. simpl in Ho.
    assert (Hp : pinv (cf_src cfg) p)
      by (destruct backend; simplify_eq; eapply pinv_opened; done).
    clear Ho. unfold pacer_loop_start. by apply (pinv_core _ p).
  - destruct op; simpl in *.
    + by apply pinv_ingest.
    + eapply settled_emit; done.
    + apply (pinv_core _ p); [apply core_sent|done].
    + apply (pinv_core _ p); [apply core_advance|done].
    + by apply (pinv_core _ p).
    + by apply (pinv_core _ p).
    + apply (pinv_core _ p); [|done]. unfold reac_pacer_headamp_set. by destruct (ix_push _ _).
    + by apply pinv_request.
    + apply pinv_request; [|done]. apply IH.
    + by apply (pinv_core _ p).
    + apply (pinv_core _ p); [apply core_log_drain|done].
Qed.

(** A turn of the loop is made of these steps. *)
Lemma pacer_reach_turn env cfg now clk rx ok bad p :
  pacer_reach env cfg p → pacer_reach env cfg (pacer_turn env now clk rx ok bad p).1.
Proof.
  intros H. unfold pacer_turn.
  assert (H1 : pacer_reach env cfg (drain_rx env now rx p)).
  { unfold drain_rx. revert p H. induction (take _ rx) as [|f l IH]; intros p H; [done|]. simpl.
    apply IH. by apply (pacer_reach_step env cfg p (PIngest now f)). }
  set (p1 := drain_rx env now rx p) in *. clearbody p1.
  pose proof (pacer_reach_step env cfg p1 (PEmit now) H1 I) as H2. simpl in H2.
  destruct (slot_emit env now p1) as [p2 frame]. cbn [fst] in *.
  apply (pacer_reach_step env cfg (slot_sent ok bad p2) (PAdvance now clk)); [|done].
  by apply (pacer_reach_step env cfg p2 (PSent ok bad)).
Qed.

(** A master at 48 kHz on the thread backend, as a daemon opens one. *)
Definition demo_env : pacer_env := PacerEnv REAC_MASTER_TUNABLES_DEFAULT false 0 true.
Definition demo_cfg : reac_pacer_cfg :=
  PacerCfg 4000 demo_src (ConsoleCfg 8 0) [(0, 0, 1); (3, 2, 12)] true 0 true.
Definition demo_ring : reac_frame_ring :=
  default (FrameRing [] [] 0 0 0 0 0 0 0) (reac_frame_ring_init (open_ring_slots 4000) REAC_PACER_SLOT_SZ true).
Definition demo_pacer : reac_pacer := pacer_loop_start 1000000 (pacer_opened demo_env demo_cfg demo_ring false 0).

Lemma demo_cfg_ok : cfg_ok demo_cfg.
Proof. unfold cfg_ok. split_and!; [done|simpl; lia|]. by repeat constructor. Qed.

Lemma demo_pacer_reach : pacer_reach demo_env demo_cfg demo_pacer.
Proof. by apply (pacer_reach_open _ _ true true (OpenThread None)). Qed.

(** ** What other threads read *)



(** ** The queue between the graph and the wire *)

(** Nothing but the graph, the guard and the slot touches the queue. *)
Section Queue.
Context (env : pacer_env) (now : Z).

Lemma ring_session s p : pc_ring (call_session env s p) = pc_ring p.
Proof using. unfold call_session. by destruct (pe_on_session env). Qed.

Lemma ring_note from to cause p : pc_ring (note_transition env now from to cause p) = pc_ring p.
Proof using.
  unfold note_transition, log_transition, arm_on_establish, session_edge. cbv zeta.
  split_ifs; simpl; by rewrite ?ring_session.
Qed.

Lemma ring_sync p : pc_ring (sync_published_box p) = pc_ring p.
Proof using.
  unfold sync_published_box, forget_published. destruct p. cbn. by split_ifs.
Qed.

Lemma ring_identity frame len p : pc_ring (ingest_identity frame len p) = pc_ring p.
Proof using.
  unfold ingest_identity, store_identity. destruct (negb _); [done|].
  destruct (reac_ctrl_identity_reply frame len) as [[addr payload]|]; [done|].
  by destruct (reac_ctrl_identity_fragment _ _ _) as [frag [[addr payload]|]].
Qed.

Lemma ring_declaration frame len s p : pc_ring (ingest_declaration now frame len s p) = pc_ring p.
Proof using.
  unfold ingest_declaration. destruct (_ <? _); [done|]. destruct (reac_ports_parse _); [|done].
  set (p1 := match reac_box_catalogue_match frame len with Some _ => _ | None => _ end).
  assert (E : pc_ring p1 = pc_ring p) by (subst p1; by destruct (reac_box_catalogue_match _ _)).
  rewrite <- E. clearbody p1. destruct (_ || _); [|done]. unfold apply_declaration. by split_ifs.
Qed.

Lemma ring_master frame parsed ev p : pc_ring (ingest_master env now frame parsed ev p) = pc_ring p.
Proof using.
  unfold ingest_master. destruct (reac_master_rx _ _ _ _ _) as [m changed].
  set (p1 := set_pc_master m p). assert (E1 : pc_ring (sync_published_box p1) = pc_ring p) by by rewrite ring_sync.
  set (p2 := sync_published_box p1) in *. clearbody p2.
  set (p3 := if m_box_seen (pc_master p2) && _ then _ else p2).
  assert (E3 : pc_ring p3 = pc_ring p) by (subst p3; by destruct (_ && _)). clearbody p3.
  set (p4 := log_rx _ _ _ _ _).
  assert (E4 : pc_ring p4 = pc_ring p) by (subst p4; unfold log_rx; destruct ev; try done; by split_ifs).
  clearbody p4. destruct changed; [by rewrite ring_note|done].
Qed.

Lemma ring_ingest frame len p : pc_ring (reac_pacer_rx_ingest env now frame len p) = pc_ring p.
Proof using.
  unfold reac_pacer_rx_ingest. cbv zeta. set (p1 := ingest_discovery _ _ _ p).
  assert (E1 : pc_ring p1 = pc_ring p).
  { subst p1. unfold ingest_discovery. destruct (reac_disco_classify_on_segment _ _ _ _) as [lock [s|]]; [|done].
    by destruct (reac_disco_gate_should_push _ _ _) as [gate []]. }
  rewrite <- E1. clear E1. clearbody p1. rewrite <- (ring_identity frame (reac_frame_clean_len len) p1).
  set (p2 := ingest_identity _ _ p1). clearbody p2.
  destruct (reac_ctrl_classify_box_frame _ _ _) as [parsed [ev|]]; [|done].
  destruct (negb _); [done|]. unfold ingest_accepted. rewrite ring_master, ring_declaration.
  unfold ingest_counters. by destruct (bool_decide _), (rx_event_is_join ev).
Qed.

Lemma ring_rate_drain p : pc_ring (reac_pacer_rate_drain env now p).1 = pc_ring p.
Proof using.
  unfold reac_pacer_rate_drain. destruct (_ =? _); [done|]. cbn [fst].
  unfold reac_pacer_apply_rate, restart_master, call_session. destruct p.
  by destruct (state_eqb _ _), (pe_on_session env).
Qed.

Lemma ring_emit p : pc_ring (slot_emit env now p).1 = pc_ring (next_frame (guard_ring env p)).1.
Proof using.
  unfold slot_emit. destruct (next_frame (guard_ring env p)) as [p1 f1]. cbn [fst].
  rewrite <- (ring_rate_drain p1). set (p2 := (reac_pacer_rate_drain env now p1).1). clearbody p2.
  assert (E3 : pc_ring (stamp_slot env now f1 p2).1.1 = pc_ring p2).
  { unfold stamp_slot. destruct (reac_master_next _ _ _) as [m [[cnt e] idx]]. by destruct e. }
  rewrite <- E3. clear E3. destruct (stamp_slot env now f1 p2) as [[p3 f3] e]. cbn [fst].
  set (p4 := set_pc_ha _ p3). assert (E4 : pc_ring (overlay_headamp f3 e p4).1 = pc_ring p3).
  { unfold overlay_headamp. destruct e; try done. destruct (_ && _); [|done].
    by destruct (reac_headamp_tx_next _) as [t [[[ch param] value]|]]. }
  rewrite <- E4. clear E4. destruct (overlay_headamp f3 e p4) as [p5 f5]. cbn [fst].
  unfold timer_edges. set (q := if negb (state_eqb _ _) then _ else p5).
  assert (Q : pc_ring q = pc_ring p5) by (subst q; destruct (negb _); [by rewrite ring_sync, ring_note|done]).
  rewrite <- Q. clearbody q. set (q1 := if negb (m_box_seen _) && _ then _ else q).
  assert (Q1 : pc_ring q1 = pc_ring q) by (subst q1; by destruct (_ && _)). rewrite <- Q1. clearbody q1.
  by split_ifs.
Qed.

Lemma ring_log_drain p : pc_ring (reac_pacer_log_drain now p).1 = pc_ring p.
Proof using.
  unfold reac_pacer_log_drain.
  assert (H : ∀ fuel p n, pc_ring (log_drain_loop fuel p n).1 = pc_ring p).
  { clear p. induction fuel as [|fuel IH]; intros p n; [done|]. simpl.
    assert (H1 : pc_ring (log_drain_one p).1 = pc_ring p)
      by (unfold log_drain_one; destruct (ix_pop _) as [r [e|]]; [by destruct (pev_kind e)|done]).
    destruct (log_drain_one p) as [p' []]; [by rewrite IH|done]. }
  specialize (H (Z.to_nat REAC_PACER_EVRING) p 0). by destruct (log_drain_loop _ _ _).
Qed.
End Queue.

(** A frame the graph encodes for this master, of any planes and counter. *)
Definition graph_frame (src frame : list Z) : Prop :=
  ∃ planar nch ns counter, frame = reac_downstream_build planar nch ns counter src.

(** The runs in which the graph submits whole frames of this master. *)
Definition fed_op (src : list Z) (op : pacer_op) : Prop :=
  match op with PSubmit frame n => n = REAC_FRAME_BYTES ∧ graph_frame src frame | _ => True end.

Inductive fed_reach (env : pacer_env) (cfg : reac_pacer_cfg) : reac_pacer → Prop :=
| fed_open alloc_ok socket_ok backend clk p :
    reac_pacer_open env cfg alloc_ok socket_ok backend = Some p →
    fed_reach env cfg (pacer_loop_start clk p)
| fed_step p op :
    fed_reach env cfg p → pacer_op_ok op → fed_op (cf_src cfg) op → fed_reach env cfg (pacer_step env p op).

Lemma fed_pacer_reach env cfg p : fed_reach env cfg p → pacer_reach env cfg p.
Proof. induction 1; [by eapply pacer_reach_open|by apply pacer_reach_step]. Qed.

(** The ring holds a queue of such frames. *)
Definition queue_fed (src : list Z) (r : reac_frame_ring) : Prop :=
  ∃ k q, 1 ≤ k ≤ 31 ∧ frame_refines k REAC_PACER_SLOT_SZ r q ∧ Forall (graph_frame src) (fq_frames q).

Lemma zlen_graph_frame src frame : graph_frame src frame → zlen frame = 1492.
Proof. intros (? & ? & ? & ? & ->). apply zlen_downstream_build. Qed.

Lemma fed_push src r frame :
  queue_fed src r → graph_frame src frame → queue_fed src (reac_frame_ring_push r frame REAC_FRAME_BYTES).1.
Proof.
  intros (k & q & Hk & HR & Hq) Hf. pose proof (zlen_graph_frame _ _ Hf) as Hl.
  pose proof (refines_push k REAC_PACER_SLOT_SZ Hk ltac:(done) r q frame REAC_FRAME_BYTES HR
    ltac:(done) ltac:(unfold REAC_FRAME_BYTES; lia)) as Hp.
  destruct (reac_frame_ring_push r frame REAC_FRAME_BYTES) as [r' ok].
  destruct (spec_push _ _ q frame REAC_FRAME_BYTES) as [q' ok'] eqn:Eq. destruct Hp as [_ HR'].
  exists k, q'. split_and!; [lia|lia|done|]. unfold spec_push in Eq. destruct (_ =? _); simplify_eq; [done|].
  simpl. apply Forall_app. split; [done|]. apply Forall_singleton.
  change (Z.min REAC_FRAME_BYTES REAC_PACER_SLOT_SZ) with 1492. by rewrite slice_full by lia.
Qed.

Lemma fed_guard src env p : queue_fed src (pc_ring p) → queue_fed src (pc_ring (guard_ring env p)).
Proof.
  intros (k & q & Hk & HR & Hq). unfold guard_ring.
  change (pc_ring (set_pc_ring_depth_min _ _)) with (pc_ring p).
  change (pc_graph_quantum (set_pc_ring_depth_min _ _)) with (pc_graph_quantum p).
  set (high := reac_pacer_guard_high _ _).
  assert (Hh : 0 ≤ high).
  { subst high. unfold reac_pacer_guard_high, reac_pacer_guard_floor, REAC_PACER_GUARD_FLOOR_MIN,
      REAC_PACER_GUARD_FLOOR_FRAMES. cbv zeta.
    split_ifs; try lia; unfold u32; apply Z.mod_pos_bound; lia. }
  pose proof (refines_guard k REAC_PACER_SLOT_SZ Hk (pc_ring p) q high (high / 2) HR Hh ltac:(apply Z.div_pos; lia)) as Hp.
  destruct (reac_frame_ring_trim _ _ _) as [r' n].
  destruct (spec_guard q high (high / 2)) as [q' n'] eqn:Eq. destruct Hp as [_ HR'].
  assert (E : queue_fed src r').
  { exists k, q'. split_and!; [lia|lia|done|]. unfold spec_guard in Eq. simplify_eq. simpl. by apply Forall_drop. }
  by destruct (n =? 0).
Qed.

Lemma fed_pop src r :
  queue_fed src r →
  let '(r', f) := reac_frame_ring_pop r in queue_fed src r' ∧ (f = [] ∨ graph_frame src f).
Proof.
  intros (k & q & Hk & HR & Hq). pose proof (refines_pop k REAC_PACER_SLOT_SZ Hk r q HR) as Hp.
  destruct (reac_frame_ring_pop r) as [r' f]. destruct (spec_pop q) as [q' f'] eqn:Eq. destruct Hp as [-> HR'].
  unfold spec_pop in Eq. destruct (fq_frames q) as [|f0 l] eqn:El; simplify_eq.
  - split; [|by left]. exists k, (FrameQueue [] (fq_over q) (u64 (fq_under q + 1))). by (split; [|split]).
  - apply Forall_cons in Hq as [Hf Hl]. split; [|by right].
    exists k, (FrameQueue l (fq_over q) (fq_under q)). by (split; [|split]).
Qed.

Lemma fed_queue env cfg p :
  0 ≤ cf_fps cfg < 2 ^ 32 → fed_reach env cfg p → queue_fed (cf_src cfg) (pc_ring p).
Proof.
  intros Hf. induction 1 as [alloc_ok socket_ok backend clk p Ho|p op Hr IH Hop Hfed].
  - unfold reac_pacer_open in Ho. destruct (reac_frame_ring_init _ _ _) as [ring|] eqn:Er; [|done].
    assert (Hs : 1 ≤ open_ring_slots (cf_fps cfg) ≤ 2 ^ 31).
    { unfold open_ring_slots, u32. rewrite Z.quot_div_nonneg by lia.
      rewrite Z.mod_small by (split; [apply Z.div_pos|apply Z.div_lt_upper_bound]; lia).
      assert (cf_fps cfg / 4 < 2 ^ 30) by (apply Z.div_lt_upper_bound; lia).
      destruct (_ <? 8) eqn:E8; lia. }
    destruct (frame_refines_init _ REAC_PACER_SLOT_SZ Hs ltac:(done)) as (k & r & Hk & _ & Ei & HR).
    assert (ring = r) as ->.
    { destruct alloc_ok; [congruence|]. unfold reac_frame_ring_init in Er. done. }
    assert (Hq : queue_fed (cf_src cfg) r)
      by (exists k, (FrameQueue [] 0 0); split_and!; [lia|lia|done|apply Forall_nil_2]).
    destruct socket_ok; [|done]. simpl in Ho. by destruct backend; simplify_eq.
  - destruct op; simpl in *.
    + by rewrite ring_ingest.
    + rewrite ring_emit. unfold next_frame. pose proof (fed_pop _ _ (fed_guard (cf_src cfg) env p IH)) as Hp.
      destruct (reac_frame_ring_pop _) as [r f]. apply Hp.
    + unfold slot_sent. by destruct ok, (bad =? 0).
    + unfold slot_advance. by destruct (reac_pacer_clock_tick _ _) as [[? ?] [[[? ?] ?]|]].
    + destruct Hfed as [-> Hg]. by apply fed_push.
    + done.
    + exact IH.
    + done.
    + done.
    + done.
    + by rewrite ring_log_drain.
Qed.

(** ** The frame of a slot *)

(** The frame the graph queued, or silence, and the pacer the master's step finds. *)
Definition slot_base (env : pacer_env) (p : reac_pacer) : list Z := (next_frame (guard_ring env p)).2.
Definition slot_ready (env : pacer_env) (now : Z) (p : reac_pacer) : reac_pacer :=
  (reac_pacer_rate_drain env now (next_frame (guard_ring env p)).1).1.

Lemma slot_emit_eq env now p :
  slot_emit env now p =
  let '(p2, stamped, emit) := stamp_slot env now (slot_base env p) (slot_ready env now p) in
  let p3 := set_pc_ha (reac_pacer_headamp_drain (pc_ha p2)).1 p2 in
  let '(p4, frame) := overlay_headamp stamped emit p3 in (timer_edges env now p4, frame).
Proof.
  unfold slot_emit, slot_base, slot_ready. cbv zeta. by destruct (next_frame (guard_ring env p)) as [p1 f1].
Qed.

Lemma ready_inv src env now p : zlen src = 6 → pinv src p → pinv src (slot_ready env now p).
Proof.
  intros Hs H. apply pinv_rate_drain; [done|]. apply (pinv_core src (guard_ring env p)); [apply core_next_frame|].
  by apply (pinv_core src p); [apply core_guard|].
Qed.

(** A frame of the wire's size broadcast by [src]. *)
Definition broadcast_of (src frame : list Z) : Prop :=
  zlen frame = REAC_FRAME_BYTES ∧ slice frame 0 6 = fill 6 0xFF ∧ slice frame 6 6 = src ∧
  slice frame 12 2 = [0x88; 0x19] ∧ slice frame 1490 2 = [0xC2; 0xEA].

Lemma slice_two f i a b : 0 ≤ i → i + 2 ≤ zlen f → f.[i] = a → f.[i + 1] = b → slice f i 2 = [a; b].
Proof.
  intros Hi Hl Ha Hb. apply buf_ext; [rewrite zlen_slice; change (zlen [a; b]) with 2; lia|].
  intros j Hj. rewrite zlen_slice in Hj. rewrite rd_slice by lia.
  assert (j = 0 ∨ j = 1) as [-> | ->] by lia; [by rewrite Z.add_0_r|done].
Qed.

Lemma silent_facts src :
  zlen src = 6 →
  broadcast_of src (build_silent_filler src) ∧ slice (build_silent_filler src) 16 2 = [0; 0] ∧
  slice (build_silent_filler src) 50 1440 = zeros 1440.
Proof.
  intros Hs. unfold broadcast_of, build_silent_filler, REAC_FRAME_BYTES.
  split_and!; try (apply slice_two; [lia|zl|by rds_frame|by rds_frame]).
  - zl.
  - apply buf_ext; [zl|]. intros i Hi. autorewrite with zlen in Hi. rewrite rd_slice by lia. by rds_frame.
  - apply buf_ext; [zl|]. intros i Hi. autorewrite with zlen in Hi. rewrite rd_slice by lia. rds_frame. f_equal. lia.
  - apply buf_ext; [zl|]. intros i Hi. autorewrite with zlen in Hi. rewrite rd_slice by lia. by rds_frame.
Qed.

Lemma build_facts planar nch ns counter src :
  zlen src = 6 →
  let f := reac_downstream_build planar nch ns counter src in
  broadcast_of src f ∧ slice f 16 2 = [0; 0].
Proof.
  intros Hs f. destruct (downstream_header planar nch ns counter src Hs) as (Hi & H0 & H6 & Hc).
  fold f in Hi, H0, H6, Hc. assert (Hl : zlen f = 1492) by apply zlen_downstream_build.
  unfold broadcast_of. change REAC_FRAME_BYTES with 1492 in *. unfold reac_frame_inspect in Hi.
  destruct (negb (1492 =? REAC_FRAME_BYTES)); [done|].
  destruct (negb (f.[12] =? 0x88) || negb (f.[13] =? 0x19)) eqn:E1; [done|].
  destruct (negb (f.[1492 - 2] =? REAC_END_MARKER_0) || negb (f.[1492 - 1] =? REAC_END_MARKER_1)) eqn:E2; [done|].
  unfold REAC_END_MARKER_0, REAC_END_MARKER_1 in E2. change (1492 - 2) with 1490 in E2. change (1492 - 1) with 1491 in E2.
  split_and!; try done; apply slice_two; try lia; try (apply Hc; lia); change (12 + 1) with 13; change (1490 + 1) with 1491; lia.
Qed.

(** What the ring hands the slot. *)
Definition slot_popped (env : pacer_env) (p : reac_pacer) : list Z :=
  (reac_frame_ring_pop (pc_ring (guard_ring env p))).2.

(** The slot starts from a graph frame of this master, or from silence. *)
Lemma base_facts env cfg p :
  cfg_ok cfg → cf_fps cfg < 2 ^ 32 → fed_reach env cfg p →
  let base := slot_base env p in
  broadcast_of (cf_src cfg) base ∧ slice base 16 2 = [0; 0] ∧
  (slot_popped env p = [] ∧ slice base 50 1440 = zeros 1440 ∨
   graph_frame (cf_src cfg) (slot_popped env p) ∧ base = slot_popped env p).
Proof.
  intros Hc Hf Hr. pose proof (pacer_reach_inv env cfg p Hc (fed_pacer_reach _ _ _ Hr)) as [[] _ _ _].
  destruct Hc as (Hs & Hf0 & _). cbv zeta.
  pose proof (fed_pop _ _ (fed_guard _ env _ (fed_queue env cfg p ltac:(lia) Hr))) as Hp.
  unfold slot_base, slot_popped, next_frame. destruct (reac_frame_ring_pop _) as [ring popped]. cbn [snd].
  assert (Hsrc : pc_src (guard_ring env p) = cf_src cfg).
  { pose proof (core_guard env p) as E. unfold core in E. injection E as -> _. done. }
  destruct Hp as [_ [-> | Hg]].
  - rewrite Hsrc. destruct (silent_facts (cf_src cfg) Hs) as (? & ? & ?). by split_and!; [..|left].
  - pose proof (zlen_graph_frame _ _ Hg) as Hl. change REAC_FRAME_BYTES with 1492. replace (zlen popped <? 1492) with false by lia.
    rewrite slice_full by lia. pose proof Hg as (planar & nch & ns & counter & ->).
    destruct (build_facts planar nch ns counter (cf_src cfg) Hs) as [? ?]. by split_and!; [..|right].
Qed.

(** The bookkeeping after the slot leaves the master's state and counter. *)
Lemma sync_master p :
  m_state (pc_master (sync_published_box p)) = m_state (pc_master p) ∧
  m_counter (pc_master (sync_published_box p)) = m_counter (pc_master p) ∧
  (reac_master_has_box (pc_master p) = true → pc_master (sync_published_box p) = pc_master p).
Proof.
  unfold sync_published_box. set (q := set_pc_recognized_box_mac _ p).
  assert (E : pc_master q = pc_master p) by done. rewrite E.
  destruct (reac_master_has_box (pc_master p)); cbn [negb]; [done|].
  pose proof (core_forget q) as F. clearbody q. set (q' := forget_published q) in *. clearbody q'.
  set (m' := reac_master_identity_answered false (pc_master q)) in *.
  assert (Hm : m_state m' = m_state (pc_master p) ∧ m_counter m' = m_counter (pc_master p)) by (subst m'; by rewrite E).
  clearbody m'. revert F. unfold core. intros [= E1 E2 E3 E4 E5 E6 E7 E8 E9 E10 E11 E12 E13 E14 E15].
  rewrite E3. by destruct Hm.
Qed.

Lemma note_master env now from to cause p : pc_master (note_transition env now from to cause p) = pc_master p.
Proof.
  pose proof (core_note env now from to cause p) as E.
  set (p' := note_transition _ _ _ _ _ _) in *. clearbody p'. revert E. unfold core. simpl. congruence.
Qed.

Lemma timer_master env now p :
  m_state (pc_master (timer_edges env now p)) = m_state (pc_master p) ∧
  m_counter (pc_master (timer_edges env now p)) = m_counter (pc_master p).
Proof.
  unfold timer_edges. set (q := if negb (state_eqb _ _) then _ else p).
  assert (Q : m_state (pc_master q) = m_state (pc_master p) ∧ m_counter (pc_master q) = m_counter (pc_master p)).
  { subst q. destruct (negb _); [|done].
    destruct (sync_master (note_transition env now (pc_prev_state p) (m_state (pc_master p)) REAC_PEV_CAUSE_TIMER p))
      as (-> & -> & _). by rewrite note_master. }
  clearbody q. destruct Q as [<- <-].
  set (q1 := if negb (m_box_seen _) && _ then _ else q).
  assert (E : pc_master q1 = pc_master q) by (subst q1; by destruct (_ && _)). clearbody q1. rewrite <- E.
  by split_ifs.
Qed.

(** What the overlay may make of a stamped frame. *)
Definition overlaid (p : reac_pacer) (stamped frame : list Z) : Prop :=
  m_state (pc_master p) = REAC_M_ESTABLISHED ∧
  ∃ ch param value, 0 ≤ ch < 48 ∧
    value = reac_headamp_tx_effective (Some (pc_headamp p)) ch param ∧
    reac_ctrl_stamp_headamp stamped ch param value = Some frame.

Lemma overlay_outcome frame emit p :
  tx_ok (pc_headamp p) →
  let '(p', frame') := overlay_headamp frame emit p in
  pc_master p' = pc_master p ∧ (frame' = frame ∨ (emit = REAC_M_EMIT_FILLER ∧ overlaid p frame frame')).
Proof.
  intros [I HI]. unfold overlay_headamp. destruct emit; try (split; [done|by left]).
  destruct (state_eqb _ _ && _) eqn:E; [|by split; [|left]].
  apply andb_true_iff in E as [Es _]. apply bool_decide_eq_true in Es.
  destruct (tx_refines_next _ _ HI) as [_ Hn].
  destruct (reac_headamp_tx_next _) as [t [[[ch param] value]|]]; simpl in *; (split; [done|]); [|by left].
  right. split; [done|]. destruct Hn as (Hc & Hp & Hv & Hok & Hv0).
  assert (Ha : headamp_args_ok param value = true).
  { revert Hok. unfold param_value_ok, headamp_args_ok. done. }
  split; [done|]. exists ch, param, value. split_and!; [lia|lia| |].
  - rewrite Hv. symmetry. by apply effective_scene.
  - unfold reac_ctrl_stamp_headamp. by rewrite Ha.
Qed.

(** A head-amp record over a frame: only the type word and control block, and it
    closes. *)
Lemma headamp_over frame ch param value frame' :
  50 ≤ zlen frame → reac_ctrl_stamp_headamp frame ch param value = Some frame' →
  zlen frame' = zlen frame ∧ (∀ i, 0 ≤ i → i < 16 ∨ 50 ≤ i → frame'.[i] = frame.[i]) ∧
  slice frame' 16 34 = groupa_row ch param value ∧ reac_ctrl_checksum_verify frame' = true.
Proof.
  intros Hl. unfold reac_ctrl_stamp_headamp. destruct (headamp_args_ok _ _); [|done]. cbn [negb].
  rewrite ctrl_stamp_headamp by done. unfold REAC_CTRL_BLOCK_OFF. intros [= <-].
  pose proof (headamp_block_facts ch param value) as (Hb & _ & Hs & _). unfold groupa_row.
  set (b := headamp_block ch param value) in *. clearbody b. split_and!.
  - zl.
  - intros i Hi Ho. rds. done.
  - apply buf_ext; [rewrite zlen_slice, zlen_app, zlen_blit, !zlen_wr; change (zlen [0xcd; 0xea]) with 2; lia|].
    intros i Hi. rewrite zlen_slice in Hi. rewrite rd_slice by lia.
    assert (i = 0 ∨ i = 1 ∨ 2 ≤ i) as [-> |[-> | Hi2]] by lia; [by rds..|].
    rewrite rd_blit_in by zl. rewrite rd_app_r by (change (zlen [0xcd; 0xea]) with 2; lia).
    f_equal. change (zlen [0xcd; 0xea]) with 2. lia.
  - apply checksum_verify_iff. rewrite <- Hb, slice_blit_in by zl. done.
Qed.

(** The frame the master's decision makes of any frame of the wire's size. *)
Lemma stamp_slot_valid src env now frame p :
  pinv src p → zlen frame = 1492 →
  let '(m, (c, emit, idx)) := reac_master_next (pe_tn env) (pc_headamp p) (pc_master p) in
  let '(p', frame', emit') := stamp_slot env now frame p in
  emit' = emit ∧ pc_master p' = m ∧ pc_ha p' = pc_ha p ∧ c = m_counter (pc_master p) ∧ m_counter m = u16 (c + 1) ∧
  zlen frame' = 1492 ∧ frame'.[14] = c mod 256 ∧ frame'.[15] = c / 256 ∧
  (∀ i, 0 ≤ i → i < 14 ∨ 50 ≤ i → frame'.[i] = frame.[i]) ∧ carries_slot m emit idx frame frame'.
Proof.
  intros [[] _ _ _] Hl. destruct pb_master as [pace Hm]. unfold stamp_slot.
  pose proof (minv_next src pace (pe_tn env) _ _ pb_tx Hm) as Hn.
  pose proof (next_scene src pace (pe_tn env) _ _ pb_tx Hm) as Hsc. pose proof (iv_counter _ _ _ Hm) as Hc.
  destruct (reac_master_next _ _ _) as [m [[cnt emit] idx]]. destruct Hn as (Hm' & Hi & -> & Hcnt).
  set (c := m_counter (pc_master p)) in *.
  set (f0 := wr (wr frame 14 _) 15 _).
  assert (Hf0 : zlen f0 = 1492) by (subst f0; by rewrite !zlen_wr).
  assert (H14 : f0.[14] = c mod 256) by (subst f0; rds; by rewrite land_ff).
  assert (H15 : f0.[15] = c / 256) by (subst f0; rds; rewrite land_ff, Z.shiftr_div_pow2 by lia; lia).
  assert (Ho : ∀ i, 0 ≤ i → i < 14 ∨ 16 ≤ i → f0.[i] = frame.[i]) by (intros; subst f0; rds; done).
  assert (H16 : slice f0 16 2 = slice frame 16 2)
    by (apply slice_ext; [congruence|lia|]; intros i Hi'; apply Ho; lia).
  clearbody f0. destruct (stamp_valid src pace m emit idx f0 Hm' Hi (proj1 Hsc) Hf0) as (f1 & -> & Hl1 & Hout & Hk).
  simpl. split_and!; [done|by destruct emit|by destruct emit|done|done|congruence| | | |].
  1-2: rewrite Hout by lia; done.
  - intros i H0 H1. rewrite Hout by lia. apply Ho; lia.
  - unfold carries_slot in *. by rewrite <- H16.
Qed.

(** What the slot's frame carries at its type word and control block: the block of
    the master's decision, or over a FILLER of an ESTABLISHED master a head-amp
    record with the value the table [t] holds. *)
Definition slot_control (t : reac_headamp_tx) (m : reac_master) (emit : reac_master_emit) (idx : Z) (frame : list Z)
    : Prop :=
  match emit with
  | REAC_M_EMIT_FILLER =>
      (slice frame 16 2 = [0; 0] ∧ ∀ j, 0 ≤ j < 16 → frame.[18 + 2 * j] = 0 ∧ frame.[19 + 2 * j] = m_filler_desc m) ∨
      (m_state m = REAC_M_ESTABLISHED ∧ reac_ctrl_checksum_verify frame = true ∧
       ∃ ch param, 0 ≤ ch < 48 ∧
         slice frame 16 34 = groupa_row ch param (reac_headamp_tx_effective (Some t) ch param))
  | _ => slot_block m emit idx = Some (slice frame 16 34) ∧ reac_ctrl_checksum_verify frame = true
  end.

Lemma carries_control t m emit idx frame frame' :
  carries_slot m emit idx frame frame' → slice frame 16 2 = [0; 0] → slot_control t m emit idx frame'.
Proof.
  unfold carries_slot, slot_control. case_decide as He; [subst emit; intros [-> Hd] ->; by left|].
  intros (Hb & _ & Hv) _. by destruct emit.
Qed.

Lemma broadcast_same src frame frame' :
  zlen frame' = zlen frame → (∀ i, 0 ≤ i → i < 14 ∨ 50 ≤ i → frame'.[i] = frame.[i]) →
  broadcast_of src frame → broadcast_of src frame'.
Proof.
  unfold broadcast_of. change REAC_FRAME_BYTES with 1492. intros Hl Ho (H0 & H1 & H2 & H3 & H4).
  assert (Hs : ∀ off n, 0 ≤ off → off + n ≤ 14 ∨ 50 ≤ off → slice frame' off n = slice frame off n)
    by (intros off n Hoff Hn; apply slice_ext; [done|lia|]; intros i Hi; apply Ho; lia).
  by rewrite Hl, !Hs by lia.
Qed.

(** C3. Every slot of every run hands the socket one frame the wire may carry, when
    the graph submits the frames [reac_downstream_build] encodes for this master. It
    is a whole frame, broadcast from the configured address, with the REAC type and
    end marker; its counter is the one the master held, which then moves on by one
    modulo 2^16 whether or not the graph had a frame ready; its audio is that of the
    oldest frame queued, or silence when there is none. Its type word and control
    block are exactly those of the master's decision (the announce, map window, scene
    step, sweep row, enrolment or poll of [slot_block]) with a valid checksum; a
    FILLER has type 0 and repeats the descriptor. A head-amp record is only ever laid
    over a FILLER of an ESTABLISHED master, and it carries the value the head-amp
    table holds once the pending commands are applied. *)
Theorem slot_frame_valid (env : pacer_env) (cfg : reac_pacer_cfg) (p : reac_pacer) (now : Z) :
  cfg_ok cfg → cf_fps cfg < 2 ^ 32 → fed_reach env cfg p →
  let popped := slot_popped env p in
  let r := slot_ready env now p in
  let '(m, (c, emit, idx)) := reac_master_next (pe_tn env) (pc_headamp r) (pc_master r) in
  let '(p', frame) := slot_emit env now p in
  broadcast_of (cf_src cfg) frame ∧
  c = m_counter (pc_master r) ∧ frame.[14] = c mod 256 ∧ frame.[15] = c / 256 ∧
  m_counter (pc_master p') = u16 (c + 1) ∧
  (popped = [] ∧ slice frame 50 1440 = zeros 1440 ∨
   graph_frame (cf_src cfg) popped ∧ slice frame 50 1440 = slice popped 50 1440) ∧
  slot_control (hp_table (reac_pacer_headamp_drain (pc_ha r)).1) m emit idx frame.
Proof.
  intros Hc Hf Hr. destruct (base_facts env cfg p Hc Hf Hr) as (B1 & B2 & B3).
  pose proof (pacer_reach_inv env cfg p Hc (fed_pacer_reach _ _ _ Hr)) as H. destruct Hc as (Hs & _).
  pose proof (ready_inv (cf_src cfg) env now p Hs H) as H1. cbv zeta in *. rewrite slot_emit_eq.
  set (base := slot_base env p) in *. set (r := slot_ready env now p) in *. clearbody base r.
  pose proof B1 as (Hlb & _). change REAC_FRAME_BYTES with 1492 in Hlb.
  pose proof (stamp_slot_valid (cf_src cfg) env now base r H1 Hlb) as Hst.
  pose proof (mid_stamp (cf_src cfg) env now base r H1) as Hmid.
  destruct (reac_master_next _ _ _) as [m [[c emit] idx]].
  destruct (stamp_slot _ _ _ _) as [[p2 f1] emit']. cbn [fst] in Hmid.
  destruct Hst as (-> & Hm2 & Hha & Hcc & Hcnt & Hl1 & H14 & H15 & Hout & Hk). rewrite <- Hha.
  pose proof (carries_control (hp_table (reac_pacer_headamp_drain (pc_ha p2)).1) m emit idx base f1 Hk B2) as Hctl.
  set (p3 := set_pc_ha _ p2). assert (Ht : tx_ok (pc_headamp p3)) by (apply tx_ok_drain, Hmid).
  pose proof (overlay_outcome f1 emit p3 Ht) as Ho. cbv zeta.
  destruct (overlay_headamp f1 emit p3) as [p4 f2].
  destruct Ho as [Hm4 Ho]. destruct (timer_master env now p4) as [_ T2].
  rewrite T2, Hm4. change (pc_master p3) with (pc_master p2). rewrite Hm2.
  assert (Hf2 : zlen f2 = 1492 ∧ (∀ i, 0 ≤ i → i < 16 ∨ 50 ≤ i → f2.[i] = f1.[i]) ∧
    slot_control (hp_table (reac_pacer_headamp_drain (pc_ha p2)).1) m emit idx f2).
  { destruct Ho as [-> |[-> Hov]]; [by split_and!|].
    destruct Hov as (Hest & ch & param & value & Hch & -> & Hw).
    destruct (headamp_over f1 ch param _ f2 ltac:(lia) Hw) as (Hl2 & Hout2 & Hrow & Hv).
    split_and!; [congruence|done|]. right. split_and!; [by rewrite <- Hm2|done|].
    exists ch, param. by split. }
  destruct Hf2 as (Hl2 & Hout2 & Hctl2).
  assert (Hout3 : ∀ i, 0 ≤ i → i < 14 ∨ 50 ≤ i → f2.[i] = base.[i])
    by (intros i Hi0 Hi; rewrite Hout2 by lia; by apply Hout).
  split_and!; [apply (broadcast_same _ base); [congruence|done|done]|done|rewrite Hout2 by lia; done
    |rewrite Hout2 by lia; done|done| |done].
  assert (Ha : slice f2 50 1440 = slice base 50 1440)
    by (apply slice_ext; [congruence|lia|]; intros i Hi; apply Hout3; lia).
  rewrite Ha. destruct B3 as [[-> ->]|[Hg ->]]; [by left|by right].
Qed.

Lemma demo_fed : fed_reach demo_env demo_cfg
  (pacer_step demo_env demo_pacer (PSubmit (reac_downstream_build [] 2 12 7 demo_src) 1492)).
Proof.
  apply fed_step; [by apply (fed_open _ _ true true (OpenThread None))|done|].
  split; [done|]. by exists [], 2, 12, 7.
Qed.

Lemma slot_frame_valid_witness :
  let p := pacer_step demo_env demo_pacer (PSubmit (reac_downstream_build [] 2 12 7 demo_src) 1492) in
  let '(p', frame) := slot_emit demo_env 1250000 p in broadcast_of demo_src frame.
Proof.
  intros p. pose proof (slot_frame_valid demo_env demo_cfg p 1250000 demo_cfg_ok ltac:(reflexivity) demo_fed) as H.
  cbv zeta in H. destruct (reac_master_next _ _ _) as [m [[c emit] idx]].
  destruct (slot_emit demo_env 1250000 p) as [p' frame]. exact (proj1 H).
Defined.
