(* ===== verification/PacerSession.v ===== *)
(** * PacerSession: the session a pacer opens and the master it makes anew

    Two effects of [Pacer] that reach beyond one frame. The entry into
    ESTABLISHED, whoever causes it, opens a session with the box and arms the
    complete head-amp scene for its slots; a live rate change is applied once,
    the last one asked for, and starts the master as opening does, keeping what
    the operator set. *)

From S2P Require Import Prelude Wire CtrlBlk CtrlFrames Identity BoxModel BoxFacts Disco HeadampTx Grant MasterFsm Master MasterInv MasterGrant MasterBox Link Ring FrameRing IxRing Clock Pace PacerClock PacerState Pacer PacerInv PacerProps.
Local Open Scope Z_scope.

(** ** Entering ESTABLISHED *)

(** The session is open and the scene armed: the last call named the box, and
    the head-amp table replays every channel of its allocation from the first. *)
Definition established_with_scene (p : reac_pacer) : Prop :=
  reac_master_has_box (pc_master p) = true ∧
  last (pc_sessions p) = Some (Some (m_box_mac (pc_master p), m_session_seq (pc_master p))) ∧
  t_replay_base (pc_headamp p) = ga_base (m_alloc (pc_master p)) ∧
  t_replay_width (pc_headamp p) = ga_width (m_alloc (pc_master p)) ∧
  t_replay_idx (pc_headamp p) = 0 ∧ t_replay_wait (pc_headamp p) = 0 ∧
  t_replay_set_only (pc_headamp p) = false.

Lemma log_sessions now from to cause p : pc_sessions (log_transition now from to cause p) = pc_sessions p.
Proof. unfold log_transition. by split_ifs. Qed.

Lemma note_established env now from cause p :
  pe_no_headamp env = false → pe_on_session env = true → from ≠ REAC_M_ESTABLISHED →
  let p' := note_transition env now from REAC_M_ESTABLISHED cause p in
  pc_sessions p' = pc_sessions p ++ [Some (m_box_mac (pc_master p), m_session_seq (pc_master p))] ∧
  pc_headamp p' = reac_headamp_tx_arm_scene (pc_headamp p) (ga_base (m_alloc (pc_master p)))
                    (ga_width (m_alloc (pc_master p))).
Proof.
  intros Hh Ho Hf. cbv zeta.
  pose proof (core_note env now from REAC_M_ESTABLISHED cause p) as E.
  split.
  - unfold note_transition. rewrite log_sessions. unfold session_edge, call_session, arm_on_establish.
    replace (state_eqb from REAC_M_ESTABLISHED) with false by (symmetry; by apply bool_decide_eq_false).
    rewrite Hh, Ho. destruct p. reflexivity.
  - unfold core in E. injection E as _ E _ _ _ _ _ _ _ _ _ _ _ _ _. rewrite E. simpl.
    unfold armed, arm_on_establish.
    replace (state_eqb from REAC_M_ESTABLISHED) with false by (symmetry; by apply bool_decide_eq_false).
    by rewrite Hh.
Qed.

(** The bookkeeping of the entry, for a master that has its box. *)
Lemma note_opens src env now from cause p :
  pe_no_headamp env = false → pe_on_session env = true → pbase src p →
  from ≠ REAC_M_ESTABLISHED → reac_master_has_box (pc_master p) = true →
  established_with_scene (note_transition env now from REAC_M_ESTABLISHED cause p).
Proof.
  intros Hh Ho [] Hf Hb. destruct (note_established env now from cause p Hh Ho Hf) as [Hs Ht].
  pose proof (note_master env now from REAC_M_ESTABLISHED cause p) as Hm.
  set (p' := note_transition _ _ _ _ _ _) in *. clearbody p'. destruct pb_master as [pace Hp].
  unfold established_with_scene. rewrite Hm, Hs, Ht, last_snoc. split; [done|]. split; [done|].
  destruct (iv_box _ _ _ Hp) as [[Hw _]|(Hfit & _)]; [unfold reac_master_has_box in Hb; lia|].
  apply alloc_fits_iff in Hfit. unfold reac_headamp_tx_arm_scene, REAC_HEADAMP_MAX_CH.
  replace (_ || _) with false by lia. replace (48 <? _) with false by lia. by split_and!.
Qed.

(** What the rest of a slot or of a reception leaves of it. *)
Lemma established_frame p p' :
  pc_master p' = pc_master p → pc_headamp p' = pc_headamp p → pc_sessions p' = pc_sessions p →
  established_with_scene p → established_with_scene p'.
Proof. unfold established_with_scene. by intros -> -> ->. Qed.

Lemma lags_est prev s : lags prev s → s = REAC_M_ESTABLISHED → prev = REAC_M_ESTABLISHED.
Proof. unfold lags. intuition congruence. Qed.

Lemma forget_headamp_sessions p :
  pc_headamp (sync_published_box p) = pc_headamp p ∧ pc_sessions (sync_published_box p) = pc_sessions p.
Proof.
  destruct p. unfold sync_published_box, forget_published. destruct (negb _); [|done].
  by destruct (id_has_fw _ || _ || _).
Qed.

Lemma timer_opens src env now p p' :
  pe_no_headamp env = false → pe_on_session env = true → zlen src = 6 →
  pinv src p → mid_slot src p p' → pc_fsm_state p ≠ REAC_M_ESTABLISHED →
  pc_fsm_state (timer_edges env now p') = REAC_M_ESTABLISHED → established_with_scene (timer_edges env now p').
Proof.
  intros Hh Ho Hs H M Hne He.
  destruct (settled_timer src env now p p' H M) as [[_ _ F _] S].
  destruct (timer_master env now p') as [T _].
  assert (Hst : m_state (pc_master p') = REAC_M_ESTABLISHED) by congruence.
  destruct H as [_ L Fp _]. destruct M as (B & (_ & _ & Hbox) & V & _). injection V as V1 _.
  assert (Hprev : pc_prev_state p' ≠ REAC_M_ESTABLISHED) by congruence.
  destruct (Hbox Hst) as [Hold|Hb]; [apply (lags_est _ _ L) in Hold; congruence|].
  unfold timer_edges. rewrite Hst.
  replace (state_eqb REAC_M_ESTABLISHED (pc_prev_state p')) with false
    by (symmetry; apply bool_decide_eq_false_2; congruence). cbn [negb].
  set (p1 := note_transition _ _ _ _ _ p').
  assert (E1 : established_with_scene p1) by (by apply (note_opens src)).
  assert (M1 : pc_master p1 = pc_master p') by apply note_master. clearbody p1.
  assert (E2 : established_with_scene (sync_published_box p1) ∧ m_state (pc_master (sync_published_box p1)) = REAC_M_ESTABLISHED).
  { destruct (sync_master p1) as (S1 & _ & S2). rewrite M1 in S2. specialize (S2 Hb).
    destruct (forget_headamp_sessions p1) as [S3 S4]. split; [|congruence].
    apply (established_frame p1); congruence. }
  set (p2 := sync_published_box p1) in *. clearbody p2. destruct E2 as [E2 Hst2].
  set (p3 := if negb (m_box_seen _) && _ then _ else p2).
  assert (E3 : established_with_scene p3 ∧ m_state (pc_master p3) = REAC_M_ESTABLISHED)
    by (subst p3; destruct (_ && _); done).
  clearbody p3. destruct E3 as [E3 Hst3]. rewrite Hst3. exact E3.
Qed.

(** What the slot has done before its bookkeeping keeps the log where it was. *)
Lemma ready_state env now p :
  pc_fsm_state p ≠ REAC_M_ESTABLISHED → pc_fsm_state (slot_ready env now p) ≠ REAC_M_ESTABLISHED.
Proof.
  intros H. unfold slot_ready.
  assert (E : pc_fsm_state (next_frame (guard_ring env p)).1 = pc_fsm_state p).
  { pose proof (core_next_frame (guard_ring env p)) as E. rewrite core_guard in E. unfold core in E. congruence. }
  set (p1 := (next_frame (guard_ring env p)).1) in *. clearbody p1. unfold reac_pacer_rate_drain.
  destruct (_ =? _); [simpl; congruence|]. cbn [fst].
  match goal with |- pc_fsm_state (reac_pacer_apply_rate env now ?hz ?q) ≠ _ =>
    pose proof (core_apply_rate env now hz q) as C; set (p2 := reac_pacer_apply_rate env now hz q) in * end.
  clearbody p2. revert C. unfold core at 1. clear E H. intros C.
  assert (E : pc_fsm_state p2 = REAC_M_IDLE) by congruence. by rewrite E.
Qed.

Lemma declaration_state now frame len s p :
  pc_fsm_state (ingest_declaration now frame len s p) = pc_fsm_state p.
Proof.
  unfold ingest_declaration. destruct (_ <? _); [done|]. destruct (reac_ports_parse _); [|done].
  set (p1 := match reac_box_catalogue_match frame len with Some _ => _ | None => _ end).
  assert (E : pc_fsm_state p1 = pc_fsm_state p) by (subst p1; by destruct (reac_box_catalogue_match _ _)).
  rewrite <- E. clearbody p1. destruct (_ || _); [|done]. unfold apply_declaration.
  destruct (negb (ga_width _ =? _)); [done|]. by destruct (negb _ && _).
Qed.

Lemma identity_state frame len p : pc_fsm_state (ingest_identity frame len p) = pc_fsm_state p.
Proof.
  unfold ingest_identity, store_identity. destruct (negb _); [done|].
  destruct (reac_ctrl_identity_reply _ _) as [[? ?]|]; [done|].
  by destruct (reac_ctrl_identity_fragment _ _ _) as [frag [[? ?]|]].
Qed.

Lemma core_state p p' : core p' = core p → pc_fsm_state p' = pc_fsm_state p.
Proof. unfold core. by intros [= _ _ _ _ _ -> _ _ _ _ _ _ _ _ _]. Qed.

Lemma rx_opens src env now frame parsed ev p :
  pe_no_headamp env = false → pe_on_session env = true →
  unsynced src p → pc_fsm_state p ≠ REAC_M_ESTABLISHED →
  pc_fsm_state (ingest_master env now frame parsed ev p) = REAC_M_ESTABLISHED →
  established_with_scene (ingest_master env now frame parsed ev p).
Proof.
  intros Hh Ho (B & L & F) Hne. pose proof B as []. destruct pb_master as [pace Hm]. unfold ingest_master.
  set (blk := if rx_event_is_join ev then _ else _).
  pose proof (minv_rx src pace _ _ ev (p_src parsed) blk pb_tx Hm) as H1.
  destruct (rx_follows _ _ ev (p_src parsed) blk src pace pb_tx Hm) as (_ & R2 & R3).
  destruct (reac_master_rx _ _ _ _ _) as [m changed]. cbn [fst snd] in *. set (p1 := set_pc_master m p).
  assert (B1 : pbase src p1) by by apply (pbase_master src p m pace).
  assert (P1 : pc_master p1 = m ∧ pc_fsm_state p1 = pc_fsm_state p) by done.
  clearbody p1. destruct P1 as (S1 & F1).
  destruct (sync_base src p1 B1) as (B2 & S2 & _ & _ & F2 & _). destruct (sync_master p1) as (_ & _ & S3).
  set (p2 := sync_published_box p1) in *. clearbody p2. rewrite S1 in S2, S3. rewrite F1 in F2.
  set (p3 := if m_box_seen (pc_master p2) && _ then _ else p2).
  assert (E3 : core p3 = core p2) by (subst p3; by destruct (_ && _)). clearbody p3.
  set (p4 := log_rx _ _ _ _ _).
  assert (E4 : core p4 = core p2) by (subst p4; rewrite core_log_rx; exact E3). clearbody p4.
  pose proof (pbase_core src _ _ E4 B2) as B4. pose proof (core_state _ _ E4) as F4.
  assert (M4 : pc_master p4 = pc_master p2) by (unfold core in E4; by injection E4).
  destruct changed; [|intros He; congruence]. intros He.
  destruct (note_base src env now (m_state (pc_master p)) (m_state (pc_master p4)) (rx_event_byte ev) p4 B4)
    as (_ & _ & _ & F5 & _).
  assert (Hs : m_state (pc_master p4) = REAC_M_ESTABLISHED) by congruence. rewrite Hs.
  assert (Hold : m_state (pc_master p) ≠ REAC_M_ESTABLISHED)
    by (intros E; apply (lags_est _ _ L) in E; congruence).
  assert (Hsm : m_state m = REAC_M_ESTABLISHED) by congruence.
  apply (note_opens src); [done|done|done|done|]. destruct (R3 Hsm) as [?|Hb]; [done|].
  by rewrite M4, S3.
Qed.

Lemma ingest_opens src env now frame len p :
  pe_no_headamp env = false → pe_on_session env = true →
  pinv src p → pc_fsm_state p ≠ REAC_M_ESTABLISHED →
  pc_fsm_state (reac_pacer_rx_ingest env now frame len p) = REAC_M_ESTABLISHED →
  established_with_scene (reac_pacer_rx_ingest env now frame len p).
Proof.
  intros Hh Ho H. unfold reac_pacer_rx_ingest. cbv zeta. set (p1 := ingest_discovery _ _ _ p).
  assert (E1 : core p1 = core p) by apply core_discovery.
  assert (H1 : pinv src p1) by by apply (pinv_core src p). rewrite <- (core_state _ _ E1). clearbody p1.
  pose proof (pinv_identity src frame (reac_frame_clean_len len) p1 H1) as H2.
  rewrite <- (identity_state frame (reac_frame_clean_len len) p1).
  set (p2 := ingest_identity _ _ p1) in *. clearbody p2. clear E1 H1 p1.
  destruct (reac_ctrl_classify_box_frame _ _ _) as [parsed [ev|]]; [|done].
  destruct (negb _); [done|]. unfold ingest_accepted. cbv zeta.
  rewrite <- (core_state _ _ (core_counters parsed ev p2)).
  rewrite <- (declaration_state now frame (reac_frame_clean_len len) (p_src parsed)).
  apply (rx_opens src); [done|done|].
  apply unsynced_declaration, (unsynced_core src p2); [apply core_counters|by apply unsynced_pinv].
Qed.

(** C2. The entry into ESTABLISHED, by a slot or by a received frame: whatever
    the run before it, the box that is enrolled has its session opened under the
    address and session number the master holds, and the complete head-amp scene
    of exactly the channels granted to it is armed from its first cell, neither
    skipping unset channels nor waiting. *)
Theorem establishment_opens_session (env : pacer_env) (cfg : reac_pacer_cfg) (p p' : reac_pacer)
    (op : pacer_op) :
  cfg_ok cfg → pacer_reach env cfg p → pe_no_headamp env = false → pe_on_session env = true →
  p' = pacer_step env p op → pc_fsm_state p ≠ REAC_M_ESTABLISHED →
  pc_fsm_state p' = REAC_M_ESTABLISHED → established_with_scene p'.
Proof.
  intros Hc Hr Hh Ho -> Hne. pose proof (pacer_reach_inv env cfg p Hc Hr) as H. destruct Hc as (Hs & _).
  destruct op; cbn [pacer_step].
  - by apply (ingest_opens (cf_src cfg)).
  - rewrite slot_emit_eq. cbv zeta. pose proof (ready_inv (cf_src cfg) env now p Hs H) as H1.
    pose proof (mid_stamp (cf_src cfg) env now (slot_base env p) _ H1) as M.
    pose proof (ready_state env now p Hne) as Hne1.
    destruct (stamp_slot _ _ _ _) as [[p2 f1] emit]. cbn [fst] in *. set (p3 := set_pc_ha _ p2).
    assert (M3 : mid_slot (cf_src cfg) (slot_ready env now p) p3) by (apply mid_ha; [apply tx_ok_drain, M|done]).
    clearbody p3. pose proof (mid_overlay (cf_src cfg) _ p3 f1 emit M3) as M4.
    destruct (overlay_headamp f1 emit p3) as [p4 f2]. cbn [fst] in *.
    by apply (timer_opens (cf_src cfg) env now (slot_ready env now p)).
  - rewrite (core_state _ _ (core_sent ok bad p)). congruence.
  - rewrite (core_state _ _ (core_advance now clk p)). congruence.
  - simpl. congruence.
  - simpl. congruence.
  - simpl. unfold reac_pacer_headamp_set. destruct (ix_push _ _). simpl. congruence.
  - simpl. congruence.
  - simpl. congruence.
  - simpl. congruence.
  - rewrite (core_state _ _ (core_log_drain now p)). congruence.
Qed.

(** An S-1608 enrols with a pacer at 500 frames per second: it knocks while the
    scene push runs, declares itself, and is granted. *)
Definition demo_box_mac : list Z := [0; 0x40; 0xab; 0xc4; 0x80; 0xf6].
Definition demo_enrol_cfg : reac_pacer_cfg := PacerCfg 500 demo_src (ConsoleCfg 8 0) [(33, 0, 1)] true 0 true.
Definition demo_enrol_start : reac_pacer :=
  pacer_loop_start 1000000
    (pacer_opened demo_env demo_enrol_cfg
       (default demo_ring (reac_frame_ring_init (open_ring_slots 500) REAC_PACER_SLOT_SZ true)) false 0).
Definition demo_emits (n : Z) : list pacer_op := (λ i, PEmit (2000000 * i)) <$> zseq 1 n.
Definition demo_frames : list Z * list Z :=
  (default [] (reac_ctrl_build_coldconnect demo_src demo_box_mac 7 16 [] 0),
   default [] (reac_ctrl_build_config_announce demo_src demo_box_mac 8 16)).
Definition demo_enrol_ops (n : Z) : list pacer_op :=
  demo_emits 10 ++ [PIngest 30000000 demo_frames.1] ++ demo_emits 337 ++ [PIngest 40000000 demo_frames.2]
  ++ demo_emits n.
Definition demo_enrol (n : Z) : reac_pacer := foldl (pacer_step demo_env) demo_enrol_start (demo_enrol_ops n).

Lemma demo_enrol_cfg_ok : cfg_ok demo_enrol_cfg.
Proof. unfold cfg_ok. split_and!; [done|simpl; lia|]. by repeat constructor. Qed.

Lemma demo_enrol_ops_ok n : Forall pacer_op_ok (demo_enrol_ops n).
Proof.
  assert (H : ∀ k, Forall pacer_op_ok (demo_emits k)) by (intros; apply Forall_fmap, Forall_true; done).
  unfold demo_enrol_ops. repeat (apply Forall_app; split); try apply H; by repeat constructor.
Qed.

Lemma pacer_reach_run env cfg ops p :
  pacer_reach env cfg p → Forall pacer_op_ok ops → pacer_reach env cfg (foldl (pacer_step env) p ops).
Proof. intros H Ho. revert p H. induction Ho as [|op l Hop _ IH]; intros p H; [done|].
  simpl. by apply IH, pacer_reach_step. Qed.

Lemma demo_enrol_reach n : pacer_reach demo_env demo_enrol_cfg (demo_enrol n).
Proof.
  apply pacer_reach_run; [|apply demo_enrol_ops_ok].
  by apply (pacer_reach_open _ _ true true (OpenThread None)).
Qed.

(** The published state on the last slot of the grant, and on the next. *)
Lemma demo_enrol_states :
  pc_fsm_state (demo_enrol 1472) = REAC_M_GRANTING ∧
  pc_fsm_state (pacer_step demo_env (demo_enrol 1472) (PEmit 3700000000)) = REAC_M_ESTABLISHED.
Proof. vm_compute. by split. Qed.

Lemma establishment_opens_session_witness :
  established_with_scene (pacer_step demo_env (demo_enrol 1472) (PEmit 3700000000)).
Proof.
  destruct demo_enrol_states as [H1 H2].
  apply (establishment_opens_session demo_env demo_enrol_cfg (demo_enrol 1472) _ (PEmit 3700000000)
           demo_enrol_cfg_ok (demo_enrol_reach 1472) eq_refl eq_refl eq_refl); [|exact H2].
  rewrite H1. discriminate.
Defined.

(** ** A live rate change *)

(** Everything a rate change decides, in a pacer whose requests were drained. *)
Lemma apply_rate_rest env now hz p :
  let p' := reac_pacer_apply_rate env now hz p in
  sc_period_ns (pc_slotclk p') = reac_pacer_period_ns (Z.quot hz 12) ∧
  pk_period_ns (pc_clk p') = reac_pacer_period_ns (Z.quot hz 12) ∧
  sc_grid (pc_slotclk p') = sc_grid (pc_slotclk p) ∧
  pc_rate_reestablishing p' = true ∧ pc_rate_asserted p' = true ∧
  pc_sessions p' = pc_sessions p ++
    (if state_eqb (m_state (pc_master p)) REAC_M_ESTABLISHED && pe_on_session env then [None] else []) ∧
  pc_drops p' = pc_drops p ∧ pc_rx_identity p' = pc_rx_identity p.
Proof.
  cbv zeta. destruct p. unfold reac_pacer_apply_rate, restart_master, call_session.
  destruct (state_eqb _ _), (pe_on_session env); cbn -[reac_pacer_period_ns];
    rewrite ?app_nil_r; by split_and!.
Qed.

(** Requests, the last one last. *)
Definition requested (hzs : list Z) (p : reac_pacer) : reac_pacer :=
  foldl (λ p hz, reac_pacer_request_rate hz p) p hzs.

Lemma requests_pending hzs hz p :
  let q := reac_pacer_request_rate hz (requested hzs p) in
  pc_rate_req_hz q = hz ∧ pc_reestab_cause q = REAC_PEV_CAUSE_RATE_CHANGE ∧
  u32 (pc_rate_req_seq q) = u32 (pc_rate_req_seq p + zlen hzs + 1) ∧ 0 ≤ pc_rate_req_seq q < 2 ^ 32 ∧
  ∃ h c s, q = set_pc_rate_req_seq s (set_pc_reestab_cause c (set_pc_rate_req_hz h p)).
Proof.
  cbv zeta. unfold requested. revert p. induction hzs as [|h hzs IH]; intros p.
  - cbn [foldl]. split; [done|]. split; [done|]. change (zlen (@nil Z)) with 0.
    change (pc_rate_req_seq (reac_pacer_request_rate hz p)) with (u32 (pc_rate_req_seq p + 1)).
    split; [unfold u32; lia|]. split; [unfold u32; lia|]. do 3 eexists. reflexivity.
  - destruct (IH (reac_pacer_request_rate h p)) as (H1 & H2 & H3 & H4 & h' & c & s & H5).
    cbn [foldl]. split; [done|]. split; [done|]. split.
    + rewrite H3, zlen_cons.
      change (pc_rate_req_seq (reac_pacer_request_rate h p)) with (u32 (pc_rate_req_seq p + 1)).
      unfold u32. lia.
    + split; [done|]. exists h', c, s. rewrite H5. by destruct p.
Qed.

(** C14. A live rate change is applied once, and the one applied is the last one
    asked for, however many were asked for since the slot before. The pacer runs
    at the new cadence, with the period that goes with it on both its clocks; the
    master is the one opening makes, idle, from counter 0, under the same address
    and without a box; the address, the model and the geometry of the old box are
    withdrawn; an open session is ended and no fault is counted; and the operator's head-amp settings, with the
    edges still to send, are kept. *)
Theorem rate_change_starts_anew (env : pacer_env) (cfg : reac_pacer_cfg) (p : reac_pacer)
    (hzs : list Z) (hz now now' : Z) :
  cfg_ok cfg → pacer_reach env cfg p → pc_rate_req_seq p = pc_rate_req_seen p →
  zlen hzs < 2 ^ 32 - 1 → 6000 ≤ hz →
  let q := reac_pacer_request_rate hz (requested hzs p) in
  let '(p', applied) := reac_pacer_rate_drain env now q in
  let fps := Z.quot hz REAC_SAMPLES_PER_PKT in
  let m := pc_master p' in
  applied = true ∧ reac_pacer_rate_drain env now' p' = (p', false) ∧
  (pc_fps p' = fps ∧ pc_rate_hz p' = hz ∧ pc_rate_reestablishing p' = true ∧
   sc_period_ns (pc_slotclk p') = reac_pacer_period_ns fps ∧ pk_period_ns (pc_clk p') = reac_pacer_period_ns fps) ∧
  (m_state m = REAC_M_IDLE ∧ m_counter m = 0 ∧ m_src m = cf_src cfg ∧ reac_master_has_box m = false) ∧
  (pc_fsm_state p' = REAC_M_IDLE ∧ pc_recognized_box p' = None ∧ pc_recognized_headamp_base p' = -1 ∧
   pc_recognized_box_mac p' = 0 ∧ pc_declared_in p' = 0 ∧ pc_declared_out p' = 0) ∧
  (pc_sessions p' = pc_sessions p ++
     (if state_eqb (m_state (pc_master p)) REAC_M_ESTABLISHED && pe_on_session env then [None] else []) ∧
   pc_drops p' = pc_drops p) ∧
  t_value (pc_headamp p') = t_value (pc_headamp p) ∧ t_set (pc_headamp p') = t_set (pc_headamp p) ∧
  t_dirty (pc_headamp p') = t_dirty (pc_headamp p) ∧ t_active (pc_headamp p') = t_active (pc_headamp p).
Proof.
  intros Hc Hr Hseq Hlen Hz. pose proof (pacer_reach_inv env cfg p Hc Hr) as [B _ _ _].
  destruct Hc as (Hs & _). cbv zeta.
  destruct (requests_pending hzs hz p) as (Q1 & _ & Q3 & Q4 & h & c & s & Q5).
  set (q := reac_pacer_request_rate hz _) in *. clearbody q. unfold reac_pacer_rate_drain at 1.
  assert (Hne : (pc_rate_req_seq q =? pc_rate_req_seen q) = false).
  { assert (Hq : pc_rate_req_seen q = pc_rate_req_seen p) by by rewrite Q5.
    destruct B. rewrite Hq, <- Hseq. unfold u32 in Q3. pose proof (zlen_nonneg hzs). apply Z.eqb_neq. lia. }
  rewrite Hne. set (q1 := set_pc_rate_req_seen (pc_rate_req_seq q) q).
  change (pc_rate_req_hz q) with (pc_rate_req_hz q1) in Q1.
  assert (Hq1 : pc_headamp q1 = pc_headamp p ∧ pc_master q1 = pc_master p ∧ pc_src q1 = pc_src p ∧
    pc_sessions q1 = pc_sessions p ∧ pc_drops q1 = pc_drops p ∧ pc_rate_req_seq q1 = pc_rate_req_seen q1)
    by (subst q1; rewrite Q5; by split_and!).
  change (pc_rate_req_hz q) with (pc_rate_req_hz q1). clearbody q1. rewrite Q1.
  destruct Hq1 as (Eh & Em & Es & Ese & Ed & Eq).
  pose proof (core_apply_rate env now hz q1) as C. pose proof (apply_rate_rest env now hz q1) as R.
  set (p' := reac_pacer_apply_rate env now hz q1) in *. clearbody p'. cbv zeta in R.
  destruct R as (R1 & R2 & _ & R3 & _ & R4 & R5 & _).
  destruct B. assert (Hf : 500 ≤ Z.quot hz 12) by (apply Z.quot_le_lower_bound; lia).
  destruct (started_facts (pe_tn env) (pc_src q1) (rerated_cfg (pc_master q1) (Z.quot hz 12)) (Z.quot hz 12)
    (pc_headamp q1) Hf ltac:(by rewrite Es, pb_src) ltac:(by rewrite Eh)) as (S1 & S2 & S3 & S4 & _).
  fold (rerated env (Z.quot hz 12) q1) in S1, S2, S3, S4. set (m := rerated _ _ _) in *. clearbody m.
  unfold core in C. injection C as E1 E2 E3 E4 E5 E6 E7 E8 E9 E10 E11 E12 E13 E14 E15.
  split; [done|]. split; [unfold reac_pacer_rate_drain; by rewrite E13, E14, Eq, Z.eqb_refl|].
  split; [done|]. rewrite E3. split.
  - destruct (iv_src _ _ _ S1) as (_ & Hsrc & _). split_and!; [done|done|congruence|].
    unfold reac_master_has_box. by injection S2 as _ ->.
  - split; [done|]. split; [by rewrite R4, R5, Ese, Em, Ed|]. rewrite E2, Eh. done.
Qed.

Lemma rate_change_starts_anew_witness :
  let q := reac_pacer_request_rate 96000 (reac_pacer_request_rate 44100 demo_pacer) in
  let '(p', applied) := reac_pacer_rate_drain demo_env 2000000 q in
  applied = true ∧ pc_fps p' = 8000 ∧ m_counter (pc_master p') = 0.
Proof.
  cbv zeta.
  pose proof (rate_change_starts_anew demo_env demo_cfg demo_pacer [44100] 96000 2000000 3000000 demo_cfg_ok
    demo_pacer_reach eq_refl ltac:(reflexivity) ltac:(lia)) as H. cbv zeta in H.
  unfold requested in H. cbn [foldl] in H. destruct (reac_pacer_rate_drain demo_env 2000000 _) as [p' applied].
  destruct H as (H1 & _ & (H2 & _) & (_ & H3 & _) & _). split; [exact H1|]. split; [exact H2|exact H3].
Defined.

(** On the launch grid with following off the change does not reach the wire: the
    grid is made once, before the loop, and keeps the period it was made with. *)
Definition demo_etf : reac_pacer := pacer_loop_start 1000000 (pacer_opened demo_env demo_cfg demo_ring true 2500000).
Lemma etf_keeps_old_pace :
  let p := reac_pacer_apply_rate demo_env 2000000 96000 demo_etf in
  let c := pc_slotclk p in
  pk_period_ns (pc_clk p) = 125000 ∧
  eg_launch_ns (sc_grid (slot_clock_advance c false 125000)) - eg_launch_ns (sc_grid c) = 250000.
Proof. vm_compute. by split. Qed.

(** ** Three things the bookkeeping misses *)

(** A declaration of another width grants the box anew without a logged
    transition; when the farewell of the box comes in the same drain, the
    transition logged is out of GRANTING, and neither is the session ended nor
    the drop counted. Alone, the farewell does both. *)
Definition demo_redeclare : list Z := default [] (reac_ctrl_build_config_announce demo_src demo_box_mac 9 8).
Definition demo_bye : list Z :=
  reac_ctrl_checksum_apply (blit demo_frames.2 18 ([1; 3; 0; 1; 0] ++ zeros 27)).

Lemma bye_after_regrant_keeps_session :
  let p := demo_enrol 1480 in
  let alone := drain_rx demo_env 3800000000 [demo_bye] p in
  let both := drain_rx demo_env 3800000000 [demo_redeclare; demo_bye] p in
  pc_fsm_state p = REAC_M_ESTABLISHED ∧
  (pc_fsm_state alone = REAC_M_PROBING ∧ pc_sessions alone = pc_sessions p ++ [None] ∧ (pc_drops alone).[2] = 1) ∧
  (pc_fsm_state both = REAC_M_PROBING ∧ pc_sessions both = pc_sessions p ∧ pc_drops both = zeros 8).
Proof. vm_compute. by split_and!. Qed.

(** The rate limit of the heartbeat log never applies: a heartbeat is not
    classified as other unicast traffic. *)
Lemma heartbeat_never_unicast frame len our parsed :
  reac_ctrl_classify_box_frame frame len our = (parsed, Some REAC_M_RX_BOX_UNICAST) →
  p_kind parsed ≠ REAC_CTRL_BOX_HB.
Proof.
  unfold reac_ctrl_classify_box_frame. intros H Hk. revert H.
  repeat match goal with |- context [if ?b then _ else _] => destruct b eqn:? end; intros [= <-];
    by rewrite Hk in *.
Qed.
