(* ===== verification/Watch.v ===== *)
(** * Watch: the standing alarms and the role an engine owes

    Models three small state machines beside the pacer and the receiver: the
    detector of sustained audio loss ([reac_discard_watch_step] of
    [transport/src/reac_pacer.c]), the comparison of the pace on the wire with the
    configured one ([transport/src/reac_pace_watch.c]), and the bookkeeping of a
    role change ([transport/src/reac_role_swap.c]). What they tell an operator is
    stated against the history of calls: a window is what lies between two calls
    that closed one. *)

From S2P Require Import Prelude Wire Clock MasterFsm Pace.
From Stdlib Require Import QArith SpecFloat.
Local Open Scope Z_scope.

(** ** Sustained loss *)

Definition REAC_PACER_DISCARD_WIN_NS : Z := 30000000000.
Definition REAC_PACER_DISCARD_WIN_RUN : Z := 3.

Record reac_discard_watch := DiscardWatch {
  dw_win_ns : Z; dw_win_frames : Z; dw_run : Z; dw_warned : bool
}.

(** [Some rate] is the 1 return with [*frames_per_s]. *)
Definition reac_discard_watch_step (w : reac_discard_watch) (now trim_frames : Z)
    : reac_discard_watch * option spec_float :=
  if dw_win_ns w =? 0 then (DiscardWatch now trim_frames (dw_run w) (dw_warned w), None)
  else if u64 (now - dw_win_ns w) <? REAC_PACER_DISCARD_WIN_NS then (w, None)
  else
    let dropped := u64 (trim_frames - dw_win_frames w) in
    let secs := f64_div (f64_of_Z (u64 (now - dw_win_ns w))) (f64_of_Z NS_PER_S) in
    if dropped =? 0 then (DiscardWatch now trim_frames 0 (dw_warned w), None)
    else
      let run := u32 (dw_run w + 1) in
      if (REAC_PACER_DISCARD_WIN_RUN <=? run) && negb (dw_warned w)
      then (DiscardWatch now trim_frames run true, Some (f64_div (f64_of_Z dropped) secs))
      else (DiscardWatch now trim_frames run (dw_warned w), None).

(** *** The alarm is raised once, by the first run of losing windows *)

(** The history: where the open window starts, and whether each closed window
    lost audio, the newest first. *)
Record loss_log := LossLog { ll_open : option (Z * Z); ll_windows : list bool }.

Definition loss_step (g : loss_log) (now frames : Z) : loss_log :=
  match ll_open g with
  | None => LossLog (Some (now, frames)) (ll_windows g)
  | Some (t0, f0) =>
      if now - t0 <? REAC_PACER_DISCARD_WIN_NS then g
      else LossLog (Some (now, frames)) (negb (frames =? f0) :: ll_windows g)
  end.

(** The losing windows at the head of a history. *)
Fixpoint losing (h : list bool) : Z := match h with true :: h => 1 + losing h | _ => 0 end.
(** Some point of a history ended a run. *)
Fixpoint run_ended (h : list bool) : bool :=
  match h with [] => false | _ :: h' => (REAC_PACER_DISCARD_WIN_RUN <=? losing h) || run_ended h' end.

(** The state before a call: its clock is past the open window's start. *)
Record loss_ok (w : reac_discard_watch) (g : loss_log) : Prop := {
  lo_open : match ll_open g with
            | None => dw_win_ns w = 0 ∧ ll_windows g = []
            | Some (t0, f0) => dw_win_ns w = t0 ∧ dw_win_frames w = f0 ∧ 0 < t0 < 2 ^ 64 ∧ 0 ≤ f0 < 2 ^ 64
            end;
  lo_run : dw_run w = losing (ll_windows g);
  lo_warned : dw_warned w = run_ended (ll_windows g)
}.

Definition loss_init : reac_discard_watch := DiscardWatch 0 0 0 false.

Lemma losing_bounds h : 0 ≤ losing h ≤ zlen h.
Proof. induction h as [|[] h IH]; cbn [losing]; rewrite ?zlen_cons; [done|lia|lia]. Qed.

Lemma u64_sub_zero a b : 0 ≤ a < 2 ^ 64 → 0 ≤ b < 2 ^ 64 → (u64 (a - b) =? 0) = (a =? b).
Proof. intros. unfold u64. lia. Qed.

Lemma loss_ok_step w g now frames :
  loss_ok w g → 0 < now < 2 ^ 64 → 0 ≤ frames < 2 ^ 64 → zlen (ll_windows g) < 2 ^ 32 - 1 →
  match ll_open g with Some (t0, _) => t0 ≤ now | None => True end →
  let '(w', alarm) := reac_discard_watch_step w now frames in
  let g' := loss_step g now frames in
  loss_ok w' g' ∧
  (is_Some alarm ↔ ll_windows g' ≠ ll_windows g ∧ run_ended (ll_windows g') = true ∧
                    run_ended (ll_windows g) = false).
Proof.
  intros [Ho Hr Hw] Hn Hf Hl Ht. unfold reac_discard_watch_step, loss_step.
  pose proof (losing_bounds (ll_windows g)) as Hb.
  destruct (ll_open g) as [[t0 f0]|] eqn:Eg; cycle 1.
  { destruct Ho as [-> Hg]. simpl. split; [split; simpl; [lia|done|done]|].
    rewrite Hg. split; [by intros [? ?]|by intros [? _]]. }
  destruct Ho as (E1 & E2 & Ht0 & Hf0). rewrite E1, E2, (proj2 (Z.eqb_neq t0 0)), u64_sub_zero by lia.
  rewrite (u64_small (now - t0)) by lia. destruct (now - t0 <? _) eqn:E; cbv zeta.
  { split; [by split; [rewrite Eg|..]|]. split; [by intros [? ?]|by intros [? _]]. }
  assert (Hne : ∀ b, b :: ll_windows g ≠ ll_windows g) by (intros b He; apply (f_equal length) in He; simpl in He; lia).
  destruct (frames =? f0); cbn [negb].
  - cbn [ll_windows run_ended losing]. split; [split; simpl; [done|done|by rewrite Hw]|].
    split; [by intros [? ?]|]. intros (_ & H1 & H2). simpl in H1. congruence.
  - unfold u32. rewrite Z.mod_small, Hr, Hw by lia. cbn [ll_windows].
    set (fires := (_ <=? _) && _). assert (Hfi : fires = true ↔
      run_ended (true :: ll_windows g) = true ∧ run_ended (ll_windows g) = false).
    { subst fires. cbn [run_ended losing]. rewrite (Z.add_comm 1). destruct (run_ended _), (_ <=? _); simpl; intuition congruence. }
    destruct fires eqn:Ef.
    + split; [split; simpl; [done|lia|symmetry; by apply Hfi]|].
      split; [intros _; split; [apply Hne|by apply Hfi]|done].
    + split.
      * split; simpl; [done|lia|]. subst fires. rewrite (Z.add_comm 1).
        destruct (run_ended (ll_windows g)); [by rewrite orb_true_r|].
        rewrite andb_true_r in Ef. by rewrite Ef.
      * split; [by intros [? ?]|]. intros (_ & H). apply Hfi in H. congruence.
Qed.

(** Every state the drain can lead to, with its history and the last clock; the
    frame count is a [uint64_t] and so is the clock. *)
Inductive loss_reach : reac_discard_watch → loss_log → Z → Prop :=
| loss_start : loss_reach loss_init (LossLog None []) 0
| loss_next w g last now frames : loss_reach w g last → last ≤ now → 0 < now < 2 ^ 64 →
    0 ≤ frames < 2 ^ 64 → loss_reach (reac_discard_watch_step w now frames).1 (loss_step g now frames) now.

Lemma loss_reach_ok w g last :
  loss_reach w g last → zlen (ll_windows g) < 2 ^ 32 - 1 →
  loss_ok w g ∧ match ll_open g with Some (t0, _) => t0 ≤ last | None => True end.
Proof.
  induction 1 as [|w g last now frames _ IH Hle Hn Hf]; intros Hl; [done|].
  assert (Hl' : zlen (ll_windows g) < 2 ^ 32 - 1 ∧
    match ll_open (loss_step g now frames) with Some (t0, _) => t0 ≤ now ∨ ll_open g = ll_open (loss_step g now frames) | None => True end).
  { revert Hl. unfold loss_step. destruct (ll_open g) as [[t0 f0]|] eqn:E; simpl; [|by auto with lia].
    destruct (_ <? _); simpl; rewrite ?E, ?zlen_cons; auto with lia. }
  destruct Hl' as [Hl' Ho]. destruct (IH Hl') as [Hok Ht].
  assert (Ht' : match ll_open g with Some (t0, _) => t0 ≤ now | None => True end)
    by (destruct (ll_open g) as [[]|]; [lia|done]).
  pose proof (loss_ok_step w g now frames Hok Hn Hf Hl' Ht') as Hs.
  destruct (reac_discard_watch_step w now frames) as [w' alarm]. simpl. split; [apply Hs|].
  destruct (ll_open (loss_step g now frames)) as [[t1 f1]|]; [|done]. destruct Ho as [Ho|Ho]; [done|].
  by rewrite Ho in Ht'.
Qed.

(** The loss alarm is raised exactly once, by the window that completes the first
    run of three consecutive windows each of which lost audio; a window that lost
    none starts the count again, and nothing after the alarm repeats it. *)
Theorem discard_alarm_exact (w : reac_discard_watch) (g : loss_log) (last now frames : Z) :
  loss_reach w g last → zlen (ll_windows g) < 2 ^ 32 - 1 → last ≤ now → 0 < now < 2 ^ 64 →
  0 ≤ frames < 2 ^ 64 →
  is_Some (reac_discard_watch_step w now frames).2 ↔
  ll_windows (loss_step g now frames) ≠ ll_windows g ∧
  run_ended (ll_windows (loss_step g now frames)) = true ∧ run_ended (ll_windows g) = false.
Proof.
  intros Hr Hl Hle Hn Hf. destruct (loss_reach_ok w g last Hr Hl) as [Hok Ht].
  pose proof (loss_ok_step w g now frames Hok Hn Hf Hl
    ltac:(destruct (ll_open g) as [[]|]; [lia|done])) as Hs.
  destruct (reac_discard_watch_step w now frames). apply Hs.
Qed.

(** ** The pace on the wire *)

Definition REAC_PACE_WINDOW_NS : Z := 2000000000.
Definition REAC_PACE_MIN_FRAMES : Z := 1000.
Definition REAC_PACE_MAX_GAP_NS : Z := 5000000.
Definition REAC_PACE_WARN_INTERVAL_NS : Z := 30000000000.

Record reac_pace_watch := PaceWatch {
  pw_configured_rate : Z; pw_observed_rate : Z; pw_win_start_ns : Z; pw_win_frames : Z;
  pw_win_last_ns : Z; pw_win_max_gap_ns : Z; pw_warned_ns : Z; pw_windows_bad : Z;
  pw_windows_disturbed : Z
}.

Definition win_open (w : reac_pace_watch) (now_ns : Z) : reac_pace_watch :=
  PaceWatch (pw_configured_rate w) (pw_observed_rate w) now_ns 0 now_ns 0 (pw_warned_ns w)
    (pw_windows_bad w) (pw_windows_disturbed w).

Definition reac_pace_watch_init (configured_rate : Z) : reac_pace_watch :=
  win_open (PaceWatch configured_rate 0 0 0 0 0 0 0 0) 0.

Definition reac_pace_watch_reset (w : reac_pace_watch) (now_ns : Z) : reac_pace_watch :=
  win_open (PaceWatch (pw_configured_rate w) 0 (pw_win_start_ns w) (pw_win_frames w) (pw_win_last_ns w)
              (pw_win_max_gap_ns w) (pw_warned_ns w) (pw_windows_bad w) (pw_windows_disturbed w)) now_ns.

(** The rational a finite double is. *)
Definition f64_Q (x : spec_float) : Q :=
  match x with
  | S754_finite s m e =>
      let v := if s then Z.neg m else Z.pos m in
      if 0 <=? e then inject_Z (v * 2 ^ e) else Qmake v (Z.to_pos (2 ^ (- e)))
  | _ => 0%Q
  end.

(** The pace [frames] over [elapsed] nanoseconds mean. *)
Definition observed_pace (frames elapsed : Z) : Z :=
  reac_rate_snap (f64_Q (f64_div (f64_mul (f64_of_Z frames) (f64_of_Z NS_PER_S)) (f64_of_Z elapsed))).

Definition count_disturbed (w : reac_pace_watch) : reac_pace_watch :=
  PaceWatch (pw_configured_rate w) (pw_observed_rate w) (pw_win_start_ns w) (pw_win_frames w)
    (pw_win_last_ns w) (pw_win_max_gap_ns w) (pw_warned_ns w) (pw_windows_bad w)
    (u64 (pw_windows_disturbed w + 1)).

(** The verdict on a closed window that is a pace. *)
Definition pace_judge (w : reac_pace_watch) (observed now_ns : Z) : reac_pace_watch * bool :=
  let judged warned bad :=
    PaceWatch (pw_configured_rate w) observed (pw_win_start_ns w) (pw_win_frames w) (pw_win_last_ns w)
      (pw_win_max_gap_ns w) warned bad (pw_windows_disturbed w) in
  if observed =? pw_configured_rate w then (judged 0 (pw_windows_bad w), false)
  else
    let bad := u64 (pw_windows_bad w + 1) in
    if negb (pw_warned_ns w =? 0) && (u64 (now_ns - pw_warned_ns w) <? REAC_PACE_WARN_INTERVAL_NS)
    then (judged (pw_warned_ns w) bad, false)
    else (judged now_ns bad, true).

(** The flag is the 1 return. *)
Definition reac_pace_watch_frame (w : reac_pace_watch) (now_ns : Z) : reac_pace_watch * bool :=
  if pw_win_start_ns w =? 0 then
    let w := win_open w now_ns in
    (PaceWatch (pw_configured_rate w) (pw_observed_rate w) (pw_win_start_ns w) 1 (pw_win_last_ns w)
       (pw_win_max_gap_ns w) (pw_warned_ns w) (pw_windows_bad w) (pw_windows_disturbed w), false)
  else
    let gap := u64 (now_ns - pw_win_last_ns w) in
    let w := PaceWatch (pw_configured_rate w) (pw_observed_rate w) (pw_win_start_ns w)
               (u64 (pw_win_frames w + 1)) now_ns
               (if pw_win_max_gap_ns w <? gap then gap else pw_win_max_gap_ns w)
               (pw_warned_ns w) (pw_windows_bad w) (pw_windows_disturbed w) in
    let elapsed := u64 (now_ns - pw_win_start_ns w) in
    if elapsed <? REAC_PACE_WINDOW_NS then (w, false)
    else
      let frames := pw_win_frames w in
      let max_gap := pw_win_max_gap_ns w in
      let w := win_open w now_ns in
      if frames <? REAC_PACE_MIN_FRAMES then (count_disturbed w, false)
      else if REAC_PACE_MAX_GAP_NS <? max_gap then (count_disturbed w, false)
      else pace_judge w (observed_pace frames elapsed) now_ns.

(** *** The alarm is raised by a steady window of the wrong pace *)

(** The history of a watch: where its window opened, whether a frame opened it,
    the arrivals since, the newest first, and the last report that no agreeing
    window has answered. *)
Record pace_log := PaceLog {
  pl_open : option Z; pl_opening : Z; pl_arrivals : list Z; pl_report : option Z
}.

(** The intervals between the frames of a window opened at [t0]. *)
Fixpoint gaps (t0 : Z) (arrivals : list Z) : list Z :=
  match arrivals with [] => [] | t :: l => (t - hd t0 l) :: gaps t0 l end.

(** The window that a frame at [now] closes is the pace of a stream: two seconds,
    a thousand frames, no interval above 5 ms. *)
Definition closes_steady (g : pace_log) (now : Z) : bool :=
  match pl_open g with
  | None => false
  | Some t0 =>
      let arrivals := now :: pl_arrivals g in
      (REAC_PACE_WINDOW_NS <=? now - t0) && (REAC_PACE_MIN_FRAMES <=? pl_opening g + zlen arrivals)
      && forallb (λ d, d <=? REAC_PACE_MAX_GAP_NS) (gaps t0 arrivals)
  end.
Definition window_pace (g : pace_log) (now : Z) : Z :=
  observed_pace (pl_opening g + 1 + zlen (pl_arrivals g)) (now - default 0 (pl_open g)).
(** A report less than thirty seconds ago that no agreeing window has answered. *)
Definition still_reported (g : pace_log) (now : Z) : bool :=
  match pl_report g with Some r => now - r <? REAC_PACE_WARN_INTERVAL_NS | None => false end.

Definition pace_alarm (configured : Z) (g : pace_log) (now : Z) : bool :=
  closes_steady g now && negb (window_pace g now =? configured) && negb (still_reported g now).

Definition pace_step (configured : Z) (g : pace_log) (now : Z) : pace_log :=
  match pl_open g with
  | None => PaceLog (Some now) 1 [] (pl_report g)
  | Some t0 =>
      if now - t0 <? REAC_PACE_WINDOW_NS
      then PaceLog (pl_open g) (pl_opening g) (now :: pl_arrivals g) (pl_report g)
      else PaceLog (Some now) 0 []
             (if negb (closes_steady g now) then pl_report g
              else if window_pace g now =? configured then None
              else if still_reported g now then pl_report g else Some now)
  end.
Definition pace_reset (g : pace_log) (now : Z) : pace_log := PaceLog (Some now) 0 [] (pl_report g).

Record pace_ok (w : reac_pace_watch) (g : pace_log) (last : Z) : Prop := {
  po_start : pw_win_start_ns w = default 0 (pl_open g);
  po_frames : is_Some (pl_open g) → pw_win_frames w = pl_opening g + zlen (pl_arrivals g);
  po_last : pw_win_last_ns w = hd (default 0 (pl_open g)) (pl_arrivals g);
  po_gap : pw_win_max_gap_ns w = foldr Z.max 0 (gaps (default 0 (pl_open g)) (pl_arrivals g));
  po_warned : pw_warned_ns w = default 0 (pl_report g);
  po_open : ∀ t, pl_open g = Some t → 0 < t ≤ last;
  po_bounds : 0 ≤ pl_opening g ≤ 1 ∧ 0 ≤ pw_win_start_ns w ≤ pw_win_last_ns w ∧ pw_win_last_ns w ≤ last;
  po_report : ∀ t, pl_report g = Some t → 0 < t ≤ last
}.

(** The largest gap is small when all are. *)
Lemma max_gap_steady l b : 0 ≤ b → (foldr Z.max 0 l <=? b) = forallb (λ d, d <=? b) l.
Proof. intros Hb. induction l as [|d l IH]; simpl; [lia|]. rewrite <- IH. lia. Qed.

Lemma pace_ok_frame w g last now :
  pace_ok w g last → last ≤ now → 0 < now < 2 ^ 64 → zlen (pl_arrivals g) < 2 ^ 64 - 2 →
  pace_ok (reac_pace_watch_frame w now).1 (pace_step (pw_configured_rate w) g now) now ∧
  pw_configured_rate (reac_pace_watch_frame w now).1 = pw_configured_rate w ∧
  (reac_pace_watch_frame w now).2 = pace_alarm (pw_configured_rate w) g now.
Proof.
  intros [] Hle Hn Hl. unfold reac_pace_watch_frame, pace_step, pace_alarm, closes_steady.
  destruct (pl_open g) as [t0|] eqn:Eo; cbn [from_option id] in *; rewrite po_start0; cycle 1.
  { simpl. split_and!; [|done|done]. split; simpl; try done; try lia.
    - intros t [= <-]. lia.
    - intros t Ht. specialize (po_report0 t Ht). lia. }
  destruct (po_open0 t0 eq_refl) as [Ht1 Ht2]. rewrite (proj2 (Z.eqb_neq t0 0)) by lia. cbv zeta.
  cbn [pw_configured_rate pw_observed_rate pw_win_start_ns pw_win_frames pw_win_last_ns pw_win_max_gap_ns
    pw_warned_ns pw_windows_bad pw_windows_disturbed].
  pose proof (zlen_nonneg (pl_arrivals g)) as Hz. rewrite !zlen_cons.
  rewrite (po_frames0 (ex_intro _ _ eq_refl)), !u64_small by lia.
  set (fr := pl_opening g + zlen (pl_arrivals g) + 1).
  replace (pl_opening g + (1 + zlen (pl_arrivals g))) with fr by lia.
  set (gap := now - pw_win_last_ns w).
  assert (Hg : (if pw_win_max_gap_ns w <? gap then gap else pw_win_max_gap_ns w)
               = foldr Z.max 0 (gaps t0 (now :: pl_arrivals g))).
  { simpl. rewrite <- po_last0, <- po_gap0. fold gap. destruct (Z.ltb_spec (pw_win_max_gap_ns w) gap); lia. }
  rewrite Hg. set (mg := foldr Z.max 0 (gaps t0 (now :: pl_arrivals g))) in *.
  destruct (Z.ltb_spec (now - t0) REAC_PACE_WINDOW_NS) as [He|He].
  { replace (REAC_PACE_WINDOW_NS <=? now - t0) with false by lia. simpl.
    split_and!; [|done|done]. split; simpl; try done; try lia.
    - intros _. unfold fr. rewrite zlen_cons. lia.
    - intros t [= <-]. lia.
    - intros t Ht. specialize (po_report0 t Ht). lia. }
  replace (REAC_PACE_WINDOW_NS <=? now - t0) with true by lia. cbn [andb].
  rewrite <- max_gap_steady by (unfold REAC_PACE_MAX_GAP_NS; lia).
  change (foldr Z.max 0 (gaps t0 (now :: pl_arrivals g))) with mg.
  assert (Hfresh : ∀ w' rep, pw_win_start_ns w' = now → pw_win_frames w' = 0 → pw_win_last_ns w' = now →
    pw_win_max_gap_ns w' = 0 → pw_warned_ns w' = default 0 rep → (∀ t, rep = Some t → 0 < t ≤ now) →
    pace_ok w' (PaceLog (Some now) 0 [] rep) now).
  { intros w' rep E1 E2 E3 E4 E5 E6. split; simpl; rewrite ?E1, ?E2, ?E3, ?E4; try done; try lia.
    intros t [= <-]. lia. }
  assert (Hrep : ∀ t, pl_report g = Some t → 0 < t ≤ now) by (intros t Ht; specialize (po_report0 t Ht); lia).
  destruct (Z.ltb_spec fr REAC_PACE_MIN_FRAMES) as [Hf|Hf].
  { replace (REAC_PACE_MIN_FRAMES <=? fr) with false by lia. simpl. split_and!; [by apply Hfresh|done|done]. }
  replace (REAC_PACE_MIN_FRAMES <=? fr) with true by lia. cbn [andb].
  destruct (Z.ltb_spec REAC_PACE_MAX_GAP_NS mg) as [Hm|Hm].
  { replace (mg <=? REAC_PACE_MAX_GAP_NS) with false by lia. simpl. split_and!; [by apply Hfresh|done|done]. }
  replace (mg <=? REAC_PACE_MAX_GAP_NS) with true by lia. cbn [negb andb].
  unfold window_pace, still_reported. rewrite Eo. cbn [from_option id].
  replace (pl_opening g + 1 + zlen (pl_arrivals g)) with fr by lia.
  unfold pace_judge. cbn [win_open pw_configured_rate pw_warned_ns].
  destruct (observed_pace fr (now - t0) =? pw_configured_rate w); cbn [negb andb].
  { split_and!; [by apply Hfresh|done|done]. }
  rewrite po_warned0. destruct (pl_report g) as [r|]; cbn [from_option id].
  - specialize (Hrep r eq_refl). rewrite u64_small by lia. rewrite (proj2 (Z.eqb_neq r 0)) by lia. cbn [negb andb].
    destruct (now - r <? _); cbn [negb fst snd]; split_and!; try done; apply Hfresh; try done;
      intros t [= <-]; lia.
  - cbn [Z.eqb negb andb fst snd]. split_and!; try done. apply Hfresh; try done. intros t [= <-]. lia.
Qed.

Lemma pace_ok_reset w g last now :
  pace_ok w g last → last ≤ now → 0 < now →
  pace_ok (reac_pace_watch_reset w now) (pace_reset g now) now.
Proof.
  intros [] Hle Hn. split; simpl; try done; try lia.
  - intros t [= <-]. lia.
  - intros t Ht. specialize (po_report0 t Ht). lia.
Qed.

(** Every state of a watch set to [configured], with its history and last clock. *)
Inductive pace_reach (configured : Z) : reac_pace_watch → pace_log → Z → Prop :=
| pace_start : pace_reach configured (reac_pace_watch_init configured) (PaceLog None 0 [] None) 0
| pace_frame w g last now : pace_reach configured w g last → last ≤ now → 0 < now < 2 ^ 64 →
    zlen (pl_arrivals g) < 2 ^ 64 - 2 →
    pace_reach configured (reac_pace_watch_frame w now).1 (pace_step configured g now) now
| pace_peer w g last now : pace_reach configured w g last → last ≤ now → 0 < now →
    pace_reach configured (reac_pace_watch_reset w now) (pace_reset g now) now.

Lemma pace_reach_ok configured w g last :
  pace_reach configured w g last → pace_ok w g last ∧ pw_configured_rate w = configured.
Proof.
  induction 1 as [|w g last now _ [IH <-] Hle Hn Hl|w g last now _ [IH <-] Hle Hn].
  - split; [split; simpl; try done; lia|done].
  - by destruct (pace_ok_frame w g last now IH Hle Hn Hl) as (H1 & H2 & _).
  - split; [by apply (pace_ok_reset w g last)|done].
Qed.

(** C27. The wire is accused of a wrong pace exactly when it runs at one. A frame
    raises the alarm if and only if it closes a window of at least two seconds
    that holds a thousand frames and no interval above five milliseconds, the rate
    of that window snaps to a pace other than the configured one, and no report
    of the last thirty seconds stands that an agreeing window has not answered:
    seams, stalls and changes of peer never raise it, and a lasting disagreement
    is never lost. *)
Theorem pace_alarm_exact (configured : Z) (w : reac_pace_watch) (g : pace_log) (last now : Z) :
  pace_reach configured w g last → last ≤ now → 0 < now < 2 ^ 64 → zlen (pl_arrivals g) < 2 ^ 64 - 2 →
  (reac_pace_watch_frame w now).2 = pace_alarm configured g now.
Proof.
  intros Hr Hle Hn Hl. destruct (pace_reach_ok _ _ _ _ Hr) as [H <-]. by apply (pace_ok_frame w g last now).
Qed.

(** A box on 48 kHz under a desk set to 96 kHz: a frame every 250 us. *)
Fixpoint demo_pace (n : nat) : reac_pace_watch * pace_log * Z :=
  match n with
  | O => (reac_pace_watch_init 96000, PaceLog None 0 [] None, 0)
  | S n =>
      let '(w, g, _) := demo_pace n in
      let now := 1000000 + 250000 * Z.of_nat n in
      ((reac_pace_watch_frame w now).1, pace_step 96000 g now, now)
  end.

Lemma demo_pace_reach n : Z.of_nat n < 2 ^ 32 →
  let '(w, g, last) := demo_pace n in
  pace_reach 96000 w g last ∧ zlen (pl_arrivals g) ≤ Z.of_nat n ∧ last ≤ 1000000 + 250000 * Z.of_nat n.
Proof.
  induction n as [|n IH]; intros Hn.
  - simpl. split_and!; [constructor|done|lia].
  - cbn [demo_pace]. destruct (demo_pace n) as [[w g] last]. destruct IH as (Hr & Hl & Ht); [lia|].
    split_and!; [by apply (pace_frame _ _ _ last); [|lia..]| |lia].
    unfold pace_step. destruct (pl_open g); [destruct (_ <? _)|]; cbn [pl_arrivals]; rewrite ?zlen_cons;
      change (zlen (@nil Z)) with 0; lia.
Qed.

(** The first frame past two seconds reports 48 kHz. *)
Lemma demo_pace_report :
  let '(w, g, last) := demo_pace (Z.to_nat 8000) in
  last = 2000750000 ∧ pace_alarm 96000 g 2001000000 = true ∧
  pw_observed_rate (reac_pace_watch_frame w 2001000000).1 = 48000.
Proof. vm_compute. repeat split. Qed.

Lemma pace_alarm_exact_witness :
  let '(w, g, _) := demo_pace (Z.to_nat 8000) in
  (reac_pace_watch_frame w 2001000000).2 = true ∧
  pw_observed_rate (reac_pace_watch_frame w 2001000000).1 = 48000.
Proof.
  pose proof (demo_pace_reach (Z.to_nat 8000) ltac:(lia)) as H. pose proof demo_pace_report as D.
  destruct (demo_pace (Z.to_nat 8000)) as [[w g] last]. destruct H as (Hr & Hl & _). destruct D as (-> & Ha & Ho).
  split; [|exact Ho]. rewrite (pace_alarm_exact 96000 w g 2000750000 2001000000 Hr); [exact Ha|lia|lia|lia].
Defined.

(** ** The role an engine owes *)

Inductive reac_role_engine := REAC_ROLE_ENGINE_DOWN | REAC_ROLE_ENGINE_HUNTING | REAC_ROLE_ENGINE_PERFORMING.
Inductive reac_role_state := REAC_ROLE_STATE_APPLIED | REAC_ROLE_STATE_REESTABLISH_PENDING | REAC_ROLE_STATE_HUNTING.

Record reac_role_swap := RoleSwap { rs_asserted : reac_role; rs_running : reac_role; rs_engine_up : bool }.

Definition reac_role_swap_init (boot_role : reac_role) : reac_role_swap := RoleSwap boot_role boot_role false.
(** The flag is the return: an engine is owed. *)
Definition reac_role_swap_request (s : reac_role_swap) (want : reac_role) : reac_role_swap * bool :=
  (RoleSwap want (rs_running s) (rs_engine_up s),
   if rs_engine_up s then negb (bool_decide (rs_running s = want)) else true).
Definition reac_role_swap_opened (s : reac_role_swap) (role : reac_role) : reac_role_swap :=
  RoleSwap (rs_asserted s) role true.
Definition reac_role_swap_closed (s : reac_role_swap) : reac_role_swap :=
  RoleSwap (rs_asserted s) (rs_running s) false.

Definition reac_role_engine_of_master (engine_up : bool) (fsm : reac_master_state) : reac_role_engine :=
  if negb engine_up then REAC_ROLE_ENGINE_DOWN
  else match fsm with REAC_M_IDLE => REAC_ROLE_ENGINE_HUNTING | _ => REAC_ROLE_ENGINE_PERFORMING end.
Definition reac_role_engine_of_slave (engine_up established : bool) : reac_role_engine :=
  if negb engine_up then REAC_ROLE_ENGINE_DOWN
  else if established then REAC_ROLE_ENGINE_PERFORMING else REAC_ROLE_ENGINE_HUNTING.

(** [s] is a record here; a null one reads as pending. *)
Definition reac_role_swap_state (s : reac_role_swap) (engine : reac_role_engine) : reac_role_state :=
  match engine with
  | REAC_ROLE_ENGINE_DOWN => REAC_ROLE_STATE_REESTABLISH_PENDING
  | _ =>
      if negb (rs_engine_up s) then REAC_ROLE_STATE_REESTABLISH_PENDING
      else if negb (bool_decide (rs_running s = rs_asserted s)) then REAC_ROLE_STATE_REESTABLISH_PENDING
      else match engine with REAC_ROLE_ENGINE_HUNTING => REAC_ROLE_STATE_HUNTING | _ => REAC_ROLE_STATE_APPLIED end
  end.

Definition reac_role_emits_headamp (role : reac_role) : bool := bool_decide (role = REAC_ROLE_MASTER).

(** The requests of one drain window: the last decides what is owed, and what is
    owed is measured against the engine that is up. *)
Lemma swap_requests_last s wants want :
  let s' := foldl (λ s w, (reac_role_swap_request s w).1) s wants in
  (reac_role_swap_request s' want).2 = (reac_role_swap_request s want).2 ∧
  rs_asserted (reac_role_swap_request s' want).1 = want.
Proof.
  cbv zeta. split; [|done]. revert s. induction wants as [|w l IH]; intros s; [done|].
  exact (IH (reac_role_swap_request s w).1).
Qed.

(** A role reads applied only while the engine of exactly that role performs. *)
Lemma swap_applied_iff s engine :
  reac_role_swap_state s engine = REAC_ROLE_STATE_APPLIED ↔
  engine = REAC_ROLE_ENGINE_PERFORMING ∧ rs_engine_up s = true ∧ rs_running s = rs_asserted s.
Proof.
  unfold reac_role_swap_state. destruct engine, (rs_engine_up s); simpl; try case_bool_decide; simpl; intuition congruence.
Qed.
