(* ===== verification/Rx.v ===== *)
(** * Rx: the receiver of the audio stream

    Models [transport/src/reac_rx.c]: the stream gate, the duplicate guard, the
    order of the counter with its resync, the reset at a change of peer, the slope
    estimator, the decoding of a frame into the sample ring, the alarm of the
    vanished interface, and opening. A turn of [rx_loop] is given the frame
    received (without the bytes the socket truncated) and one reading of the
    monotonic clock; the pcap source differs from the socket only by the restart
    at its end. The interface index a name resolves to and the detected rate are
    arguments. *)

From S2P Require Import Prelude Wire Sample Codec CtrlFrames Clock Pace Ring Watch.
From Stdlib Require Import SpecFloat.
Local Open Scope Z_scope.

(** ** State *)

Inductive reac_rx_accept := REAC_RX_ACCEPT_DOWNSTREAM | REAC_RX_ACCEPT_UPSTREAM.

(** [prev_frame] is its [prev_clean_len] bytes. *)
Record reac_rx := ReacRx {
  rx_accept : reac_rx_accept; rx_ring : reac_ring; rx_sample_rate : Z; rx_pace : reac_pace_watch;
  rx_bound_ifindex : Z; rx_iface_lost : bool; rx_ppm_error_milli : Z; rx_ppm_seq : Z;
  rx_ppm_win_start_ns : Z; rx_ppm_win_frames : Z; rx_ppm_last_counter : Z; rx_ppm_have_last : bool;
  rx_up_src : list Z; rx_up_src_locked : bool; rx_peer_session : Z; rx_peer_epoch : Z;
  rx_prev_frame : list Z; rx_have_prev : bool; rx_frames_ok : Z; rx_frames_bad : Z;
  rx_frames_other : Z; rx_counter_gaps : Z; rx_frames_dup : Z
}.

Definition set_rx_accept (v : reac_rx_accept) (r : reac_rx) : reac_rx :=
  ReacRx v (rx_ring r) (rx_sample_rate r) (rx_pace r) (rx_bound_ifindex r)
    (rx_iface_lost r) (rx_ppm_error_milli r) (rx_ppm_seq r) (rx_ppm_win_start_ns r)
    (rx_ppm_win_frames r) (rx_ppm_last_counter r) (rx_ppm_have_last r) (rx_up_src r)
    (rx_up_src_locked r) (rx_peer_session r) (rx_peer_epoch r) (rx_prev_frame r)
    (rx_have_prev r) (rx_frames_ok r) (rx_frames_bad r) (rx_frames_other r)
    (rx_counter_gaps r) (rx_frames_dup r).
Definition set_rx_ring (v : reac_ring) (r : reac_rx) : reac_rx :=
  ReacRx (rx_accept r) v (rx_sample_rate r) (rx_pace r) (rx_bound_ifindex r)
    (rx_iface_lost r) (rx_ppm_error_milli r) (rx_ppm_seq r) (rx_ppm_win_start_ns r)
    (rx_ppm_win_frames r) (rx_ppm_last_counter r) (rx_ppm_have_last r) (rx_up_src r)
    (rx_up_src_locked r) (rx_peer_session r) (rx_peer_epoch r) (rx_prev_frame r)
    (rx_have_prev r) (rx_frames_ok r) (rx_frames_bad r) (rx_frames_other r)
    (rx_counter_gaps r) (rx_frames_dup r).
Definition set_rx_sample_rate (v : Z) (r : reac_rx) : reac_rx :=
  ReacRx (rx_accept r) (rx_ring r) v (rx_pace r) (rx_bound_ifindex r) (rx_iface_lost r)
    (rx_ppm_error_milli r) (rx_ppm_seq r) (rx_ppm_win_start_ns r) (rx_ppm_win_frames r)
    (rx_ppm_last_counter r) (rx_ppm_have_last r) (rx_up_src r) (rx_up_src_locked r)
    (rx_peer_session r) (rx_peer_epoch r) (rx_prev_frame r) (rx_have_prev r) (rx_frames_ok r)
    (rx_frames_bad r) (rx_frames_other r) (rx_counter_gaps r) (rx_frames_dup r).
Definition set_rx_pace (v : reac_pace_watch) (r : reac_rx) : reac_rx :=
  ReacRx (rx_accept r) (rx_ring r) (rx_sample_rate r) v (rx_bound_ifindex r)
    (rx_iface_lost r) (rx_ppm_error_milli r) (rx_ppm_seq r) (rx_ppm_win_start_ns r)
    (rx_ppm_win_frames r) (rx_ppm_last_counter r) (rx_ppm_have_last r) (rx_up_src r)
    (rx_up_src_locked r) (rx_peer_session r) (rx_peer_epoch r) (rx_prev_frame r)
    (rx_have_prev r) (rx_frames_ok r) (rx_frames_bad r) (rx_frames_other r)
    (rx_counter_gaps r) (rx_frames_dup r).
Definition set_rx_bound_ifindex (v : Z) (r : reac_rx) : reac_rx :=
  ReacRx (rx_accept r) (rx_ring r) (rx_sample_rate r) (rx_pace r) v (rx_iface_lost r)
    (rx_ppm_error_milli r) (rx_ppm_seq r) (rx_ppm_win_start_ns r) (rx_ppm_win_frames r)
    (rx_ppm_last_counter r) (rx_ppm_have_last r) (rx_up_src r) (rx_up_src_locked r)
    (rx_peer_session r) (rx_peer_epoch r) (rx_prev_frame r) (rx_have_prev r) (rx_frames_ok r)
    (rx_frames_bad r) (rx_frames_other r) (rx_counter_gaps r) (rx_frames_dup r).
Definition set_rx_iface_lost (v : bool) (r : reac_rx) : reac_rx :=
  ReacRx (rx_accept r) (rx_ring r) (rx_sample_rate r) (rx_pace r) (rx_bound_ifindex r) v
    (rx_ppm_error_milli r) (rx_ppm_seq r) (rx_ppm_win_start_ns r) (rx_ppm_win_frames r)
    (rx_ppm_last_counter r) (rx_ppm_have_last r) (rx_up_src r) (rx_up_src_locked r)
    (rx_peer_session r) (rx_peer_epoch r) (rx_prev_frame r) (rx_have_prev r) (rx_frames_ok r)
    (rx_frames_bad r) (rx_frames_other r) (rx_counter_gaps r) (rx_frames_dup r).
Definition set_rx_ppm_error_milli (v : Z) (r : reac_rx) : reac_rx :=
  ReacRx (rx_accept r) (rx_ring r) (rx_sample_rate r) (rx_pace r) (rx_bound_ifindex r)
    (rx_iface_lost r) v (rx_ppm_seq r) (rx_ppm_win_start_ns r) (rx_ppm_win_frames r)
    (rx_ppm_last_counter r) (rx_ppm_have_last r) (rx_up_src r) (rx_up_src_locked r)
    (rx_peer_session r) (rx_peer_epoch r) (rx_prev_frame r) (rx_have_prev r) (rx_frames_ok r)
    (rx_frames_bad r) (rx_frames_other r) (rx_counter_gaps r) (rx_frames_dup r).
Definition set_rx_ppm_seq (v : Z) (r : reac_rx) : reac_rx :=
  ReacRx (rx_accept r) (rx_ring r) (rx_sample_rate r) (rx_pace r) (rx_bound_ifindex r)
    (rx_iface_lost r) (rx_ppm_error_milli r) v (rx_ppm_win_start_ns r) (rx_ppm_win_frames r)
    (rx_ppm_last_counter r) (rx_ppm_have_last r) (rx_up_src r) (rx_up_src_locked r)
    (rx_peer_session r) (rx_peer_epoch r) (rx_prev_frame r) (rx_have_prev r) (rx_frames_ok r)
    (rx_frames_bad r) (rx_frames_other r) (rx_counter_gaps r) (rx_frames_dup r).
Definition set_rx_ppm_win_start_ns (v : Z) (r : reac_rx) : reac_rx :=
  ReacRx (rx_accept r) (rx_ring r) (rx_sample_rate r) (rx_pace r) (rx_bound_ifindex r)
    (rx_iface_lost r) (rx_ppm_error_milli r) (rx_ppm_seq r) v (rx_ppm_win_frames r)
    (rx_ppm_last_counter r) (rx_ppm_have_last r) (rx_up_src r) (rx_up_src_locked r)
    (rx_peer_session r) (rx_peer_epoch r) (rx_prev_frame r) (rx_have_prev r) (rx_frames_ok r)
    (rx_frames_bad r) (rx_frames_other r) (rx_counter_gaps r) (rx_frames_dup r).
Definition set_rx_ppm_win_frames (v : Z) (r : reac_rx) : reac_rx :=
  ReacRx (rx_accept r) (rx_ring r) (rx_sample_rate r) (rx_pace r) (rx_bound_ifindex r)
    (rx_iface_lost r) (rx_ppm_error_milli r) (rx_ppm_seq r) (rx_ppm_win_start_ns r) v
    (rx_ppm_last_counter r) (rx_ppm_have_last r) (rx_up_src r) (rx_up_src_locked r)
    (rx_peer_session r) (rx_peer_epoch r) (rx_prev_frame r) (rx_have_prev r) (rx_frames_ok r)
    (rx_frames_bad r) (rx_frames_other r) (rx_counter_gaps r) (rx_frames_dup r).
Definition set_rx_ppm_last_counter (v : Z) (r : reac_rx) : reac_rx :=
  ReacRx (rx_accept r) (rx_ring r) (rx_sample_rate r) (rx_pace r) (rx_bound_ifindex r)
    (rx_iface_lost r) (rx_ppm_error_milli r) (rx_ppm_seq r) (rx_ppm_win_start_ns r)
    (rx_ppm_win_frames r) v (rx_ppm_have_last r) (rx_up_src r) (rx_up_src_locked r)
    (rx_peer_session r) (rx_peer_epoch r) (rx_prev_frame r) (rx_have_prev r) (rx_frames_ok r)
    (rx_frames_bad r) (rx_frames_other r) (rx_counter_gaps r) (rx_frames_dup r).
Definition set_rx_ppm_have_last (v : bool) (r : reac_rx) : reac_rx :=
  ReacRx (rx_accept r) (rx_ring r) (rx_sample_rate r) (rx_pace r) (rx_bound_ifindex r)
    (rx_iface_lost r) (rx_ppm_error_milli r) (rx_ppm_seq r) (rx_ppm_win_start_ns r)
    (rx_ppm_win_frames r) (rx_ppm_last_counter r) v (rx_up_src r) (rx_up_src_locked r)
    (rx_peer_session r) (rx_peer_epoch r) (rx_prev_frame r) (rx_have_prev r) (rx_frames_ok r)
    (rx_frames_bad r) (rx_frames_other r) (rx_counter_gaps r) (rx_frames_dup r).
Definition set_rx_up_src (v : list Z) (r : reac_rx) : reac_rx :=
  ReacRx (rx_accept r) (rx_ring r) (rx_sample_rate r) (rx_pace r) (rx_bound_ifindex r)
    (rx_iface_lost r) (rx_ppm_error_milli r) (rx_ppm_seq r) (rx_ppm_win_start_ns r)
    (rx_ppm_win_frames r) (rx_ppm_last_counter r) (rx_ppm_have_last r) v (rx_up_src_locked r)
    (rx_peer_session r) (rx_peer_epoch r) (rx_prev_frame r) (rx_have_prev r) (rx_frames_ok r)
    (rx_frames_bad r) (rx_frames_other r) (rx_counter_gaps r) (rx_frames_dup r).
Definition set_rx_up_src_locked (v : bool) (r : reac_rx) : reac_rx :=
  ReacRx (rx_accept r) (rx_ring r) (rx_sample_rate r) (rx_pace r) (rx_bound_ifindex r)
    (rx_iface_lost r) (rx_ppm_error_milli r) (rx_ppm_seq r) (rx_ppm_win_start_ns r)
    (rx_ppm_win_frames r) (rx_ppm_last_counter r) (rx_ppm_have_last r) (rx_up_src r) v
    (rx_peer_session r) (rx_peer_epoch r) (rx_prev_frame r) (rx_have_prev r) (rx_frames_ok r)
    (rx_frames_bad r) (rx_frames_other r) (rx_counter_gaps r) (rx_frames_dup r).
Definition set_rx_peer_session (v : Z) (r : reac_rx) : reac_rx :=
  ReacRx (rx_accept r) (rx_ring r) (rx_sample_rate r) (rx_pace r) (rx_bound_ifindex r)
    (rx_iface_lost r) (rx_ppm_error_milli r) (rx_ppm_seq r) (rx_ppm_win_start_ns r)
    (rx_ppm_win_frames r) (rx_ppm_last_counter r) (rx_ppm_have_last r) (rx_up_src r)
    (rx_up_src_locked r) v (rx_peer_epoch r) (rx_prev_frame r) (rx_have_prev r)
    (rx_frames_ok r) (rx_frames_bad r) (rx_frames_other r) (rx_counter_gaps r)
    (rx_frames_dup r).
Definition set_rx_peer_epoch (v : Z) (r : reac_rx) : reac_rx :=
  ReacRx (rx_accept r) (rx_ring r) (rx_sample_rate r) (rx_pace r) (rx_bound_ifindex r)
    (rx_iface_lost r) (rx_ppm_error_milli r) (rx_ppm_seq r) (rx_ppm_win_start_ns r)
    (rx_ppm_win_frames r) (rx_ppm_last_counter r) (rx_ppm_have_last r) (rx_up_src r)
    (rx_up_src_locked r) (rx_peer_session r) v (rx_prev_frame r) (rx_have_prev r)
    (rx_frames_ok r) (rx_frames_bad r) (rx_frames_other r) (rx_counter_gaps r)
    (rx_frames_dup r).
Definition set_rx_prev_frame (v : list Z) (r : reac_rx) : reac_rx :=
  ReacRx (rx_accept r) (rx_ring r) (rx_sample_rate r) (rx_pace r) (rx_bound_ifindex r)
    (rx_iface_lost r) (rx_ppm_error_milli r) (rx_ppm_seq r) (rx_ppm_win_start_ns r)
    (rx_ppm_win_frames r) (rx_ppm_last_counter r) (rx_ppm_have_last r) (rx_up_src r)
    (rx_up_src_locked r) (rx_peer_session r) (rx_peer_epoch r) v (rx_have_prev r)
    (rx_frames_ok r) (rx_frames_bad r) (rx_frames_other r) (rx_counter_gaps r)
    (rx_frames_dup r).
Definition set_rx_have_prev (v : bool) (r : reac_rx) : reac_rx :=
  ReacRx (rx_accept r) (rx_ring r) (rx_sample_rate r) (rx_pace r) (rx_bound_ifindex r)
    (rx_iface_lost r) (rx_ppm_error_milli r) (rx_ppm_seq r) (rx_ppm_win_start_ns r)
    (rx_ppm_win_frames r) (rx_ppm_last_counter r) (rx_ppm_have_last r) (rx_up_src r)
    (rx_up_src_locked r) (rx_peer_session r) (rx_peer_epoch r) (rx_prev_frame r) v
    (rx_frames_ok r) (rx_frames_bad r) (rx_frames_other r) (rx_counter_gaps r)
    (rx_frames_dup r).
Definition set_rx_frames_ok (v : Z) (r : reac_rx) : reac_rx :=
  ReacRx (rx_accept r) (rx_ring r) (rx_sample_rate r) (rx_pace r) (rx_bound_ifindex r)
    (rx_iface_lost r) (rx_ppm_error_milli r) (rx_ppm_seq r) (rx_ppm_win_start_ns r)
    (rx_ppm_win_frames r) (rx_ppm_last_counter r) (rx_ppm_have_last r) (rx_up_src r)
    (rx_up_src_locked r) (rx_peer_session r) (rx_peer_epoch r) (rx_prev_frame r)
    (rx_have_prev r) v (rx_frames_bad r) (rx_frames_other r) (rx_counter_gaps r)
    (rx_frames_dup r).
Definition set_rx_frames_bad (v : Z) (r : reac_rx) : reac_rx :=
  ReacRx (rx_accept r) (rx_ring r) (rx_sample_rate r) (rx_pace r) (rx_bound_ifindex r)
    (rx_iface_lost r) (rx_ppm_error_milli r) (rx_ppm_seq r) (rx_ppm_win_start_ns r)
    (rx_ppm_win_frames r) (rx_ppm_last_counter r) (rx_ppm_have_last r) (rx_up_src r)
    (rx_up_src_locked r) (rx_peer_session r) (rx_peer_epoch r) (rx_prev_frame r)
    (rx_have_prev r) (rx_frames_ok r) v (rx_frames_other r) (rx_counter_gaps r)
    (rx_frames_dup r).
Definition set_rx_frames_other (v : Z) (r : reac_rx) : reac_rx :=
  ReacRx (rx_accept r) (rx_ring r) (rx_sample_rate r) (rx_pace r) (rx_bound_ifindex r)
    (rx_iface_lost r) (rx_ppm_error_milli r) (rx_ppm_seq r) (rx_ppm_win_start_ns r)
    (rx_ppm_win_frames r) (rx_ppm_last_counter r) (rx_ppm_have_last r) (rx_up_src r)
    (rx_up_src_locked r) (rx_peer_session r) (rx_peer_epoch r) (rx_prev_frame r)
    (rx_have_prev r) (rx_frames_ok r) (rx_frames_bad r) v (rx_counter_gaps r)
    (rx_frames_dup r).
Definition set_rx_counter_gaps (v : Z) (r : reac_rx) : reac_rx :=
  ReacRx (rx_accept r) (rx_ring r) (rx_sample_rate r) (rx_pace r) (rx_bound_ifindex r)
    (rx_iface_lost r) (rx_ppm_error_milli r) (rx_ppm_seq r) (rx_ppm_win_start_ns r)
    (rx_ppm_win_frames r) (rx_ppm_last_counter r) (rx_ppm_have_last r) (rx_up_src r)
    (rx_up_src_locked r) (rx_peer_session r) (rx_peer_epoch r) (rx_prev_frame r)
    (rx_have_prev r) (rx_frames_ok r) (rx_frames_bad r) (rx_frames_other r) v
    (rx_frames_dup r).
Definition set_rx_frames_dup (v : Z) (r : reac_rx) : reac_rx :=
  ReacRx (rx_accept r) (rx_ring r) (rx_sample_rate r) (rx_pace r) (rx_bound_ifindex r)
    (rx_iface_lost r) (rx_ppm_error_milli r) (rx_ppm_seq r) (rx_ppm_win_start_ns r)
    (rx_ppm_win_frames r) (rx_ppm_last_counter r) (rx_ppm_have_last r) (rx_up_src r)
    (rx_up_src_locked r) (rx_peer_session r) (rx_peer_epoch r) (rx_prev_frame r)
    (rx_have_prev r) (rx_frames_ok r) (rx_frames_bad r) (rx_frames_other r)
    (rx_counter_gaps r) v.

(** The locals of [rx_loop]. *)
Record rx_loop := RxLoop {
  lp_rx : reac_rx; lp_last_counter : Z; lp_have_counter : bool; lp_stale_last : Z; lp_stale_run : Z;
  lp_conflict_said : bool; lp_seen_epoch : Z; lp_last_iface_check_ns : Z
}.

Definition set_lp_rx (v : reac_rx) (r : rx_loop) : rx_loop :=
  RxLoop v (lp_last_counter r) (lp_have_counter r) (lp_stale_last r) (lp_stale_run r)
    (lp_conflict_said r) (lp_seen_epoch r) (lp_last_iface_check_ns r).
Definition set_lp_last_counter (v : Z) (r : rx_loop) : rx_loop :=
  RxLoop (lp_rx r) v (lp_have_counter r) (lp_stale_last r) (lp_stale_run r)
    (lp_conflict_said r) (lp_seen_epoch r) (lp_last_iface_check_ns r).
Definition set_lp_have_counter (v : bool) (r : rx_loop) : rx_loop :=
  RxLoop (lp_rx r) (lp_last_counter r) v (lp_stale_last r) (lp_stale_run r)
    (lp_conflict_said r) (lp_seen_epoch r) (lp_last_iface_check_ns r).
Definition set_lp_stale_last (v : Z) (r : rx_loop) : rx_loop :=
  RxLoop (lp_rx r) (lp_last_counter r) (lp_have_counter r) v (lp_stale_run r)
    (lp_conflict_said r) (lp_seen_epoch r) (lp_last_iface_check_ns r).
Definition set_lp_stale_run (v : Z) (r : rx_loop) : rx_loop :=
  RxLoop (lp_rx r) (lp_last_counter r) (lp_have_counter r) (lp_stale_last r) v
    (lp_conflict_said r) (lp_seen_epoch r) (lp_last_iface_check_ns r).
Definition set_lp_conflict_said (v : bool) (r : rx_loop) : rx_loop :=
  RxLoop (lp_rx r) (lp_last_counter r) (lp_have_counter r) (lp_stale_last r)
    (lp_stale_run r) v (lp_seen_epoch r) (lp_last_iface_check_ns r).
Definition set_lp_seen_epoch (v : Z) (r : rx_loop) : rx_loop :=
  RxLoop (lp_rx r) (lp_last_counter r) (lp_have_counter r) (lp_stale_last r)
    (lp_stale_run r) (lp_conflict_said r) v (lp_last_iface_check_ns r).
Definition set_lp_last_iface_check_ns (v : Z) (r : rx_loop) : rx_loop :=
  RxLoop (lp_rx r) (lp_last_counter r) (lp_have_counter r) (lp_stale_last r)
    (lp_stale_run r) (lp_conflict_said r) (lp_seen_epoch r) v.

Definition upd_rx (f : reac_rx → reac_rx) (s : rx_loop) : rx_loop := set_lp_rx (f (lp_rx s)) s.
Definition count_rx (get : reac_rx → Z) (set : Z → reac_rx → reac_rx) (rx : reac_rx) : reac_rx :=
  set (u64 (get rx + 1)) rx.

(** ** The interface *)

Definition reac_rx_binding_lost (bound_ifindex current_ifindex : Z) : bool :=
  if bound_ifindex =? 0 then false else negb (current_ifindex =? bound_ifindex).

(** Every two seconds, live: the latch, and whether the loop ends. *)
Definition rx_check_iface (s : rx_loop) (now now_idx : Z) : rx_loop * bool :=
  if u64 (now - lp_last_iface_check_ns s) <? 2000000000 then (s, false)
  else
    let s := set_lp_last_iface_check_ns now s in
    if reac_rx_binding_lost (rx_bound_ifindex (lp_rx s)) now_idx
    then (upd_rx (set_rx_iface_lost true) s, true) else (s, false).

(** ** The peer *)

Definition bump_epoch (rx : reac_rx) : reac_rx := set_rx_peer_epoch (u32 (rx_peer_epoch rx + 1)) rx.

Definition reac_rx_session_end (rx : reac_rx) : reac_rx := bump_epoch rx.

Definition reac_rx_peer_reset (rx : reac_rx) (mac : list Z) (session : Z) : reac_rx :=
  if rx_up_src_locked rx && zeqb (rx_up_src rx) mac && (rx_peer_session rx =? session) then rx
  else
    let rx := set_rx_peer_session session rx in
    let rx := set_rx_up_src mac rx in
    let rx := set_rx_up_src_locked true rx in
    bump_epoch rx.

(** The gate, [len] clean; an unlocked one locks on a unicast return. *)
Definition gate_accepts (rx : reac_rx) (frame : list Z) (len : Z) : reac_rx * bool :=
  let broadcast := zeqb (slice frame 0 6) (fill 6 0xFF) in
  let from_peer := zeqb (rx_up_src rx) (slice frame 6 6) in
  match rx_accept rx with
  | REAC_RX_ACCEPT_DOWNSTREAM =>
      if negb (len =? REAC_FRAME_BYTES) || negb broadcast then (rx, false)
      else (rx, negb (rx_up_src_locked rx) || from_peer)
  | REAC_RX_ACCEPT_UPSTREAM =>
      if reac_upstream_channels len <? 0 then (rx, false)
      else if negb (rx_up_src_locked rx) then
        if broadcast then (rx, false)
        else (set_rx_up_src_locked true (set_rx_up_src (slice frame 6 6) rx), true)
      else (rx, from_peer)
  end.

(** ** The stream *)

Definition REAC_RX_RESYNC_RUN : Z := 8.
Definition counter_ahead (last cur : Z) : bool := reac_counter_gap last cur <? 0x8000.

(** The planar floats of decoded bytes: [ns] samples of each of [nch] channels. *)
Definition planar_floats (s24 : list Z) (nch ns : Z) : list f32 :=
  zseq 0 nch ≫= λ ch, (λ s, reac_s24le_to_f32 (slice s24 ((ch * ns + s) * 3) 3)) <$> zseq 0 ns.

Definition rx_decode (rx : reac_rx) (frame : list Z) (len : Z) : Z * option (Z * list Z) :=
  match rx_accept rx with
  | REAC_RX_ACCEPT_UPSTREAM =>
      let nch := reac_upstream_channels len in
      (nch, if 0 <? nch then reac_upstream_decode frame len else None)
  | REAC_RX_ACCEPT_DOWNSTREAM =>
      let mode := reac_mode_for (rx_sample_rate rx) in
      (n_channels mode, reac_decode frame len mode)
  end.

Definition feed_frame (rx : reac_rx) (frame : list Z) (len : Z) : reac_rx :=
  match rx_decode rx frame len with
  | (_, None) => count_rx rx_frames_bad set_rx_frames_bad rx
  | (nch, Some (ns, s24)) =>
      let ns := if REAC_SAMPLES_PER_PKT <? ns then REAC_SAMPLES_PER_PKT else ns in
      let nch := if REAC_MAX_CHANNELS <? nch then REAC_MAX_CHANNELS else nch in
      let rx := set_rx_ring (reac_ring_write (rx_ring rx) (planar_floats s24 nch ns) ns nch).1 rx in
      count_rx rx_frames_ok set_rx_frames_ok rx
  end.

(** The window of the slope: frames advanced, and its start. *)
Definition ppm_advance (rx : reac_rx) (counter now_ns : Z) : reac_rx :=
  let rx := if rx_ppm_have_last rx
            then set_rx_ppm_win_frames
                   (u32 (rx_ppm_win_frames rx + (reac_counter_gap (rx_ppm_last_counter rx) counter + 1))) rx
            else set_rx_ppm_have_last true (set_rx_ppm_win_start_ns now_ns rx) in
  set_rx_ppm_last_counter counter rx.

(** The estimate a closed window publishes, in ppm * 1000. *)
Definition ppm_estimate (win_frames dt sample_rate : Z) : Z :=
  let obs_pps := f64_div (f64_mul (f64_of_Z win_frames) (f64_of_Z NS_PER_S)) (f64_of_Z dt) in
  let nom_pps := f64_div (f64_of_Z sample_rate) (f64_of_Z REAC_SAMPLES_PER_PKT) in
  let ppm := f64_mul (f64_div (f64_sub obs_pps nom_pps) nom_pps) (f64_of_Z 1000000) in
  f64_to_Z (f64_mul ppm (f64_of_Z 1000)).

Definition update_ppm (rx : reac_rx) (counter now_ns : Z) : reac_rx :=
  let rx := ppm_advance rx counter now_ns in
  let dt := u64 (now_ns - rx_ppm_win_start_ns rx) in
  if dt <? 250000000 then rx
  else
    let rx := set_rx_ppm_error_milli (ppm_estimate (rx_ppm_win_frames rx) dt (rx_sample_rate rx)) rx in
    let rx := set_rx_ppm_seq (u32 (rx_ppm_seq rx + 1)) rx in
    set_rx_ppm_win_frames 0 (set_rx_ppm_win_start_ns now_ns rx).

(** ** One turn of the loop *)

Inductive rx_verdict := RxIgnored | RxOther | RxTwin | RxRefused | RxDecoded (pace_alarm : bool).

(** The frame is a copy of the one before it. *)
Definition is_twin (rx : reac_rx) (clean : list Z) : bool :=
  rx_have_prev rx && zeqb clean (rx_prev_frame rx).
Definition keep_frame (clean : list Z) (rx : reac_rx) : reac_rx :=
  set_rx_have_prev true (set_rx_prev_frame clean rx).

(** The peer changed: what the loop learned from the last one goes. *)
Definition new_peer (s : rx_loop) (now : Z) : rx_loop :=
  let ep := rx_peer_epoch (lp_rx s) in
  if ep =? lp_seen_epoch s then s
  else
    let s := set_lp_seen_epoch ep s in
    let s := set_lp_have_counter false s in
    let s := set_lp_stale_run 0 s in
    upd_rx (λ rx, set_rx_pace (reac_pace_watch_reset (rx_pace rx) now)
                    (set_rx_ppm_error_milli 0 (set_rx_ppm_win_frames 0
                       (set_rx_ppm_have_last false (set_rx_have_prev false rx))))) s.

(** The counter is not ahead of the last accepted one: refused, unless the run of
    frames that continue each other is long enough. The flag is the refusal. *)
Definition stale_step (s : rx_loop) (counter : Z) : rx_loop * bool :=
  if lp_have_counter s && negb (counter_ahead (lp_last_counter s) counter) then
    let run := if negb (lp_stale_run s =? 0) && (counter =? u16 (lp_stale_last s + 1))
               then u32 (lp_stale_run s + 1) else 1 in
    let s := set_lp_stale_run run s in
    let s := set_lp_stale_last counter s in
    if run <? REAC_RX_RESYNC_RUN then
      let s := if (counter =? lp_last_counter s) && negb (lp_conflict_said s)
               then set_lp_conflict_said true s else s in
      (upd_rx (count_rx rx_frames_other set_rx_frames_other) s, true)
    else (set_lp_have_counter false s, false)
  else (s, false).

(** The frame accepted: gaps, slope, audio, pace. *)
Definition take_frame (s : rx_loop) (now : Z) (frame : list Z) (clean counter : Z) : rx_loop * rx_verdict :=
  let s := set_lp_stale_run 0 s in
  let s := if lp_have_counter s
           then upd_rx (λ rx, set_rx_counter_gaps
                  (u64 (rx_counter_gaps rx + reac_counter_gap (lp_last_counter s) counter)) rx) s
           else s in
  let s := set_lp_have_counter true (set_lp_last_counter counter s) in
  let rx := update_ppm (lp_rx s) counter now in
  let rx := feed_frame rx frame clean in
  let '(pace, alarm) := reac_pace_watch_frame (rx_pace rx) now in
  (set_lp_rx (set_rx_pace pace rx) s, RxDecoded alarm).

(** A REAC frame the gate let through. *)
Definition rx_stream (s : rx_loop) (now : Z) (frame : list Z) (clean : Z) : rx_loop * rx_verdict :=
  let bytes := slice frame 0 clean in
  if is_twin (lp_rx s) bytes then (upd_rx (count_rx rx_frames_dup set_rx_frames_dup) s, RxTwin)
  else
    let s := upd_rx (keep_frame bytes) s in
    let counter := reac_frame_counter frame in
    let s := new_peer s now in
    let '(s, refused) := stale_step s counter in
    if refused then (s, RxRefused) else take_frame s now frame clean counter.

Definition rx_receive (s : rx_loop) (now : Z) (frame : list Z) : rx_loop * rx_verdict :=
  if negb (reac_frame_is_reac (Some frame) (zlen frame)) then (s, RxIgnored)
  else
    let clean := reac_frame_clean_len (zlen frame) in
    let '(rx, ok) := gate_accepts (lp_rx s) frame clean in
    let s := set_lp_rx rx s in
    if negb ok then (upd_rx (count_rx rx_frames_other set_rx_frames_other) s, RxOther)
    else rx_stream s now frame clean.

(** The end of a capture file: the next pass starts afresh. *)
Definition rx_rewind (s : rx_loop) : rx_loop :=
  let s := set_lp_stale_run 0 (set_lp_have_counter false s) in
  upd_rx (λ rx, set_rx_ppm_win_frames 0 (set_rx_ppm_have_last false (set_rx_have_prev false rx))) s.

(** ** Opening *)

(** The rate forced, detected on a live wire, or the default. *)
Definition rx_rate (live : bool) (forced detected : Z) : Z :=
  if negb (forced =? 0) then forced
  else if live then if 0 <? detected then detected else 48000 else 48000.

(** [None] is the -1 return; [present] is whether the interface could be opened. *)
Definition reac_rx_open (accept : reac_rx_accept) (live present : bool) (forced detected : Z)
    (alloc_ok : bool) : option reac_rx :=
  if live && negb present then None
  else
    let rate := rx_rate live forced detected in
    match reac_ring_init REAC_MAX_CHANNELS (u32 (Z.quot rate 4)) alloc_ok with
    | None => None
    | Some ring =>
        Some (ReacRx accept ring rate (reac_pace_watch_init rate) 0 false 0 0 0 0 0 false (zeros 6) false 0 0
                [] false 0 0 0 0 0)
    end.

(** The loop starts, bound to [ifindex] when live. *)
Definition rx_loop_start (ifindex : Z) (rx : reac_rx) : rx_loop :=
  RxLoop (set_rx_bound_ifindex ifindex rx) 0 false 0 0 false (rx_peer_epoch rx) 0.

(** ** A second sender behind the peer is not heard *)

Lemma gap_self c : reac_counter_gap c c = 0xffff.
Proof. unfold reac_counter_gap, u16. rewrite land_ffff. replace (c - c - 1) with (-1) by lia. done. Qed.

#[local] Opaque ppm_estimate reac_ring_write planar_floats reac_decode reac_upstream_decode
  reac_pace_watch_frame reac_counter_gap reac_upstream_channels.

(** What a receiver has heard: everything but the memory of its guards and the
    counts of what they refused. *)
Definition heard_rx (rx : reac_rx) :=
  (rx_accept rx, rx_ring rx, rx_sample_rate rx, rx_pace rx,
   (rx_ppm_error_milli rx, rx_ppm_seq rx, rx_ppm_win_start_ns rx, rx_ppm_win_frames rx,
    rx_ppm_last_counter rx, rx_ppm_have_last rx),
   (rx_up_src rx, rx_up_src_locked rx, rx_peer_session rx, rx_peer_epoch rx),
   (rx_frames_ok rx, rx_frames_bad rx, rx_counter_gaps rx)).
Definition heard (s : rx_loop) :=
  (heard_rx (lp_rx s), lp_last_counter s, lp_have_counter s, lp_seen_epoch s).

(** The gate knows its peer, or takes every desk. *)
Definition gate_settled (rx : reac_rx) : bool :=
  rx_up_src_locked rx || match rx_accept rx with REAC_RX_ACCEPT_DOWNSTREAM => true | _ => false end.

(** A frame the gate takes for the stream. *)
Definition in_stream (rx : reac_rx) (frame : list Z) : bool :=
  reac_frame_is_reac (Some frame) (zlen frame)
  && (gate_accepts rx frame (reac_frame_clean_len (zlen frame))).2.

Lemma gate_keeps rx frame len :
  gate_settled rx = true → gate_accepts rx frame len = (rx, (gate_accepts rx frame len).2).
Proof.
  unfold gate_settled, gate_accepts. destruct (rx_accept rx), (rx_up_src_locked rx); try done;
    repeat (destruct (_ || _) || destruct (_ <? _)); done.
Qed.

(** Two receivers that have heard the same are the same but for their guards. *)
Ltac same_heard rx rx' H :=
  destruct rx, rx'; unfold heard_rx in H; cbn in H;
  injection H as -> -> -> -> -> -> -> -> -> -> -> -> -> -> -> -> ->.

Lemma gate_heard rx rx' frame len :
  heard_rx rx = heard_rx rx' → (gate_accepts rx frame len).2 = (gate_accepts rx' frame len).2.
Proof.
  intros H. same_heard rx rx' H. unfold gate_accepts. cbn.
  repeat match goal with |- context [match ?x with _ => _ end] => destruct x; cbn end; done.
Qed.
Lemma settled_heard rx rx' : heard_rx rx = heard_rx rx' → gate_settled rx = gate_settled rx'.
Proof. intros H. by same_heard rx rx' H. Qed.

Lemma clean_len_le len : reac_frame_clean_len len ≤ len.
Proof. unfold reac_frame_clean_len. destruct (_ && _); lia. Qed.
#[local] Transparent reac_upstream_channels.
Lemma upstream_len len : 0 ≤ reac_upstream_channels len → 124 ≤ len.
Proof.
  unfold reac_upstream_channels, REAC_UPSTREAM_OVERHEAD, REAC_UPSTREAM_BYTES_PER_CH.
  destruct (Z.ltb_spec len (52 + 2 * 36)); lia.
Qed.
#[local] Opaque reac_upstream_channels.

(** The clean length of a frame of the stream covers the counter. *)
Lemma stream_clean rx frame :
  in_stream rx frame = true →
  let clean := reac_frame_clean_len (zlen frame) in
  16 ≤ clean ≤ zlen frame ∧ reac_frame_counter (slice frame 0 clean) = reac_frame_counter frame.
Proof.
  cbv zeta. unfold in_stream, gate_accepts. intros [_ H]%andb_prop. pose proof (zlen_nonneg frame).
  assert (Hc : 16 ≤ reac_frame_clean_len (zlen frame) ≤ zlen frame).
  { split; [|apply clean_len_le]. destruct (rx_accept rx).
    - destruct (Z.eqb_spec (reac_frame_clean_len (zlen frame)) REAC_FRAME_BYTES) as [->|]; [done|].
      by simpl in H.
    - destruct (Z.ltb_spec (reac_upstream_channels (reac_frame_clean_len (zlen frame))) 0); [done|].
      enough (124 ≤ reac_frame_clean_len (zlen frame)) by lia. by apply upstream_len. }
  split; [done|]. unfold reac_frame_counter, REAC_HDR_COUNTER_OFF.
  rewrite !rd_slice by lia. do 3 f_equal; lia.
Qed.

(** Accepting a frame changes what is heard by what is heard alone. *)
Lemma ppm_heard rx rx' counter now :
  heard_rx rx = heard_rx rx' → heard_rx (update_ppm rx counter now) = heard_rx (update_ppm rx' counter now).
Proof.
  intros H. same_heard rx rx' H. unfold update_ppm, ppm_advance. cbn.
  destruct rx_ppm_have_last1; cbn; by destruct (_ <? _).
Qed.
Lemma feed_heard rx rx' frame len :
  heard_rx rx = heard_rx rx' → heard_rx (feed_frame rx frame len) = heard_rx (feed_frame rx' frame len).
Proof.
  intros H. same_heard rx rx' H. unfold feed_frame, rx_decode. cbn.
  destruct rx_accept1; cbn; [destruct (reac_decode _ _ _) as [[]|]|
    destruct (0 <? _); [destruct (reac_upstream_decode _ _) as [[]|]|]]; done.
Qed.

Definition gap_counted (have : bool) (last counter : Z) (rx : reac_rx) : reac_rx :=
  if have then set_rx_counter_gaps (u64 (rx_counter_gaps rx + reac_counter_gap last counter)) rx else rx.
Definition taken_rx (have : bool) (last counter now : Z) (frame : list Z) (clean : Z) (rx : reac_rx) : reac_rx :=
  let rx := feed_frame (update_ppm (gap_counted have last counter rx) counter now) frame clean in
  set_rx_pace (reac_pace_watch_frame (rx_pace rx) now).1 rx.

Lemma take_frame_eq s now frame clean counter :
  let s' := (take_frame s now frame clean counter).1 in
  lp_rx s' = taken_rx (lp_have_counter s) (lp_last_counter s) counter now frame clean (lp_rx s) ∧
  lp_last_counter s' = counter ∧ lp_have_counter s' = true ∧ lp_seen_epoch s' = lp_seen_epoch s ∧
  lp_stale_run s' = 0 ∧ lp_conflict_said s' = lp_conflict_said s.
Proof.
  unfold take_frame, taken_rx, gap_counted. cbv zeta. destruct s. cbn.
  destruct lp_have_counter0; cbn; by destruct (reac_pace_watch_frame _ _).
Qed.

Definition is_decoded (v : rx_verdict) : bool := match v with RxDecoded _ => true | _ => false end.
Lemma take_decoded s now frame clean counter : is_decoded (take_frame s now frame clean counter).2 = true.
Proof. unfold take_frame. by destruct (reac_pace_watch_frame _ _). Qed.

Lemma taken_heard rx rx' have last counter now frame clean :
  heard_rx rx = heard_rx rx' →
  heard_rx (taken_rx have last counter now frame clean rx) = heard_rx (taken_rx have last counter now frame clean rx').
Proof.
  intros H. unfold taken_rx. cbv zeta.
  assert (Hg : heard_rx (gap_counted have last counter rx) = heard_rx (gap_counted have last counter rx'))
    by (same_heard rx rx' H; by destruct have).
  apply (ppm_heard _ _ counter now), (feed_heard _ _ frame clean) in Hg.
  set (r := feed_frame _ _ _) in *. set (r' := feed_frame _ _ _) in *. clearbody r r'. by same_heard r r' Hg.
Qed.

Lemma take_heard s s' now frame clean counter :
  heard s = heard s' →
  heard (take_frame s now frame clean counter).1 = heard (take_frame s' now frame clean counter).1.
Proof.
  unfold heard. intros [[[E0 E1]%pair_eq E2]%pair_eq E3]%pair_eq.
  destruct (take_frame_eq s now frame clean counter) as (-> & -> & -> & -> & _).
  destruct (take_frame_eq s' now frame clean counter) as (-> & -> & -> & -> & _).
  rewrite E1, E2, E3. do 3 f_equal. by apply taken_heard.
Qed.

(** What keeps the guards truthful: the frame the duplicate guard remembers is not
    ahead of the last accepted one. *)
Record rx_ok (s : rx_loop) : Prop := {
  ro_prev : lp_have_counter s = true → rx_have_prev (lp_rx s) = true →
    counter_ahead (lp_last_counter s) (reac_frame_counter (rx_prev_frame (lp_rx s))) = false;
  ro_run : 0 ≤ lp_stale_run s < 2 ^ 32
}.

(** The receiver is in the middle of the stream of a peer. *)
Record streaming (s : rx_loop) : Prop := {
  st_ok : rx_ok s; st_gate : gate_settled (lp_rx s) = true; st_counter : lp_have_counter s = true;
  st_epoch : rx_peer_epoch (lp_rx s) = lp_seen_epoch s
}.

Lemma ahead_self c : counter_ahead c c = false.
Proof. unfold counter_ahead. rewrite gap_self. done. Qed.

(** The fields of a receiver that its own accounting of a frame leaves alone. *)
Lemma taken_kept have last counter now frame clean rx :
  let rx' := taken_rx have last counter now frame clean rx in
  rx_accept rx' = rx_accept rx ∧ rx_up_src rx' = rx_up_src rx ∧ rx_up_src_locked rx' = rx_up_src_locked rx ∧
  rx_peer_epoch rx' = rx_peer_epoch rx ∧ rx_prev_frame rx' = rx_prev_frame rx ∧ rx_have_prev rx' = rx_have_prev rx.
Proof.
  unfold taken_rx. cbv zeta. set (g := gap_counted _ _ _ _).
  assert (Hg : rx_accept g = rx_accept rx ∧ rx_up_src g = rx_up_src rx ∧ rx_up_src_locked g = rx_up_src_locked rx ∧
    rx_peer_epoch g = rx_peer_epoch rx ∧ rx_prev_frame g = rx_prev_frame rx ∧ rx_have_prev g = rx_have_prev rx)
    by (subst g; unfold gap_counted; by destruct have).
  clearbody g. destruct Hg as (<- & <- & <- & <- & <- & <-). destruct g.
  unfold update_ppm, ppm_advance, feed_frame, rx_decode, count_rx. cbn.
  destruct rx_ppm_have_last0; cbn; (destruct (_ <? 250000000); cbn); destruct rx_accept0; cbn;
    (destruct (reac_decode _ _ _) as [[]|] || (destruct (0 <? _); [destruct (reac_upstream_decode _ _) as [[]|]|])); done.
Qed.

(** Only a counter in sequence is accounted for lost frames. *)
Lemma taken_gaps last counter now frame clean rx :
  rx_counter_gaps (taken_rx false last counter now frame clean rx) = rx_counter_gaps rx.
Proof.
  unfold taken_rx, gap_counted. destruct rx. unfold update_ppm, ppm_advance, feed_frame, rx_decode, count_rx. cbn.
  destruct rx_ppm_have_last0; cbn; (destruct (_ <? 250000000); cbn); destruct rx_accept0; cbn;
    (destruct (reac_decode _ _ _) as [[]|] || (destruct (0 <? _); [destruct (reac_upstream_decode _ _) as [[]|]|])); done.
Qed.

Lemma receive_stream s now frame :
  gate_settled (lp_rx s) = true → in_stream (lp_rx s) frame = true →
  rx_receive s now frame = rx_stream s now frame (reac_frame_clean_len (zlen frame)).
Proof.
  unfold in_stream, rx_receive. intros Hg [H1 H2]%andb_prop. rewrite H1. cbn [negb].
  rewrite gate_keeps by done. rewrite H2. cbn [negb]. by destruct s.
Qed.

(** What is not of the stream is not heard, and leaves the guards alone. *)
Lemma receive_foreign s now frame :
  streaming s → in_stream (lp_rx s) frame = false →
  let '(s', v) := rx_receive s now frame in
  heard s' = heard s ∧ streaming s' ∧ lp_stale_run s' = lp_stale_run s ∧ (v = RxIgnored ∨ v = RxOther).
Proof.
  intros [[Hp Hr] Hg Hc He] H. unfold rx_receive. unfold in_stream in H.
  destruct (reac_frame_is_reac _ _); cbn [negb andb] in *; [|by split_and!; auto].
  rewrite gate_keeps by done. rewrite H. cbn [negb].
  destruct s as [[]]. cbn in *. split_and!; auto. by split.
Qed.

(** The next frame of the peer is taken, whatever was refused before it. *)
Lemma receive_own s now frame :
  streaming s → in_stream (lp_rx s) frame = true →
  counter_ahead (lp_last_counter s) (reac_frame_counter frame) = true →
  let clean := reac_frame_clean_len (zlen frame) in
  rx_receive s now frame =
    take_frame (upd_rx (keep_frame (slice frame 0 clean)) s) now frame clean (reac_frame_counter frame).
Proof.
  intros [[Hp Hr] Hg Hc He] Hi Ha. cbv zeta. rewrite receive_stream by done.
  destruct (stream_clean _ _ Hi) as [_ Hk]. cbv zeta in Hk. set (clean := reac_frame_clean_len _) in *.
  unfold rx_stream. assert (is_twin (lp_rx s) (slice frame 0 clean) = false) as ->.
  { unfold is_twin. destruct (rx_have_prev (lp_rx s)) eqn:Eh; [|done]. cbn [andb]. apply zeqb_neq. intros Eq.
    specialize (Hp Hc eq_refl). rewrite <- Eq, Hk in Hp. congruence. }
  unfold new_peer. cbn. rewrite He, Z.eqb_refl. unfold stale_step. cbn. rewrite Hc, Ha. done.
Qed.

Lemma streaming_taken s now frame :
  streaming s → in_stream (lp_rx s) frame = true →
  let clean := reac_frame_clean_len (zlen frame) in
  streaming (take_frame (upd_rx (keep_frame (slice frame 0 clean)) s) now frame clean (reac_frame_counter frame)).1.
Proof.
  intros [[Hp Hr] Hg Hc He] Hi. cbv zeta. destruct (stream_clean _ _ Hi) as [_ Hk]. cbv zeta in Hk.
  set (clean := reac_frame_clean_len _) in *.
  destruct (take_frame_eq (upd_rx (keep_frame (slice frame 0 clean)) s) now frame clean (reac_frame_counter frame))
    as (E1 & E2 & E3 & E4 & E5 & _).
  destruct (taken_kept (lp_have_counter (upd_rx (keep_frame (slice frame 0 clean)) s))
    (lp_last_counter (upd_rx (keep_frame (slice frame 0 clean)) s)) (reac_frame_counter frame) now frame clean
    (lp_rx (upd_rx (keep_frame (slice frame 0 clean)) s))) as (K1 & _ & K3 & K4 & K5 & K6).
  rewrite <- E1 in K1, K3, K4, K5, K6. set (s' := (take_frame _ _ _ _ _).1) in *. clearbody s'.
  split; [split|..].
  - intros _ _. rewrite E2, K5. cbn. rewrite Hk. apply ahead_self.
  - rewrite E5. done.
  - unfold gate_settled in *. rewrite K1, K3. exact Hg.
  - done.
  - rewrite K4, E4. exact He.
Qed.

(** A frame that is not the next one is refused, as long as the run is short. *)
Lemma receive_behind s now frame :
  streaming s → in_stream (lp_rx s) frame = true →
  counter_ahead (lp_last_counter s) (reac_frame_counter frame) = false → lp_stale_run s < REAC_RX_RESYNC_RUN - 1 →
  let '(s', v) := rx_receive s now frame in
  heard s' = heard s ∧ streaming s' ∧ 0 ≤ lp_stale_run s' ≤ lp_stale_run s + 1 ∧ (v = RxTwin ∨ v = RxRefused).
Proof.
  intros [[Hp Hr] Hg Hc He] Hi Ha Hk. rewrite receive_stream by done.
  destruct (stream_clean _ _ Hi) as [_ Hcl]. cbv zeta in Hcl. set (clean := reac_frame_clean_len _) in *.
  unfold rx_stream. destruct (is_twin _ _).
  { destruct s as [[]]. cbn in *. split_and!; auto; [|lia|lia]. by split. }
  unfold new_peer. cbn. rewrite He, Z.eqb_refl. unfold stale_step. cbn. rewrite Hc, Ha. cbn.
  set (run := if _ && _ then _ else _).
  assert (0 ≤ run ≤ lp_stale_run s + 1) as Hrun.
  { subst run. unfold REAC_RX_RESYNC_RUN, u32 in *. destruct (_ && _); [rewrite Z.mod_small; lia|lia]. }
  clearbody run. unfold REAC_RX_RESYNC_RUN in *. replace (run <? 8) with true by lia.
  destruct s as [[]]. cbn in *. destruct (_ && _); cbn; (split_and!; auto; [|lia|lia]); split; cbn; try done;
    (split; cbn; [by rewrite Hcl|lia]).
Qed.

(** *** Runs *)

Fixpoint rx_run (s : rx_loop) (wire : list (Z * list Z)) : rx_loop * list rx_verdict :=
  match wire with
  | [] => (s, [])
  | (now, frame) :: wire =>
      let '(s, v) := rx_receive s now frame in
      let '(s, vs) := rx_run s wire in (s, v :: vs)
  end.

(** A wire with two senders under the peer's address: each frame of the peer is
    ahead of its last one, each other frame is not, and fewer than eight of those
    come between two of the peer. Traffic the gate refuses is free. The flag marks
    the frames of the peer. *)
Inductive spoofed (rx : reac_rx) : Z → Z → list (Z * list Z * bool) → Prop :=
| sp_end last k : spoofed rx last k []
| sp_own last k now frame wire : in_stream rx frame = true →
    counter_ahead last (reac_frame_counter frame) = true →
    spoofed rx (reac_frame_counter frame) 0 wire → spoofed rx last k ((now, frame, true) :: wire)
| sp_behind last k now frame wire : in_stream rx frame = true →
    counter_ahead last (reac_frame_counter frame) = false → k < REAC_RX_RESYNC_RUN - 1 →
    spoofed rx last (k + 1) wire → spoofed rx last k ((now, frame, false) :: wire)
| sp_foreign last k now frame wire : in_stream rx frame = false →
    spoofed rx last k wire → spoofed rx last k ((now, frame, false) :: wire).

Definition same_gate (rx rx' : reac_rx) : Prop :=
  rx_accept rx = rx_accept rx' ∧ rx_up_src rx = rx_up_src rx' ∧ rx_up_src_locked rx = rx_up_src_locked rx'.

Lemma same_gate_stream rx rx' frame : same_gate rx rx' → in_stream rx frame = in_stream rx' frame.
Proof.
  intros (E1 & E2 & E3). unfold in_stream, gate_accepts. rewrite E1, E2, E3.
  repeat match goal with |- context [match ?x with _ => _ end] => destruct x; cbn end; done.
Qed.

Lemma heard_gate s s' : heard s = heard s' → same_gate (lp_rx s) (lp_rx s').
Proof. unfold heard. intros [[[H _]%pair_eq _]%pair_eq _]%pair_eq. unfold same_gate. by same_heard (lp_rx s) (lp_rx s') H. Qed.

Definition all_frames (wire : list (Z * list Z * bool)) : list (Z * list Z) := fst <$> wire.
Definition own_frames (wire : list (Z * list Z * bool)) : list (Z * list Z) :=
  fst <$> filter (λ x, x.2 = true) wire.

Lemma same_gate_trans rx1 rx2 rx3 : same_gate rx1 rx2 → same_gate rx2 rx3 → same_gate rx1 rx3.
Proof. unfold same_gate. intuition congruence. Qed.

(** The two runs, side by side. *)
Lemma spoofed_run rx last k wire s s2 :
  spoofed rx last k wire → streaming s → streaming s2 → heard s = heard s2 → same_gate (lp_rx s) rx →
  lp_last_counter s = last → lp_stale_run s ≤ k →
  heard (rx_run s (all_frames wire)).1 = heard (rx_run s2 (own_frames wire)).1 ∧
  is_decoded <$> (rx_run s (all_frames wire)).2 = snd <$> wire.
Proof.
  intros Hw. revert s s2. induction Hw as [last k|last k now f wire Hi Ha Hw IH|last k now f wire Hi Ha Hk Hw IH|last k now f wire Hi Hw IH];
    intros s s2 Hs Hs2 Hh Hg Hl Hr; [by split|..].
  - pose proof (same_gate_stream _ _ f Hg) as Hi1. rewrite Hi in Hi1.
    pose proof (same_gate_stream _ _ f (heard_gate _ _ Hh)) as Hi2. rewrite Hi1 in Hi2. symmetry in Hi2.
    assert (Hl2 : lp_last_counter s2 = last) by (unfold heard in Hh; congruence).
    unfold all_frames, own_frames. rewrite filter_cons_True by done. cbn [fmap list_fmap rx_run fst].
    rewrite (receive_own s), (receive_own s2) by (done || by rewrite ?Hl, ?Hl2).
    pose proof (streaming_taken s now f Hs Hi1) as T. pose proof (streaming_taken s2 now f Hs2 Hi2) as T2.
    cbv zeta in *. set (clean := reac_frame_clean_len _) in *.
    set (u := upd_rx _ s) in *. set (u2 := upd_rx _ s2) in *.
    assert (Hu : heard u = heard u2) by (unfold heard in Hh |- *; subst u u2; destruct s as [[]], s2 as [[]]; exact Hh).
    pose proof (take_heard u u2 now f clean (reac_frame_counter f) Hu) as Ht.
    destruct (take_frame_eq u now f clean (reac_frame_counter f)) as (_ & E2 & _ & _ & E5 & _).
    pose proof (taken_kept (lp_have_counter u) (lp_last_counter u) (reac_frame_counter f) now f clean (lp_rx u)) as K.
    destruct (take_frame_eq u now f clean (reac_frame_counter f)) as (E1 & _). cbv zeta in *. rewrite <- E1 in K.
    pose proof (take_decoded u now f clean (reac_frame_counter f)) as V.
    destruct (take_frame u now f clean (reac_frame_counter f)) as [s' v].
    destruct (take_frame u2 now f clean (reac_frame_counter f)) as [s2' v2]. cbn [fst] in *.
    destruct (IH s' s2' T T2 Ht) as [IH1 IH2]; [|done|lia|].
    { destruct K as (K1 & K2 & K3 & _). destruct Hg as (G1 & G2 & G3). unfold same_gate. rewrite K1, K2, K3.
      by subst u; destruct s as [[]]. }
    unfold all_frames, own_frames in IH1, IH2. destruct (rx_run s' _) as [s'' vs], (rx_run s2' _) as [s2'' vs2].
    split; [exact IH1|]. cbn [fmap list_fmap snd fst] in *. by rewrite IH2, V.
  - pose proof (same_gate_stream _ _ f Hg) as Hi1. rewrite Hi in Hi1. subst last.
    pose proof (receive_behind s now f Hs Hi1 Ha ltac:(lia)) as R.
    unfold all_frames, own_frames. rewrite filter_cons_False by done. cbn [fmap list_fmap rx_run fst].
    destruct (rx_receive s now f) as [s' v]. destruct R as (R1 & R2 & R3 & R4).
    destruct (IH s' s2 R2 Hs2 ltac:(congruence)) as [IH1 IH2]; [|by unfold heard in R1; congruence|lia|].
    { by eapply same_gate_trans; [apply heard_gate|]. }
    unfold all_frames, own_frames in IH1, IH2. destruct (rx_run s' _) as [s'' vs]. split; [exact IH1|].
    cbn [fmap list_fmap snd fst] in *. rewrite IH2. f_equal. by destruct R4 as [-> | ->].
  - pose proof (same_gate_stream _ _ f Hg) as Hi1. rewrite Hi in Hi1.
    pose proof (receive_foreign s now f Hs Hi1) as R.
    unfold all_frames, own_frames. rewrite filter_cons_False by done. cbn [fmap list_fmap rx_run fst].
    destruct (rx_receive s now f) as [s' v]. destruct R as (R1 & R2 & R3 & R4).
    destruct (IH s' s2 R2 Hs2 ltac:(congruence)) as [IH1 IH2]; [|by unfold heard in R1; congruence|lia|].
    { by eapply same_gate_trans; [apply heard_gate|]. }
    unfold all_frames, own_frames in IH1, IH2. destruct (rx_run s' _) as [s'' vs]. split; [exact IH1|].
    cbn [fmap list_fmap snd fst] in *. rewrite IH2. f_equal. by destruct R4 as [-> | ->].
Qed.

(** *** Every state of a receiver *)

Inductive rx_op :=
| OFrame (now : Z) (frame : list Z) | OPeer (mac : list Z) (session : Z) | OEnd | ORewind
| OIface (now now_idx : Z) | ORead (channels n : Z).

Definition rx_step (s : rx_loop) (op : rx_op) : rx_loop :=
  match op with
  | OFrame now frame => (rx_receive s now frame).1
  | OPeer mac session => upd_rx (λ rx, reac_rx_peer_reset rx mac session) s
  | OEnd => upd_rx reac_rx_session_end s
  | ORewind => rx_rewind s
  | OIface now now_idx => (rx_check_iface s now now_idx).1
  | ORead channels n => upd_rx (λ rx, set_rx_ring (reac_ring_read_planar (rx_ring rx) channels n).1.1 rx) s
  end.

Inductive rx_reach : rx_loop → Prop :=
| rx_opened accept live present forced detected alloc_ok ifindex rx :
    reac_rx_open accept live present forced detected alloc_ok = Some rx → rx_reach (rx_loop_start ifindex rx)
| rx_stepped s op : rx_reach s → rx_reach (rx_step s op).

Lemma rx_ok_stream s now frame :
  rx_ok s → in_stream (lp_rx s) frame = true →
  rx_ok (rx_stream s now frame (reac_frame_clean_len (zlen frame))).1.
Proof.
  intros [Hp Hr] Hi. destruct (stream_clean _ _ Hi) as [_ Hk]. cbv zeta in Hk.
  set (clean := reac_frame_clean_len _) in *. clearbody clean. unfold rx_stream.
  destruct (is_twin _ _); [by destruct s as [[]]; split|].
  set (s1 := upd_rx (keep_frame (slice frame 0 clean)) s).
  assert (H1 : (rx_have_prev (lp_rx (new_peer s1 now)) = true →
      rx_prev_frame (lp_rx (new_peer s1 now)) = slice frame 0 clean) ∧ 0 ≤ lp_stale_run (new_peer s1 now) < 2 ^ 32).
  { subst s1. unfold new_peer. destruct s as [[]]. cbn in *. destruct (_ =? _); cbn; by split. }
  clearbody s1. set (s2 := new_peer s1 now) in *. clearbody s2. destruct H1 as [H1 H2].
  assert (Ht : ∀ s3, lp_rx s3 = lp_rx s2 → rx_ok (take_frame s3 now frame clean (reac_frame_counter frame)).1).
  { intros s3 E. destruct (take_frame_eq s3 now frame clean (reac_frame_counter frame)) as (E1 & E2 & _ & _ & E5 & _).
    destruct (taken_kept (lp_have_counter s3) (lp_last_counter s3) (reac_frame_counter frame) now frame clean (lp_rx s3))
      as (_ & _ & _ & _ & K5 & K6). rewrite <- E1, E in K5, K6.
    split; [|rewrite E5; done]. intros _ Hh. rewrite K6 in Hh. rewrite E2, K5, (H1 Hh), Hk. apply ahead_self. }
  unfold stale_step. destruct (lp_have_counter s2 && _) eqn:Ec; [|by apply Ht].
  apply andb_prop in Ec as [Ec1 Ec2%negb_true_iff]. set (run := if _ && _ then _ else _).
  assert (0 ≤ run < 2 ^ 32) by (subst run; unfold u32; destruct (_ && _); lia). clearbody run. cbv zeta.
  destruct (run <? REAC_RX_RESYNC_RUN); [|by apply Ht].
  destruct s2 as [[]]. cbn in *. destruct (_ && _); cbn; (split; cbn; [|done]); intros _ Hh; by rewrite (H1 Hh), Hk.
Qed.

(** A gate that lets a frame through keeps doing so, and moves nothing else. *)
Lemma gate_repeats rx frame len rx' :
  gate_accepts rx frame len = (rx', true) → (gate_accepts rx' frame len).2 = true.
Proof.
  unfold gate_accepts. destruct rx. cbn. destruct rx_accept0; cbn.
  - destruct (_ || _); [done|]. intros [= <- Hl]. exact Hl.
  - destruct (reac_upstream_channels len <? 0); [done|]. destruct rx_up_src_locked0; cbn.
    + intros [= <- Hl]. exact Hl.
    + destruct (zeqb (slice frame 0 6) _); [done|]. intros [= <-]. cbn. apply zeqb_refl.
Qed.
Lemma gate_guards s frame len :
  rx_ok s → rx_ok (set_lp_rx (gate_accepts (lp_rx s) frame len).1 s).
Proof.
  intros [Hp Hr]. split; [|done]. cbn. unfold gate_accepts. destruct s as [[]]. cbn in *.
  repeat match goal with |- context [match ?x with _ => _ end] => destruct x; cbn end; done.
Qed.

Lemma rx_ok_receive s now frame : rx_ok s → rx_ok (rx_receive s now frame).1.
Proof.
  intros H. unfold rx_receive. destruct (reac_frame_is_reac (Some frame) (zlen frame)) eqn:Er; [|done]. cbn [negb].
  pose proof (gate_guards s frame (reac_frame_clean_len (zlen frame)) H) as Hs.
  destruct (gate_accepts (lp_rx s) _ _) as [rx ok] eqn:Eg. cbn [fst] in Hs. destruct ok; cbn [negb].
  - apply rx_ok_stream; [done|]. unfold in_stream. rewrite Er. cbn [andb]. by apply (gate_repeats _ _ _ _ Eg).
  - destruct s as [[]], Hs. by split.
Qed.

Lemma rx_reach_ok s : rx_reach s → rx_ok s.
Proof.
  induction 1 as [accept live present forced detected alloc_ok ifindex rx Ho|s op _ IH]; [by split|].
  destruct op as [now f|mac session| | |now idx|ch n]; cbn [rx_step]; [by apply rx_ok_receive|..].
  - destruct s as [[]], IH. unfold upd_rx, reac_rx_peer_reset. cbn in *. split; cbn; [|done].
    by destruct (_ && _).
  - destruct s as [[]], IH. by split.
  - split; [done|]. by destruct s as [[]].
  - unfold rx_check_iface. destruct (_ <? _); [done|]. destruct (reac_rx_binding_lost _ _); destruct s as [[]], IH; by split.
  - destruct s as [[]], IH. by split.
Qed.

(** C4. A second sender behind the peer changes nothing that is heard. Once a peer
    is streaming, let any traffic come in between its frames: what the gate
    refuses, and, under the peer's own address, up to seven frames in a row whose
    counter is not ahead of the peer's last one, late copies or forgeries alike.
    Then every frame of the peer goes to the decoder and no other frame does, and the sample
    ring, the rate estimate, the pace alarm, the count of lost frames and the
    counter stand as if the peer had been alone on the wire. *)
Theorem spoofed_frames_unheard (s : rx_loop) (wire : list (Z * list Z * bool)) :
  rx_reach s → gate_settled (lp_rx s) = true → lp_have_counter s = true → lp_stale_run s = 0 →
  rx_peer_epoch (lp_rx s) = lp_seen_epoch s → spoofed (lp_rx s) (lp_last_counter s) 0 wire →
  heard (rx_run s (all_frames wire)).1 = heard (rx_run s (own_frames wire)).1 ∧
  is_decoded <$> (rx_run s (all_frames wire)).2 = snd <$> wire.
Proof.
  intros Hr Hg Hc Hz He Hw. assert (Hs : streaming s) by (split; [by apply rx_reach_ok|done..]).
  apply (spoofed_run (lp_rx s) (lp_last_counter s) 0); try done. lia.
Qed.

(** ** A peer that starts counting anew is followed *)

(** A refused frame of a run: what it leaves. *)
Lemma restart_step s now frame c :
  streaming s → in_stream (lp_rx s) frame = true → reac_frame_counter frame = u16 c →
  counter_ahead (lp_last_counter s) (u16 c) = false →
  is_twin (lp_rx s) (slice frame 0 (reac_frame_clean_len (zlen frame))) = false →
  (lp_stale_run s = 0 ∨ lp_stale_last s = u16 (c - 1)) → lp_stale_run s < REAC_RX_RESYNC_RUN - 1 →
  let '(s', v) := rx_receive s now frame in
  v = RxRefused ∧ heard s' = heard s ∧ streaming s' ∧ lp_stale_run s' = lp_stale_run s + 1 ∧
  lp_stale_last s' = u16 c ∧ reac_frame_counter (rx_prev_frame (lp_rx s')) = u16 c.
Proof.
  intros [[Hp Hr] Hg Hc He] Hi Hf Ha Ht Hrun Hk. rewrite receive_stream by done.
  destruct (stream_clean _ _ Hi) as [_ Hcl]. cbv zeta in Hcl. rewrite Hf in Hcl.
  set (clean := reac_frame_clean_len _) in *. unfold rx_stream. rewrite Ht.
  unfold new_peer. cbn. rewrite He, Z.eqb_refl. unfold stale_step. cbn. rewrite Hc, Hf, Ha. cbn.
  assert (Hn : (if negb (lp_stale_run s =? 0) && (u16 c =? u16 (lp_stale_last s + 1))
                then u32 (lp_stale_run s + 1) else 1) = lp_stale_run s + 1).
  { unfold REAC_RX_RESYNC_RUN in Hk. destruct (Z.eqb_spec (lp_stale_run s) 0) as [->|Hne]; [done|].
    destruct Hrun as [Hrun| ->]; [done|]. replace (u16 (u16 (c - 1) + 1)) with (u16 c) by (unfold u16; lia).
    rewrite Z.eqb_refl. cbn [negb andb]. unfold u32. rewrite Z.mod_small; lia. }
  rewrite Hn. unfold REAC_RX_RESYNC_RUN in *. replace (lp_stale_run s + 1 <? 8) with true by lia.
  destruct s as [[]]. cbn in *. destruct ((_ =? _) && negb _); cbn; split_and!; try done;
    (split; cbn; [split; cbn; [by rewrite Hcl|lia]|done..]).
Qed.

(** The frame that completes the run is taken, and its jump is not a gap. *)
Lemma restart_taken s now frame c :
  streaming s → in_stream (lp_rx s) frame = true → reac_frame_counter frame = u16 c →
  counter_ahead (lp_last_counter s) (u16 c) = false →
  is_twin (lp_rx s) (slice frame 0 (reac_frame_clean_len (zlen frame))) = false →
  lp_stale_last s = u16 (c - 1) → lp_stale_run s = REAC_RX_RESYNC_RUN - 1 →
  let '(s', v) := rx_receive s now frame in
  is_decoded v = true ∧ lp_last_counter s' = u16 c ∧ lp_have_counter s' = true ∧ lp_stale_run s' = 0 ∧
  rx_counter_gaps (lp_rx s') = rx_counter_gaps (lp_rx s).
Proof.
  intros [[Hp Hr] Hg Hc He] Hi Hf Ha Ht Hl Hk. rewrite receive_stream by done.
  set (clean := reac_frame_clean_len _) in *. unfold rx_stream. rewrite Ht.
  unfold new_peer. cbn. rewrite He, Z.eqb_refl. unfold stale_step. cbn. rewrite Hc, Hf, Ha, Hk, Hl. cbn.
  replace (u16 (u16 (c - 1) + 1)) with (u16 c) by (unfold u16; lia). rewrite Z.eqb_refl.
  change (if negb (REAC_RX_RESYNC_RUN - 1 =? 0) && true then u32 (REAC_RX_RESYNC_RUN - 1 + 1) else 1)
    with REAC_RX_RESYNC_RUN. rewrite Z.ltb_irrefl. cbv iota.
  set (s1 := set_lp_have_counter false _).
  destruct (take_frame_eq s1 now frame clean (u16 c)) as (E1 & E2 & E3 & _ & E5 & _).
  pose proof (taken_gaps (lp_last_counter s1) (u16 c) now frame clean (lp_rx s1)) as G.
  pose proof (take_decoded s1 now frame clean (u16 c)) as V. change (lp_have_counter s1) with false in E1.
  rewrite <- E1 in G. destruct (take_frame s1 now frame clean (u16 c)) as [s' v]. cbn [fst snd] in *.
  split_and!; [done..|]. rewrite G. by destruct s as [[]].
Qed.

(** Frames of the stream that count on from [c], one reading of the clock each. *)
Inductive counting (rx : reac_rx) (last : Z) : Z → list (Z * list Z) → Prop :=
| counting_end c : counting rx last c []
| counting_next c now frame l : in_stream rx frame = true → reac_frame_counter frame = u16 c →
    counter_ahead last (u16 c) = false → counting rx last (c + 1) l → counting rx last c ((now, frame) :: l).

Lemma counting_gate rx rx' last c l : same_gate rx rx' → counting rx' last c l → counting rx last c l.
Proof.
  intros Hg. induction 1 as [|c now f l Hi Hf Ha _ IH]; constructor; try done.
  by rewrite (same_gate_stream _ _ f Hg).
Qed.

(** A frame whose counter is not the remembered one's is no twin of it. *)
Lemma no_twin rx frame :
  in_stream rx frame = true → reac_frame_counter (rx_prev_frame rx) ≠ reac_frame_counter frame →
  is_twin rx (slice frame 0 (reac_frame_clean_len (zlen frame))) = false.
Proof.
  intros Hi Hne. destruct (stream_clean _ _ Hi) as [_ Hcl]. cbv zeta in Hcl. unfold is_twin.
  destruct (rx_have_prev rx); [|done]. cbn [andb]. apply zeqb_neq. intros E. rewrite E in Hcl. congruence.
Qed.

Lemma restart_run s c l now frame :
  streaming s → counting (lp_rx s) (lp_last_counter s) c (l ++ [(now, frame)]) →
  (lp_stale_run s = 0 ∧ (∀ t f, head (l ++ [(now, frame)]) = Some (t, f) →
     is_twin (lp_rx s) (slice f 0 (reac_frame_clean_len (zlen f))) = false)
   ∨ lp_stale_last s = u16 (c - 1) ∧ reac_frame_counter (rx_prev_frame (lp_rx s)) = u16 (c - 1)) →
  0 ≤ lp_stale_run s → lp_stale_run s + zlen l = REAC_RX_RESYNC_RUN - 1 →
  let '(s1, vs) := rx_run s l in
  let '(s2, v) := rx_receive s1 now frame in
  heard s1 = heard s ∧ vs = replicate (length l) RxRefused ∧ is_decoded v = true ∧
  lp_last_counter s2 = u16 (c + zlen l) ∧ lp_have_counter s2 = true ∧ lp_stale_run s2 = 0 ∧
  rx_counter_gaps (lp_rx s2) = rx_counter_gaps (lp_rx s).
Proof.
  revert s c. induction l as [|[t f] l IH]; intros s c Hs Hc Hm H0 Hz.
  - cbn [app rx_run] in *. change (zlen (@nil (Z * list Z))) with 0 in *. inversion Hc as [|? ? ? ? Hi Hf Ha _]; subst.
    rewrite Z.add_0_r in *. destruct Hm as [[Hm _]|[Hm1 Hm2]]; [unfold REAC_RX_RESYNC_RUN in Hz; lia|].
    pose proof (restart_taken s now frame c Hs Hi Hf Ha) as R.
    destruct (rx_receive s now frame) as [s2 v]. destruct R as (R1 & R2 & R3 & R4 & R5); [|done|done|by split_and!].
    apply no_twin; [done|]. rewrite Hm2, Hf. unfold u16. lia.
  - rewrite zlen_cons in *. cbn [app] in Hc. inversion Hc as [|? ? ? ? Hi Hf Ha Hc']; subst.
    pose proof (restart_step s t f c Hs Hi Hf Ha) as R. cbn [rx_run].
    destruct (rx_receive s t f) as [s1 v1]. pose proof (zlen_nonneg l).
    destruct R as (-> & R2 & R3 & R4 & R5 & R6); [| |lia|].
    { destruct Hm as [[_ Hm]|[_ Hm]]; [by apply (Hm t f)|]. apply no_twin; [done|]. rewrite Hm, Hf. unfold u16. lia. }
    { destruct Hm as [[Hm _]|[Hm _]]; auto. }
    assert (Hc1 : counting (lp_rx s1) (lp_last_counter s1) (c + 1) (l ++ [(now, frame)])).
    { unfold heard in R2. assert (lp_last_counter s1 = lp_last_counter s) as -> by congruence.
      by apply (counting_gate _ (lp_rx s)); [apply heard_gate|]. }
    specialize (IH s1 (c + 1) R3 Hc1). destruct (rx_run s1 l) as [s2 vs].
    destruct (rx_receive s2 now frame) as [s3 v].
    destruct IH as (I1 & -> & I3 & I4 & I5 & I6 & I7); [|lia|lia|].
    { right. by replace (c + 1 - 1) with c by lia. }
    split_and!; [by rewrite I1|done|done| |done|done|].
    + rewrite I4. f_equal. lia.
    + rewrite I7. unfold heard, heard_rx in R2. congruence.
Qed.

(** C21. A peer that restarts its counter is followed, within eight frames. However
    far back the new counter starts, the first seven frames that continue each
    other are refused and change nothing that is heard; the eighth goes to the decoder, the
    receiver counts on from it, and the jump is not booked as lost frames. *)
Theorem restart_followed (s : rx_loop) (c now : Z) (l : list (Z * list Z)) (frame : list Z) :
  rx_reach s → gate_settled (lp_rx s) = true → lp_have_counter s = true → lp_stale_run s = 0 →
  rx_peer_epoch (lp_rx s) = lp_seen_epoch s → zlen l = REAC_RX_RESYNC_RUN - 1 →
  counting (lp_rx s) (lp_last_counter s) c (l ++ [(now, frame)]) →
  (∀ t f, head l = Some (t, f) → is_twin (lp_rx s) (slice f 0 (reac_frame_clean_len (zlen f))) = false) →
  let '(s1, vs) := rx_run s l in
  let '(s2, v) := rx_receive s1 now frame in
  heard s1 = heard s ∧ vs = replicate 7 RxRefused ∧ is_decoded v = true ∧
  lp_last_counter s2 = u16 (c + 7) ∧ lp_have_counter s2 = true ∧
  rx_counter_gaps (lp_rx s2) = rx_counter_gaps (lp_rx s).
Proof.
  intros Hr Hg Hc Hz He Hl Hco Ht. assert (Hs : streaming s) by (split; [by apply rx_reach_ok|done..]).
  pose proof (restart_run s c l now frame Hs Hco) as R. destruct (rx_run s l) as [s1 vs].
  destruct (rx_receive s1 now frame) as [s2 v].
  destruct R as (R1 & R2 & R3 & R4 & R5 & _ & R7); [|lia|lia|].
  { left. split; [done|]. intros t f Hh. apply (Ht t). by destruct l. }
  assert (length l = 7%nat) as Hlen by (unfold zlen, REAC_RX_RESYNC_RUN in Hl; lia). rewrite Hlen in R2.
  rewrite Hl in R4. by split_and!.
Qed.

(** ** A small segment *)

Definition demo_peer : list Z := [0; 0x40; 0xab; 0xc4; 0x80; 0xf6].
Definition demo_ours (counter : Z) : list Z :=
  default [] (reac_ctrl_build_upstream_filler [0; 0x40; 0xab; 1; 2; 3] demo_peer counter 2 [] 12).
Definition demo_ring : reac_ring := Ring (replicate 40 (silence 32)) 32 31 40 0 0 0 0 0.
Definition demo_rx : reac_rx :=
  ReacRx REAC_RX_ACCEPT_UPSTREAM demo_ring 96 (reac_pace_watch_init 96) 0 false 0 0 0 0 0 false (zeros 6) false 0 0
    [] false 0 0 0 0 0.
(** The master named its box, which sent the frame numbered 9. *)
Definition demo_stream : rx_loop :=
  rx_step (rx_step (rx_loop_start 3 demo_rx) (OPeer demo_peer 1)) (OFrame 1000000 (demo_ours 9)).

Lemma demo_stream_reach : rx_reach demo_stream.
Proof. do 2 apply rx_stepped. apply (rx_opened REAC_RX_ACCEPT_UPSTREAM true true 96 0 true 3). vm_compute. reflexivity. Qed.

Lemma demo_stream_settled :
  gate_settled (lp_rx demo_stream) = true ∧ lp_have_counter demo_stream = true ∧ lp_stale_run demo_stream = 0 ∧
  rx_peer_epoch (lp_rx demo_stream) = lp_seen_epoch demo_stream ∧ lp_last_counter demo_stream = 9.
Proof. vm_compute. by split_and!. Qed.

(** A late copy, a forged frame two behind, the next frame, its echo, a frame of
    another box, and the next. *)
Definition demo_wire : list (Z * list Z * bool) :=
  [(1100000, demo_ours 9, false); (1150000, demo_ours 7, false); (1250000, demo_ours 10, true);
   (1300000, demo_ours 10, false); (1400000, blit (demo_ours 500) 6 [0; 0x40; 0xab; 9; 9; 9], false);
   (1500000, demo_ours 11, true)].

Lemma spoofed_frames_unheard_witness :
  is_decoded <$> (rx_run demo_stream (all_frames demo_wire)).2 = [false; false; true; false; false; true] ∧
  rx_counter_gaps (lp_rx (rx_run demo_stream (all_frames demo_wire)).1) =
  rx_counter_gaps (lp_rx (rx_run demo_stream (own_frames demo_wire)).1).
Proof.
  destruct demo_stream_settled as (H1 & H2 & H3 & H4 & H5).
  destruct (spoofed_frames_unheard demo_stream demo_wire demo_stream_reach H1 H2 H3 H4) as [Hh Hv].
  - rewrite H5. unfold demo_wire.
    apply sp_behind; [vm_compute; reflexivity|vm_compute; reflexivity|reflexivity|].
    apply sp_behind; [vm_compute; reflexivity|vm_compute; reflexivity|reflexivity|].
    apply sp_own; [vm_compute; reflexivity|vm_compute; reflexivity|].
    apply sp_behind; [vm_compute; reflexivity|vm_compute; reflexivity|reflexivity|].
    apply sp_foreign; [vm_compute; reflexivity|].
    apply sp_own; [vm_compute; reflexivity|vm_compute; reflexivity|]. apply sp_end.
  - split; [exact Hv|]. unfold heard, heard_rx in Hh. congruence.
Defined.

(** The box lost power and counts from 2. *)
Definition demo_restart : list (Z * list Z) :=
  (λ i, (2000000 + 250000 * i, demo_ours (2 + i))) <$> zseq 0 7.

Lemma restart_followed_witness :
  let s1 := (rx_run demo_stream demo_restart).1 in
  is_decoded (rx_receive s1 3750000 (demo_ours 9)).2 = true ∧
  lp_last_counter (rx_receive s1 3750000 (demo_ours 9)).1 = 9.
Proof.
  destruct demo_stream_settled as (H1 & H2 & H3 & H4 & H5).
  pose proof (restart_followed demo_stream 2 3750000 demo_restart (demo_ours 9) demo_stream_reach H1 H2 H3 H4 eq_refl) as R.
  destruct (rx_run demo_stream demo_restart) as [s1 vs]. destruct (rx_receive s1 3750000 (demo_ours 9)) as [s2 v] eqn:E.
  cbv zeta. cbn [fst]. rewrite E. destruct R as (_ & _ & R3 & R4 & _).
  - rewrite H5. unfold demo_restart. cbn [zseq seqZ].
    repeat (apply counting_next; [vm_compute; reflexivity|vm_compute; reflexivity|vm_compute; reflexivity|]). apply counting_end.
  - intros t f [= <- <-]. vm_compute. reflexivity.
  - split; [exact R3|]. cbn [fst]. rewrite R4. reflexivity.
Defined.

(** *** Two flaws of the seams *)

(** At a change of peer the duplicate guard has just remembered the new peer's
    first frame when the reset forgets it: the echo of that frame is then read as
    a second sender, although the two are the same byte for byte. *)
Lemma seam_echo_misread :
  let s := rx_step demo_stream OEnd in
  let '(s1, v1) := rx_receive s 2000000 (demo_ours 40) in
  let '(s2, v2) := rx_receive s1 2010000 (demo_ours 40) in
  is_decoded v1 = true ∧ v2 = RxRefused ∧ lp_conflict_said s2 = true ∧
  rx_frames_dup (lp_rx s2) = rx_frames_dup (lp_rx s1).
Proof. vm_compute. by split_and!. Qed.

(** A followed restart is not a gap, but its jump, half the counter space or more,
    goes into the window of the rate estimate, whose published value then exceeds
    an [int]. *)
Lemma restart_jumps_slope rx counter now :
  counter_ahead (rx_ppm_last_counter rx) counter = false → rx_ppm_have_last rx = true →
  0 ≤ rx_ppm_win_frames rx < 2 ^ 31 →
  rx_ppm_win_frames rx + 0x8001 ≤ rx_ppm_win_frames (ppm_advance rx counter now).
Proof.
  unfold counter_ahead, ppm_advance. intros Ha -> Hw. cbn. pose proof (counter_gap_range (rx_ppm_last_counter rx) counter).
  unfold u32. rewrite Z.mod_small; lia.
Qed.
Example restart_estimate : ppm_estimate (1000 + 0x8001) 250000000 48000 = 32769000000.
Proof. vm_compute. reflexivity. Qed.
