(* ===== verification/RxAudio.v ===== *)
(** * RxAudio: what a box plays is what the graph reads

    The path of a sample from end to end, composed of its parts: the quantum a
    box hands to its upstream builder ([reac_ctrl_build_upstream_filler]), the
    braid and the 24-bit format on the wire, the gate and the order of the counter
    at the receiver ([Rx]), the decoder, and the sample ring the graph reads
    ([Ring]). *)

From S2P Require Import Prelude Wire Sample Codec CtrlBlk CtrlFrames Ring Watch Rx.
From Stdlib Require Import SpecFloat.
Local Open Scope Z_scope.

(** ** Blocks of equal length *)

Lemma bind_lookup {B} (g : Z → list B) m a n c i :
  (∀ x, length (g x) = Z.to_nat m) → 0 ≤ c < n → 0 ≤ i < m →
  (zseq a n ≫= g) !! Z.to_nat (c * m + i) = g (a + c) !! Z.to_nat i.
Proof.
  intros Hl Hc Hi. unfold zseq, seqZ. remember (Z.to_nat n) as k eqn:Ek.
  revert a n c Ek Hc. induction k as [|k IH]; intros a n c Ek Hc; [lia|].
  cbn [seq fmap list_fmap mbind list_bind]. rewrite Z.add_0_l. destruct (Z.eq_dec c 0) as [->|Hne].
  - rewrite lookup_app_l by (rewrite Hl; lia). by rewrite Z.add_0_r, Z.mul_0_l.
  - rewrite lookup_app_r by (rewrite Hl; nia). rewrite Hl.
    replace (Z.to_nat (c * m + i) - Z.to_nat m)%nat with (Z.to_nat ((c - 1) * m + i)) by nia.
    rewrite <- fmap_S_seq, <- list_fmap_compose.
    specialize (IH (a + 1) (n - 1) (c - 1) ltac:(lia) ltac:(lia)).
    replace (a + 1 + (c - 1)) with (a + c) in IH by lia. rewrite <- IH. f_equal. f_equal.
    apply list_fmap_ext. intros j x Hx. simpl. lia.
Qed.

Lemma length_zseq_fmap {B} (g : Z → B) n : length (g <$> zseq 0 n) = Z.to_nat n.
Proof. by rewrite length_fmap, length_seqZ. Qed.

(** ** The sample that is heard *)

(** Sample [s] of channel [c] after the 24-bit wire; silence past the quantum. *)
Definition wire_bytes (planar : planes) (n ns c s : Z) : list Z :=
  if s <? ns then reac_f32_to_s24le (plane_at planar n c s) else [0; 0; 0].
Definition heard_sample (planar : planes) (n ns c s : Z) : f32 := reac_s24le_to_f32 (wire_bytes planar n ns c s).

Lemma planar_bytes_at planar n ns c s :
  0 ≤ c < n → 0 ≤ s < 12 →
  slice (planar_bytes planar n n ns) ((c * 12 + s) * 3) 3 = wire_bytes planar n ns c s.
Proof.
  intros Hc Hs.
  assert (Hw : ∀ c s, length (wire_bytes planar n ns c s) = Z.to_nat 3)
    by (intros; unfold wire_bytes; by destruct (_ <? _)).
  assert (Hin : ∀ c, length (zseq 0 12 ≫= wire_bytes planar n ns c) = Z.to_nat 36).
  { intros x. change (zseq 0 12) with [0; 1; 2; 3; 4; 5; 6; 7; 8; 9; 10; 11].
    cbn [mbind list_bind]. rewrite !length_app, !Hw. done. }
  assert (Hat : ∀ i, 0 ≤ i < 3 → planar_bytes planar n n ns !! Z.to_nat ((c * 12 + s) * 3 + i)
    = wire_bytes planar n ns c s !! Z.to_nat i).
  { intros i Hi. replace ((c * 12 + s) * 3 + i) with (c * 36 + (s * 3 + i)) by lia.
    change (planar_bytes planar n n ns) with (zseq 0 n ≫= λ ch, zseq 0 12 ≫= wire_bytes planar n ns ch).
    rewrite bind_lookup by (done || lia). by rewrite bind_lookup by (done || lia). }
  unfold slice. apply list_eq. intros i. destruct (decide (i < 3)%nat) as [Hi|Hi].
  - rewrite lookup_take_lt, lookup_drop by lia. specialize (Hat (Z.of_nat i) ltac:(lia)).
    rewrite Nat2Z.id in Hat. rewrite <- Hat. f_equal. lia.
  - rewrite lookup_take_ge by lia. symmetry. apply lookup_ge_None. rewrite Hw. lia.
Qed.

(** The floats handed to the ring, channel by channel. *)
Lemma planar_floats_row planar n ns c w :
  0 ≤ c < n → 0 ≤ w ≤ 12 →
  source_row (planar_floats (planar_bytes planar n n ns) n 12) 12 c w = heard_sample planar n ns c <$> zseq 0 w.
Proof.
  intros Hc Hw. unfold source_row. apply list_fmap_ext. intros i s Hs.
  apply lookup_seqZ in Hs as [-> Hs]. rewrite Z.add_0_l in *. unfold planar_floats.
  rewrite bind_lookup; [|intros; apply length_zseq_fmap|lia|lia].
  rewrite list_lookup_fmap. unfold zseq. rewrite lookup_seqZ_lt by lia. cbn [fmap option_fmap option_map from_option id].
  unfold heard_sample. f_equal. rewrite Z2Nat.id, !Z.add_0_l by lia. apply planar_bytes_at; lia.
Qed.

(** ** From the box to the ring *)

(** The upstream frame of a box is of the stream of the receiver bound to it. *)
Lemma upstream_in_stream rx master src counter n planar ns frame :
  zlen master = 6 → zlen src = 6 →
  reac_ctrl_build_upstream_filler master src counter n planar ns = Some frame →
  rx_accept rx = REAC_RX_ACCEPT_UPSTREAM → rx_up_src_locked rx = true → rx_up_src rx = src →
  in_stream rx frame = true ∧ reac_frame_counter frame = u16 counter ∧
  reac_frame_clean_len (zlen frame) = zlen frame ∧ reac_upstream_channels (zlen frame) = n ∧
  reac_upstream_decode frame (zlen frame) = Some (12, planar_bytes planar n n ns) ∧ 2 ≤ n ≤ 40.
Proof.
  intros Hm Hs Hf Ha Hl Hu. pose proof (upstream_filler_roundtrip master src counter n planar ns Hm Hs) as R.
  rewrite Hf in R. destruct R as (Hn & Hz & Hd & Hp).
  pose proof (proj1 (box_width_ok_iff n) Hn) as Hw.
  assert (Hz' : zlen frame = 52 + 36 * n) by (rewrite Hz; unfold frame_len, REAC_UPSTREAM_OVERHEAD, REAC_UPSTREAM_BYTES_PER_CH; lia).
  assert (Hc : reac_upstream_channels (zlen frame) = n) by (rewrite Hz'; by apply upstream_channels_of).
  assert (Hcl : reac_frame_clean_len (zlen frame) = zlen frame).
  { unfold reac_frame_clean_len, REAC_UPSTREAM_OVERHEAD, REAC_UPSTREAM_BYTES_PER_CH. rewrite Hz'.
    replace ((52 + 36 * n - 52) mod 36) with 0 by lia. by rewrite andb_false_r. }
  assert (Hty : frame.[12] = 0x88 ∧ frame.[13] = 0x19).
  { revert Hd. unfold reac_upstream_decode. rewrite Hc. replace (n <? 0) with false by lia.
    destruct (Z.eqb_spec frame.[12] 0x88), (Z.eqb_spec frame.[13] 0x19); done. }
  assert (Hfr : slice frame 6 6 = src ∧ reac_frame_counter frame = u16 counter).
  { destruct Hp as (_ & Hp1 & _ & Hp2). unfold reac_ctrl_parse in Hp1, Hp2. destruct Hty as [E1 E2].
    rewrite E1, E2 in Hp1, Hp2. unfold AUDIO_OFF in *. replace (zlen frame <? 50) with false in Hp1, Hp2 by lia.
    cbn [orb negb Z.eqb Pos.eqb] in Hp1, Hp2. cbv zeta in Hp1, Hp2. split.
    - revert Hp1. repeat (case_match; cbn [p_src]; try done).
    - unfold reac_frame_counter. revert Hp2. repeat (case_match; cbn [p_counter]; try done). }
  split_and!; try done; try lia. unfold in_stream, reac_frame_is_reac, gate_accepts.
  destruct Hty as [-> ->]. replace (zlen frame <? 14) with false by lia. rewrite Hcl, Ha, Hc, Hl.
  replace (n <? 0) with false by lia. cbn [negb andb Z.eqb Pos.eqb snd]. rewrite Hu. destruct Hfr as [-> _].
  apply zeqb_refl.
Qed.

(** What an accepted upstream frame does to the ring. *)
Lemma taken_ring have last counter now frame rx n s24 :
  rx_accept rx = REAC_RX_ACCEPT_UPSTREAM → reac_upstream_channels (zlen frame) = n → 2 ≤ n ≤ 40 →
  reac_upstream_decode frame (zlen frame) = Some (12, s24) →
  let rx' := taken_rx have last counter now frame (zlen frame) rx in
  rx_ring rx' = (reac_ring_write (rx_ring rx) (planar_floats s24 n 12) 12 n).1 ∧
  rx_frames_ok rx' = u64 (rx_frames_ok rx + 1).
Proof.
  intros Ha Hn Hr Hd. unfold taken_rx. cbv zeta. set (g := update_ppm _ _ _).
  assert (Hg : rx_ring g = rx_ring rx ∧ rx_accept g = rx_accept rx ∧ rx_frames_ok g = rx_frames_ok rx).
  { subst g. unfold gap_counted. destruct rx. unfold update_ppm, ppm_advance.
    destruct have; cbn; destruct rx_ppm_have_last; cbn; by destruct (_ <? 250000000). }
  clearbody g. destruct Hg as (<- & Hg & <-). rewrite Ha in Hg. unfold feed_frame, rx_decode.
  rewrite Hg, Hn, Hd. replace (0 <? n) with true by lia. change (REAC_SAMPLES_PER_PKT <? 12) with false.
  unfold REAC_MAX_CHANNELS. replace (40 <? n) with false by lia. by destruct g.
Qed.

(** C5. What a box plays is what the graph will read. For every legal box width,
    every quantum and every plane, the upstream frame the box builds is, at the
    receiver bound to that box and for any counter in sequence, decoded, and the
    ring then holds behind what it held, channel by channel, each sample rounded to
    the 24 bits of the wire and nothing else, silence past a short quantum, as many
    of the twelve as fit; every channel beyond the width of the box is silent. *)
Theorem box_audio_reaches_graph (s : rx_loop) (k : Z) (q : queues) (now : Z)
    (master src : list Z) (counter n : Z) (planar : planes) (ns : Z) (frame : list Z) :
  rx_reach s → rx_accept (lp_rx s) = REAC_RX_ACCEPT_UPSTREAM → rx_up_src_locked (lp_rx s) = true →
  rx_up_src (lp_rx s) = src → lp_have_counter s = true → rx_peer_epoch (lp_rx s) = lp_seen_epoch s →
  zlen master = 6 → zlen src = 6 →
  reac_ctrl_build_upstream_filler master src counter n planar ns = Some frame →
  counter_ahead (lp_last_counter s) (u16 counter) = true → ring_refines k 40 (rx_ring (lp_rx s)) q →
  let '(s', v) := rx_receive s now frame in
  let w := Z.min 12 (2 ^ k - 1 - q_len q) in
  is_decoded v = true ∧ rx_frames_ok (lp_rx s') = u64 (rx_frames_ok (lp_rx s) + 1) ∧
  ∃ q', ring_refines k 40 (rx_ring (lp_rx s')) q' ∧ q_len q' = q_len q + w ∧
    ∀ c l, q_rows q !! c = Some l →
      q_rows q' !! c = Some (if Z.of_nat c <? n then l ++ (heard_sample planar n ns (Z.of_nat c) <$> zseq 0 w)
                             else silence (q_len q + w)).
Proof.
  intros Hr Ha Hl Hu Hc He Hm Hs Hf Hah HR.
  destruct (upstream_in_stream _ _ _ _ _ _ _ _ Hm Hs Hf Ha Hl Hu) as (Hi & Hk & Hcl & Hn & Hd & Hb).
  assert (Hst : streaming s) by (split; [by apply rx_reach_ok|unfold gate_settled; by rewrite Hl|done..]).
  rewrite <- Hk in Hah. rewrite (receive_own s now frame Hst Hi Hah). cbv zeta. rewrite Hcl.
  set (u := upd_rx _ s).
  assert (Hur : rx_ring (lp_rx u) = rx_ring (lp_rx s) ∧ rx_accept (lp_rx u) = REAC_RX_ACCEPT_UPSTREAM ∧
    rx_frames_ok (lp_rx u) = rx_frames_ok (lp_rx s)) by (subst u; by destruct s as [[]]).
  destruct Hur as (Er & Eu & Ek).
  destruct (take_frame_eq u now frame (zlen frame) (reac_frame_counter frame)) as (E & _).
  pose proof (take_decoded u now frame (zlen frame) (reac_frame_counter frame)) as V.
  destruct (taken_ring (lp_have_counter u) (lp_last_counter u) (reac_frame_counter frame) now frame (lp_rx u) n
    (planar_bytes planar n n ns) Eu Hn Hb Hd) as [T1 T2].
  rewrite <- E in T1, T2. destruct (take_frame u _ _ _ _) as [s' v]. cbn [fst snd] in *.
  split; [done|]. split; [by rewrite T2, Ek|]. rewrite Er in T1.
  pose proof (refines_write k 40 _ q (planar_floats (planar_bytes planar n n ns) n 12) 12 n HR
    ltac:(lia) ltac:(lia)) as W.
  destruct (reac_ring_write _ _ _ _) as [r' w']. cbn [fst] in T1. subst r'. unfold spec_write in W.
  destruct W as [_ W]. eexists. split; [exact W|]. cbn [q_len q_rows]. split; [done|].
  intros c l Hq. rewrite list_lookup_imap, Hq. cbn [fmap option_fmap option_map]. f_equal.
  destruct (Z.ltb_spec (Z.of_nat c) n) as [Hcn|]; [|done]. f_equal. apply planar_floats_row; [lia|].
  destruct HR. lia.
Qed.

(** A box of two channels sends a half and a quarter. *)
Definition demo_planes : planes :=
  [Some [S754_finite false 8388608 (-24)]; Some [S754_finite false 8388608 (-25)]].
Definition demo_frame : list Z :=
  default [] (reac_ctrl_build_upstream_filler [0; 0x40; 0xab; 1; 2; 3] demo_peer 10 2 demo_planes 1).

Lemma demo_ring_refines : ∃ q, ring_refines 5 40 (rx_ring (lp_rx demo_stream)) q ∧ q_len q = 12.
Proof.
  destruct (ring_refines_init 40 24) as (k & r & Hr & Hk & _ & HR); [lia|lia|].
  change (next_pow2 24) with (2 ^ 5) in Hk. apply Z.pow_inj_r in Hk; [|lia|lia|destruct HR; lia]. subst k.
  assert (r = demo_ring) as -> by (vm_compute in Hr; injection Hr as <-; by vm_compute).
  pose proof (refines_write 5 40 demo_ring _ (planar_floats (zeros 72) 2 12) 12 2 HR ltac:(lia) ltac:(lia)) as W.
  assert (Er : rx_ring (lp_rx demo_stream) = (reac_ring_write demo_ring (planar_floats (zeros 72) 2 12) 12 2).1)
    by (vm_compute; reflexivity).
  rewrite Er. unfold spec_write in W. destruct (reac_ring_write _ _ _ _) as [r' w']. destruct W as [_ W].
  eexists. split; [exact W|reflexivity].
Qed.

Lemma box_audio_reaches_graph_witness :
  ∃ q', ring_refines 5 40 (rx_ring (lp_rx (rx_receive demo_stream 1250000 demo_frame).1)) q' ∧ q_len q' = 24 ∧
    (rx_ring (lp_rx (rx_receive demo_stream 1250000 demo_frame).1)).(r_overruns) = 0.
Proof.
  destruct demo_ring_refines as (q & HR & Hq). destruct demo_stream_settled as (_ & H2 & _ & H4 & H5).
  pose proof (box_audio_reaches_graph demo_stream 5 q 1250000 [0; 0x40; 0xab; 1; 2; 3] demo_peer 10 2 demo_planes 1
    demo_frame demo_stream_reach eq_refl eq_refl eq_refl H2 H4 eq_refl eq_refl eq_refl
    ltac:(rewrite H5; reflexivity) HR) as T.
  assert (Ho : r_overruns (rx_ring (lp_rx (rx_receive demo_stream 1250000 demo_frame).1)) = 0) by (vm_compute; reflexivity).
  destruct (rx_receive demo_stream 1250000 demo_frame) as [s' v]. destruct T as (_ & _ & q' & T1 & T2 & _).
  exists q'. split; [exact T1|]. split; [rewrite T2, Hq; reflexivity|exact Ho].
Defined.
