(* ===== verification/EventRing.v ===== *)
(** * EventRing: verbs queued for a caller, and the books they keep in step

    Two tables of the transport ([IfScan], [Topo]) tell their caller what to do
    through a bounded ring of events ([emit] and [reac_ifscan_next] of
    [transport/src/reac_ifscan.c], [emit] and [reac_topo_next] of
    [transport/src/reac_topo.c]): one structure over what an event holds. The
    caller owns the sockets or netdevs and works the events off in order; what it
    holds for each key is a partial map, and a [Protocol] says what an event does
    to a holding and which holdings it is legal on. [tracks] is the simulation
    between the two sides: working off what is queued takes the caller to what
    the table says. *)
From stdpp Require Import gmap list.
From S2P Require Import Prelude.

Section ring.
Context {A : Type}.

Record evring := EvRing { er_ev : list A; er_head : Z; er_tail : Z; er_dropped : Z }.

Definition ring_init `{Inhabited A} (cap : Z) : evring :=
  EvRing (replicate (Z.to_nat cap) inhabitant) 0 0 0.

Definition emit (q : evring) (x : A) : evring :=
  let next := (er_tail q + 1) mod zlen (er_ev q) in
  if next =? er_head q then EvRing (er_ev q) (er_head q) (er_tail q) (u64 (er_dropped q + 1))
  else EvRing (<[Z.to_nat (er_tail q) := x]> (er_ev q)) (er_head q) next (er_dropped q).

Definition next_event (q : evring) : option (A * evring) :=
  if er_head q =? er_tail q then None
  else
    x ← er_ev q !! Z.to_nat (er_head q);
    Some (x, EvRing (er_ev q) ((er_head q + 1) mod zlen (er_ev q)) (er_tail q) (er_dropped q)).

(** [l] is what is queued, oldest first. *)
Record queued_as (q : evring) (l : list A) : Prop := {
  qu_head : 0 ≤ er_head q < zlen (er_ev q);
  qu_room : zlen l < zlen (er_ev q);
  qu_tail : er_tail q = (er_head q + zlen l) mod zlen (er_ev q);
  qu_slot : ∀ i x, l !! i = Some x →
    er_ev q !! Z.to_nat ((er_head q + Z.of_nat i) mod zlen (er_ev q)) = Some x
}.

Lemma mod_range a n : 0 < n → 0 ≤ a mod n < n.
Proof. intros. by apply Z.mod_pos_bound. Qed.

(** Offsets below the size of the ring are different slots. *)
Lemma slot_neq h i j n :
  0 < n → 0 ≤ i < n → 0 ≤ j < n → i ≠ j → Z.to_nat ((h + i) mod n) ≠ Z.to_nat ((h + j) mod n).
Proof.
  intros Hn Hi Hj Hne He. pose proof (mod_range (h + i) n Hn). pose proof (mod_range (h + j) n Hn).
  assert ((h + i) mod n = (h + j) mod n) as E by lia.
  pose proof (Z.div_mod (h + i) n ltac:(lia)). pose proof (Z.div_mod (h + j) n ltac:(lia)).
  set (d := (h + i) / n - (h + j) / n). assert (i - j = n * d) by (unfold d; lia).
  assert (d ≤ -1 ∨ d = 0 ∨ 1 ≤ d) as [?|[?|?]] by lia; [nia|lia|nia].
Qed.

Lemma queues_init `{Inhabited A} cap : 0 < cap → queued_as (ring_init cap) [].
Proof.
  intros. assert (zlen (er_ev (ring_init cap)) = cap) as Hz
    by (unfold ring_init, zlen; simpl; rewrite length_replicate; lia).
  split; rewrite ?Hz; simpl; [lia|unfold zlen; simpl; lia| |by intros []].
  rewrite Z.mod_small; unfold zlen; simpl; lia.
Qed.

Lemma zlen_app1 (l : list A) x : zlen (l ++ [x]) = zlen l + 1.
Proof. rewrite zlen_app. unfold zlen. simpl. lia. Qed.

(** An event is queued last, or, when only the one slot kept free is left, counted
    as lost. *)
Lemma queues_emit q l x :
  queued_as q l →
  if zlen l + 1 <? zlen (er_ev q) then queued_as (emit q x) (l ++ [x]) ∧ er_dropped (emit q x) = er_dropped q
  else emit q x = EvRing (er_ev q) (er_head q) (er_tail q) (u64 (er_dropped q + 1)).
Proof.
  intros [Hh Hr Ht Hs]. pose proof (zlen_nonneg l). set (n := zlen (er_ev q)) in *.
  unfold emit. fold n.
  assert ((er_tail q + 1) mod n = (er_head q + (zlen l + 1)) mod n) as E.
  { rewrite Ht. rewrite Zplus_mod_idemp_l. f_equal. lia. }
  rewrite E. destruct (Z.ltb_spec (zlen l + 1) n) as [Hlt|Hge].
  - assert ((er_head q + (zlen l + 1)) mod n ≠ er_head q) as Hne.
    { intros E'. apply (slot_neq (er_head q) (zlen l + 1) 0 n); [lia..|].
      rewrite E', Z.add_0_r, Z.mod_small; lia. }
    rewrite (proj2 (Z.eqb_neq _ _) Hne). cbn. split; [|done].
    assert (zlen (<[Z.to_nat (er_tail q) := x]> (er_ev q)) = n) as Hz
      by (unfold n, zlen; by rewrite length_insert).
    split; cbn [er_ev er_head er_tail]; rewrite ?Hz, ?zlen_app1; [lia..|].
    intros i y Hi. apply lookup_app_Some in Hi as [Hi|[Hi Hy]].
    + rewrite list_lookup_insert_ne; [by apply Hs|].
      apply lookup_lt_Some in Hi. rewrite Ht. apply slot_neq; unfold zlen in *; lia.
    + assert (i = length l) as ->.
      { apply lookup_lt_Some in Hy. simpl in Hy. lia. }
      rewrite Nat.sub_diag in Hy. simplify_eq/=.
      fold (zlen l). rewrite <- Ht. apply list_lookup_insert_eq.
      rewrite Ht. pose proof (mod_range (er_head q + zlen l) (zlen (er_ev q)) ltac:(lia)). unfold zlen in *. lia.
  - rewrite (proj2 (Z.eqb_eq _ _)); [done|].
    replace (zlen l + 1) with n by lia.
    rewrite <- Zplus_mod_idemp_r, Z_mod_same_full, Z.add_0_r, Z.mod_small; lia.
Qed.

Lemma zlen_emit q x : zlen (er_ev (emit q x)) = zlen (er_ev q).
Proof. unfold emit. case_match; [done|]. unfold zlen. simpl. by rewrite length_insert. Qed.

(** A burst that fits loses nothing. *)
Lemma queues_burst l' q l :
  queued_as q l → zlen l + zlen l' < zlen (er_ev q) →
  queued_as (foldl emit q l') (l ++ l') ∧ er_dropped (foldl emit q l') = er_dropped q.
Proof.
  revert q l. induction l' as [|x l' IH]; intros q l Hq Hr; [by rewrite app_nil_r|].
  rewrite zlen_cons in Hr. pose proof (zlen_nonneg l'). pose proof (queues_emit q l x Hq) as He.
  rewrite (proj2 (Z.ltb_lt _ _)) in He by lia. destruct He as [He Hd]. simpl.
  destruct (IH (emit q x) (l ++ [x]) He) as [IH1 IH2]; [rewrite zlen_app1, zlen_emit; lia|].
  by rewrite (cons_middle x l l'), (assoc_L (++)), IH2.
Qed.

Lemma queues_nil q : queued_as q [] → next_event q = None.
Proof.
  intros [Hh _ Ht _]. unfold next_event. rewrite Ht. unfold zlen at 1. simpl.
  by rewrite Z.add_0_r, Z.mod_small, Z.eqb_refl by lia.
Qed.

Lemma queues_cons q x l :
  queued_as q (x :: l) →
  ∃ q', next_event q = Some (x, q') ∧ queued_as q' l ∧ er_dropped q' = er_dropped q ∧ er_ev q' = er_ev q.
Proof.
  intros [Hh Hr Ht Hs]. rewrite zlen_cons in Hr, Ht. pose proof (zlen_nonneg l).
  set (n := zlen (er_ev q)) in *. unfold next_event. fold n.
  rewrite (proj2 (Z.eqb_neq _ _)).
  2: { rewrite Ht. intros E. apply (slot_neq (er_head q) (1 + zlen l) 0 n); [lia..|].
       rewrite <- E, Z.add_0_r, Z.mod_small; lia. }
  pose proof (Hs 0%nat x eq_refl) as H0. rewrite Z.add_0_r, Z.mod_small in H0 by lia.
  rewrite H0. cbn. eexists. split; [done|]. split; [|done].
  split; cbn [er_ev er_head er_tail]; fold n.
  - apply mod_range. lia.
  - lia.
  - rewrite Ht, Zplus_mod_idemp_l. f_equal. lia.
  - intros i y Hi. rewrite Zplus_mod_idemp_l. specialize (Hs (S i) y Hi).
    rewrite <- Hs. do 3 f_equal. lia.
Qed.
End ring.
Arguments evring : clear implicits.

(** ** A caller that works the events off *)

(** What an event is about, and what it makes of the holding of that key; [None]
    says that the event is not legal on that holding. *)
Class Protocol (A K V : Type) := {
  ev_key : A → K;
  ev_effect : A → option V → option (option V)
}.

Section caller.
Context {A K V : Type} `{Countable K} `{!Protocol A K V}.
Implicit Types (h : gmap K V) (q : evring A) (view : K → option V).

Definition hold (k : K) (v : option V) h : gmap K V :=
  match v with Some v => <[k := v]> h | None => delete k h end.

Definition work_off h (x : A) : option (gmap K V) :=
  v ← ev_effect x (h !! ev_key x); Some (hold (ev_key x) v h).

Fixpoint work_all h (l : list A) : option (gmap K V) :=
  match l with
  | [] => Some h
  | x :: l => h' ← work_off h x; work_all h' l
  end.

Lemma lookup_hold k v h k' : hold k v h !! k' = if decide (k' = k) then v else h !! k'.
Proof. destruct v; simpl; case_decide; subst; by simplify_map_eq. Qed.

Lemma hold_comm k k' v v' h : k ≠ k' → hold k v (hold k' v' h) = hold k' v' (hold k v h).
Proof. intros. apply map_eq. intros i. rewrite !lookup_hold. repeat case_decide; congruence. Qed.

Lemma work_all_app h l l' : work_all h (l ++ l') = (h' ← work_all h l; work_all h' l').
Proof. revert h. induction l as [|x l IH]; intros h; [done|]. simpl. destruct (work_off h x); simpl; auto. Qed.

(** What the caller does to a key no queued event is about can be done first. *)
Lemma work_all_hold h l h' k v :
  work_all h l = Some h' → k ∉ ev_key <$> l → work_all (hold k v h) l = Some (hold k v h').
Proof.
  revert h. induction l as [|x l IH]; intros h Hw Hk; simpl in *; [by simplify_eq|].
  apply not_elem_of_cons in Hk as [Hne Hk]. unfold work_off in *.
  rewrite lookup_hold, decide_False by done.
  destruct (ev_effect x (h !! ev_key x)) as [w|]; simpl in *; [|done].
  rewrite hold_comm by done. by apply IH.
Qed.

(** Working off what is queued takes the caller from [h] to [view], and every
    event is legal when its turn comes. *)
Definition tracks q h view : Prop :=
  ∃ l, queued_as q l ∧ ∃ h', work_all h l = Some h' ∧ ∀ k, h' !! k = view k.

(** No queued event is about [k]. *)
Definition quiet q (k : K) : Prop := ∀ l, queued_as q l → k ∉ ev_key <$> l.

Lemma quiet_empty q k : next_event q = None → quiet q k.
Proof.
  intros Hn l Hq. destruct l as [|x l]; [apply not_elem_of_nil|].
  destruct (queues_cons q x l Hq) as (q1 & Hn1 & _). congruence.
Qed.

Lemma tracks_init `{Inhabited A} cap : 0 < cap → tracks (ring_init cap) ∅ (λ _, None).
Proof. intros. exists []. split; [by apply queues_init|]. exists ∅. split; [done|]. intros k. apply lookup_empty. Qed.

Lemma tracks_ext q h view view' : tracks q h view → (∀ k, view' k = view k) → tracks q h view'.
Proof. intros (l & Hq & h' & Hw & Hv) E. exists l. split; [done|]. exists h'. split; [done|]. intros k. by rewrite E. Qed.

(** An event queued together with the change it announces. *)
Lemma tracks_emit q h view view' x v :
  tracks q h view → ev_effect x (view (ev_key x)) = Some v →
  (∀ k, view' k = if decide (k = ev_key x) then v else view k) →
  er_dropped (emit q x) = er_dropped q → er_dropped q < 2 ^ 64 - 1 → 0 ≤ er_dropped q →
  tracks (emit q x) h view'.
Proof.
  intros (l & Hq & h' & Hw & Hv) He Hv' Hd Hlt Hge. pose proof (queues_emit q l x Hq) as Hn.
  case_match.
  - destruct Hn as [Hq' _]. exists (l ++ [x]). split; [done|]. exists (hold (ev_key x) v h').
    split; [|intros k; rewrite lookup_hold, Hv', Hv; done].
    rewrite work_all_app, Hw. cbn. unfold work_off. by rewrite Hv, He.
  - exfalso. rewrite Hn in Hd. simpl in Hd. unfold u64 in Hd. lia.
Qed.

(** The caller acts on a key by itself. *)
Lemma tracks_hold q h view view' k v :
  tracks q h view → quiet q k → (∀ k', view' k' = if decide (k' = k) then v else view k') →
  tracks q (hold k v h) view'.
Proof.
  intros (l & Hq & h' & Hw & Hv) Hk Hv'. exists l. split; [done|]. exists (hold k v h').
  split; [by apply work_all_hold; [|apply Hk]|]. intros k'. by rewrite lookup_hold, Hv', Hv.
Qed.

(** The holding of a quiet key is already what the table says. *)
Lemma tracks_quiet q h view k : tracks q h view → quiet q k → h !! k = view k.
Proof.
  intros (l & Hq & h' & Hw & Hv) Hk. rewrite <- Hv. specialize (Hk l Hq). clear Hq Hv.
  revert h Hw. induction l as [|x l IH]; intros h Hw; simpl in *; [by simplify_eq|].
  apply not_elem_of_cons in Hk as [Hne Hk]. unfold work_off in Hw.
  destruct (ev_effect x (h !! ev_key x)) as [w|]; simpl in *; [|done].
  rewrite <- (IH Hk _ Hw), lookup_hold. by rewrite decide_False.
Qed.

(** The next event is legal, and working it off keeps the two sides together. *)
Lemma tracks_next q h view x q' :
  tracks q h view → next_event q = Some (x, q') →
  ∃ h', work_off h x = Some h' ∧ tracks q' h' view.
Proof.
  intros (l & Hq & h' & Hw & Hv) Hn. destruct l as [|y l]; [by rewrite (queues_nil q Hq) in Hn|].
  destruct (queues_cons q y l Hq) as (q1 & Hn1 & Hq1 & _). rewrite Hn1 in Hn. simplify_eq.
  simpl in Hw. destruct (work_off h x) as [h1|] eqn:E; [|done]. exists h1. split; [done|].
  by exists l; split; [|exists h'].
Qed.

Lemma tracks_done q h view : tracks q h view → next_event q = None → ∀ k, h !! k = view k.
Proof.
  intros (l & Hq & h' & Hw & Hv) Hn k. destruct l as [|y l].
  - simpl in Hw. by simplify_eq.
  - destruct (queues_cons q y l Hq) as (q1 & Hn1 & _). congruence.
Qed.

(** [tracks], for as long as nothing was lost: at most [n] events were. *)
Definition tracked (n : Z) q h view : Prop :=
  0 ≤ er_dropped q ≤ n ∧ (er_dropped q = 0 → tracks q h view).

Lemma tracked_emit n q h view view' x v :
  tracked n q h view → n < 2 ^ 63 → ev_effect x (view (ev_key x)) = Some v →
  (∀ k, view' k = if decide (k = ev_key x) then v else view k) →
  tracked (n + 1) (emit q x) h view'.
Proof.
  intros [Hd Ht] Hn He Hv. unfold tracked.
  assert (er_dropped (emit q x) = er_dropped q ∨ er_dropped (emit q x) = er_dropped q + 1) as Hc.
  { unfold emit. case_match; simpl; [|by left]. right. unfold u64. apply Z.mod_small. lia. }
  split; [lia|]. intros H0. eapply tracks_emit; [apply Ht; lia|done|done|lia..].
Qed.

Lemma tracked_ext n m q h view view' :
  tracked n q h view → n ≤ m → (∀ k, view' k = view k) → tracked m q h view'.
Proof. intros [Hd Ht] Hn E. split; [lia|]. intros H0. eapply tracks_ext; eauto. Qed.
End caller.
