(* ===== verification/KeyTable.v ===== *)
(** * KeyTable: a C array searched by a key

    The fixed arrays of the transport ([IfScan], [Topo], [Tap]): a slot in use has a
    key (a name, a VLAN, an address), a free one has none, a search takes the first
    slot with the key, and a store replaces one slot. What a search finds is a
    partial map from keys to slots for as long as no two slots share a key. *)
From stdpp Require Import gmap list.
From S2P Require Import Prelude.

Section table.
Context {E K : Type} `{EqDecision K} (key : E → option K).
Implicit Types (l : list E) (e : E) (k : K).

Definition kfind l k : option nat := fst <$> list_find (λ e, key e = Some k) l.
Definition kget l k : option E := kfind l k ≫= λ i, l !! i.
(** The first free slot. *)
Definition kfree l : option nat := fst <$> list_find (λ e, key e = None) l.

Definition uniq l : Prop :=
  ∀ i j e e' k, l !! i = Some e → l !! j = Some e' → key e = Some k → key e' = Some k → i = j.

Lemma kfind_Some l k i : kfind l k = Some i → ∃ e, l !! i = Some e ∧ key e = Some k.
Proof.
  unfold kfind. intros H. apply fmap_Some in H as ([j e] & H & ->). apply list_find_Some in H as (H & Hk & _).
  by exists e.
Qed.

Lemma kfind_None l k i e : kfind l k = None → l !! i = Some e → key e ≠ Some k.
Proof.
  unfold kfind. intros H Hi. apply fmap_None, list_find_None in H. rewrite Forall_lookup in H. by apply (H i).
Qed.

Lemma kfind_at l k i e : uniq l → l !! i = Some e → key e = Some k → kfind l k = Some i.
Proof.
  intros Hl Hi Hk. destruct (kfind l k) as [j|] eqn:F.
  - apply kfind_Some in F as (e' & Hj & Hk'). f_equal. by eapply Hl.
  - by destruct (kfind_None l k i e F Hi).
Qed.

Lemma kfree_Some l i : kfree l = Some i → ∃ e, l !! i = Some e ∧ key e = None.
Proof.
  unfold kfree. intros H. apply fmap_Some in H as ([j e] & H & ->). apply list_find_Some in H as (H & Hk & _).
  by exists e.
Qed.

Lemma kget_Some l k e : kget l k = Some e ↔ ∃ i, kfind l k = Some i ∧ l !! i = Some e.
Proof. unfold kget. destruct (kfind l k); naive_solver. Qed.

Lemma kget_at l k i e : uniq l → l !! i = Some e → key e = Some k → kget l k = Some e.
Proof. intros. apply kget_Some. exists i. split; [by eapply kfind_at|done]. Qed.

Lemma kget_key l k e : kget l k = Some e → key e = Some k.
Proof. rewrite kget_Some. intros (i & F & Hi). apply kfind_Some in F as (e' & Hi' & Hk). congruence. Qed.

Lemma kget_None l k : kget l k = None ↔ kfind l k = None.
Proof.
  unfold kget. destruct (kfind l k) as [i|] eqn:F; [|done]. apply kfind_Some in F as (e & Hi & _).
  simpl. rewrite Hi. naive_solver.
Qed.

(** A store is sound when the slot keeps its key, gives it up, or takes a key no slot
    has; it changes what those two keys find. *)
Lemma put_uniq l i e e' :
  uniq l → l !! i = Some e → (∀ k, key e' = Some k → key e = Some k ∨ kget l k = None) →
  uniq (<[i := e']> l) ∧
  ∀ k, kget (<[i := e']> l) k =
    if decide (key e' = Some k) then Some e' else if decide (key e = Some k) then None else kget l k.
Proof.
  intros Hl Hi Hn. assert (i < length l)%nat by by eapply lookup_lt_Some.
  assert (Hne : ∀ j e1 k, l !! j = Some e1 → key e1 = Some k → j ≠ i → key e' ≠ Some k).
  { intros j e1 k Hj Hk Hne Hk'. destruct (Hn k Hk') as [Hk0|Hg].
    - apply Hne. by eapply Hl.
    - rewrite kget_None in Hg. by apply (kfind_None l k j e1 Hg). }
  assert (uniq (<[i := e']> l)) as Hu.
  { intros j1 j2 e1 e2 k H1 H2 K1 K2. apply list_lookup_insert_Some in H1, H2.
    destruct H1 as [(-> & -> & _)|[N1 H1]], H2 as [(-> & -> & _)|[N2 H2]]; [done|..].
    - by destruct (Hne j2 e2 k).
    - by destruct (Hne j1 e1 k).
    - by eapply Hl. }
  split; [done|]. intros k. case_decide as Hk'.
  { eapply (kget_at _ k i); [done| |done]. by apply list_lookup_insert_eq. }
  destruct (kget (<[i := e']> l) k) as [e1|] eqn:G.
  - pose proof (kget_key _ _ _ G) as Hk. apply kget_Some in G as (j & _ & Hj).
    apply list_lookup_insert_Some in Hj as [(-> & -> & _)|[Nj Hj]]; [done|].
    rewrite decide_False; [symmetry; by eapply kget_at|]. intros Hk0. apply Nj. by eapply Hl.
  - case_decide as Hk0; [done|]. symmetry. rewrite kget_None in G |- *.
    destruct (kfind l k) as [j|] eqn:F; [|done]. apply kfind_Some in F as (e1 & Hj & Hk). exfalso.
    destruct (decide (j = i)) as [->|Nj]; [congruence|].
    apply (kfind_None _ k j e1 G); [|done]. by rewrite list_lookup_insert_ne.
Qed.

(** The slot keeps its key, or gives it up. *)
Lemma put_same l i e e' k0 :
  uniq l → l !! i = Some e → key e = Some k0 → (∀ k, key e' = Some k → k = k0) →
  uniq (<[i := e']> l) ∧
  ∀ k, kget (<[i := e']> l) k =
    if decide (k = k0) then match key e' with Some _ => Some e' | None => None end else kget l k.
Proof.
  intros Hl Hi Hk0 Hn. destruct (put_uniq l i e e' Hl Hi) as [Hu Hg].
  { intros k Hk. rewrite (Hn k Hk). by left. }
  split; [done|]. intros k. rewrite Hg, Hk0. destruct (key e') as [k1|] eqn:Ek.
  - rewrite (Hn k1 eq_refl). repeat case_decide; naive_solver.
  - repeat case_decide; naive_solver.
Qed.

(** A free slot is taken for a key no slot has. *)
Lemma put_new l i e e' k0 :
  uniq l → l !! i = Some e → key e = None → key e' = Some k0 → kget l k0 = None →
  uniq (<[i := e']> l) ∧
  ∀ k, kget (<[i := e']> l) k = if decide (k = k0) then Some e' else kget l k.
Proof.
  intros Hl Hi Hk Hk' Hg0. destruct (put_uniq l i e e' Hl Hi) as [Hu Hg].
  { intros k Hk1. right. congruence. }
  split; [done|]. intros k. rewrite Hg, Hk', Hk. repeat case_decide; naive_solver.
Qed.

Lemma uniq_free l : Forall (λ e, key e = None) l → uniq l.
Proof. rewrite Forall_lookup. intros H i j e e' k Hi _ Hk _. by rewrite (H i e Hi) in Hk. Qed.

Lemma kget_free l k : Forall (λ e, key e = None) l → kget l k = None.
Proof.
  intros H. apply kget_None. destruct (kfind l k) as [i|] eqn:F; [|done].
  apply kfind_Some in F as (e & Hi & Hk). rewrite Forall_lookup in H. by rewrite (H i e Hi) in Hk.
Qed.
End table.

(** ** Interface names *)

(** Of the kernel's [net/if.h], with the terminator. *)
Definition IFNAMSIZ : Z := 16.

(** [snprintf(dst, IFNAMSIZ, "%s", name)]. *)
Definition ifname (name : list Z) : list Z := take (Z.to_nat (IFNAMSIZ - 1)) name.

Lemma ifname_id name : zlen name < IFNAMSIZ → ifname name = name.
Proof. unfold ifname, zlen, IFNAMSIZ. intros. apply take_ge. lia. Qed.
