(* ===== verification/IfScan.v ===== *)
(** * IfScan: which interfaces are listened to, and which are served

    Models [transport/src/reac_ifscan.c]: the table of Ethernet interfaces, the
    transitions an observation, a sighting, a failed listener and the clock make,
    the opt-in for wireless interfaces, and the fold of link messages with the
    resync after an overrun. A link message is given as its parsed fields and as
    whether sysfs marks the interface wireless; the byte layout of netlink is the
    kernel's. Interface names are C strings, lists of their characters. *)
From stdpp Require Import gmap list.
From S2P Require Import Prelude EventRing KeyTable.

Definition REAC_IFSCAN_MAX : Z := 16.
Definition REAC_IFSCAN_EVENTS : Z := 64.
Definition REAC_IFSCAN_DOWN_HOLD_NS : Z := 3 * 1000000000.
Definition REAC_IFSCAN_RETRY_NS : Z := 5 * 1000000000.

Inductive reac_ifscan_state :=
  REAC_IFSCAN_ABSENT | REAC_IFSCAN_DOWN | REAC_IFSCAN_LINKED | REAC_IFSCAN_SEGMENT | REAC_IFSCAN_HOLD.
#[export] Instance ifscan_state_eq_dec : EqDecision reac_ifscan_state.
Proof. solve_decision. Defined.

Inductive reac_ifscan_verb :=
  REAC_IFSCAN_NONE | REAC_IFSCAN_LISTEN | REAC_IFSCAN_UNLISTEN | REAC_IFSCAN_SERVE
| REAC_IFSCAN_DROP | REAC_IFSCAN_KEPT.

Record reac_ifscan_entry := IfEntry {
  e_name : list Z; e_ifindex : Z; e_state : reac_ifscan_state;
  e_hold_until_ns : Z; e_retry_after_ns : Z; e_flaps : Z
}.
(** [memset(e, 0, sizeof *e)]. *)
Definition no_entry : reac_ifscan_entry := IfEntry [] 0 REAC_IFSCAN_ABSENT 0 0 0.

Record reac_ifscan_event := IfEvent { ev_verb : reac_ifscan_verb; ev_name : list Z }.
#[export] Instance ifscan_event_inhabited : Inhabited reac_ifscan_event :=
  populate (IfEvent REAC_IFSCAN_NONE []).

Record reac_ifscan := IfScan {
  s_ifs : list reac_ifscan_entry; s_ev : evring reac_ifscan_event;
  s_msgs : Z; s_overruns : Z; s_unbounded : Z
}.
Definition set_ifs (l : list reac_ifscan_entry) (s : reac_ifscan) : reac_ifscan :=
  IfScan l (s_ev s) (s_msgs s) (s_overruns s) (s_unbounded s).

Definition reac_ifscan_init : reac_ifscan :=
  IfScan (replicate (Z.to_nat REAC_IFSCAN_MAX) no_entry) (ring_init REAC_IFSCAN_EVENTS) 0 0 0.

Definition emit_verb (v : reac_ifscan_verb) (name : list Z) (s : reac_ifscan) : reac_ifscan :=
  IfScan (s_ifs s) (emit (s_ev s) (IfEvent v (ifname name))) (s_msgs s) (s_overruns s) (s_unbounded s).

Definition reac_ifscan_next (s : reac_ifscan) : option (reac_ifscan_event * reac_ifscan) :=
  '(x, q) ← next_event (s_ev s);
  Some (x, IfScan (s_ifs s) q (s_msgs s) (s_overruns s) (s_unbounded s)).

(** An entry in use. *)
Definition used (e : reac_ifscan_entry) : bool := bool_decide (e_state e ≠ REAC_IFSCAN_ABSENT).

Definition entry_key (e : reac_ifscan_entry) : option (list Z) :=
  if used e then Some (e_name e) else None.

(** The index of the first match, for the pointer the code returns. *)
Definition scan_find (s : reac_ifscan) (name : list Z) : option nat := kfind entry_key (s_ifs s) name.
Definition entry_at (s : reac_ifscan) (i : nat) : reac_ifscan_entry := default no_entry (s_ifs s !! i).
Definition reac_ifscan_find (s : reac_ifscan) (name : list Z) : option reac_ifscan_entry :=
  entry_at s <$> scan_find s name.
Definition put_entry (i : nat) (e : reac_ifscan_entry) (s : reac_ifscan) : reac_ifscan :=
  set_ifs (<[i := e]> (s_ifs s)) s.

Definition reac_ifscan_count (s : reac_ifscan) (st : reac_ifscan_state) : Z :=
  zlen (filter (λ e, e_state e = st) (s_ifs s)).

Definition leave (i : nat) (s : reac_ifscan) : reac_ifscan :=
  let e := entry_at s i in
  put_entry i no_entry
    match e_state e with
    | REAC_IFSCAN_LINKED => emit_verb REAC_IFSCAN_UNLISTEN (e_name e) s
    | REAC_IFSCAN_SEGMENT | REAC_IFSCAN_HOLD => emit_verb REAC_IFSCAN_DROP (e_name e) s
    | REAC_IFSCAN_DOWN | REAC_IFSCAN_ABSENT => s
    end.

(** What the carrier does to an entry in use. *)
Definition carrier (lower_up : bool) (now_ns : Z) (i : nat) (s : reac_ifscan) : reac_ifscan :=
  let e := entry_at s i in
  match e_state e with
  | REAC_IFSCAN_DOWN =>
      if lower_up then
        emit_verb REAC_IFSCAN_LISTEN (e_name e)
          (put_entry i (IfEntry (e_name e) (e_ifindex e) REAC_IFSCAN_LINKED (e_hold_until_ns e) 0 (e_flaps e)) s)
      else s
  | REAC_IFSCAN_LINKED =>
      if lower_up then s
      else
        emit_verb REAC_IFSCAN_UNLISTEN (e_name e)
          (put_entry i (IfEntry (e_name e) (e_ifindex e) REAC_IFSCAN_DOWN (e_hold_until_ns e)
                          (e_retry_after_ns e) (e_flaps e)) s)
  | REAC_IFSCAN_SEGMENT =>
      if lower_up then s
      else put_entry i (IfEntry (e_name e) (e_ifindex e) REAC_IFSCAN_HOLD
                          (u64 (now_ns + REAC_IFSCAN_DOWN_HOLD_NS)) (e_retry_after_ns e) (e_flaps e)) s
  | REAC_IFSCAN_HOLD =>
      if lower_up then
        emit_verb REAC_IFSCAN_KEPT (e_name e)
          (put_entry i (IfEntry (e_name e) (e_ifindex e) REAC_IFSCAN_SEGMENT 0 (e_retry_after_ns e)
                          (u32 (e_flaps e + 1))) s)
      else s
  | REAC_IFSCAN_ABSENT => s
  end.

(** The first free entry takes the interface; [None] leaves it uncounted for. *)
Definition enlist (name : list Z) (ifindex : Z) (s : reac_ifscan) : reac_ifscan * option nat :=
  match kfree entry_key (s_ifs s) with
  | None => (IfScan (s_ifs s) (s_ev s) (s_msgs s) (s_overruns s) (u64 (s_unbounded s + 1)), None)
  | Some i => (put_entry i (IfEntry (ifname name) ifindex REAC_IFSCAN_DOWN 0 0 0) s, Some i)
  end.

Definition reac_ifscan_observe (s : reac_ifscan) (name : list Z) (ifindex : Z) (ether lower_up : bool)
    (now_ns : Z) : reac_ifscan :=
  if zeqb name [] || (IFNAMSIZ <=? zlen name) then s
  else
    let e := scan_find s name in
    if negb ether then match e with Some i => leave i s | None => s end
    else
      let '(s, e) := match e with
                     | Some i => if e_ifindex (entry_at s i) =? ifindex then (s, Some i) else (leave i s, None)
                     | None => (s, None)
                     end in
      let '(s, e) := match e with Some i => (s, Some i) | None => enlist name ifindex s end in
      match e with Some i => carrier lower_up now_ns i s | None => s end.

Definition reac_ifscan_gone (s : reac_ifscan) (name : list Z) (ifindex : Z) : reac_ifscan :=
  if zeqb name [] then s
  else
    match scan_find s name with
    | None => s
    | Some i => if negb (ifindex =? 0) && negb (e_ifindex (entry_at s i) =? ifindex) then s else leave i s
    end.

Definition reac_ifscan_heard (s : reac_ifscan) (name : list Z) (now_ns : Z) : reac_ifscan :=
  match scan_find s name with
  | None => s
  | Some i =>
      let e := entry_at s i in
      if bool_decide (e_state e ≠ REAC_IFSCAN_LINKED) then s
      else if negb (e_retry_after_ns e =? 0) && (now_ns <? e_retry_after_ns e) then s
      else emit_verb REAC_IFSCAN_SERVE (e_name e)
             (put_entry i (IfEntry (e_name e) (e_ifindex e) REAC_IFSCAN_SEGMENT (e_hold_until_ns e) 0
                             (e_flaps e)) s)
  end.

Definition reac_ifscan_serve_failed (s : reac_ifscan) (name : list Z) (now_ns : Z) : reac_ifscan :=
  match scan_find s name with
  | None => s
  | Some i =>
      let e := entry_at s i in
      let back st := put_entry i (IfEntry (e_name e) (e_ifindex e) st 0 (u64 (now_ns + REAC_IFSCAN_RETRY_NS))
                                    (e_flaps e)) s in
      match e_state e with
      | REAC_IFSCAN_SEGMENT => emit_verb REAC_IFSCAN_LISTEN (e_name e) (back REAC_IFSCAN_LINKED)
      | REAC_IFSCAN_HOLD => back REAC_IFSCAN_DOWN
      | _ => s
      end
  end.

Definition tick_entry (now_ns : Z) (s : reac_ifscan) (i : nat) : reac_ifscan :=
  let e := entry_at s i in
  if bool_decide (e_state e ≠ REAC_IFSCAN_HOLD) || (now_ns <? e_hold_until_ns e) then s
  else emit_verb REAC_IFSCAN_DROP (e_name e)
         (put_entry i (IfEntry (e_name e) (e_ifindex e) REAC_IFSCAN_DOWN 0 (e_retry_after_ns e) (e_flaps e)) s).

Definition reac_ifscan_tick (s : reac_ifscan) (now_ns : Z) : reac_ifscan :=
  foldl (tick_entry now_ns) s (seq 0 (Z.to_nat REAC_IFSCAN_MAX)).

(** ** The opt-in for wireless interfaces *)

(** The characters up to the first comma, and what is left behind
    it. *)
Fixpoint to_comma (p : list Z) : list Z * list Z :=
  match p with
  | [] => ([], [])
  | c :: p => if c =? 44 then ([], p) else let '(a, r) := to_comma p in (c :: a, r)
  end.

Fixpoint allow_loop (fuel : nat) (p name : list Z) : bool :=
  match fuel, p with
  | _, [] => false
  | O, _ => false
  | S fuel, _ =>
      let '(seg, p) := to_comma p in
      if (zlen seg =? zlen name) && zeqb seg (take (length seg) name) then true
      else allow_loop fuel p name
  end.

Definition reac_ifscan_wireless_allowed (allowlist name : option (list Z)) : bool :=
  match allowlist, name with
  | Some al, Some name =>
      if zeqb al [] || zeqb name [] then false
      else if zeqb al [42] then true
      else allow_loop (length al) al name
  | _, _ => false
  end.

(** ** Link messages *)

(** [RTM_NEWLINK] or [RTM_DELLINK] with the fields the code reads: the name
    attribute, the index, whether the type is Ethernet, and two of the flags. *)
Record link_msg := LinkMsg {
  lm_del : bool; lm_name : list Z; lm_ifindex : Z; lm_type_ether : bool; lm_loopback : bool;
  lm_lower_up : bool; lm_wireless : bool
}.

Definition msg_link (allow : option (list Z)) (now_ns : Z) (s : reac_ifscan) (m : link_msg) : reac_ifscan :=
  if zeqb (lm_name m) [] then s
  else
    let s := IfScan (s_ifs s) (s_ev s) (u64 (s_msgs s + 1)) (s_overruns s) (s_unbounded s) in
    if lm_del m then reac_ifscan_gone s (lm_name m) (lm_ifindex m)
    else
      let wireless_ok := negb (lm_wireless m) || reac_ifscan_wireless_allowed allow (Some (lm_name m)) in
      let ether := lm_type_ether m && negb (lm_loopback m) && wireless_ok in
      reac_ifscan_observe s (lm_name m) (lm_ifindex m) ether (lm_lower_up m) now_ns.

(** The messages of one datagram; [NlDone] is the end of a dump or an error. *)
Inductive nl_msg := NlLink (m : link_msg) | NlDone | NlOther.

Fixpoint feed_ex (allow : option (list Z)) (now_ns : Z) (s : reac_ifscan) (l : list nl_msg) : reac_ifscan * bool :=
  match l with
  | [] => (s, false)
  | NlDone :: _ => (s, true)
  | NlOther :: l => feed_ex allow now_ns s l
  | NlLink m :: l => feed_ex allow now_ns (msg_link allow now_ns s m) l
  end.

(** The datagrams of a dump, up to the one that ends it; the code waits for at
    most 64. *)
Fixpoint resync_loop (allow : option (list Z)) (now_ns : Z) (s : reac_ifscan) (dump : list (list nl_msg))
    : reac_ifscan * bool :=
  match dump with
  | [] => (s, false)
  | l :: dump =>
      let '(s, done) := feed_ex allow now_ns s l in
      if done then (s, true) else resync_loop allow now_ns s dump
  end.
Definition reac_ifscan_resync (allow : option (list Z)) (now_ns : Z) (s : reac_ifscan)
    (dump : list (list nl_msg)) : reac_ifscan * bool :=
  resync_loop allow now_ns s (take 64 dump).

(** What one [recv] of the drain found; an overrun is followed by a dump. *)
Inductive nl_read := NlData (l : list nl_msg) | NlOverrun (dump : list (list nl_msg)).

Definition drain_one (allow : option (list Z)) (now_ns : Z) (s : reac_ifscan) (r : nl_read) : reac_ifscan :=
  match r with
  | NlData l => (feed_ex allow now_ns s l).1
  | NlOverrun dump =>
      let s := IfScan (s_ifs s) (s_ev s) (s_msgs s) (u64 (s_overruns s + 1)) (s_unbounded s) in
      (reac_ifscan_resync allow now_ns s dump).1
  end.
Definition reac_ifscan_drain (allow : option (list Z)) (now_ns : Z) (s : reac_ifscan) (reads : list nl_read)
    : reac_ifscan := foldl (drain_one allow now_ns) s reads.

(** ** The caller's sockets *)

(** What the caller has open on an interface. *)
Inductive listening := Sniffer | Listener.

Definition held (st : reac_ifscan_state) : option listening :=
  match st with
  | REAC_IFSCAN_LINKED => Some Sniffer
  | REAC_IFSCAN_SEGMENT | REAC_IFSCAN_HOLD => Some Listener
  | _ => None
  end.
Definition holding_of (s : reac_ifscan) (name : list Z) : option listening :=
  reac_ifscan_find s name ≫= λ e, held (e_state e).

(** The contract of the verbs: what each finds open, and what it leaves. *)
Definition verb_effect (v : reac_ifscan_verb) (o : option listening) : option (option listening) :=
  match v, o with
  | REAC_IFSCAN_LISTEN, None => Some (Some Sniffer)
  | REAC_IFSCAN_UNLISTEN, Some Sniffer => Some None
  | REAC_IFSCAN_SERVE, Some Sniffer => Some (Some Listener)
  | REAC_IFSCAN_DROP, Some Listener => Some None
  | REAC_IFSCAN_KEPT, Some Listener => Some (Some Listener)
  | _, _ => None
  end.
#[export] Instance scan_protocol : Protocol reac_ifscan_event (list Z) listening := {
  ev_key := ev_name;
  ev_effect x := verb_effect (ev_verb x)
}.

(** ** The table *)

(** Names in use differ and fit. *)
Record scan_ok (s : reac_ifscan) : Prop := {
  so_uniq : uniq entry_key (s_ifs s);
  so_fits : ∀ i e, s_ifs s !! i = Some e → used e = true → e_name e ≠ [] ∧ zlen (e_name e) < IFNAMSIZ
}.

Lemma entry_at_lookup s i e : s_ifs s !! i = Some e → entry_at s i = e.
Proof. unfold entry_at. by intros ->. Qed.

Lemma key_used e name : entry_key e = Some name ↔ used e = true ∧ e_name e = name.
Proof. unfold entry_key. destruct (used e); naive_solver. Qed.

Lemma key_self e : used e = true → entry_key e = Some (e_name e).
Proof. unfold entry_key. by intros ->. Qed.

Lemma entry_found s name i :
  scan_find s name = Some i → ∃ e, s_ifs s !! i = Some e ∧ used e = true ∧ e_name e = name.
Proof. intros (e & Hi & Hk)%kfind_Some. exists e. by rewrite key_used in Hk. Qed.

Lemma not_used e : used e = false → e_state e = REAC_IFSCAN_ABSENT.
Proof. unfold used. rewrite bool_decide_eq_false. by destruct (e_state e); [|intros []..]. Qed.

Lemma holding_get s name : holding_of s name = kget entry_key (s_ifs s) name ≫= λ e, held (e_state e).
Proof.
  unfold holding_of, reac_ifscan_find, kget, scan_find. destruct (kfind _ _ _) as [i|] eqn:F; [|done]. simpl.
  apply kfind_Some in F as (e & Hi & _). rewrite (entry_at_lookup s i e Hi). cbn. by rewrite Hi.
Qed.

Lemma holding_used s i e :
  scan_ok s → s_ifs s !! i = Some e → used e = true → holding_of s (e_name e) = held (e_state e).
Proof.
  intros Hs Hi Hu. rewrite holding_get, (kget_at entry_key _ _ i e); [done|apply Hs|done|by apply key_self].
Qed.

Lemma scan_ok_put s i e' :
  scan_ok s → uniq entry_key (<[i := e']> (s_ifs s)) →
  (used e' = true → e_name e' ≠ [] ∧ zlen (e_name e') < IFNAMSIZ) → scan_ok (put_entry i e' s).
Proof.
  intros Hs Hu He. split; [done|]. intros j e1 Hj Hu1. cbn in Hj.
  apply list_lookup_insert_Some in Hj as [(-> & -> & _)|[_ Hj]]; [auto|by eapply (so_fits s Hs)].
Qed.

(** ** Every step keeps the caller in step *)

(** The table is sound, and the caller that works off what is queued ends with the
    sockets the table says; at most [n] events were lost. *)
Definition scan_inv (n : Z) (s : reac_ifscan) (h : gmap (list Z) listening) : Prop :=
  scan_ok s ∧ tracked n (s_ev s) h (holding_of s).

Lemma scan_inv_weaken n m s h : scan_inv n s h → n ≤ m → scan_inv m s h.
Proof. intros [Hs Ht] ?. split; [done|]. by eapply tracked_ext. Qed.

(** An entry that keeps its name, or is given up. *)
Lemma renamed s i e e' :
  scan_ok s → s_ifs s !! i = Some e → used e = true → (used e' = true → e_name e' = e_name e) →
  scan_ok (put_entry i e' s) ∧
  ∀ name, holding_of (put_entry i e' s) name =
    if decide (name = e_name e) then held (e_state e') else holding_of s name.
Proof.
  intros Hs Hi Hu Hn.
  destruct (put_same entry_key _ i e e' (e_name e) (so_uniq s Hs) Hi (key_self e Hu)) as [Hu' Hg].
  { intros k Hk. apply key_used in Hk as [? <-]. by apply Hn. }
  split; [apply scan_ok_put; [done..|]; intros Hu1; rewrite (Hn Hu1); by apply (so_fits s Hs i)|].
  intros name. rewrite !holding_get. cbn [put_entry set_ifs s_ifs]. rewrite Hg. case_decide; [|done].
  unfold entry_key. destruct (used e') eqn:E; [done|]. by rewrite (not_used e' E).
Qed.

Lemma scan_inv_put n s h i e e' :
  scan_inv n s h → s_ifs s !! i = Some e → used e = true → (used e' = true → e_name e' = e_name e) →
  held (e_state e') = held (e_state e) → scan_inv n (put_entry i e' s) h.
Proof.
  intros [Hs Ht] Hi Hu Hn Hh. destruct (renamed s i e e' Hs Hi Hu Hn) as [Hs' Hv]. split; [done|].
  eapply tracked_ext; [exact Ht|done|]. intros k. rewrite Hv. case_decide as Hk; [|done].
  by rewrite Hk, (holding_used s i e), Hh.
Qed.

Lemma scan_inv_verb n s h i e e' v :
  scan_inv n s h → n < 2 ^ 63 → s_ifs s !! i = Some e → used e = true →
  (used e' = true → e_name e' = e_name e) →
  verb_effect v (held (e_state e)) = Some (held (e_state e')) →
  scan_inv (n + 1) (emit_verb v (e_name e) (put_entry i e' s)) h.
Proof.
  intros [Hs Ht] Hlt Hi Hu Hn He. destruct (renamed s i e e' Hs Hi Hu Hn) as [Hs' Hv].
  split; [by destruct Hs'; split|]. cbn [emit_verb s_ev put_entry set_ifs].
  destruct (so_fits s Hs i e Hi Hu) as [_ Hf]. rewrite ifname_id by done.
  apply (tracked_emit n (s_ev s) h (holding_of s) _ (IfEvent v (e_name e)) (held (e_state e'))); [done..| |].
  - cbn. by rewrite (holding_used s i e).
  - intros k. cbn. apply (Hv k).
Qed.

Lemma scan_inv_leave n s h i e :
  scan_inv n s h → n < 2 ^ 63 → s_ifs s !! i = Some e → used e = true →
  scan_inv (n + 1) (leave i s) h ∧ scan_find (leave i s) (e_name e) = None.
Proof.
  intros HI Hlt Hi Hu. split.
  - unfold leave. rewrite (entry_at_lookup s i e Hi).
    destruct (e_state e) eqn:E;
      first [ apply (scan_inv_verb n s h i e no_entry); by rewrite ?E
            | apply (scan_inv_weaken n); [|lia]; apply (scan_inv_put n s h i e no_entry); by rewrite ?E ].
  - assert (s_ifs (leave i s) = <[i := no_entry]> (s_ifs s)) as Hl.
    { unfold leave. rewrite (entry_at_lookup s i e Hi). by destruct (e_state e). }
    destruct (put_same entry_key _ i e no_entry (e_name e) (so_uniq s (proj1 HI)) Hi (key_self e Hu)) as [_ Hg]; [done|].
    unfold scan_find. apply kget_None. by rewrite Hl, Hg, decide_True.
Qed.

Lemma scan_inv_carrier n s h i e up now :
  scan_inv n s h → n < 2 ^ 63 → s_ifs s !! i = Some e → used e = true →
  scan_inv (n + 1) (carrier up now i s) h.
Proof.
  intros HI Hlt Hi Hu. unfold carrier. rewrite (entry_at_lookup s i e Hi).
  destruct (e_state e) eqn:E, up;
    first [ by apply (scan_inv_weaken n); [|lia]
          | apply (scan_inv_verb n s h i e); by rewrite ?E
          | apply (scan_inv_weaken n); [|lia]; apply (scan_inv_put n s h i e); by rewrite ?E ].
Qed.

Lemma scan_inv_enlist n s h name ifindex :
  scan_inv n s h → scan_find s name = None → name ≠ [] → zlen name < IFNAMSIZ →
  let '(s', r) := enlist name ifindex s in
  scan_inv n s' h ∧ ∀ i, r = Some i → ∃ e, s_ifs s' !! i = Some e ∧ used e = true.
Proof.
  intros [Hs Ht] Hf Hne Hfit. unfold enlist. destruct (kfree entry_key (s_ifs s)) as [i|] eqn:El.
  - apply kfree_Some in El as (e & Hi & Hk). set (e' := IfEntry _ _ _ _ _ _).
    assert (e_name e' = name) as Hn by (by apply ifname_id).
    destruct (put_new entry_key _ i e e' name (so_uniq s Hs) Hi Hk) as [Hu' Hg];
      [by apply key_used|by apply kget_None|].
    split.
    + split; [apply scan_ok_put; [done..|]; by rewrite Hn|].
      eapply tracked_ext; [exact Ht|done|]. intros k. rewrite !holding_get. cbn [put_entry set_ifs s_ifs].
      rewrite Hg. case_decide as Hd; [|done]. rewrite Hd. apply kget_None in Hf. by rewrite Hf.
    + intros j [= <-]. exists e'. split; [|done]. apply list_lookup_insert_eq. by eapply lookup_lt_Some.
  - split; [|done]. split; [by destruct Hs; split|done].
Qed.

Lemma scan_inv_observe n s h name ifindex ether up now :
  scan_inv n s h → n < 2 ^ 62 → scan_inv (n + 2) (reac_ifscan_observe s name ifindex ether up now) h.
Proof.
  intros HI Hlt. unfold reac_ifscan_observe.
  destruct (zeqb name [] || (IFNAMSIZ <=? zlen name)) eqn:Eg; [apply (scan_inv_weaken n); [done|lia]|].
  apply orb_false_iff in Eg as [Hne Hfit]. apply zeqb_neq in Hne. apply Z.leb_gt in Hfit.
  assert (Hlater : ∀ m s', n ≤ m ≤ n + 1 → scan_inv m s' h → scan_find s' name = None →
    scan_inv (n + 2) (let '(s, e) := enlist name ifindex s' in
                      match e with Some i => carrier up now i s | None => s end) h).
  { intros m s' Hm HI' Hf. pose proof (scan_inv_enlist m s' h name ifindex HI' Hf Hne Hfit) as He.
    destruct (enlist name ifindex s') as [s2 [i|]]; destruct He as [He1 He2]; [|apply (scan_inv_weaken m); [done|lia]].
    destruct (He2 i eq_refl) as (e & Hi & Hu). apply (scan_inv_weaken (m + 1)); [|lia].
    apply (scan_inv_carrier m s2 h i e); [done|lia|done..]. }
  destruct (scan_find s name) as [i|] eqn:Ef; [|destruct ether; [by apply (Hlater n); [lia|..]|apply (scan_inv_weaken n); [done|lia]]].
  destruct (entry_found _ _ _ Ef) as (e & Hi & Hu & <-).
  destruct (scan_inv_leave n s h i e HI ltac:(lia) Hi Hu) as [HL HLf].
  destruct ether; simpl; [|apply (scan_inv_weaken (n + 1)); [done|lia]].
  rewrite (entry_at_lookup s i e Hi). destruct (e_ifindex e =? ifindex).
  - apply (scan_inv_weaken (n + 1)); [|lia]. apply (scan_inv_carrier n s h i e); [done|lia|done..].
  - by apply (Hlater (n + 1)); [lia|..].
Qed.

Lemma scan_inv_gone n s h name ifindex :
  scan_inv n s h → n < 2 ^ 63 → scan_inv (n + 1) (reac_ifscan_gone s name ifindex) h.
Proof.
  intros HI Hlt. unfold reac_ifscan_gone. case_match; [apply (scan_inv_weaken n); [done|lia]|].
  destruct (scan_find s name) as [i|] eqn:Ef; [|apply (scan_inv_weaken n); [done|lia]].
  destruct (entry_found _ _ _ Ef) as (e & Hi & Hu & _). case_match; [apply (scan_inv_weaken n); [done|lia]|].
  by apply (scan_inv_leave n s h i e).
Qed.

Lemma scan_inv_heard n s h name now :
  scan_inv n s h → n < 2 ^ 63 → scan_inv (n + 1) (reac_ifscan_heard s name now) h.
Proof.
  intros HI Hlt. unfold reac_ifscan_heard.
  destruct (scan_find s name) as [i|] eqn:Ef; [|apply (scan_inv_weaken n); [done|lia]].
  destruct (entry_found _ _ _ Ef) as (e & Hi & Hu & _). rewrite (entry_at_lookup s i e Hi).
  case_match eqn:Hs; [apply (scan_inv_weaken n); [done|lia]|]. apply bool_decide_eq_false, dec_stable in Hs.
  case_match; [apply (scan_inv_weaken n); [done|lia]|]. apply (scan_inv_verb n s h i e); by rewrite ?Hs.
Qed.

Lemma scan_inv_tick n s h now :
  scan_inv n s h → n < 2 ^ 62 → scan_inv (n + REAC_IFSCAN_MAX) (reac_ifscan_tick s now) h.
Proof.
  intros HI Hlt. unfold reac_ifscan_tick, REAC_IFSCAN_MAX.
  assert (H : ∀ l m s, scan_inv m s h → m < 2 ^ 62 + 16 - zlen l →
    scan_inv (m + zlen l) (foldl (tick_entry now) s l) h).
  { induction l as [|i l IH]; intros m s' HI' Hm; [by rewrite zlen_nil, Z.add_0_r|].
    rewrite zlen_cons in Hm |- *. simpl. rewrite Z.add_assoc. pose proof (zlen_nonneg l).
    apply IH; [|lia]. unfold tick_entry. unfold entry_at.
    destruct (s_ifs s' !! i) as [e|] eqn:Hi; cbn [default from_option id].
    2: { cbn. apply (scan_inv_weaken m); [done|lia]. }
    case_match eqn:Eb; [apply (scan_inv_weaken m); [done|lia]|].
    apply orb_false_iff in Eb as [Hs _]. apply bool_decide_eq_false, dec_stable in Hs.
    apply (scan_inv_verb m s' h i e); rewrite ?Hs; try done; [lia|]. unfold used. by rewrite Hs. }
  by apply (H (seq 0 16)); [|unfold zlen; simpl; lia].
Qed.

(** A listener the caller could not open: it has nothing open there now. *)
Lemma scan_inv_failed n s h name now :
  scan_inv n s h → er_dropped (s_ev s) = 0 → quiet (s_ev s) name → h !! name = Some Listener →
  scan_inv 1 (reac_ifscan_serve_failed s name now) (delete name h).
Proof.
  intros [Hs [Hd Ht]] H0 Hq Hh. specialize (Ht H0). pose proof (tracks_quiet _ _ _ _ Ht Hq) as Hv.
  rewrite Hh in Hv. unfold holding_of, reac_ifscan_find in Hv. unfold reac_ifscan_serve_failed.
  destruct (scan_find s name) as [i|] eqn:Ef; [|done]. simpl in Hv.
  destruct (entry_found _ _ _ Ef) as (e & Hi & Hu & <-). rewrite (entry_at_lookup s i e Hi) in Hv |- *.
  set (back st := IfEntry (e_name e) (e_ifindex e) st 0 (u64 (now + REAC_IFSCAN_RETRY_NS)) (e_flaps e)).
  assert (scan_inv 0 (put_entry i (back REAC_IFSCAN_DOWN) s) (delete (e_name e) h)) as HD.
  { destruct (renamed s i e (back REAC_IFSCAN_DOWN) Hs Hi Hu (λ _, eq_refl)) as [Hs' Hv'].
    split; [done|]. split; [cbn; lia|]. intros _. by apply (tracks_hold _ h (holding_of s) _ _ None Ht Hq). }
  assert (i < length (s_ifs s))%nat by by eapply lookup_lt_Some.
  destruct (e_state e) eqn:E; try done; [|by apply (scan_inv_weaken 0); [|lia]].
  replace (put_entry i (IfEntry _ _ REAC_IFSCAN_LINKED _ _ _) s)
    with (put_entry i (back REAC_IFSCAN_LINKED) (put_entry i (back REAC_IFSCAN_DOWN) s)).
  - apply (scan_inv_verb 0 _ _ i (back REAC_IFSCAN_DOWN)); [done|lia|by apply list_lookup_insert_eq|done..].
  - unfold put_entry, set_ifs. cbn. by rewrite list_insert_insert_eq.
Qed.

