(* ===== verification/IfScanProps.v ===== *)
(** * IfScanProps: the caller of the interface scan stays in step with it

    The theorems on [IfScan]: working off the verbs in order is always legal and
    ends with the sockets the table says, through overruns of the link watch and
    the dump that follows, a caller that empties the queue before every call of
    ordinary size loses none of them, and the allow list of wireless interfaces is
    the comma-separated list it is documented to be. *)
From stdpp Require Import gmap list.
From S2P Require Import Prelude EventRing KeyTable IfScan.

(** ** Every run of the scan *)

Inductive scan_op :=
| OpMsg (allow : option (list Z)) (m : link_msg)
| OpDrain (allow : option (list Z)) (reads : list nl_read)
| OpHeard (name : list Z)
| OpTick.

Definition scan_do (now : Z) (s : reac_ifscan) (op : scan_op) : reac_ifscan :=
  match op with
  | OpMsg allow m => msg_link allow now s m
  | OpDrain allow reads => reac_ifscan_drain allow now s reads
  | OpHeard name => reac_ifscan_heard s name now
  | OpTick => reac_ifscan_tick s now
  end.

(** The link messages of a read, and the most verbs a call can queue. *)
Definition read_size (r : nl_read) : Z :=
  match r with NlData l => zlen l | NlOverrun dump => zsum (zlen <$> take 64 dump) end.
Definition op_cost (op : scan_op) : Z :=
  match op with OpDrain _ reads => 2 * zsum (read_size <$> reads) | _ => REAC_IFSCAN_MAX end.

(** A scan and the sockets of its caller: the two take their steps in any order, and
    no verb is lost for want of room. A refused listener is reported when no verb of
    that interface waits in the queue. *)
Inductive scan_reach : reac_ifscan → gmap (list Z) listening → Prop :=
| scan_start : scan_reach reac_ifscan_init ∅
| scan_step s h now op : scan_reach s h → op_cost op < 2 ^ 62 →
    er_dropped (s_ev (scan_do now s op)) = 0 → scan_reach (scan_do now s op) h
| scan_work s h x s' h' : scan_reach s h → reac_ifscan_next s = Some (x, s') → work_off h x = Some h' →
    scan_reach s' h'
| scan_refused s h name now : scan_reach s h → h !! name = Some Listener → quiet (s_ev s) name →
    er_dropped (s_ev (reac_ifscan_serve_failed s name now)) = 0 →
    scan_reach (reac_ifscan_serve_failed s name now) (delete name h).

Lemma scan_inv_msg n allow now s m h :
  scan_inv n s h → n < 2 ^ 62 → scan_inv (n + 2) (msg_link allow now s m) h.
Proof.
  intros HI Hlt. unfold msg_link. case_match; [apply (scan_inv_weaken n); [done|lia]|].
  set (s1 := IfScan _ _ _ _ _). assert (scan_inv n s1 h) as HI1 by (destruct HI as [[] Ht]; by split; [split|]).
  case_match; [apply (scan_inv_weaken (n + 1)); [|lia]; apply scan_inv_gone; [done|lia]|].
  apply scan_inv_observe; [done|lia].
Qed.

Lemma scan_inv_feed allow now l n s h :
  scan_inv n s h → n + 2 * zlen l < 2 ^ 62 → scan_inv (n + 2 * zlen l) (feed_ex allow now s l).1 h.
Proof.
  revert n s. induction l as [|x l IH]; intros n s HI Hlt.
  { apply (scan_inv_weaken n); [done|]. change (zlen (@nil nl_msg)) with 0. lia. }
  rewrite zlen_cons in *. pose proof (zlen_nonneg l). destruct x; simpl.
  - replace (n + 2 * (1 + zlen l)) with (n + 2 + 2 * zlen l) by lia. apply IH; [apply scan_inv_msg; [done|lia]|lia].
  - apply (scan_inv_weaken n); [done|lia].
  - apply (scan_inv_weaken (n + 2 * zlen l)); [apply IH; [done|lia]|lia].
Qed.

Lemma sizes_nonneg {A} (f : A → Z) l : (∀ x, 0 ≤ f x) → 0 ≤ zsum (f <$> l).
Proof. intros Hf. induction l as [|x l IH]; [done|]. csimpl. specialize (Hf x). lia. Qed.

Lemma scan_inv_resync allow now dump n s h :
  scan_inv n s h → n + 2 * zsum (zlen <$> dump) < 2 ^ 62 →
  scan_inv (n + 2 * zsum (zlen <$> dump)) (resync_loop allow now s dump).1 h.
Proof.
  revert n s. induction dump as [|l dump IH]; intros n s HI Hlt.
  { simpl. apply (scan_inv_weaken n); [done|simpl; lia]. }
  csimpl. csimpl in Hlt. pose proof (sizes_nonneg zlen dump zlen_nonneg). pose proof (zlen_nonneg l).
  pose proof (scan_inv_feed allow now l n s h HI ltac:(lia)) as H1.
  destruct (feed_ex allow now s l) as [s1 done]. cbn [fst] in H1.
  destruct done; [apply (scan_inv_weaken (n + 2 * zlen l)); [exact H1|lia]|].
  replace (n + 2 * (zlen l + zsum (zlen <$> dump))) with (n + 2 * zlen l + 2 * zsum (zlen <$> dump)) by lia.
  apply IH; [done|lia].
Qed.

Lemma read_size_nonneg r : 0 ≤ read_size r.
Proof. destruct r; [apply zlen_nonneg|by apply sizes_nonneg, zlen_nonneg]. Qed.

(** An overrun changes nothing by itself: the dump that follows is folded like any
    other messages. *)
Lemma scan_inv_drain allow now reads n s h :
  scan_inv n s h → n + 2 * zsum (read_size <$> reads) < 2 ^ 62 →
  scan_inv (n + 2 * zsum (read_size <$> reads)) (reac_ifscan_drain allow now s reads) h.
Proof.
  unfold reac_ifscan_drain. revert n s. induction reads as [|r reads IH]; intros n s HI Hlt.
  { simpl. apply (scan_inv_weaken n); [done|simpl; lia]. }
  csimpl. csimpl in Hlt. pose proof (sizes_nonneg read_size reads read_size_nonneg). pose proof (read_size_nonneg r).
  replace (n + 2 * (read_size r + zsum (read_size <$> reads))) with (n + 2 * read_size r + 2 * zsum (read_size <$> reads)) by lia.
  apply IH; [|lia]. destruct r as [l|dump]; simpl in *.
  - apply scan_inv_feed; [done|lia].
  - apply scan_inv_resync; [|lia]. destruct HI as [[] Ht]; by split; [split|].
Qed.

Lemma scan_inv_op n s h now op :
  scan_inv n s h → 0 ≤ n → n + op_cost op < 2 ^ 62 → scan_inv (n + op_cost op) (scan_do now s op) h.
Proof.
  unfold REAC_IFSCAN_MAX. intros HI H0 Hlt. destruct op; cbn [scan_do op_cost] in *; unfold REAC_IFSCAN_MAX in *.
  - apply (scan_inv_weaken (n + 2)); [apply scan_inv_msg; [done|lia]|lia].
  - apply scan_inv_drain; [done|lia].
  - apply (scan_inv_weaken (n + 1)); [|lia]. apply scan_inv_heard; [done|lia].
  - apply scan_inv_tick; [done|lia].
Qed.

Lemma scan_inv_work s h x s' :
  scan_inv 0 s h → reac_ifscan_next s = Some (x, s') → ∃ h', work_off h x = Some h' ∧ scan_inv 0 s' h'.
Proof.
  intros [Hs [Hd Ht]] Hn. unfold reac_ifscan_next in Hn.
  destruct (next_event (s_ev s)) as [[y q]|] eqn:E; simplify_eq/=.
  destruct (tracks_next _ _ _ _ _ (Ht ltac:(lia)) E) as (h' & Hw & Ht'). exists h'. split; [done|].
  split; [by destruct Hs; split|]. split; [|done].
  unfold next_event in E. case_match; [done|]. destruct (er_ev (s_ev s) !! _); simplify_eq/=. lia.
Qed.

Lemma scan_init_ok : scan_inv 0 reac_ifscan_init ∅.
Proof.
  assert (H : ∀ i e, s_ifs reac_ifscan_init !! i = Some e → used e = false).
  { intros i e Hi. by apply lookup_replicate in Hi as [-> _]. }
  assert (F : Forall (λ e, entry_key e = None) (s_ifs reac_ifscan_init)).
  { apply Forall_lookup. intros i e Hi. unfold entry_key. by rewrite (H i e Hi). }
  split; [split|].
  - by apply uniq_free.
  - intros i e Hi Hu. by rewrite (H i e Hi) in Hu.
  - split; [cbn; lia|]. intros _. eapply tracks_ext; [by apply tracks_init|].
    intros k. by rewrite holding_get, kget_free.
Qed.

Lemma scan_inv_settle n s h : scan_inv n s h → er_dropped (s_ev s) = 0 → scan_inv 0 s h.
Proof. intros [Hs [Hd Ht]] H0. split; [done|]. split; [lia|done]. Qed.

Lemma scan_reach_inv s h : scan_reach s h → scan_inv 0 s h.
Proof.
  induction 1 as [|s h now op _ IH Hsz H0|s h x s' h' _ IH Hn Hw|s h name now _ IH Hh Hq H0].
  - apply scan_init_ok.
  - eapply scan_inv_settle; [|done]. by apply (scan_inv_op 0).
  - destruct (scan_inv_work s h x s' IH Hn) as (h1 & Hw1 & HI). congruence.
  - eapply scan_inv_settle; [|done]. eapply scan_inv_failed; [done| |done..]. destruct IH as [_ [? _]]. lia.
Qed.


(** ** A caller that empties the queue after every call loses nothing *)

Definition emits (m : Z) (s s' : reac_ifscan) : Prop :=
  ∃ l, s_ev s' = foldl emit (s_ev s) l ∧ zlen l ≤ m.

Lemma emits_refl m s s' : 0 ≤ m → s_ev s' = s_ev s → emits m s s'.
Proof. intros. by exists []. Qed.

Lemma emits_verb v name s s' : s_ev s' = s_ev s → emits 1 s (emit_verb v name s').
Proof. intros E. exists [IfEvent v (ifname name)]. by rewrite <- E. Qed.

Lemma emits_trans m n s s1 s2 : emits m s s1 → emits n s1 s2 → emits (m + n) s s2.
Proof.
  intros (l & E & Hl) (l' & E' & Hl'). exists (l ++ l'). rewrite foldl_app, zlen_app, <- E, E'. split; [done|lia].
Qed.

Lemma emits_le m n s s' : emits m s s' → m ≤ n → emits n s s'.
Proof. intros (l & E & Hl) ?. exists l. split; [done|lia]. Qed.

Ltac emits_tac :=
  repeat case_match; first [by apply emits_verb | apply emits_refl; [lia|done] | idtac].

Lemma emits_leave i s : emits 1 s (leave i s).
Proof. unfold leave. destruct (e_state (entry_at s i)); first [by apply (emits_verb _ _ s s) | by apply emits_refl]. Qed.

Lemma emits_carrier up now i s : emits 1 s (carrier up now i s).
Proof. unfold carrier. emits_tac. Qed.

Lemma emits_observe s name ifindex ether up now : emits 2 s (reac_ifscan_observe s name ifindex ether up now).
Proof.
  unfold reac_ifscan_observe. case_match; [by apply emits_refl|].
  assert (Hl : ∀ s', emits 1 s' (let '(s, e) := enlist name ifindex s' in
                                 match e with Some i => carrier up now i s | None => s end)).
  { intros s'. unfold enlist. destruct (kfree _ _) as [i|]; [|by apply emits_refl].
    apply (emits_le (0 + 1)); [|done]. eapply emits_trans; [|apply emits_carrier]. by apply emits_refl. }
  destruct (scan_find s name) as [i|]; destruct ether; simpl.
  - destruct (e_ifindex (entry_at s i) =? ifindex).
    + apply (emits_le 1); [|done]. apply emits_carrier.
    + apply (emits_trans 1 1 s (leave i s)); [apply emits_leave|apply Hl].
  - apply (emits_le 1); [|done]. apply emits_leave.
  - apply (emits_le 1); [|done]. apply Hl.
  - by apply emits_refl.
Qed.

Lemma emits_msg allow now s m : emits 2 s (msg_link allow now s m).
Proof.
  unfold msg_link. case_match; [by apply emits_refl|]. set (s1 := IfScan _ _ _ _ _).
  case_match.
  - unfold reac_ifscan_gone. repeat case_match; try by apply emits_refl.
    apply (emits_le (0 + 1)); [|done]. apply (emits_trans _ _ s s1); [by apply emits_refl|apply emits_leave].
  - change 2 with (0 + 2). apply (emits_trans _ _ s s1); [by apply emits_refl|apply emits_observe].
Qed.

Lemma emits_feed allow now l s : emits (2 * zlen l) s (feed_ex allow now s l).1.
Proof.
  revert s. induction l as [|x l IH]; intros s; [by apply emits_refl|]. rewrite zlen_cons.
  pose proof (zlen_nonneg l). destruct x; simpl.
  - replace (2 * (1 + zlen l)) with (2 + 2 * zlen l) by lia. eapply emits_trans; [apply emits_msg|apply IH].
  - by apply emits_refl; [lia|].
  - apply (emits_le (2 * zlen l)); [apply IH|lia].
Qed.

Lemma emits_resync allow now dump s : emits (2 * zsum (zlen <$> dump)) s (resync_loop allow now s dump).1.
Proof.
  revert s. induction dump as [|l dump IH]; intros s; [by apply emits_refl|]. csimpl.
  pose proof (sizes_nonneg zlen dump zlen_nonneg). pose proof (emits_feed allow now l s) as H1.
  destruct (feed_ex allow now s l) as [s1 done]. cbn [fst] in H1.
  destruct done; [apply (emits_le (2 * zlen l)); [exact H1|lia]|].
  rewrite Z.mul_add_distr_l. eapply emits_trans; [exact H1|apply IH].
Qed.

Lemma emits_drain allow now reads s :
  emits (2 * zsum (read_size <$> reads)) s (reac_ifscan_drain allow now s reads).
Proof.
  unfold reac_ifscan_drain. revert s. induction reads as [|r reads IH]; intros s; [by apply emits_refl|]. csimpl.
  rewrite Z.mul_add_distr_l. eapply emits_trans; [|apply IH]. destruct r as [l|dump]; simpl; [apply emits_feed|].
  set (s1 := IfScan _ _ _ _ _). apply (emits_le (0 + 2 * zsum (zlen <$> take 64 dump))); [|lia].
  apply (emits_trans _ _ s s1); [by apply emits_refl|apply emits_resync].
Qed.

Lemma emits_do now s op : emits (op_cost op) s (scan_do now s op).
Proof.
  destruct op; cbn [op_cost scan_do]; unfold REAC_IFSCAN_MAX.
  - apply (emits_le 2); [apply emits_msg|lia].
  - apply emits_drain.
  - apply (emits_le 1); [|done]. unfold reac_ifscan_heard. emits_tac.
  - unfold reac_ifscan_tick. change 16 with (zlen (seq 0 (Z.to_nat REAC_IFSCAN_MAX))).
    generalize (seq 0 (Z.to_nat REAC_IFSCAN_MAX)). intros l. revert s.
    induction l as [|i l IH]; intros s; [by apply emits_refl|]. rewrite zlen_cons. simpl.
    eapply emits_trans; [|apply IH]. unfold tick_entry. emits_tac.
Qed.

Lemma emits_size m s s' : emits m s s' → zlen (er_ev (s_ev s')) = zlen (er_ev (s_ev s)).
Proof.
  intros (l & -> & _). generalize (s_ev s). induction l as [|x l IH]; intros q; [done|].
  simpl. by rewrite IH, zlen_emit.
Qed.

Lemma emits_failed s name now : emits 1 s (reac_ifscan_serve_failed s name now).
Proof. unfold reac_ifscan_serve_failed. emits_tac. Qed.

Lemma reach_ring_size s h : scan_reach s h → zlen (er_ev (s_ev s)) = REAC_IFSCAN_EVENTS.
Proof.
  induction 1 as [|s h now op _ IH _ _|s h x s' h' _ IH Hn _|s h name now _ IH _ _ _]; [done|..].
  - by rewrite (emits_size _ s _ (emits_do now s op)).
  - unfold reac_ifscan_next, next_event in Hn. case_match; [done|].
    by destruct (er_ev (s_ev s) !! _); simplify_eq/=.
  - by rewrite (emits_size 1 s _ (emits_failed s name now)).
Qed.

Lemma drained_never_loses s h now op :
  scan_reach s h → op_cost op < REAC_IFSCAN_EVENTS → reac_ifscan_next s = None → er_dropped (s_ev (scan_do now s op)) = 0.
Proof.
  intros HR Hc Hn. pose proof (reach_ring_size s h HR) as Hz. destruct (scan_reach_inv s h HR) as [_ [Hd Ht]].
  destruct (Ht ltac:(lia)) as (l & Hq & _). assert (l = []) as ->.
  { destruct l as [|x l]; [done|]. destruct (queues_cons _ _ _ Hq) as (q' & E & _).
    unfold reac_ifscan_next in Hn. by rewrite E in Hn. }
  destruct (emits_do now s op) as (l & -> & Hl).
  destruct (queues_burst l (s_ev s) [] Hq) as [_ ->]; [|lia].
  rewrite Hz. change (zlen (@nil reac_ifscan_event)) with 0. lia.
Qed.

(** ** The allow list *)

Fixpoint commas (p : list Z) : list (list Z) :=
  match p with
  | [] => [[]]
  | c :: p =>
      if c =? 44 then [] :: commas p
      else match commas p with seg :: r => (c :: seg) :: r | [] => [[c]] end
  end.

Lemma commas_cons p : let '(seg, r) := to_comma p in
  (length r < S (length p))%nat ∧ (length r ≤ length p)%nat ∧
  (p ≠ [] → (length r < length p)%nat) ∧
  (commas p = [seg] ∧ r = [] ∨ commas p = seg :: commas r).
Proof.
  induction p as [|c p IH]; [naive_solver|]. simpl. destruct (c =? 44) eqn:E.
  - simpl. repeat split; [lia..|]. by right.
  - destruct (to_comma p) as [seg r]. destruct IH as (I1 & I2 & I3 & I4). simpl. repeat split; [lia..|].
    destruct I4 as [[-> ->]| ->]; [by left|by right].
Qed.

Lemma allow_loop_spec fuel p name :
  (length p ≤ fuel)%nat → name ≠ [] → allow_loop fuel p name = true ↔ name ∈ commas p.
Proof.
  revert p. induction fuel as [|fuel IH]; intros p Hf Hn.
  { destruct p; simpl in *; [|lia]. rewrite list_elem_of_singleton. naive_solver. }
  destruct p as [|c p]; [simpl; rewrite list_elem_of_singleton; naive_solver|].
  pose proof (commas_cons (c :: p)) as Hc. cbn [allow_loop]. destruct (to_comma (c :: p)) as [seg r].
  destruct Hc as (_ & _ & Hl & Hc). specialize (Hl ltac:(done)). simpl in Hf, Hl.
  destruct (decide (seg = name)) as [->|Hne].
  - rewrite Z.eqb_refl, firstn_all, zeqb_refl. cbn [andb]. split; [|done]. intros _.
    destruct Hc as [[-> _]| ->]; by left.
  - replace ((zlen seg =? zlen name) && zeqb seg (take (length seg) name)) with false.
    + rewrite (IH r) by (simpl in *; lia || done).
      destruct Hc as [[-> ->]| ->]; [cbn [commas]; rewrite !list_elem_of_singleton; naive_solver|].
      rewrite elem_of_cons. naive_solver.
    + symmetry. apply andb_false_iff. destruct (Z.eqb_spec (zlen seg) (zlen name)) as [E|]; [right|by left].
      apply zeqb_neq. rewrite take_ge by (unfold zlen in E; lia). done.
Qed.

(** A wireless interface is served only when the operator lists it, or lists all. *)
Lemma wireless_allowed_iff al name :
  name ≠ [] → al ≠ [] →
  reac_ifscan_wireless_allowed (Some al) (Some name) = true ↔ al = [42] ∨ name ∈ commas al.
Proof.
  intros Hn Ha. unfold reac_ifscan_wireless_allowed.
  rewrite (proj2 (zeqb_neq al [])), (proj2 (zeqb_neq name [])) by done. simpl.
  destruct (zeqb al [42]) eqn:E; [apply zeqb_eq in E; naive_solver|]. apply zeqb_neq in E.
  rewrite allow_loop_spec by done. naive_solver.
Qed.

(** ** A segment that is re-enumerated *)

Definition eth0 (ifindex : Z) : link_msg :=
  LinkMsg false [101; 116; 104; 48] ifindex true false true false.

(** Found linked (the verb worked off), REAC heard on it, and back under another index,
    as the dump after an overrun says, before the caller looked: three verbs wait. *)
Definition demo_seen : reac_ifscan := scan_do 1 reac_ifscan_init (OpMsg None (eth0 2)).
Definition demo_sniffed : reac_ifscan := from_option snd demo_seen (reac_ifscan_next demo_seen).
Definition demo_scan : reac_ifscan :=
  scan_do 3 (scan_do 2 demo_sniffed (OpHeard (lm_name (eth0 2))))
    (OpDrain None [NlOverrun [[NlLink (eth0 7); NlDone]]]).
Definition demo_sockets : gmap (list Z) listening := {[ lm_name (eth0 2) := Sniffer ]}.

Lemma demo_scan_reach : scan_reach demo_scan demo_sockets.
Proof.
  apply scan_step; [|reflexivity..]. apply scan_step; [|reflexivity..].
  eapply (scan_work demo_seen ∅); [|reflexivity|reflexivity]. by apply scan_step; [apply scan_start|..].
Defined.


Definition verb_at (o : option (reac_ifscan_event * reac_ifscan)) : option (reac_ifscan_verb * reac_ifscan) :=
  r ← o; Some (ev_verb r.1, r.2).
Example demo_scan_verbs : ∃ s1 s2 s3,
  verb_at (reac_ifscan_next demo_scan) = Some (REAC_IFSCAN_SERVE, s1) ∧
  verb_at (reac_ifscan_next s1) = Some (REAC_IFSCAN_DROP, s2) ∧
  verb_at (reac_ifscan_next s2) = Some (REAC_IFSCAN_LISTEN, s3) ∧ reac_ifscan_next s3 = None.
Proof. by eexists _, _, _. Qed.

(** The listener of the first verb is refused while the interface's DROP waits: when
    its turn comes there is nothing to close. *)
Lemma refused_behind_drop :
  let s1 := from_option snd demo_scan (reac_ifscan_next demo_scan) in
  let s2 := reac_ifscan_serve_failed s1 (lm_name (eth0 2)) 4 in
  (ev_verb ∘ fst <$> reac_ifscan_next s2) = Some REAC_IFSCAN_DROP ∧
  (reac_ifscan_next s2 ≫= λ r, work_off (∅ : gmap (list Z) listening) r.1) = None.
Proof. by vm_compute. Qed.

(** ** An interface that vanishes in an overrun *)

(** REAC is served on it; the message that it went is among those the kernel dropped,
    and the dump that follows lists what is left. Nothing says it went: it stays a
    segment. *)
Definition demo_segment : reac_ifscan :=
  let s := scan_do 2 demo_sniffed (OpHeard (lm_name (eth0 2))) in
  from_option snd s (reac_ifscan_next s).

Lemma vanished_in_overrun_stays :
  let s := reac_ifscan_drain None 3 demo_segment
             [NlOverrun [[NlLink (LinkMsg false [108; 111] 1 false true true false); NlDone]]] in
  s_overruns s = 1 ∧ e_state <$> reac_ifscan_find s (lm_name (eth0 2)) = Some REAC_IFSCAN_SEGMENT ∧
  reac_ifscan_next s = None ∧ reac_ifscan_next (reac_ifscan_tick s (2 ^ 63)) = None.
Proof. by vm_compute. Qed.
