(* ===== verification/Topo.v ===== *)
(** * Topo: which VLANs a wire carries, and the netdevs kept for them

    Models [transport/src/reac_topo.c]: the classifier of tagged frames and the
    table that asks its caller to ensure a netdev for every VLAN heard on a watched
    interface and to release it when the VLAN has gone silent. The caller's netdevs
    are the holdings of [EventRing]; the tap's socket and the listing of sysfs are
    the kernel's. *)
From stdpp Require Import gmap list.
From S2P Require Import Prelude EventRing KeyTable.

Definition REAC_TOPO_MAX_PARENTS : Z := 8.
Definition REAC_TOPO_MAX_VLANS : Z := 16.
Definition REAC_TOPO_EVENTS : Z := 32.
Definition REAC_TOPO_SILENCE_HOLD_NS : Z := 30 * 1000000000.
Definition REAC_TOPO_RETRY_NS : Z := 10 * 1000000000.

(** ** The classifier *)

Inductive reac_topo_kind :=
  REAC_TOPO_NOT_REAC | REAC_TOPO_UNTAGGED | REAC_TOPO_TAGGED | REAC_TOPO_TAGGED_OTHER.
#[export] Instance topo_kind_eq_dec : EqDecision reac_topo_kind.
Proof. solve_decision. Defined.

Definition REAC_ETHERTYPE : Z := 0x8819.
Definition VLAN_CTAG : Z := 0x8100.
Definition VLAN_STAG : Z := 0x88a8.

Definition be16at (b : list Z) (off : Z) : Z := u16 (Z.lor (Z.shiftl b.[off] 8) b.[off + 1]).

(** The tags left in the bytes, two at most: where they end and the VLAN they name;
    [None] when the frame ends inside one. *)
Fixpoint in_buffer_tags (depth : nat) (b : list Z) (off vid : Z) : option (Z * Z) :=
  match depth with
  | O => Some (off, vid)
  | S depth =>
      let et := be16at b off in
      if negb (et =? VLAN_CTAG) && negb (et =? VLAN_STAG) then Some (off, vid)
      else if zlen b <? off + 4 + 2 then None
      else
        let vid := if vid =? 0 then Z.land (be16at b (off + 2)) 0x0fff else vid in
        in_buffer_tags depth b (off + 4) vid
  end.

(** The kind and the VLAN. *)
Definition reac_topo_classify (buf : option (list Z)) (tci_valid : bool) (tci : Z) : reac_topo_kind * Z :=
  match buf with
  | None => (REAC_TOPO_NOT_REAC, 0)
  | Some b =>
      if zlen b <? 14 then (REAC_TOPO_NOT_REAC, 0)
      else
        match in_buffer_tags 2 b 12 (if tci_valid then Z.land tci 0x0fff else 0) with
        | None => (REAC_TOPO_NOT_REAC, 0)
        | Some (off, vid) =>
            (if negb (be16at b off =? REAC_ETHERTYPE)
             then if negb (vid =? 0) then REAC_TOPO_TAGGED_OTHER else REAC_TOPO_NOT_REAC
             else if negb (vid =? 0) then REAC_TOPO_TAGGED else REAC_TOPO_UNTAGGED, vid)
        end
  end.

(** ** The table *)

Inductive reac_topo_vstate := REAC_TOPO_VLAN_FREE | REAC_TOPO_VLAN_HEARD | REAC_TOPO_VLAN_SERVED.
#[export] Instance topo_vstate_eq_dec : EqDecision reac_topo_vstate.
Proof. solve_decision. Defined.
Inductive reac_topo_verb := REAC_TOPO_NONE | REAC_TOPO_ENSURE | REAC_TOPO_RELEASE.

Record reac_topo_vlan := TopoVlan {
  v_vid : Z; v_state : reac_topo_vstate; v_last_ns : Z; v_retry_after_ns : Z; v_frames : Z; v_minted : bool
}.
Definition no_vlan : reac_topo_vlan := TopoVlan 0 REAC_TOPO_VLAN_FREE 0 0 0 false.
Definition no_vlans : list reac_topo_vlan := replicate (Z.to_nat REAC_TOPO_MAX_VLANS) no_vlan.

Record reac_topo_parent := TopoParent {
  p_name : list Z; p_v : list reac_topo_vlan; p_tagged : Z; p_untagged : Z; p_said_untagged : bool
}.
Definition no_parent : reac_topo_parent := TopoParent [] no_vlans 0 0 false.

Record reac_topo_event := TopoEvent { ev_verb : reac_topo_verb; ev_parent : list Z; ev_vid : Z; ev_minted : bool }.
#[export] Instance topo_event_inhabited : Inhabited reac_topo_event :=
  populate (TopoEvent REAC_TOPO_NONE [] 0 false).

Record reac_topo := Topo { t_p : list reac_topo_parent; t_ev : evring reac_topo_event; t_unbounded : Z }.
Definition reac_topo_init : reac_topo :=
  Topo (replicate (Z.to_nat REAC_TOPO_MAX_PARENTS) no_parent) (ring_init REAC_TOPO_EVENTS) 0.

Definition emit_topo (v : reac_topo_verb) (parent : list Z) (vid : Z) (minted : bool) (t : reac_topo) : reac_topo :=
  Topo (t_p t) (emit (t_ev t) (TopoEvent v (ifname parent) vid minted)) (t_unbounded t).
Definition reac_topo_next (t : reac_topo) : option (reac_topo_event * reac_topo) :=
  '(x, q) ← next_event (t_ev t); Some (x, Topo (t_p t) q (t_unbounded t)).
Definition count_unbounded (t : reac_topo) : reac_topo := Topo (t_p t) (t_ev t) (u64 (t_unbounded t + 1)).

Definition parent_key (p : reac_topo_parent) : option (list Z) :=
  if zeqb (p_name p) [] then None else Some (p_name p).
Definition vlan_key (v : reac_topo_vlan) : option Z :=
  match v_state v with REAC_TOPO_VLAN_FREE => None | _ => Some (v_vid v) end.

Definition parent_of (t : reac_topo) (name : list Z) : option nat := kfind parent_key (t_p t) name.
Definition parent_at (t : reac_topo) (i : nat) : reac_topo_parent := default no_parent (t_p t !! i).
Definition vlan_at (p : reac_topo_parent) (j : nat) : reac_topo_vlan := default no_vlan (p_v p !! j).
Definition reac_topo_find (t : reac_topo) (parent : list Z) : option reac_topo_parent := kget parent_key (t_p t) parent.
Definition reac_topo_vlan_find (t : reac_topo) (parent : list Z) (vid : Z) : option reac_topo_vlan :=
  reac_topo_find t parent ≫= λ p, kget vlan_key (p_v p) vid.
(** The indices of the pointer [vlan_of] returns. *)
Definition vlan_of (t : reac_topo) (parent : list Z) (vid : Z) : option (nat * nat) :=
  i ← parent_of t parent; j ← kfind vlan_key (p_v (parent_at t i)) vid; Some (i, j).

Definition put_parent (i : nat) (p : reac_topo_parent) (t : reac_topo) : reac_topo :=
  Topo (<[i := p]> (t_p t)) (t_ev t) (t_unbounded t).
Definition put_vlan (i j : nat) (v : reac_topo_vlan) (t : reac_topo) : reac_topo :=
  let p := parent_at t i in
  put_parent i (TopoParent (p_name p) (<[j := v]> (p_v p)) (p_tagged p) (p_untagged p) (p_said_untagged p)) t.

Definition reac_topo_watch (t : reac_topo) (parent : list Z) : reac_topo * Z :=
  match parent_of t parent with
  | Some _ => (t, 0)
  | None =>
      match kfree parent_key (t_p t) with
      | Some i => (put_parent i (TopoParent (ifname parent) no_vlans 0 0 false) t, 0)
      | None => (count_unbounded t, -1)
      end
  end.

(** One slot of a release loop: a served VLAN that is [due] is announced and freed. *)
Definition release_vlan (due : reac_topo_vlan → bool) (i : nat) (t : reac_topo) (j : nat) : reac_topo :=
  let v := vlan_at (parent_at t i) j in
  if bool_decide (v_state v ≠ REAC_TOPO_VLAN_SERVED) || negb (due v) then t
  else put_vlan i j no_vlan (emit_topo REAC_TOPO_RELEASE (p_name (parent_at t i)) (v_vid v) (v_minted v) t).
Definition release_vlans (due : reac_topo_vlan → bool) (t : reac_topo) (i : nat) : reac_topo :=
  if zeqb (p_name (parent_at t i)) [] then t
  else foldl (release_vlan due i) t (seq 0 (Z.to_nat REAC_TOPO_MAX_VLANS)).

(** [unwatch] announces every served VLAN and then clears the whole slot. *)
Definition unwatch_vlan (i : nat) (t : reac_topo) (j : nat) : reac_topo :=
  let v := vlan_at (parent_at t i) j in
  if bool_decide (v_state v ≠ REAC_TOPO_VLAN_SERVED) then t
  else emit_topo REAC_TOPO_RELEASE (p_name (parent_at t i)) (v_vid v) (v_minted v) t.
Definition reac_topo_unwatch (t : reac_topo) (parent : list Z) : reac_topo :=
  match parent_of t parent with
  | None => t
  | Some i => put_parent i no_parent (foldl (unwatch_vlan i) t (seq 0 (Z.to_nat REAC_TOPO_MAX_VLANS)))
  end.

Definition count_frame (tagged : bool) (p : reac_topo_parent) : reac_topo_parent :=
  if tagged then TopoParent (p_name p) (p_v p) (u64 (p_tagged p + 1)) (p_untagged p) (p_said_untagged p)
  else TopoParent (p_name p) (p_v p) (p_tagged p) (u64 (p_untagged p + 1)) (p_said_untagged p).

(** A frame of VLAN [vid] on parent [i]. *)
Definition saw_vid (i : nat) (vid now_ns : Z) (t : reac_topo) : reac_topo :=
  let p := parent_at t i in
  match kfind vlan_key (p_v p) vid with
  | Some j =>
      let v := vlan_at p j in
      if bool_decide (v_state v = REAC_TOPO_VLAN_HEARD) && negb (v_retry_after_ns v =? 0)
         && (v_retry_after_ns v <=? now_ns)
      then emit_topo REAC_TOPO_ENSURE (p_name p) vid false
             (put_vlan i j (TopoVlan (v_vid v) (v_state v) now_ns 0 (u64 (v_frames v + 1)) (v_minted v)) t)
      else put_vlan i j (TopoVlan (v_vid v) (v_state v) now_ns (v_retry_after_ns v) (u64 (v_frames v + 1))
                           (v_minted v)) t
  | None =>
      match kfree vlan_key (p_v p) with
      | None => count_unbounded t
      | Some j => emit_topo REAC_TOPO_ENSURE (p_name p) vid false
                    (put_vlan i j (TopoVlan vid REAC_TOPO_VLAN_HEARD now_ns 0 1 false) t)
      end
  end.

Definition reac_topo_saw (t : reac_topo) (parent : list Z) (kind : reac_topo_kind) (vid now_ns : Z) : reac_topo :=
  match parent_of t parent with
  | None => t
  | Some i =>
      match kind with
      | REAC_TOPO_NOT_REAC => t
      | REAC_TOPO_UNTAGGED => put_parent i (count_frame false (parent_at t i)) t
      | _ =>
          if vid =? 0 then t
          else
            let t := if bool_decide (kind = REAC_TOPO_TAGGED)
                     then put_parent i (count_frame true (parent_at t i)) t else t in
            saw_vid i vid now_ns t
      end
  end.

Definition reac_topo_ensured (t : reac_topo) (parent : list Z) (vid : Z) (minted : bool) : reac_topo :=
  match vlan_of t parent vid with
  | None => t
  | Some (i, j) =>
      let v := vlan_at (parent_at t i) j in
      put_vlan i j (TopoVlan (v_vid v) REAC_TOPO_VLAN_SERVED (v_last_ns v) 0 (v_frames v) minted) t
  end.

Definition reac_topo_ensure_failed (t : reac_topo) (parent : list Z) (vid now_ns : Z) : reac_topo :=
  match vlan_of t parent vid with
  | None => t
  | Some (i, j) =>
      let v := vlan_at (parent_at t i) j in
      put_vlan i j (TopoVlan (v_vid v) REAC_TOPO_VLAN_HEARD (v_last_ns v) (u64 (now_ns + REAC_TOPO_RETRY_NS))
                      (v_frames v) false) t
  end.

Definition reac_topo_tick (t : reac_topo) (now_ns : Z) : reac_topo :=
  foldl (release_vlans (λ v, negb (now_ns <? u64 (v_last_ns v + REAC_TOPO_SILENCE_HOLD_NS)))) t
    (seq 0 (Z.to_nat REAC_TOPO_MAX_PARENTS)).
Definition reac_topo_release_all (t : reac_topo) : reac_topo :=
  foldl (release_vlans (λ _, true)) t (seq 0 (Z.to_nat REAC_TOPO_MAX_PARENTS)).

(** ** What it answers *)

Definition reac_topo_is_trunk (t : reac_topo) (parent : list Z) : bool :=
  match reac_topo_find t parent with Some p => 0 <? p_tagged p | None => false end.

Definition reac_topo_untagged_on_trunk (t : reac_topo) (parent : list Z) : reac_topo * bool :=
  match parent_of t parent with
  | None => (t, false)
  | Some i =>
      let p := parent_at t i in
      if (p_tagged p =? 0) || (p_untagged p =? 0) || p_said_untagged p then (t, false)
      else (put_parent i (TopoParent (p_name p) (p_v p) (p_tagged p) (p_untagged p) true) t, true)
  end.

Definition reac_topo_count (t : reac_topo) (parent : list Z) (st : reac_topo_vstate) : Z :=
  match reac_topo_find t parent with
  | Some p => if bool_decide (st = REAC_TOPO_VLAN_FREE) then 0 else zlen (filter (λ v, v_state v = st) (p_v p))
  | None => 0
  end.

(** The first [max] of them are written when there is an array; the count is of those
    written, or of all without one. *)
Definition reac_topo_heard_vids (t : reac_topo) (parent : list Z) (max : option Z) : list Z * Z :=
  match reac_topo_find t parent with
  | None => ([], 0)
  | Some p =>
      let l := omap vlan_key (p_v p) in
      match max with
      | None => ([], zlen l)
      | Some max => (take (Z.to_nat max) l, if max <? zlen l then max else zlen l)
      end
  end.
