(* ===== verification/TopoProps.v ===== *)
(** * TopoProps: every operation on the VLAN table keeps its caller in step

    The lemmas on [Topo]: what one stored slot does to the netdevs the table says
    the caller has, what the release loops leave, and that each operation carries
    the simulation of [EventRing] over. *)
From stdpp Require Import gmap list.
From S2P Require Import Prelude EventRing KeyTable Topo.

(** ** The caller's netdevs *)

(** A netdev is named by its parent and VLAN; the caller remembers whether it minted
    it. An ENSURE asks for one that is not there and leaves the answer to the caller;
    a RELEASE names the one to give up. *)
#[export] Instance topo_protocol : Protocol reac_topo_event (list Z * Z) bool := {
  ev_key x := (ev_parent x, ev_vid x);
  ev_effect x o :=
    match ev_verb x, o with
    | REAC_TOPO_ENSURE, None => Some None
    | REAC_TOPO_RELEASE, Some minted => if eqb minted (ev_minted x) then Some None else None
    | _, _ => None
    end
}.

Definition served (v : reac_topo_vlan) : option bool :=
  match v_state v with REAC_TOPO_VLAN_SERVED => Some (v_minted v) | _ => None end.
Definition netdev_of (t : reac_topo) (k : list Z * Z) : option bool :=
  reac_topo_vlan_find t k.1 k.2 ≫= served.

(** ** The table *)

Record parent_ok (p : reac_topo_parent) : Prop := {
  po_uniq : uniq vlan_key (p_v p);
  po_fits : zlen (p_name p) < IFNAMSIZ;
  po_size : zlen (p_v p) = REAC_TOPO_MAX_VLANS
}.
Record topo_ok (t : reac_topo) : Prop := {
  to_uniq : uniq parent_key (t_p t);
  to_parents : Forall parent_ok (t_p t);
  to_size : zlen (t_p t) = REAC_TOPO_MAX_PARENTS
}.

Lemma parent_ok_at t i p : topo_ok t → t_p t !! i = Some p → parent_ok p.
Proof. intros Ht Hi. eapply (Forall_lookup_1 _ _ i p (to_parents t Ht) Hi). Qed.

Lemma parent_at_lookup t i p : t_p t !! i = Some p → parent_at t i = p.
Proof. unfold parent_at. by intros ->. Qed.
Lemma vlan_at_lookup p j v : p_v p !! j = Some v → vlan_at p j = v.
Proof. unfold vlan_at. by intros ->. Qed.

Lemma parent_named p name : parent_key p = Some name ↔ p_name p = name ∧ name ≠ [].
Proof.
  unfold parent_key. destruct (zeqb (p_name p) []) eqn:E; [apply zeqb_eq in E|apply zeqb_neq in E]; naive_solver.
Qed.

Lemma no_vlans_ok : uniq vlan_key no_vlans ∧ ∀ vid, kget vlan_key no_vlans vid = None.
Proof.
  assert (Forall (λ v, vlan_key v = None) no_vlans) as H by (by apply Forall_replicate).
  split; [by apply uniq_free|]. intros vid. by apply kget_free.
Qed.

(** One parent replaced, its VLANs looked up separately. *)
Lemma topo_ok_put t i p' : topo_ok t → uniq parent_key (<[i := p']> (t_p t)) → parent_ok p' → topo_ok (put_parent i p' t).
Proof.
  intros Ht Hu Hp. split; [done| |].
  - by apply Forall_insert; [apply Ht|].
  - cbn. unfold zlen. rewrite length_insert. apply Ht.
Qed.

Lemma parent_store t i p p' name :
  topo_ok t → t_p t !! i = Some p → parent_key p = Some name → p_name p' = p_name p → parent_ok p' →
  topo_ok (put_parent i p' t) ∧
  ∀ k, netdev_of (put_parent i p' t) k =
    if decide (k.1 = name) then kget vlan_key (p_v p') k.2 ≫= served else netdev_of t k.
Proof.
  intros Ht Hi Hk Hn Hp. assert (parent_key p' = Some name) as Hk' by (unfold parent_key in *; by rewrite Hn).
  destruct (put_same parent_key _ i p p' name (to_uniq t Ht) Hi Hk) as [Hu Hg]; [naive_solver|].
  split; [by apply topo_ok_put|]. intros [nm vid]. unfold netdev_of, reac_topo_vlan_find, reac_topo_find. simpl.
  rewrite Hg, Hk'. by case_decide.
Qed.

Lemma netdev_at t i p name vid :
  topo_ok t → t_p t !! i = Some p → parent_key p = Some name →
  netdev_of t (name, vid) = kget vlan_key (p_v p) vid ≫= served.
Proof.
  intros Ht Hi Hk. unfold netdev_of, reac_topo_vlan_find, reac_topo_find. simpl.
  by rewrite (kget_at parent_key _ name i p (to_uniq t Ht) Hi Hk).
Qed.

(** One VLAN replaced: its slot keeps the VLAN, gives it up or takes one no slot has. *)
Lemma vlan_store t i p name j v v' :
  topo_ok t → t_p t !! i = Some p → parent_key p = Some name → p_v p !! j = Some v →
  (∀ k, vlan_key v' = Some k → vlan_key v = Some k ∨ kget vlan_key (p_v p) k = None) →
  topo_ok (put_vlan i j v' t) ∧
  ∀ k, netdev_of (put_vlan i j v' t) k =
    if decide (k.1 = name ∧ vlan_key v' = Some k.2) then served v'
    else if decide (k.1 = name ∧ vlan_key v = Some k.2) then None else netdev_of t k.
Proof.
  intros Ht Hi Hk Hj Hn. pose proof (parent_ok_at t i p Ht Hi) as Hp.
  destruct (put_uniq vlan_key _ j v v' (po_uniq p Hp) Hj Hn) as [Hu Hg].
  unfold put_vlan. rewrite (parent_at_lookup t i p Hi). set (p' := TopoParent _ _ _ _ _).
  destruct (parent_store t i p p' name Ht Hi Hk) as [Ht' Hv]; [done| |].
  { split; [done|apply Hp|]. cbn. unfold zlen. rewrite length_insert. apply Hp. }
  split; [done|]. intros [nm vid]. rewrite Hv. cbn [fst snd p_v p']. rewrite Hg.
  destruct (decide (nm = name)) as [->|Hne]; [|by rewrite !decide_False by naive_solver].
  rewrite (netdev_at t i p name vid) by done. repeat case_decide; naive_solver.
Qed.

(** ** Every step keeps the caller in step *)

Definition topo_inv (n : Z) (t : reac_topo) (h : gmap (list Z * Z) bool) : Prop :=
  topo_ok t ∧ tracked n (t_ev t) h (netdev_of t).

Lemma topo_inv_weaken n m t h : topo_inv n t h → n ≤ m → topo_inv m t h.
Proof. intros [Ht Hk] ?. split; [done|]. by eapply tracked_ext. Qed.

(** A slot in use, by its indices. *)
Definition vlan_slot (t : reac_topo) (i : nat) (p : reac_topo_parent) (name : list Z) (j : nat) (v : reac_topo_vlan) : Prop :=
  t_p t !! i = Some p ∧ parent_key p = Some name ∧ p_v p !! j = Some v.

(** Stored without a word: what the caller holds does not change. *)
Lemma topo_inv_store n t h i p name j v v' :
  topo_inv n t h → vlan_slot t i p name j v → vlan_key v' = vlan_key v → served v' = served v →
  topo_inv n (put_vlan i j v' t) h.
Proof.
  intros [Ht Hk] (Hi & Hn & Hj) Hv Hs.
  destruct (vlan_store t i p name j v v' Ht Hi Hn Hj) as [Ht' Hg]; [rewrite Hv; auto|]. split; [done|].
  eapply tracked_ext; [exact Hk|done|]. intros [nm vid]. rewrite Hg, Hv. simpl.
  case_decide as Hd; [|done]. destruct Hd as [-> Hd]. rewrite (netdev_at t i p) by done.
  by rewrite (kget_at vlan_key _ vid j v) by (done || by apply (parent_ok_at t i)).
Qed.

(** Stored together with the event that announces it, about the VLAN [vid]. *)
Lemma topo_inv_announce n t h i p name j v v' verb vid minted :
  topo_inv n t h → n < 2 ^ 63 → vlan_slot t i p name j v →
  (vlan_key v = Some vid ∨ vlan_key v = None ∧ kget vlan_key (p_v p) vid = None) →
  (vlan_key v' = Some vid ∨ vlan_key v' = None) →
  ev_effect (TopoEvent verb name vid minted) (netdev_of t (name, vid)) = Some (served v') →
  topo_inv (n + 1) (emit_topo verb (p_name p) vid minted (put_vlan i j v' t)) h.
Proof.
  intros [Ht Hk] Hlt (Hi & Hn & Hj) Hv Hv' He.
  assert (∀ k, vlan_key v' = Some k → vlan_key v = Some k ∨ kget vlan_key (p_v p) k = None) as Hc by naive_solver.
  destruct (vlan_store t i p name j v v' Ht Hi Hn Hj Hc) as [Ht' Hg].
  split; [by destruct Ht'; split|]. cbn [emit_topo t_ev put_vlan put_parent].
  pose proof Hn as Hn'. apply parent_named in Hn' as [Hpn _].
  rewrite ifname_id by (apply (parent_ok_at t i p Ht Hi)).
  apply (tracked_emit n (t_ev t) h (netdev_of t) _ (TopoEvent verb (p_name p) vid minted) (served v'));
    [done..|by rewrite Hpn|].
  intros [nm vid']. cbn [ev_key topo_protocol ev_parent ev_vid]. rewrite Hpn.
  transitivity (netdev_of (put_vlan i j v' t) (nm, vid')); [done|]. rewrite Hg. simpl.
  assert (vlan_key v' = None → served v' = None) as Hs by (unfold vlan_key, served; by destruct (v_state v')).
  case_decide as Hd; [|case_decide as Hd2].
  - destruct Hd as [-> Hd]. rewrite decide_True; [done|]. f_equal. destruct Hv'; congruence.
  - destruct Hd2 as [-> Hd2]. assert (vid' = vid) as -> by (destruct Hv as [|[? _]]; congruence).
    rewrite decide_True by done. symmetry. apply Hs. destruct Hv' as [Hv'|]; [by destruct Hd|done].
  - case_decide as Hd3; [|done]. injection Hd3 as -> ->. symmetry. rewrite Hs.
    + destruct Hv as [Hv|[_ Hv]]; [by destruct Hd2|]. by rewrite (netdev_at t i p), Hv by done.
    + destruct Hv' as [Hv'|]; [by destruct Hd|done].
Qed.

Lemma served_heard v : v_state v ≠ REAC_TOPO_VLAN_SERVED → served v = None.
Proof. unfold served. by destruct (v_state v). Qed.

Lemma topo_inv_release n t h due i j :
  topo_inv n t h → n < 2 ^ 63 → p_name (parent_at t i) ≠ [] → topo_inv (n + 1) (release_vlan due i t j) h.
Proof.
  intros HI Hlt Hne. unfold release_vlan. case_match eqn:E; [apply (topo_inv_weaken n); [done|lia]|].
  apply orb_false_iff in E as [Hs _]. apply bool_decide_eq_false, dec_stable in Hs.
  unfold parent_at in *. destruct (t_p t !! i) as [p|] eqn:Hi; cbn [default from_option id] in *; [|done].
  unfold vlan_at in *. destruct (p_v p !! j) as [v|] eqn:Hj; cbn [default from_option id] in *; [|done].
  assert (parent_key p = Some (p_name p)) as Hn by (by apply parent_named).
  assert (vlan_key v = Some (v_vid v)) as Hv by (unfold vlan_key; by rewrite Hs).
  apply (topo_inv_announce n t h i p (p_name p) j v no_vlan); try done; [by left|by right|].
  rewrite (netdev_at t i p) by (done || apply HI).
  rewrite (kget_at vlan_key _ _ j v) by (done || by apply (parent_ok_at t i p (proj1 HI))).
  simpl. unfold served. rewrite Hs. simpl. by rewrite eqb_reflx.
Qed.

(** ** The release loops *)

Definition is_served (t : reac_topo) (i j : nat) : Prop :=
  v_state (vlan_at (parent_at t i) j) = REAC_TOPO_VLAN_SERVED.

Lemma no_parent_vlan j : vlan_at no_parent j = no_vlan.
Proof.
  unfold vlan_at, no_parent, no_vlans. cbn [p_v]. destruct (_ !! j) as [v|] eqn:E; [|done].
  by apply lookup_replicate in E as [-> _].
Qed.

Lemma freed_served t i j i' j' :
  is_served (put_vlan i j no_vlan t) i' j' → is_served t i' j' ∧ (i', j') ≠ (i, j).
Proof.
  unfold is_served, put_vlan, put_parent, parent_at at 1. cbn [t_p].
  destruct (decide (i' = i)) as [->|Hi].
  - destruct (t_p t !! i) as [p|] eqn:Hp.
    + rewrite list_lookup_insert_eq by by eapply lookup_lt_Some. rewrite (parent_at_lookup t i p Hp).
      unfold vlan_at at 1. cbn. destruct (decide (j' = j)) as [->|Hj].
      * destruct (p_v p !! j) eqn:Hv.
        -- by rewrite list_lookup_insert_eq by by eapply lookup_lt_Some.
        -- by rewrite list_insert_ge, Hv by by apply lookup_ge_None.
      * rewrite list_lookup_insert_ne by done. intros Hs. split; [done|congruence].
    + rewrite list_insert_ge, Hp by by apply lookup_ge_None. cbn [default from_option]. by rewrite no_parent_vlan.
  - rewrite list_lookup_insert_ne by done. intros Hs. split; [done|congruence].
Qed.

Lemma release_served due i t j i' j' : is_served (release_vlan due i t j) i' j' → is_served t i' j'.
Proof. unfold release_vlan. case_match; [done|]. by intros [? _]%freed_served. Qed.

Lemma release_frees i t j : ¬ is_served (release_vlan (λ _, true) i t j) i j.
Proof.
  unfold release_vlan. case_match eqn:E; [|by intros [_ ?]%freed_served].
  rewrite orb_false_r in E. by apply bool_decide_eq_true in E.
Qed.

Lemma loop_served due i l t i' j' : is_served (foldl (release_vlan due i) t l) i' j' → is_served t i' j'.
Proof. revert t. induction l as [|j l IH]; intros t; [done|]. intros H. by eapply release_served, IH. Qed.

Lemma loop_frees i l t j : j ∈ l → ¬ is_served (foldl (release_vlan (λ _, true) i) t l) i j.
Proof.
  revert t. induction l as [|j0 l IH]; intros t; [by intros ?%not_elem_of_nil|].
  intros [->|Hj]%elem_of_cons; [|by apply IH]. simpl. intros H%loop_served. by apply release_frees in H.
Qed.

Lemma vlan_put_ne i j v t i' j' :
  j' ≠ j → vlan_at (parent_at (put_vlan i j v t) i') j' = vlan_at (parent_at t i') j'.
Proof.
  intros Hj. unfold put_vlan, put_parent, parent_at at 1. cbn [t_p].
  destruct (decide (i' = i)) as [->|]; [|by rewrite list_lookup_insert_ne].
  destruct (t_p t !! i) as [p|] eqn:Hp.
  - rewrite list_lookup_insert_eq by by eapply lookup_lt_Some. unfold vlan_at. cbn.
    by rewrite list_lookup_insert_ne.
  - rewrite list_insert_ge by by apply lookup_ge_None. done.
Qed.

Lemma put_vlan_name i j v t i' : p_name (parent_at (put_vlan i j v t) i') = p_name (parent_at t i').
Proof.
  unfold put_vlan, put_parent, parent_at at 1. cbn [t_p].
  destruct (t_p t !! i) as [p|] eqn:Hp.
  - destruct (decide (i' = i)) as [->|]; [|by rewrite list_lookup_insert_ne].
    by rewrite list_lookup_insert_eq by by eapply lookup_lt_Some.
  - by rewrite list_insert_ge by by apply lookup_ge_None.
Qed.

Lemma release_name due i t j i' : p_name (parent_at (release_vlan due i t j) i') = p_name (parent_at t i').
Proof. unfold release_vlan. case_match; [done|]. by rewrite put_vlan_name. Qed.

Lemma vlans_name due t i i' : p_name (parent_at (release_vlans due t i) i') = p_name (parent_at t i').
Proof.
  unfold release_vlans. case_match; [done|]. generalize (seq 0 (Z.to_nat REAC_TOPO_MAX_VLANS)). intros l.
  revert t H. induction l as [|j l IH]; intros t H; [done|]. simpl. rewrite IH; by rewrite !release_name.
Qed.

Lemma zlen_seq a n : zlen (seq a n) = Z.of_nat n.
Proof. unfold zlen. by rewrite length_seq. Qed.

Lemma topo_inv_release_loop n t h due i l :
  topo_inv n t h → n + zlen l < 2 ^ 63 → p_name (parent_at t i) ≠ [] →
  topo_inv (n + zlen l) (foldl (release_vlan due i) t l) h.
Proof.
  revert n t. induction l as [|j l IH]; intros n t HI Hn Hne; [by rewrite zlen_nil, Z.add_0_r|].
  rewrite zlen_cons in Hn |- *. pose proof (zlen_nonneg l). rewrite Z.add_assoc. simpl. apply IH; [|lia|].
  - apply topo_inv_release; [done|lia|done].
  - by rewrite release_name.
Qed.

Lemma topo_inv_release_vlans n t h due i :
  topo_inv n t h → n < 2 ^ 62 → topo_inv (n + 16) (release_vlans due t i) h.
Proof.
  intros HI Hn. unfold release_vlans. case_match eqn:E; [apply (topo_inv_weaken n); [done|lia]|].
  apply zeqb_neq in E. pose proof (topo_inv_release_loop n t h due i (seq 0 (Z.to_nat REAC_TOPO_MAX_VLANS)) HI) as H.
  unfold REAC_TOPO_MAX_VLANS in *. rewrite zlen_seq in H. apply H; [lia|done].
Qed.

Lemma topo_inv_releases n t h due l :
  topo_inv n t h → n + 16 * zlen l < 2 ^ 62 → topo_inv (n + 16 * zlen l) (foldl (release_vlans due) t l) h.
Proof.
  revert n t. induction l as [|i l IH]; intros n t HI Hn; [rewrite (@zlen_nil nat), Z.mul_0_r, Z.add_0_r; done|].
  rewrite zlen_cons in Hn |- *. pose proof (zlen_nonneg l).
  replace (n + 16 * (1 + zlen l)) with ((n + 16) + 16 * zlen l) by lia. simpl. apply IH; [|lia].
  apply topo_inv_release_vlans; [done|lia].
Qed.

(** What the table says, and where it says so. *)
Lemma netdev_served t k m :
  topo_ok t → netdev_of t k = Some m →
  ∃ i j, (i < 8)%nat ∧ (j < 16)%nat ∧ is_served t i j ∧ p_name (parent_at t i) = k.1 ∧ k.1 ≠ [].
Proof.
  intros Ht H. unfold netdev_of, reac_topo_vlan_find, reac_topo_find in H.
  destruct (kget parent_key (t_p t) k.1) as [p|] eqn:G; [|done]. simpl in H.
  destruct (kget vlan_key (p_v p) k.2) as [v|] eqn:G'; [|done]. simpl in H.
  pose proof (kget_key _ _ _ _ G) as [Hn Hne]%parent_named.
  apply kget_Some in G as (i & _ & Hi), G' as (j & _ & Hj). exists i, j.
  pose proof (po_size p (parent_ok_at t i p Ht Hi)). pose proof (to_size t Ht).
  apply lookup_lt_Some in Hi as Hil. apply lookup_lt_Some in Hj as Hjl.
  unfold zlen, REAC_TOPO_MAX_VLANS, REAC_TOPO_MAX_PARENTS in *. split_and!; [lia|lia| |by rewrite (parent_at_lookup t i p Hi)|done].
  unfold is_served. rewrite (parent_at_lookup t i p Hi), (vlan_at_lookup p j v Hj).
  unfold served in H. by destruct (v_state v).
Qed.

Lemma vlans_served due t i i' j' : is_served (release_vlans due t i) i' j' → is_served t i' j'.
Proof. unfold release_vlans. case_match; [done|]. apply loop_served. Qed.

Lemma vlans_kept due l t i j : is_served (foldl (release_vlans due) t l) i j → is_served t i j.
Proof.
  revert t. induction l as [|i0 l IH]; intros t H; [exact H|]. apply IH in H. exact (vlans_served _ _ _ _ _ H).
Qed.

Lemma parents_freed l t i j :
  i ∈ l → (j < 16)%nat → p_name (parent_at t i) ≠ [] → ¬ is_served (foldl (release_vlans (λ _, true)) t l) i j.
Proof.
  intros Hi Hj. revert t. induction l as [|i0 l IH]; intros t Hn; [by apply not_elem_of_nil in Hi|]. simpl.
  apply elem_of_cons in Hi as [<-|Hi]; [|apply IH; [done|by rewrite vlans_name]].
  intros H%vlans_kept. unfold release_vlans in H. case_match eqn:E; [by apply zeqb_eq in E|].
  apply loop_frees in H; [done|]. apply elem_of_seq. unfold REAC_TOPO_MAX_VLANS. lia.
Qed.

(** After the release of everything no VLAN is served. *)
Lemma all_released t k : topo_ok (reac_topo_release_all t) → netdev_of (reac_topo_release_all t) k = None.
Proof.
  intros Ht. destruct (netdev_of _ k) as [m|] eqn:E; [|done].
  destruct (netdev_served _ k m Ht E) as (i & j & Hi & Hj & Hs & Hn & Hne). exfalso. revert Hs.
  apply parents_freed; [apply elem_of_seq; unfold REAC_TOPO_MAX_PARENTS; lia|done|]. intros H0. rewrite <- Hn in Hne. apply Hne.
  rewrite <- H0. unfold reac_topo_release_all. generalize (seq 0 (Z.to_nat REAC_TOPO_MAX_PARENTS)). clear. intros l.
  revert t. induction l as [|i0 l IH]; intros t; [done|]. simpl. by rewrite IH, vlans_name.
Qed.

(** [unwatch] queues what the release loop does, and clears the slot. *)
Lemma unwatch_eq t parent i :
  parent_of t parent = Some i →
  reac_topo_unwatch t parent = put_parent i no_parent (foldl (release_vlan (λ _, true) i) t (seq 0 16)).
Proof.
  intros Hp. unfold reac_topo_unwatch. rewrite Hp. change (Z.to_nat REAC_TOPO_MAX_VLANS) with 16%nat.
  assert (H : ∀ l t1 t2, NoDup l →
    t_ev t1 = t_ev t2 ∧ t_unbounded t1 = t_unbounded t2 ∧ <[i := no_parent]> (t_p t1) = <[i := no_parent]> (t_p t2) ∧
    p_name (parent_at t1 i) = p_name (parent_at t2 i) ∧
    (∀ j, j ∈ l → vlan_at (parent_at t1 i) j = vlan_at (parent_at t2 i) j) →
    put_parent i no_parent (foldl (unwatch_vlan i) t1 l) = put_parent i no_parent (foldl (release_vlan (λ _, true) i) t2 l)).
  { induction l as [|j l IH]; intros t1 t2 Hnd (E & U & P & N & V).
    { unfold put_parent. simpl. by rewrite E, U, P. }
    apply NoDup_cons in Hnd as [Hj Hnd]. simpl. apply IH; [done|]. unfold unwatch_vlan, release_vlan.
    rewrite orb_false_r, (V j) by by left. case_match; [split_and!; auto; intros; apply V; by right|].
    cbn [t_ev t_unbounded t_p emit_topo]. split_and!.
    - unfold put_vlan, put_parent. cbn. by rewrite E, N.
    - done.
    - unfold put_vlan, put_parent. cbn. by rewrite list_insert_insert_eq.
    - rewrite put_vlan_name. apply N.
    - intros j' Hj'. rewrite vlan_put_ne by (intros ->; done). apply V. by right. }
  apply H; [apply NoDup_seq|]. by split_and!.
Qed.

(** ** The other operations *)

Lemma topo_inv_watch n t h name :
  topo_inv n t h → name ≠ [] → zlen name < IFNAMSIZ → topo_inv n (reac_topo_watch t name).1 h.
Proof.
  intros [Ht Hk] Hne Hfit. unfold reac_topo_watch. destruct (parent_of t name) as [i|] eqn:Hp; [done|].
  destruct (kfree parent_key (t_p t)) as [i|] eqn:Hf; [|by split; [destruct Ht|]].
  apply kfree_Some in Hf as (p & Hi & Hn). apply kget_None in Hp. rewrite ifname_id by done. simpl.
  set (p' := TopoParent name no_vlans 0 0 false).
  assert (parent_key p' = Some name) as Hn' by (by apply parent_named).
  destruct (put_new parent_key _ i p p' name (to_uniq t Ht) Hi Hn Hn' Hp) as [Hu Hg].
  split.
  - apply topo_ok_put; [done..|]. split; [apply no_vlans_ok|done|done].
  - eapply tracked_ext; [exact Hk|done|]. intros [nm vid].
    unfold netdev_of, reac_topo_vlan_find, reac_topo_find, put_parent. cbn [fst snd t_p]. rewrite Hg.
    case_decide as Hd; [|done]. rewrite Hd, Hp. unfold p'. cbn [mbind option_bind p_v].
    by rewrite (proj2 no_vlans_ok).
Qed.

(** A parent all of whose VLANs were released is cleared. *)
Lemma topo_inv_clear n t h i p name l :
  topo_inv n t h → n + zlen l < 2 ^ 62 → t_p t !! i = Some p → parent_key p = Some name →
  (∀ j, (j < 16)%nat → j ∈ l) →
  topo_inv (n + zlen l) (put_parent i no_parent (foldl (release_vlan (λ _, true) i) t l)) h.
Proof.
  intros HI Hlt Hi [Hpn Hne]%parent_named Hl.
  assert (p_name (parent_at t i) = name) as Hname by (by rewrite (parent_at_lookup t i p Hi)).
  destruct (topo_inv_release_loop n t h (λ _, true) i l HI) as [Ht' Hk']; [lia|congruence|].
  assert (Hfree : ∀ j, j ∈ l → ¬ is_served (foldl (release_vlan (λ _, true) i) t l) i j)
    by (intros j; apply loop_frees).
  assert (p_name (parent_at (foldl (release_vlan (λ _, true) i) t l) i) = name) as Hname'.
  { rewrite <- Hname. clear. revert t. induction l as [|j l IH]; intros t; [done|]. simpl. by rewrite IH, release_name. }
  set (t' := foldl (release_vlan (λ _, true) i) t l) in *. clearbody t'.
  unfold parent_at in Hname'. destruct (t_p t' !! i) as [p'|] eqn:Hi'; cbn [default from_option id] in Hname'; [|by destruct Hne].
  assert (parent_key p' = Some name) as Hn' by (by apply parent_named).
  destruct (put_same parent_key _ i p' no_parent name (to_uniq t' Ht') Hi' Hn') as [Hu Hg]; [done|].
  split; [apply topo_ok_put; [done..|]; split; [apply no_vlans_ok|done|done]|].
  eapply tracked_ext; [exact Hk'|done|]. intros [nm vid].
  unfold netdev_of at 1, reac_topo_vlan_find, reac_topo_find, put_parent. cbn [fst snd t_p]. rewrite Hg.
  case_decide as Hd; [subst nm|done]. rewrite (netdev_at t' i p' name vid) by done. symmetry.
  destruct (kget vlan_key (p_v p') vid) as [v|] eqn:Gv; [|done]. apply kget_Some in Gv as (j & _ & Hj).
  cbn [mbind option_bind]. apply served_heard. intros Hs. apply (Hfree j).
  - apply Hl. apply lookup_lt_Some in Hj. pose proof (po_size p' (parent_ok_at t' i p' Ht' Hi')).
    unfold zlen, REAC_TOPO_MAX_VLANS in *. lia.
  - unfold is_served. by rewrite (parent_at_lookup t' i p' Hi'), (vlan_at_lookup p' j v Hj).
Qed.

Lemma topo_inv_unwatch n t h name :
  topo_inv n t h → n < 2 ^ 61 → topo_inv (n + 16) (reac_topo_unwatch t name) h.
Proof.
  intros HI Hlt. destruct (parent_of t name) as [i|] eqn:Hp.
  2: { unfold reac_topo_unwatch. rewrite Hp. apply (topo_inv_weaken n); [done|lia]. }
  rewrite (unwatch_eq t name i Hp). apply kfind_Some in Hp as (p & Hi & Hn).
  pose proof (topo_inv_clear n t h i p name (seq 0 16) HI) as H. rewrite zlen_seq in H. apply H; [lia|done..|].
  intros j Hj. apply elem_of_seq. lia.
Qed.

(** Counting a frame changes no VLAN. *)
Lemma topo_inv_count n t h i p name b :
  topo_inv n t h → t_p t !! i = Some p → parent_key p = Some name →
  topo_inv n (put_parent i (count_frame b p) t) h.
Proof.
  intros [Ht Hk] Hi Hn. pose proof (parent_ok_at t i p Ht Hi) as [].
  destruct (parent_store t i p (count_frame b p) name Ht Hi Hn) as [Ht' Hg]; [by destruct b|by destruct b; split|].
  split; [done|]. eapply tracked_ext; [exact Hk|done|]. intros [nm vid]. rewrite Hg. simpl.
  case_decide as Hd; [subst nm|done]. rewrite (netdev_at t i p) by done. by destruct b.
Qed.

Lemma topo_inv_saw_vid n t h i p name vid now :
  topo_inv n t h → n < 2 ^ 63 → t_p t !! i = Some p → parent_key p = Some name →
  topo_inv (n + 1) (saw_vid i vid now t) h.
Proof.
  intros HI Hlt Hi Hn. unfold saw_vid. rewrite (parent_at_lookup t i p Hi).
  pose proof (parent_ok_at t i p (proj1 HI) Hi) as Hp. pose proof Hn as [Hpn _]%parent_named.
  destruct (kfind vlan_key (p_v p) vid) as [j|] eqn:Hf.
  - apply kfind_Some in Hf as (v & Hj & Hv). rewrite (vlan_at_lookup p j v Hj). case_match eqn:E.
    + apply andb_true_iff in E as [[Hs _]%andb_true_iff _]. apply bool_decide_eq_true in Hs.
      apply (topo_inv_announce n t h i p name j v); [done..|by left| |].
      * left. unfold vlan_key in *. simpl. by destruct (v_state v).
      * rewrite (netdev_at t i p) by (done || apply HI).
        rewrite (kget_at vlan_key _ _ j v) by (done || apply Hp). simpl. unfold served. simpl. by rewrite Hs.
    + apply (topo_inv_weaken n); [|lia]. by apply (topo_inv_store n t h i p name j v).
  - destruct (kfree vlan_key (p_v p)) as [j|] eqn:Hfr.
    + apply kfree_Some in Hfr as (v & Hj & Hv). apply kget_None in Hf.
      apply (topo_inv_announce n t h i p name j v); [done..|by right|by left|].
      rewrite (netdev_at t i p) by (done || apply HI). by rewrite Hf.
    + apply (topo_inv_weaken n); [|lia]. destruct HI as [[] Hk]. by split; [split|].
Qed.

Lemma topo_inv_saw n t h name kind vid now :
  topo_inv n t h → n < 2 ^ 63 → topo_inv (n + 1) (reac_topo_saw t name kind vid now) h.
Proof.
  intros HI Hlt. unfold reac_topo_saw.
  destruct (parent_of t name) as [i|] eqn:Hp; [|apply (topo_inv_weaken n); [done|lia]].
  apply kfind_Some in Hp as (p & Hi & Hn). rewrite (parent_at_lookup t i p Hi).
  assert (Hc : ∀ b, topo_inv n (put_parent i (count_frame b p) t) h) by (intros b; by apply (topo_inv_count n t h i p name)).
  assert (H1 : t_p (put_parent i (count_frame true p) t) !! i = Some (count_frame true p))
    by (apply list_lookup_insert_eq; by eapply lookup_lt_Some).
  destruct kind; cbn [bool_decide]; [apply (topo_inv_weaken n); [done|lia]|apply (topo_inv_weaken n); [apply Hc|lia]|..];
    (case_match; [apply (topo_inv_weaken n); [done|lia]|]).
  - rewrite bool_decide_eq_true_2 by done. by apply (topo_inv_saw_vid n _ h i (count_frame true p) name).
  - rewrite bool_decide_eq_false_2 by done. by apply (topo_inv_saw_vid n _ h i p name).
Qed.
