(* ===== verification/TopoRun.v ===== *)
(** * TopoRun: the netdevs of the caller are those the table keeps

    The theorems on [Topo]: the caller that works the events off in order holds
    exactly the netdevs of the served VLANs, and none after the release of a clean
    exit, for as long as the ring loses nothing; with more than 31 of them the
    release of a clean exit does lose some. A netdev minted for a VLAN whose trunk
    was given up before the answer is not among them: nobody releases it. And what the classifier reads off a
    frame, whatever tags the kernel took and the driver left. *)
From stdpp Require Import gmap list.
From S2P Require Import Prelude EventRing KeyTable Topo TopoProps.

(** ** Every run *)

Inductive topo_op :=
| TWatch (name : list Z)
| TUnwatch (name : list Z)
| TSaw (name : list Z) (kind : reac_topo_kind) (vid : Z)
| TTick
| TReleaseAll
| TUntagged (name : list Z).

Definition topo_do (now : Z) (t : reac_topo) (op : topo_op) : reac_topo :=
  match op with
  | TWatch name => (reac_topo_watch t name).1
  | TUnwatch name => reac_topo_unwatch t name
  | TSaw name kind vid => reac_topo_saw t name kind vid now
  | TTick => reac_topo_tick t now
  | TReleaseAll => reac_topo_release_all t
  | TUntagged name => (reac_topo_untagged_on_trunk t name).1
  end.
(** A watched name is an interface's. *)
Definition topo_op_ok (op : topo_op) : Prop :=
  match op with TWatch name => name ≠ [] ∧ zlen name < IFNAMSIZ | _ => True end.

(** The VLAN waits for an answer: heard, not served, and no event about it queued. *)
Definition awaits (t : reac_topo) (k : list Z * Z) : Prop :=
  (∃ v, reac_topo_vlan_find t k.1 k.2 = Some v ∧ v_state v = REAC_TOPO_VLAN_HEARD) ∧ quiet (t_ev t) k.

(** A table, the netdevs [h] its caller accounts for and the orphans [o]: those minted
    for a VLAN that the table had given up by the time the caller answered. The caller
    answers for a VLAN that waits, or for one that is gone. *)
Inductive topo_reach : reac_topo → gmap (list Z * Z) bool → gmap (list Z * Z) bool → Prop :=
| topo_start : topo_reach reac_topo_init ∅ ∅
| topo_step t h o now op : topo_reach t h o → topo_op_ok op → er_dropped (t_ev (topo_do now t op)) = 0 →
    topo_reach (topo_do now t op) h o
| topo_work t h o x t' h' : topo_reach t h o → reac_topo_next t = Some (x, t') → work_off h x = Some h' →
    topo_reach t' h' o
| topo_ensured t h o k minted : topo_reach t h o → awaits t k →
    topo_reach (reac_topo_ensured t k.1 k.2 minted) (<[k := minted]> h) o
| topo_orphan t h o k minted : topo_reach t h o → reac_topo_vlan_find t k.1 k.2 = None →
    topo_reach (reac_topo_ensured t k.1 k.2 minted) h (<[k := minted]> o)
| topo_failed t h o k now : topo_reach t h o → awaits t k →
    topo_reach (reac_topo_ensure_failed t k.1 k.2 now) h o.

Lemma topo_inv_untagged n t h name : topo_inv n t h → topo_inv n (reac_topo_untagged_on_trunk t name).1 h.
Proof.
  intros [Ht Hk]. unfold reac_topo_untagged_on_trunk. destruct (parent_of t name) as [i|] eqn:Hp; [|done].
  apply kfind_Some in Hp as (p & Hi & Hn). rewrite (parent_at_lookup t i p Hi). case_match; [done|]. simpl.
  pose proof (parent_ok_at t i p Ht Hi) as []. set (p' := TopoParent _ _ _ _ _).
  destruct (parent_store t i p p' name Ht Hi Hn) as [Ht' Hg]; [done|done|]. split; [done|].
  eapply tracked_ext; [exact Hk|done|]. intros [nm vid]. rewrite Hg. cbn [fst snd].
  case_decide as Hd; [subst nm|done]. by rewrite (netdev_at t i p).
Qed.

Lemma topo_inv_op n t h now op : topo_inv n t h → n < 2 ^ 60 → topo_op_ok op → topo_inv (n + 128) (topo_do now t op) h.
Proof.
  intros HI Hlt Hok. destruct op; cbn [topo_do].
  - destruct Hok. apply (topo_inv_weaken n); [|lia]. by apply topo_inv_watch.
  - apply (topo_inv_weaken (n + 16)); [|lia]. apply topo_inv_unwatch; [done|lia].
  - apply (topo_inv_weaken (n + 1)); [|lia]. apply topo_inv_saw; [done|lia].
  - unfold reac_topo_tick. pose proof (topo_inv_releases n t h
      (λ v, negb (now <? u64 (v_last_ns v + REAC_TOPO_SILENCE_HOLD_NS))) (seq 0 (Z.to_nat REAC_TOPO_MAX_PARENTS)) HI) as H.
    rewrite zlen_seq in H. apply H. unfold REAC_TOPO_MAX_PARENTS. lia.
  - unfold reac_topo_release_all. pose proof (topo_inv_releases n t h (λ _, true) (seq 0 (Z.to_nat REAC_TOPO_MAX_PARENTS)) HI) as H.
    rewrite zlen_seq in H. apply H. unfold REAC_TOPO_MAX_PARENTS. lia.
  - apply (topo_inv_weaken n); [|lia]. by apply topo_inv_untagged.
Qed.

Lemma topo_inv_settle n t h : topo_inv n t h → er_dropped (t_ev t) = 0 → topo_inv 0 t h.
Proof. intros [Ht [Hd Hk]] H0. split; [done|]. split; [lia|done]. Qed.

Lemma topo_inv_work t h x t' :
  topo_inv 0 t h → reac_topo_next t = Some (x, t') → ∃ h', work_off h x = Some h' ∧ topo_inv 0 t' h'.
Proof.
  intros [Ht [Hd Hk]] Hn. unfold reac_topo_next in Hn.
  destruct (next_event (t_ev t)) as [[y q]|] eqn:E; simplify_eq/=.
  destruct (tracks_next _ _ _ _ _ (Hk ltac:(lia)) E) as (h' & Hw & Hk'). exists h'. split; [done|].
  split; [by destruct Ht; split|]. split; [|done].
  unfold next_event in E. case_match; [done|]. destruct (er_ev (t_ev t) !! _); simplify_eq/=. lia.
Qed.

(** The slot of a VLAN that waits, as the indices the code's pointers are. *)
Lemma awaits_slot t k : awaits t k →
  ∃ i p j v, vlan_slot t i p k.1 j v ∧ vlan_of t k.1 k.2 = Some (i, j) ∧ vlan_key v = Some k.2 ∧
    v_state v = REAC_TOPO_VLAN_HEARD.
Proof.
  intros [(v & Hf & Hs) _]. unfold reac_topo_vlan_find, reac_topo_find in Hf.
  destruct (kget parent_key (t_p t) k.1) as [p|] eqn:G; [|done]. simpl in Hf.
  pose proof (kget_key _ _ _ _ G) as Hn. pose proof (kget_key _ _ _ _ Hf) as Hv.
  apply kget_Some in G as (i & Fi & Hi), Hf as (j & Fj & Hj). exists i, p, j, v.
  split_and!; try done. unfold vlan_of, parent_of. rewrite Fi. simpl. rewrite (parent_at_lookup t i p Hi), Fj. done.
Qed.

Lemma topo_inv_ensured t h k minted :
  topo_inv 0 t h → awaits t k → topo_inv 0 (reac_topo_ensured t k.1 k.2 minted) (<[k := minted]> h).
Proof.
  intros [Ht [Hd Hk]] Ha. destruct (awaits_slot t k Ha) as (i & p & j & v & (Hi & Hn & Hj) & Hvl & Hv & Hs).
  destruct Ha as [_ Hq]. unfold reac_topo_ensured. rewrite Hvl, (parent_at_lookup t i p Hi), (vlan_at_lookup p j v Hj).
  set (v' := TopoVlan _ _ _ _ _ _). assert (vlan_key v' = Some k.2) as Hv' by (unfold vlan_key in *; by destruct (v_state v)).
  destruct (vlan_store t i p k.1 j v v' Ht Hi Hn Hj) as [Ht' Hg]; [rewrite Hv', Hv; auto|]. split; [done|].
  split; [cbn; lia|]. intros _. apply (tracks_hold (t_ev t) h (netdev_of t) _ k (Some minted) (Hk ltac:(lia)) Hq).
  intros k'. rewrite Hg, Hv', Hv. destruct k as [nm vid], k' as [nm' vid']. simpl.
  repeat case_decide; naive_solver.
Qed.

Lemma topo_inv_failed t h k now :
  topo_inv 0 t h → awaits t k → topo_inv 0 (reac_topo_ensure_failed t k.1 k.2 now) h.
Proof.
  intros HI Ha. destruct (awaits_slot t k Ha) as (i & p & j & v & (Hi & Hn & Hj) & Hvl & Hv & Hs).
  unfold reac_topo_ensure_failed. rewrite Hvl, (parent_at_lookup t i p Hi), (vlan_at_lookup p j v Hj).
  apply (topo_inv_store 0 t h i p k.1 j v); [done|done|unfold vlan_key in *; simpl; by rewrite Hs in *|].
  unfold served. simpl. by rewrite Hs.
Qed.

Lemma topo_init_ok : topo_inv 0 reac_topo_init ∅.
Proof.
  assert (F : Forall (λ p, parent_key p = None) (t_p reac_topo_init)) by (by apply Forall_replicate).
  split; [split|].
  - by apply uniq_free.
  - apply Forall_replicate. split; [apply no_vlans_ok|done|done].
  - done.
  - split; [cbn; lia|]. intros _. eapply tracks_ext; [by apply tracks_init|]. intros k.
    unfold netdev_of, reac_topo_vlan_find, reac_topo_find. by rewrite kget_free.
Qed.

(** An answer for a VLAN that is gone is dropped. *)
Lemma ensured_gone t name vid minted :
  reac_topo_vlan_find t name vid = None → reac_topo_ensured t name vid minted = t.
Proof.
  intros Hf. unfold reac_topo_ensured. destruct (vlan_of t name vid) as [[i j]|] eqn:E; [|done]. exfalso.
  unfold vlan_of, parent_of in E. destruct (kfind parent_key (t_p t) name) as [i'|] eqn:Fi; [|done]. simpl in E.
  destruct (kfind vlan_key (p_v (parent_at t i')) vid) as [j'|] eqn:Fj; [|done]. simplify_eq/=.
  pose proof Fi as (p & Hi & _)%kfind_Some. rewrite (parent_at_lookup t i p Hi) in Fj.
  pose proof Fj as (v & Hj & _)%kfind_Some.
  unfold reac_topo_vlan_find, reac_topo_find, kget in Hf. rewrite Fi in Hf. simpl in Hf. rewrite Hi in Hf.
  simpl in Hf. rewrite Fj in Hf. simpl in Hf. by rewrite Hj in Hf.
Qed.

Lemma topo_reach_inv t h o : topo_reach t h o → topo_inv 0 t h.
Proof.
  induction 1 as [|t h o now op _ IH Hok H0|t h o x t' h' _ IH Hn Hw|t h o k m _ IH Ha|t h o k m _ IH Hf
                 |t h o k now _ IH Ha].
  - apply topo_init_ok.
  - eapply topo_inv_settle; [|done]. by apply topo_inv_op.
  - destruct (topo_inv_work t h x t' IH Hn) as (h1 & Hw1 & HI). congruence.
  - by apply topo_inv_ensured.
  - by rewrite ensured_gone.
  - by apply topo_inv_failed.
Qed.


(** ** A VLAN heard, ensured and gone silent *)

Definition eth (n : Z) : list Z := [101; 116; 104; 48 + n].
Definition after_event (t : reac_topo) : reac_topo := from_option snd t (reac_topo_next t).

(** The netdev of VLAN [vid] of [name], asked for and minted. *)
Definition demo_serve (name : list Z) (t : reac_topo) (vid : Z) : reac_topo :=
  reac_topo_ensured (after_event (topo_do 5 t (TSaw name REAC_TOPO_TAGGED vid))) name vid true.
Definition demo_watched : reac_topo := topo_do 1 reac_topo_init (TWatch (eth 0)).
Definition demo_topo : reac_topo := topo_do 40000000000 (demo_serve (eth 0) demo_watched 11) TTick.
Definition demo_netdevs : gmap (list Z * Z) bool := <[(eth 0, 11) := true]> ∅.

Lemma demo_topo_reach : topo_reach demo_topo demo_netdevs ∅.
Proof.
  apply topo_step; [|done|reflexivity].
  apply (topo_ensured (after_event (topo_do 5 demo_watched (TSaw (eth 0) REAC_TOPO_TAGGED 11))) ∅ ∅ (eth 0, 11) true).
  - eapply (topo_work (topo_do 5 demo_watched (TSaw (eth 0) REAC_TOPO_TAGGED 11)) ∅ ∅); [|reflexivity|reflexivity].
    apply topo_step; [|done|reflexivity]. apply topo_step; [apply topo_start|done|reflexivity].
  - split; [by eexists|]. by apply quiet_empty.
Defined.

(** The same VLAN, its trunk given up before the caller answered. *)
Definition demo_asked : reac_topo :=
  topo_do 6 (topo_do 5 demo_watched (TSaw (eth 0) REAC_TOPO_TAGGED 11)) (TUnwatch (eth 0)).
Definition demo_given_up : reac_topo := reac_topo_ensured (after_event demo_asked) (eth 0) 11 true.

Lemma demo_given_up_reach : topo_reach demo_given_up ∅ demo_netdevs.
Proof.
  apply (topo_orphan (after_event demo_asked) ∅ ∅ (eth 0, 11) true); [|vm_compute; reflexivity].
  apply (topo_work demo_asked ∅ ∅ (TopoEvent REAC_TOPO_ENSURE (eth 0) 11 false) _ ∅);
    [|vm_compute; reflexivity..].
  unfold demo_asked, demo_watched.
  apply topo_step; [|done|vm_compute; reflexivity]. apply topo_step; [|done|vm_compute; reflexivity].
  apply topo_step; [apply topo_start|done|vm_compute; reflexivity].
Defined.


(** Two trunks with all their VLANs served: the ring has room for 31 of the 32
    releases, the table forgets all 32. *)
Definition demo_trunks : reac_topo :=
  foldl (λ t name, foldl (demo_serve name) (topo_do 1 t (TWatch name)) (zseq 1 16)) reac_topo_init [eth 0; eth 1].
Lemma release_all_loses :
  let t' := reac_topo_release_all demo_trunks in
  reac_topo_count demo_trunks (eth 0) REAC_TOPO_VLAN_SERVED = 16 ∧
  reac_topo_count demo_trunks (eth 1) REAC_TOPO_VLAN_SERVED = 16 ∧ reac_topo_next demo_trunks = None ∧
  er_dropped (t_ev t') = 1 ∧ reac_topo_vlan_find t' (eth 1) 16 = None.
Proof. by vm_compute. Qed.

(** An ENSURE outlives its VLAN when the parent is given up before the caller looks:
    the answer is then dropped without a word. *)
Lemma ensure_outlives_parent :
  let t := reac_topo_unwatch (topo_do 5 demo_watched (TSaw (eth 0) REAC_TOPO_TAGGED 11)) (eth 0) in
  fst <$> reac_topo_next t = Some (TopoEvent REAC_TOPO_ENSURE (eth 0) 11 false) ∧
  reac_topo_ensured (after_event t) (eth 0) 11 true = after_event t.
Proof. by vm_compute. Qed.

(** ** What the classifier reads *)

Definition be16 (x : Z) : list Z := [x / 256; x mod 256].
Definition tag_bytes (t : Z * Z) : list Z := be16 t.1 ++ be16 t.2.
Definition is_tag (x : Z) : Prop := x = VLAN_CTAG ∨ x = VLAN_STAG.
(** The first of them that names a VLAN, 0 when none does. *)
Definition first_vid (vids : list Z) : Z := default 0 (head (filter (λ v, v ≠ 0) vids)).

Lemma be16at_app pre x r : 0 ≤ x < 65536 → be16at (pre ++ be16 x ++ r) (zlen pre) = x.
Proof.
  intros Hx. unfold be16at. rewrite (rd_app_r pre _ (zlen pre)), (rd_app_r pre _ (zlen pre + 1)) by lia.
  replace (zlen pre - zlen pre) with 0 by lia.
  replace (zlen pre + 1 - zlen pre) with 1 by lia. unfold be16, rd. change (Z.to_nat 0) with 0%nat. change (Z.to_nat 1) with 1%nat. cbn.
  rewrite Z.lor_comm, lor_shift8 by (unfold is_byte; lia). unfold u16. rewrite Z.mod_small; lia.
Qed.

Lemma first_vid_cons v l : first_vid (v :: l) = if v =? 0 then first_vid l else v.
Proof.
  unfold first_vid. destruct (Z.eqb_spec v 0) as [->|Hne]; [by rewrite filter_cons_False by naive_solver|].
  by rewrite filter_cons_True.
Qed.

Lemma tags_read depth pre tags et rest vid :
  (length tags ≤ depth)%nat → (length tags = depth ∨ ¬ is_tag et) → 0 ≤ et < 65536 →
  Forall (λ t, is_tag t.1 ∧ 0 ≤ t.2 < 65536) tags →
  let vids := (λ t, Z.land t.2 0xfff) <$> tags in
  in_buffer_tags depth (pre ++ (tags ≫= tag_bytes) ++ be16 et ++ rest) (zlen pre) vid =
    Some (zlen pre + 4 * zlen tags, first_vid (vid :: vids)).
Proof.
  revert pre tags vid. induction depth as [|depth IH]; intros pre tags vid Hl Het He Ht vids.
  { destruct tags; [|simpl in Hl; lia]. simpl. rewrite (@zlen_nil (Z * Z)). do 2 f_equal; [lia|].
    rewrite first_vid_cons. by destruct (Z.eqb_spec vid 0) as [->|]. }
  destruct tags as [|[tpid tci] tags].
  - destruct Het as [Het|Het]; [done|]. change (([] : list (Z * Z)) ≫= tag_bytes) with (@nil Z).
    rewrite app_nil_l. cbn [in_buffer_tags]. rewrite (be16at_app pre et rest He).
    replace (negb (et =? VLAN_CTAG) && negb (et =? VLAN_STAG)) with true by (unfold is_tag in Het; lia).
    rewrite (@zlen_nil (Z * Z)). do 2 f_equal; [lia|].
    rewrite first_vid_cons. by destruct (Z.eqb_spec vid 0) as [->|].
  - apply Forall_cons in Ht as [[Htp Htc] Ht]. cbn [fst snd] in *.
    assert (0 ≤ tpid < 65536) as Hr by (unfold is_tag, VLAN_CTAG, VLAN_STAG in Htp; lia).
    change (((tpid, tci) :: tags) ≫= tag_bytes) with (tag_bytes (tpid, tci) ++ (tags ≫= tag_bytes)).
    unfold tag_bytes at 1. cbn [fst snd]. rewrite <- !app_assoc.
    set (r := (tags ≫= tag_bytes) ++ be16 et ++ rest). cbn [in_buffer_tags].
    rewrite (be16at_app pre tpid _ Hr).
    replace (negb (tpid =? VLAN_CTAG) && negb (tpid =? VLAN_STAG)) with false by (unfold is_tag in Htp; lia).
    assert (2 ≤ zlen r) as Hzr by (unfold r; rewrite !zlen_app; change (zlen (be16 et)) with 2;
      pose proof (zlen_nonneg (tags ≫= tag_bytes)); pose proof (zlen_nonneg rest); lia).
    rewrite (proj2 (Z.ltb_ge _ _)) by (rewrite !zlen_app; change (zlen (be16 tpid)) with 2; change (zlen (be16 tci)) with 2; lia).
    replace (pre ++ be16 tpid ++ be16 tci ++ r) with ((pre ++ be16 tpid) ++ be16 tci ++ r) by by rewrite <- !app_assoc.
    replace (zlen pre + 2) with (zlen (pre ++ be16 tpid)) by by rewrite zlen_app.
    rewrite be16at_app by done.
    replace ((pre ++ be16 tpid) ++ be16 tci ++ r) with ((pre ++ be16 tpid ++ be16 tci) ++ r) by by rewrite <- !app_assoc.
    replace (zlen pre + 4) with (zlen (pre ++ be16 tpid ++ be16 tci)) by by rewrite !zlen_app.
    unfold r. rewrite IH; [|simpl in Hl; lia|simpl in Het; destruct Het; [left; lia|by right]|done|done].
    rewrite !zlen_app, zlen_cons. change (zlen (be16 tpid)) with 2. change (zlen (be16 tci)) with 2.
    do 2 f_equal; [lia|]. unfold vids. rewrite fmap_cons. cbn [snd].
    rewrite !first_vid_cons. by destruct (Z.eqb_spec vid 0) as [->|Hv]; [|rewrite (proj2 (Z.eqb_neq _ _) Hv)].
Qed.

(** A frame with up to two tags left in the bytes and at most one taken by the kernel:
    the VLAN is the first that is not a priority tag, the kernel's first. *)
Lemma classify_reads_tags pre tags et rest (kernel : option Z) :
  zlen pre = 12 → (length tags ≤ 2)%nat → (length tags = 2%nat ∨ ¬ is_tag et) → 0 ≤ et < 65536 →
  Forall (λ t, is_tag t.1 ∧ 0 ≤ t.2 < 65536) tags →
  let vid := first_vid (from_option (λ tci, Z.land tci 0xfff) 0 kernel :: ((λ t, Z.land t.2 0xfff) <$> tags)) in
  reac_topo_classify (Some (pre ++ (tags ≫= tag_bytes) ++ be16 et ++ rest)) (bool_decide (is_Some kernel)) (default 0 kernel) =
    (match decide (et = REAC_ETHERTYPE), decide (vid = 0) with
     | left _, left _ => REAC_TOPO_UNTAGGED
     | left _, right _ => REAC_TOPO_TAGGED
     | right _, left _ => REAC_TOPO_NOT_REAC
     | right _, right _ => REAC_TOPO_TAGGED_OTHER
     end, vid).
Proof.
  intros Hp Hl Het He Ht vid. unfold reac_topo_classify.
  rewrite (proj2 (Z.ltb_ge _ _)).
  2: { rewrite !zlen_app. change (zlen (be16 et)) with 2. pose proof (zlen_nonneg (tags ≫= tag_bytes)).
       pose proof (zlen_nonneg rest). lia. }
  replace (if bool_decide (is_Some kernel) then Z.land (default 0 kernel) 4095 else 0)
    with (from_option (λ tci, Z.land tci 0xfff) 0 kernel) by by destruct kernel.
  rewrite <- Hp, tags_read by done. fold vid.
  replace (zlen pre + 4 * zlen tags) with (zlen (pre ++ (tags ≫= tag_bytes))).
  2: { rewrite zlen_app. f_equal. clear. induction tags as [|t tags IH]; [done|].
       change ((t :: tags) ≫= tag_bytes) with (tag_bytes t ++ (tags ≫= tag_bytes)).
       rewrite zlen_app, zlen_cons, IH. change (zlen (tag_bytes t)) with 4. lia. }
  rewrite app_assoc, be16at_app by done. f_equal.
  destruct (decide (et = REAC_ETHERTYPE)) as [->|Hne], (decide (vid = 0)) as [->|Hv];
    rewrite ?Z.eqb_refl, ?(proj2 (Z.eqb_neq _ _) Hv), ?(proj2 (Z.eqb_neq _ _) Hne); done.
Qed.
