(* ===== verification/Tap.v ===== *)
(** * Tap: who is heard on a mirrored wire

    Models [transport/src/reac_tap.c]: the survey that files every frame of a
    mirrored segment under its source, the hold on a broadcast stream until its
    source proves itself a desk or a box, the rate measured from the desk, and what
    [reac_tap_open] serves. The C array [stream] with its count [n] is the list of
    its first [n] entries; the buffer of the last frame, with its flag and length,
    is an optional frame. The sockets and threads around the receivers are not
    state of the model. *)
From Stdlib Require QArith.
From S2P Require Import Prelude KeyTable Wire CtrlBlk Identity Disco Clock Arbitration Ring Watch Rx.
Local Open Scope Z_scope.

Definition REAC_TAP_MAX_STREAMS : Z := 9.
Definition REAC_TAP_DEFAULT_SURVEY_MS : Z := 1000.
Definition REAC_TAP_DEFAULT_SURVEY_FRAMES : Z := 20000.
Definition REAC_TAP_NOT_REAC : Z := -1.
Definition REAC_TAP_DUPLICATE : Z := -2.
Definition REAC_TAP_FULL : Z := -3.
Definition REAC_TAP_SELF : Z := -4.

Inductive reac_tap_stream_kind :=
  REAC_TAP_STREAM_MASTER | REAC_TAP_STREAM_BOX | REAC_TAP_STREAM_UNRESOLVED.
#[export] Instance tap_kind_eq_dec : EqDecision reac_tap_stream_kind.
Proof. solve_decision. Defined.

Record reac_tap_stream := TapStream {
  st_kind : reac_tap_stream_kind;
  st_src : list Z;
  st_channels : Z;
  st_announced : bool;
  st_announced_channels : Z;
  st_announced_out : Z;
  st_width_disagrees : bool;
  st_frames : Z;
  st_dups : Z;
  st_gaps : Z;
  st_first_ts_usec : Z;
  st_last_ts_usec : Z;
  st_last_counter : Z;
  st_have_counter : bool;
  st_prev : option (list Z)
}.

Definition set_st_kind (v : reac_tap_stream_kind) (r : reac_tap_stream) : reac_tap_stream :=
  TapStream v (st_src r) (st_channels r) (st_announced r) (st_announced_channels r)
    (st_announced_out r) (st_width_disagrees r) (st_frames r) (st_dups r) (st_gaps r)
    (st_first_ts_usec r) (st_last_ts_usec r) (st_last_counter r) (st_have_counter r)
    (st_prev r).
Definition set_st_src (v : list Z) (r : reac_tap_stream) : reac_tap_stream :=
  TapStream (st_kind r) v (st_channels r) (st_announced r) (st_announced_channels r)
    (st_announced_out r) (st_width_disagrees r) (st_frames r) (st_dups r) (st_gaps r)
    (st_first_ts_usec r) (st_last_ts_usec r) (st_last_counter r) (st_have_counter r)
    (st_prev r).
Definition set_st_channels (v : Z) (r : reac_tap_stream) : reac_tap_stream :=
  TapStream (st_kind r) (st_src r) v (st_announced r) (st_announced_channels r)
    (st_announced_out r) (st_width_disagrees r) (st_frames r) (st_dups r) (st_gaps r)
    (st_first_ts_usec r) (st_last_ts_usec r) (st_last_counter r) (st_have_counter r)
    (st_prev r).
Definition set_st_announced (v : bool) (r : reac_tap_stream) : reac_tap_stream :=
  TapStream (st_kind r) (st_src r) (st_channels r) v (st_announced_channels r)
    (st_announced_out r) (st_width_disagrees r) (st_frames r) (st_dups r) (st_gaps r)
    (st_first_ts_usec r) (st_last_ts_usec r) (st_last_counter r) (st_have_counter r)
    (st_prev r).
Definition set_st_announced_channels (v : Z) (r : reac_tap_stream) : reac_tap_stream :=
  TapStream (st_kind r) (st_src r) (st_channels r) (st_announced r) v (st_announced_out r)
    (st_width_disagrees r) (st_frames r) (st_dups r) (st_gaps r) (st_first_ts_usec r)
    (st_last_ts_usec r) (st_last_counter r) (st_have_counter r) (st_prev r).
Definition set_st_announced_out (v : Z) (r : reac_tap_stream) : reac_tap_stream :=
  TapStream (st_kind r) (st_src r) (st_channels r) (st_announced r)
    (st_announced_channels r) v (st_width_disagrees r) (st_frames r) (st_dups r) (st_gaps r)
    (st_first_ts_usec r) (st_last_ts_usec r) (st_last_counter r) (st_have_counter r)
    (st_prev r).
Definition set_st_width_disagrees (v : bool) (r : reac_tap_stream) : reac_tap_stream :=
  TapStream (st_kind r) (st_src r) (st_channels r) (st_announced r)
    (st_announced_channels r) (st_announced_out r) v (st_frames r) (st_dups r) (st_gaps r)
    (st_first_ts_usec r) (st_last_ts_usec r) (st_last_counter r) (st_have_counter r)
    (st_prev r).
Definition set_st_frames (v : Z) (r : reac_tap_stream) : reac_tap_stream :=
  TapStream (st_kind r) (st_src r) (st_channels r) (st_announced r)
    (st_announced_channels r) (st_announced_out r) (st_width_disagrees r) v (st_dups r)
    (st_gaps r) (st_first_ts_usec r) (st_last_ts_usec r) (st_last_counter r)
    (st_have_counter r) (st_prev r).
Definition set_st_dups (v : Z) (r : reac_tap_stream) : reac_tap_stream :=
  TapStream (st_kind r) (st_src r) (st_channels r) (st_announced r)
    (st_announced_channels r) (st_announced_out r) (st_width_disagrees r) (st_frames r) v
    (st_gaps r) (st_first_ts_usec r) (st_last_ts_usec r) (st_last_counter r)
    (st_have_counter r) (st_prev r).
Definition set_st_gaps (v : Z) (r : reac_tap_stream) : reac_tap_stream :=
  TapStream (st_kind r) (st_src r) (st_channels r) (st_announced r)
    (st_announced_channels r) (st_announced_out r) (st_width_disagrees r) (st_frames r)
    (st_dups r) v (st_first_ts_usec r) (st_last_ts_usec r) (st_last_counter r)
    (st_have_counter r) (st_prev r).
Definition set_st_first_ts_usec (v : Z) (r : reac_tap_stream) : reac_tap_stream :=
  TapStream (st_kind r) (st_src r) (st_channels r) (st_announced r)
    (st_announced_channels r) (st_announced_out r) (st_width_disagrees r) (st_frames r)
    (st_dups r) (st_gaps r) v (st_last_ts_usec r) (st_last_counter r) (st_have_counter r)
    (st_prev r).
Definition set_st_last_ts_usec (v : Z) (r : reac_tap_stream) : reac_tap_stream :=
  TapStream (st_kind r) (st_src r) (st_channels r) (st_announced r)
    (st_announced_channels r) (st_announced_out r) (st_width_disagrees r) (st_frames r)
    (st_dups r) (st_gaps r) (st_first_ts_usec r) v (st_last_counter r) (st_have_counter r)
    (st_prev r).
Definition set_st_last_counter (v : Z) (r : reac_tap_stream) : reac_tap_stream :=
  TapStream (st_kind r) (st_src r) (st_channels r) (st_announced r)
    (st_announced_channels r) (st_announced_out r) (st_width_disagrees r) (st_frames r)
    (st_dups r) (st_gaps r) (st_first_ts_usec r) (st_last_ts_usec r) v (st_have_counter r)
    (st_prev r).
Definition set_st_have_counter (v : bool) (r : reac_tap_stream) : reac_tap_stream :=
  TapStream (st_kind r) (st_src r) (st_channels r) (st_announced r)
    (st_announced_channels r) (st_announced_out r) (st_width_disagrees r) (st_frames r)
    (st_dups r) (st_gaps r) (st_first_ts_usec r) (st_last_ts_usec r) (st_last_counter r) v
    (st_prev r).
Definition set_st_prev (v : option (list Z)) (r : reac_tap_stream) : reac_tap_stream :=
  TapStream (st_kind r) (st_src r) (st_channels r) (st_announced r)
    (st_announced_channels r) (st_announced_out r) (st_width_disagrees r) (st_frames r)
    (st_dups r) (st_gaps r) (st_first_ts_usec r) (st_last_ts_usec r) (st_last_counter r)
    (st_have_counter r) v.

Record reac_tap_survey := TapSurvey {
  sv_stream : list reac_tap_stream;
  sv_frames_seen : Z;
  sv_frames_ungeometric : Z;
  sv_frames_overflow : Z;
  sv_frames_self : Z;
  sv_self_mac : option (list Z)
}.

Definition set_sv_stream (v : list reac_tap_stream) (r : reac_tap_survey) : reac_tap_survey :=
  TapSurvey v (sv_frames_seen r) (sv_frames_ungeometric r) (sv_frames_overflow r)
    (sv_frames_self r) (sv_self_mac r).
Definition set_sv_frames_seen (v : Z) (r : reac_tap_survey) : reac_tap_survey :=
  TapSurvey (sv_stream r) v (sv_frames_ungeometric r) (sv_frames_overflow r)
    (sv_frames_self r) (sv_self_mac r).
Definition set_sv_frames_ungeometric (v : Z) (r : reac_tap_survey) : reac_tap_survey :=
  TapSurvey (sv_stream r) (sv_frames_seen r) v (sv_frames_overflow r) (sv_frames_self r)
    (sv_self_mac r).
Definition set_sv_frames_overflow (v : Z) (r : reac_tap_survey) : reac_tap_survey :=
  TapSurvey (sv_stream r) (sv_frames_seen r) (sv_frames_ungeometric r) v (sv_frames_self r)
    (sv_self_mac r).
Definition set_sv_frames_self (v : Z) (r : reac_tap_survey) : reac_tap_survey :=
  TapSurvey (sv_stream r) (sv_frames_seen r) (sv_frames_ungeometric r)
    (sv_frames_overflow r) v (sv_self_mac r).
Definition set_sv_self_mac (v : option (list Z)) (r : reac_tap_survey) : reac_tap_survey :=
  TapSurvey (sv_stream r) (sv_frames_seen r) (sv_frames_ungeometric r)
    (sv_frames_overflow r) (sv_frames_self r) v.

Definition reac_tap_survey_init : reac_tap_survey := TapSurvey [] 0 0 0 0 None.
Definition reac_tap_survey_set_self (s : reac_tap_survey) (mac : option (list Z)) : reac_tap_survey :=
  set_sv_self_mac mac s.

(** ** Streams *)

Definition stream_key (st : reac_tap_stream) : option (list Z) := Some (st_src st).
Definition stream_of (s : reac_tap_survey) (src : list Z) : option nat := kfind stream_key (sv_stream s) src.

Definition new_stream (kind : reac_tap_stream_kind) (src : list Z) (channels : Z) : reac_tap_stream :=
  TapStream kind src channels false 0 0 false 0 0 0 0 0 0 false None.

(** The stream of a source, minted when there is room; [None] is REAC_TAP_FULL. *)
Definition stream_for (s : reac_tap_survey) (src : list Z) (kind : reac_tap_stream_kind) (channels : Z)
    : reac_tap_survey * option nat :=
  match stream_of s src with
  | Some i => (s, Some i)
  | None =>
      if REAC_TAP_MAX_STREAMS <=? zlen (sv_stream s) then
        (set_sv_frames_overflow (u64 (sv_frames_overflow s + 1)) s, None)
      else (set_sv_stream (sv_stream s ++ [new_stream kind src channels]) s, Some (length (sv_stream s)))
  end.

Definition unresolved (st : reac_tap_stream) : bool := bool_decide (st_kind st = REAC_TAP_STREAM_UNRESOLVED).

Definition resolve_by_role (self : option (list Z)) (frame : list Z) (clean : Z) (st : reac_tap_stream)
    : reac_tap_stream :=
  if negb (unresolved st) then st
  else
    match reac_disco_classify frame clean (default (zeros 6) self) with
    | None => st
    | Some sg =>
        if s_has_decl sg || bool_decide (s_role sg = REAC_DISCO_ROLE_BOX) || st_announced st
        then set_st_kind REAC_TAP_STREAM_BOX st
        else if bool_decide (s_role sg = REAC_DISCO_ROLE_MASTER) then set_st_kind REAC_TAP_STREAM_MASTER st
        else st
    end.

(** The pace of a stream, rounded; 0 when there is no span to measure it over. The
    cast to [int] is the identity below 2^31 frames per second. *)
Definition stream_fps (st : reac_tap_stream) : Z :=
  let advance := u64 (st_frames st + st_gaps st) in
  if (advance <? 2) || (st_first_ts_usec st =? 0) || (st_last_ts_usec st <=? st_first_ts_usec st) then 0
  else
    to_int (f64_to_Z (f64_add
      (f64_div (f64_mul (f64_of_Z (advance - 1)) (f64_of_Z 1000000))
         (f64_of_Z (st_last_ts_usec st - st_first_ts_usec st)))
      (f64_ratio 1 2))).

Definition resolve_by_frames (st : reac_tap_stream) : reac_tap_stream :=
  if negb (unresolved st) then st
  else
    let fps := stream_fps st in
    let window := if 0 <? fps then reac_master_only_cadence_frames fps
                  else REAC_MASTER_ONLY_CADENCE_FRAMES_96K in
    if window <? u64 (st_frames st + st_gaps st) then set_st_kind REAC_TAP_STREAM_BOX st else st.

Definition resolve_by_time (now_usec : Z) (st : reac_tap_stream) : reac_tap_stream :=
  if negb (unresolved st) || (st_first_ts_usec st =? 0) then st
  else if (st_first_ts_usec st <? now_usec)
          && (reac_master_only_cadence_ns (stream_fps st) <=? u64 ((now_usec - st_first_ts_usec st) * 1000))
  then set_st_kind REAC_TAP_STREAM_BOX st else st.

(** With the number of streams still held. *)
Definition reac_tap_survey_resolve (s : reac_tap_survey) (now_usec : Z) : reac_tap_survey * Z :=
  let l := resolve_by_time now_usec <$> sv_stream s in
  (set_sv_stream l s, zlen (filter (λ st, st_kind st = REAC_TAP_STREAM_UNRESOLVED) l)).

(** The widths a config announce declares, kept once. *)
Definition note_model (frame : list Z) (len : Z) (st : reac_tap_stream) : reac_tap_stream :=
  if st_announced st || (len <? REAC_CTRL_BLOCK_OFF + REAC_CTRL_BLOCK_LEN) then st
  else
    match reac_ports_parse (slice frame REAC_CTRL_BLOCK_OFF REAC_CTRL_BLOCK_LEN) with
    | None => st
    | Some ports =>
        let st := set_st_announced true st in
        let st := set_st_announced_channels (if 0 <? bp_in_ch ports then bp_in_ch ports else 0) st in
        let st := set_st_announced_out (if 0 <? bp_out_ch ports then bp_out_ch ports else 0) st in
        if negb (st_announced_channels st =? 0) && negb (st_channels st =? 0)
        then set_st_width_disagrees (negb (st_announced_channels st =? st_channels st)) st else st
    end.

(** The frame is the one before it, byte for byte. *)
Definition is_dup (st : reac_tap_stream) (clean : list Z) : bool :=
  match st_prev st with
  | Some prev => (zlen clean <=? REAC_FRAME_BYTES + 64) && zeqb clean prev
  | None => false
  end.

(** A frame of the stream that is not a repeat. *)
Definition count_tap_frame (frame : list Z) (clean ts_usec : Z) (st : reac_tap_stream) : reac_tap_stream :=
  let st := if clean <=? REAC_FRAME_BYTES + 64 then set_st_prev (Some (slice frame 0 clean)) st else st in
  let counter := reac_frame_counter frame in
  let st := if st_have_counter st
            then set_st_gaps (u64 (st_gaps st + reac_counter_gap (st_last_counter st) counter)) st else st in
  let st := set_st_have_counter true (set_st_last_counter counter st) in
  let st := if negb (ts_usec =? 0)
            then set_st_last_ts_usec ts_usec
                   (if st_first_ts_usec st =? 0 then set_st_first_ts_usec ts_usec st else st)
            else st in
  set_st_frames (u64 (st_frames st + 1)) st.

Definition alter_stream (f : reac_tap_stream → reac_tap_stream) (i : nat) (s : reac_tap_survey) : reac_tap_survey :=
  set_sv_stream (alter f i (sv_stream s)) s.
Definition stream_at (s : reac_tap_survey) (i : nat) : reac_tap_stream :=
  default (new_stream REAC_TAP_STREAM_MASTER [] 0) (sv_stream s !! i).

(** A frame with an audio geometry of [width] channels. *)
Definition survey_audio (s : reac_tap_survey) (frame : list Z) (clean ts_usec width : Z) : reac_tap_survey * Z :=
  let src := slice frame 6 6 in
  let kind := if zeqb (slice frame 0 6) (fill 6 0xff) then REAC_TAP_STREAM_UNRESOLVED else REAC_TAP_STREAM_BOX in
  match stream_for s src kind width with
  | (s, None) => (s, REAC_TAP_FULL)
  | (s, Some i) =>
      if is_dup (stream_at s i) (slice frame 0 clean) then
        (alter_stream (λ st, set_st_dups (u64 (st_dups st + 1)) st) i s, REAC_TAP_DUPLICATE)
      else
        (alter_stream (λ st, resolve_by_frames (resolve_by_role (sv_self_mac s) frame clean
                               (note_model frame clean (count_tap_frame frame clean ts_usec st)))) i s,
         Z.of_nat i)
  end.

(** A control-only shape: it mints nothing, and tells about the stream of its source. *)
Definition survey_control (s : reac_tap_survey) (frame : list Z) (clean : Z) : reac_tap_survey :=
  let s := set_sv_frames_ungeometric (u64 (sv_frames_ungeometric s + 1)) s in
  set_sv_stream ((λ st, if zeqb (st_src st) (slice frame 6 6)
                        then resolve_by_role (sv_self_mac s) frame clean (note_model frame clean st) else st)
                 <$> sv_stream s) s.

Definition reac_tap_survey_frame (s : reac_tap_survey) (frame : list Z) (ts_usec : Z) : reac_tap_survey * Z :=
  if negb (reac_frame_is_reac (Some frame) (zlen frame)) then (s, REAC_TAP_NOT_REAC)
  else
    let s := set_sv_frames_seen (u64 (sv_frames_seen s + 1)) s in
    let clean := reac_frame_clean_len (zlen frame) in
    if bool_decide (sv_self_mac s = Some (slice frame 6 6)) then
      (set_sv_frames_self (u64 (sv_frames_self s + 1)) s, REAC_TAP_SELF)
    else
      let width := reac_upstream_channels clean in
      if 0 <? width then survey_audio s frame clean ts_usec width
      else (survey_control s frame clean, REAC_TAP_NOT_REAC).

Definition reac_tap_survey_master (s : reac_tap_survey) : option reac_tap_stream :=
  head (filter (λ st, st_kind st = REAC_TAP_STREAM_MASTER) (sv_stream s)).
Definition reac_tap_survey_box (s : reac_tap_survey) (mac : list Z) : option reac_tap_stream :=
  head (filter (λ st, st_kind st = REAC_TAP_STREAM_BOX ∧ st_src st = mac) (sv_stream s)).

Definition reac_tap_survey_rate (s : reac_tap_survey) : Z :=
  match reac_tap_survey_master s with
  | None => 0
  | Some m =>
      let advance := u64 (st_frames m - 1 + st_gaps m) in
      if (st_frames m <? 2) || (st_first_ts_usec m =? 0) || (st_last_ts_usec m <=? st_first_ts_usec m) then 0
      else reac_rate_snap (f64_Q (f64_div (f64_mul (f64_of_Z advance) (f64_of_Z 1000000))
                                    (f64_of_Z (st_last_ts_usec m - st_first_ts_usec m))))
  end.

(** ** Listening *)

(** The records of a capture file, each a frame with its time or a bad one; the list
    ends where the file does. *)
Definition survey_pcap (s : reac_tap_survey) (survey_frames : Z) (records : list (option (list Z * Z)))
    : reac_tap_survey :=
  let budget := if negb (survey_frames =? 0) then survey_frames else REAC_TAP_DEFAULT_SURVEY_FRAMES in
  let '(s, last_ts) :=
    foldl (λ '(s, last_ts) r,
        match r with
        | None => (s, last_ts)
        | Some (frame, ts) => ((reac_tap_survey_frame s frame ts).1, if last_ts <? ts then ts else last_ts)
        end)
      (s, 0) (take (Z.to_nat budget) records) in
  (reac_tap_survey_resolve s last_ts).1.

(** The turns of the live loop: the time of each and the frame it read, if any. *)
Fixpoint survey_live (deadline hold_end : Z) (s : reac_tap_survey) (turns : list (Z * option (list Z)))
    : reac_tap_survey :=
  match turns with
  | [] => s
  | (now, r) :: turns =>
      let '(s, go) :=
        if now <? deadline then (s, true)
        else if now <? hold_end then let '(s, held) := reac_tap_survey_resolve s now in (s, 0 <? held)
        else (s, false) in
      if go then
        survey_live deadline hold_end
          match r with Some frame => (reac_tap_survey_frame s frame now).1 | None => s end turns
      else s
  end.

Definition live_deadlines (survey_ms start : Z) : Z * Z :=
  let ms := if negb (survey_ms =? 0) then survey_ms else REAC_TAP_DEFAULT_SURVEY_MS in
  let deadline := u64 (start + ms * 1000) in
  (deadline, u64 (deadline + reac_master_only_cadence_ns 0 / 1000)).

(** ** Serving *)

(** A stream still held is not served. *)
Definition drop_held (s : reac_tap_survey) : reac_tap_survey :=
  set_sv_stream (filter (λ st, st_kind st ≠ REAC_TAP_STREAM_UNRESOLVED) (sv_stream s)) s.

Definition accept_of (st : reac_tap_stream) : reac_rx_accept :=
  match st_kind st with
  | REAC_TAP_STREAM_MASTER => REAC_RX_ACCEPT_DOWNSTREAM
  | _ => REAC_RX_ACCEPT_UPSTREAM
  end.

(** The receiver of a stream, pinned to its source; [None] when it does not open. *)
Definition open_feeder (live present alloc_ok : bool) (rate : Z) (st : reac_tap_stream) : option reac_rx :=
  rx ← reac_rx_open (accept_of st) live present rate 0 alloc_ok;
  Some (reac_rx_peer_reset rx (st_src st) 1).

Record reac_tap := Tap { t_survey : reac_tap_survey; t_sample_rate : Z; t_rx : list reac_rx }.

(** What [reac_tap_open] does once the survey is in; [None] is the -1 return, and
    [alloc_ok] whether a ring can be had. *)
Definition tap_serve (live present alloc_ok : bool) (forced_rate : Z) (s : reac_tap_survey) : option reac_tap :=
  let s := drop_held s in
  let rate := if negb (forced_rate =? 0) then forced_rate else reac_tap_survey_rate s in
  if zlen (sv_stream s) =? 0 then Some (Tap s rate [])
  else if rate <=? 0 then None
  else rxs ← mapM (open_feeder live present alloc_ok rate) (sv_stream s); Some (Tap s rate rxs).

(** ** The survey over any traffic *)

Inductive tap_op := TapFrame (frame : list Z) (ts_usec : Z) | TapTime (now_usec : Z).
Definition tap_do (s : reac_tap_survey) (op : tap_op) : reac_tap_survey :=
  match op with
  | TapFrame frame ts => (reac_tap_survey_frame s frame ts).1
  | TapTime now => (reac_tap_survey_resolve s now).1
  end.
Definition tap_run (self : option (list Z)) (ops : list tap_op) : reac_tap_survey :=
  foldl tap_do (reac_tap_survey_set_self reac_tap_survey_init self) ops.

(** What only a desk sends: a frame the discovery classifier calls a master's, with no
    box declaration in it. *)
Definition desk_evidence (self : option (list Z)) (frame : list Z) : Prop :=
  ∃ sg, reac_disco_classify frame (reac_frame_clean_len (zlen frame)) (default (zeros 6) self) = Some sg ∧
    s_role sg = REAC_DISCO_ROLE_MASTER ∧ s_has_decl sg = false.

Definition heard_of (l : list reac_tap_stream) : Z := zsum ((λ st, st_frames st + st_dups st) <$> l).

(** What a step of one stream may change: never its source, and its kind to the
    desk's only on evidence in [frame]. *)
Record stream_step (self : option (list Z)) (frame : option (list Z)) (st st' : reac_tap_stream) : Prop := {
  ss_src : st_src st' = st_src st;
  ss_master : st_kind st' = REAC_TAP_STREAM_MASTER →
    st_kind st = REAC_TAP_STREAM_MASTER ∨ ∃ f, frame = Some f ∧ slice f 6 6 = st_src st ∧ desk_evidence self f
}.
Definition tap_counts (st : reac_tap_stream) : Z * Z := (st_frames st, st_dups st).

Lemma stream_step_refl self frame st : stream_step self frame st st.
Proof. split; auto. Qed.

Lemma stream_step_trans self frame st st1 st2 :
  stream_step self frame st st1 → stream_step self frame st1 st2 → stream_step self frame st st2.
Proof.
  intros [S1 M1] [S2 M2]. split; [congruence|]. intros Hm.
  destruct (M2 Hm) as [?|(f & ? & ? & ?)]; [auto|right; exists f; by rewrite <- S1].
Qed.

Lemma note_step self frame f len st :
  stream_step self frame st (note_model f len st) ∧ tap_counts (note_model f len st) = tap_counts st.
Proof.
  unfold note_model. case_match; [by split; [apply stream_step_refl|]|]. case_match; [|by split; [apply stream_step_refl|]].
  cbv zeta. case_match; by split; [split; auto|].
Qed.

Lemma frames_step self frame st :
  stream_step self frame st (resolve_by_frames st) ∧ tap_counts (resolve_by_frames st) = tap_counts st.
Proof. unfold resolve_by_frames. repeat case_match; split; try done; try apply stream_step_refl; by split. Qed.

Lemma time_step self now st :
  stream_step self None st (resolve_by_time now st) ∧ tap_counts (resolve_by_time now st) = tap_counts st.
Proof. unfold resolve_by_time. repeat case_match; split; try done; try apply stream_step_refl; by split. Qed.

Lemma role_counts self f clean st : tap_counts (resolve_by_role self f clean st) = tap_counts st.
Proof. unfold resolve_by_role. by repeat case_match. Qed.

Lemma role_step self f st :
  slice f 6 6 = st_src st →
  stream_step self (Some f) st (resolve_by_role self f (reac_frame_clean_len (zlen f)) st).
Proof.
  intros Hs. unfold resolve_by_role. case_match; [apply stream_step_refl|].
  destruct (reac_disco_classify _ _ _) as [sg|] eqn:E; [|apply stream_step_refl].
  case_match eqn:Eb; [by split|]. apply orb_false_iff in Eb as [[Hd _]%orb_false_iff _].
  case_bool_decide as Hr; [|apply stream_step_refl]. split; [done|]. intros _. right. exists f.
  split_and!; try done. by exists sg.
Qed.

Lemma count_step self frame f clean ts st :
  stream_step self frame st (count_tap_frame f clean ts st) ∧
  tap_counts (count_tap_frame f clean ts st) = (u64 (st_frames st + 1), st_dups st).
Proof. unfold count_tap_frame. cbv zeta. repeat case_match; by split; [split; auto|]. Qed.

(** ** What holds of every survey *)

Record sources_ok (self : option (list Z)) (ops : list tap_op) (s : reac_tap_survey) : Prop := {
  so_self : sv_self_mac s = self;
  so_uniq : NoDup (st_src <$> sv_stream s);
  so_room : zlen (sv_stream s) ≤ REAC_TAP_MAX_STREAMS;
  so_not_self : ∀ mac, self = Some mac → mac ∉ st_src <$> sv_stream s;
  so_master : ∀ st, st ∈ sv_stream s → st_kind st = REAC_TAP_STREAM_MASTER →
    ∃ frame ts, TapFrame frame ts ∈ ops ∧ slice frame 6 6 = st_src st ∧ desk_evidence self frame
}.

(** Every stream takes a step; nothing else of the sources changes. *)
Lemma sources_steps self ops s s' frame :
  sources_ok self ops s → sv_self_mac s' = sv_self_mac s →
  (∀ f, frame = Some f → ∃ ts, TapFrame f ts ∈ ops) →
  Forall2 (stream_step self frame) (sv_stream s) (sv_stream s') → sources_ok self ops s'.
Proof.
  intros [] Hm Hf HF. assert (st_src <$> sv_stream s' = st_src <$> sv_stream s) as E.
  { clear -HF. induction HF as [|st st' l l' [E _] _ IH]; [done|]. by rewrite !fmap_cons, E, IH. }
  split; rewrite ?E; try done.
  - congruence.
  - unfold zlen in *. by rewrite <- (Forall2_length _ _ _ HF).
  - intros st' Hin Hk. apply list_elem_of_lookup in Hin as [i Hi].
    destruct (Forall2_lookup_r _ _ _ _ _ HF Hi) as (st & Hi0 & [Es Em]).
    destruct (Em Hk) as [Hk0|(f & -> & Hs & Hd)].
    + destruct (so_master0 st) as (g & ts & ? & ? & ?); [by eapply list_elem_of_lookup_2|done|].
      exists g, ts. by rewrite Es.
    + destruct (Hf f eq_refl) as [ts ?]. exists f, ts. by rewrite Es.
Qed.

Lemma sources_mint self ops s st :
  sources_ok self ops s → st_src st ∉ st_src <$> sv_stream s → self ≠ Some (st_src st) →
  st_kind st ≠ REAC_TAP_STREAM_MASTER → zlen (sv_stream s) < REAC_TAP_MAX_STREAMS →
  sources_ok self ops (set_sv_stream (sv_stream s ++ [st]) s).
Proof.
  intros [] Hn Hs Hk Hr. split; cbn [sv_stream sv_self_mac set_sv_stream]; [done|..].
  - rewrite fmap_app. apply NoDup_app. split_and!; [done| |apply NoDup_singleton].
    intros x Hx Hx'. apply list_elem_of_singleton in Hx'. by subst.
  - rewrite zlen_app. unfold zlen at 2. simpl. lia.
  - intros mac Hm. rewrite fmap_app, elem_of_app. intros [?|Hx]; [by eapply so_not_self0|].
    apply list_elem_of_singleton in Hx. subst. done.
  - intros st' [?|Hx]%elem_of_app Hk'; [by apply so_master0|]. apply list_elem_of_singleton in Hx. by subst.
Qed.

Lemma forall2_map {A} (R : A → A → Prop) (g : A → A) (l : list A) : (∀ x, R x (g x)) → Forall2 R l (g <$> l).
Proof. intros H. induction l as [|x l IH]; constructor; [apply H|exact IH]. Qed.

Lemma sources_more self ops ops' s : sources_ok self ops s → ops ⊆ ops' → sources_ok self ops' s.
Proof. intros [] Hs. split; try done. intros st Hin Hk. destruct (so_master0 st Hin Hk) as (f & ts & ? & ?). exists f, ts. auto. Qed.

Lemma step_alter self frame f i l :
  (∀ st, l !! i = Some st → stream_step self frame st (f st)) → Forall2 (stream_step self frame) l (alter f i l).
Proof.
  intros H. apply Forall2_same_length_lookup. split; [by rewrite length_alter|]. intros j st st' Hj Hj'.
  destruct (decide (j = i)) as [->|Hne].
  - rewrite list_lookup_alter_eq, Hj in Hj'. simplify_eq/=. by apply H.
  - rewrite list_lookup_alter_ne in Hj' by done. simplify_eq. apply stream_step_refl.
Qed.

Lemma stream_of_found s src i : stream_of s src = Some i → ∃ st, sv_stream s !! i = Some st ∧ st_src st = src.
Proof. intros (st & Hi & Hk)%kfind_Some. exists st. split; [done|]. by injection Hk. Qed.

Lemma stream_of_none s src : stream_of s src = None → src ∉ st_src <$> sv_stream s.
Proof.
  intros Hn (st & -> & Hin)%list_elem_of_fmap. apply list_elem_of_lookup in Hin as [i Hi].
  by apply (kfind_None _ _ _ i st Hn Hi).
Qed.

Lemma stream_for_spec self ops s src kind ch :
  sources_ok self ops s → self ≠ Some src → kind ≠ REAC_TAP_STREAM_MASTER →
  let '(s', r) := stream_for s src kind ch in
  sources_ok self ops s' ∧ sv_self_mac s' = sv_self_mac s ∧
  match r with Some i => ∃ st, sv_stream s' !! i = Some st ∧ st_src st = src | None => True end.
Proof.
  intros Hs Hne Hk. unfold stream_for. destruct (stream_of s src) as [i|] eqn:E.
  { split_and!; [done..|]. by apply stream_of_found. }
  destruct (REAC_TAP_MAX_STREAMS <=? _) eqn:Er; [by split_and!; [destruct Hs|..]|]. apply Z.leb_gt in Er. split_and!; [|done|].
  - apply sources_mint; [done|by apply stream_of_none|done|done|done].
  - exists (new_stream kind src ch). split; [|done]. cbn. by apply list_lookup_middle.
Qed.

Lemma audio_sources self ops s f ts width :
  sources_ok self ops s → self ≠ Some (slice f 6 6) → TapFrame f ts ∈ ops →
  sources_ok self ops (survey_audio s f (reac_frame_clean_len (zlen f)) ts width).1.
Proof.
  intros Hs Hne Hin. unfold survey_audio. set (kind := if zeqb _ _ then _ else _).
  assert (kind ≠ REAC_TAP_STREAM_MASTER) as Hk by (unfold kind; by case_match).
  pose proof (stream_for_spec self ops s (slice f 6 6) kind width Hs Hne Hk) as H.
  destruct (stream_for s (slice f 6 6) kind width) as [s1 [i|]]; destruct H as (H1 & Hm & Hst); [|done].
  destruct Hst as (st & Hi & Hsrc). case_match; cbn [fst].
  - apply (sources_steps self ops s1 _ None H1); [done|done|]. apply step_alter. intros st' _. by split; auto.
  - apply (sources_steps self ops s1 _ (Some f) H1); [done|intros g [= <-]; by exists ts|].
    apply step_alter. intros st' Hi'. rewrite Hi in Hi'. simplify_eq.
    destruct (count_step self (Some f) f (reac_frame_clean_len (zlen f)) ts st') as [C1 _].
    destruct (note_step self (Some f) f (reac_frame_clean_len (zlen f))
                (count_tap_frame f (reac_frame_clean_len (zlen f)) ts st')) as [C2 _].
    eapply stream_step_trans; [|apply frames_step]. eapply stream_step_trans; [by eapply stream_step_trans|].
    rewrite (so_self _ _ _ H1). apply role_step. by rewrite (ss_src _ _ _ _ C2), (ss_src _ _ _ _ C1).
Qed.

Lemma do_sources self ops s op : sources_ok self ops s → sources_ok self (ops ++ [op]) (tap_do s op).
Proof.
  intros Hs. apply (sources_more self ops (ops ++ [op])) in Hs; [|set_solver].
  assert (op ∈ ops ++ [op]) as Hin by set_solver. destruct op as [f ts|now]; cbn [tap_do].
  - unfold reac_tap_survey_frame. case_match; [done|]. set (s1 := set_sv_frames_seen _ s).
    assert (sources_ok self (ops ++ [TapFrame f ts]) s1) as H1 by by destruct Hs.
    case_bool_decide as Hself; [by destruct H1|]. change (sv_self_mac s1) with (sv_self_mac s) in Hself.
    rewrite (so_self _ _ _ Hs) in Hself. case_match; [by apply audio_sources|]. cbn [fst].
    apply (sources_steps self _ s1 _ (Some f) H1); [done|intros g [= <-]; by exists ts|].
    unfold survey_control. cbn [sv_stream set_sv_stream set_sv_frames_ungeometric sv_self_mac].
    apply forall2_map. intros st. destruct (zeqb _ _) eqn:E; [|apply stream_step_refl].
    apply zeqb_eq in E. destruct (note_step self (Some f) f (reac_frame_clean_len (zlen f)) st) as [C _].
    eapply stream_step_trans; [exact C|]. change (sv_self_mac s1) with (sv_self_mac s). rewrite (so_self _ _ _ Hs).
    apply role_step. by rewrite (ss_src _ _ _ _ C).
  - apply (sources_steps self _ s _ None Hs); [done|done|]. cbn.
    apply forall2_map. intros st. apply time_step.
Qed.

(** ** The books *)

#[local] Arguments heard_of : simpl never.
Definition counted (s : reac_tap_survey) : Z :=
  sv_frames_ungeometric s + sv_frames_overflow s + sv_frames_self s + heard_of (sv_stream s).

Record tallies (s : reac_tap_survey) : Prop := {
  ta_streams : Forall (λ st, 0 ≤ st_frames st ∧ 0 ≤ st_dups st) (sv_stream s);
  ta_others : 0 ≤ sv_frames_ungeometric s ∧ 0 ≤ sv_frames_overflow s ∧ 0 ≤ sv_frames_self s
}.

Lemma heard_app l l' : heard_of (l ++ l') = heard_of l + heard_of l'.
Proof. unfold heard_of. by rewrite fmap_app, zsum_app. Qed.

Lemma heard_cons st l : heard_of (st :: l) = st_frames st + st_dups st + heard_of l.
Proof. reflexivity. Qed.

Lemma heard_nonneg l : Forall (λ st, 0 ≤ st_frames st ∧ 0 ≤ st_dups st) l → 0 ≤ heard_of l.
Proof. induction 1 as [|st l [] _ IH]; [done|]. rewrite heard_cons. lia. Qed.

(** One stream counts one more frame. *)
Lemma heard_alter (f : reac_tap_stream → reac_tap_stream) l i st :
  Forall (λ st, 0 ≤ st_frames st ∧ 0 ≤ st_dups st) l → heard_of l < 2 ^ 64 - 1 → l !! i = Some st →
  tap_counts (f st) = (u64 (st_frames st + 1), st_dups st) ∨ tap_counts (f st) = (st_frames st, u64 (st_dups st + 1)) →
  Forall (λ st, 0 ≤ st_frames st ∧ 0 ≤ st_dups st) (alter f i l) ∧ heard_of (alter f i l) = heard_of l + 1.
Proof.
  intros HF. revert i. induction HF as [|st0 l [H1 H2] HF IH]; intros [|i] Hb Hi Hc; try done.
  - simplify_eq/=. rewrite heard_cons in Hb. rewrite !heard_cons. pose proof (heard_nonneg _ HF).
    assert (st_frames (f st) + st_dups (f st) = st_frames st + st_dups st + 1 ∧ 0 ≤ st_frames (f st) ∧ 0 ≤ st_dups (f st))
      as (Ef & F1 & F2).
    { unfold tap_counts, u64 in Hc. destruct Hc as [[= -> ->]|[= -> ->]]; rewrite Z.mod_small by lia; lia. }
    split; [by constructor|]. lia.
  - rewrite heard_cons in Hb. destruct (IH i) as [F E]; [lia|done|done|].
    change (alter f (S i) (st0 :: l)) with (st0 :: alter f i l). rewrite !heard_cons. split; [by constructor|lia].
Qed.

Lemma heard_same l l' : Forall2 (λ st st', tap_counts st' = tap_counts st) l l' → heard_of l' = heard_of l.
Proof. induction 1 as [|st st' l l' [= E1 E2] _ IH]; [done|]. rewrite !heard_cons. lia. Qed.

Lemma nonneg_same l l' :
  Forall2 (λ st st', tap_counts st' = tap_counts st) l l' → Forall (λ st, 0 ≤ st_frames st ∧ 0 ≤ st_dups st) l →
  Forall (λ st, 0 ≤ st_frames st ∧ 0 ≤ st_dups st) l'.
Proof. induction 1 as [|st st' l l' [= E1 E2] _ IH]; [done|]. rewrite !Forall_cons, E1, E2. naive_solver. Qed.

Lemma u64_succ x : 0 ≤ x < 2 ^ 64 - 1 → u64 (x + 1) = x + 1.
Proof. intros. unfold u64. apply Z.mod_small. lia. Qed.

Lemma counted_nonneg s : tallies s → 0 ≤ heard_of (sv_stream s) ∧ 0 ≤ counted s.
Proof. intros [H1 H2]. apply heard_nonneg in H1. unfold counted. lia. Qed.

(** [s'] has counted one frame more than [s], in one place. *)
Definition one_more (s s' : reac_tap_survey) : Prop :=
  tallies s' ∧ counted s' = counted s + 1 ∧ sv_frames_seen s' = sv_frames_seen s.

Lemma stream_for_books s src kind ch :
  tallies s → counted s < 2 ^ 64 - 1 →
  match stream_for s src kind ch with
  | (s', None) => one_more s s'
  | (s', Some i) => tallies s' ∧ counted s' = counted s ∧ sv_frames_seen s' = sv_frames_seen s ∧
                    is_Some (sv_stream s' !! i)
  end.
Proof.
  intros Ht Hb. pose proof (counted_nonneg _ Ht) as [? ?]. destruct Ht as [Ht1 Ht2]. unfold stream_for.
  destruct (stream_of s src) as [i|] eqn:E.
  { apply stream_of_found in E as (st & ? & _). by split_and!; [split|..|exists st]. }
  destruct (REAC_TAP_MAX_STREAMS <=? _); cbn.
  - rewrite u64_succ by (unfold counted in Hb; lia). unfold one_more, counted.
    split_and!; [split; cbn; [done|lia]|cbn; lia|done].
  - split_and!; [split; cbn; [|done]|..].
    + apply Forall_app. by split; [|repeat constructor].
    + unfold counted. cbn. rewrite heard_app, heard_cons.
      change (heard_of []) with 0. cbn. lia.
    + done.
    + eexists. by apply list_lookup_middle.
Qed.

Lemma alter_books s f i :
  tallies s → counted s < 2 ^ 64 - 1 → is_Some (sv_stream s !! i) →
  (∀ st, tap_counts (f st) = (u64 (st_frames st + 1), st_dups st) ∨ tap_counts (f st) = (st_frames st, u64 (st_dups st + 1))) →
  one_more s (alter_stream f i s).
Proof.
  intros Ht Hb [st Hi] Hc. pose proof (counted_nonneg _ Ht) as [? ?]. destruct Ht as [Ht1 Ht2].
  destruct (heard_alter f (sv_stream s) i st) as [F E]; [done| |done|done|].
  { unfold counted in *. lia. }
  unfold one_more, counted in *. cbn. split_and!; [by split|lia|done].
Qed.

Lemma audio_books s f clean ts w :
  tallies s → counted s < 2 ^ 64 - 1 → one_more s (survey_audio s f clean ts w).1.
Proof.
  intros Ht Hb. unfold survey_audio. cbv zeta.
  match goal with |- context [stream_for s ?src ?k w] =>
    pose proof (stream_for_books s src k w Ht Hb) as H; destruct (stream_for s src k w) as [s1 [i|]] end; [|exact H].
  destruct H as (H1 & Ec & Es & Hi). unfold one_more in *. rewrite <- Ec, <- Es in *.
  case_match; cbn [fst]; (apply alter_books; [done|lia|done|]); intros st; [by right|left].
  rewrite (proj2 (frames_step None None _)), role_counts, (proj2 (note_step None None _ _ _)).
  apply (count_step None None).
Qed.

Lemma same_books s l :
  tallies s → Forall2 (λ st st', tap_counts st' = tap_counts st) (sv_stream s) l →
  tallies (set_sv_stream l s) ∧ counted (set_sv_stream l s) = counted s.
Proof.
  intros [H1 H2] HF. split; [split; [by eapply nonneg_same|done]|].
  unfold counted. cbn. by rewrite (heard_same _ _ HF).
Qed.

Lemma self_books s :
  tallies s → counted s < 2 ^ 64 - 1 → one_more s (set_sv_frames_self (u64 (sv_frames_self s + 1)) s).
Proof.
  intros Ht Hb. pose proof (counted_nonneg _ Ht) as [? ?]. destruct Ht as [Ht1 Ht2].
  rewrite u64_succ by (unfold counted in Hb; lia). unfold one_more, counted.
  split_and!; [split; cbn; [done|lia]|cbn; lia|done].
Qed.

Lemma control_books s f clean :
  tallies s → counted s < 2 ^ 64 - 1 → one_more s (survey_control s f clean).
Proof.
  intros Ht Hb. pose proof (counted_nonneg _ Ht) as [? ?]. destruct Ht as [Ht1 Ht2]. unfold survey_control.
  rewrite u64_succ by (unfold counted in Hb; lia). cbv zeta. set (s2 := set_sv_frames_ungeometric _ s).
  assert (tallies s2) as H2 by (split; cbn; [done|lia]).
  assert (counted s2 = counted s + 1) as E2 by (unfold counted; cbn; lia).
  match goal with |- one_more _ (set_sv_stream ?l _) => destruct (same_books s2 l H2) as [H3 E3] end.
  - apply forall2_map. intros st. case_match; [|done]. by rewrite role_counts, (proj2 (note_step None None _ _ _)).
  - split_and!; [done|by rewrite E3, E2|done].
Qed.

Lemma do_books s op :
  tallies s → sv_frames_seen s = counted s → counted s < 2 ^ 64 - 1 →
  tallies (tap_do s op) ∧ sv_frames_seen (tap_do s op) = counted (tap_do s op) ∧
  counted (tap_do s op) ≤ counted s + 1.
Proof.
  intros Ht He Hb. pose proof (counted_nonneg _ Ht) as [? ?]. destruct op as [f ts|now]; cbn [tap_do].
  - unfold reac_tap_survey_frame.
    destruct (negb _) eqn:Er; [cbn; by split_and!; [..|lia]|]. set (s1 := set_sv_frames_seen _ s).
    assert (tallies s1) as H1 by by destruct Ht.
    assert (counted s1 = counted s) as E1 by done.
    assert (sv_frames_seen s1 = counted s1 + 1) as Es by (rewrite E1; cbn; rewrite u64_succ; lia).
    assert (∀ s2, one_more s1 s2 → tallies s2 ∧ sv_frames_seen s2 = counted s2 ∧ counted s2 ≤ counted s + 1) as Hone.
    { intros s2 (? & ? & ?). split_and!; [done|lia|lia]. }
    case_bool_decide; [|case_match]; apply Hone; [apply self_books|apply audio_books|apply control_books]; done.
  - destruct (same_books s (resolve_by_time now <$> sv_stream s)) as [H3 E3]; [done| |].
    + apply forall2_map. intros st. apply (time_step None).
    + change ((reac_tap_survey_resolve s now).1) with (set_sv_stream (resolve_by_time now <$> sv_stream s) s).
      rewrite E3. split_and!; [done|done|lia].
Qed.

Lemma run_snoc self ops op : tap_run self (ops ++ [op]) = tap_do (tap_run self ops) op.
Proof. unfold tap_run. by rewrite foldl_app. Qed.

Lemma run_sources self ops : sources_ok self ops (tap_run self ops).
Proof.
  induction ops as [|op ops IH] using rev_ind; [|rewrite run_snoc; by apply do_sources].
  split; cbn; try done; try lia; try constructor; intros; by apply not_elem_of_nil in H || set_solver.
Qed.

Lemma run_books self ops :
  zlen ops < 2 ^ 64 →
  tallies (tap_run self ops) ∧ sv_frames_seen (tap_run self ops) = counted (tap_run self ops) ∧
  counted (tap_run self ops) ≤ zlen ops.
Proof.
  induction ops as [|op ops IH] using rev_ind; intros Hb.
  - split_and!; [split; cbn; [constructor|lia]|done|done].
  - rewrite zlen_app in *. change (zlen [op]) with 1 in *. destruct IH as (H1 & H2 & H3); [lia|].
    rewrite run_snoc. destruct (do_books (tap_run self ops) op) as (? & ? & ?); [done|done|lia|].
    split_and!; [done|done|lia].
Qed.

(** ** Claims *)

(** C18. Whatever frames come in whatever order, and whenever the hold's limit is
    applied: the survey keeps one stream per source, nine at most and never our own
    echo; a stream is the desk's only where a frame of that very source was one that
    only a desk sends; and every frame offered is in exactly one count, a stream's
    frames or repeats, the control-only shapes, the refused sources or the echoes. *)
Theorem tap_survey_sound (self : option (list Z)) (ops : list tap_op) :
  zlen ops < 2 ^ 64 →
  let s := tap_run self ops in
  NoDup (st_src <$> sv_stream s) ∧ zlen (sv_stream s) ≤ REAC_TAP_MAX_STREAMS ∧
  (∀ mac, self = Some mac → mac ∉ st_src <$> sv_stream s) ∧
  (∀ st, st ∈ sv_stream s → st_kind st = REAC_TAP_STREAM_MASTER →
     ∃ frame ts, TapFrame frame ts ∈ ops ∧ slice frame 6 6 = st_src st ∧ desk_evidence self frame) ∧
  sv_frames_seen s = sv_frames_ungeometric s + sv_frames_overflow s + sv_frames_self s + heard_of (sv_stream s).
Proof. intros Hb. destruct (run_sources self ops). destruct (run_books self ops Hb) as (_ & He & _). by split_and!. Qed.

(** A desk floods 40 channels and announces; a box returns two channels. *)
Definition tap_desk : list Z := [0; 0x40; 0xab; 9; 9; 9].
Definition tap_box : list Z := [0; 0x40; 0xab; 1; 2; 3].
Definition tap_audio (dst src : list Z) (counter channels : Z) : list Z :=
  dst ++ src ++ [0x88; 0x19; u8 counter; u8 (Z.shiftr counter 8); 0; 0] ++ zeros (34 + channels * 36).
Definition tap_announce (src : list Z) : list Z :=
  reac_ctrl_checksum_apply
    (fill 6 0xff ++ src ++ [0x88; 0x19; 0; 0; 0xcf; 0xea] ++
     [1; 3; 0; 13; 1; 3; 0x0d; 1; 4; 0; 0; 0; 0; 0; 0; 16] ++ zeros 594).
Definition tap_traffic : list tap_op :=
  [TapFrame (tap_audio (fill 6 0xff) tap_desk 7 40) 1000; TapFrame (tap_audio (fill 6 0xff) tap_desk 7 40) 1001;
   TapFrame (tap_audio tap_desk tap_box 7 2) 1100; TapFrame (tap_announce tap_desk) 1200; TapTime 2000;
   TapFrame (tap_audio (fill 6 0xff) tap_desk 8 40) 1250].

Lemma tap_survey_sound_witness :
  let s := tap_run None tap_traffic in
  st_kind <$> sv_stream s = [REAC_TAP_STREAM_MASTER; REAC_TAP_STREAM_BOX] ∧ sv_frames_seen s = 5 ∧
  sv_frames_seen s = sv_frames_ungeometric s + sv_frames_overflow s + sv_frames_self s + heard_of (sv_stream s).
Proof.
  split; [vm_compute; reflexivity|]. split; [vm_compute; reflexivity|].
  apply (tap_survey_sound None tap_traffic). reflexivity.
Defined.

(** ** What is served *)

(** A receiver that hears one source only: the stream's, in the stream's direction. *)
Definition pinned_to (rate : Z) (st : reac_tap_stream) (rx : reac_rx) : Prop :=
  rx_accept rx = accept_of st ∧ rx_up_src_locked rx = true ∧ rx_up_src rx = st_src st ∧ rx_sample_rate rx = rate.

Lemma open_feeder_pinned live present alloc_ok rate st rx :
  rate ≠ 0 → open_feeder live present alloc_ok rate st = Some rx → pinned_to rate st rx.
Proof.
  intros Hr. unfold open_feeder, reac_rx_open. destruct (live && negb present); [done|].
  destruct (reac_ring_init _ _ _) as [ring|]; [|done]. intros [= <-]. unfold reac_rx_peer_reset.
  cbn [rx_up_src_locked andb]. split_and!; try done. cbn. unfold rx_rate. by destruct (Z.eqb_spec rate 0).
Qed.

Lemma drop_held_stream s st : st ∈ sv_stream (drop_held s) ↔ st_kind st ≠ REAC_TAP_STREAM_UNRESOLVED ∧ st ∈ sv_stream s.
Proof. unfold drop_held. cbn. by rewrite list_elem_of_filter. Qed.

Lemma drop_held_uniq s : NoDup (st_src <$> sv_stream s) → NoDup (st_src <$> sv_stream (drop_held s)).
Proof.
  unfold drop_held. cbn. induction (sv_stream s) as [|st l IH]; [done|]. rewrite fmap_cons, NoDup_cons. intros [Hn Hu].
  rewrite filter_cons. case_decide; [|by apply IH]. rewrite fmap_cons. apply NoDup_cons. split; [|by apply IH].
  intros (st' & E & Hin)%list_elem_of_fmap. apply list_elem_of_filter in Hin as [_ Hin]. apply Hn.
  apply list_elem_of_fmap. by exists st'.
Qed.

(** The frames the capture file gives the survey, and the time the hold is judged at. *)
Definition pcap_ops (records : list (option (list Z * Z))) (last_ts : Z) : list tap_op :=
  ((λ '(frame, ts), TapFrame frame ts) <$> omap id records) ++ [TapTime last_ts].

Lemma survey_pcap_run self n records :
  ∃ last_ts, survey_pcap (reac_tap_survey_set_self reac_tap_survey_init self) n records =
    tap_run self (pcap_ops (take (Z.to_nat (if negb (n =? 0) then n else REAC_TAP_DEFAULT_SURVEY_FRAMES)) records) last_ts).
Proof.
  unfold survey_pcap. set (l := take _ records). unfold pcap_ops. unfold tap_run.
  generalize (reac_tap_survey_set_self reac_tap_survey_init self). intros s. generalize 0 at 1.
  revert s. induction l as [|[[f ts]|] l IH]; intros s t; [by exists t| |]; cbn.
  - destruct (IH (reac_tap_survey_frame s f ts).1 (if t <? ts then ts else t)) as [t' E]. by exists t'.
  - apply IH.
Qed.

(** C17. Opening the tap on a recording, whatever is in it: every stream served has been
    resolved, each source at most once and never our own echo; each receiver is pinned
    to the source of its stream, in that stream's direction and at one rate that was
    forced or measured; and a stream is served as the desk's only when a record holds a
    frame of that source that only a desk sends. *)
Theorem tap_serves_proven_sources self n records forced alloc_ok t :
  tap_serve false true alloc_ok forced (survey_pcap (reac_tap_survey_set_self reac_tap_survey_init self) n records)
    = Some t →
  let l := sv_stream (t_survey t) in
  NoDup (st_src <$> l) ∧ (∀ mac, self = Some mac → mac ∉ st_src <$> l) ∧
  Forall (λ st, st_kind st ≠ REAC_TAP_STREAM_UNRESOLVED) l ∧
  Forall2 (pinned_to (t_sample_rate t)) l (t_rx t) ∧
  (t_rx t ≠ [] → 0 < t_sample_rate t ∧
     (t_sample_rate t = forced ∨ t_sample_rate t = reac_tap_survey_rate (t_survey t) ∧ reac_tap_survey_master (t_survey t) ≠ None)) ∧
  (∀ st, st ∈ l → st_kind st = REAC_TAP_STREAM_MASTER →
     ∃ frame ts, Some (frame, ts) ∈ records ∧ slice frame 6 6 = st_src st ∧ desk_evidence self frame).
Proof.
  destruct (survey_pcap_run self n records) as [last_ts ->]. set (ops := pcap_ops _ _).
  destruct (run_sources self ops) as [_ Hu _ Hs Hm]. generalize dependent (tap_run self ops). intros s Hu Hs Hm Ht.
  assert (t_survey t = drop_held s ∧ Forall2 (pinned_to (t_sample_rate t)) (sv_stream (drop_held s)) (t_rx t) ∧
    (t_rx t ≠ [] → 0 < t_sample_rate t) ∧
    t_sample_rate t = (if negb (forced =? 0) then forced else reac_tap_survey_rate (drop_held s)))
    as (Es & HF & Hpos & Er).
  { unfold tap_serve in Ht. set (rate := if negb _ then _ else _) in Ht. case_match eqn:E0.
    - injection Ht as <-. apply Z.eqb_eq in E0. assert (sv_stream (drop_held s) = []) as E1
        by (unfold zlen in E0; apply nil_length_inv; lia).
      cbn [t_survey t_rx t_sample_rate]. rewrite E1. by split_and!; [|constructor|..].
    - destruct (Z.leb_spec rate 0); [done|]. destruct (mapM _ _) as [rxs|] eqn:Em; [|done]. injection Ht as <-. cbn.
      split_and!; [done| |done|done]. apply mapM_Some in Em. eapply Forall2_impl; [exact Em|].
      intros st rx. apply open_feeder_pinned. lia. }
  rewrite Es. split_and!.
  - by apply drop_held_uniq.
  - intros mac Hmac (st & -> & Hin)%list_elem_of_fmap. apply drop_held_stream in Hin as [_ Hin].
    apply (Hs _ Hmac). apply list_elem_of_fmap. by exists st.
  - apply Forall_forall. intros st Hin. by apply drop_held_stream in Hin as [? _].
  - done.
  - intros Hne. specialize (Hpos Hne). split; [done|]. rewrite Er in Hpos |- *.
    destruct (Z.eqb_spec forced 0); cbn [negb] in *; [right|by left]. split; [done|].
    unfold reac_tap_survey_rate in Hpos. by destruct (reac_tap_survey_master _).
  - intros st Hin Hk. apply drop_held_stream in Hin as [_ Hin]. destruct (Hm st Hin Hk) as (f & ts & Hf & ? & ?).
    exists f, ts. split_and!; [|done|done]. unfold ops, pcap_ops in Hf. apply elem_of_app in Hf as [Hf|Hf].
    + apply list_elem_of_fmap in Hf as ([f' ts'] & [= <- <-] & Hf). apply list_elem_of_omap in Hf as (r & Hr & E).
      simpl in E. subst. apply list_elem_of_lookup in Hr as [i Hi]. apply lookup_take_Some in Hi as [Hi _].
      by eapply list_elem_of_lookup_2.
    + by apply list_elem_of_singleton in Hf.
Qed.

Definition tap_records : list (option (list Z * Z)) :=
  [Some (tap_audio (fill 6 0xff) tap_desk 7 40, 1000); None; Some (tap_audio tap_desk tap_box 7 2, 1100);
   Some (tap_announce tap_desk, 1200)].

Lemma tap_serves_proven_sources_witness :
  ∃ t, tap_serve false true true 48 (survey_pcap (reac_tap_survey_set_self reac_tap_survey_init None) 0 tap_records)
         = Some t ∧
    st_kind <$> sv_stream (t_survey t) = [REAC_TAP_STREAM_MASTER; REAC_TAP_STREAM_BOX] ∧
    Forall2 (pinned_to (t_sample_rate t)) (sv_stream (t_survey t)) (t_rx t).
Proof.
  destruct (tap_serve false true true 48
    (survey_pcap (reac_tap_survey_set_self reac_tap_survey_init None) 0 tap_records)) as [t|] eqn:E;
    [|vm_compute in E; discriminate E].
  pose proof (tap_serves_proven_sources None 0 tap_records 48 true t E) as (_ & _ & _ & T & _).
  exists t. split; [reflexivity|]. split; [|exact T]. vm_compute in E. injection E as <-. reflexivity.
Defined.
