(* ===== verification/Pcap.v ===== *)
(** * Pcap: reading frames from a capture file

    Models [src/pcap_source.c]: the header of a classic pcap file in either byte
    order, and the walk over its records, which skips the empty ones and those
    larger than the caller's buffer and takes an 802.1Q tag off every frame. A file
    is the list of its bytes, an open one the bytes not read yet. *)
From S2P Require Import Prelude Wire KeyTable Ring Watch Rx Tap.
Local Open Scope Z_scope.

Definition PCAP_MAGIC : Z := 0xA1B2C3D4.
Definition PCAP_MAGIC_SWAP : Z := 0xD4C3B2A1.

Definition bswap32 (v : Z) : Z :=
  Z.lor (Z.lor (Z.lor (Z.shiftl (Z.land v 0xff) 24) (Z.shiftl (Z.land (Z.shiftr v 8) 0xff) 16))
               (Z.shiftl (Z.land (Z.shiftr v 16) 0xff) 8))
        (Z.land (Z.shiftr v 24) 0xff).

Definition rd_u32 (p : list Z) (off : Z) (swap : bool) : Z :=
  let v := Z.lor (Z.lor (Z.lor p.[off] (Z.shiftl p.[off + 1] 8)) (Z.shiftl p.[off + 2] 16))
                 (Z.shiftl p.[off + 3] 24) in
  if swap then bswap32 v else v.

Record pcap_source := PcapSource {
  ps_f : option (list Z); ps_swapped : bool; ps_last_orig_len : Z; ps_last_vlan_tagged : bool;
  ps_last_vlan_id : Z; ps_skipped_oversized : Z
}.

(** [fread] of at most [n] bytes: what it read, and what is left. *)
Definition fread (n : Z) (rest : list Z) : list Z * list Z := (take (Z.to_nat n) rest, drop (Z.to_nat n) rest).

(** [file] is [None] when there is no such file; [None] is the -1 return. *)
Definition pcap_source_open (file : option (list Z)) : option pcap_source :=
  match file with
  | None => None
  | Some f =>
      let '(gh, rest) := fread 24 f in
      if negb (zlen gh =? 24) then None
      else
        let magic := rd_u32 gh 0 false in
        if magic =? PCAP_MAGIC then Some (PcapSource (Some rest) false 0 false 0 0)
        else if magic =? PCAP_MAGIC_SWAP then Some (PcapSource (Some rest) true 0 false 0 0)
        else None
  end.

(** The discard of a body through a buffer of [cap] bytes; [false] when it ends early. *)
Fixpoint discard (fuel : nat) (cap left : Z) (rest : list Z) : list Z * bool :=
  match fuel with
  | O => (rest, false)
  | S fuel =>
      if left <=? 0 then (rest, true)
      else
        let chunk := if left <? cap then left else cap in
        if chunk =? 0 then (rest, false)
        else
          let '(got, rest) := fread chunk rest in
          if negb (zlen got =? chunk) then (rest, false) else discard fuel cap (left - chunk) rest
  end.

(** A tag moved out of the frame: whether there was one, its VLAN and the frame. *)
Definition strip_tag (buf : list Z) : bool * Z * list Z :=
  if (18 <=? zlen buf) && (buf.[12] =? 0x81) && (buf.[13] =? 0x00)
  then (true, u16 (Z.land (Z.lor (Z.shiftl buf.[14] 8) buf.[15]) 0x0fff), slice buf 0 12 ++ drop 16 buf)
  else (false, 0, buf).

Inductive pcap_read := PcapEof | PcapErr | PcapFrame (frame : list Z) (ts_usec : Z).

(** One record after another, until one is for the caller. *)
Fixpoint next_loop (fuel : nat) (ps : pcap_source) (rest : list Z) (cap : Z) : pcap_source * pcap_read :=
  let at_ r := PcapSource (Some r) (ps_swapped ps) in
  let keep r := at_ r (ps_last_orig_len ps) (ps_last_vlan_tagged ps) (ps_last_vlan_id ps) (ps_skipped_oversized ps) in
  match fuel with
  | O => (keep rest, PcapErr)
  | S fuel =>
      let '(ph, rest) := fread 16 rest in
      if zlen ph =? 0 then (keep rest, PcapEof)
      else if negb (zlen ph =? 16) then (keep rest, PcapErr)
      else
        let sec := rd_u32 ph 0 (ps_swapped ps) in
        let usec := rd_u32 ph 4 (ps_swapped ps) in
        let incl := rd_u32 ph 8 (ps_swapped ps) in
        if incl =? 0 then next_loop fuel (keep rest) rest cap
        else
          let orig := rd_u32 ph 12 (ps_swapped ps) in
          if cap <? incl then
            let '(rest, ok) := discard (S (Z.to_nat incl)) cap incl rest in
            let ps := at_ rest orig (ps_last_vlan_tagged ps) (ps_last_vlan_id ps) (u32 (ps_skipped_oversized ps + 1)) in
            if ok then next_loop fuel ps rest cap else (ps, PcapErr)
          else
            let '(buf, rest) := fread incl rest in
            if negb (zlen buf =? incl) then
              (at_ rest orig (ps_last_vlan_tagged ps) (ps_last_vlan_id ps) (ps_skipped_oversized ps), PcapErr)
            else
              let '(tagged, vid, frame) := strip_tag buf in
              (at_ rest orig tagged vid (ps_skipped_oversized ps), PcapFrame frame (u64 (sec * 1000000 + usec)))
  end.

Definition pcap_source_next (ps : pcap_source) (cap : Z) : pcap_source * pcap_read :=
  match ps_f ps with
  | None => (ps, PcapErr)
  | Some rest => next_loop (S (length rest)) ps rest cap
  end.

Definition pcap_source_close (ps : pcap_source) : pcap_source :=
  PcapSource None (ps_swapped ps) (ps_last_orig_len ps) (ps_last_vlan_tagged ps) (ps_last_vlan_id ps)
    (ps_skipped_oversized ps).

(** The caller's loop, which goes on after an error and stops at the end of the file:
    the records it sees. *)
Fixpoint pcap_walk (fuel : nat) (ps : pcap_source) (cap : Z) : pcap_source * list (option (list Z * Z)) :=
  match fuel with
  | O => (ps, [])
  | S fuel =>
      match pcap_source_next ps cap with
      | (ps, PcapEof) => (ps, [])
      | (ps, PcapErr) => let '(ps, l) := pcap_walk fuel ps cap in (ps, None :: l)
      | (ps, PcapFrame frame ts) => let '(ps, l) := pcap_walk fuel ps cap in (ps, Some (frame, ts) :: l)
      end
  end.

(** ** Every file is read to its end *)

Lemma discard_left fuel cap left rest : (length (discard fuel cap left rest).1 ≤ length rest)%nat.
Proof.
  revert left rest. induction fuel as [|fuel IH]; intros left rest; [done|]. cbn [discard]. repeat case_match; try done.
  all: unfold fread in *; simplify_eq/=; rewrite ?length_drop; try lia.
  all: etransitivity; [apply IH|]; rewrite length_drop; lia.
Qed.

Lemma fread_full n rest : 0 ≤ n → zlen (fread n rest).1 = n → zlen (fread n rest).2 = zlen rest - n.
Proof. unfold fread, zlen. simpl. rewrite length_take, length_drop. lia. Qed.

(** A read that is not the end of the file moves on. *)
Lemma next_moves fuel ps rest cap :
  (length rest < fuel)%nat →
  match next_loop fuel ps rest cap with
  | (_, PcapEof) => True
  | (ps', _) => ∃ rest', ps_f ps' = Some rest' ∧ (length rest' < length rest)%nat
  end.
Proof.
  revert ps rest. induction fuel as [|fuel IH]; intros ps rest Hf; [lia|].
  cbn [next_loop]. unfold fread at 1. cbv zeta.
  destruct (Z.eqb_spec (zlen (take (Z.to_nat 16) rest)) 0) as [|H0]; [done|].
  assert ((length (drop (Z.to_nat 16) rest) < length rest)%nat) as Hd.
  { unfold zlen in H0. rewrite length_take in H0. rewrite length_drop. lia. }
  assert (∀ ps1 r, (length r ≤ length (drop (Z.to_nat 16) rest))%nat →
    match next_loop fuel ps1 r cap with
    | (_, PcapEof) => True
    | (ps', _) => ∃ rest', ps_f ps' = Some rest' ∧ (length rest' < length rest)%nat
    end) as Hrec.
  { intros ps1 r Hr. specialize (IH ps1 r ltac:(lia)). destruct (next_loop fuel ps1 r cap) as [ps' []]; [done|..];
      destruct IH as (r' & ? & ?); exists r'; (split; [done|lia]). }
  destruct (negb _); [eexists; split; [done|lia]|]. destruct (_ =? 0); [by apply Hrec|]. destruct (cap <? _).
  - pose proof (discard_left (S (Z.to_nat (rd_u32 (take (Z.to_nat 16) rest) 8 (ps_swapped ps)))) cap
      (rd_u32 (take (Z.to_nat 16) rest) 8 (ps_swapped ps)) (drop (Z.to_nat 16) rest)) as Hl.
    destruct (discard _ _ _ _) as [r []]; simpl in Hl; [by apply Hrec|]. eexists. split; [done|lia].
  - unfold fread. destruct (negb _); [|destruct (strip_tag _) as [[? ?] ?]];
      (eexists; split; [done|]; rewrite length_drop; lia).
Qed.

Lemma next_eof fuel ps rest cap ps' :
  next_loop fuel ps rest cap = (ps', PcapEof) → ps_f ps' = Some [].
Proof.
  revert ps rest. induction fuel as [|fuel IH]; intros ps rest; [done|]. cbn [next_loop]. unfold fread at 1. cbv zeta.
  destruct (Z.eqb_spec (zlen (take (Z.to_nat 16) rest)) 0) as [H0|].
  { intros [= <-]. cbn. f_equal. apply nil_length_inv. unfold zlen in H0. rewrite length_take in H0.
    rewrite length_drop. lia. }
  destruct (negb _); [done|]. destruct (_ =? 0); [by apply IH|]. destruct (cap <? _).
  - destruct (discard _ _ _ _) as [r []]; [by apply IH|done].
  - unfold fread. destruct (negb _); [done|]. by destruct (strip_tag _) as [[? ?] ?].
Qed.

(** As many steps as there are bytes bring the walk to the end of any file, and more
    change nothing. *)
Lemma walk_ends fuel fuel' ps cap rest :
  ps_f ps = Some rest → (length rest < fuel)%nat → (fuel ≤ fuel')%nat →
  pcap_walk fuel' ps cap = pcap_walk fuel ps cap ∧ ps_f (pcap_walk fuel ps cap).1 = Some [].
Proof.
  revert fuel' ps rest. induction fuel as [|fuel IH]; intros [|fuel'] ps rest Hp Hf Hle; try lia.
  cbn [pcap_walk]. unfold pcap_source_next. rewrite Hp.
  pose proof (next_moves (S (length rest)) ps rest cap ltac:(lia)) as Hm.
  destruct (next_loop (S (length rest)) ps rest cap) as [ps' []] eqn:E; [split; [done|by eapply next_eof]|..];
    destruct Hm as (rest' & Hp' & Hl); destruct (IH fuel' ps' rest' Hp' ltac:(lia) ltac:(lia)) as [-> Hn];
    by destruct (pcap_walk fuel ps' cap).
Qed.

(** ** Words *)

(** The bytes of a word as a writer of either order lays them. *)
Definition w32 (swap : bool) (x : Z) : list Z :=
  let l := [x mod 256; x / 256 mod 256; x / 65536 mod 256; x / 16777216 mod 256] in
  if swap then rev l else l.

Lemma lor_rev p q r s : Z.lor (Z.lor (Z.lor s r) q) p = Z.lor (Z.lor (Z.lor p q) r) s.
Proof. by rewrite (Z.lor_comm _ p), (Z.lor_comm _ q), (Z.lor_comm s r), !Z.lor_assoc. Qed.

Lemma rd_w32 swap x : 0 ≤ x < 2 ^ 32 → rd_u32 (w32 swap x) 0 swap = x.
Proof.
  intros Hx. set (a := x mod 256). set (b := x / 256 mod 256). set (c := x / 65536 mod 256).
  set (d := x / 16777216 mod 256).
  assert (is_byte a ∧ is_byte b ∧ is_byte c ∧ is_byte d) as (Ha & Hb & Hc & Hd)
    by (unfold is_byte, a, b, c, d; lia).
  assert (a + 256 * b + 65536 * c + 16777216 * d = x) as Ex by (unfold a, b, c, d; lia).
  destruct swap.
  - change (rd_u32 (w32 true x) 0 true) with
      (bswap32 (Z.lor (Z.lor (Z.lor d (Z.shiftl c 8)) (Z.shiftl b 16)) (Z.shiftl a 24))).
    rewrite word_sum by done. unfold bswap32. rewrite !land_ff, !Z.shiftr_div_pow2 by lia.
    unfold is_byte in *. set (v := d + 256 * c + 65536 * b + 16777216 * a).
    replace (v mod 256) with d by (unfold v; lia). replace (v / 2 ^ 8 mod 256) with c by (unfold v; lia).
    replace (v / 2 ^ 16 mod 256) with b by (unfold v; lia). replace (v / 2 ^ 24 mod 256) with a by (unfold v; lia).
    rewrite <- Ex, <- word_sum by done. apply lor_rev.
  - change (rd_u32 (w32 false x) 0 false) with
      (Z.lor (Z.lor (Z.lor a (Z.shiftl b 8)) (Z.shiftl c 16)) (Z.shiftl d 24)).
    by rewrite word_sum.
Qed.

Lemma zlen_w32 swap x : zlen (w32 swap x) = 4.
Proof. by destruct swap. Qed.

Lemma rd_u32_slice l off swap : 0 ≤ off → rd_u32 l off swap = rd_u32 (slice l off 4) 0 swap.
Proof. intros. unfold rd_u32. cbn [Z.add]. rewrite !rd_slice by lia. by rewrite Z.add_0_r. Qed.

(** ** What a writer puts in a file, and what comes back *)

(** A record: its time, the length on the wire, the tag control word when a trunk
    tagged it, and the frame without the tag. *)
Record pcap_rec := PcapRec { pr_sec : Z; pr_usec : Z; pr_orig : Z; pr_tag : option Z; pr_frame : list Z }.

Definition pr_body (r : pcap_rec) : list Z :=
  match pr_tag r with
  | None => pr_frame r
  | Some tci => take 12 (pr_frame r) ++ [0x81; 0x00; tci / 256; tci mod 256] ++ drop 12 (pr_frame r)
  end.

Definition enc_rec (swap : bool) (r : pcap_rec) : list Z :=
  w32 swap (pr_sec r) ++ w32 swap (pr_usec r) ++ w32 swap (zlen (pr_body r)) ++ w32 swap (pr_orig r) ++ pr_body r.
Definition enc_file (swap : bool) (header : list Z) (l : list pcap_rec) : list Z :=
  w32 swap PCAP_MAGIC ++ header ++ concat (enc_rec swap <$> l).

(** Words of 32 bits; a tag is on a whole Ethernet header, and a frame without one does
    not begin like one. *)
Definition rec_ok (r : pcap_rec) : Prop :=
  (0 ≤ pr_sec r < 2 ^ 32 ∧ 0 ≤ pr_usec r < 2 ^ 32 ∧ 0 ≤ pr_orig r < 2 ^ 32 ∧ zlen (pr_body r) < 2 ^ 32) ∧
  match pr_tag r with
  | Some tci => 0 ≤ tci < 65536 ∧ 14 ≤ zlen (pr_frame r)
  | None => ¬ ((pr_frame r).[12] = 0x81 ∧ (pr_frame r).[13] = 0x00)
  end.

(** A record with a frame for a buffer of [cap] bytes. *)
Definition rec_delivers (cap : Z) (r : pcap_rec) : Prop := pr_body r ≠ [] ∧ zlen (pr_body r) ≤ cap.
#[export] Instance rec_delivers_dec cap r : Decision (rec_delivers cap r).
Proof. unfold rec_delivers. apply _. Defined.

Definition frame_of (r : pcap_rec) : list Z * Z := (pr_frame r, pr_sec r * 1000000 + pr_usec r).

Lemma header_words swap a b c d rest :
  let ph := take 16 (w32 swap a ++ w32 swap b ++ w32 swap c ++ w32 swap d ++ rest) in
  zlen ph = 16 ∧ slice ph 0 4 = w32 swap a ∧ slice ph 4 4 = w32 swap b ∧ slice ph 8 4 = w32 swap c ∧
  slice ph 12 4 = w32 swap d ∧ drop 16 (w32 swap a ++ w32 swap b ++ w32 swap c ++ w32 swap d ++ rest) = rest.
Proof. by destruct swap. Qed.

Lemma fread_app n a b : zlen a = n → fread n (a ++ b) = (a, b).
Proof.
  intros <-. unfold fread, zlen. rewrite Nat2Z.id, take_app_length, drop_app_length. done.
Qed.

(** A body is discarded to its last byte. *)
Lemma discard_all fuel cap left body rest :
  0 < cap → zlen body = left → (length body < fuel)%nat → discard fuel cap left (body ++ rest) = (rest, true).
Proof.
  revert left body. induction fuel as [|fuel IH]; intros left body Hc Hl Hf; [lia|]. cbn [discard].
  destruct (Z.leb_spec left 0) as [H0|H0].
  { assert (body = []) as -> by (apply nil_length_inv; unfold zlen in Hl; lia). done. }
  cbv zeta. set (chunk := if left <? cap then left else cap).
  assert (0 < chunk ≤ left) as Hch by (unfold chunk; destruct (Z.ltb_spec left cap); lia).
  destruct (Z.eqb_spec chunk 0); [lia|].
  rewrite <- (take_drop (Z.to_nat chunk) body), <- app_assoc.
  assert (zlen (take (Z.to_nat chunk) body) = chunk) as Hz by (unfold zlen in *; rewrite length_take; lia).
  rewrite (fread_app chunk) by done. rewrite Hz, Z.eqb_refl. cbn [negb].
  unfold zlen in *. apply IH; [done|rewrite length_drop; lia..].
Qed.

(** One record at the head of what is left. *)
Lemma next_rec fuel ps r rest cap :
  0 < cap → rec_ok r →
  next_loop (S fuel) ps (enc_rec (ps_swapped ps) r ++ rest) cap =
  if decide (rec_delivers cap r) then
    let '(tagged, vid, frame) := strip_tag (pr_body r) in
    (PcapSource (Some rest) (ps_swapped ps) (pr_orig r) tagged vid (ps_skipped_oversized ps),
     PcapFrame frame (pr_sec r * 1000000 + pr_usec r))
  else
    next_loop fuel
      (if decide (pr_body r = []) then
         PcapSource (Some rest) (ps_swapped ps) (ps_last_orig_len ps) (ps_last_vlan_tagged ps) (ps_last_vlan_id ps)
           (ps_skipped_oversized ps)
       else PcapSource (Some rest) (ps_swapped ps) (pr_orig r) (ps_last_vlan_tagged ps) (ps_last_vlan_id ps)
              (u32 (ps_skipped_oversized ps + 1))) rest cap.
Proof.
  intros Hc [(Hs & Hu & Ho & Hl) _]. cbn [next_loop]. unfold fread at 1. cbv zeta. unfold enc_rec.
  rewrite <- !app_assoc. change (Z.to_nat 16) with 16%nat.
  pose proof (header_words (ps_swapped ps) (pr_sec r) (pr_usec r) (zlen (pr_body r)) (pr_orig r) (pr_body r ++ rest))
    as (Hz & E0 & E4 & E8 & E12 & Ed). cbv zeta in *. set (ph := take 16 _) in *.
  rewrite Hz, Ed. cbn [Z.eqb negb].
  assert (0 ≤ zlen (pr_body r)) as Hnn by (unfold zlen; lia).
  rewrite (rd_u32_slice ph 0), (rd_u32_slice ph 4), (rd_u32_slice ph 8), (rd_u32_slice ph 12) by lia.
  rewrite E0, E4, E8, E12, !rd_w32 by lia.
  destruct (Z.eqb_spec (zlen (pr_body r)) 0) as [H0|H0].
  { assert (pr_body r = []) as Eb by (apply nil_length_inv; unfold zlen in H0; lia).
    rewrite decide_False by (intros [? _]; done). rewrite decide_True by done. by rewrite Eb. }
  assert (pr_body r ≠ []) as Hb by (intros E; by rewrite E in H0).
  destruct (Z.ltb_spec cap (zlen (pr_body r))) as [Hov|Hfit].
  - rewrite decide_False by (intros [_ ?]; lia). rewrite decide_False by done.
    by rewrite discard_all by (done || unfold zlen; lia).
  - rewrite decide_True by done. rewrite fread_app by done. rewrite Z.eqb_refl. cbn [negb].
    destruct (strip_tag (pr_body r)) as [[tagged vid] frame].
    unfold u64. by rewrite Z.mod_small by lia.
Qed.

(** The tag comes off, and only a tag. *)
Lemma strip_body r :
  rec_ok r → strip_tag (pr_body r) = match pr_tag r with
                                     | Some tci => (true, tci mod 4096, pr_frame r)
                                     | None => (false, 0, pr_frame r)
                                     end.
Proof.
  intros [_ H]. unfold pr_body. destruct (pr_tag r) as [tci|].
  - destruct H as [Ht Hl].
    assert (∃ b0 b1 b2 b3 b4 b5 b6 b7 b8 b9 b10 b11 b12 b13 l,
      pr_frame r = b0 :: b1 :: b2 :: b3 :: b4 :: b5 :: b6 :: b7 :: b8 :: b9 :: b10 :: b11 :: b12 :: b13 :: l) as H.
    { destruct (pr_frame r) as [|b0 [|b1 [|b2 [|b3 [|b4 [|b5 [|b6 [|b7 [|b8 [|b9 [|b10 [|b11 [|b12 [|b13 l]]]]]]]]]]]]]];
        try (unfold zlen in Hl; simpl in Hl; lia). by do 15 eexists. }
    destruct H as (b0 & b1 & b2 & b3 & b4 & b5 & b6 & b7 & b8 & b9 & b10 & b11 & b12 & b13 & l & ->).
    unfold strip_tag. cbn [take drop app].
    rewrite (proj2 (Z.leb_le 18 _)) by (unfold zlen; cbn [length]; lia).
    cbn. f_equal. f_equal.
    match goal with |- context [Z.shiftl ?x.[14] 8] =>
      change (x.[14]) with (tci / 256); change (x.[15]) with (tci mod 256) end.
    rewrite Z.lor_comm, lor_shift8 by (unfold is_byte; lia).
    change 4095 with (Z.ones 12). rewrite Z.land_ones by lia. unfold u16. lia.
  - unfold strip_tag. destruct (18 <=? _); [|done]. cbn [andb].
    destruct (Z.eqb_spec (pr_frame r).[12] 0x81); [|done]. destruct (Z.eqb_spec (pr_frame r).[13] 0x00); [|done].
    by destruct H.
Qed.

(** As much fuel as there are bytes is enough, and more changes nothing. *)
Lemma next_fuel fuel fuel' ps rest cap :
  (length rest < fuel)%nat → (length rest < fuel')%nat → next_loop fuel ps rest cap = next_loop fuel' ps rest cap.
Proof.
  revert fuel' ps rest. induction fuel as [|fuel IH]; intros [|fuel'] ps rest Hf Hf'; try lia.
  cbn [next_loop]. unfold fread at 1 3. cbv zeta.
  destruct (Z.eqb_spec (zlen (take (Z.to_nat 16) rest)) 0) as [|H0]; [done|].
  assert ((length (drop (Z.to_nat 16) rest) < length rest)%nat) as Hd.
  { unfold zlen in H0. rewrite length_take in H0. rewrite length_drop. lia. }
  destruct (negb _); [done|]. destruct (_ =? 0); [apply IH; lia|]. destruct (cap <? _); [|done].
  match goal with |- context [discard ?f cap ?n ?r] => pose proof (discard_left f cap n r) as Hl;
    destruct (discard f cap n r) as [r' []] end; [|done]. simpl in Hl. apply IH; lia.
Qed.

Lemma enc_rec_size swap r : (16 ≤ length (enc_rec swap r))%nat.
Proof. unfold enc_rec. rewrite !length_app. destruct swap; simpl; lia. Qed.

Definition oversized (cap : Z) (r : pcap_rec) : Prop := cap < zlen (pr_body r).
#[export] Instance oversized_dec cap r : Decision (oversized cap r).
Proof. unfold oversized. apply _. Defined.

(** What the walk sees of records that are all there, before it gets to what follows
    them. *)
Lemma walk_recs l fuel ps tail cap :
  0 < cap → Forall rec_ok l → ps_f ps = Some (concat (enc_rec (ps_swapped ps) <$> l) ++ tail) →
  (length (concat (enc_rec (ps_swapped ps) <$> l) ++ tail) < fuel)%nat →
  ∃ ps' fuel', ps_f ps' = Some tail ∧ ps_swapped ps' = ps_swapped ps ∧ (length tail < fuel')%nat ∧
    u32 (ps_skipped_oversized ps') = u32 (ps_skipped_oversized ps + zlen (filter (oversized cap) l)) ∧
    pcap_walk fuel ps cap =
      let '(p, k) := pcap_walk fuel' ps' cap in (p, ((Some ∘ frame_of) <$> filter (rec_delivers cap) l) ++ k).
Proof.
  intros Hc. revert fuel ps. induction l as [|r l IH]; intros fuel ps Hl Hp Hf.
  { exists ps, fuel. split_and!; [done..| |].
    - by rewrite Z.add_0_r.
    - by destruct (pcap_walk fuel ps cap). }
  apply Forall_cons in Hl as [Hr Hl]. rewrite fmap_cons in Hp, Hf. cbn [concat] in Hp, Hf. rewrite <- app_assoc in Hp, Hf.
  set (rest := concat (enc_rec (ps_swapped ps) <$> l) ++ tail) in *.
  pose proof (enc_rec_size (ps_swapped ps) r) as He. rewrite length_app in Hf.
  destruct fuel as [|fuel]; [lia|]. cbn [pcap_walk]. unfold pcap_source_next at 1. rewrite Hp.
  rewrite next_rec by done. destruct (decide (rec_delivers cap r)) as [Hd|Hd].
  - rewrite strip_body by done. rewrite (filter_cons_True (rec_delivers cap) _ _ Hd).
    assert (¬ oversized cap r) as Hov by (unfold oversized; destruct Hd; lia).
    rewrite (filter_cons_False (oversized cap) _ _ Hov).
    assert (∀ tagged vid, ∃ ps' fuel', ps_f ps' = Some tail ∧ ps_swapped ps' = ps_swapped ps ∧
      (length tail < fuel')%nat ∧
      u32 (ps_skipped_oversized ps') = u32 (ps_skipped_oversized ps + zlen (filter (oversized cap) l)) ∧
      pcap_walk fuel (PcapSource (Some rest) (ps_swapped ps) (pr_orig r) tagged vid (ps_skipped_oversized ps)) cap =
      let '(p, k) := pcap_walk fuel' ps' cap in (p, ((Some ∘ frame_of) <$> filter (rec_delivers cap) l) ++ k)) as Hn.
    { intros tagged vid. apply (IH fuel (PcapSource (Some rest) (ps_swapped ps) (pr_orig r) tagged vid
        (ps_skipped_oversized ps))); [done|done|cbn [ps_swapped]; fold rest; lia]. }
    destruct (pr_tag r) as [tci|]; [destruct (Hn true (tci mod 4096)) as (ps' & fuel' & H1 & H2 & H3 & H4 & H5)|
      destruct (Hn false 0) as (ps' & fuel' & H1 & H2 & H3 & H4 & H5)]; exists ps', fuel';
      (split_and!; [done..|]); rewrite H5; by destruct (pcap_walk fuel' ps' cap).
  - set (ps1 := if decide _ then _ else _).
    assert (ps_f ps1 = Some rest ∧ ps_swapped ps1 = ps_swapped ps) as [Hf1 Hs1] by (unfold ps1; by case_decide).
    rewrite (filter_cons_False (rec_delivers cap) _ _ Hd).
    rewrite (next_fuel _ (S (length rest))) by (rewrite ?length_app; lia).
    assert (next_loop (S (length rest)) ps1 rest cap = pcap_source_next ps1 cap) as ->
      by (unfold pcap_source_next; by rewrite Hf1).
    change (∃ ps' fuel', ps_f ps' = Some tail ∧ ps_swapped ps' = ps_swapped ps ∧ (length tail < fuel')%nat ∧
      u32 (ps_skipped_oversized ps') = u32 (ps_skipped_oversized ps + zlen (filter (oversized cap) (r :: l))) ∧
      pcap_walk (S fuel) ps1 cap =
      let '(p, k) := pcap_walk fuel' ps' cap in (p, ((Some ∘ frame_of) <$> filter (rec_delivers cap) l) ++ k)).
    destruct (IH (S fuel) ps1 Hl) as (ps' & fuel' & H1 & H2 & H3 & H4 & H5); [by rewrite Hs1|rewrite Hs1; fold rest; lia|].
    exists ps', fuel'. split_and!; [done|by rewrite H2|done| |done]. rewrite H4. unfold ps1.
    destruct (decide (pr_body r = [])) as [E|E]; cbn [ps_skipped_oversized].
    + rewrite filter_cons_False; [done|]. unfold oversized. rewrite E. unfold zlen. simpl. lia.
    + rewrite filter_cons_True.
      * unfold zlen, u32. simpl length. rewrite Z.add_mod_idemp_l by lia. f_equal. lia.
      * unfold oversized. destruct (decide (cap < zlen (pr_body r))); [done|]. destruct Hd. split; [done|lia].
Qed.

(** A body that ends early is an error, with nothing left behind it. *)
Lemma discard_short fuel cap left body :
  0 < cap → zlen body < left → (length body < fuel)%nat → discard fuel cap left body = ([], false).
Proof.
  revert left body. induction fuel as [|fuel IH]; intros left body Hc Hl Hf; [lia|]. cbn [discard].
  destruct (Z.leb_spec left 0) as [H0|H0]; [unfold zlen in Hl; lia|]. cbv zeta. set (chunk := if left <? cap then left else cap).
  assert (0 < chunk ≤ left) as Hch by (unfold chunk; destruct (Z.ltb_spec left cap); lia).
  destruct (Z.eqb_spec chunk 0); [lia|]. unfold fread. unfold zlen in *.
  destruct (Z.eqb_spec (Z.of_nat (length (take (Z.to_nat chunk) body))) chunk) as [Hz|Hz]; rewrite length_take in Hz; cbn [negb].
  - apply IH; [done|rewrite length_drop; lia..].
  - f_equal. apply nil_length_inv. rewrite length_drop. lia.
Qed.

Lemma next_cut fuel ps r k cap :
  0 < cap → rec_ok r → (0 < k < length (enc_rec (ps_swapped ps) r))%nat →
  ∃ ps', next_loop (S fuel) ps (take k (enc_rec (ps_swapped ps) r)) cap = (ps', PcapErr) ∧ ps_f ps' = Some [].
Proof.
  intros Hc [(Hs & Hu & Ho & Hl) _] Hk. cbn [next_loop]. unfold fread at 1. cbv zeta. change (Z.to_nat 16) with 16%nat.
  destruct (decide (k < 16)%nat) as [Hk16|Hk16].
  - rewrite take_take, Nat.min_r by lia. unfold zlen at 1 2. rewrite length_take_le by lia.
    destruct (Z.eqb_spec (Z.of_nat k) 0); [lia|]. destruct (Z.eqb_spec (Z.of_nat k) 16); [lia|]. cbn [negb].
    eexists. split; [done|]. cbn. f_equal. apply nil_length_inv. rewrite length_drop, length_take. lia.
  - assert (take k (enc_rec (ps_swapped ps) r) =
      w32 (ps_swapped ps) (pr_sec r) ++ w32 (ps_swapped ps) (pr_usec r) ++ w32 (ps_swapped ps) (zlen (pr_body r)) ++
      w32 (ps_swapped ps) (pr_orig r) ++ take (k - 16) (pr_body r)) as ->.
    { unfold enc_rec. replace k with (16 + (k - 16))%nat at 1 by lia. by destruct (ps_swapped ps). }
    pose proof (header_words (ps_swapped ps) (pr_sec r) (pr_usec r) (zlen (pr_body r)) (pr_orig r) (take (k - 16) (pr_body r)))
      as (Hz & _ & _ & E8 & _ & Ed). cbv zeta in *. set (ph := take 16 _) in *.
    rewrite Hz, Ed. cbn [Z.eqb negb]. rewrite (rd_u32_slice ph 8) by lia.
    assert (0 ≤ zlen (pr_body r)) as Hnn by (unfold zlen; lia). rewrite E8, rd_w32 by lia.
    assert ((k - 16 < length (pr_body r))%nat) as Hb.
    { unfold enc_rec in Hk. rewrite !length_app in Hk. destruct (ps_swapped ps); simpl in Hk; lia. }
    destruct (Z.eqb_spec (zlen (pr_body r)) 0); [unfold zlen in *; lia|].
    destruct (Z.ltb_spec cap (zlen (pr_body r))).
    + rewrite discard_short by (done || unfold zlen; rewrite length_take; lia). by eexists.
    + unfold fread. unfold zlen in *. rewrite Nat2Z.id.
      destruct (Z.eqb_spec (Z.of_nat (length (take (length (pr_body r)) (take (k - 16) (pr_body r))))) (Z.of_nat (length (pr_body r))))
        as [E|_]; [rewrite !length_take in E; lia|]. cbn [negb]. eexists. split; [done|]. cbn. f_equal.
      apply nil_length_inv. rewrite length_drop, length_take. lia.
Qed.

(** ** Claims *)

(** C19. Reading back a capture file of either byte order, whole or cut anywhere inside a
    record: the walk returns, once and in order and with its time, the frame of every
    record that has one and fits the buffer, a tag that a trunk put on it taken off;
    empty records leave no trace and oversized ones are counted; a cut is one error; and
    the end of the walk is the end of the file. *)
Theorem pcap_roundtrip swap header l cut cap fuel :
  let tail := match cut with Some (r, k) => take k (enc_rec swap r) | None => [] end in
  let file := enc_file swap header l ++ tail in
  zlen header = 20 → 0 < cap → Forall rec_ok l →
  (∀ r k, cut = Some (r, k) → rec_ok r ∧ (0 < k < length (enc_rec swap r))%nat) →
  (length file < fuel)%nat →
  ∃ ps, pcap_source_open (Some file) = Some ps ∧
    let '(ps', seen) := pcap_walk fuel ps cap in
    seen = ((Some ∘ frame_of) <$> filter (rec_delivers cap) l) ++ (match cut with Some _ => [None] | None => [] end) ∧
    ps_f ps' = Some [] ∧
    (cut = None → u32 (ps_skipped_oversized ps') = u32 (zlen (filter (oversized cap) l))).
Proof.
  cbv zeta. set (tail := match cut with Some (r, k) => take k (enc_rec swap r) | None => [] end).
  set (file := enc_file swap header l ++ tail). intros Hh Hc Hl Hcut Hf.
  set (rest := concat (enc_rec swap <$> l) ++ tail).
  assert (file = (w32 swap PCAP_MAGIC ++ header) ++ rest) as Ef by (unfold file, enc_file, rest; by rewrite <- !app_assoc).
  exists (PcapSource (Some rest) swap 0 false 0 0). split.
  { unfold pcap_source_open. rewrite Ef, fread_app by (rewrite zlen_app, zlen_w32; lia).
    rewrite zlen_app, zlen_w32, Hh. cbn [Z.add Z.eqb Pos.add Pos.eqb negb].
    rewrite rd_u32_slice by lia. by destruct swap. }
  set (ps := PcapSource (Some rest) swap 0 false 0 0).
  destruct (walk_recs l fuel ps tail cap Hc Hl eq_refl) as (ps1 & fuel1 & H1 & H2 & H3 & H4 & H5).
  { cbn [ps_swapped ps]. fold rest. rewrite Ef, length_app in Hf. lia. }
  rewrite H5. cbn [ps_swapped ps ps_skipped_oversized] in *. destruct fuel1 as [|fuel1]; [lia|]. cbn [pcap_walk].
  unfold pcap_source_next. rewrite H1. destruct cut as [[r k]|].
  - destruct (Hcut r k eq_refl) as [Hr Hk]. rewrite <- H2 in Hk.
    destruct (next_cut (length tail) ps1 r k cap Hc Hr Hk) as (ps2 & E & Hp2). unfold tail at 2. rewrite <- H2, E.
    assert (tail ≠ []) as Hne.
    { intros Et. apply (f_equal length) in Et. unfold tail in Et. rewrite length_take, <- H2 in Et. simpl in Et. lia. }
    destruct fuel1 as [|fuel1]; [destruct tail; [done|simpl in H3; lia]|]. cbn [pcap_walk]. unfold pcap_source_next.
    rewrite Hp2. cbn. by split_and!.
  - cbn. by split_and!.
Qed.

(** A mirror of a trunk, written by a machine of the other byte order and cut in its
    last record: the desk's flood and announce are tagged with VLAN 11. *)
Definition demo_rec (usec : Z) (tag : option Z) (frame : list Z) : pcap_rec :=
  PcapRec 0 usec (zlen frame) tag frame.
Definition demo_recs : list pcap_rec :=
  [demo_rec 1000 (Some 11) (tap_audio (fill 6 0xff) tap_desk 7 40); demo_rec 1001 None [];
   demo_rec 1002 None (tap_audio tap_desk tap_box 7 45); demo_rec 1100 None (tap_audio tap_desk tap_box 7 2);
   demo_rec 1200 (Some 11) (tap_announce tap_desk)].
Definition demo_cut : pcap_rec * nat := (demo_rec 1300 None (tap_audio tap_desk tap_box 8 2), 50%nat).
Definition demo_file : list Z := enc_file true (zeros 20) demo_recs ++ take demo_cut.2 (enc_rec true demo_cut.1).

Lemma demo_recs_ok : Forall rec_ok demo_recs ∧ rec_ok demo_cut.1.
Proof.
  split; [repeat (apply Forall_cons; split); [..|apply Forall_nil; done]|];
    (split; [split_and!; (done || by vm_compute)|]); cbn; (intros [? ?]; discriminate) || (split; [lia|by vm_compute]).
Qed.

Lemma pcap_roundtrip_witness :
  ∃ ps, pcap_source_open (Some demo_file) = Some ps ∧
    (pcap_walk 4500 ps (REAC_FRAME_BYTES + 64)).2 =
      [Some (tap_audio (fill 6 0xff) tap_desk 7 40, 1000); Some (tap_audio tap_desk tap_box 7 2, 1100);
       Some (tap_announce tap_desk, 1200); None].
Proof.
  destruct demo_recs_ok as [H1 H2].
  destruct (pcap_roundtrip true (zeros 20) demo_recs (Some demo_cut) (REAC_FRAME_BYTES + 64) 4500 eq_refl eq_refl H1)
    as (ps & Ho & Hw).
  - intros r k [= <- <-]. split; [exact H2|]. apply Nat.ltb_lt || split; apply Nat.ltb_lt; reflexivity.
  - apply Nat.ltb_lt. vm_compute. reflexivity.
  - exists ps. split; [exact Ho|]. destruct (pcap_walk 4500 ps (REAC_FRAME_BYTES + 64)) as [ps' seen].
    destruct Hw as (-> & _). vm_compute. reflexivity.
Defined.

(** The tap on that file serves the desk and the box. *)
Example tap_on_demo_file :
  (ps ← pcap_source_open (Some demo_file);
   t ← tap_serve false true true 48
         (survey_pcap (reac_tap_survey_set_self reac_tap_survey_init None) 0
            (pcap_walk (S (length demo_file)) ps (REAC_FRAME_BYTES + 64)).2);
   Some (st_kind <$> sv_stream (t_survey t))) = Some [REAC_TAP_STREAM_MASTER; REAC_TAP_STREAM_BOX].
Proof. by vm_compute. Qed.

(** A tagged record that is all there reads as one the capture cut short: the length on
    the wire still counts the tag that was taken off. *)
Lemma tagged_reads_truncated ps r rest cap :
  0 < cap → rec_ok r → rec_delivers cap r → (∃ tci, pr_tag r = Some tci) → pr_orig r = zlen (pr_body r) →
  ps_f ps = Some (enc_rec (ps_swapped ps) r ++ rest) →
  ∃ ps' ts, pcap_source_next ps cap = (ps', PcapFrame (pr_frame r) ts) ∧
    ps_last_orig_len ps' = zlen (pr_frame r) + 4.
Proof.
  intros Hc Hr Hd [tci Ht] Ho Hp. unfold pcap_source_next. rewrite Hp, next_rec by done.
  rewrite decide_True by done. rewrite strip_body, Ht by done. eexists _, _. split; [done|]. cbn.
  rewrite Ho. unfold pr_body. rewrite Ht. rewrite !zlen_app. unfold zlen. rewrite length_take, length_drop.
  destruct Hr as [_ Hr]. rewrite Ht in Hr. unfold zlen in Hr. simpl length. lia.
Qed.
