(* ===== verification/Conf.v ===== *)
(** * Conf: a key looked up through the configuration layers, and the priority it sets

    Models [transport/src/reac_conf.c] (reading one key of an environment file, the
    order of the layers) and the parsing and resolution of the real-time priority in
    [transport/src/reac_rt.c]. The process environment is a function from names to
    values, the file system one from paths to contents; a C string is the list of its
    characters, and a file is cut into lines the way [fgets] cuts it. *)
From Stdlib Require String.
From S2P Require Import Prelude BoxModel.
Import String.StringSyntax.
Local Open Scope Z_scope.

Inductive reac_conf_layer :=
  REAC_CONF_NONE | REAC_CONF_ARGV | REAC_CONF_ENV | REAC_CONF_SEGMENT | REAC_CONF_HOST
| REAC_CONF_LAST_RESORT | REAC_CONF_BUILTIN.
#[export] Instance conf_layer_eq_dec : EqDecision reac_conf_layer.
Proof. solve_decision. Defined.

Definition reac_conf_layer_name (l : reac_conf_layer) : list Z :=
  match l with
  | REAC_CONF_ARGV => str "the command line"
  | REAC_CONF_ENV => str "the process environment"
  | REAC_CONF_SEGMENT => str "a per-segment key (<KEY>_<segment>) in the environment or a conf file"
  | REAC_CONF_HOST => str "~/.config/reac-pw/reac-pw.env (per-host)"
  | REAC_CONF_LAST_RESORT => str "~/.config/openmixer/reac.env (last resort)"
  | REAC_CONF_BUILTIN => str "the built-in default"
  | REAC_CONF_NONE => str "nothing"
  end.

(** ** One line *)

Definition is_blank (c : Z) : bool := (c =? 32) || (c =? 9).
Definition is_end_blank (c : Z) : bool := is_blank c || (c =? 10) || (c =? 13).

Fixpoint drop_while (p : Z → bool) (l : list Z) : list Z :=
  match l with
  | c :: r => if p c then drop_while p r else l
  | [] => []
  end.
Definition trim (s : list Z) : list Z := rev (drop_while is_end_blank (rev (drop_while is_blank s))).

(** [strncmp(p, key, strlen(key)) == 0]. *)
Definition begins (p key : list Z) : bool := zeqb (take (length key) p) key.

(** One matching pair of quotes. *)
Definition unquote (v : list Z) : list Z :=
  let n := zlen v in
  if (2 <=? n) && (((v.[0] =? 34) && (v.[n - 1] =? 34)) || ((v.[0] =? 39) && (v.[n - 1] =? 39)))
  then slice v 1 (n - 2) else v.

(** What a line assigns the key, blank or not, if it does. *)
Definition line_assign (key line : list Z) : option (list Z) :=
  let p := trim line in
  if zeqb p [] || (p.[0] =? 35) then None
  else
    let p := if begins p (str "export ") then trim (drop 7 p) else p in
    if negb (begins p key) then None
    else
      let eq := trim (drop (length key) p) in
      if negb (begins eq [61]) then None
      else
        Some (unquote (trim (drop 1 eq))).

Definition non_blank (v : list Z) : option (list Z) := if zeqb v [] then None else Some v.

(** The value a line gives the key: a blank one is passed over. *)
Definition line_value (key line : list Z) : option (list Z) := line_assign key line ≫= non_blank.

(** ** One file *)

Definition LINE_MAX : Z := 1024.

(** [fgets]: up to [n] characters, through the first newline. *)
Fixpoint fgets (n : nat) (f : list Z) : list Z * list Z :=
  match n, f with
  | O, _ => ([], f)
  | _, [] => ([], [])
  | S n, c :: f => if c =? 10 then ([c], f) else let '(line, r) := fgets n f in (c :: line, r)
  end.

(** A C string ends at its first null. *)
Fixpoint c_string (s : list Z) : list Z :=
  match s with
  | [] => []
  | c :: r => if c =? 0 then [] else c :: c_string r
  end.

Fixpoint read_loop (fuel : nat) (key f : list Z) (hit : option (list Z)) : option (list Z) :=
  match fuel, f with
  | O, _ | _, [] => hit
  | S fuel, _ =>
      let '(line, f) := fgets (Z.to_nat (LINE_MAX - 1)) f in
      read_loop fuel key f (match line_value key (c_string line) with Some v => Some v | None => hit end)
  end.

(** [snprintf(out, cap, "%s", s)]. *)
Definition bounded (cap : Z) (s : list Z) : list Z := take (Z.to_nat (cap - 1)) s.

Lemma bounded_id cap s : zlen s < cap → bounded cap s = s.
Proof. intros. unfold bounded. apply take_ge. unfold zlen in *. lia. Qed.

Section lookup.
Variable getenv : list Z → option (list Z).
Variable fs : list Z → option (list Z).

Definition reac_conf_read_file (path key : list Z) (cap : Z) : option (list Z) :=
  if cap =? 0 then None
  else match fs path with
       | None => None
       | Some f => bounded cap <$> read_loop (length f) key f None
       end.

(** A value that is set and not empty. *)
Definition env_value (key : list Z) : option (list Z) :=
  v ← getenv key; if zeqb v [] then None else Some v.

Definition host_path (home : list Z) : list Z := bounded 1024 (home ++ str "/.config/reac-pw/reac-pw.env").
Definition last_path (home : list Z) : list Z := bounded 1024 (home ++ str "/.config/openmixer/reac.env").

(** The layer and the value; [None] is REAC_CONF_NONE with [out] as it was. *)
Definition lookup_bare (key home : list Z) (cap : Z) : option (reac_conf_layer * list Z) :=
  match env_value key with
  | Some e => Some (REAC_CONF_ENV, bounded cap e)
  | None =>
      match reac_conf_read_file (host_path home) key cap with
      | Some v => Some (REAC_CONF_HOST, v)
      | None =>
          match reac_conf_read_file (last_path home) key cap with
          | Some v => Some (REAC_CONF_LAST_RESORT, v)
          | None => None
          end
      end
  end.

Definition seg_key (key segment : list Z) : list Z := bounded 256 (key ++ str "_" ++ segment).

Definition reac_conf_lookup (key segment : list Z) (home : option (list Z)) (cap : Z)
    : option (reac_conf_layer * list Z) :=
  if cap =? 0 then None
  else
    let home := match home with Some h => Some h | None => getenv (str "HOME") end in
    match home with
    | None | Some [] =>
        let seg := if negb (zeqb segment []) then env_value (seg_key key segment) else None in
        match seg with
        | Some e => Some (REAC_CONF_SEGMENT, bounded cap e)
        | None => e ← env_value key; Some (REAC_CONF_ENV, bounded cap e)
        end
    | Some home =>
        let seg := if negb (zeqb segment []) then lookup_bare (seg_key key segment) home cap else None in
        match seg with
        | Some (_, v) => Some (REAC_CONF_SEGMENT, v)
        | None => lookup_bare key home cap
        end
    end.

(** ** What the code computes: the first of six sources that answers *)

(** A file as a sequence of lines, cut at the newlines and nowhere else. *)
Fixpoint lines (f : list Z) : list (list Z) :=
  match f with
  | [] => []
  | c :: f => if c =? 10 then [10] :: lines f
              else match lines f with
                   | [] => [[c]]
                   | l :: r => (c :: l) :: r
                   end
  end.

(** The last line with a value for the key gives it. *)
Definition file_value (path key : list Z) : option (list Z) :=
  f ← fs path; last (omap (λ l, line_value key (c_string l)) (lines f)).

Definition sources (key home : list Z) : list (reac_conf_layer * option (list Z)) :=
  [(REAC_CONF_ENV, env_value key);
   (REAC_CONF_HOST, file_value (home ++ str "/.config/reac-pw/reac-pw.env") key);
   (REAC_CONF_LAST_RESORT, file_value (home ++ str "/.config/openmixer/reac.env") key)].
Definition answers (key segment home : list Z) : list (reac_conf_layer * option (list Z)) :=
  (if zeqb segment [] then []
   else (λ '(_, v), (REAC_CONF_SEGMENT, v)) <$> sources (key ++ str "_" ++ segment) home) ++ sources key home.

Fixpoint first_answer (l : list (reac_conf_layer * option (list Z))) : option (reac_conf_layer * list Z) :=
  match l with
  | [] => None
  | (layer, Some v) :: _ => Some (layer, v)
  | _ :: l => first_answer l
  end.

(** Lines short enough for the buffer. *)
Definition short_lines (path : list Z) : Prop :=
  ∀ f, fs path = Some f → Forall (λ l, zlen l < LINE_MAX) (lines f).

Lemma fgets_line n f l r :
  lines f = l :: r → (length l ≤ n)%nat → ∃ f', fgets n f = (l, f') ∧ lines f' = r ∧ (length f' < length f)%nat.
Proof.
  revert f l. induction n as [|n IH]; intros [|c f] l E Hl; try done.
  - exfalso. simpl in E. destruct (c =? 10); [simplify_eq; simpl in Hl; lia|].
    destruct (lines f); simplify_eq; simpl in Hl; lia.
  - simpl in E |- *. destruct (c =? 10) eqn:Ec.
    { apply Z.eqb_eq in Ec. simplify_eq. exists f. split_and!; [done..|simpl; lia]. }
    destruct (lines f) as [|l1 r1] eqn:Ef; simplify_eq.
    + destruct f as [|c1 f1]; [|simpl in Ef; destruct (c1 =? 10), (lines f1); done]. destruct n; exists []; simpl; auto with lia.
    + destruct (IH f l1 Ef) as (f' & -> & <- & ?); [simpl in Hl; lia|]. exists f'. split_and!; [done..|simpl; lia].
Qed.

(** The loop over the buffer takes the last line that answers. *)
Lemma read_loop_last fuel key f hit :
  (length f ≤ fuel)%nat → Forall (λ l, zlen l < LINE_MAX) (lines f) →
  read_loop fuel key f hit =
  match last (omap (λ l, line_value key (c_string l)) (lines f)) with Some v => Some v | None => hit end.
Proof.
  revert f hit. induction fuel as [|fuel IH]; intros [|c f] hit Hf Hl; try done; [simpl in Hf; lia|].
  destruct (lines (c :: f)) as [|l r] eqn:E; [simpl in E; destruct (c =? 10), (lines f); done|].
  apply Forall_cons in Hl as [Hl Hr]. unfold zlen, LINE_MAX in Hl.
  cbn [read_loop]. destruct (fgets_line (Z.to_nat (LINE_MAX - 1)) (c :: f) l r E) as (f' & -> & Ef & Hlen).
  { unfold LINE_MAX. lia. }
  rewrite IH; [|simpl in *; lia|by rewrite Ef]. rewrite Ef. cbn [omap list_omap].
  destruct (line_value key (c_string l)) as [v|]; [|done]. rewrite last_cons.
  by destruct (last (omap _ r)).
Qed.

Lemma read_file_last path key cap :
  0 < cap → short_lines path → reac_conf_read_file path key cap = bounded cap <$> file_value path key.
Proof.
  intros Hc Hs. unfold reac_conf_read_file, file_value. destruct (Z.eqb_spec cap 0); [lia|].
  destruct (fs path) as [f|] eqn:E; [|done]. rewrite read_loop_last; [|done|by apply Hs]. cbn.
  by destruct (last _).
Qed.

Definition truncated (cap : Z) (a : option (reac_conf_layer * list Z)) : option (reac_conf_layer * list Z) :=
  (λ '(l, v), (l, bounded cap v)) <$> a.

Lemma lookup_bare_first key home cap :
  0 < cap → zlen (home ++ str "/.config/reac-pw/reac-pw.env") < 1024 →
  short_lines (home ++ str "/.config/reac-pw/reac-pw.env") →
  short_lines (home ++ str "/.config/openmixer/reac.env") →
  lookup_bare key home cap = truncated cap (first_answer (sources key home)).
Proof.
  intros Hc Hz H1 H2. unfold lookup_bare, host_path, last_path.
  rewrite !bounded_id by (try done; revert Hz; rewrite !zlen_app; change (zlen (str "/.config/openmixer/reac.env")) with 27;
    change (zlen (str "/.config/reac-pw/reac-pw.env")) with 28; lia).
  rewrite !read_file_last by done. unfold sources, truncated. cbn [first_answer].
  destruct (env_value key); [done|]. destruct (file_value _ _); [done|]. by destruct (file_value _ _).
Qed.

Lemma first_app l l' : first_answer (l ++ l') = match first_answer l with Some a => Some a | None => first_answer l' end.
Proof. induction l as [|[layer [v|]] l IH]; [done|done|exact IH]. Qed.

Lemma first_relabelled layer l : first_answer ((λ '(_, v), (layer, v)) <$> l) = (λ '(_, v), (layer, v)) <$> first_answer l.
Proof. induction l as [|[layer' [v|]] l IH]; [done|done|exact IH]. Qed.

(** The order the code implements: of the key suffixed with the segment in the
    environment, the host's file and the last resort, and then the bare key in the
    same three, the first that has an answer gives it; a file answers with the last
    of its lines that gives the key a value. *)
Lemma lookup_first_answer key segment home cap :
  0 < cap → home ≠ [] → zlen (home ++ str "/.config/reac-pw/reac-pw.env") < 1024 →
  zlen key + 1 + zlen segment < 256 →
  short_lines (home ++ str "/.config/reac-pw/reac-pw.env") →
  short_lines (home ++ str "/.config/openmixer/reac.env") →
  reac_conf_lookup key segment (Some home) cap = truncated cap (first_answer (answers key segment home)).
Proof.
  intros Hc Hh Hz Hk H1 H2. unfold reac_conf_lookup. destruct (Z.eqb_spec cap 0); [lia|]. cbv zeta.
  destruct home as [|c home]; [done|]. set (h := c :: home) in *. unfold answers.
  unfold seg_key. rewrite (bounded_id 256) by (rewrite !zlen_app; change (zlen (str "_")) with 1; lia).
  rewrite !lookup_bare_first, first_app by done. destruct (zeqb segment []); [done|]. cbn [negb].
  rewrite first_relabelled. unfold truncated. by destruct (first_answer (sources (key ++ _) h)) as [[layer v]|].
Qed.

(** ** What the header documents: four layers, highest first *)

(** Everything a file assigns the key, in order, blanks included. *)
Definition assignments (path key : list Z) : list (list Z) :=
  match fs path with
  | Some f => omap (λ l, line_assign key (c_string l)) (lines f)
  | None => []
  end.

(** The last assignment wins, and a blank turns the key off. *)
Definition file_setting (path key : list Z) : option (list Z) := last (assignments path key) ≫= non_blank.

(** The process environment; the per-segment key wherever it is; the host's file; the
    last resort. *)
Definition precedence (key segment home : list Z) : list (reac_conf_layer * option (list Z)) :=
  let host := home ++ str "/.config/reac-pw/reac-pw.env" in
  let floor := home ++ str "/.config/openmixer/reac.env" in
  let seg := key ++ str "_" ++ segment in
  [(REAC_CONF_ENV, env_value key)] ++
  (if zeqb segment [] then []
   else [(REAC_CONF_SEGMENT, env_value seg); (REAC_CONF_SEGMENT, file_setting host seg);
         (REAC_CONF_SEGMENT, file_setting floor seg)]) ++
  [(REAC_CONF_HOST, file_setting host key); (REAC_CONF_LAST_RESORT, file_setting floor key)].

(** The file does not turn the key off after having given it a value. *)
Definition not_turned_off (path key : list Z) : Prop :=
  last (assignments path key) = Some [] → Forall (λ v, v = []) (assignments path key).

Lemma omap_non_blank l : Forall (λ v, v = []) l → omap non_blank l = [].
Proof. induction 1 as [|v l -> _ IH]; [done|exact IH]. Qed.

Lemma last_non_blank l :
  (last l = Some [] → Forall (λ v, v = []) l) → last (omap non_blank l) = last l ≫= non_blank.
Proof.
  intros H. destruct l as [|v l] using rev_ind; [done|]. clear IHl. rewrite last_snoc in *. simpl.
  destruct v as [|c v]; [by rewrite omap_non_blank by auto|]. rewrite omap_app. apply last_snoc.
Qed.

Lemma file_value_setting path key : not_turned_off path key → file_value path key = file_setting path key.
Proof.
  unfold not_turned_off, file_value, file_setting, assignments. intros H. destruct (fs path) as [f|]; [|done].
  rewrite <- last_non_blank by done. cbn [mbind option_bind]. f_equal. clear H.
  induction (lines f) as [|l r IH]; csimpl; [done|]. unfold line_value at 1.
  destruct (line_assign key (c_string l)) as [v|]; csimpl; [|done]. destruct (non_blank v); by rewrite IH.
Qed.


End lookup.

(** A role for every segment in the host's file, one for a single segment in the last
    resort, and none in the environment. *)
Definition demo_getenv (k : list Z) : option (list Z) := if zeqb k (str "REAC_MODE") then Some (str "live") else None.
Definition nl : list Z := [10].
Definition demo_host : list Z := str "REAC_ROLE=slave" ++ nl ++ str "REAC_ROLE=master" ++ nl.
Definition demo_last : list Z := str "# floor" ++ nl ++ str " export REAC_ROLE_eth0 = 'slave' " ++ nl ++ str "REAC_RATE=" ++ nl.
Definition demo_fs (p : list Z) : option (list Z) :=
  if zeqb p (str "/h/.config/openmixer/reac.env") then Some demo_last
  else if zeqb p (str "/h/.config/reac-pw/reac-pw.env") then Some demo_host else None.

Lemma demo_short p : short_lines demo_fs p.
Proof. intros f. unfold demo_fs. case_match; [|case_match; [|done]]; intros [= <-]; vm_compute; repeat constructor. Qed.

(** Neither file turns the role off. *)
Lemma demo_kept keys :
  keys = [str "REAC_ROLE"; str "REAC_ROLE_eth0"] ∨ keys = [str "REAC_ROLE"; str "REAC_ROLE_"] →
  Forall (λ k, not_turned_off demo_fs (str "/h/.config/reac-pw/reac-pw.env") k ∧
               not_turned_off demo_fs (str "/h/.config/openmixer/reac.env") k) keys.
Proof.
  intros [-> | ->]; repeat (apply Forall_cons; split); try apply Forall_nil; try done;
    split; intros H; vm_compute in H; discriminate H.
Qed.


(** Where the two part. The header puts the process environment above the per-segment
    key; the code asks for the per-segment key everywhere before the bare one. *)
Lemma segment_over_environment :
  let getenv := λ k, if zeqb k (str "REAC_ROLE") then Some (str "master") else None in
  reac_conf_lookup getenv demo_fs (str "REAC_ROLE") (str "eth0") (Some (str "/h")) 64 =
    Some (REAC_CONF_SEGMENT, str "slave") ∧
  first_answer (precedence getenv demo_fs (str "REAC_ROLE") (str "eth0") (str "/h")) =
    Some (REAC_CONF_ENV, str "master").
Proof. by vm_compute. Qed.

(** A later line that blanks the key out does not turn it off: the value before it
    stands. *)
Lemma blank_does_not_turn_off :
  let fs := λ p, if zeqb p (str "/env") then Some (str "REAC_ROLE=master" ++ nl ++ str "REAC_ROLE=" ++ nl) else None in
  reac_conf_read_file fs (str "/env") (str "REAC_ROLE") 64 = Some (str "master") ∧
  file_setting fs (str "/env") (str "REAC_ROLE") = None.
Proof. by vm_compute. Qed.

(** A line longer than the buffer is read as two: what a long comment says behind its
    1023rd character is an assignment. *)
Lemma long_comment_assigns :
  let f := str "#" ++ fill 1022 45 ++ str "REAC_ROLE=master" ++ nl in
  read_loop (length f) (str "REAC_ROLE") f None = Some (str "master") ∧
  last (omap (λ l, line_value (str "REAC_ROLE") (c_string l)) (lines f)) = None.
Proof. by vm_compute. Qed.

(** ** The real-time priority *)

Definition REAC_RT_PW_DRIVER_PRIO : Z := 60.
Definition REAC_RT_PW_CLIENT_PRIO : Z := 55.
Definition REAC_RT_PRIO_DEFAULT : Z := 45.
Definition REAC_RT_PRIO_KEY : list Z := str "REACPW_RT_PRIO".

Inductive reac_rt_prio_source :=
  REAC_RT_PRIO_SRC_BUILTIN | REAC_RT_PRIO_SRC_CALLER | REAC_RT_PRIO_SRC_CONFIG | REAC_RT_PRIO_SRC_REFUSED.
#[export] Instance rt_prio_source_eq_dec : EqDecision reac_rt_prio_source.
Proof. solve_decision. Defined.

Definition reac_rt_prio_source_name (s : reac_rt_prio_source) : list Z :=
  match s with
  | REAC_RT_PRIO_SRC_CALLER => str "set by the caller"
  | REAC_RT_PRIO_SRC_CONFIG => REAC_RT_PRIO_KEY
  | REAC_RT_PRIO_SRC_REFUSED => REAC_RT_PRIO_KEY ++ str " unusable, built-in in force"
  | REAC_RT_PRIO_SRC_BUILTIN => str "built-in"
  end.

Definition isspace (c : Z) : bool := (c =? 32) || ((9 <=? c) && (c <=? 13)).
Definition isdigit (c : Z) : bool := (48 <=? c) && (c <=? 57).

Fixpoint digits (acc : Z) (s : list Z) : Z * list Z :=
  match s with
  | c :: r => if isdigit c then digits (10 * acc + (c - 48)) r else (acc, s)
  | [] => (acc, [])
  end.

(** [strtol] in base 10: [None] when there is no number, or one that is not a [long]. *)
Definition strtol (s : list Z) : option (Z * list Z) :=
  let s := drop_while isspace s in
  let '(neg, s) := if begins s [45] then (true, drop 1 s) else (false, if begins s [43] then drop 1 s else s) in
  if negb (isdigit s.[0]) then None
  else
    let '(v, r) := digits 0 s in
    let v := if neg then - v else v in
    if (v <? - 2 ^ 63) || (2 ^ 63 <=? v) then None else Some (v, r).

Definition reac_rt_prio_parse (value : option (list Z)) : Z * reac_rt_prio_source :=
  let silent := (REAC_RT_PRIO_DEFAULT, REAC_RT_PRIO_SRC_BUILTIN) in
  let refuse := (REAC_RT_PRIO_DEFAULT, REAC_RT_PRIO_SRC_REFUSED) in
  match value with
  | None => silent
  | Some value =>
      let value := drop_while isspace value in
      if zeqb value [] then silent
      else
        match strtol value with
        | None => refuse
        | Some (v, r) =>
            if negb (zeqb (drop_while isspace r) []) then refuse
            else if (v <? 1) || (99 <? v) then refuse
            else (v, REAC_RT_PRIO_SRC_CONFIG)
        end
  end.

Definition reac_rt_prio_preempts_audio (prio : Z) : bool := REAC_RT_PW_CLIENT_PRIO <=? prio.

Definition reac_rt_prio_resolve (getenv fs : list Z → option (list Z)) (caller_prio : Z) (home : option (list Z))
    : Z * reac_rt_prio_source :=
  if 0 <? caller_prio then (caller_prio, REAC_RT_PRIO_SRC_CALLER)
  else
    match reac_conf_lookup getenv fs REAC_RT_PRIO_KEY [] home 64 with
    | None => (REAC_RT_PRIO_DEFAULT, REAC_RT_PRIO_SRC_BUILTIN)
    | Some (_, v) => reac_rt_prio_parse (Some v)
    end.

(** Whatever is configured, what runs is a priority of the scheduler; and unless the
    configuration gave it, it stays below the audio graph. *)
Lemma rt_prio_usable getenv fs home :
  let '(prio, src) := reac_rt_prio_resolve getenv fs 0 home in
  1 ≤ prio ≤ 99 ∧ (src ≠ REAC_RT_PRIO_SRC_CONFIG → reac_rt_prio_preempts_audio prio = false).
Proof.
  assert (∀ v, let '(prio, src) := reac_rt_prio_parse v in
    1 ≤ prio ≤ 99 ∧ (src ≠ REAC_RT_PRIO_SRC_CONFIG → reac_rt_prio_preempts_audio prio = false)) as H.
  { intros [v|]; unfold reac_rt_prio_parse; [|done]. destruct (zeqb _ []); [done|]. destruct (strtol _) as [[n r]|]; [|done].
    destruct (negb _); [done|]. destruct (Z.ltb_spec n 1); [done|]. destruct (Z.ltb_spec 99 n); [done|]. split; [lia|done]. }
  unfold reac_rt_prio_resolve. cbn [Z.ltb Z.compare]. destruct (reac_conf_lookup _ _ _ _ _ _) as [[l v]|]; [apply H|done].
Qed.

(** A whole priority is taken as written, and with anything behind it refused. *)
Lemma prio_digits p : 1 ≤ p ≤ 99 →
  let s := (if p <? 10 then [] else [48 + p / 10]) ++ [48 + p mod 10] in
  reac_rt_prio_parse (Some s) = (p, REAC_RT_PRIO_SRC_CONFIG) ∧
  reac_rt_prio_parse (Some (s ++ str "x")) = (REAC_RT_PRIO_DEFAULT, REAC_RT_PRIO_SRC_REFUSED).
Proof.
  intros Hp. assert (forallb (λ n, let p := Z.of_nat (S n) in
    let s := (if p <? 10 then [] else [48 + p / 10]) ++ [48 + p mod 10] in
    bool_decide (reac_rt_prio_parse (Some s) = (p, REAC_RT_PRIO_SRC_CONFIG)) &&
    bool_decide (reac_rt_prio_parse (Some (s ++ str "x")) = (REAC_RT_PRIO_DEFAULT, REAC_RT_PRIO_SRC_REFUSED)))
    (seq 0 99) = true) as H by by vm_compute.
  rewrite forallb_forall in H. specialize (H (Z.to_nat (p - 1))). cbv zeta in *.
  replace (Z.of_nat (S (Z.to_nat (p - 1)))) with p in H by lia.
  rewrite andb_true_iff, !bool_decide_eq_true in H. apply H. apply in_seq. lia.
Qed.

(** The buffer the configured value goes through is shorter than the value may be: what
    is behind its 63rd character is not refused but lost. *)
Lemma prio_junk_lost :
  let v := str "40" ++ fill 61 32 ++ str "60" in
  reac_rt_prio_parse (Some v) = (REAC_RT_PRIO_DEFAULT, REAC_RT_PRIO_SRC_REFUSED) ∧
  reac_rt_prio_resolve (λ k, if zeqb k REAC_RT_PRIO_KEY then Some v else None) (λ _, None) 0 None =
    (40, REAC_RT_PRIO_SRC_CONFIG).
Proof. by vm_compute. Qed.
