(* ===== verification/Segment.v ===== *)
(** * Segment: what a segment that follows says about its master

    Models [transport/src/reac_segment_ident.c]: the latch that says whether a master
    is being heard, which ages with every step without a frame, and the answers a slave
    and a refused segment publish, with the three printers of [src/reac_arbitration.c]
    they are composed of. A member of an answer is cut to the size of its buffer, as
    [snprintf] cuts it. *)
From Stdlib Require String.
From S2P Require Import Prelude Wire BoxModel BoxFacts Disco DiscoPublish Clock Arbitration Conf.
Import String.StringSyntax.
Local Open Scope Z_scope.

(** [inst] NULL or empty is the unnamed segment. *)
Definition reac_segment_name (inst : option (list Z)) : list Z :=
  match inst with
  | None | Some [] => str "default"
  | Some inst => inst
  end.

(** ** Is a master being heard *)

Record reac_segment_heard := SegHeard { sh_last_frames : Z; sh_quiet_ticks : Z; sh_heard : bool }.

Definition REAC_SEGMENT_HEARD_QUIET_TICKS : Z := 25.

Definition reac_segment_heard_init (frames_ok : Z) : reac_segment_heard := SegHeard frames_ok 0 false.

Definition reac_segment_heard_step (h : reac_segment_heard) (frames_ok quiet_limit : Z) : reac_segment_heard :=
  if negb (frames_ok =? sh_last_frames h) then SegHeard frames_ok 0 true
  else
    let quiet := if sh_quiet_ticks h <? quiet_limit then sh_quiet_ticks h + 1 else sh_quiet_ticks h in
    SegHeard (sh_last_frames h) quiet (if quiet_limit <=? quiet then false else sh_heard h).

(** ** The answers *)

Definition reac_segment_master_name (s : reac_segment_master) : list Z :=
  match s with
  | REAC_SEGMENT_US => str "us"
  | REAC_SEGMENT_FOREIGN => str "foreign"
  | REAC_SEGMENT_NONE => str "none"
  end.

Definition reac_pace_source_name (p : reac_pace_source) : list Z :=
  match p with
  | REAC_PACE_FOREIGN_MASTER => str "foreign-master"
  | REAC_PACE_PHC => str "phc"
  | REAC_PACE_GRAPH_REF => str "graph-ref"
  | REAC_PACE_BOX_SLOPE => str "box-slope"
  | REAC_PACE_FREE_RUN => str "free-run"
  end.

Definition reac_rival_kind_name (k : reac_rival_kind) : list Z :=
  match k with
  | REAC_RIVAL_DESK => str "desk"
  | REAC_RIVAL_BOX => str "box"
  | REAC_RIVAL_UNKNOWN => str "unknown"
  | REAC_RIVAL_PENDING => str "pending"
  | REAC_RIVAL_NONE => str "none"
  end.

Record reac_segment_answer := SegAnswer {
  sa_master_state : list Z; sa_master_mac : list Z; sa_pace_source : list Z; sa_conflict : list Z;
  sa_rival_kind : list Z; sa_refusal : list Z; sa_rate : list Z
}.

Definition answer_fill (state : reac_segment_master) (rival : reac_rival_kind) (refusal : list Z)
    (pace : reac_pace_source) (mac48 rate_hz : Z) : reac_segment_answer :=
  SegAnswer
    (bounded 8 (reac_segment_master_name state))
    (if negb (mac48 =? 0) then bounded 24 (mac_str (reac_mac48_unpack mac48)) else bounded 24 (str "none"))
    (bounded 16 (reac_pace_source_name pace))
    (bounded 2 (str "0"))
    (bounded 8 (reac_rival_kind_name rival))
    (bounded 24 refusal)
    (bounded 8 (dec_str (if 0 <? rate_hz then rate_hz else 0))).

Definition reac_segment_answer_slave_kind (heard : bool) (master_mac48 rate_hz : Z) (peer : reac_rival_kind)
    : reac_segment_answer :=
  answer_fill (if heard then REAC_SEGMENT_FOREIGN else REAC_SEGMENT_NONE)
    (if heard then peer else REAC_RIVAL_NONE) (reac_rival_refusal REAC_RIVAL_NONE)
    (if heard then REAC_PACE_FOREIGN_MASTER else REAC_PACE_FREE_RUN) master_mac48 rate_hz.

Definition reac_segment_answer_refused_kind (rival : reac_rival_kind) (rival_mac48 rate_hz : Z)
    : reac_segment_answer :=
  answer_fill REAC_SEGMENT_FOREIGN rival (reac_rival_refusal rival) REAC_PACE_FOREIGN_MASTER rival_mac48 rate_hz.

Definition reac_segment_answer_slave (heard : bool) (master_mac48 rate_hz wire_channels : Z) : reac_segment_answer :=
  let rival := if heard then reac_rival_kind_from_channels wire_channels else REAC_RIVAL_NONE in
  answer_fill (if heard then REAC_SEGMENT_FOREIGN else REAC_SEGMENT_NONE) rival (reac_rival_refusal REAC_RIVAL_NONE)
    (if heard then REAC_PACE_FOREIGN_MASTER else REAC_PACE_FREE_RUN) master_mac48 rate_hz.

Definition reac_segment_answer_refused (rival_channels rival_mac48 rate_hz : Z) : reac_segment_answer :=
  let rival := reac_rival_kind_from_channels rival_channels in
  answer_fill REAC_SEGMENT_FOREIGN rival (reac_rival_refusal rival) REAC_PACE_FOREIGN_MASTER rival_mac48 rate_hz.

(** ** The latch *)

Definition heard_run (frames0 limit : Z) (l : list Z) : reac_segment_heard :=
  foldl (λ h f, reac_segment_heard_step h f limit) (reac_segment_heard_init frames0) l.

(** The steps since the count last moved; [None] when it never has. *)
Definition since_step (s : Z * option Z) (f : Z) : Z * option Z :=
  (f, if f =? s.1 then Z.succ <$> s.2 else Some 0).
Definition since (frames0 : Z) (l : list Z) : option Z := (foldl since_step (frames0, None) l).2.

Record latch_ok (limit : Z) (h : reac_segment_heard) (s : Z * option Z) : Prop := {
  la_last : sh_last_frames h = s.1;
  la_quiet : 0 ≤ sh_quiet_ticks h ≤ limit;
  la_heard : match s.2 with
             | Some k => 0 ≤ k ∧ sh_heard h = (k <? limit) ∧ sh_quiet_ticks h = Z.min k limit
             | None => sh_heard h = false
             end
}.

Lemma latch_step limit h s f :
  0 < limit → latch_ok limit h s → latch_ok limit (reac_segment_heard_step h f limit) (since_step s f).
Proof.
  intros Hl [H1 H2 H3]. unfold reac_segment_heard_step, since_step. rewrite H1.
  destruct (Z.eqb_spec f s.1) as [->|Hne]; cbn [negb].
  - destruct (Z.ltb_spec (sh_quiet_ticks h) limit) as [Hq|Hq]; split; cbn; try done; try lia.
    + destruct (s.2) as [k|]; cbn; [|by rewrite H3; destruct (_ <=? _)].
      destruct H3 as (Hk & -> & Hkq). split_and!; [lia| |lia].
      destruct (Z.leb_spec limit (sh_quiet_ticks h + 1)), (Z.ltb_spec k limit), (Z.ltb_spec (Z.succ k) limit); lia || done.
    + destruct (s.2) as [k|]; cbn; [|by rewrite H3; destruct (_ <=? _)].
      destruct H3 as (Hk & -> & Hkq). split_and!; [lia| |lia].
      destruct (Z.leb_spec limit (sh_quiet_ticks h)), (Z.ltb_spec k limit), (Z.ltb_spec (Z.succ k) limit); lia || done.
  - split; cbn; [done|lia|]. split_and!; [lia| |lia]. symmetry. by apply Z.ltb_lt.
Qed.

(** A master is heard for exactly as long as fewer than [limit] steps have gone by
    without a new frame, whatever the count stood at when the segment opened. *)
Lemma heard_iff_recent frames0 limit l :
  0 < limit →
  sh_heard (heard_run frames0 limit l) = match since frames0 l with Some k => k <? limit | None => false end.
Proof.
  intros Hl. assert (latch_ok limit (heard_run frames0 limit l) (foldl since_step (frames0, None) l)) as [_ _ H].
  { unfold heard_run. induction l as [|f l IH] using rev_ind; [split; cbn; done || lia|].
    rewrite !foldl_app. by apply latch_step. }
  unfold since. destruct ((foldl since_step (frames0, None) l).2); [by destruct H as (_ & -> & _)|done].
Qed.

(** ** What is published *)

(** The text of every member is whole: nothing is cut, for any rate below ten million. *)
Lemma answers_whole state rival refusal_of pace mac48 rate_hz :
  rate_hz < 10000000 →
  let a := answer_fill state rival (reac_rival_refusal refusal_of) pace mac48 rate_hz in
  sa_master_state a = reac_segment_master_name state ∧ sa_rival_kind a = reac_rival_kind_name rival ∧
  sa_refusal a = reac_rival_refusal refusal_of ∧ sa_pace_source a = reac_pace_source_name pace ∧
  sa_master_mac a = (if mac48 =? 0 then str "none" else mac_str (reac_mac48_unpack mac48)) ∧
  sa_rate a = dec_str (Z.max 0 rate_hz).
Proof.
  intros Hr. unfold answer_fill. cbv zeta.
  cbn [sa_master_state sa_rival_kind sa_refusal sa_pace_source sa_master_mac sa_rate]. split_and!.
  - by destruct state.
  - by destruct rival.
  - by destruct refusal_of.
  - by destruct pace.
  - by destruct (mac48 =? 0).
  - replace (if 0 <? rate_hz then rate_hz else 0) with (Z.max 0 rate_hz) by (destruct (0 <? rate_hz) eqn:E; lia).
    apply bounded_id. assert (zlen (dec_str (Z.max 0 rate_hz)) ≤ Z.of_nat 7); [|lia].
    apply dec_str_len; [lia|]. change (10 ^ Z.of_nat 7) with 10000000. lia.
Qed.

(** The two doors agree where a width means a kind, and a segment that follows never
    publishes a refusal of the master it follows. *)
Lemma slave_doors_agree heard mac48 rate_hz channels :
  reac_segment_answer_slave heard mac48 rate_hz channels =
    reac_segment_answer_slave_kind heard mac48 rate_hz (reac_rival_kind_from_channels channels) ∧
  sa_refusal (reac_segment_answer_slave heard mac48 rate_hz channels) = str "none" ∧
  reac_segment_answer_refused channels mac48 rate_hz =
    reac_segment_answer_refused_kind (reac_rival_kind_from_channels channels) mac48 rate_hz.
Proof. by destruct heard. Qed.

(** A refused desk is published with no refusal at all. *)
Lemma refused_width_forty mac48 rate_hz :
  sa_rival_kind (reac_segment_answer_refused 40 mac48 rate_hz) = str "desk" ∧
  sa_refusal (reac_segment_answer_refused 40 mac48 rate_hz) = str "none".
Proof. done. Qed.
