(* ===== verification/Linkmon.v ===== *)
(** * Linkmon: the carrier of one interface, as edges

    Models [transport/src/reac_linkmon.c]: the carrier last observed on the watched
    interface, the state an edge was last reported for, the fold of link messages, and
    the drain with its resync after an overrun. Messages are given as in [IfScan], by
    their parsed fields. *)
From S2P Require Import Prelude EventRing KeyTable IfScan.
Local Open Scope Z_scope.

Inductive reac_link_edge := REAC_LINK_EDGE_NONE | REAC_LINK_EDGE_UP | REAC_LINK_EDGE_DOWN.

(** [carrier] and [acted] are 1, 0 or -1 for unknown. *)
Record reac_linkmon := Linkmon {
  lm_ifname : list Z; lm_open : bool; lm_carrier : Z; lm_acted : Z; lm_ups : Z; lm_downs : Z; lm_msgs : Z;
  lm_overruns : Z
}.

Definition reac_linkmon_init (ifname : option (list Z)) : reac_linkmon :=
  let name := match ifname with
              | Some n => if negb (zeqb n []) && (zlen n <? IFNAMSIZ) then n else []
              | None => []
              end in
  Linkmon name false (-1) (-1) 0 0 0 0.

Definition reac_linkmon_observe (m : reac_linkmon) (ifname : list Z) (carrier : Z) : reac_linkmon :=
  if zeqb (lm_ifname m) [] || negb (zeqb ifname (lm_ifname m)) then m
  else
    let msgs := u64 (lm_msgs m + 1) in
    Linkmon (lm_ifname m) (lm_open m)
      (if carrier <? 0 then lm_carrier m else if negb (carrier =? 0) then 1 else 0)
      (lm_acted m) (lm_ups m) (lm_downs m) msgs (lm_overruns m).

Definition acted_on (m : reac_linkmon) (acted ups downs : Z) : reac_linkmon :=
  Linkmon (lm_ifname m) (lm_open m) (lm_carrier m) acted (u64 ups) (u64 downs) (lm_msgs m) (lm_overruns m).

Definition reac_linkmon_take (m : reac_linkmon) : reac_linkmon * reac_link_edge :=
  if lm_carrier m <? 0 then (m, REAC_LINK_EDGE_NONE)
  else if lm_carrier m =? lm_acted m then (m, REAC_LINK_EDGE_NONE)
  else if lm_carrier m =? 1 then (acted_on m 1 (lm_ups m + 1) (lm_downs m), REAC_LINK_EDGE_UP)
  else if negb (lm_acted m =? 1) then (acted_on m 0 (lm_ups m) (lm_downs m), REAC_LINK_EDGE_NONE)
  else (acted_on m 0 (lm_ups m) (lm_downs m + 1), REAC_LINK_EDGE_DOWN).

(** The carrier a link message tells: a NIC that leaves tells none. *)
Definition linkmon_carrier_of (l : link_msg) : Z :=
  if lm_del l then -1 else if lm_lower_up l then 1 else 0.

(** A datagram; unlike the scan it is folded past the end of a dump. *)
Definition linkmon_msg (m : reac_linkmon) (x : nl_msg) : reac_linkmon :=
  match x with
  | NlLink l => if zeqb (lm_name l) [] then m else reac_linkmon_observe m (lm_name l) (linkmon_carrier_of l)
  | NlDone | NlOther => m
  end.
Definition is_done (x : nl_msg) : bool := match x with NlDone => true | _ => false end.
Definition linkmon_feed_ex (m : reac_linkmon) (l : list nl_msg) : reac_linkmon * bool :=
  (foldl linkmon_msg m l, existsb is_done l).
Definition reac_linkmon_feed (m : reac_linkmon) (l : list nl_msg) : reac_linkmon := (linkmon_feed_ex m l).1.

Fixpoint linkmon_resync_loop (m : reac_linkmon) (dump : list (list nl_msg)) : reac_linkmon * bool :=
  match dump with
  | [] => (m, false)
  | l :: dump => let '(m, done) := linkmon_feed_ex m l in if done then (m, true) else linkmon_resync_loop m dump
  end.
Definition reac_linkmon_resync (m : reac_linkmon) (dump : list (list nl_msg)) : reac_linkmon * bool :=
  if negb (lm_open m) then (m, false) else linkmon_resync_loop m (take 64 dump).

(** [opens] is whether the socket can be had, and [dump] what the kernel answers. *)
Definition reac_linkmon_open (ifname : option (list Z)) (opens : bool) (dump : list (list nl_msg))
    : reac_linkmon * Z :=
  let m := reac_linkmon_init ifname in
  if zeqb (lm_ifname m) [] || negb opens then (m, -1)
  else
    let m := Linkmon (lm_ifname m) true (lm_carrier m) (lm_acted m) (lm_ups m) (lm_downs m) (lm_msgs m) (lm_overruns m) in
    let '(m, _) := reac_linkmon_resync m dump in
    (Linkmon (lm_ifname m) true (lm_carrier m) (lm_carrier m) (lm_ups m) (lm_downs m) (lm_msgs m) (lm_overruns m), 0).

Definition linkmon_read (m : reac_linkmon) (r : nl_read) : reac_linkmon :=
  match r with
  | NlData l => reac_linkmon_feed m l
  | NlOverrun dump =>
      (reac_linkmon_resync (Linkmon (lm_ifname m) (lm_open m) (lm_carrier m) (lm_acted m) (lm_ups m) (lm_downs m)
                              (lm_msgs m) (u64 (lm_overruns m + 1))) dump).1
  end.
Definition reac_linkmon_drain (m : reac_linkmon) (reads : list nl_read) : reac_linkmon * reac_link_edge :=
  if negb (lm_open m) then (m, REAC_LINK_EDGE_NONE) else reac_linkmon_take (foldl linkmon_read m reads).

(** ** Edges *)

(** What is left alone by observing. *)
Record same_acted (m m' : reac_linkmon) : Prop := {
  sm_name : lm_ifname m' = lm_ifname m; sm_open : lm_open m' = lm_open m; sm_acted : lm_acted m' = lm_acted m;
  sm_ups : lm_ups m' = lm_ups m; sm_downs : lm_downs m' = lm_downs m;
  sm_carrier : -1 ≤ lm_carrier m ≤ 1 → -1 ≤ lm_carrier m' ≤ 1;
  sm_known : 0 ≤ lm_carrier m → 0 ≤ lm_carrier m'
}.

Lemma same_refl m : same_acted m m.
Proof. by split. Qed.
Lemma same_trans m1 m2 m3 : same_acted m1 m2 → same_acted m2 m3 → same_acted m1 m3.
Proof. intros [] []. split; congruence || auto. Qed.
#[local] Hint Resolve same_refl : core.

Lemma observe_same m name c : same_acted m (reac_linkmon_observe m name c).
Proof.
  unfold reac_linkmon_observe. destruct (_ || _); [done|].
  split; cbn; try done; intros; destruct (Z.ltb_spec c 0); destruct (c =? 0); cbn; lia.
Qed.

Lemma feed_same m l : same_acted m (reac_linkmon_feed m l).
Proof.
  unfold reac_linkmon_feed, linkmon_feed_ex. cbn [fst]. revert m. induction l as [|x l IH]; intros m; [done|].
  simpl. eapply same_trans; [|apply IH]. unfold linkmon_msg. destruct x as [k| |]; try done.
  destruct (zeqb _ _); [done|apply observe_same].
Qed.

Lemma resync_same m dump : same_acted m (reac_linkmon_resync m dump).1.
Proof.
  unfold reac_linkmon_resync. destruct (negb _); [done|]. generalize (take 64 dump). intros l. revert m.
  induction l as [|d l IH]; intros m; [done|]. cbn [linkmon_resync_loop]. pose proof (feed_same m d) as F.
  unfold reac_linkmon_feed in F. destruct (linkmon_feed_ex m d) as [m1 []]; [done|]. eapply same_trans; [exact F|apply IH].
Qed.

Lemma reads_same m reads : same_acted m (foldl linkmon_read m reads).
Proof.
  revert m. induction reads as [|r reads IH]; intros m; [done|]. simpl. eapply same_trans; [|apply IH].
  destruct r as [l|dump]; [apply feed_same|]. cbn. eapply same_trans; [|apply resync_same]. by split.
Qed.

(** The edges reported by a run of drains, in order. *)
Fixpoint drains (m : reac_linkmon) (l : list (list nl_read)) : reac_linkmon * list reac_link_edge :=
  match l with
  | [] => (m, [])
  | reads :: l => let '(m, e) := reac_linkmon_drain m reads in let '(m, es) := drains m l in (m, e :: es)
  end.

(** Between two edges the state is the one the last told: up and down alternate, from
    [up] on. *)
Inductive alternating : bool → list reac_link_edge → Prop :=
  | alt_nil up : alternating up []
  | alt_none up es : alternating up es → alternating up (REAC_LINK_EDGE_NONE :: es)
  | alt_up es : alternating true es → alternating false (REAC_LINK_EDGE_UP :: es)
  | alt_down es : alternating false es → alternating true (REAC_LINK_EDGE_DOWN :: es).

Lemma drain_edge m reads :
  -1 ≤ lm_carrier m ≤ 1 →
  let '(m', e) := reac_linkmon_drain m reads in
  lm_open m' = lm_open m ∧ -1 ≤ lm_carrier m' ≤ 1 ∧
  match e with
  | REAC_LINK_EDGE_NONE => (lm_acted m' =? 1) = (lm_acted m =? 1)
  | REAC_LINK_EDGE_UP => lm_acted m ≠ 1 ∧ lm_acted m' = 1
  | REAC_LINK_EDGE_DOWN => lm_acted m = 1 ∧ lm_acted m' = 0
  end ∧
  (lm_open m = true → 0 ≤ lm_carrier m' → lm_acted m' = lm_carrier m').
Proof.
  intros Hc. unfold reac_linkmon_drain. destruct (lm_open m) eqn:Eo; cbn [negb]; [|split_and!; done || lia].
  destruct (reads_same m reads) as [S1 S2 S3 S4 S5 S6 S7]. specialize (S6 Hc).
  set (m1 := foldl linkmon_read m reads) in *. rewrite Eo in S2. unfold reac_linkmon_take.
  destruct (Z.ltb_spec (lm_carrier m1) 0); [split_and!; try done; try lia; by rewrite S3|].
  destruct (Z.eqb_spec (lm_carrier m1) (lm_acted m1)) as [E|Hne]; [split_and!; try done; try lia; by rewrite S3|].
  destruct (Z.eqb_spec (lm_carrier m1) 1) as [E1|].
  - cbn. rewrite S3 in Hne. split_and!; try done; lia.
  - rewrite S3 in *. destruct (Z.eqb_spec (lm_acted m) 1) as [Ea|Ea]; cbn; split_and!; try done; try lia.
Qed.

(** From an open watch on, whatever the messages and however many overruns: up and down
    alternate, starting from the carrier at the opening, which is no edge; and after a
    drain that knows the carrier, what was told is what the carrier is. *)
Lemma edges_alternate ifname dump l :
  let '(m, r) := reac_linkmon_open ifname true dump in
  r = 0 → alternating (lm_carrier m =? 1) (drains m l).2.
Proof.
  unfold reac_linkmon_open. destruct (_ || _) eqn:Eg; [done|]. set (m0 := Linkmon _ true _ _ _ _ _ _).
  pose proof (resync_same m0 dump) as [_ _ _ _ _ Hc _]. destruct (reac_linkmon_resync m0 dump) as [m1 d]. cbn [fst] in Hc.
  specialize (Hc ltac:(cbn; lia)). intros _. cbn [lm_carrier]. set (m := Linkmon _ true _ _ _ _ _ _).
  assert (Ha : (lm_carrier m1 =? 1) = (lm_acted m =? 1)) by done. rewrite Ha.
  assert (Hm : -1 ≤ lm_carrier m ≤ 1) by done. clearbody m. clear -Hm. revert m Hm.
  induction l as [|reads l IH]; intros m Hm; cbn [drains]; [constructor|].
  pose proof (drain_edge m reads Hm) as H. destruct (reac_linkmon_drain m reads) as [m' e].
  destruct H as (_ & Hc & He & _). specialize (IH m' Hc). destruct (drains m' l) as [m2 es]. cbn [snd] in *.
  destruct e.
  - constructor. by rewrite <- He.
  - destruct He as [Hn Ha]. rewrite Ha in IH. destruct (Z.eqb_spec (lm_acted m) 1); [done|]. by constructor.
  - destruct He as [Hn Ha]. rewrite Ha in IH. rewrite Hn. by constructor.
Qed.

(** A link that went and came back in messages the kernel dropped is asked for again,
    and the answer is the state already told: no edge. *)
Definition up_msg (name : list Z) : nl_msg := NlLink (LinkMsg false name 2 true false true false).
Definition down_msg (name : list Z) : nl_msg := NlLink (LinkMsg false name 2 true false false false).

Lemma bounce_in_overrun_unseen name :
  name ≠ [] → zlen name < IFNAMSIZ →
  let '(m, _) := reac_linkmon_open (Some name) true [[up_msg name; NlDone]] in
  (reac_linkmon_drain m [NlOverrun [[up_msg name; NlDone]]]).2 = REAC_LINK_EDGE_NONE ∧
  (reac_linkmon_drain m [NlData [down_msg name]]).2 = REAC_LINK_EDGE_DOWN.
Proof.
  intros Hn Hz. apply zeqb_neq in Hn. unfold reac_linkmon_open, reac_linkmon_init.
  rewrite Hn, (proj2 (Z.ltb_lt (zlen name) IFNAMSIZ)) by done.
  repeat progress (unfold reac_linkmon_observe, reac_linkmon_feed, linkmon_feed_ex; cbn; rewrite ?Hn, ?zeqb_refl).
  by split.
Qed.
