(* ===== verification/Ifname.v ===== *)
(** * Ifname: a segment named after where its adapter is plugged in

    Models [transport/src/reac_ifname.c]: the bus address in a resolved sysfs path,
    the rank of an address among its peers, and the name made of the two. The path
    [realpath] resolves to is an argument; strings are lists of characters. *)
From Stdlib Require String.
From S2P Require Import Prelude BoxModel Disco DiscoPublish Conf.
Import String.StringSyntax.
Local Open Scope Z_scope.

Inductive reac_ifname_bus := REAC_IFNAME_BUS_OTHER | REAC_IFNAME_BUS_PCI | REAC_IFNAME_BUS_USB.
#[export] Instance ifname_bus_eq_dec : EqDecision reac_ifname_bus.
Proof. solve_decision. Defined.

Definition REAC_IFNAME_ADDR_MAX : Z := 48.
Definition PATH_MAX : Z := 4096.

Definition isxdigit (c : Z) : bool :=
  isdigit c || ((65 <=? c) && (c <=? 70)) || ((97 <=? c) && (c <=? 102)).

(** [while (isxdigit(s[i])) i++]: how many, and what follows. *)
Fixpoint xdigits (s : list Z) : Z * list Z :=
  match s with
  | c :: r => if isxdigit c then let '(n, r) := xdigits r in (n + 1, r) else (0, s)
  | [] => (0, [])
  end.

Definition is_pci_bdf (s : list Z) : bool :=
  let '(n, s) := xdigits s in
  if negb (n =? 4) || negb (begins s [58]) then false
  else
    let '(n, s) := xdigits (drop 1 s) in
    if negb (n =? 2) || negb (begins s [58]) then false
    else
      let '(n, s) := xdigits (drop 1 s) in
      if negb (n =? 2) || negb (begins s [46]) then false
      else
        let '(n, s) := xdigits (drop 1 s) in (1 <=? n) && zeqb s [].

Definition is_usbN (s : list Z) : bool :=
  if negb (begins s (str "usb")) || zeqb (drop 3 s) [] then false else forallb isdigit (drop 3 s).

(** [strtok_r] on slashes: the components that are not empty. *)
Fixpoint components (path : list Z) : list (list Z) :=
  match path with
  | [] => [[]]
  | c :: r =>
      let l := components r in
      if c =? 47 then [] :: l else match l with x :: l => (c :: x) :: l | [] => [[c]] end
  end.
Definition tokens (path : list Z) : list (list Z) := filter (λ x, x ≠ []) (components path).

(** The walk: a USB hub's child wins at once, else the last PCI address seen. *)
Fixpoint bus_walk (comps : list (list Z)) (pci : list Z) : option (list Z) * list Z :=
  match comps with
  | [] => (None, pci)
  | c :: comps =>
      if is_usbN c then match comps with next :: _ => (Some next, pci) | [] => (None, pci) end
      else bus_walk comps (if is_pci_bdf c then bounded REAC_IFNAME_ADDR_MAX c else pci)
  end.

(** [resolved] is what [realpath] answers, [None] when it fails; the result's -1 is
    [None]. *)
Definition reac_ifname_bus_addr (root ifname : list Z) (resolved : list Z → option (list Z)) (addr_cap : Z)
    : option (reac_ifname_bus * list Z) :=
  if zeqb ifname [] || (addr_cap =? 0) then None
  else
    let root := if zeqb root [] then str "/sys/class/net" else root in
    let path := root ++ str "/" ++ ifname ++ str "/device" in
    if PATH_MAX <=? zlen path then None
    else
      match resolved path with
      | None => None
      | Some r =>
          match bus_walk (tokens (bounded PATH_MAX r)) [] with
          | (Some next, _) => Some (REAC_IFNAME_BUS_USB, bounded addr_cap next)
          | (None, pci) =>
              if negb (zeqb pci []) then Some (REAC_IFNAME_BUS_PCI, bounded addr_cap pci)
              else Some (REAC_IFNAME_BUS_OTHER, [])
          end
      end.

(** [strcmp(a, b) < 0]. *)
Fixpoint str_lt (a b : list Z) : bool :=
  match a, b with
  | _, [] => false
  | [], _ :: _ => true
  | x :: a, y :: b => if x =? y then str_lt a b else x <? y
  end.

Definition reac_ifname_rank (addrs : list (option (list Z))) (self_addr : list Z) : Z :=
  if (zlen addrs =? 0) || zeqb self_addr [] then -1
  else if negb (existsb (λ a, match a with Some a => zeqb a self_addr | None => false end) addrs) then -1
  else 1 + zlen (filter (λ a, match a with Some a => str_lt a self_addr | None => false end = true) addrs).

Definition reac_ifname_derive (kind : reac_ifname_bus) (rank : Z) (ifname : list Z) (outlen : Z) : option (list Z) :=
  if outlen =? 0 then None
  else
    let prefix := match kind with
                  | REAC_IFNAME_BUS_USB => Some (str "usb")
                  | REAC_IFNAME_BUS_PCI => Some (str "pci")
                  | REAC_IFNAME_BUS_OTHER => None
                  end in
    let s := match prefix with
             | Some p => if 0 <? rank then p ++ dec_str rank else ifname
             | None => ifname
             end in
    if outlen <=? zlen s then None else Some s.

(** ** The order of the addresses *)

Lemma str_lt_irrefl a : str_lt a a = false.
Proof. induction a as [|x a IH]; [done|]. simpl. by rewrite Z.eqb_refl. Qed.

Lemma str_lt_trans a b c : str_lt a b = true → str_lt b c = true → str_lt a c = true.
Proof.
  revert b c. induction a as [|x a IH]; intros [|y b] [|z c]; simpl; try done.
  destruct (Z.eqb_spec x y), (Z.eqb_spec y z), (Z.eqb_spec x z); subst; try lia; try apply IH; try done;
    rewrite ?Z.ltb_lt; intros; lia.
Qed.

Lemma str_lt_total a b : a ≠ b → str_lt a b = true ∨ str_lt b a = true.
Proof.
  revert b. induction a as [|x a IH]; intros [|y b] Hne; simpl; try by auto.
  rewrite (Z.eqb_sym y x). destruct (Z.eqb_spec x y) as [->|]; [apply IH; congruence|]. rewrite !Z.ltb_lt. lia.
Qed.

(** How many addresses lie below one. *)
Definition below (addrs : list (option (list Z))) (a : list Z) : Z :=
  zlen (filter (λ x, match x with Some x => str_lt x a | None => false end = true) addrs).

Lemma below_mono addrs a b : str_lt a b = true → below addrs a ≤ below addrs b.
Proof.
  intros Hab. unfold below, zlen. induction addrs as [|[x|] l IH]; [done| |by rewrite !filter_cons_False].
  rewrite !filter_cons. destruct (decide (str_lt x a = true)) as [H|H], (decide (str_lt x b = true)) as [H'|H']; simpl in *; try lia.
  destruct H'. by apply (str_lt_trans x a b).
Qed.

Lemma below_strict addrs a b : str_lt a b = true → Some a ∈ addrs → below addrs a < below addrs b.
Proof.
  intros Hab. induction addrs as [|x l IH]; [by intros ?%not_elem_of_nil|]. intros [<-|Hin]%elem_of_cons.
  - unfold below. rewrite filter_cons_False by (by rewrite str_lt_irrefl). rewrite filter_cons_True by done.
    pose proof (below_mono l a b Hab) as H. unfold below, zlen in *. simpl length. lia.
  - specialize (IH Hin). unfold below in *. rewrite !filter_cons. unfold zlen in *.
    destruct x as [x|]; repeat case_decide; simpl length; try lia. destruct H0. by apply (str_lt_trans x a b).
Qed.

Lemma rank_eq addrs a : a ≠ [] → Some a ∈ addrs → reac_ifname_rank addrs a = 1 + below addrs a.
Proof.
  intros Ha Hin. unfold reac_ifname_rank. apply zeqb_neq in Ha. rewrite Ha, orb_false_r.
  destruct (Z.eqb_spec (zlen addrs) 0) as [H0|_].
  { assert (addrs = []) as -> by (apply nil_length_inv; unfold zlen in H0; lia). by apply not_elem_of_nil in Hin. }
  replace (existsb _ addrs) with true; [done|]. symmetry. apply existsb_exists. exists (Some a).
  split; [by apply list_elem_of_In|apply zeqb_refl].
Qed.

(** Ranks count from one, follow the order of the addresses and tell different
    addresses apart, whatever order the adapters were found in. *)
Lemma ranks_order addrs a b :
  a ≠ [] → b ≠ [] → Some a ∈ addrs → Some b ∈ addrs →
  1 ≤ reac_ifname_rank addrs a ≤ zlen addrs ∧
  (reac_ifname_rank addrs a < reac_ifname_rank addrs b ↔ str_lt a b = true) ∧
  (reac_ifname_rank addrs a = reac_ifname_rank addrs b ↔ a = b).
Proof.
  intros Ha Hb Ia Ib. rewrite !rank_eq by done.
  assert (0 ≤ below addrs a < zlen addrs) as Hr.
  { split; [unfold below, zlen; lia|]. clear -Ia. induction addrs as [|x l IH]; [by apply not_elem_of_nil in Ia|].
    unfold below, zlen in *. apply elem_of_cons in Ia as [<-|Ia].
    - rewrite filter_cons_False by (by rewrite str_lt_irrefl).
      pose proof (length_filter (λ x, match x with Some x => str_lt x a | None => false end = true) l). simpl length. lia.
    - specialize (IH Ia). rewrite filter_cons. case_decide; simpl length; lia. }
  split_and!; [lia|lia|..].
  - split; [|intros H; pose proof (below_strict addrs a b H Ia); lia]. intros Hlt.
    destruct (decide (a = b)) as [->|Hne]; [lia|]. destruct (str_lt_total a b Hne) as [|H]; [done|].
    pose proof (below_strict addrs b a H Ib). lia.
  - split; [|by intros ->]. intros E. destruct (decide (a = b)) as [|Hne]; [done|].
    destruct (str_lt_total a b Hne) as [H|H]; [pose proof (below_strict addrs a b H Ia)|pose proof (below_strict addrs b a H Ib)]; lia.
Qed.

Lemma rank_perm addrs addrs' a : Permutation addrs addrs' → reac_ifname_rank addrs a = reac_ifname_rank addrs' a.
Proof.
  intros Hp. unfold reac_ifname_rank. unfold zlen. rewrite (Permutation_length Hp).
  assert (∀ f, existsb f addrs = existsb f addrs') as ->.
  { intros f. apply eq_true_iff_eq. rewrite !existsb_exists. split; intros (x & Hx & ?); exists x; (split; [|done]);
      [by eapply Permutation_in|by eapply Permutation_in; [symmetry|]]. }
  destruct (_ || _); [done|]. destruct (negb _); [done|]. do 2 f_equal. apply Permutation_length. by rewrite Hp.
Qed.

(** ** Two adapters behind one hub *)

(** The address is the component inside the root hub, so adapters on two ports of the
    same external hub have the same address, the same rank and the same name. *)
Lemma hub_shares_name :
  let sys p := str "/sys/devices/pci0000:80/0000:80:14.0/usb4/4-2/" ++ p in
  let a := reac_ifname_bus_addr [] (str "enx1") (λ _, Some (sys (str "4-2.1/4-2.1:1.0"))) 48 in
  let b := reac_ifname_bus_addr [] (str "enx2") (λ _, Some (sys (str "4-2.2/4-2.2:1.0"))) 48 in
  a = Some (REAC_IFNAME_BUS_USB, str "4-2") ∧ a = b ∧
  reac_ifname_derive REAC_IFNAME_BUS_USB (reac_ifname_rank [snd <$> a; snd <$> b] (str "4-2")) (str "enx1") 16
    = Some (str "usb1") ∧
  reac_ifname_derive REAC_IFNAME_BUS_USB (reac_ifname_rank [snd <$> a; snd <$> b] (str "4-2")) (str "enx2") 16
    = Some (str "usb1").
Proof. by vm_compute. Qed.

(** A card behind a bridge is known by its own address. *)
Lemma bridge_is_skipped :
  reac_ifname_bus_addr [] (str "enp131s0")
    (λ _, Some (str "/sys/devices/pci0000:80/0000:80:1c.0/0000:83:00.0")) 48 =
  Some (REAC_IFNAME_BUS_PCI, str "0000:83:00.0").
Proof. by vm_compute. Qed.
