(* ===== verification/Tx.v ===== *)
(** * Tx: frames sent without a handshake, and the checksum of the wire

    Models [transport/src/reac_tx.c]: the frame a plain transmitter puts on the wire
    with its free-running counter, and the Ethernet CRC-32 a capture's trailer is
    verified with. The socket's answer to each send is an argument. *)
From S2P Require Import Prelude Wire Sample Codec.
Local Open Scope Z_scope.

Definition crc_bit (crc : Z) : Z :=
  Z.lxor (Z.shiftr crc 1) (Z.land 0xEDB88320 (u32 (- Z.land crc 1))).
Definition crc_byte (crc b : Z) : Z := Nat.iter 8 crc_bit (Z.lxor crc b).
Definition reac_eth_crc32 (buf : list Z) : Z := Z.lxor (foldl crc_byte 0xFFFFFFFF buf) 0xFFFFFFFF.

Record reac_tx := Tx { tx_src : list Z; tx_counter : Z }.
(** The address comes from [reac_mac_default_src]. *)
Definition reac_tx_open (src : list Z) : reac_tx := Tx src 0.

(** The frame handed to the socket, and [sendto]'s answer. *)
Definition reac_tx_emit (tx : reac_tx) (planar : planes) (nch ns sent : Z) : reac_tx * list Z * Z :=
  (Tx (tx_src tx) (u16 (tx_counter tx + 1)),
   reac_downstream_build planar nch ns (tx_counter tx) (tx_src tx), sent).

(** ** The counter runs on *)

Fixpoint emits_all (tx : reac_tx) (l : list (planes * Z * Z * Z)) : list (list Z) :=
  match l with
  | [] => []
  | (planar, nch, ns, sent) :: l =>
      let '(tx, frame, _) := reac_tx_emit tx planar nch ns sent in frame :: emits_all tx l
  end.

(** Every frame is a valid one from our address whose counter is the one before it plus
    one, the wrap included, and a send that fails still takes its number. *)
Lemma counter_free_running src l i frame :
  zlen src = 6 → emits_all (reac_tx_open src) l !! i = Some frame →
  reac_frame_inspect frame REAC_FRAME_BYTES = Some (u16 (Z.of_nat i)) ∧ slice frame 6 6 = src ∧
  slice frame 0 6 = fill 6 0xff.
Proof.
  intros Hs. unfold reac_tx_open.
  enough (∀ c, emits_all (Tx src c) l !! i = Some frame →
    reac_frame_inspect frame REAC_FRAME_BYTES = Some (u16 (c + Z.of_nat i)) ∧ slice frame 6 6 = src ∧
    slice frame 0 6 = fill 6 0xff) as H by apply (H 0).
  revert i. induction l as [|[[[planar nch] ns] sent] l IH]; intros [|i] c H; try done; simpl in H.
  - injection H as <-. destruct (downstream_header planar nch ns c src Hs) as (Hi & Hd & Hss & _).
    rewrite Z.add_0_r. by split_and!.
  - apply IH in H as (-> & ? & ?). split_and!; [|done..]. f_equal. unfold u16. lia.
Qed.

(** ** The checksum *)

Lemma crc_bit_linear a b : crc_bit (Z.lxor a b) = Z.lxor (crc_bit a) (crc_bit b).
Proof.
  assert (∀ c, Z.land c 1 = 0 ∨ Z.land c 1 = 1) as Hb by (intros c; rewrite land_1; lia).
  unfold crc_bit. rewrite Z.shiftr_lxor.
  assert (Z.land (Z.lxor a b) 1 = Z.lxor (Z.land a 1) (Z.land b 1)) as ->.
  { apply Z.bits_inj'. intros n Hn. rewrite Z.land_spec, !Z.lxor_spec, !Z.land_spec.
    destruct (Z.testbit a n), (Z.testbit b n), (Z.testbit 1 n); done. }
  generalize (Z.shiftr a 1) (Z.shiftr b 1). intros x y.
  assert (Z.land 0xEDB88320 (u32 (- 0)) = 0) as E0 by done.
  generalize dependent (Z.land 0xEDB88320). intros mask E0.
  destruct (Hb a) as [-> | ->], (Hb b) as [-> | ->];
    change (Z.lxor 0 0) with 0; change (Z.lxor 1 1) with 0; change (Z.lxor 0 1) with 1; change (Z.lxor 1 0) with 1;
    rewrite ?E0; apply Z.bits_inj'; intros n Hn; rewrite !Z.lxor_spec, ?Z.bits_0;
    destruct (Z.testbit x n), (Z.testbit y n), (Z.testbit (mask (u32 (- (1)))) n); done.
Qed.

Lemma crc_iter_linear n a b : Nat.iter n crc_bit (Z.lxor a b) = Z.lxor (Nat.iter n crc_bit a) (Nat.iter n crc_bit b).
Proof. induction n as [|n IH]; [done|]. simpl. by rewrite IH, crc_bit_linear. Qed.

Lemma crc_iter_shift n x : Nat.iter n crc_bit (Z.shiftl x (Z.of_nat n)) = x.
Proof.
  revert x. induction n as [|n IH]; intros x; [apply Z.shiftl_0_r|]. rewrite Nat.iter_succ_r.
  assert (crc_bit (Z.shiftl x (Z.of_nat (S n))) = Z.shiftl x (Z.of_nat n)) as ->; [|apply IH].
  unfold crc_bit. rewrite land_1. replace (Z.of_nat (S n)) with (Z.of_nat n + 1) by lia.
  rewrite <- Z.shiftl_shiftl, Z.shiftr_shiftl_l by lia. cbn [Z.sub Z.opp Z.add Z.pos_sub Pos.pred_double].
  rewrite Z.shiftl_0_r, Z.shiftl_mul_pow2 by lia. rewrite Z.shiftl_mul_pow2 by lia.
  replace (x * 2 ^ Z.of_nat n * 2 ^ 1) with (x * 2 ^ Z.of_nat n * 2) by lia. rewrite Z_mod_mult. cbn. apply Z.lxor_0_r.
Qed.

(** A byte folded into a sum whose high part is apart. *)
Lemma crc_byte_split x k b : crc_byte (Z.lxor (Z.shiftl x 8) k) b = Z.lxor x (crc_byte k b).
Proof.
  unfold crc_byte. rewrite Z.lxor_assoc, crc_iter_linear. f_equal. apply (crc_iter_shift 8).
Qed.

Lemma high_low x : Z.lxor (Z.shiftl (Z.shiftr x 8) 8) (Z.land x 0xff) = x.
Proof.
  change 0xff with (Z.ones 8). apply Z.bits_inj'. intros n Hn. rewrite Z.lxor_spec, Z.land_spec.
  destruct (decide (n < 8)).
  - rewrite Z.shiftl_spec_low, Z.ones_spec_low by lia. cbn. apply andb_true_r.
  - rewrite Z.shiftl_spec, Z.shiftr_spec, Z.ones_spec_high by lia. rewrite andb_false_r, xorb_false_r.
    f_equal. lia.
Qed.

(** The byte that complements the low one of [x] leaves the rest of it and a constant. *)
Lemma crc_byte_complement x k :
  crc_byte (Z.lxor x k) (Z.lxor (Z.land x 0xff) 0xff) = Z.lxor (Z.shiftr x 8) (crc_byte k 0xff).
Proof.
  rewrite <- (high_low x) at 1. rewrite Z.lxor_assoc, crc_byte_split. f_equal. unfold crc_byte. f_equal.
  rewrite (Z.lxor_comm (Z.land x 0xff) k), Z.lxor_assoc. f_equal.
  by rewrite <- Z.lxor_assoc, Z.lxor_nilpotent.
Qed.

(** The four bytes of the checksum, low one first, as they follow a frame. *)
Definition fcs_bytes (crc : Z) : list Z :=
  [Z.land crc 0xff; Z.land (Z.shiftr crc 8) 0xff; Z.land (Z.shiftr crc 16) 0xff; Z.land (Z.shiftr crc 24) 0xff].

Lemma lxor_range n a b : 0 ≤ n → 0 ≤ a < 2 ^ n → 0 ≤ b < 2 ^ n → 0 ≤ Z.lxor a b < 2 ^ n.
Proof.
  intros Hn Ha Hb. split; [apply Z.lxor_nonneg; lia|].
  assert (Z.lxor a b = Z.lxor a b mod 2 ^ n) as ->; [|apply Z.mod_pos_bound; lia].
  apply Z.bits_inj'. intros k Hk. destruct (decide (k < n)); [by rewrite Z.mod_pow2_bits_low by lia|].
  rewrite Z.mod_pow2_bits_high by lia. rewrite Z.lxor_spec.
  rewrite <- (Z.mod_small a (2 ^ n)), <- (Z.mod_small b (2 ^ n)) by done.
  by rewrite !Z.mod_pow2_bits_high by lia.
Qed.

Lemma crc_bit_range x : 0 ≤ x < 2 ^ 32 → 0 ≤ crc_bit x < 2 ^ 32.
Proof.
  intros Hx. unfold crc_bit. apply lxor_range; [lia|rewrite Z.shiftr_div_pow2 by lia; lia|].
  assert (Z.land x 1 = 0 ∨ Z.land x 1 = 1) as [-> | ->] by (rewrite land_1; lia); by vm_compute.
Qed.

Lemma crc_state_range buf : bytes buf → 0 ≤ foldl crc_byte 0xFFFFFFFF buf < 2 ^ 32.
Proof.
  assert (0 ≤ 0xFFFFFFFF < 2 ^ 32) as H0 by lia. revert H0. generalize 0xFFFFFFFF. intros c Hc Hb. revert c Hc.
  induction Hb as [|b buf Hb _ IH]; intros c Hc; [done|]. simpl. apply IH. unfold crc_byte.
  assert (∀ n x, 0 ≤ x < 2 ^ 32 → 0 ≤ Nat.iter n crc_bit x < 2 ^ 32) as Hi.
  { intros n x Hx. induction n as [|n IHn]; [done|]. by apply crc_bit_range. }
  apply Hi, lxor_range; [lia|done|]. unfold is_byte in Hb. lia.
Qed.

(** A frame with its checksum behind it, whole, gives the residue of the standard,
    whatever the frame. *)
Lemma fcs_residue buf : bytes buf → reac_eth_crc32 (buf ++ fcs_bytes (reac_eth_crc32 buf)) = 0x2144DF1C.
Proof.
  intros Hb. pose proof (crc_state_range buf Hb) as Hr. unfold reac_eth_crc32 at 1. rewrite foldl_app.
  unfold reac_eth_crc32. set (c := foldl crc_byte 0xFFFFFFFF buf) in *. unfold fcs_bytes. cbn [foldl].
  rewrite !Z.shiftr_lxor.
  assert (∀ x m, Z.land (Z.lxor x m) 0xff = Z.lxor (Z.land x 0xff) (Z.land m 0xff)) as Hd.
  { intros x m. apply Z.bits_inj'. intros n Hn. rewrite Z.land_spec, !Z.lxor_spec, !Z.land_spec.
    destruct (Z.testbit x n), (Z.testbit m n), (Z.testbit 0xff n); done. }
  rewrite !Hd. change (Z.land 0xFFFFFFFF 0xff) with 0xff. change (Z.land (Z.shiftr 0xFFFFFFFF 8) 0xff) with 0xff.
  change (Z.land (Z.shiftr 0xFFFFFFFF 16) 0xff) with 0xff. change (Z.land (Z.shiftr 0xFFFFFFFF 24) 0xff) with 0xff.
  rewrite <- (Z.lxor_0_r c) at 1. rewrite crc_byte_complement.
  rewrite crc_byte_complement. rewrite Z.shiftr_shiftr by lia. cbn [Z.add Pos.add].
  rewrite crc_byte_complement. rewrite Z.shiftr_shiftr by lia. cbn [Z.add Pos.add].
  rewrite crc_byte_complement. rewrite Z.shiftr_shiftr by lia. cbn [Z.add Pos.add].
  rewrite (Z.shiftr_div_pow2 c) by lia. rewrite Z.div_small by lia. by vm_compute.
Qed.

Example check_value : reac_eth_crc32 [49; 50; 51; 52; 53; 54; 55; 56; 57] = 0xCBF43926.
Proof. by vm_compute. Qed.
