(* ===== verification/Transcript.v ===== *)
(** * Transcript: roles, knobs, and the sentences the operator reads

    Models [include/reac/reac_role.h] and [include/reac/reac_envflag.h], the name
    tables and the reference sentence of [src/reac_clock.c]
    ([reac_clock_describe*]), the names and mixer profiles of [src/reac_master.c],
    and from [transport/src/reac_pacer.c] what the drain of the event log prints
    about a transition, about a clock reference and about a master that stays in
    PROBING. A C string is the list of its characters; the environment and the
    reading of a carrier are arguments. *)
From Stdlib Require String.
From S2P Require Import Prelude Identity BoxModel Disco Clock MasterFsm Master PacerClock PacerState.
From Stdlib Require Import SpecFloat.
Import String.StringSyntax.
Local Open Scope Z_scope.

(** ** The role on the wire, and what the operator asked for *)

Definition reac_role_name (r : reac_role) : list Z :=
  match r with REAC_ROLE_SLAVE => str "slave" | REAC_ROLE_MASTER => str "master" end.

Definition reac_role_parse (s : option (list Z)) : option reac_role :=
  match s with
  | None => None
  | Some s => if zeqb s (str "master") then Some REAC_ROLE_MASTER
              else if zeqb s (str "slave") then Some REAC_ROLE_SLAVE else None
  end.

Inductive reac_role_intent :=
| REAC_ROLE_INTENT_AUTO | REAC_ROLE_INTENT_MASTER | REAC_ROLE_INTENT_SLAVE | REAC_ROLE_INTENT_TAP
| REAC_ROLE_INTENT_BOX.
#[export] Instance role_intent_eq_dec : EqDecision reac_role_intent.
Proof. solve_decision. Defined.

Definition reac_role_intent_explicit_only (i : reac_role_intent) : bool :=
  match i with REAC_ROLE_INTENT_TAP | REAC_ROLE_INTENT_BOX => true | _ => false end.
Definition reac_role_intent_transmits (i : reac_role_intent) : bool :=
  match i with REAC_ROLE_INTENT_TAP => false | _ => true end.

Definition reac_role_intent_parse (s : option (list Z)) : option reac_role_intent :=
  match s with
  | None => None
  | Some s =>
      if zeqb s (str "auto") then Some REAC_ROLE_INTENT_AUTO
      else if zeqb s (str "master") then Some REAC_ROLE_INTENT_MASTER
      else if zeqb s (str "slave") then Some REAC_ROLE_INTENT_SLAVE
      else if zeqb s (str "tap") then Some REAC_ROLE_INTENT_TAP
      else if zeqb s (str "box") then Some REAC_ROLE_INTENT_BOX else None
  end.

Definition reac_role_intent_name (i : reac_role_intent) : list Z :=
  match i with
  | REAC_ROLE_INTENT_MASTER => str "master"
  | REAC_ROLE_INTENT_SLAVE => str "slave"
  | REAC_ROLE_INTENT_TAP => str "tap"
  | REAC_ROLE_INTENT_BOX => str "box"
  | REAC_ROLE_INTENT_AUTO => str "auto"
  end.

Definition reac_role_from_intent (i : reac_role_intent) : reac_role :=
  match i with
  | REAC_ROLE_INTENT_SLAVE | REAC_ROLE_INTENT_BOX => REAC_ROLE_SLAVE
  | _ => REAC_ROLE_MASTER
  end.

(** [true] is the 0 return. *)
Definition reac_role_validate (r : reac_role) (have_tx : bool) : bool :=
  match r with REAC_ROLE_SLAVE => have_tx | REAC_ROLE_MASTER => true end.

(** ** Boolean knobs *)

Definition to_lower (c : Z) : Z := if (65 <=? c) && (c <=? 90) then c + 32 else c.
(** [strcasecmp(a, b) == 0] in the C locale. *)
Definition strcaseeq (a b : list Z) : bool := zeqb (to_lower <$> a) (to_lower <$> b).
Definition any_word (v : list Z) (words : list (list Z)) : bool := existsb (strcaseeq v) words.

Definition reac_envflag_parse (v : option (list Z)) : option bool :=
  match v with
  | None | Some [] => None
  | Some v =>
      if any_word v [str "0"; str "n"; str "no"; str "f"; str "false"; str "off"] then Some false
      else if any_word v [str "1"; str "y"; str "yes"; str "t"; str "true"; str "on"] then Some true
      else None
  end.

Definition reac_envflag (getenv : list Z → option (list Z)) (name : list Z) (dflt : bool) : bool :=
  default dflt (reac_envflag_parse (getenv name)).

(** ** Mixer profiles *)

Record reac_mixer_profile := MixerProfile { mp_name : list Z; mp_display : list Z; mp_console_field : Z }.

Definition MIXER_PROFILES : list reac_mixer_profile :=
  [MixerProfile (str "m200") (str "M-200") 0; MixerProfile (str "m300") (str "M-300") 0;
   MixerProfile (str "m5000") (str "M-5000") 1].

Fixpoint profile_named (s : list Z) (l : list reac_mixer_profile) : option reac_mixer_profile :=
  match l with
  | [] => None
  | m :: l => if zeqb s (mp_name m) then Some m else profile_named s l
  end.
Definition reac_mixer_profile_by_name (name : option (list Z)) : option reac_mixer_profile :=
  match name with None => None | Some s => profile_named s MIXER_PROFILES end.
Definition reac_mixer_profile_at (i : Z) : option reac_mixer_profile :=
  if (i <? 0) || (zlen MIXER_PROFILES <=? i) then None else MIXER_PROFILES !! Z.to_nat i.

(** ** Names; an enumerator outside its type reads [?] *)

Definition unnamed : list Z := str "?".

Definition reac_master_state_name (s : Z) : list Z :=
  if s =? 0 then str "IDLE" else if s =? 1 then str "PROBING" else if s =? 2 then str "GRANTING"
  else if s =? 3 then str "ESTABLISHED" else unnamed.
Definition reac_master_rx_event_name (e : Z) : list Z :=
  if e =? 0 then str "BCAST-FILLER" else if e =? 1 then str "JOIN" else if e =? 2 then str "UNICAST"
  else if e =? 3 then str "HEARTBEAT" else if e =? 4 then str "BYE" else if e =? 5 then str "CONFIG"
  else unnamed.
Definition reac_master_drop_name (r : Z) : list Z :=
  if r =? 0 then str "none" else if r =? 1 then str "peer-gone" else if r =? 2 then str "explicit-BYE"
  else if r =? 3 then str "box-mac-change" else if r =? 4 then str "grant-timeout"
  else if r =? 5 then str "box-undeclared" else unnamed.

Definition reac_clock_source_name (s : reac_clock_source) : list Z :=
  match s with
  | REAC_CLOCK_SRC_WIRE => str "master cadence"
  | REAC_CLOCK_SRC_PHC => str "NIC/external PHC"
  | REAC_CLOCK_SRC_GRAPH => str "graph clock"
  | REAC_CLOCK_SRC_BOX => str "box counter slope"
  | REAC_CLOCK_SRC_FREERUN => str "host monotonic clock"
  end.
Definition reac_clock_quality_name (q : reac_clock_quality) : list Z :=
  match q with
  | REAC_CLOCK_Q_UNUSABLE => str "unusable"
  | REAC_CLOCK_Q_MARGINAL => str "marginal"
  | REAC_CLOCK_Q_UNGRADED => str "ungraded"
  | REAC_CLOCK_Q_GOOD => str "good"
  | REAC_CLOCK_Q_DESIGNATED => str "operator-designated"
  end.
Definition reac_clock_stability_name (s : reac_clock_stability) : list Z :=
  match s with
  | REAC_CLOCK_STAB_UNKNOWN => str "unknown"
  | REAC_CLOCK_STAB_STABLE => str "stable"
  | REAC_CLOCK_STAB_UNSTABLE => str "unstable"
  end.
Definition reac_clock_state_name (s : reac_clock_state) : list Z :=
  match s with
  | REAC_CLOCK_UNLOCKED => str "unlocked"
  | REAC_CLOCK_LOCKING => str "locking"
  | REAC_CLOCK_LOCKED => str "locked"
  | REAC_CLOCK_HOLDOVER => str "holdover"
  end.

(** ** The reference sentence *)

(** [snprintf] into [cap] bytes keeps what fits before the terminator. *)
Definition snprintf_z (cap : Z) (s : list Z) : list Z := take (Z.to_nat (cap - 1)) s.

Definition device_clause (label : option (list Z)) : list Z :=
  match label with
  | None | Some [] => []
  | Some l => snprintf_z 96 (str " (" ++ l ++ str ")")
  end.
Definition quality_clause (q : reac_clock_quality) : list Z :=
  match q with
  | REAC_CLOCK_Q_UNGRADED => []
  | _ => snprintf_z 64 (str ", quality: " ++ reac_clock_quality_name q)
  end.
Definition pace_clause (r : reac_role) : list Z :=
  reac_role_name r ++ str " (pace: "
    ++ match r with REAC_ROLE_SLAVE => str "from the master" | REAC_ROLE_MASTER => str "generated here" end
    ++ str ")".

(** What follows the role and the pace. *)
Definition reference_clause (src : reac_clock_source) (state : reac_clock_state) (dev qual : list Z) : list Z :=
  match state with
  | REAC_CLOCK_LOCKED => str " — locked to " ++ reac_clock_source_name src ++ dev ++ qual
  | REAC_CLOCK_LOCKING => str " — acquiring " ++ reac_clock_source_name src ++ dev ++ qual
  | REAC_CLOCK_HOLDOVER => str " — holdover: reference lost, holding the last good rate"
  | REAC_CLOCK_UNLOCKED => str " — free-running (no reference)"
  end.

Definition reac_clock_describe_full (r : reac_role) (src : reac_clock_source) (state : reac_clock_state)
    (q : reac_clock_quality) (label : option (list Z)) (cap : Z) : list Z :=
  snprintf_z cap (pace_clause r ++ reference_clause src state (device_clause label) (quality_clause q)).
Definition reac_clock_describe (r : reac_role) (src : reac_clock_source) (state : reac_clock_state)
    (cap : Z) : list Z := reac_clock_describe_full r src state REAC_CLOCK_Q_UNGRADED None cap.
Definition reac_clock_disc_describe (c : reac_clock_disc) (cap : Z) : list Z :=
  reac_clock_describe (c_role c) (c_src c) (c_state c) cap.

(** ** What the drain prints *)

(** [fmt_mac] and [fmt_blk]. *)
Definition fmt_mac (m : list Z) : list Z :=
  hex2 m.[0] ++ [58] ++ hex2 m.[1] ++ [58] ++ hex2 m.[2] ++ [58] ++ hex2 m.[3] ++ [58] ++
  hex2 m.[4] ++ [58] ++ hex2 m.[5].
Definition fmt_blk (blk : list Z) : list Z :=
  concat ((λ i, hex2 (blk.[i]) ++ (if Z.land i 7 =? 7 then [32] else [])) <$> zseq 0 32).

Definition pev_cause_phrase (c : Z) : list Z :=
  if c =? REAC_PEV_CAUSE_TIMER then str "timer"
  else if c =? REAC_PEV_CAUSE_RATE_CHANGE then str "rate change"
  else if c =? REAC_PEV_CAUSE_LINK_UP then str "LINK-UP on the wire"
  else if c =? REAC_PEV_CAUSE_LINK_DOWN then str "LINK-DOWN on the wire"
  else snprintf_z 48 (str "rx " ++ reac_master_rx_event_name c).

(** The five answers to a master that stays in PROBING. *)
Inductive probing_advice :=
| ADVICE_NO_CARRIER | ADVICE_CARRIER_UNKNOWN | ADVICE_LINKED_SILENT (pushes : Z)
| ADVICE_PRESENT_NOT_JOINING | ADVICE_NO_SUSTAINED_PRESENCE.

(** [carrier] is what [reac_link_carrier] answers: 1, 0, or -1 when unknown. *)
Definition watchdog_advice (carrier frames pushes a : Z) : probing_advice :=
  if carrier =? 0 then ADVICE_NO_CARRIER
  else if (frames =? 0) && (carrier <? 0) then ADVICE_CARRIER_UNKNOWN
  else if frames =? 0 then ADVICE_LINKED_SILENT pushes
  else if negb (a =? 0) then ADVICE_PRESENT_NOT_JOINING
  else ADVICE_NO_SUSTAINED_PRESENCE.

(** The enumerators a byte of an event is cast to. *)
Definition src_of_index (i : Z) : reac_clock_source :=
  if i =? 1 then REAC_CLOCK_SRC_BOX else if i =? 2 then REAC_CLOCK_SRC_GRAPH
  else if i =? 3 then REAC_CLOCK_SRC_PHC else if i =? 4 then REAC_CLOCK_SRC_WIRE
  else REAC_CLOCK_SRC_FREERUN.
Definition state_of_index (i : Z) : reac_clock_state :=
  if i =? 1 then REAC_CLOCK_LOCKING else if i =? 2 then REAC_CLOCK_LOCKED
  else if i =? 3 then REAC_CLOCK_HOLDOVER else REAC_CLOCK_UNLOCKED.
Definition quality_of_rank (i : Z) : reac_clock_quality :=
  if i =? 1 then REAC_CLOCK_Q_MARGINAL else if i =? 2 then REAC_CLOCK_Q_UNGRADED
  else if i =? 3 then REAC_CLOCK_Q_GOOD else if i =? 4 then REAC_CLOCK_Q_DESIGNATED
  else REAC_CLOCK_Q_UNUSABLE.

Definition as_int32 (v : Z) : Z := if v <? 2 ^ 31 then v else v - 2 ^ 32.

(** A [REAC_PEV_CLOCK] event read back: the applied correction in thousandths, and the label. *)
Definition event_applied (blk : list Z) : Z :=
  as_int32 (Z.lor (Z.lor (Z.lor blk.[0] (Z.shiftl blk.[1] 8)) (Z.shiftl blk.[2] 16)) (Z.shiftl blk.[3] 24)).
Definition event_label (blk : list Z) : list Z := cstr (slice blk 4 (REAC_CLOCK_LABEL_MAX - 1)).

(** The sentence of the event, the correction in ppm and the steered period. *)
Definition clock_line (period_ns a b : Z) (blk : list Z) : list Z * spec_float * Z :=
  let ppm := f64_div (f64_of_Z (event_applied blk)) (f64_of_Z 1000) in
  let steered := f64_to_Z (f64_add (f64_div (f64_of_Z period_ns)
                   (f64_add (f64_of_Z 1) (f64_div ppm (f64_of_Z 1000000)))) (f64_ratio 1 2)) in
  (reac_clock_describe_full REAC_ROLE_MASTER (src_of_index a) (state_of_index (Z.land b 15))
     (quality_of_rank (Z.shiftr b 4)) (Some (event_label blk)) 224, ppm, steered).

(** ** Words read back *)

(** Every intent has one word, and only the five words are read. *)
Lemma intent_parse_exact s i : reac_role_intent_parse (Some s) = Some i ↔ s = reac_role_intent_name i.
Proof.
  split; [|by intros ->; destruct i].
  cbn [reac_role_intent_parse]. repeat case_match; intros [= <-]; by apply zeqb_eq.
Qed.

Lemma role_parse_exact s r : reac_role_parse (Some s) = Some r ↔ s = reac_role_name r.
Proof.
  split; [|by intros ->; destruct r].
  cbn [reac_role_parse]. repeat case_match; intros [= <-]; by apply zeqb_eq.
Qed.

(** The words of a role are read as the intent that launches in it. *)
Lemma role_words_are_intents s r :
  reac_role_parse s = Some r → ∃ i, reac_role_intent_parse s = Some i ∧ reac_role_from_intent i = r.
Proof.
  destruct s as [s|]; [|done]. intros ->%role_parse_exact.
  destruct r; [exists REAC_ROLE_INTENT_MASTER|exists REAC_ROLE_INTENT_SLAVE]; done.
Qed.

(** A knob is read without regard to case. *)
Lemma envflag_case v w : to_lower <$> v = to_lower <$> w → reac_envflag_parse (Some v) = reac_envflag_parse (Some w).
Proof.
  intros H. destruct v as [|c v], w as [|d w]; try done.
  unfold reac_envflag_parse, any_word, strcaseeq. by rewrite H.
Qed.

(** Unset, empty and unreadable are the default; a word of one list is never of the other. *)
Lemma envflag_default getenv name dflt :
  getenv name = None ∨ getenv name = Some [] → reac_envflag getenv name dflt = dflt.
Proof. unfold reac_envflag. by intros [-> | ->]. Qed.

Lemma profiles_by_name i m :
  reac_mixer_profile_at i = Some m → reac_mixer_profile_by_name (Some (mp_name m)) = Some m.
Proof.
  unfold reac_mixer_profile_at. destruct (_ || _); [done|].
  destruct (Z.to_nat i) as [|[|[|]]]; intros [= <-]; done.
Qed.

(** ** The sentence is whole, and names a lock only when there is one *)

Definition LOCKED_TO : list Z := pace_clause REAC_ROLE_MASTER ++ str " — locked to ".

Lemma zlen_snprintf cap s : zlen (snprintf_z cap s) ≤ zlen s.
Proof. unfold snprintf_z, zlen. rewrite length_take. lia. Qed.
Lemma snprintf_whole cap s : zlen s < cap → snprintf_z cap s = s.
Proof. intros. apply take_ge. unfold zlen in *. lia. Qed.

Lemma zlen_device label : zlen label ≤ 27 → zlen (device_clause (Some label)) ≤ 30.
Proof.
  intros H. destruct label as [|c l]; [by vm_compute|]. unfold device_clause.
  etransitivity; [apply zlen_snprintf|]. rewrite !zlen_app.
  change (zlen (str " (")) with 2. change (zlen (str ")")) with 1. lia.
Qed.

Lemma zlen_quality q : zlen (quality_clause q) ≤ 30.
Proof. by destruct q. Qed.

Lemma sentence_fits r src st q label :
  zlen label ≤ 27 →
  reac_clock_describe_full r src st q (Some label) 224 =
  pace_clause r ++ reference_clause src st (device_clause (Some label)) (quality_clause q).
Proof.
  intros Hl. apply snprintf_whole.
  pose proof (zlen_device label Hl). pose proof (zlen_quality q).
  assert (zlen (pace_clause r) ≤ 40) by by destruct r.
  assert (zlen (reac_clock_source_name src) ≤ 20) by by destruct src.
  rewrite zlen_app. destruct st; cbn [reference_clause]; rewrite ?zlen_app;
    repeat match goal with |- context [zlen (str ?s)] =>
      let v := eval vm_compute in (zlen (str s)) in change (zlen (str s)) with v end; lia.
Qed.

Lemma locked_only_when_locked src st dev q :
  LOCKED_TO `prefix_of` (pace_clause REAC_ROLE_MASTER ++ reference_clause src st dev q) ↔
  st = REAC_CLOCK_LOCKED.
Proof.
  unfold LOCKED_TO. split.
  - intros [k Hk]%prefix_app_inv. destruct st; [..|done|]; by vm_compute in Hk.
  - intros ->. apply prefix_app. by eexists.
Qed.

(** ** The event carries the sentence *)

Lemma event_index c : src_of_index (src_index (c_src c)) = c_src c.
Proof. by destruct (c_src c). Qed.

Lemma event_state_quality (s : reac_clock_state) (q : reac_clock_quality) :
  let b := u8 (Z.lor (state_index s) (Z.shiftl (quality_rank q) 4)) in
  state_of_index (Z.land b 15) = s ∧ quality_of_rank (Z.shiftr b 4) = q.
Proof. by destruct s, q. Qed.

Lemma as_int32_bytes x :
  - 2 ^ 31 ≤ x < 2 ^ 31 →
  as_int32 (Z.lor (Z.lor (Z.lor (u8 x) (Z.shiftl (u8 (Z.shiftr x 8)) 8))
    (Z.shiftl (u8 (Z.shiftr x 16)) 16)) (Z.shiftl (u8 (Z.shiftr x 24)) 24)) = x.
Proof.
  intros Hx. rewrite word_sum by (unfold is_byte, u8; lia).
  rewrite !Z.shiftr_div_pow2 by lia. unfold u8, as_int32.
  case_match; lia.
Qed.

Lemma event_label_back blk label :
  zlen blk = 32 → (∀ i, 4 ≤ i → blk.[i] = 0) → Forall (λ ch, ch ≠ 0) label → zlen label ≤ 27 →
  event_label (blit blk 4 label) = label.
Proof.
  intros Hb Hz Hn Hl. unfold event_label, REAC_CLOCK_LABEL_MAX. pose proof (zlen_nonneg label).
  replace (slice (blit blk 4 label) 4 (28 - 1)) with (label ++ zeros (27 - zlen label)); [by apply cstr_padded|].
  apply buf_ext; [autorewrite with zlen; lia|].
  intros i Hi. autorewrite with zlen in Hi. rewrite rd_slice by lia.
  destruct (decide (i < zlen label)).
  - rewrite rd_app_l, rd_blit_in by lia. f_equal. lia.
  - rewrite rd_app_r, rd_zeros, rd_blit_out by lia. symmetry. apply Hz. lia.
Qed.

(** The correction applied by a discipline, in thousandths of a ppm. *)
Definition applied_milli (c : reac_clock_disc) : Z :=
  f64_to_Z (f64_mul (d_applied_ppm (c_dll c)) (f64_of_Z 1000)).
(** The device a line may name: none when there is no reference. *)
Definition device_of (c : reac_clock_disc) (label : list Z) : list Z :=
  if bool_decide (c_src c = REAC_CLOCK_SRC_FREERUN) then [] else label.

Lemma event_blk_back c label :
  - 2 ^ 31 ≤ applied_milli c < 2 ^ 31 → Forall (λ ch, ch ≠ 0) label → zlen label ≤ 27 →
  event_applied (clock_event c label).2 = applied_milli c ∧
  event_label (clock_event c label).2 = device_of c label.
Proof.
  intros Ha Hn Hl. unfold clock_event, device_of. fold (applied_milli c). cbn [snd].
  set (w := [_; _; _; _]). set (blk := blit (zeros 32) 0 w).
  assert (Hb : zlen blk = 32) by done.
  assert (Hz : ∀ i, 4 ≤ i → blk.[i] = 0)
    by (intros i Hi; unfold blk; rewrite rd_blit_out by (lia || (right; change (zlen w) with 4; lia)); apply rd_zeros).
  assert (Happ : event_applied blk = applied_milli c).
  { change (event_applied blk) with (as_int32 (Z.lor (Z.lor (Z.lor w.[0] (Z.shiftl w.[1] 8)) (Z.shiftl w.[2] 16))
      (Z.shiftl w.[3] 24))). by apply as_int32_bytes. }
  case_bool_decide; [split; [done|]|split; [|by apply event_label_back]].
  - rewrite <- (event_label_back blk []) by done. done.
  - rewrite <- Happ. unfold event_applied. by rewrite !rd_blit_out by lia.
Qed.

(** The line the drain prints for an event of the clock is, whole, the sentence of
    the discipline that pushed it - its reference, its state, the device and its
    grade, the correction it applies - and says "locked to" exactly when that
    discipline is LOCKED. *)
Lemma transcript_tells_clock c label period_ns :
  - 2 ^ 31 ≤ applied_milli c < 2 ^ 31 → Forall (λ ch, ch ≠ 0) label → zlen label ≤ 27 →
  let '(a, b, blk) := clock_event c label in
  let '(line, ppm, _) := clock_line period_ns a b blk in
  line = pace_clause REAC_ROLE_MASTER ++ reference_clause (c_src c) (c_state c)
           (device_clause (Some (device_of c label))) (quality_clause (c_src_quality c)) ∧
  ppm = f64_div (f64_of_Z (applied_milli c)) (f64_of_Z 1000) ∧
  (LOCKED_TO `prefix_of` line ↔ c_state c = REAC_CLOCK_LOCKED).
Proof.
  intros Ha Hn Hl. destruct (event_blk_back c label Ha Hn Hl) as [Happ Hlab].
  destruct (clock_event c label) as [[a b] blk] eqn:E. cbn [snd] in *. unfold clock_line.
  rewrite Happ, Hlab. unfold clock_event in E. injection E as <- <- _. rewrite event_index.
  destruct (event_state_quality (c_state c) (c_src_quality c)) as [-> ->].
  assert (zlen (device_of c label) ≤ 27) by (unfold device_of; case_bool_decide; [by vm_compute|done]).
  rewrite sentence_fits by done. split_and!; [done..|apply locked_only_when_locked].
Qed.

(** The cable is named at fault only on the kernel's word. *)
Lemma cable_blamed_on_evidence carrier frames pushes a :
  watchdog_advice carrier frames pushes a = ADVICE_NO_CARRIER ↔ carrier = 0.
Proof. unfold watchdog_advice. repeat case_match; split; intros; (done || lia). Qed.

Example describe_example :
  reac_clock_describe_full REAC_ROLE_MASTER REAC_CLOCK_SRC_GRAPH REAC_CLOCK_LOCKED
    REAC_CLOCK_Q_DESIGNATED (Some (str "RME Babyface Pro")) 224
  = str "master (pace: generated here) — locked to graph clock (RME Babyface Pro), quality: operator-designated".
Proof. by vm_compute. Qed.
