(* ===== verification/Health.v ===== *)
(** * Health: what the pacer's main loop reports

    Models [reac_pacer_health_poll] and the telemetry at the end of
    [reac_pacer_log_drain] of [transport/src/reac_pacer.c]: the health window with
    its rates (binary64, as the code computes them), the report of a sustained loss,
    and the heartbeat with the extremes of the ring depth. The state they keep is
    the main loop's own; the counters are those of the pacer. *)
From S2P Require Import Prelude Clock FrameRing Pace PacerState Pacer Watch.
From Stdlib Require Import SpecFloat.
Local Open Scope Z_scope.

Definition REAC_PACER_HEALTH_WINDOW_NS : Z := 10000000000.
Definition REAC_PACER_DEPTH_LOG_HB_NS : Z := 10000000000.

(** ** The health window *)

(** The counters the poll reads, and the window that opened on a reading of them. *)
Record readings := Readings { rg_tx : Z; rg_trim : Z; rg_late : Z; rg_dropped : Z; rg_catchup : Z }.
Record health_win := HealthWin { hw_ns : Z; hw_at : readings }.

Definition read_counters (p : reac_pacer) : readings :=
  Readings (pc_tx_frames p) (pc_ring_trim_frames p) (sc_late_wakes (pc_slotclk p))
    (sc_slots_dropped (pc_slotclk p)) (sc_slots_catchup (pc_slotclk p)).

Record reac_pacer_health := PacerHealth {
  hl_valid : bool; hl_window_s : spec_float; hl_drift_ppm : spec_float; hl_discard_fps : spec_float;
  hl_discard_ms_per_s : spec_float; hl_late_wakes_ps : spec_float; hl_slots_dropped_ps : spec_float;
  hl_slots_catchup_ps : spec_float; hl_tx_errors : Z; hl_late_wakes : Z; hl_ring_frames : Z;
  hl_slot_debt_max : Z; hl_ring_ms : spec_float
}.

Definition f64_1e6 : spec_float := f64_of_Z 1000000.
Definition f64_1e9 : spec_float := f64_of_Z NS_PER_S.

(** [(double)(now - then) / dt], the difference of two [uint64_t] counters. *)
Definition per_second (now at_open : Z) (dt : spec_float) : spec_float :=
  f64_div (f64_of_Z (u64 (now - at_open))) dt.

(** The rates over a window of [dt_ns], opened on [r0] and closed on [r]. *)
Definition health_rates (p : reac_pacer) (r0 r : readings) (dt_ns : Z) : reac_pacer_health :=
  let period := f64_of_Z (sc_period_ns (pc_slotclk p)) in
  let dt := f64_div (f64_of_Z dt_ns) f64_1e9 in
  let emitted := per_second (rg_tx r) (rg_tx r0) dt in
  let nominal := f64_div f64_1e9 period in
  let rdepth := reac_frame_ring_readable (pc_ring p) in
  let discard := per_second (rg_trim r) (rg_trim r0) dt in
  PacerHealth true dt (f64_mul (f64_div (f64_sub nominal emitted) nominal) f64_1e6) discard
    (f64_div (f64_mul discard period) f64_1e6)
    (per_second (rg_late r) (rg_late r0) dt) (per_second (rg_dropped r) (rg_dropped r0) dt)
    (per_second (rg_catchup r) (rg_catchup r0) dt)
    (pc_tx_errors p) (rg_late r) rdepth (sc_slot_debt_max (pc_slotclk p))
    (f64_div (f64_mul (f64_of_Z rdepth) period) f64_1e6).

(** [slot_debt_max] is read and reset. *)
Definition take_debt (p : reac_pacer) : reac_pacer :=
  let c := pc_slotclk p in
  set_pc_slotclk (SlotClock (sc_etf c) (sc_lead_ns c) (sc_grid c) (sc_deadline c) (sc_period_ns c)
    (sc_catchup_max_slots c) (sc_late_wakes c) (sc_slots_catchup c) (sc_slots_dropped c) 0) p.

(** [Some h] is the 1 return with [*out]. *)
Definition reac_pacer_health_poll (p : reac_pacer) (w : health_win) (now_ns : Z)
    : reac_pacer * health_win * option reac_pacer_health :=
  let r := read_counters p in
  if (hw_ns w =? 0) || (now_ns <? hw_ns w) then (p, HealthWin now_ns r, None)
  else
    let dt_ns := u64 (now_ns - hw_ns w) in
    if dt_ns <? REAC_PACER_HEALTH_WINDOW_NS then (p, w, None)
    else (take_debt p, HealthWin now_ns r, Some (health_rates p (hw_at w) r dt_ns)).

(** ** The telemetry of the drain *)

Record pacer_log := PacerLog { pl_watch : reac_discard_watch; pl_last_ns : Z; pl_last_trims : Z }.

(** The sustained-loss line: windows, frames per second, parts per million, totals. *)
Record loss_line := LossLine {
  ll_run : Z; ll_fps : spec_float; ll_ppm : spec_float; ll_trims : Z; ll_frames : Z
}.
Definition drain_loss (p : reac_pacer) (w : reac_discard_watch) (now : Z)
    : reac_discard_watch * option loss_line :=
  let frames := pc_ring_trim_frames p in
  let '(w, rate) := reac_discard_watch_step w now frames in
  (w, (λ dps,
    let fps := f64_div f64_1e9 (f64_of_Z (sc_period_ns (pc_slotclk p))) in
    LossLine (dw_run w) dps (f64_mul (f64_div dps fps) f64_1e6) (pc_ring_trims p) frames) <$> rate).

(** The heartbeat line: depth, its extremes since the last one, and the counters. *)
Record depth_line := DepthLine {
  dl_depth : Z; dl_min : Z; dl_max : Z; dl_trims : Z; dl_trim_frames : Z; dl_tx : Z; dl_tx_errors : Z;
  dl_late : Z; dl_catchup : Z; dl_dropped : Z
}.
Definition drain_depth (p : reac_pacer) (l : pacer_log) (now : Z) : reac_pacer * pacer_log * option depth_line :=
  let trims := pc_ring_trims p in
  if negb (trims =? pl_last_trims l) || (REAC_PACER_DEPTH_LOG_HB_NS <=? u64 (now - pl_last_ns l)) then
    let rdepth := reac_frame_ring_readable (pc_ring p) in
    let rmax := pc_ring_depth_peak p in
    let rmin := pc_ring_depth_min p in
    let '(rmin, rmax) := if rmax <? rmin then (rdepth, rdepth) else (rmin, rmax) in
    let c := pc_slotclk p in
    (set_pc_ring_depth_min rdepth (set_pc_ring_depth_peak rdepth p), PacerLog (pl_watch l) now trims,
     Some (DepthLine rdepth rmin rmax trims (pc_ring_trim_frames p) (pc_tx_frames p) (pc_tx_errors p)
             (sc_late_wakes c) (sc_slots_catchup c) (sc_slots_dropped c)))
  else (p, l, None).

(** The whole drain: the events, the silent devices, and the two lines. *)
Definition log_drain_full (now : Z) (p : reac_pacer) (l : pacer_log)
    : reac_pacer * pacer_log * Z * option loss_line * option depth_line :=
  let '(p, n) := reac_pacer_log_drain now p in
  let '(w, loss) := drain_loss p (pl_watch l) now in
  let '(p, l, line) := drain_depth p (PacerLog w (pl_last_ns l) (pl_last_trims l)) now in
  (p, l, n, loss, line).

(** ** Windows tile the time *)

(** A poll in service: the clock is a [uint64_t] that does not go back. *)
Definition poll_ok (w : health_win) (now_ns : Z) : Prop := 0 < hw_ns w ≤ now_ns ∧ now_ns < 2 ^ 64.

Lemma poll_cases p w now_ns :
  poll_ok w now_ns →
  reac_pacer_health_poll p w now_ns =
  if now_ns - hw_ns w <? REAC_PACER_HEALTH_WINDOW_NS then (p, w, None)
  else (take_debt p, HealthWin now_ns (read_counters p),
        Some (health_rates p (hw_at w) (read_counters p) (now_ns - hw_ns w))).
Proof.
  intros [[H0 H1] H2]. unfold reac_pacer_health_poll.
  replace ((hw_ns w =? 0) || (now_ns <? hw_ns w)) with false by lia.
  by replace (u64 (now_ns - hw_ns w)) with (now_ns - hw_ns w) by (unfold u64; lia).
Qed.

(** Polls in turn, each of the pacer as it then is. *)
Fixpoint polls (w : health_win) (l : list (reac_pacer * Z)) : health_win * list reac_pacer_health :=
  match l with
  | [] => (w, [])
  | (p, now) :: l =>
      let '(_, w, r) := reac_pacer_health_poll p w now in
      let '(w, rs) := polls w l in (w, option_list r ++ rs)
  end.

Fixpoint polls_ok (t : Z) (l : list (reac_pacer * Z)) : Prop :=
  match l with [] => True | (_, now) :: l => t ≤ now < 2 ^ 64 ∧ polls_ok now l end.

(** [reports] are the rates of consecutive windows of [l], from [w] to [w']: each
    opens on the very reading the last one closed on, and lasts ten seconds or more. *)
Inductive tiled : health_win → list (reac_pacer * Z) → list reac_pacer_health → health_win → Prop :=
| tiled_open w l : (∀ p now, (p, now) ∈ l → now < hw_ns w + REAC_PACER_HEALTH_WINDOW_NS) → tiled w l [] w
| tiled_close w l p now l' rs w' :
    (∀ q t, (q, t) ∈ l → t < hw_ns w + REAC_PACER_HEALTH_WINDOW_NS) →
    hw_ns w + REAC_PACER_HEALTH_WINDOW_NS ≤ now →
    tiled (HealthWin now (read_counters p)) l' rs w' →
    tiled w (l ++ (p, now) :: l') (health_rates p (hw_at w) (read_counters p) (now - hw_ns w) :: rs) w'.

Lemma tiled_skip w p now l rs w' :
  now < hw_ns w + REAC_PACER_HEALTH_WINDOW_NS → tiled w l rs w' → tiled w ((p, now) :: l) rs w'.
Proof.
  intros Hn. inversion 1 as [w0 l0 H0|w0 l0 q t l' rs' w'' H0 Ht Hr]; subst.
  - constructor. intros q t [[= -> ->]|Hin]%elem_of_cons; [done|eauto].
  - rewrite app_comm_cons. constructor; [|done..].
    intros q' t' [[= -> ->]|Hin]%elem_of_cons; [done|eauto].
Qed.

Lemma polls_tile w t l :
  0 < hw_ns w ≤ t → polls_ok t l → tiled w l (polls w l).2 (polls w l).1.
Proof.
  revert w t. induction l as [|[p now] l IH]; intros w t Hw Hl.
  - constructor. by intros ?? ?%elem_of_nil.
  - destruct Hl as [Hn Hl]. cbn [polls]. rewrite poll_cases by (split; lia).
    destruct (now - hw_ns w <? REAC_PACER_HEALTH_WINDOW_NS) eqn:E.
    + specialize (IH w now ltac:(lia) Hl). destruct (polls w l) as [w' rs].
      apply tiled_skip; [lia|done].
    + specialize (IH (HealthWin now (read_counters p)) now ltac:(simpl; lia) Hl).
      destruct (polls _ l) as [w' rs]. apply (tiled_close w []); [|lia|done].
      by intros ?? ?%elem_of_nil.
Qed.

(** From the first poll on, the windows tile the time: none overlaps another, none
    leaves a gap, so every counted frame is in exactly one report. *)
Lemma health_windows_tile p0 w0 t0 l :
  0 < t0 < 2 ^ 64 → hw_ns w0 = 0 → polls_ok t0 l →
  tiled (HealthWin t0 (read_counters p0)) l (polls w0 ((p0, t0) :: l)).2 (polls w0 ((p0, t0) :: l)).1.
Proof.
  intros Ht Hw Hl. cbn [polls]. unfold reac_pacer_health_poll at 1 2. rewrite Hw. cbn [Z.eqb orb].
  pose proof (polls_tile (HealthWin t0 (read_counters p0)) t0 l ltac:(simpl; lia) Hl) as H.
  by destruct (polls _ l).
Qed.

(** *** Readings of the drift *)

Definition drift_of (period_ns frames dt_ns : Z) : spec_float :=
  let nominal := f64_div f64_1e9 (f64_of_Z period_ns) in
  f64_mul (f64_div (f64_sub nominal (per_second frames 0 (f64_div (f64_of_Z dt_ns) f64_1e9))) nominal) f64_1e6.

Lemma drift_reported p r0 r dt_ns :
  rg_tx r0 = 0 → hl_drift_ppm (health_rates p r0 r dt_ns) = drift_of (sc_period_ns (pc_slotclk p)) (rg_tx r) dt_ns.
Proof. unfold health_rates, drift_of. cbn [hl_drift_ppm]. by intros ->. Qed.

(** A window at the rate of the wire reads zero, and 36 slots short of 40000 read 900 ppm. *)
Example drift_on_rate : drift_of 250000 40000 10000000000 = S754_zero false.
Proof. by vm_compute. Qed.
Example drift_short :
  f64_ltb (f64_ratio 899999 1000) (drift_of 250000 39964 10000000000)
  && f64_ltb (drift_of 250000 39964 10000000000) (f64_ratio 900001 1000) = true.
Proof. by vm_compute. Qed.

(** The nominal rate is that of the closing poll: five seconds at 48 kHz and five at
    96 kHz, every slot on time, read as a deficit of a quarter; as much at 48 kHz
    after as much at 96 kHz reads as a surplus of a half. *)
Lemma drift_across_rate_change :
  drift_of 125000 (20000 + 40000) 10000000000 = f64_of_Z 250000 ∧
  drift_of 250000 (40000 + 20000) 10000000000 = f64_of_Z (-500000).
Proof. by vm_compute. Qed.

(** ** The heartbeat *)

Lemma depth_line_due p l now :
  0 ≤ pl_last_ns l ≤ now → now < 2 ^ 64 →
  is_Some (drain_depth p l now).2 ↔
  pc_ring_trims p ≠ pl_last_trims l ∨ REAC_PACER_DEPTH_LOG_HB_NS ≤ now - pl_last_ns l.
Proof.
  intros Hl Hn. unfold drain_depth.
  replace (u64 (now - pl_last_ns l)) with (now - pl_last_ns l) by (unfold u64; lia).
  destruct (negb _ || _) eqn:E; [destruct (_ <? _)|]; cbn [snd]; split; intros; (done || lia || (by eexists) || by destruct H).
Qed.

(** A line's extremes are in order, and the next interval starts from its depth. *)
Lemma depth_line_extremes p l now p' l' d :
  drain_depth p l now = (p', l', Some d) →
  dl_min d ≤ dl_max d ∧ pc_ring_depth_min p' = dl_depth d ∧ pc_ring_depth_peak p' = dl_depth d.
Proof.
  unfold drain_depth. destruct (_ || _); [|done].
  destruct (pc_ring_depth_peak p <? pc_ring_depth_min p) eqn:E; intros [= <- <- <-]; cbn; split_and!; (done || lia).
Qed.

(** A drain without a line leaves the extremes to the next one. *)
Lemma depth_line_quiet p l now p' l' : drain_depth p l now = (p', l', None) → p' = p ∧ l' = l.
Proof. unfold drain_depth. destruct (_ || _); [by destruct (_ <? _)|by intros [= <- <-]]. Qed.
