(* ===== verification/Slave.v ===== *)
(** * Slave: the slave engine around the handshake

    Models [transport/src/reac_slave.c]: what the engine thread does with each
    received frame, each timeout and each link change. [reac_fsm_step] decides,
    and this file says which frame each decision puts on the wire, how the
    upstream counter follows the master's, how received head-amp records become
    gains, and how the engine behaves on a wire a stagebox masters. The socket,
    the thread and the log are not modelled: a turn of the loop takes what [recv]
    gave it, the readings of the clock and whether each [sendto] succeeded, and
    returns the frames it sent. The log tag and the printed lines are left out. *)

From S2P Require Import Prelude Wire Sample Codec CtrlBlk Identity BoxModel BoxFacts.
From S2P Require Import SlaveFsm CtrlFrames Ring.
From Stdlib Require Import SpecFloat.
Local Open Scope Z_scope.

(** ** Floating point *)

Definition f32_add : f32 → f32 → f32 := SFadd F32_PREC F32_EMAX.
Definition f32_sub : f32 → f32 → f32 := SFsub F32_PREC F32_EMAX.
Definition f32_one : f32 := f32_of_Z 1.
(** The literal [0.001f]. *)
Definition f32_milli : f32 := S754_finite false 8589935 (-33).

(** ** The decision core *)

Inductive reac_slave_emit :=
| REAC_SLAVE_EMIT_NONE | REAC_SLAVE_EMIT_FLOOD_FILLER | REAC_SLAVE_EMIT_COLDCONNECT
| REAC_SLAVE_EMIT_UPSTREAM_AUDIO | REAC_SLAVE_EMIT_HEARTBEAT.

#[global] Instance reac_slave_emit_eq_dec : EqDecision reac_slave_emit.
Proof. solve_decision. Defined.

Record reac_slave_decision := Decision_ {
  d_emit : reac_slave_emit; d_with_heartbeat : bool; d_with_join : bool; d_state : reac_fsm_state
}.

Definition map_action (o : reac_fsm_out) : reac_slave_decision :=
  match o_action o with
  | FSM_ACT_FLOOD_BCAST => Decision_ REAC_SLAVE_EMIT_FLOOD_FILLER false false (o_state o)
  | FSM_ACT_UNICAST_COLDCONNECT => Decision_ REAC_SLAVE_EMIT_COLDCONNECT false (o_emit_join o) (o_state o)
  | FSM_ACT_UNICAST_AUDIO => Decision_ REAC_SLAVE_EMIT_UPSTREAM_AUDIO (o_emit_heartbeat o) false (o_state o)
  | FSM_ACT_SILENCE | FSM_ACT_STOP | FSM_ACT_NONE => Decision_ REAC_SLAVE_EMIT_NONE false false (o_state o)
  end.

(** ** State *)

(** The state of a wire a stagebox masters, grouped; [bm_] fields of the C struct. *)
Record box_master_state := BoxMaster {
  bm_box_master : bool;
  bm_frame_box : bool;
  bm_burst_chanmap : bool;
  bm_chanmap_hit : bool;
  bm_announced : bool;
  bm_fill_noise : bool;
  bm_presilence_ms : Z;
  bm_saw_cfea : bool;
  bm_last_scene_ns : Z;
  bm_burst_sent_ns : Z;
  bm_listened : bool;
  bm_announce_sent : bool;
  bm_burst_just_ended : bool;
  bm_start_ns : Z;
  bm_rng : Z;
  bm_seq : Z;
  bm_burst : Z
}.
Definition set_bm_chanmap_hit (v : bool) (r : box_master_state) : box_master_state :=
  BoxMaster (bm_box_master r) (bm_frame_box r) (bm_burst_chanmap r) v (bm_announced r)
    (bm_fill_noise r) (bm_presilence_ms r) (bm_saw_cfea r) (bm_last_scene_ns r) (bm_burst_sent_ns r)
    (bm_listened r) (bm_announce_sent r) (bm_burst_just_ended r) (bm_start_ns r) (bm_rng r)
    (bm_seq r) (bm_burst r).
Definition set_bm_announced (v : bool) (r : box_master_state) : box_master_state :=
  BoxMaster (bm_box_master r) (bm_frame_box r) (bm_burst_chanmap r) (bm_chanmap_hit r) v
    (bm_fill_noise r) (bm_presilence_ms r) (bm_saw_cfea r) (bm_last_scene_ns r) (bm_burst_sent_ns r)
    (bm_listened r) (bm_announce_sent r) (bm_burst_just_ended r) (bm_start_ns r) (bm_rng r)
    (bm_seq r) (bm_burst r).
Definition set_bm_saw_cfea (v : bool) (r : box_master_state) : box_master_state :=
  BoxMaster (bm_box_master r) (bm_frame_box r) (bm_burst_chanmap r) (bm_chanmap_hit r)
    (bm_announced r) (bm_fill_noise r) (bm_presilence_ms r) v (bm_last_scene_ns r)
    (bm_burst_sent_ns r) (bm_listened r) (bm_announce_sent r) (bm_burst_just_ended r)
    (bm_start_ns r) (bm_rng r) (bm_seq r) (bm_burst r).
Definition set_bm_last_scene_ns (v : Z) (r : box_master_state) : box_master_state :=
  BoxMaster (bm_box_master r) (bm_frame_box r) (bm_burst_chanmap r) (bm_chanmap_hit r)
    (bm_announced r) (bm_fill_noise r) (bm_presilence_ms r) (bm_saw_cfea r) v (bm_burst_sent_ns r)
    (bm_listened r) (bm_announce_sent r) (bm_burst_just_ended r) (bm_start_ns r) (bm_rng r)
    (bm_seq r) (bm_burst r).
Definition set_bm_burst_sent_ns (v : Z) (r : box_master_state) : box_master_state :=
  BoxMaster (bm_box_master r) (bm_frame_box r) (bm_burst_chanmap r) (bm_chanmap_hit r)
    (bm_announced r) (bm_fill_noise r) (bm_presilence_ms r) (bm_saw_cfea r) (bm_last_scene_ns r) v
    (bm_listened r) (bm_announce_sent r) (bm_burst_just_ended r) (bm_start_ns r) (bm_rng r)
    (bm_seq r) (bm_burst r).
Definition set_bm_listened (v : bool) (r : box_master_state) : box_master_state :=
  BoxMaster (bm_box_master r) (bm_frame_box r) (bm_burst_chanmap r) (bm_chanmap_hit r)
    (bm_announced r) (bm_fill_noise r) (bm_presilence_ms r) (bm_saw_cfea r) (bm_last_scene_ns r)
    (bm_burst_sent_ns r) v (bm_announce_sent r) (bm_burst_just_ended r) (bm_start_ns r) (bm_rng r)
    (bm_seq r) (bm_burst r).
Definition set_bm_announce_sent (v : bool) (r : box_master_state) : box_master_state :=
  BoxMaster (bm_box_master r) (bm_frame_box r) (bm_burst_chanmap r) (bm_chanmap_hit r)
    (bm_announced r) (bm_fill_noise r) (bm_presilence_ms r) (bm_saw_cfea r) (bm_last_scene_ns r)
    (bm_burst_sent_ns r) (bm_listened r) v (bm_burst_just_ended r) (bm_start_ns r) (bm_rng r)
    (bm_seq r) (bm_burst r).
Definition set_bm_burst_just_ended (v : bool) (r : box_master_state) : box_master_state :=
  BoxMaster (bm_box_master r) (bm_frame_box r) (bm_burst_chanmap r) (bm_chanmap_hit r)
    (bm_announced r) (bm_fill_noise r) (bm_presilence_ms r) (bm_saw_cfea r) (bm_last_scene_ns r)
    (bm_burst_sent_ns r) (bm_listened r) (bm_announce_sent r) v (bm_start_ns r) (bm_rng r)
    (bm_seq r) (bm_burst r).
Definition set_bm_start_ns (v : Z) (r : box_master_state) : box_master_state :=
  BoxMaster (bm_box_master r) (bm_frame_box r) (bm_burst_chanmap r) (bm_chanmap_hit r)
    (bm_announced r) (bm_fill_noise r) (bm_presilence_ms r) (bm_saw_cfea r) (bm_last_scene_ns r)
    (bm_burst_sent_ns r) (bm_listened r) (bm_announce_sent r) (bm_burst_just_ended r) v (bm_rng r)
    (bm_seq r) (bm_burst r).
Definition set_bm_rng (v : Z) (r : box_master_state) : box_master_state :=
  BoxMaster (bm_box_master r) (bm_frame_box r) (bm_burst_chanmap r) (bm_chanmap_hit r)
    (bm_announced r) (bm_fill_noise r) (bm_presilence_ms r) (bm_saw_cfea r) (bm_last_scene_ns r)
    (bm_burst_sent_ns r) (bm_listened r) (bm_announce_sent r) (bm_burst_just_ended r)
    (bm_start_ns r) v (bm_seq r) (bm_burst r).
Definition set_bm_seq (v : Z) (r : box_master_state) : box_master_state :=
  BoxMaster (bm_box_master r) (bm_frame_box r) (bm_burst_chanmap r) (bm_chanmap_hit r)
    (bm_announced r) (bm_fill_noise r) (bm_presilence_ms r) (bm_saw_cfea r) (bm_last_scene_ns r)
    (bm_burst_sent_ns r) (bm_listened r) (bm_announce_sent r) (bm_burst_just_ended r)
    (bm_start_ns r) (bm_rng r) v (bm_burst r).
Definition set_bm_burst (v : Z) (r : box_master_state) : box_master_state :=
  BoxMaster (bm_box_master r) (bm_frame_box r) (bm_burst_chanmap r) (bm_chanmap_hit r)
    (bm_announced r) (bm_fill_noise r) (bm_presilence_ms r) (bm_saw_cfea r) (bm_last_scene_ns r)
    (bm_burst_sent_ns r) (bm_listened r) (bm_announce_sent r) (bm_burst_just_ended r)
    (bm_start_ns r) (bm_rng r) (bm_seq r) v.

(** The received head-amp state, grouped. *)
Record headamp_rx := HeadampRx {
  ha_ch_base : Z;
  ha_sens : list Z;
  ha_pad : list Z;
  ha_phantom : list Z;
  ha_gain : list f32
}.
Definition set_ha_sens (v : list Z) (r : headamp_rx) : headamp_rx :=
  HeadampRx (ha_ch_base r) v (ha_pad r) (ha_phantom r) (ha_gain r).
Definition set_ha_pad (v : list Z) (r : headamp_rx) : headamp_rx :=
  HeadampRx (ha_ch_base r) (ha_sens r) v (ha_phantom r) (ha_gain r).
Definition set_ha_phantom (v : list Z) (r : headamp_rx) : headamp_rx :=
  HeadampRx (ha_ch_base r) (ha_sens r) (ha_pad r) v (ha_gain r).
Definition set_ha_gain (v : list f32) (r : headamp_rx) : headamp_rx :=
  HeadampRx (ha_ch_base r) (ha_sens r) (ha_pad r) (ha_phantom r) v.

(** [struct reac_slave], less the socket, the thread, its priority and the log tag. *)
Record reac_slave := Slave {
  sl_fsm : reac_fsm;
  sl_box_channels : Z;
  sl_sample_rate : Z;
  sl_src : list Z;
  sl_tx_ring : option reac_ring;
  sl_phy_up_seen : bool;
  sl_counter_offset : Z;
  sl_counter_locked : bool;
  sl_coldconnect_phase : Z;
  sl_bm : box_master_state;
  sl_ha : headamp_rx;
  sl_master_mac48 : Z;
  sl_rx_master_frames : Z;
  sl_tx_frames : Z;
  sl_tx_errors : Z;
  sl_established : bool;
  sl_model : option reac_box_model
}.
Definition set_sl_fsm (v : reac_fsm) (r : reac_slave) : reac_slave :=
  Slave v (sl_box_channels r) (sl_sample_rate r) (sl_src r) (sl_tx_ring r) (sl_phy_up_seen r)
    (sl_counter_offset r) (sl_counter_locked r) (sl_coldconnect_phase r) (sl_bm r) (sl_ha r)
    (sl_master_mac48 r) (sl_rx_master_frames r) (sl_tx_frames r) (sl_tx_errors r) (sl_established r)
    (sl_model r).
Definition set_sl_tx_ring (v : option reac_ring) (r : reac_slave) : reac_slave :=
  Slave (sl_fsm r) (sl_box_channels r) (sl_sample_rate r) (sl_src r) v (sl_phy_up_seen r)
    (sl_counter_offset r) (sl_counter_locked r) (sl_coldconnect_phase r) (sl_bm r) (sl_ha r)
    (sl_master_mac48 r) (sl_rx_master_frames r) (sl_tx_frames r) (sl_tx_errors r) (sl_established r)
    (sl_model r).
Definition set_sl_phy_up_seen (v : bool) (r : reac_slave) : reac_slave :=
  Slave (sl_fsm r) (sl_box_channels r) (sl_sample_rate r) (sl_src r) (sl_tx_ring r) v
    (sl_counter_offset r) (sl_counter_locked r) (sl_coldconnect_phase r) (sl_bm r) (sl_ha r)
    (sl_master_mac48 r) (sl_rx_master_frames r) (sl_tx_frames r) (sl_tx_errors r) (sl_established r)
    (sl_model r).
Definition set_sl_counter_offset (v : Z) (r : reac_slave) : reac_slave :=
  Slave (sl_fsm r) (sl_box_channels r) (sl_sample_rate r) (sl_src r) (sl_tx_ring r)
    (sl_phy_up_seen r) v (sl_counter_locked r) (sl_coldconnect_phase r) (sl_bm r) (sl_ha r)
    (sl_master_mac48 r) (sl_rx_master_frames r) (sl_tx_frames r) (sl_tx_errors r) (sl_established r)
    (sl_model r).
Definition set_sl_counter_locked (v : bool) (r : reac_slave) : reac_slave :=
  Slave (sl_fsm r) (sl_box_channels r) (sl_sample_rate r) (sl_src r) (sl_tx_ring r)
    (sl_phy_up_seen r) (sl_counter_offset r) v (sl_coldconnect_phase r) (sl_bm r) (sl_ha r)
    (sl_master_mac48 r) (sl_rx_master_frames r) (sl_tx_frames r) (sl_tx_errors r) (sl_established r)
    (sl_model r).
Definition set_sl_coldconnect_phase (v : Z) (r : reac_slave) : reac_slave :=
  Slave (sl_fsm r) (sl_box_channels r) (sl_sample_rate r) (sl_src r) (sl_tx_ring r)
    (sl_phy_up_seen r) (sl_counter_offset r) (sl_counter_locked r) v (sl_bm r) (sl_ha r)
    (sl_master_mac48 r) (sl_rx_master_frames r) (sl_tx_frames r) (sl_tx_errors r) (sl_established r)
    (sl_model r).
Definition set_sl_bm (v : box_master_state) (r : reac_slave) : reac_slave :=
  Slave (sl_fsm r) (sl_box_channels r) (sl_sample_rate r) (sl_src r) (sl_tx_ring r)
    (sl_phy_up_seen r) (sl_counter_offset r) (sl_counter_locked r) (sl_coldconnect_phase r) v
    (sl_ha r) (sl_master_mac48 r) (sl_rx_master_frames r) (sl_tx_frames r) (sl_tx_errors r)
    (sl_established r) (sl_model r).
Definition set_sl_ha (v : headamp_rx) (r : reac_slave) : reac_slave :=
  Slave (sl_fsm r) (sl_box_channels r) (sl_sample_rate r) (sl_src r) (sl_tx_ring r)
    (sl_phy_up_seen r) (sl_counter_offset r) (sl_counter_locked r) (sl_coldconnect_phase r)
    (sl_bm r) v (sl_master_mac48 r) (sl_rx_master_frames r) (sl_tx_frames r) (sl_tx_errors r)
    (sl_established r) (sl_model r).
Definition set_sl_master_mac48 (v : Z) (r : reac_slave) : reac_slave :=
  Slave (sl_fsm r) (sl_box_channels r) (sl_sample_rate r) (sl_src r) (sl_tx_ring r)
    (sl_phy_up_seen r) (sl_counter_offset r) (sl_counter_locked r) (sl_coldconnect_phase r)
    (sl_bm r) (sl_ha r) v (sl_rx_master_frames r) (sl_tx_frames r) (sl_tx_errors r)
    (sl_established r) (sl_model r).
Definition set_sl_rx_master_frames (v : Z) (r : reac_slave) : reac_slave :=
  Slave (sl_fsm r) (sl_box_channels r) (sl_sample_rate r) (sl_src r) (sl_tx_ring r)
    (sl_phy_up_seen r) (sl_counter_offset r) (sl_counter_locked r) (sl_coldconnect_phase r)
    (sl_bm r) (sl_ha r) (sl_master_mac48 r) v (sl_tx_frames r) (sl_tx_errors r) (sl_established r)
    (sl_model r).
Definition set_sl_tx_frames (v : Z) (r : reac_slave) : reac_slave :=
  Slave (sl_fsm r) (sl_box_channels r) (sl_sample_rate r) (sl_src r) (sl_tx_ring r)
    (sl_phy_up_seen r) (sl_counter_offset r) (sl_counter_locked r) (sl_coldconnect_phase r)
    (sl_bm r) (sl_ha r) (sl_master_mac48 r) (sl_rx_master_frames r) v (sl_tx_errors r)
    (sl_established r) (sl_model r).
Definition set_sl_tx_errors (v : Z) (r : reac_slave) : reac_slave :=
  Slave (sl_fsm r) (sl_box_channels r) (sl_sample_rate r) (sl_src r) (sl_tx_ring r)
    (sl_phy_up_seen r) (sl_counter_offset r) (sl_counter_locked r) (sl_coldconnect_phase r)
    (sl_bm r) (sl_ha r) (sl_master_mac48 r) (sl_rx_master_frames r) (sl_tx_frames r) v
    (sl_established r) (sl_model r).
Definition set_sl_established (v : bool) (r : reac_slave) : reac_slave :=
  Slave (sl_fsm r) (sl_box_channels r) (sl_sample_rate r) (sl_src r) (sl_tx_ring r)
    (sl_phy_up_seen r) (sl_counter_offset r) (sl_counter_locked r) (sl_coldconnect_phase r)
    (sl_bm r) (sl_ha r) (sl_master_mac48 r) (sl_rx_master_frames r) (sl_tx_frames r)
    (sl_tx_errors r) v (sl_model r).

Definition REAC_SLAVE_BOX_CHANNELS_DEFAULT : Z := 16.

(** What the caller configures; the interface name only matters for the source
    address it yields ([nic_mac]) when none is given. *)
Record reac_slave_cfg := SlaveCfg {
  cf_box_channels : Z; cf_sample_rate : Z; cf_src_mac : option (list Z); cf_box_master : bool;
  cf_box_master_frame_box : bool; cf_box_master_burst_chanmap : bool; cf_box_master_fill_noise : bool;
  cf_box_master_presilence_ms : Z; cf_model : option reac_box_model
}.

Definition slave_width (cfg : option reac_slave_cfg) : Z :=
  match cfg with
  | Some c =>
      match cf_model c with
      | Some _ => reac_box_model_upstream_width (cf_model c)
      | None => if 0 <? cf_box_channels c
                then (if 40 <? cf_box_channels c then 40 else cf_box_channels c)
                else REAC_SLAVE_BOX_CHANNELS_DEFAULT
      end
  | None => REAC_SLAVE_BOX_CHANNELS_DEFAULT
  end.

Definition slave_base (cfg : option reac_slave_cfg) : Z :=
  match cfg ≫= cf_model with
  | Some m => m_headamp_strap m * 0x10
  | None => if slave_width cfg =? 16 then 0x20 else 0x00
  end.

(** [nic_mac] is what [reac_mac_default_src] answers for the interface. *)
Definition reac_slave_fsm_init (cfg : option reac_slave_cfg) (nic_mac : list Z) : reac_slave :=
  let rate := from_option cf_sample_rate 0 cfg in
  let flag (f : reac_slave_cfg → bool) := from_option f false cfg in
  let fsm := if 0 <? rate then set_f_heartbeat_period (rate / REAC_SAMPLES_PER_PKT) reac_fsm_init
             else reac_fsm_init in
  let bm := BoxMaster (flag cf_box_master) (flag cf_box_master_frame_box) (flag cf_box_master_burst_chanmap)
              false false (flag cf_box_master_fill_noise) (from_option cf_box_master_presilence_ms 0 cfg)
              false 0 0 false false false 0 0x1234567 0 0 in
  let ha := HeadampRx (slave_base cfg) (zeros REAC_MAX_CHANNELS) (zeros REAC_MAX_CHANNELS)
              (zeros REAC_MAX_CHANNELS) (replicate (Z.to_nat REAC_MAX_CHANNELS) f32_one) in
  Slave fsm (slave_width cfg) rate (default nic_mac (cfg ≫= cf_src_mac)) None false 0 false 0 bm ha 0 0 0 0
    false (cfg ≫= cf_model).

(** One event into the FSM; the established flag follows its state. *)
Definition step_fsm (s : reac_slave) (ev : reac_fsm_event) (rx : option reac_ctrl_parsed)
    : reac_slave * reac_slave_decision :=
  let '(f, o) := reac_fsm_step (sl_fsm s) ev rx in
  (set_sl_established (bool_decide (f_state f = FSM_ESTABLISHED)) (set_sl_fsm f s), map_action o).

Definition reac_slave_step_rx (s : reac_slave) (rx : reac_ctrl_parsed) : reac_slave * reac_slave_decision :=
  step_fsm s FSM_EV_RX (Some rx).
Definition reac_slave_step_tick (s : reac_slave) : reac_slave * reac_slave_decision :=
  step_fsm s FSM_EV_TICK None.
Definition reac_slave_step_phy (s : reac_slave) (up : bool) : reac_slave * reac_slave_decision :=
  step_fsm s (if up then FSM_EV_PHY_UP else FSM_EV_PHY_DOWN) None.

(** ** Received head-amp records *)

(** [powf] is the C library's. *)
Definition reac_slave_headamp_gain (powf : f32 → f32 → f32) (sens_value : Z) (pad_on : bool) : f32 :=
  let gain_cdb := - reac_headamp_sens_cdb sens_value pad_on in
  powf (f32_of_Z 10) (f32_div (f32_of_Z gain_cdb) (f32_of_Z 2000)).

Definition wrf (l : list f32) (i : Z) (v : f32) : list f32 := <[Z.to_nat i := v]> l.

(** The state, and the input index or -1. *)
Definition reac_slave_headamp_rx (powf : f32 → f32 → f32) (s : reac_slave) (p : reac_ctrl_parsed)
    : reac_slave * Z :=
  let ha := sl_ha s in
  let idx := p_ch p - ha_ch_base ha in
  let regain ha := set_ha_gain (wrf (ha_gain ha) idx
      (reac_slave_headamp_gain powf (ha_sens ha).[idx] (negb ((ha_pad ha).[idx] =? 0)))) ha in
  if (idx <? 0) || (sl_box_channels s <=? idx) then (s, -1)
  else if p_param p =? REAC_HEADAMP_PHANTOM then
    (set_sl_ha (set_ha_phantom (wr (ha_phantom ha) idx (b2z (negb (p_value p =? 0)))) ha) s, idx)
  else if p_param p =? REAC_HEADAMP_PAD then
    (set_sl_ha (regain (set_ha_pad (wr (ha_pad ha) idx (b2z (negb (p_value p =? 0)))) ha)) s, idx)
  else if p_param p =? REAC_HEADAMP_SENS then
    (set_sl_ha (regain (set_ha_sens (wr (ha_sens ha) idx (p_value p)) ha)) s, idx)
  else (s, -1).

(** A unity gain leaves the block as it is. *)
Definition gain_row (g : f32) (b : list f32) : list f32 :=
  if SFeqb g f32_one then b else (λ x, f32_mul x g) <$> b.
Definition reac_slave_apply_input_gain (planar : list (list f32)) (gain : list f32) : list (list f32) :=
  imap (λ c b, gain_row (default f32_zero (gain !! c)) b) planar.

(** ** Staging *)

(** The slave and the planes of its inputs: silent without a ring or samples. *)
Definition stage_inputs (s : reac_slave) : reac_slave * list (list f32) :=
  let zeroed := replicate (Z.to_nat (sl_box_channels s)) (silence REAC_SAMPLES_PER_PKT) in
  match sl_tx_ring s with
  | None => (s, zeroed)
  | Some ring =>
      let '(ring, rows, got) := reac_ring_read_planar ring (sl_box_channels s) REAC_SAMPLES_PER_PKT in
      let planar := zip_with (λ z row, default z row) zeroed rows in
      (set_sl_tx_ring (Some ring) s,
       if got =? 0 then planar else reac_slave_apply_input_gain planar (ha_gain (sl_ha s)))
  end.

Definition as_planes (l : list (list f32)) : planes := Some <$> l.

(** ** What the box declares *)

Definition slave_build_block (s : reac_slave) (b : reac_box_block) (counter : Z) (planar : planes) (ns : Z)
    : option (list Z) :=
  let master := f_master_mac (sl_fsm s) in
  let src := sl_src s in
  let n := sl_box_channels s in
  match sl_model s with
  | Some _ => reac_ctrl_build_as (sl_model s) b master src counter planar ns
  | None =>
      match b with
      | REAC_BOX_BLOCK_CONFIG => reac_ctrl_build_config_announce master src counter n
      | REAC_BOX_BLOCK_CC0014 => reac_ctrl_build_coldconnect master src counter n planar ns
      | REAC_BOX_BLOCK_CC0013 => reac_ctrl_build_coldconnect_0013 master src counter n planar ns
      | REAC_BOX_BLOCK_CC0016 => reac_ctrl_build_coldconnect_0016 master src counter n planar ns
      | REAC_BOX_BLOCK_CC001A => reac_ctrl_build_coldconnect_001a master src counter n planar ns
      | REAC_BOX_BLOCK_IDENT_FIRST => reac_ctrl_build_identity_first master src counter n
      | REAC_BOX_BLOCK_IDENT_LAST => reac_ctrl_build_identity_last master src counter n
      end
  end.

(** ** The desk side: one frame per slot *)

(** A frame sent, and whether to the learned master or to everyone. *)
Record sent := Sent { sn_frame : list Z; sn_unicast : bool }.

Definition BCAST : list Z := fill 6 0xff.

Definition slave_filler (s : reac_slave) (planar : planes) : option (list Z) :=
  reac_ctrl_build_upstream_filler (f_master_mac (sl_fsm s)) (sl_src s) (f_counter (sl_fsm s))
    (sl_box_channels s) planar REAC_SAMPLES_PER_PKT.
Definition slave_heartbeat (s : reac_slave) : option (list Z) :=
  reac_ctrl_build_box_hb (f_master_mac (sl_fsm s)) (sl_src s) (f_counter (sl_fsm s)) (sl_box_channels s).

(** The escalation: the frame of the [phase]-th join slot. *)
Definition coldconnect_frame (s : reac_slave) (phase : Z) (planar : planes) : option (list Z) :=
  let counter := f_counter (sl_fsm s) in
  let block b := slave_build_block s b counter planar REAC_SAMPLES_PER_PKT in
  let silent b := slave_build_block s b counter [] 0 in
  let or_filler f := match f with Some _ => f | None => slave_filler s planar end in
  match phase mod 8 with
  | 1 => block REAC_BOX_BLOCK_CC0013
  | 2 => block REAC_BOX_BLOCK_CC0016
  | 3 => block REAC_BOX_BLOCK_CC001A
  | 4 => silent REAC_BOX_BLOCK_CONFIG
  | 5 => slave_heartbeat s
  | 6 => or_filler (silent REAC_BOX_BLOCK_IDENT_FIRST)
  | 7 => or_filler (silent REAC_BOX_BLOCK_IDENT_LAST)
  | _ => block REAC_BOX_BLOCK_CC0014
  end.

Definition unicast (f : option (list Z)) : option sent := (λ f, Sent f true) <$> f.

(** The switch of [emit_decision], off a box-master wire. *)
Definition emit_to_desk (s : reac_slave) (d : reac_slave_decision) : reac_slave * option sent :=
  match d_emit d with
  | REAC_SLAVE_EMIT_NONE => (s, None)
  | REAC_SLAVE_EMIT_FLOOD_FILLER =>
      let '(s, planar) := stage_inputs s in
      (s, (λ f, Sent f false) <$>
            reac_ctrl_build_flood_filler BCAST (sl_src s) (f_counter (sl_fsm s)) (sl_box_channels s)
              (as_planes planar) REAC_SAMPLES_PER_PKT)
  | REAC_SLAVE_EMIT_COLDCONNECT =>
      let '(s, planar) := stage_inputs s in
      if d_with_join d then
        (set_sl_coldconnect_phase (sl_coldconnect_phase s + 1) s,
         unicast (coldconnect_frame s (sl_coldconnect_phase s) (as_planes planar)))
      else (s, unicast (slave_filler s (as_planes planar)))
  | REAC_SLAVE_EMIT_UPSTREAM_AUDIO =>
      let '(s, planar) := stage_inputs s in
      (s, unicast (if d_with_heartbeat d then slave_heartbeat s else slave_filler s (as_planes planar)))
  | REAC_SLAVE_EMIT_HEARTBEAT => (s, unicast (slave_heartbeat s))
  end.

(** ** A wire a stagebox masters *)

Definition REAC_BM_LISTEN_MS : Z := 2500.
Definition REAC_BM_SCENE_QUIET_NS : Z := 200 * 1000000.
Definition REAC_BM_RETRY_NS : Z := 2 * 1000000000.
Definition REAC_BM_DESC_REQUESTING : Z := 0x52.
Definition REAC_BM_DESC_ESTABLISHED : Z := 0x7a.

Definition on_bm (f : box_master_state → box_master_state) (s : reac_slave) : reac_slave :=
  set_sl_bm (f (sl_bm s)) s.

(** The slave, and whether the opening window still holds the wire. *)
Definition bm_presilent (s : reac_slave) (now : Z) : reac_slave * bool :=
  let b := sl_bm s in
  if negb (bm_box_master b) then (s, false)
  else
    let hold := if 0 <? bm_presilence_ms b then bm_presilence_ms b else REAC_BM_LISTEN_MS in
    let b := if bm_start_ns b =? 0 then set_bm_start_ns now b else b in
    let s := set_sl_bm b s in
    if u64 (now - bm_start_ns b) <? hold * 1000000 then (s, true)
    else if negb (bm_listened b) then
      let s := set_sl_bm (set_bm_listened true b) s in
      (if negb (bm_saw_cfea b) then set_sl_fsm (set_f_flood_frames 0 (sl_fsm s)) s else s, false)
    else (s, false).

(** The generator's next state and the noise sample it yields. *)
Definition bm_noise (rng : Z) : Z * f32 :=
  let rng := u32 (rng * 1103515245 + 12345) in
  (rng, f32_mul (f32_div (f32_sub (f32_of_Z (Z.land (Z.shiftr rng 8) 0xffff)) (f32_of_Z 32768)) (f32_of_Z 32768))
          f32_milli).

Definition bm_fill_row (rng : Z) (row : list f32) : Z * list f32 :=
  foldl (λ '(rng, acc) x, let '(rng, v) := bm_noise rng in (rng, acc ++ [f32_add x v])) (rng, []) row.
Definition bm_fill (rng : Z) (planar : list (list f32)) : Z * list (list f32) :=
  foldl (λ '(rng, acc) row, let '(rng, row) := bm_fill_row rng row in (rng, acc ++ [row])) (rng, []) planar.

Definition bm_scene_quiet (b : box_master_state) (now : Z) : bool :=
  if bm_last_scene_ns b =? 0 then true else REAC_BM_SCENE_QUIET_NS <=? u64 (now - bm_last_scene_ns b).

Definition bm_mark_descriptor (frame : list Z) (d : Z) : list Z :=
  foldl (λ f i, wr (wr f (18 + i * 2) 0x00) (18 + i * 2 + 1) d) frame (zseq 0 16).

Definition bm_downstream (s : reac_slave) (planar : planes) : list Z :=
  reac_downstream_build planar (sl_box_channels s) REAC_SAMPLES_PER_PKT (f_counter (sl_fsm s)) (sl_src s).

(** The control frame's marker and block onto the carrier, addressed to [dst]. *)
Definition bm_stamp (frame ctl dst : list Z) : list Z :=
  reac_ctrl_checksum_apply (blit (blit frame 0 dst) 16 (slice ctl 16 34)).

Definition bm_announce (s : reac_slave) : option (list Z) :=
  reac_ctrl_build_config_announce_box_master (f_master_mac (sl_fsm s)) (sl_src s) (f_counter (sl_fsm s))
    (sl_box_channels s).

(** A frame of the burst, with the [n] frames it has left. *)
Definition bm_burst_frame (s : reac_slave) (n : Z) (planar : planes) : option (list Z) :=
  let master := f_master_mac (sl_fsm s) in
  let build f := f master (sl_src s) (f_counter (sl_fsm s)) (sl_box_channels s) planar REAC_SAMPLES_PER_PKT in
  if n =? 3 then build reac_ctrl_build_coldconnect
  else if n =? 2 then build reac_ctrl_build_coldconnect_head
  else build reac_ctrl_build_coldconnect_0013.

(** The start of a burst on the very slot that arms it. *)
Definition bm_burst_first (s : reac_slave) (planar : planes) (cl : option (list Z))
    : reac_slave * option (list Z) :=
  if bm_burst (sl_bm s) =? 3 then (on_bm (set_bm_burst 2) s, bm_burst_frame s 3 planar) else (s, cl).

(** The chanmap-armed enrolment: one announce, then wait for the box. *)
Definition bm_join_chanmap (s : reac_slave) (planar : planes) : reac_slave * option (list Z) :=
  let b := sl_bm s in
  let '(s, cl) :=
    if negb (bm_announced b) then
      (set_sl_bm (set_bm_chanmap_hit false (set_bm_announced true (set_bm_announce_sent true b))) s, bm_announce s)
    else if bm_chanmap_hit b then (set_sl_bm (set_bm_burst 3 (set_bm_chanmap_hit false b)) s, None)
    else (s, None) in
  let '(s, cl) := bm_burst_first s planar cl in
  let b := set_bm_seq (bm_seq (sl_bm s) + 1) (sl_bm s) in
  (set_sl_bm (if 24 <=? bm_seq b then set_bm_announced false (set_bm_seq 0 b) else b) s, cl).

(** The grid-armed enrolment: the announce at slot 0, the burst at slot 2. *)
Definition bm_join_grid (s : reac_slave) (now : Z) : reac_slave * option (list Z) :=
  if (bm_seq (sl_bm s) =? 0) && bm_scene_quiet (sl_bm s) now
  then (on_bm (set_bm_announce_sent true) s, bm_announce s)
  else if bm_seq (sl_bm s) =? 2 then (on_bm (set_bm_burst 3) s, None)
  else (s, None).

(** After the burst, wait; [t1] and [t2] are the two readings of the clock. *)
Definition bm_pace (b : box_master_state) (t1 t2 : Z) : box_master_state :=
  let b := if (bm_burst b =? 0) && (3 <=? bm_seq b) && (bm_burst_sent_ns b =? 0)
           then set_bm_burst_sent_ns t1 b else b in
  if negb (bm_burst_sent_ns b =? 0) then
    if REAC_BM_RETRY_NS <=? u64 (t2 - bm_burst_sent_ns b)
    then set_bm_seq 0 (set_bm_burst_sent_ns 0 b) else b
  else
    let b := set_bm_seq (bm_seq b + 1) b in
    if 8 <=? bm_seq b then set_bm_seq 0 b else b.

(** The readings a slot takes of the monotonic clock, in the order of the code. *)
Record clock_readings := Clk { t_presilent : Z; t_scene : Z; t_sent : Z; t_retry : Z }.

(** The control frame that replaces the slot's block, if any. *)
Definition bm_control (s : reac_slave) (d : reac_slave_decision) (planar : planes) (clk : clock_readings)
    : reac_slave * option (list Z) :=
  match d_emit d with
  | REAC_SLAVE_EMIT_COLDCONNECT =>
      if bm_burst_just_ended (sl_bm s) then
        (on_bm (set_bm_burst_just_ended false) s, slave_heartbeat s)
      else if 0 <? bm_burst (sl_bm s) then
        let n := bm_burst (sl_bm s) in
        let s' := if (n =? 3) || (n =? 2) then s else on_bm (set_bm_burst_just_ended true) s in
        (on_bm (set_bm_burst (n - 1)) s', bm_burst_frame s n planar)
      else if d_with_join d then
        let '(s, cl) := if bm_burst_chanmap (sl_bm s) then bm_join_chanmap s planar
                        else bm_join_grid s (t_scene clk) in
        let '(s, cl) := bm_burst_first s planar cl in
        (on_bm (λ b, bm_pace b (t_sent clk) (t_retry clk)) s, cl)
      else (s, None)
  | REAC_SLAVE_EMIT_HEARTBEAT => (s, slave_heartbeat s)
  | _ => (s, if d_with_heartbeat d then slave_heartbeat s else None)
  end.

(** The carrier of the slot, and whether it goes to the master alone. *)
Definition bm_carrier (s : reac_slave) (flooding linked : bool) (planar : planes) : option (list Z) * bool :=
  let sent_announce := bm_announce_sent (sl_bm s) in
  let master := f_master_mac (sl_fsm s) in
  let flood dst := reac_ctrl_build_flood_filler dst (sl_src s) (f_counter (sl_fsm s)) (sl_box_channels s) planar
                     REAC_SAMPLES_PER_PKT in
  if bm_frame_box (sl_bm s) then
    (if flooding then flood BCAST
     else if linked then slave_filler s planar
     else (λ f, if sent_announce then bm_mark_descriptor f REAC_BM_DESC_REQUESTING else f) <$> flood master,
     negb flooding)
  else
    let f := bm_downstream s planar in
    (Some (if linked then bm_mark_descriptor f REAC_BM_DESC_ESTABLISHED
           else if sent_announce then bm_mark_descriptor f REAC_BM_DESC_REQUESTING else f), false).

(** The first arm of [emit_decision]. *)
Definition emit_to_box (s : reac_slave) (d : reac_slave_decision) (clk : clock_readings)
    : reac_slave * option sent :=
  let flooding := bool_decide (d_emit d = REAC_SLAVE_EMIT_FLOOD_FILLER) in
  let '(s, rows) := stage_inputs s in
  let linked := bool_decide (f_state (sl_fsm s) = FSM_ESTABLISHED) in
  let '(s, silent) := bm_presilent s (t_presilent clk) in
  if silent then (s, None)
  else
    let '(s, rows) := if negb linked && bm_fill_noise (sl_bm s)
                      then let '(rng, rows) := bm_fill (bm_rng (sl_bm s)) rows in (on_bm (set_bm_rng rng) s, rows)
                      else (s, rows) in
    let planar := as_planes rows in
    let '(frame, uni) := bm_carrier s flooding linked planar in
    let '(s, cl) := bm_control s d planar clk in
    match cl with
    | Some ctl => (s, (λ f, Sent (bm_stamp f ctl (f_master_mac (sl_fsm s))) true) <$> frame)
    | None => (s, (λ f, Sent f uni) <$> frame)
    end.

(** ** One turn of the engine *)

(** [emit_decision] and its [sendto], which succeeds or not. *)
Definition emit_decision (s : reac_slave) (d : reac_slave_decision) (clk : clock_readings) (send_ok : bool)
    : reac_slave * option sent :=
  let '(s, out) :=
    if bm_box_master (sl_bm s) && negb (bool_decide (d_emit d = REAC_SLAVE_EMIT_NONE))
    then emit_to_box s d clk else emit_to_desk s d in
  match out with
  | Some _ => (if send_ok then set_sl_tx_frames (u64 (sl_tx_frames s + 1)) s
               else set_sl_tx_errors (u64 (sl_tx_errors s + 1)) s, out)
  | None => (s, None)
  end.

(** What a received head-amp record does, its inner checksum checked first. *)
Definition slave_headamp (powf : f32 → f32 → f32) (s : reac_slave) (p : reac_ctrl_parsed) (frame : list Z)
    : reac_slave :=
  if bool_decide (p_kind p = REAC_CTRL_HEADAMP) && reac_ctrl_headamp_record_verify frame
  then (reac_slave_headamp_rx powf s p).1 else s.

(** What the master of a box-master wire is seen doing. *)
Definition slave_watch (s : reac_slave) (p : reac_ctrl_parsed) (now : Z) : reac_slave :=
  let s := if bm_burst_chanmap (sl_bm s) && bool_decide (p_kind p = REAC_CTRL_MASTER_HB)
           then on_bm (set_bm_chanmap_hit true) s else s in
  if negb (bm_box_master (sl_bm s)) then s
  else
    let s := if bool_decide (p_kind p = REAC_CTRL_MASTER_ANNOUNCE) && negb (bm_saw_cfea (sl_bm s)) then
               let s := on_bm (set_bm_saw_cfea true) s in
               if bool_decide (f_state (sl_fsm s) = FSM_FLOOD_ANNOUNCE)
               then set_sl_fsm (set_f_flood_frames REAC_FSM_FLOOD_BURST (sl_fsm s)) s else s
             else s in
    if bool_decide (p_kind p = REAC_CTRL_SCENE_TRANSFER) then on_bm (set_bm_last_scene_ns now) s else s.

(** The upstream counter follows the counter of the master's frame. *)
Definition slave_follow (s : reac_slave) (p : reac_ctrl_parsed) : reac_slave :=
  let f := sl_fsm s in
  let s := if f_have_master f then set_sl_master_mac48 (reac_mac48_pack (Some (f_master_mac f))) s else s in
  if f_have_master f && zeqb (p_src p) (f_master_mac f) then
    let s := if negb (sl_counter_locked s)
             then set_sl_counter_locked true (set_sl_counter_offset (u16 (f_counter f - p_counter p)) s) else s in
    set_sl_fsm (set_f_counter (u16 (p_counter p + sl_counter_offset s)) f) s
  else s.

(** What [recv] gave: a frame, nothing in time, an interruption, or an error
    that ends the loop. *)
Inductive slave_input := RX_FRAME (frame : list Z) | RX_TIMEOUT | RX_INTR | RX_DEAD.

Record turn_env := Env { env_phy_up : bool; env_clk_phy : clock_readings; env_send_phy : bool;
                         env_now : Z; env_clk : clock_readings; env_send : bool }.

(** A link change is applied first; a link that came up floods at once. *)
Definition slave_phy (s : reac_slave) (e : turn_env) : reac_slave * list sent :=
  if bool_decide (env_phy_up e = sl_phy_up_seen s) then (s, [])
  else
    let '(s, d) := reac_slave_step_phy s (env_phy_up e) in
    let s := set_sl_phy_up_seen (env_phy_up e) s in
    if env_phy_up e then
      let '(s, out) := emit_decision (set_sl_counter_locked false s) d (env_clk_phy e) (env_send_phy e) in
      (s, option_list out)
    else (s, []).

(** A received frame. *)
Definition slave_frame (powf : f32 → f32 → f32) (s : reac_slave) (frame : list Z) (e : turn_env)
    : reac_slave * option sent :=
  if negb (reac_frame_is_reac (Some frame) (zlen frame)) then (s, None)
  else
    let p := reac_ctrl_parse frame (zlen frame) in
    let s := slave_headamp powf s p frame in
    if zeqb (p_src p) (sl_src s) then (s, None)
    else
      let s := slave_watch s p (env_now e) in
      let s := set_sl_rx_master_frames (u64 (sl_rx_master_frames s + 1)) s in
      let '(s, d) := reac_slave_step_rx s p in
      emit_decision (slave_follow s p) d (env_clk e) (env_send e).

(** One iteration of [slave_loop]: the state, the frames sent, and whether the
    loop goes on. *)
Definition slave_turn (powf : f32 → f32 → f32) (s : reac_slave) (e : turn_env) (i : slave_input)
    : reac_slave * list sent * bool :=
  let '(s, up) := slave_phy s e in
  match i with
  | RX_FRAME frame =>
      let '(s, out) := slave_frame powf s frame e in (s, up ++ option_list out, true)
  | RX_TIMEOUT =>
      let '(s, d) := reac_slave_step_tick s in
      let '(s, out) := emit_decision s d (env_clk e) (env_send e) in (s, up ++ option_list out, true)
  | RX_INTR => (s, up, true)
  | RX_DEAD => (s, up, false)
  end.
