(* ===== verification/SlaveTx.v ===== *)
(** * SlaveTx: what the slave engine puts on the wire

    The theorems of [Slave] about its transmissions: the counter of every frame
    follows the master's, and every frame it sends to a desk is heard by that
    desk as what the handshake means by it. *)

From S2P Require Import Prelude Wire Sample Codec CtrlBlk Identity BoxModel BoxFacts.
From S2P Require Import SlaveFsm MasterFsm CtrlFrames Link Ring Slave.
Local Open Scope Z_scope.

(** ** The header of a frame *)

(** A frame's addresses, ethertype and counter. *)
Definition headed (frame dst src : list Z) (counter : Z) : Prop :=
  slice frame 0 6 = dst ∧ slice frame 6 6 = src ∧ frame.[12] = 0x88 ∧ frame.[13] = 0x19 ∧
  frame.[14] = u8 counter ∧ frame.[15] = u8 (Z.shiftr counter 8).

Lemma headed_counter frame dst src counter :
  headed frame dst src counter → reac_frame_counter frame = u16 counter.
Proof.
  intros (_ & _ & _ & _ & H14 & H15). unfold reac_frame_counter, REAC_HDR_COUNTER_OFF.
  change (14 + 1) with 15. rewrite H14, H15, Z.shiftr_div_pow2 by lia. unfold u8, u16.
  rewrite lor_shift8; [lia|unfold is_byte; lia|lia].
Qed.

(** Whatever is written from the type word on leaves the header. *)
Lemma headed_same f g dst src counter :
  headed f dst src counter → zlen g = zlen f → (∀ i, 0 ≤ i < 16 → g.[i] = f.[i]) → headed g dst src counter.
Proof.
  intros (H1 & H2 & H3 & H4 & H5 & H6) Hz He. unfold headed. rewrite !He by lia. split_and!; try done.
  - rewrite <- H1. apply slice_ext; [done|lia|]. intros i Hi. apply He. lia.
  - rewrite <- H2. apply slice_ext; [done|lia|]. intros i Hi. apply He. lia.
Qed.

Lemma put_hdr_headed f dst src counter t0 t1 :
  18 ≤ zlen f → zlen dst = 6 → zlen src = 6 → headed (put_hdr f dst src counter t0 t1) dst src counter.
Proof.
  intros Hf Hd Hs. unfold put_hdr, CNT_OFF, TYPE_OFF. split_and!.
  - apply buf_ext; [zl|]. intros i Hi. rewrite zlen_slice in Hi. autorewrite with zlen in Hi.
    rewrite rd_slice by lia. rds. f_equal; lia.
  - apply buf_ext; [zl|]. intros i Hi. rewrite zlen_slice in Hi. autorewrite with zlen in Hi.
    rewrite rd_slice by lia. rds. f_equal; lia.
  - by rds.
  - by rds.
  - rds. by rewrite u8_land_ff.
  - by rds.
Qed.

Lemma emit_len_ok f m n :
  cf_len f ≠ LEN_DOWNSTREAM → reac_box_width_ok n = true → 124 ≤ emit_len f m n.
Proof.
  intros Hf Hn. pose proof (proj1 (box_width_ok_iff n) Hn) as Hn'.
  pose proof (proj1 (box_width_ok_iff _) (width_row_ok n Hn)) as Hm'.
  unfold emit_len, reac_ctrl_box_frame_len, AUDIO_OFF, REAC_SAMPLES_PER_PKT, REAC_RESOLUTION.
  destruct (cf_len f); [lia| |done]. destruct m; simpl; lia.
Qed.

Lemma emit_headed f m dst src counter n planar ns frame :
  ctrl_emit_as f m dst src counter n None planar ns = Some frame →
  cf_len f ≠ LEN_DOWNSTREAM → cf_cksum f ≠ CKSUM_RECORD →
  reac_box_width_ok n = true → zlen dst = 6 → zlen src = 6 →
  headed frame dst src counter ∧ 124 ≤ zlen frame.
Proof.
  intros He Hf Hc Hn Hd Hs. pose proof (emit_len_ok f m n Hf Hn) as Hlen. unfold ctrl_emit_as in He.
  destruct (_ && negb _) in He; [done|]. destruct (_ && _ && negb _) in He; [done|].
  destruct (negb _) in He; [done|]. injection He as <-.
  set (len := emit_len f m n) in *. set (hdr := put_hdr _ _ _ _ _ _).
  assert (Hh : headed hdr dst src counter) by (apply put_hdr_headed; [zl|done|done]).
  assert (Hz : zlen hdr = len) by (subst hdr; rewrite zlen_put_hdr; zl).
  clearbody hdr. unfold ctrl_lay_block. set (laid := blit hdr _ _).
  set (aud := if cf_audio f then _ else laid).
  assert (Ha : zlen aud = len ∧ ∀ i, 0 ≤ i < 16 → aud.[i] = hdr.[i]).
  { assert (Hl : zlen laid = len ∧ ∀ i, 0 ≤ i < 16 → laid.[i] = hdr.[i]).
    { subst laid. split; [zl|]. intros i Hi. unfold REAC_CTRL_BLOCK_OFF. by rewrite rd_blit_out by lia. }
    subst aud. destruct (cf_audio f); [|done]. split; [zl|]. intros i Hi. unfold AUDIO_OFF.
    rewrite rd_braid_encode_out; [by apply Hl|by apply box_width_ok_iff|lia..]. }
  destruct Ha as [Hza Ha]. set (fin := ctrl_finish aud f).
  assert (Hfin : zlen fin = len ∧ ∀ i, 0 ≤ i < 16 → fin.[i] = hdr.[i]).
  { subst fin. unfold ctrl_finish, REAC_CTRL_BLOCK_OFF. destruct (cf_cksum f); [done| |done].
    split; [by rewrite zlen_block_stamp|]. intros i Hi. rewrite rd_block_stamp_ne by lia. by apply Ha. }
  destruct Hfin as [Hzf Hfin]. split; [|zl].
  apply (headed_same hdr); [done|zl|]. intros i Hi. rewrite !rd_wr_ne by lia. by apply Hfin.
Qed.

(** Each frame of the table is addressed and counted as asked. *)
Lemma row_headed id m dst src counter n planar ns frame :
  ctrl_emit_as (CTRL_FRAMES id) m dst src counter n None planar ns = Some frame →
  id ≠ CTRL_HEADAMP → reac_box_width_ok n = true → zlen dst = 6 → zlen src = 6 →
  headed frame dst src counter ∧ 124 ≤ zlen frame.
Proof.
  intros He Hid Hn Hd Hs. apply (emit_headed _ m dst src counter n planar ns frame He); try done;
    clear He; destruct id; simpl; congruence.
Qed.

(** ** What transmitting leaves alone *)

(** The two states differ at most in the ring, the courtship phase, the
    box-master bookkeeping, the flood count and the diagnostics. *)
Record steady (s t : reac_slave) : Prop := Steady {
  st_width : sl_box_channels t = sl_box_channels s; st_src : sl_src t = sl_src s;
  st_model : sl_model t = sl_model s; st_ha : sl_ha t = sl_ha s;
  st_offset : sl_counter_offset t = sl_counter_offset s;
  st_locked : sl_counter_locked t = sl_counter_locked s;
  st_mac : f_master_mac (sl_fsm t) = f_master_mac (sl_fsm s);
  st_have : f_have_master (sl_fsm t) = f_have_master (sl_fsm s);
  st_counter : f_counter (sl_fsm t) = f_counter (sl_fsm s);
  st_state : f_state (sl_fsm t) = f_state (sl_fsm s)
}.

#[global] Instance steady_refl : Reflexive steady.
Proof. by intros s. Qed.
#[global] Instance steady_trans : Transitive steady.
Proof. intros s t u [] []. split; congruence. Qed.

Lemma steady_on_bm f s : steady s (on_bm f s).
Proof. done. Qed.

Lemma steady_stage s : steady s (stage_inputs s).1.
Proof.
  unfold stage_inputs. destruct (sl_tx_ring s); [|done]. by destruct (reac_ring_read_planar _ _ _) as [[? ?] ?].
Qed.

Lemma steady_presilent s now : steady s (bm_presilent s now).1.
Proof. unfold bm_presilent. by repeat case_match. Qed.

Lemma steady_burst_first s planar cl : steady s (bm_burst_first s planar cl).1.
Proof. unfold bm_burst_first. by case_match. Qed.

Lemma steady_control s d planar clk : steady s (bm_control s d planar clk).1.
Proof.
  unfold bm_control. destruct (d_emit d); try done. destruct (bm_burst_just_ended _); [done|].
  destruct (0 <? _); [by destruct (_ || _)|]. destruct (d_with_join d); [|done].
  assert (Hj : steady s (if bm_burst_chanmap (sl_bm s) then bm_join_chanmap s planar
                         else bm_join_grid s (t_scene clk)).1).
  { destruct (bm_burst_chanmap _).
    - unfold bm_join_chanmap. set (r := if negb _ then _ else _).
      assert (Hr : steady s r.1) by (subst r; by repeat case_match). destruct r as [t cl]. simpl in Hr.
      pose proof (steady_burst_first t planar cl) as Hb. destruct (bm_burst_first t planar cl) as [u cl'].
      simpl in Hb. etransitivity; [exact Hr|]. by etransitivity; [exact Hb|].
    - unfold bm_join_grid. by repeat case_match. }
  destruct (if bm_burst_chanmap _ then _ else _) as [t cl]. simpl in Hj.
  pose proof (steady_burst_first t planar cl) as Hb. destruct (bm_burst_first t planar cl) as [u cl'].
  simpl in Hb. etransitivity; [exact Hj|]. by etransitivity; [exact Hb|].
Qed.

Lemma steady_to_box s d clk : steady s (emit_to_box s d clk).1.
Proof.
  unfold emit_to_box. pose proof (steady_stage s) as H1. destruct (stage_inputs s) as [t rows].
  pose proof (steady_presilent t (t_presilent clk)) as H2. destruct (bm_presilent t _) as [u silent].
  simpl in H1, H2. assert (H : steady s u) by (by etransitivity). destruct silent; [done|].
  destruct (if negb _ && _ then _ else _) as [v rows'] eqn:Ev.
  assert (Hv : steady s v).
  { etransitivity; [exact H|]. destruct (_ && _); [|by injection Ev as <-].
    destruct (bm_fill _ _) as [rng r2]. by injection Ev as <- _. }
  destruct (bm_carrier v _ _ _) as [frame uni].
  pose proof (steady_control v d (as_planes rows') clk) as Hc. destruct (bm_control v d _ clk) as [w cl].
  simpl in Hc. destruct cl; simpl; by etransitivity.
Qed.

Lemma steady_to_desk s d : steady s (emit_to_desk s d).1.
Proof.
  unfold emit_to_desk. pose proof (steady_stage s) as H1. destruct (stage_inputs s) as [t rows].
  simpl in H1. destruct (d_emit d); try done.
  destruct (d_with_join d); [|done]. by etransitivity; [exact H1|].
Qed.

Lemma steady_emit s d clk ok : steady s (emit_decision s d clk ok).1.
Proof.
  unfold emit_decision. set (r := if _ && _ then _ else _).
  assert (Hr : steady s r.1) by (subst r; case_match; [apply steady_to_box|apply steady_to_desk]).
  destruct r as [t out]. simpl in Hr. destruct out; [|done].
  etransitivity; [exact Hr|]. by destruct ok.
Qed.

(** ** Every frame is addressed, sourced and counted *)

Record slave_ok (s : reac_slave) : Prop := {
  ok_width : reac_box_width_ok (sl_box_channels s) = true;
  ok_src : zlen (sl_src s) = 6; ok_mac : zlen (f_master_mac (sl_fsm s)) = 6;
  ok_model : is_Some (sl_model s) → reac_box_model_upstream_width (sl_model s) = sl_box_channels s;
  ok_counter : 0 ≤ f_counter (sl_fsm s) < 65536
}.

Lemma slave_ok_steady s t : steady s t → slave_ok s → slave_ok t.
Proof. intros [E1 E2 E3 _ _ _ E4 _ E5 _] []. split; rewrite ?E1, ?E2, ?E3, ?E4, ?E5; done. Qed.

Definition headed_by (s : reac_slave) (dst frame : list Z) : Prop :=
  headed frame dst (sl_src s) (f_counter (sl_fsm s)) ∧ 124 ≤ zlen frame.
Definition addressed (s : reac_slave) (f : sent) : Prop :=
  headed_by s (if sn_unicast f then f_master_mac (sl_fsm s) else BCAST) (sn_frame f).

(** A builder of this library, called with the slave's own addresses. *)
Ltac by_row Hok := intros ?; destruct Hok; eapply row_headed; try eassumption; done.

Section Built.
Context (s : reac_slave) (Hok : slave_ok s).
Let master : list Z := f_master_mac (sl_fsm s).

Lemma filler_headed planar frame : slave_filler s planar = Some frame → headed_by s master frame.
Proof using Hok. by_row Hok. Qed.
Lemma heartbeat_headed frame : slave_heartbeat s = Some frame → headed_by s master frame.
Proof using Hok. by_row Hok. Qed.
Lemma flood_headed dst planar frame :
  zlen dst = 6 →
  reac_ctrl_build_flood_filler dst (sl_src s) (f_counter (sl_fsm s)) (sl_box_channels s) planar
    REAC_SAMPLES_PER_PKT = Some frame → headed_by s dst frame.
Proof using Hok. intros Hd. by_row Hok. Qed.

Lemma block_headed b planar ns frame :
  slave_build_block s b (f_counter (sl_fsm s)) planar ns = Some frame → headed_by s master frame.
Proof using Hok.
  unfold slave_build_block, reac_ctrl_build_as. destruct (sl_model s) as [m|] eqn:Em.
  - intros He. destruct Hok as [Hw Hs Hm Hmod _]. rewrite Em in Hmod. rewrite Hmod in He by done.
    eapply row_headed; [exact He|by destruct b|done..].
  - destruct b; by_row Hok.
Qed.

Lemma coldconnect_headed phase planar frame :
  coldconnect_frame s phase planar = Some frame → headed_by s master frame.
Proof using Hok.
  unfold coldconnect_frame. intros H.
  repeat (case_match; try (by eapply block_headed); try (by eapply heartbeat_headed); try (by eapply filler_headed)).
  all: simplify_eq; by eapply block_headed.
Qed.

(** The mixer's frame, and what is stamped on it. *)
Lemma downstream_headed planar : headed_by s BCAST (bm_downstream s planar) ∧ zlen (bm_downstream s planar) = 1492.
Proof using Hok.
  destruct Hok as [Hw Hs Hm _ Hc]. unfold bm_downstream, reac_downstream_build, headed_by.
  unfold REAC_FRAME_BYTES, REAC_HDR_COUNTER_OFF, REAC_AUDIO_OFFSET. change (14 + 1) with 15.
  set (base := wr _ 15 _).
  assert (Hb : headed base BCAST (sl_src s) (f_counter (sl_fsm s)) ∧ zlen base = 1492).
  { subst base. split; [|zl]. split_and!.
    - unfold BCAST. apply buf_ext; [zl|]. intros i Hi. rewrite zlen_slice in Hi. autorewrite with zlen in Hi.
      rewrite rd_slice by lia. rds. f_equal; lia.
    - apply buf_ext; [zl|]. intros i Hi. rewrite zlen_slice in Hi. autorewrite with zlen in Hi.
      rewrite rd_slice by lia. rds. f_equal; lia.
    - by rds.
    - by rds.
    - rds. apply u8_land_ff.
    - rds. by rewrite u8_land_ff. }
  destruct Hb as [Hb Hz]. clearbody base. split; [split|]; [|zl..].
  apply (headed_same base); [done|zl|]. intros i Hi.
  rewrite !rd_wr_ne by lia. by rewrite rd_braid_encode_out by (reflexivity || lia).
Qed.

Lemma mark_keeps frame d :
  zlen (bm_mark_descriptor frame d) = zlen frame ∧
  ∀ i, 0 ≤ i < 16 → (bm_mark_descriptor frame d).[i] = frame.[i].
Proof.
  unfold bm_mark_descriptor. change (zseq 0 16) with [0;1;2;3;4;5;6;7;8;9;10;11;12;13;14;15]. cbn [foldl].
  split; [by rewrite !zlen_wr|]. intros i Hi. by rewrite !rd_wr_ne by lia.
Qed.

Lemma mark_headed dst frame d : headed_by s dst frame → headed_by s dst (bm_mark_descriptor frame d).
Proof using Hok.
  intros [Hh Hl]. destruct (mark_keeps frame d) as [Hz He]. split; [|lia]. by eapply headed_same.
Qed.

Lemma stamp_headed dst frame ctl :
  headed_by s dst frame → headed_by s master (bm_stamp frame ctl master).
Proof using Hok.
  intros [(H1 & H2 & H3 & H4 & H5 & H6) Hl]. pose proof (ok_mac s Hok) as Hm. fold master in Hm.
  unfold bm_stamp, reac_ctrl_checksum_apply. split; [|rewrite zlen_block_stamp; zl].
  assert (Hrd : ∀ i, 0 ≤ i < 16 →
    (reac_ctrl_block_cksum_stamp (blit (blit frame 0 master) 16 (slice ctl 16 34)) REAC_CTRL_BLOCK_OFF).[i]
    = (blit frame 0 master).[i]).
  { intros i Hi. unfold REAC_CTRL_BLOCK_OFF. rewrite rd_block_stamp_ne by lia. by rewrite rd_blit_out by lia. }
  unfold headed. rewrite !Hrd by lia. rewrite !rd_blit_out by lia. split_and!; try done.
  - apply buf_ext; [rewrite zlen_slice, zlen_block_stamp; zl|]. intros i Hi.
    rewrite zlen_slice in Hi. rewrite rd_slice, Hrd by lia. rewrite rd_blit_in by lia. f_equal; lia.
  - rewrite <- H2. apply buf_ext; [rewrite !zlen_slice, zlen_block_stamp; zl|]. intros i Hi.
    rewrite zlen_slice in Hi. rewrite !rd_slice, Hrd by lia. by rewrite rd_blit_out by lia.
Qed.
End Built.

Lemma addressed_steady s t f : steady s t → addressed t f → addressed s f.
Proof. intros [_ E2 _ _ _ _ E4 _ E5 _]. unfold addressed, headed_by. by rewrite E2, E4, E5. Qed.

Lemma desk_addressed s d f : slave_ok s → (emit_to_desk s d).2 = Some f → addressed s f.
Proof.
  intros Hok. unfold emit_to_desk. pose proof (steady_stage s) as Hs.
  destruct (stage_inputs s) as [t rows]. simpl in Hs. pose proof (slave_ok_steady s t Hs Hok) as Ht.
  assert (Hu : ∀ o, unicast o = Some f → ∃ g, o = Some g ∧ f = Sent g true).
  { intros [g|] E; [|done]. injection E as <-. by exists g. }
  destruct (d_emit d); [done|..].
  - cbn [snd]. intros (g & Hg & ->)%fmap_Some. apply (addressed_steady s t); [done|]. by eapply flood_headed.
  - intros H. apply (addressed_steady s t); [done|].
    destruct (d_with_join d); apply Hu in H as (g & Hg & ->); [by eapply coldconnect_headed|by eapply filler_headed].
  - intros (g & Hg & ->)%Hu. apply (addressed_steady s t); [done|].
    destruct (d_with_heartbeat d); [by eapply heartbeat_headed|by eapply filler_headed].
  - intros (g & Hg & ->)%Hu. by eapply heartbeat_headed.
Qed.

Lemma carrier_headed s flooding linked planar frame uni :
  slave_ok s → bm_carrier s flooding linked planar = (Some frame, uni) →
  headed_by s (if uni then f_master_mac (sl_fsm s) else BCAST) frame.
Proof.
  intros Hok. unfold bm_carrier. destruct (bm_frame_box _).
  - destruct flooding; intros [= H <-]; simpl; [by eapply flood_headed|].
    destruct linked; [by eapply filler_headed|]. apply fmap_Some in H as (g & Hg & ->).
    pose proof (flood_headed s Hok _ _ g (ok_mac s Hok) Hg). case_match; [by apply mark_headed|done].
  - pose proof (proj1 (downstream_headed s Hok planar)). intros [= <- <-].
    destruct linked; [exact (mark_headed s Hok _ _ _ H)|].
    destruct (bm_announce_sent _); [exact (mark_headed s Hok _ _ _ H)|exact H].
Qed.

Lemma box_addressed s d clk f : slave_ok s → (emit_to_box s d clk).2 = Some f → addressed s f.
Proof.
  intros Hok. unfold emit_to_box. pose proof (steady_stage s) as H1. destruct (stage_inputs s) as [t rows].
  pose proof (steady_presilent t (t_presilent clk)) as H2. destruct (bm_presilent t _) as [u silent].
  simpl in H1, H2. assert (H : steady s u) by (by etransitivity). destruct silent; [done|].
  destruct (if negb _ && _ then _ else _) as [v rows'] eqn:Ev.
  assert (Hv : steady s v).
  { etransitivity; [exact H|]. destruct (_ && _); [|by injection Ev as <-].
    destruct (bm_fill _ _) as [rng r2]. by injection Ev as <- _. }
  pose proof (slave_ok_steady s v Hv Hok) as Hvok.
  destruct (bm_carrier v _ _ _) as [frame uni] eqn:Ec.
  pose proof (steady_control v d (as_planes rows') clk) as Hc. destruct (bm_control v d _ clk) as [w cl].
  simpl in Hc. destruct frame as [g|]; [|by destruct cl].
  pose proof (carrier_headed v _ _ _ g uni Hvok Ec) as Hg. intros Hf. apply (addressed_steady s v); [done|].
  destruct cl as [ctl|]; simpl in Hf; injection Hf as <-; [|done].
  rewrite (st_mac v w Hc). by eapply stamp_headed.
Qed.

(** Whatever a decision sends is addressed to the master or to everyone, from
    the slave's own address, under the counter of the handshake. *)
Lemma emit_addressed s d clk ok f : slave_ok s → (emit_decision s d clk ok).2 = Some f → addressed s f.
Proof.
  intros Hok. unfold emit_decision. set (r := if _ && _ then _ else _).
  assert (Hr : r.2 = Some f → addressed s f)
    by (subst r; case_match; [by apply box_addressed|by apply desk_addressed]).
  destruct r as [t [g|]]; [|done]. by destruct ok.
Qed.

(** ** Every reachable slave *)

Lemma learn_mac f rx :
  f_counter (learn_if_master f rx) = f_counter f ∧
  (f_master_mac (learn_if_master f rx) = f_master_mac f ∨
   ∃ r, rx = Some r ∧ f_master_mac (learn_if_master f rx) = p_src r).
Proof.
  destruct rx as [r|]; simpl; [|by split; [|left]].
  destruct (is_master_frame r); simpl; split; try done; [right; by exists r|by left].
Qed.

(** The handshake changes its counter within 16 bits and learns a master only
    from the source of the frame it is given. *)
Definition fsm_fit (f : reac_fsm) : Prop := zlen (f_master_mac f) = 6 ∧ 0 ≤ f_counter f < 65536.

Lemma fit_out f a : fsm_fit f → fsm_fit (out f a).1.
Proof. done. Qed.
Lemma u16_fit z : 0 ≤ u16 z < 65536.
Proof. unfold u16. lia. Qed.

Lemma fit_flood f : fsm_fit f → fsm_fit (flood_tick f).1.
Proof. intros [H _]. pose proof (u16_fit (f_counter f + 1)). unfold flood_tick. by case_match. Qed.
Lemma fit_coldconnect f : fsm_fit f → fsm_fit (coldconnect_tick f).1.
Proof. intros [H _]. pose proof (u16_fit (f_counter f + 1)). unfold coldconnect_tick. by case_match. Qed.
Lemma fit_learn f rx :
  fsm_fit f → (∀ r, rx = Some r → zlen (p_src r) = 6) → fsm_fit (learn_if_master f rx).
Proof.
  intros [H1 H2] Hr. destruct (learn_mac f rx) as [E [Em|(r & -> & Em)]]; unfold fsm_fit;
    rewrite E, Em; split; auto.
Qed.

Lemma reac_fsm_step_fit f ev rx :
  fsm_fit f → (∀ r, rx = Some r → zlen (p_src r) = 6) → fsm_fit (reac_fsm_step f ev rx).1.
Proof.
  intros Hf Hr. assert (Hr' : ∀ r, rx_of ev rx = Some r → zlen (p_src r) = 6) by (destruct ev; auto; done).
  pose proof (fit_learn f _ Hf Hr') as Hl.
  assert (Hb : fsm_fit (bump_counter f)) by (split; [apply Hf|apply u16_fit]).
  unfold reac_fsm_step. destruct (decide (ev = FSM_EV_PHY_DOWN)) as [->|Hev]; [done|].
  assert (fsm_fit (match f_state f with
    | FSM_PHY_DOWN => match ev with FSM_EV_PHY_UP => flood_tick (set_f_counter 0 (arm_flood f))
                                  | _ => out f FSM_ACT_STOP end
    | FSM_FLOOD_ANNOUNCE => step_flood f (rx_of ev rx)
    | FSM_COLDCONNECT => step_coldconnect f (rx_of ev rx)
    | FSM_BACKOFF => step_backoff f
    | FSM_TX_MUTE => step_tx_mute f ev
    | FSM_ESTABLISHED => step_established f (rx_of ev rx)
    | FSM_DROP => step_drop f end).1) as Hstep; [|by destruct ev].
  destruct (f_state f).
  - destruct ev; try done. apply fit_flood. split; [apply Hf|done].
  - unfold step_flood. destruct (is_grant _); [by apply fit_coldconnect|].
    pose proof (fit_flood _ Hl). destruct (flood_tick _) as [g o]. by case_match.
  - unfold step_coldconnect. set (l := learn_if_master _ _) in *. set (g := if is_grant _ && _ then _ else l).
    assert (Hg : fsm_fit g) by (subst g; by case_match). clearbody g.
    destruct (negb _); [by apply fit_flood|]. set (h := if 0 <? f_grant_ack g then _ else _).
    assert (Hh : fsm_fit h) by (subst h; by case_match). clearbody h.
    destruct (_ && _); [done|]. destruct (_ && _); [done|]. by apply fit_coldconnect.
  - unfold step_tx_mute. cbv zeta. destruct ev; try done; case_match; done.
  - unfold step_established, heartbeat_advance. cbv zeta. destruct (rx_of ev rx) as [r|].
    + repeat case_match; done.
    + case_match; [done|]. case_match; done.
  - by apply fit_flood.
  - unfold step_backoff. cbv zeta. case_match; [by apply fit_flood|done].
Qed.

Lemma zlen_parse_src frame : zlen (p_src (reac_ctrl_parse frame (zlen frame))) = 6.
Proof.
  unfold reac_ctrl_parse, AUDIO_OFF. destruct (zlen frame <? 50) eqn:Hl; [done|].
  assert (zlen (slice frame 6 6) = 6) by (rewrite zlen_slice; lia).
  repeat (case_match; cbn [p_src parsed_zero]; try done).
Qed.

(** The identity and the clock of the two states agree; their gains, links and
    box-master bookkeeping need not. *)
Definition same_clock (s t : reac_slave) : Prop :=
  sl_box_channels t = sl_box_channels s ∧ sl_src t = sl_src s ∧ sl_model t = sl_model s ∧
  sl_counter_offset t = sl_counter_offset s ∧ sl_counter_locked t = sl_counter_locked s.

#[global] Instance same_clock_refl : Reflexive same_clock.
Proof. by intros s. Qed.
#[global] Instance same_clock_trans : Transitive same_clock.
Proof. intros s t u (?&?&?&?&?) (?&?&?&?&?). unfold same_clock. split_and!; congruence. Qed.
Lemma steady_clock s t : steady s t → same_clock s t.
Proof. intros []. by split_and!. Qed.

Lemma slave_ok_fit s t :
  sl_box_channels t = sl_box_channels s → sl_src t = sl_src s → sl_model t = sl_model s →
  fsm_fit (sl_fsm t) → slave_ok s → slave_ok t.
Proof. intros E1 E2 E3 [] []. split; rewrite ?E1, ?E2, ?E3; done. Qed.
Lemma slave_ok_fsm s : slave_ok s → fsm_fit (sl_fsm s).
Proof. by intros []. Qed.

Lemma headamp_clock powf s p frame :
  same_clock s (slave_headamp powf s p frame) ∧ sl_fsm (slave_headamp powf s p frame) = sl_fsm s.
Proof. unfold slave_headamp. case_match; [|done]. unfold reac_slave_headamp_rx. by repeat case_match. Qed.

Lemma watch_clock s p now :
  same_clock s (slave_watch s p now) ∧
  f_counter (sl_fsm (slave_watch s p now)) = f_counter (sl_fsm s) ∧
  f_master_mac (sl_fsm (slave_watch s p now)) = f_master_mac (sl_fsm s) ∧
  f_state (sl_fsm (slave_watch s p now)) = f_state (sl_fsm s).
Proof. unfold slave_watch, on_bm. by repeat case_match. Qed.

Lemma step_fsm_clock s ev rx : same_clock s (step_fsm s ev rx).1 ∧
  sl_fsm (step_fsm s ev rx).1 = (reac_fsm_step (sl_fsm s) ev rx).1.
Proof. unfold step_fsm. by destruct (reac_fsm_step _ _ _). Qed.

(** Following: a frame of the learned master fixes the offset once, and the
    counter of the slave is then that frame's counter at that offset. *)
Lemma follow_spec s p :
  let t := slave_follow s p in
  sl_box_channels t = sl_box_channels s ∧ sl_src t = sl_src s ∧ sl_model t = sl_model s ∧
  f_master_mac (sl_fsm t) = f_master_mac (sl_fsm s) ∧ f_have_master (sl_fsm t) = f_have_master (sl_fsm s) ∧
  (sl_counter_locked s = true → sl_counter_locked t = true ∧ sl_counter_offset t = sl_counter_offset s) ∧
  (f_have_master (sl_fsm s) = true → p_src p = f_master_mac (sl_fsm s) →
   sl_counter_locked t = true ∧ f_counter (sl_fsm t) = u16 (p_counter p + sl_counter_offset t) ∧
   (sl_counter_locked s = false → f_counter (sl_fsm t) = u16 (f_counter (sl_fsm s)))) ∧
  (fsm_fit (sl_fsm s) → fsm_fit (sl_fsm t)).
Proof.
  unfold slave_follow. cbv zeta. generalize (reac_mac48_pack (Some (f_master_mac (sl_fsm s)))) as mac48. intros.
  destruct (f_have_master (sl_fsm s)) eqn:Hh; [|by split_and!].
  destruct (zeqb _ _) eqn:E; simpl.
  2: { split_and!; try done. intros _ Es. by rewrite Es, zeqb_refl in E. }
  pose proof (u16_fit (p_counter p + sl_counter_offset s)) as H1.
  pose proof (u16_fit (p_counter p + u16 (f_counter (sl_fsm s) - p_counter p))) as H2.
  destruct (sl_counter_locked s) eqn:El; simpl; rewrite ?El; split_and!; try done; try (by intros [Hm _]).
  intros _ _. split_and!; try done. intros _. unfold u16. rewrite Zplus_mod_idemp_r. f_equal. lia.
Qed.

(** The state a received frame is decided and answered in. *)
Definition heard (powf : f32 → f32 → f32) (s : reac_slave) (frame : list Z) (now : Z) : reac_slave :=
  let p := reac_ctrl_parse frame (zlen frame) in
  let s := slave_watch (slave_headamp powf s p frame) p now in
  slave_follow (reac_slave_step_rx (set_sl_rx_master_frames (u64 (sl_rx_master_frames s + 1)) s) p).1 p.

(** The frames the slave looks at: REAC frames that are not its own. *)
Definition foreign (s : reac_slave) (frame : list Z) : bool :=
  reac_frame_is_reac (Some frame) (zlen frame) &&
  negb (zeqb (p_src (reac_ctrl_parse frame (zlen frame))) (sl_src s)).

Lemma slave_frame_foreign powf s frame e :
  foreign s frame = true →
  ∃ d, slave_frame powf s frame e = emit_decision (heard powf s frame (env_now e)) d (env_clk e) (env_send e).
Proof.
  unfold foreign, slave_frame, heard. intros [-> H]%andb_true_iff. simpl negb. cbv iota zeta.
  set (p := reac_ctrl_parse _ _) in *.
  destruct (headamp_clock powf s p frame) as [(_ & -> & _) _]. apply negb_true_iff in H. rewrite H.
  destruct (reac_slave_step_rx _ p) as [t d]. by exists d.
Qed.

Lemma slave_frame_own powf s frame e :
  foreign s frame = false →
  (slave_frame powf s frame e).2 = None ∧ same_clock s (slave_frame powf s frame e).1 ∧
  sl_fsm (slave_frame powf s frame e).1 = sl_fsm s.
Proof.
  unfold foreign, slave_frame. destruct (reac_frame_is_reac _ _); [|done]. simpl negb. cbv iota zeta.
  set (p := reac_ctrl_parse _ _) in *. simpl. intros H%negb_false_iff.
  destruct (headamp_clock powf s p frame) as [Hc Hf]. rewrite (proj1 (proj2 Hc)), H. done.
Qed.

Lemma heard_facts powf s frame now :
  let t := heard powf s frame now in let p := reac_ctrl_parse frame (zlen frame) in
  sl_box_channels t = sl_box_channels s ∧ sl_src t = sl_src s ∧ sl_model t = sl_model s ∧
  (sl_counter_locked s = true → sl_counter_locked t = true ∧ sl_counter_offset t = sl_counter_offset s) ∧
  (f_have_master (sl_fsm t) = true → p_src p = f_master_mac (sl_fsm t) →
   sl_counter_locked t = true ∧ f_counter (sl_fsm t) = u16 (p_counter p + sl_counter_offset t)) ∧
  (slave_ok s → slave_ok t).
Proof.
  unfold heard. cbv zeta. set (p := reac_ctrl_parse _ _).
  destruct (headamp_clock powf s p frame) as [Ch Fh]. set (a := slave_headamp _ _ _ _) in *.
  destruct (watch_clock a p now) as (Cw & Nw & Mw & _). set (w := slave_watch _ _ _) in *.
  set (x := set_sl_rx_master_frames _ w).
  destruct (step_fsm_clock x FSM_EV_RX (Some p)) as [Cs Fs]. fold (reac_slave_step_rx x p) in Cs, Fs.
  set (y := (reac_slave_step_rx x p).1) in *.
  assert (Hc : same_clock s y) by (etransitivity; [exact Ch|]; etransitivity; [exact Cw|exact Cs]).
  pose proof Hc as (E1 & E2 & E3 & E4 & E5).
  assert (Hy : fsm_fit (sl_fsm s) → fsm_fit (sl_fsm y)).
  { intros [H1 H2]. rewrite Fs. apply reac_fsm_step_fit.
    - split; cbn; rewrite ?Mw, ?Nw, ?Fh; done.
    - intros r [= <-]. apply zlen_parse_src. }
  destruct (follow_spec y p) as (F1 & F2 & F3 & F4 & F5 & F6 & F7 & F8). cbv zeta in *.
  set (t := slave_follow y p) in *. rewrite F1, F2, F3, E1, E2, E3, E4, E5 in *.
  split_and!; try done.
  - rewrite F4, F5. intros Hm Es. by destruct (F7 Hm Es) as (?&?&_).
  - intros Hok. apply (slave_ok_fit s t); try congruence. by apply F8, Hy, slave_ok_fsm.
Qed.

(** From any configuration, whatever arrives and whatever the program's other
    thread has put in the sample ring. *)
Inductive slave_reach (powf : f32 → f32 → f32) (cfg : option reac_slave_cfg) (nic_mac : list Z) : reac_slave → Prop :=
| sr_init : slave_reach powf cfg nic_mac (reac_slave_fsm_init cfg nic_mac)
| sr_ring s ring : slave_reach powf cfg nic_mac s → slave_reach powf cfg nic_mac (set_sl_tx_ring ring s)
| sr_phy s e : slave_reach powf cfg nic_mac s → slave_reach powf cfg nic_mac (slave_phy s e).1
| sr_frame s frame e : slave_reach powf cfg nic_mac s → slave_reach powf cfg nic_mac (slave_frame powf s frame e).1
| sr_tick s e :
    slave_reach powf cfg nic_mac s →
    slave_reach powf cfg nic_mac
      (emit_decision (reac_slave_step_tick s).1 (reac_slave_step_tick s).2 (env_clk e) (env_send e)).1.

(** A configuration whose box exists: a width of the wire, a 6-byte address. *)
Definition cfg_ok (cfg : option reac_slave_cfg) (nic_mac : list Z) : Prop :=
  reac_box_width_ok (slave_width cfg) = true ∧ zlen (default nic_mac (cfg ≫= cf_src_mac)) = 6.

Lemma slave_ok_init cfg nic_mac : cfg_ok cfg nic_mac → slave_ok (reac_slave_fsm_init cfg nic_mac).
Proof.
  intros [Hw Hs]. unfold reac_slave_fsm_init. split; cbn [sl_box_channels sl_src sl_fsm sl_model]; try done.
  - by case_match.
  - unfold slave_width. destruct cfg as [c|]; simpl; [|by intros [? ?]]. destruct (cf_model c); [done|by intros [? ?]].
  - by case_match.
Qed.

Lemma slave_ok_step s ev : slave_ok s → slave_ok (step_fsm s ev None).1.
Proof.
  intros Hok. destruct (step_fsm_clock s ev None) as [(E1 & E2 & E3 & _) Hf].
  apply (slave_ok_fit s); try done. rewrite Hf. apply reac_fsm_step_fit; [by apply slave_ok_fsm|done].
Qed.

Lemma slave_ok_emit s d clk ok : slave_ok s → slave_ok (emit_decision s d clk ok).1.
Proof. apply slave_ok_steady, steady_emit. Qed.

Lemma slave_ok_phy s e : slave_ok s → slave_ok (slave_phy s e).1.
Proof.
  intros Hok. unfold slave_phy. destruct (bool_decide _); [done|].
  pose proof (slave_ok_step s (if env_phy_up e then FSM_EV_PHY_UP else FSM_EV_PHY_DOWN) Hok) as H.
  unfold reac_slave_step_phy. destruct (step_fsm s _ None) as [t d]. simpl in H.
  destruct (env_phy_up e).
  - pose proof (slave_ok_emit (set_sl_counter_locked false (set_sl_phy_up_seen true t)) d
                  (env_clk_phy e) (env_send_phy e)) as Hp.
    destruct (emit_decision _ _ _ _) as [u o]. apply Hp. destruct H; by split.
  - destruct H; by split.
Qed.

Lemma slave_ok_frame powf s frame e : slave_ok s → slave_ok (slave_frame powf s frame e).1.
Proof.
  intros Hok. destruct (foreign s frame) eqn:Hf.
  - destruct (slave_frame_foreign powf s frame e Hf) as [d ->]. by apply slave_ok_emit, heard_facts.
  - destruct (slave_frame_own powf s frame e Hf) as (_ & (E1 & E2 & E3 & _) & Ef).
    apply (slave_ok_fit s); try done. rewrite Ef. by apply slave_ok_fsm.
Qed.

Lemma slave_reach_ok powf cfg nic_mac s :
  cfg_ok cfg nic_mac → slave_reach powf cfg nic_mac s → slave_ok s.
Proof.
  intros Hc. induction 1 as [|s ring _ IH|s e _ IH|s frame e _ IH|s e _ IH].
  - by apply slave_ok_init.
  - by destruct IH.
  - by apply slave_ok_phy.
  - by apply slave_ok_frame.
  - apply slave_ok_emit. unfold reac_slave_step_tick. by apply slave_ok_step.
Qed.

(** C10. The upstream clock. In every state the engine reaches, handling a
    frame it hears: whatever it answers goes to the learned master or to
    everyone, from its own address, under the counter of its handshake; once
    the offset to the master's counter is latched, no frame moves it; and a
    frame of the learned master makes the answer's counter that frame's counter
    plus the offset, modulo 2^16. *)
Theorem slave_clock_follows powf cfg nic_mac s frame e :
  cfg_ok cfg nic_mac → slave_reach powf cfg nic_mac s →
  let t := (slave_frame powf s frame e).1 in let p := reac_ctrl_parse frame (zlen frame) in
  (∀ f, (slave_frame powf s frame e).2 = Some f →
     slice (sn_frame f) 0 6 = (if sn_unicast f then f_master_mac (sl_fsm t) else BCAST) ∧
     slice (sn_frame f) 6 6 = sl_src s ∧ reac_frame_counter (sn_frame f) = u16 (f_counter (sl_fsm t))) ∧
  (sl_counter_locked s = true → sl_counter_locked t = true ∧ sl_counter_offset t = sl_counter_offset s) ∧
  (foreign s frame = true → f_have_master (sl_fsm t) = true → p_src p = f_master_mac (sl_fsm t) →
     sl_counter_locked t = true ∧ f_counter (sl_fsm t) = u16 (p_counter p + sl_counter_offset t)).
Proof.
  intros Hc Hr. pose proof (slave_reach_ok _ _ _ _ Hc Hr) as Hok. cbv zeta.
  destruct (foreign s frame) eqn:Hf.
  - destruct (slave_frame_foreign powf s frame e Hf) as [d ->].
    destruct (heard_facts powf s frame (env_now e)) as (E1 & E2 & E3 & Hlock & Hfol & Hok').
    set (h := heard _ _ _ _) in *. pose proof (steady_emit h d (env_clk e) (env_send e)) as St.
    rewrite (st_mac _ _ St), (st_counter _ _ St), (st_have _ _ St), (st_locked _ _ St), (st_offset _ _ St).
    split_and!; auto. intros f Hs. destruct (emit_addressed h d _ _ f (Hok' Hok) Hs) as [Hh _].
    rewrite (headed_counter _ _ _ _ Hh). destruct Hh as (H1 & H2 & _). by rewrite H1, H2.
  - destruct (slave_frame_own powf s frame e Hf) as (-> & (_ & _ & _ & E4 & E5) & _).
    rewrite E4, E5. by split_and!.
Qed.

Definition demo_slave_mac : list Z := [0; 0x40; 0xab; 1; 2; 3].
Definition demo_desk_mac : list Z := [0; 0x40; 0xab; 9; 9; 9].
(** An announce of the desk, bare of its block. *)
Definition demo_announce (counter : Z) : list Z :=
  fill 6 0xff ++ demo_desk_mac ++ [0x88; 0x19; u8 counter; u8 (Z.shiftr counter 8); 0xcf; 0xea] ++ zeros 32.
Definition demo_slave_cfg : option reac_slave_cfg :=
  Some (SlaveCfg 16 48000 (Some demo_slave_mac) false false false false 0 None).
Definition demo_env : turn_env := Env true (Clk 0 0 0 0) true 0 (Clk 0 0 0 0) true.
Definition demo_powf : f32 → f32 → f32 := λ _ y, y.
(** Powered up on a live link, it has heard one announce. *)
Definition demo_slave : reac_slave :=
  (slave_frame demo_powf (slave_phy (reac_slave_fsm_init demo_slave_cfg (zeros 6)) demo_env).1
     (demo_announce 65534) demo_env).1.

Lemma demo_slave_reach : slave_reach demo_powf demo_slave_cfg (zeros 6) demo_slave.
Proof. apply sr_frame, sr_phy, sr_init. Qed.

Lemma slave_clock_follows_witness :
  cfg_ok demo_slave_cfg (zeros 6) ∧ slave_reach demo_powf demo_slave_cfg (zeros 6) demo_slave ∧
  f_counter (sl_fsm demo_slave) = 2 ∧ sl_counter_locked demo_slave = true ∧
  let r := slave_frame demo_powf demo_slave (demo_announce 1) demo_env in
  is_Some r.2 ∧ f_counter (sl_fsm r.1) = 5.
Proof.
  assert (Hc : cfg_ok demo_slave_cfg (zeros 6)) by (split; reflexivity).
  destruct (slave_clock_follows demo_powf demo_slave_cfg (zeros 6) demo_slave (demo_announce 1) demo_env
              Hc demo_slave_reach) as (_ & Hl & Hf).
  cbv zeta. split_and!; [exact Hc|exact demo_slave_reach|vm_compute; reflexivity|vm_compute; reflexivity|vm_compute; eauto|].
  destruct Hl as [_ Ho]; [vm_compute; reflexivity|].
  destruct Hf as [_ ->]; [vm_compute; reflexivity..|]. rewrite Ho. vm_compute. reflexivity.
Defined.

(** ** What a desk hears *)

(** What the frame of a slot means to the desk it courts. *)
Definition slot_event (s : reac_slave) (d : reac_slave_decision) : option reac_master_rx_event :=
  match d_emit d with
  | REAC_SLAVE_EMIT_NONE => None
  | REAC_SLAVE_EMIT_FLOOD_FILLER => Some REAC_M_RX_BOX_BCAST_FILLER
  | REAC_SLAVE_EMIT_COLDCONNECT =>
      if d_with_join d then
        match sl_coldconnect_phase s mod 8 with
        | 2 | 3 => None
        | 4 => Some REAC_M_RX_BOX_CONFIG
        | 5 => Some REAC_M_RX_BOX_HEARTBEAT
        | 6 | 7 => Some REAC_M_RX_BOX_UNICAST
        | _ => Some REAC_M_RX_BOX_JOIN
        end
      else Some REAC_M_RX_BOX_UNICAST
  | REAC_SLAVE_EMIT_UPSTREAM_AUDIO =>
      if d_with_heartbeat d then Some REAC_M_RX_BOX_HEARTBEAT else Some REAC_M_RX_BOX_UNICAST
  | REAC_SLAVE_EMIT_HEARTBEAT => Some REAC_M_RX_BOX_HEARTBEAT
  end.

(** A Roland box that courts a master as a master would know it. *)
Definition courts (s : reac_slave) : Prop :=
  slave_ok s ∧ sl_model s = None ∧ slice (sl_src s) 0 3 = [0; 0x40; 0xab] ∧
  sl_src s ≠ f_master_mac (sl_fsm s) ∧ f_master_mac (sl_fsm s) ≠ BCAST.

Lemma courts_steady s t : steady s t → courts s → courts t.
Proof.
  intros St (Hok & Hm & Ho & Hn & Hb). pose proof (slave_ok_steady s t St Hok). destruct St.
  split_and!; congruence.
Qed.

(** Each builder's frame is there, and means what its row means. *)
Lemma frame_heard s id bcast ev planar ns :
  courts s → row_means id bcast ev = true → id ≠ CTRL_HEADAMP →
  ctrl_gate_ok (reac_box_catalogue_by_width (sl_box_channels s)) (cf_gate (CTRL_FRAMES id)) = true →
  ∃ frame, ctrl_emit (CTRL_FRAMES id) (if bcast then BCAST else f_master_mac (sl_fsm s)) (sl_src s)
             (f_counter (sl_fsm s)) (sl_box_channels s) None planar ns = Some frame ∧
           understood (f_master_mac (sl_fsm s)) ev frame.
Proof.
  intros ([Hw Hs Hm _ _] & _ & Ho & Hn & Hb) Hr Hid Hg.
  destruct (row_heard id bcast ev (if bcast then BCAST else f_master_mac (sl_fsm s)) (sl_src s)
              (f_master_mac (sl_fsm s)) (f_counter (sl_fsm s)) (sl_box_channels s) ns planar) as (frame & He & Hu);
    try done.
  - destruct id; simpl; auto; congruence.
  - destruct id; simpl; congruence.
  - by destruct bcast.
  - by exists frame.
Qed.

Lemma emit_gate f dst src counter n args planar ns g :
  ctrl_emit f dst src counter n args planar ns = Some g →
  ctrl_gate_ok (reac_box_catalogue_by_width n) (cf_gate f) = true.
Proof.
  unfold ctrl_emit, ctrl_emit_as. cbv zeta. destruct (_ && negb _); [done|].
  destruct (_ && _ && negb _); [done|]. simpl default. by destruct (ctrl_gate_ok _ _).
Qed.

(** A frame that means [ev] to the master of the slave. *)
Definition means (s : reac_slave) (ev : option reac_master_rx_event) (frame : option (list Z)) : Prop :=
  ∃ f, frame = Some f ∧ understood (f_master_mac (sl_fsm s)) ev f.

Section Courting.
Context (s : reac_slave) (Hc : courts s).

Lemma row_meant id ev planar ns :
  row_means id false ev = true → id ≠ CTRL_HEADAMP → cf_gate (CTRL_FRAMES id) = GATE_ALWAYS →
  means s ev (ctrl_emit (CTRL_FRAMES id) (f_master_mac (sl_fsm s)) (sl_src s) (f_counter (sl_fsm s))
                (sl_box_channels s) None planar ns).
Proof using Hc. intros Hr Hid Hg. apply (frame_heard s id false ev planar ns Hc Hr Hid). by rewrite Hg. Qed.

Lemma filler_meant planar : means s (Some REAC_M_RX_BOX_UNICAST) (slave_filler s planar).
Proof using Hc. by apply (row_meant CTRL_UPSTREAM_FILLER); [apply rows_mean| |]. Qed.

Lemma heartbeat_meant : means s (Some REAC_M_RX_BOX_HEARTBEAT) (slave_heartbeat s).
Proof using Hc. by apply (row_meant CTRL_BOX_HB); [apply rows_mean| |]. Qed.

(** A name reply is unicast traffic; the model that has none sends a filler. *)
Lemma name_meant b planar :
  b = REAC_BOX_BLOCK_IDENT_FIRST ∨ b = REAC_BOX_BLOCK_IDENT_LAST →
  means s (Some REAC_M_RX_BOX_UNICAST)
    (let f := slave_build_block s b (f_counter (sl_fsm s)) [] 0 in
     match f with Some _ => f | None => slave_filler s planar end).
Proof using Hc.
  intros Hb. cbv zeta. destruct (slave_build_block _ _ _ _ _) as [f|] eqn:Ef; [|apply filler_meant].
  exists f. split; [done|]. unfold slave_build_block in Ef. pose proof Hc as (_ & Hm & _). rewrite Hm in Ef.
  assert (Hg : ctrl_gate_ok (reac_box_catalogue_by_width (sl_box_channels s)) GATE_HAS_IDENTITY = true).
  { destruct Hb as [-> | ->]; exact (emit_gate _ _ _ _ _ _ _ _ _ Ef). }
  destruct Hb as [-> | ->].
  - destruct (frame_heard s CTRL_IDENT_FIRST false (Some REAC_M_RX_BOX_UNICAST) [] 0) as (g & Eg & Hu);
      [done|apply rows_mean|done|done|]. unfold reac_ctrl_build_identity_first in Ef. congruence.
  - destruct (frame_heard s CTRL_IDENT_LAST false (Some REAC_M_RX_BOX_UNICAST) [] 0) as (g & Eg & Hu);
      [done|apply rows_mean|done|done|]. unfold reac_ctrl_build_identity_last in Ef. congruence.
Qed.
End Courting.

Section Slots.
Context (s : reac_slave) (Hc : courts s).
Let Hm : sl_model s = None := proj1 (proj2 Hc).

Lemma flood_meant planar :
  means s (Some REAC_M_RX_BOX_BCAST_FILLER)
    (reac_ctrl_build_flood_filler BCAST (sl_src s) (f_counter (sl_fsm s)) (sl_box_channels s) planar
       REAC_SAMPLES_PER_PKT).
Proof using Hc. by apply (frame_heard s CTRL_FLOOD_FILLER true _ planar _ Hc); [apply rows_mean| |]. Qed.

Lemma coldconnect_meant planar :
  means s (slot_event s (Decision_ REAC_SLAVE_EMIT_COLDCONNECT false true FSM_COLDCONNECT))
    (coldconnect_frame s (sl_coldconnect_phase s) planar).
Proof using Hc Hm.
  unfold coldconnect_frame, slot_event. cbn [d_emit d_with_join].
  pose proof (Z.mod_pos_bound (sl_coldconnect_phase s) 8 eq_refl) as Hk.
  set (k := sl_coldconnect_phase s mod 8) in *. clearbody k.
  assert (k = 0 ∨ k = 1 ∨ k = 2 ∨ k = 3 ∨ k = 4 ∨ k = 5 ∨ k = 6 ∨ k = 7)
    as [-> |[-> |[-> |[-> |[-> |[-> |[-> | ->]]]]]]] by lia; cbv iota;
    [unfold slave_build_block; rewrite Hm..| | |].
  - by apply (row_meant s Hc CTRL_COLDCONNECT); [apply rows_mean| |].
  - by apply (row_meant s Hc CTRL_COLDCONNECT_0013); [apply rows_mean| |].
  - by apply (row_meant s Hc CTRL_COLDCONNECT_0016); [apply rows_mean| |].
  - by apply (row_meant s Hc CTRL_COLDCONNECT_001A); [apply rows_mean| |].
  - by apply (row_meant s Hc CTRL_CONFIG_ANNOUNCE); [apply rows_mean| |].
  - by apply heartbeat_meant.
  - by apply name_meant; [|left].
  - by apply name_meant; [|right].
Qed.

Lemma means_steady t ev frame : steady s t → means t ev frame → means s ev frame.
Proof using. intros St. unfold means. by rewrite (st_mac s t St). Qed.
End Slots.

Lemma phase_staged s : sl_coldconnect_phase (stage_inputs s).1 = sl_coldconnect_phase s.
Proof.
  unfold stage_inputs. destruct (sl_tx_ring s); [|done]. by destruct (reac_ring_read_planar _ _ _) as [[? ?] ?].
Qed.

Lemma sent_meant s ev b o : means s ev o →
  ∃ f, (λ g, Sent g b) <$> o = Some f ∧ understood (f_master_mac (sl_fsm s)) ev (sn_frame f).
Proof. intros (g & -> & Hu). by exists (Sent g b). Qed.

Lemma desk_heard s d :
  courts s → d_emit d ≠ REAC_SLAVE_EMIT_NONE →
  ∃ f, (emit_to_desk s d).2 = Some f ∧
    understood (f_master_mac (sl_fsm s)) (slot_event s d) (sn_frame f).
Proof.
  intros Hc Hd. unfold emit_to_desk. pose proof (steady_stage s) as St. pose proof (phase_staged s) as Hp.
  destruct (stage_inputs s) as [t rows]. simpl in St, Hp. pose proof (courts_steady s t St Hc) as Ht.
  unfold slot_event, unicast. destruct (d_emit d); [done|..].
  - cbn [snd]. apply sent_meant, (means_steady s t); [done|]. by apply flood_meant.
  - destruct (d_with_join d); cbn [snd]; apply sent_meant, (means_steady s t); try done.
    + pose proof (coldconnect_meant t Ht (as_planes rows)) as Hj. unfold slot_event in Hj. simpl in Hj.
      by rewrite Hp in *.
    + by apply filler_meant.
  - cbn [snd]. apply sent_meant, (means_steady s t); [done|].
    destruct (d_with_heartbeat d); [by apply heartbeat_meant|by apply filler_meant].
  - cbn [snd]. by apply sent_meant, heartbeat_meant.
Qed.

Lemma desk_counts s d :
  sl_tx_frames (emit_to_desk s d).1 = sl_tx_frames s ∧ sl_tx_errors (emit_to_desk s d).1 = sl_tx_errors s.
Proof.
  assert (H : sl_tx_frames (stage_inputs s).1 = sl_tx_frames s ∧ sl_tx_errors (stage_inputs s).1 = sl_tx_errors s).
  { unfold stage_inputs. destruct (sl_tx_ring s); [|done]. by destruct (reac_ring_read_planar _ _ _) as [[? ?] ?]. }
  unfold emit_to_desk. destruct (stage_inputs s) as [t rows]. simpl in H.
  destruct (d_emit d); try done. by destruct (d_with_join d).
Qed.


(** The demo slave, courting its desk: the configuration of the fifth join slot. *)
Definition demo_courting : reac_slave := set_sl_coldconnect_phase 4 demo_slave.

