(* ===== verification/SlavePreamp.v ===== *)
(** * SlavePreamp: the master's enrolment sweep reaches the slave's preamps

    Composes [Grant] and [Slave]: the rows of a sweep, laid on frames the way
    [reac_master_stamp] lays them and received by the slave engine in any order,
    any number of times and among any other traffic, leave every input of the
    box with the phantom, pad and sensitivity the operator's table gives it, and
    with the gain those mean. *)

From S2P Require Import Prelude Wire Sample Codec CtrlBlk Identity BoxModel BoxFacts.
From S2P Require Import SlaveFsm CtrlFrames HeadampTx Grant Master MasterInv Ring Slave SlaveTx.
Local Open Scope Z_scope.

(** ** Rows on the wire *)

(** A frame the master stamped with a row of its sweep. *)
Definition delivers (f row : list Z) : Prop :=
  ∃ g, 50 ≤ zlen g ∧ g.[12] = 0x88 ∧ g.[13] = 0x19 ∧ f = apply_block g row.

(** A frame the slave takes for a head-amp record. *)
Definition is_headamp (f : list Z) : bool :=
  bool_decide (p_kind (reac_ctrl_parse f (zlen f)) = REAC_CTRL_HEADAMP) && reac_ctrl_headamp_record_verify f.

Lemma delivers_carries f row : row_closed row → delivers f row → carries f (slice row 2 32).
Proof.
  intros (H0 & H1 & Ht) (g & Hg & H12 & H13 & ->). destruct (apply_block_eq g row Hg Ht) as [-> _].
  pose proof (proj1 Ht) as Hl. unfold carries, REAC_CTRL_BLOCK_OFF. split_and!.
  - zl.
  - by rds.
  - by rds.
  - by rds.
  - by rds.
  - by apply slice_blit_row.
Qed.

Lemma delivers_groupa f ch param value :
  delivers f (groupa_row ch param value) → carries f (headamp_block ch param value).
Proof.
  intros Hd. pose proof (delivers_carries f _ (groupa_row_closed ch param value) Hd) as Hc.
  destruct (headamp_block_facts ch param value) as (Hb & _).
  replace (headamp_block ch param value) with (slice (groupa_row ch param value) 2 32); [done|].
  change (slice (groupa_row ch param value) 2 32) with (slice (headamp_block ch param value) 0 32).
  by apply slice_full.
Qed.

(** The rows of a sweep that are no head-amp record. *)
Definition fixed_rows : list (list Z) := [GRANT_HEAD_ACK; GRANT_HEAD_MARK] ++ GRANT_GROUPB.

Definition plain_row (row : list Z) : bool :=
  let b := slice row 2 32 in
  row_closedb row && (b.[0] =? REAC_LINK_RECORD) && (b.[1] =? REAC_SEG_SINGLE) &&
  negb ((b.[14] =? REAC_DT1_MODEL_LO) && (b.[15] =? REAC_DT1_CMD_DT1) &&
        (u16 (Z.lor (Z.shiftl b.[16] 8) b.[17]) =? REAC_DT1_TAG_HEADAMP)).

Lemma fixed_rows_plain row : row ∈ fixed_rows → plain_row row = true.
Proof.
  intros Hr. apply (proj1 (List.forallb_forall plain_row fixed_rows)); [vm_compute; done|].
  by apply list_elem_of_In.
Qed.

Lemma fixed_inert f row : row ∈ fixed_rows → delivers f row → is_headamp f = false.
Proof.
  intros Hr Hd. pose proof (fixed_rows_plain row Hr) as Hp. unfold plain_row in Hp. cbv zeta in Hp.
  rewrite !andb_true_iff, negb_true_iff, !Z.eqb_eq in Hp. destruct Hp as (((Hcl & E2) & E3) & Hk).
  assert (Hc : carries f (slice row 2 32)).
  { apply delivers_carries; [|done].
    pose proof (rows_closedb [row]) as Hrow. simpl in Hrow. rewrite Hcl in Hrow.
    by apply (Forall_inv (Hrow eq_refl)). }
  destruct (parse_record f _ Hc E2 E3) as (_ & _ & Hkind). rewrite Hk in Hkind.
  unfold is_headamp. by rewrite Hkind.
Qed.

Lemma sweep_heads max base width values rows :
  reac_ctrl_build_grant_sweep max base width values = Some rows →
  rows !! 0%nat = Some GRANT_HEAD_ACK ∧ rows !! 4%nat = Some GRANT_HEAD_MARK.
Proof.
  unfold reac_ctrl_build_grant_sweep. destruct (width <=? 0); [done|]. destruct (_ <? _); [done|].
  destruct (_ <? _); [done|]. destruct (groupa_rows base 0 values) as [first|] eqn:Ef; [|done]. simpl mbind.
  destruct (mapM _ _) as [rest|]; [|done]. simpl mbind. intros [= <-].
  apply length_mapM in Ef. destruct first as [|a [|b [|c [|? ?]]]]; try done.
Qed.

(** What is known of a sweep that was built. *)
Lemma sweep_spec base w view rows :
  view_ok view → reac_grant_build_sweep REAC_GRANT_SWEEP_MAX (GrantAlloc base w) view = Some rows →
  1 ≤ w ∧ zlen rows = 8 + 3 * w ∧
  rows !! 0%nat = Some GRANT_HEAD_ACK ∧ rows !! 4%nat = Some GRANT_HEAD_MARK ∧
  (∀ c p, 0 ≤ c < w → 0 ≤ p < 3 →
     rows !! Z.to_nat (if c =? 0 then 1 + p else 8 + 3 * c + p) =
       Some (groupa_row (base + c) p (reac_headamp_tx_effective view (base + c) p))) ∧
  (∀ i, 0 ≤ i < 6 → rows !! Z.to_nat (5 + i) = reac_ctrl_identity_poll_block i).
Proof.
  intros Hv Hs. pose proof Hs as Hb. unfold reac_grant_build_sweep in Hb. simpl in Hb.
  destruct (reac_grant_alloc_fits base w) eqn:Hfit; [|done]. simpl in Hb. destruct (_ || _); [done|].
  apply sweep_heads in Hb as [H0 H4].
  destruct (build_sweep_ok view base w Hv Hfit) as (rows' & Hs' & Hz & _ & Hrec & Hpoll).
  rewrite Hs in Hs'. injection Hs' as <-. destruct (proj1 (alloc_fits_iff _ _) Hfit) as (Hw & _).
  split_and!; (done || lia).
Qed.

(** Every row of a sweep is a fixed one or the record of one input, and every
    parameter of every input has its record. *)
Lemma sweep_row_cases base w view rows row :
  view_ok view → reac_grant_build_sweep REAC_GRANT_SWEEP_MAX (GrantAlloc base w) view = Some rows → row ∈ rows →
  row ∈ fixed_rows ∨
  ∃ c p, 0 ≤ c < w ∧ 0 ≤ p < 3 ∧ row = groupa_row (base + c) p (reac_headamp_tx_effective view (base + c) p).
Proof.
  intros Hv Hs [i Hi]%list_elem_of_lookup_1.
  destruct (sweep_spec base w view rows Hv Hs) as (Hw & Hz & H0 & H4 & Hrec & Hpoll).
  assert (Hil : Z.of_nat i < 8 + 3 * w) by (apply lookup_lt_Some in Hi; unfold zlen in Hz; lia).
  assert (i = 0%nat ∨ i = 4%nat ∨ (5 ≤ i < 11)%nat ∨ (1 ≤ i < 4)%nat ∨ (11 ≤ i)%nat)
    as [-> |[-> |[Hp|[Hr|Hr]]]] by lia.
  - left. rewrite Hi in H0. injection H0 as ->. by left.
  - left. rewrite Hi in H4. injection H4 as ->. by right; left.
  - left. pose proof (Hpoll (Z.of_nat i - 5) ltac:(lia)) as Hq.
    replace (Z.to_nat (5 + (Z.of_nat i - 5))) with i in Hq by lia. rewrite Hi in Hq.
    unfold reac_ctrl_identity_poll_block, REAC_GRANT_GROUPB_LEN in Hq.
    replace (_ || _) with false in Hq by lia. symmetry in Hq. apply elem_of_app. right.
    by eapply list_elem_of_lookup_2.
  - right. exists 0, (Z.of_nat i - 1). split_and!; [lia..|].
    pose proof (Hrec 0 (Z.of_nat i - 1) ltac:(lia) ltac:(lia)) as Hq. simpl Z.eqb in Hq.
    cbv iota in Hq. replace (Z.to_nat (1 + (Z.of_nat i - 1))) with i in Hq by lia. congruence.
  - right. set (c := (Z.of_nat i - 8) / 3). set (p := (Z.of_nat i - 8) mod 3).
    assert (Hc : 1 ≤ c < w ∧ 0 ≤ p < 3 ∧ 8 + 3 * c + p = Z.of_nat i) by (subst c p; lia).
    exists c, p. split_and!; [lia..|]. pose proof (Hrec c p ltac:(lia) ltac:(lia)) as Hq.
    replace (c =? 0) with false in Hq by lia. replace (Z.to_nat (8 + 3 * c + p)) with i in Hq by lia. congruence.
Qed.

Lemma sweep_row_there base w view rows c p :
  view_ok view → reac_grant_build_sweep REAC_GRANT_SWEEP_MAX (GrantAlloc base w) view = Some rows →
  0 ≤ c < w → 0 ≤ p < 3 → groupa_row (base + c) p (reac_headamp_tx_effective view (base + c) p) ∈ rows.
Proof.
  intros Hv Hs Hc Hp. destruct (sweep_spec base w view rows Hv Hs) as (_ & _ & _ & _ & Hrec & _).
  eapply list_elem_of_lookup_2, Hrec; done.
Qed.

(** ** The engine's preamps *)

Section Preamps.
Context (powf : f32 → f32 → f32).

(** The engine over a sequence of loop turns; an error ends it. *)
Fixpoint slave_run (s : reac_slave) (turns : list (turn_env * slave_input)) : reac_slave :=
  match turns with
  | [] => s
  | (e, i) :: rest =>
      let '(t, _, go) := slave_turn powf s e i in if (go : bool) then slave_run t rest else t
  end.

(** The head-amp state, and the width it is indexed by. *)
Definition same_ha (s t : reac_slave) : Prop := sl_ha t = sl_ha s ∧ sl_box_channels t = sl_box_channels s.

#[local] Instance same_ha_trans : Transitive same_ha.
Proof. intros s t u [] []. split; congruence. Qed.
Lemma steady_ha s t : steady s t → same_ha s t.
Proof. intros []. done. Qed.

Lemma step_ha s ev rx : same_ha s (step_fsm s ev rx).1.
Proof. unfold step_fsm. by destruct (reac_fsm_step _ _ _). Qed.

Lemma phy_ha s e : same_ha s (slave_phy s e).1.
Proof.
  unfold slave_phy. destruct (bool_decide _); [done|]. unfold reac_slave_step_phy.
  pose proof (step_ha s (if env_phy_up e then FSM_EV_PHY_UP else FSM_EV_PHY_DOWN) None) as Hs.
  destruct (step_fsm _ _ _) as [t d]. simpl in Hs. destruct (env_phy_up e); [|done].
  pose proof (steady_ha _ _ (steady_emit (set_sl_counter_locked false (set_sl_phy_up_seen true t)) d
    (env_clk_phy e) (env_send_phy e))) as He. destruct (emit_decision _ _ _ _) as [u o]. simpl in He.
  etransitivity; [exact Hs|exact He].
Qed.

Lemma watch_ha s p now : same_ha s (slave_watch s p now).
Proof. unfold slave_watch, on_bm. by repeat case_match. Qed.
Lemma follow_ha s p : same_ha s (slave_follow s p).
Proof.
  unfold slave_follow. cbv zeta. generalize (reac_mac48_pack (Some (f_master_mac (sl_fsm s)))) as mac48. intros.
  destruct (f_have_master _); simpl; [|done]. destruct (zeqb _ _); simpl; [|done]. by destruct (sl_counter_locked s).
Qed.

Lemma not_reac_not_headamp f : reac_frame_is_reac (Some f) (zlen f) = false → is_headamp f = false.
Proof.
  unfold reac_frame_is_reac, is_headamp, reac_ctrl_parse, AUDIO_OFF. intros H.
  destruct (zlen f <? 50) eqn:E; [done|]. replace (zlen f <? 14) with false in H by lia. simpl in H.
  destruct (f.[12] =? 136); [|done]. simpl in *. by rewrite H.
Qed.

(** All a received frame does to the preamps is its head-amp record. *)
Lemma frame_ha s f e :
  same_ha (if is_headamp f then (reac_slave_headamp_rx powf s (reac_ctrl_parse f (zlen f))).1 else s)
    (slave_frame powf s f e).1.
Proof using.
  destruct (reac_frame_is_reac (Some f) (zlen f)) eqn:Hr; cycle 1.
  { rewrite (not_reac_not_headamp f Hr). unfold slave_frame. by rewrite Hr. }
  change (if is_headamp f then _ else s) with (slave_headamp powf s (reac_ctrl_parse f (zlen f)) f).
  unfold slave_frame. rewrite Hr. simpl negb. cbv iota zeta. set (p := reac_ctrl_parse _ _).
  set (a := slave_headamp powf s p f). destruct (zeqb _ _); [done|].
  set (w := set_sl_rx_master_frames _ _). assert (Hw : same_ha a w) by apply (watch_ha a p (env_now e)).
  pose proof (step_ha w FSM_EV_RX (Some p)) as Hs. fold (reac_slave_step_rx w p) in Hs.
  destruct (reac_slave_step_rx w p) as [t d]. simpl in Hs.
  etransitivity; [exact Hw|]. etransitivity; [exact Hs|]. etransitivity; [apply (follow_ha t p)|].
  apply steady_ha, steady_emit.
Qed.

(** The tables have one entry per channel the protocol can carry. *)
Definition ha_fit (s : reac_slave) : Prop :=
  let h := sl_ha s in
  zlen (ha_sens h) = 40 ∧ zlen (ha_pad h) = 40 ∧ zlen (ha_phantom h) = 40 ∧ zlen (ha_gain h) = 40 ∧
  sl_box_channels s ≤ 40.

Lemma ha_fit_same s t : same_ha s t → ha_fit s → ha_fit t.
Proof. intros [E1 E2]. unfold ha_fit. by rewrite E1, E2. Qed.

Lemma zlen_wrf l i v : zlen (wrf l i v) = zlen l.
Proof. unfold wrf, zlen. by rewrite length_insert. Qed.

Lemma wrf_eq l i v : 0 ≤ i < zlen l → wrf l i v !! Z.to_nat i = Some v.
Proof. intros Hi. unfold wrf. apply list_lookup_insert_eq. unfold zlen in Hi. lia. Qed.
Lemma wrf_ne l i j v : 0 ≤ i → 0 ≤ j → i ≠ j → wrf l i v !! Z.to_nat j = l !! Z.to_nat j.
Proof. intros. unfold wrf. apply list_lookup_insert_ne. lia. Qed.

Lemma ha_fit_rx s p : ha_fit s → ha_fit (reac_slave_headamp_rx powf s p).1.
Proof.
  intros Hf. unfold ha_fit, reac_slave_headamp_rx in *. cbv zeta. repeat case_match; try done;
    cbn -[zlen]; rewrite ?zlen_wrf, ?zlen_wr; done.
Qed.

(** Input [c] has the value [val c p] of parameter [p], and the gain its
    sensitivity and pad mean once either of them was received. *)
Definition settled (val : Z → Z → Z) (s : reac_slave) (c p : Z) : Prop :=
  let h := sl_ha s in
  let gain_set := ha_gain h !! Z.to_nat c =
    Some (reac_slave_headamp_gain powf (ha_sens h).[c] (negb ((ha_pad h).[c] =? 0))) in
  if p =? REAC_HEADAMP_PHANTOM then (ha_phantom h).[c] = b2z (negb (val c p =? 0))
  else if p =? REAC_HEADAMP_PAD then (ha_pad h).[c] = b2z (negb (val c p =? 0)) ∧ gain_set
  else (ha_sens h).[c] = val c p ∧ gain_set.

Lemma settled_same val s t c p : same_ha s t → settled val s c p → settled val t c p.
Proof. intros [E _]. unfold settled. by rewrite E. Qed.

(** A record settles its own parameter of its own input and leaves every other. *)
Lemma record_settles val s r c p :
  ha_fit s → 0 ≤ c < sl_box_channels s → 0 ≤ p < 3 →
  p_ch r = ha_ch_base (sl_ha s) + c → p_param r = p → p_value r = val c p →
  let t := (reac_slave_headamp_rx powf s r).1 in
  settled val t c p ∧
  ∀ c' p', 0 ≤ c' < sl_box_channels s → 0 ≤ p' < 3 → settled val s c' p' → settled val t c' p'.
Proof.
  intros (Z1 & Z2 & Z3 & Z4 & Hw) Hc Hp Ech Epar Eval. cbv zeta. unfold reac_slave_headamp_rx. cbv zeta.
  rewrite Ech, Epar, Eval. replace (ha_ch_base (sl_ha s) + c - ha_ch_base (sl_ha s)) with c by lia.
  replace ((c <? 0) || (sl_box_channels s <=? c)) with false by lia.
  unfold settled, REAC_HEADAMP_PHANTOM, REAC_HEADAMP_PAD, REAC_HEADAMP_SENS.
  assert (p = 0 ∨ p = 1 ∨ p = 2) as [-> |[-> | ->]] by lia; cbn -[rd wr wrf Z.to_nat reac_slave_headamp_gain b2z];
    (split; [rewrite ?rd_wr_eq, ?wrf_eq by (rewrite ?zlen_wr; lia); done|]);
    intros c' p' Hc' Hp'; assert (p' = 0 ∨ p' = 1 ∨ p' = 2) as [-> |[-> | ->]] by lia;
    cbn -[rd wr wrf Z.to_nat reac_slave_headamp_gain b2z]; try done;
    (destruct (decide (c' = c)) as [->|Hne]; [rewrite ?(rd_wr_eq _ c), ?(wrf_eq _ c) by lia|rewrite ?(rd_wr_ne _ c c'), ?(wrf_ne _ c c') by lia]);
    tauto.
Qed.

Lemma rx_keeps s r :
  let t := (reac_slave_headamp_rx powf s r).1 in
  ha_ch_base (sl_ha t) = ha_ch_base (sl_ha s) ∧ sl_box_channels t = sl_box_channels s.
Proof. unfold reac_slave_headamp_rx. cbv zeta. by repeat case_match. Qed.

(** One turn of the loop, as far as the preamps go. *)
Lemma turn_ha s e i :
  ∃ t up, slave_turn powf s e i = (t, up, negb (match i with RX_DEAD => true | _ => false end)) ∧
    match i with
    | RX_FRAME f => same_ha (slave_frame powf (slave_phy s e).1 f e).1 t
    | _ => same_ha s t
    end.
Proof using.
  unfold slave_turn. pose proof (phy_ha s e) as Hp. destruct (slave_phy s e) as [a up]. simpl in Hp. destruct i as [f| | |].
  - simpl. destruct (slave_frame powf a f e) as [t o]. by eexists _, _.
  - pose proof (step_ha a FSM_EV_TICK None) as Hs. unfold reac_slave_step_tick.
    destruct (step_fsm a _ _) as [t d]. simpl in Hs.
    pose proof (steady_ha _ _ (steady_emit t d (env_clk e) (env_send e))) as He.
    destruct (emit_decision _ _ _ _) as [u o]. simpl in He. eexists _, _. split; [done|].
    etransitivity; [exact Hp|]. etransitivity; [exact Hs|exact He].
  - by eexists _, _.
  - by eexists _, _.
Qed.

Section Sweep.
Context (view : option reac_headamp_tx) (base w : Z) (rows : list (list Z)).
Context (Hview : view_ok view).
Context (Hrows : reac_grant_build_sweep REAC_GRANT_SWEEP_MAX (GrantAlloc base w) view = Some rows).
Let val (c p : Z) : Z := reac_headamp_tx_effective view (base + c) p.

(** The box the sweep was built for. *)
Definition swept_box (s : reac_slave) : Prop :=
  ha_fit s ∧ ha_ch_base (sl_ha s) = base ∧ sl_box_channels s = w.

(** The traffic of a link whose only head-amp records are the sweep's. *)
Definition sweep_traffic (i : slave_input) : Prop :=
  match i with
  | RX_FRAME f => is_headamp f = true → ∃ row, row ∈ rows ∧ delivers f row
  | RX_DEAD => False
  | _ => True
  end.

Lemma swept_same s t : same_ha s t → swept_box s → swept_box t.
Proof using. intros Hs (Hf & Hb & Hw). split_and!; [by eapply ha_fit_same|..]; destruct Hs; congruence. Qed.

Lemma sweep_frame s f :
  swept_box s → (is_headamp f = true → ∃ row, row ∈ rows ∧ delivers f row) →
  let t := if is_headamp f then (reac_slave_headamp_rx powf s (reac_ctrl_parse f (zlen f))).1 else s in
  swept_box t ∧
  (∀ c p, 0 ≤ c < w → 0 ≤ p < 3 → settled val s c p → settled val t c p) ∧
  (∀ c p, 0 ≤ c < w → 0 ≤ p < 3 → delivers f (groupa_row (base + c) p (val c p)) → settled val t c p).
Proof using Hview Hrows.
  intros (Hf & Hb & Hw) Hd. cbv zeta. destruct (is_headamp f) eqn:Eh; cycle 1.
  { split_and!; try done. intros c p _ _ Hdel. exfalso.
    destruct (headamp_carried f _ _ _ (delivers_groupa f _ _ _ Hdel)) as ((Hk & _) & _ & Hr).
    unfold is_headamp in Eh. by rewrite Hk, Hr in Eh. }
  destruct (rx_keeps s (reac_ctrl_parse f (zlen f))) as [Kb Kw].
  destruct (Hd eq_refl) as (row & Hin & Hdel).
  destruct (sweep_row_cases base w view rows row Hview Hrows Hin) as [Hfix|(c0 & p0 & Hc0 & Hp0 & ->)].
  { pose proof (fixed_inert f row Hfix Hdel). congruence. }
  destruct (headamp_carried f _ _ _ (delivers_groupa f _ _ _ Hdel)) as ((Hk & Ec & Ep & Ev) & _ & Hr).
  destruct (record_settles val s (reac_ctrl_parse f (zlen f)) c0 p0) as [Hset Hkeep];
    [done|lia|done|congruence|done|done|].
  split_and!.
  - split_and!; [by apply ha_fit_rx|congruence..].
  - intros c p Hc Hp. apply Hkeep; lia.
  - intros c p Hc Hp Hdel'.
    destruct (headamp_carried f _ _ _ (delivers_groupa f _ _ _ Hdel')) as ((_ & Ec' & Ep' & _) & _).
    assert (c = c0) as -> by lia. assert (p = p0) as -> by lia. done.
Qed.

Lemma sweep_run turns : ∀ s,
  swept_box s → Forall (λ t, sweep_traffic t.2) turns →
  let t := slave_run s turns in
  swept_box t ∧
  (∀ c p, 0 ≤ c < w → 0 ≤ p < 3 → settled val s c p → settled val t c p) ∧
  (∀ c p e f, 0 ≤ c < w → 0 ≤ p < 3 → (e, RX_FRAME f) ∈ turns →
     delivers f (groupa_row (base + c) p (val c p)) → settled val t c p).
Proof using Hview Hrows.
  induction turns as [|[e i] turns IH]; intros s Hs Ht.
  { split_and!; try done. intros c p e f _ _ Hin. by apply not_elem_of_nil in Hin. }
  inversion_clear Ht as [|? ? Hi Hts]. simpl in Hi. cbn [slave_run].
  destruct (turn_ha s e i) as (t & up & -> & Hta).
  assert (Hturn : swept_box t ∧
    (∀ c p, 0 ≤ c < w → 0 ≤ p < 3 → settled val s c p → settled val t c p) ∧
    (∀ c p f, 0 ≤ c < w → 0 ≤ p < 3 → i = RX_FRAME f →
       delivers f (groupa_row (base + c) p (val c p)) → settled val t c p)).
  { destruct i as [f| | |]; [|(split_and!; [by eapply swept_same|by intros; eapply settled_same|done])..].
    set (a := (slave_phy s e).1) in *. assert (Ha : same_ha s a) by apply phy_ha.
    destruct (sweep_frame a f (swept_same s a Ha Hs) Hi) as (B & K & D).
    assert (Hall : same_ha (if is_headamp f then (reac_slave_headamp_rx powf a (reac_ctrl_parse f (zlen f))).1 else a) t)
      by (etransitivity; [apply frame_ha|exact Hta]).
    split_and!.
    - by eapply swept_same.
    - intros c p Hc Hp Hset. eapply settled_same; [exact Hall|]. apply K; try done. by eapply settled_same.
    - intros c p g Hc Hp [= <-] Hdel. eapply settled_same; [exact Hall|]. by apply D. }
  destruct Hturn as (B & K & D).
  destruct i as [f| | |]; try done; simpl; destruct (IH t B Hts) as (B' & K' & D'); split_and!; try done; auto.
  all: intros c p e' g Hc Hp Hin Hdel; apply elem_of_cons in Hin as [Hin|Hin]; [|by eauto].
  all: injection Hin as; try done. apply K', D with (f := g); by subst.
Qed.
End Sweep.
End Preamps.

(** The tables of every reachable engine have their fixed sizes. *)
Lemma ha_fit_reach powf cfg nic_mac s : cfg_ok cfg nic_mac → slave_reach powf cfg nic_mac s → ha_fit s.
Proof.
  intros Hc. induction 1 as [|s ring _ IH|s e _ IH|s frame e _ IH|s e _ IH].
  - pose proof (ok_width _ (slave_ok_init cfg nic_mac Hc)) as Hw. apply box_width_ok_iff in Hw.
    unfold ha_fit. split_and!; try reflexivity. lia.
  - done.
  - by apply (ha_fit_same s); [apply phy_ha|].
  - eapply ha_fit_same; [apply frame_ha|]. destruct (is_headamp frame); [by apply ha_fit_rx|done].
  - apply (ha_fit_same s); [|done]. pose proof (step_ha s FSM_EV_TICK None) as [E1 E2].
    destruct (steady_ha _ _ (steady_emit (reac_slave_step_tick s).1 (reac_slave_step_tick s).2
      (env_clk e) (env_send e))) as [E3 E4]. unfold reac_slave_step_tick in *. split; congruence.
Qed.

(** C7. Enrolment reaches the preamps. Take any slave the engine reaches, and
    the sweep a master builds for a box of its width at its base, from any table
    of the operator. Whatever the loop does meanwhile (timeouts, link changes,
    other traffic, rows repeated or in any order), once every row of the sweep
    has come in on a frame the master stamped, and no other head-amp record, each
    input of the slave has the phantom, the pad and the sensitivity of the table,
    and the gain that sensitivity and that pad mean. *)
Theorem sweep_sets_preamps (powf : f32 → f32 → f32) cfg nic_mac s view rows
    (turns : list (turn_env * slave_input)) :
  cfg_ok cfg nic_mac → slave_reach powf cfg nic_mac s → view_ok view →
  let base := ha_ch_base (sl_ha s) in let w := sl_box_channels s in
  reac_grant_build_sweep REAC_GRANT_SWEEP_MAX (GrantAlloc base w) view = Some rows →
  Forall (λ t, sweep_traffic rows t.2) turns →
  (∀ row, row ∈ rows → ∃ e f, (e, RX_FRAME f) ∈ turns ∧ delivers f row) →
  let h := sl_ha (slave_run powf s turns) in
  ∀ c, 0 ≤ c < w →
    let phantom := reac_headamp_tx_effective view (base + c) REAC_HEADAMP_PHANTOM in
    let pad := reac_headamp_tx_effective view (base + c) REAC_HEADAMP_PAD in
    let sens := reac_headamp_tx_effective view (base + c) REAC_HEADAMP_SENS in
    (ha_phantom h).[c] = b2z (negb (phantom =? 0)) ∧ (ha_pad h).[c] = b2z (negb (pad =? 0)) ∧
    (ha_sens h).[c] = sens ∧
    ha_gain h !! Z.to_nat c = Some (reac_slave_headamp_gain powf sens (negb (pad =? 0))).
Proof.
  intros Hc Hr Hv base w Hs Ht Hall h c Hcw phantom pad sens.
  assert (Hb : swept_box base w s) by (split_and!; [by eapply ha_fit_reach|done..]).
  destruct (sweep_run powf view base w rows Hv Hs turns s Hb Ht) as (_ & _ & Hset).
  assert (Hp : ∀ p, 0 ≤ p < 3 →
    settled powf (λ c p, reac_headamp_tx_effective view (base + c) p) (slave_run powf s turns) c p).
  { intros p Hp. destruct (Hall _ (sweep_row_there base w view rows c p Hv Hs Hcw Hp)) as (e & f & Hin & Hd).
    by eapply Hset. }
  pose proof (Hp 0 ltac:(lia)) as H0. destruct (Hp 1 ltac:(lia)) as [H1 _]. destruct (Hp 2 ltac:(lia)) as [H2 H3].
  split_and!; [exact H0|exact H1|exact H2|]. subst h. rewrite H3, H1, H2.
  change (reac_headamp_tx_effective view (base + c) 1) with pad. by destruct (pad =? 0).
Qed.

(** The demo desk grants the demo slave with phantom set on its second input. *)
Definition demo_view : option reac_headamp_tx := Some (tx_state [OpSet 33 REAC_HEADAMP_PHANTOM 1]).
Definition demo_carrier : list Z := reac_downstream_build [] 0 12 7 demo_desk_mac.
Definition demo_sweep_turns (rows : list (list Z)) : list (turn_env * slave_input) :=
  (λ row, (demo_env, RX_FRAME (apply_block demo_carrier row))) <$> rows.

Lemma demo_delivers row : delivers (apply_block demo_carrier row) row.
Proof. exists demo_carrier. split_and!; [|vm_compute; reflexivity..|done]. by vm_compute. Qed.

Lemma demo_view_ok : view_ok demo_view.
Proof.
  destruct (tx_state_refines [OpSet 33 REAC_HEADAMP_PHANTOM 1]) as [I HI]; [repeat constructor; done|].
  by eapply view_ok_refines.
Qed.

Lemma sweep_sets_preamps_witness :
  ∃ rows, reac_grant_build_sweep REAC_GRANT_SWEEP_MAX (GrantAlloc 32 16) demo_view = Some rows ∧
    let h := sl_ha (slave_run demo_powf demo_slave (demo_sweep_turns rows)) in
    (ha_phantom h).[1] = 1 ∧ (ha_sens h).[1] = 0x20.
Proof.
  assert (Hc : cfg_ok demo_slave_cfg (zeros 6)) by (split; reflexivity).
  destruct (build_sweep_ok demo_view 32 16 demo_view_ok eq_refl) as (rows & Hs & _).
  exists rows. split; [exact Hs|]. cbv zeta.
  assert (Hb : ha_ch_base (sl_ha demo_slave) = 32) by (vm_compute; reflexivity).
  assert (Hw : sl_box_channels demo_slave = 16) by (vm_compute; reflexivity).
  pose proof (sweep_sets_preamps demo_powf demo_slave_cfg (zeros 6) demo_slave demo_view rows
    (demo_sweep_turns rows) Hc demo_slave_reach demo_view_ok) as H.
  cbv zeta in H. rewrite Hb, Hw in H.
  destruct (H Hs) with (c := 1) as (Hp & _ & Hn & _).
  - unfold demo_sweep_turns. apply Forall_fmap, Forall_forall. intros row Hr. simpl. intros _.
    exists row. split; [exact Hr|apply demo_delivers].
  - intros row Hr. exists demo_env, (apply_block demo_carrier row). split; [|apply demo_delivers].
    unfold demo_sweep_turns. apply list_elem_of_fmap. by exists row.
  - lia.
  - rewrite Hp, Hn. vm_compute. split; reflexivity.
Defined.
