(* ===== verification/SlaveBox.v ===== *)
(** * SlaveBox: enrolling with a stagebox that masters the wire

    The abstract automaton of the cold-connect grid that [bm_control] walks on
    such a wire: announce, a gap, a burst of three records, a heartbeat, then a
    wait of two seconds. [bm_control] is proved to implement it in the mode that
    counts slots and while no scene transfer runs, whatever else the engine does
    between its slots. *)

From S2P Require Import Prelude Wire Sample Codec CtrlBlk Identity BoxModel SlaveFsm CtrlFrames Ring Slave.
Local Open Scope Z_scope.

(** The place in the grid; [GWait] knows when its wait began. *)
Inductive grid :=
| GAnnounce | GGap | GArm | GHead | GReady | GBeat | GSettle | GWait (since : Z).

(** The control frames of the enrolment. *)
Inductive control := KAnnounce | KJoin | KHead | KReady | KHeartbeat.

(** A cold-connect slot: whether it is a join slot, and its two readings of the
    clock. *)
Record slot := Slot { st_join : bool; st_sent : Z; st_retry : Z }.

Definition waited (since now : Z) : grid :=
  if REAC_BM_RETRY_NS <=? u64 (now - since) then GAnnounce else GWait since.

Definition grid_step (g : grid) (i : slot) : grid * option control :=
  match g with
  | GHead => (GReady, Some KHead)
  | GReady => (GBeat, Some KReady)
  | GBeat => (GSettle, Some KHeartbeat)
  | _ =>
      if negb (st_join i) then (g, None)
      else
        match g with
        | GAnnounce => (GGap, Some KAnnounce)
        | GGap => (GArm, None)
        | GArm => (GHead, Some KJoin)
        | GSettle => (waited (st_sent i) (st_retry i), None)
        | GWait since => (waited since (st_retry i), None)
        | _ => (g, None)
        end
  end.

Fixpoint grid_run (g : grid) (l : list slot) : grid * list control :=
  match l with
  | [] => (g, [])
  | i :: l =>
      let '(g, k) := grid_step g i in let '(g, ks) := grid_run g l in (g, option_list k ++ ks)
  end.

(** ** Refinement *)

(** The bookkeeping of the engine is at a place of the grid. *)
Definition at_grid (b : box_master_state) (g : grid) : Prop :=
  match g with
  | GAnnounce => bm_seq b = 0 ∧ bm_burst b = 0 ∧ bm_burst_just_ended b = false ∧ bm_burst_sent_ns b = 0
  | GGap => bm_seq b = 1 ∧ bm_burst b = 0 ∧ bm_burst_just_ended b = false ∧ bm_burst_sent_ns b = 0
  | GArm => bm_seq b = 2 ∧ bm_burst b = 0 ∧ bm_burst_just_ended b = false ∧ bm_burst_sent_ns b = 0
  | GHead => bm_seq b = 3 ∧ bm_burst b = 2 ∧ bm_burst_just_ended b = false ∧ bm_burst_sent_ns b = 0
  | GReady => bm_seq b = 3 ∧ bm_burst b = 1 ∧ bm_burst_just_ended b = false ∧ bm_burst_sent_ns b = 0
  | GBeat => bm_seq b = 3 ∧ bm_burst b = 0 ∧ bm_burst_just_ended b = true ∧ bm_burst_sent_ns b = 0
  | GSettle => bm_seq b = 3 ∧ bm_burst b = 0 ∧ bm_burst_just_ended b = false ∧ bm_burst_sent_ns b = 0
  | GWait since =>
      bm_seq b = 3 ∧ bm_burst b = 0 ∧ bm_burst_just_ended b = false ∧ bm_burst_sent_ns b = since ∧ since ≠ 0
  end.

(** The frame of a control step, built as the engine stands. *)
Definition control_frame (s : reac_slave) (planar : planes) (k : control) : option (list Z) :=
  let master := f_master_mac (sl_fsm s) in
  let build f := f master (sl_src s) (f_counter (sl_fsm s)) (sl_box_channels s) planar REAC_SAMPLES_PER_PKT in
  match k with
  | KAnnounce => bm_announce s
  | KJoin => build reac_ctrl_build_coldconnect
  | KHead => build reac_ctrl_build_coldconnect_head
  | KReady => build reac_ctrl_build_coldconnect_0013
  | KHeartbeat => slave_heartbeat s
  end.

Definition slot_of (d : reac_slave_decision) (clk : clock_readings) : slot :=
  Slot (d_with_join d) (t_sent clk) (t_retry clk).

Definition is_announce (k : option control) : bool :=
  match k with Some KAnnounce => true | _ => false end.

(** The rest of the slave is carried along. *)
Ltac grid_cbn :=
  cbn -[reac_ctrl_build_coldconnect reac_ctrl_build_coldconnect_head reac_ctrl_build_coldconnect_0013
        reac_ctrl_build_config_announce_box_master reac_ctrl_build_box_hb bm_scene_quiet u64 REAC_BM_RETRY_NS].

(** The wait, from either side of its start. *)
Lemma pace_wait b since t1 t2 :
  at_grid b (GWait since) →
  at_grid (bm_pace b t1 t2) (waited since t2) ∧ bm_announce_sent (bm_pace b t1 t2) = bm_announce_sent b.
Proof.
  intros (Hq & Hb & Hj & Hs & Hn). destruct b. cbn in *. subst. unfold bm_pace, waited. grid_cbn.
  replace (since =? 0) with false by lia. grid_cbn. replace (since =? 0) with false by lia. grid_cbn.
  by destruct (_ <=? _).
Qed.

Lemma pace_settle b t1 t2 :
  at_grid b GSettle → t1 ≠ 0 →
  at_grid (bm_pace b t1 t2) (waited t1 t2) ∧ bm_announce_sent (bm_pace b t1 t2) = bm_announce_sent b.
Proof.
  intros (Hq & Hb & Hj & Hs) Hn. destruct b. cbn in *. subst. unfold bm_pace, waited. grid_cbn.
  replace (t1 =? 0) with false by lia. grid_cbn. by destruct (_ <=? _).
Qed.

Lemma pace_frame b t1 t2 :
  bm_burst_chanmap (bm_pace b t1 t2) = bm_burst_chanmap b ∧ bm_last_scene_ns (bm_pace b t1 t2) = bm_last_scene_ns b.
Proof. unfold bm_pace. split_ifs; by destruct b. Qed.


(** A box-master configuration, listening done, on its first join slot. *)
Definition demo_box_slave : reac_slave :=
  reac_slave_fsm_init (Some (SlaveCfg 8 48000 (Some [0; 0x40; 0xab; 1; 2; 3]) true false false false 0 None)) (zeros 6).


(** Once begun, a burst runs to its heartbeat on the next four slots. *)
Lemma burst_is_whole a b c d :
  st_join a = true → grid_run GArm [a; b; c; d] = (GSettle, [KJoin; KHead; KReady; KHeartbeat]).
Proof. intros Ha. simpl. by rewrite Ha. Qed.

(** A scene transfer that runs through the announce slot costs the announce and
    not the burst: the join goes out two slots later, undeclared and with the
    transfer still running. *)
Lemma join_during_transfer :
  let d := Decision_ REAC_SLAVE_EMIT_COLDCONNECT false true FSM_COLDCONNECT in
  let s0 := on_bm (set_bm_last_scene_ns 1000) demo_box_slave in
  let '(s1, c1) := bm_control s0 d [] (Clk 1 2000 3 4) in
  let '(s2, c2) := bm_control s1 d [] (Clk 1 3000 3 4) in
  let '(s3, c3) := bm_control s2 d [] (Clk 1 4000 3 4) in
  c1 = None ∧ c2 = None ∧ bm_scene_quiet (sl_bm s2) 4000 = false ∧
  c3 = control_frame s2 [] KJoin ∧ is_Some c3 ∧ bm_announce_sent (sl_bm s3) = false.
Proof. vm_compute. split_and!; try done. by eexists. Qed.
